(* ===== verification/_CoqProject ===== *)
-Q . S2P
Prelude.v
Words.v
Slices.v
Text.v
CivilDate.v
Feistel.v
Base64.v
ChaCha.v
Sha256.v
Hkdf.v
Aes.v
Gcm.v
Obfs.v
ObfsMask.v
ObfsHeader.v
ObfsRoundtrip.v
Syslog.v
Sip.v
SipProofs.v
SipDate.v
Results.v
StrOps.v
Net.v
Config.v
ConfigProofs.v
ConfigPrint.v
SharedAddr.v
Batch.v
Proxy.v
ProxyTotal.v
ProxyTunnel.v
ProxyRouting.v
ProxySetup.v
Threads.v
ThreadsAlone.v
ThreadLogic.v
ThreadsProofs.v
Netlink.v
NetlinkParse.v
Frames.v
Links.v
LinksSpec.v
SimKernel.v
Tun.v
TunProofs.v
Routes.v
RoutesProofs.v
Loader.v
LoaderProofs.v
TcLoad.v
TcLaws.v
TcProofs.v
TcServe.v
TcManager.v
Daemon.v
DaemonLogic.v
DaemonSignals.v
DaemonProofs.v
DaemonClock.v
SimBpf.v
Build.v
DaemonExamples.v
Cli.v
Installer.v
InstallerProofs.v
WinRoute.v
WinRouteProofs.v
WinWfp.v
WinWfpProofs.v
Sockets.v
WinInstaller.v
BpfCommon.v
BpfEgress.v
BpfEgressProofs.v
BpfSend.v
BpfIngress.v
BpfReceive.v
BpfDeliver.v
BpfChannel.v
BpfSafe.v
