(* ===== verification/Prelude.v ===== *)
(** * gutd: a verification development

    gutd tunnels the UDP datagrams of a WireGuard interface through packets
    that look like other traffic: QUIC, noise, syslog lines or SIP calls.
    This library models the Rust program under [src/], and the packet
    programs it loads into the kernel, and proves what makes them correct.  It
    is a shallow embedding: each function is a Rocq function of the same name,
    executable, and the theorems are about these functions.

    ** The program and how its parts interact

    - [config.rs] reads the configuration (a file or the environment).
    - [main.rs] starts one of two data paths for it; on the kernel path it
      then runs the daemon loop, which answers the signals whose flags
      [reload.rs] keeps, reloads the configuration, refreshes what depends on
      the network and writes the counters.
    - On Windows, [windows_route.rs] pins the route to the peer to a physical
      interface, and [windows_wfp.rs] keeps filters in place that let the
      program's packets through; [run] starts both.
    - [installer.rs] installs the binary as a service and removes it.
    - The userspace path, [userspace.rs]: [run] makes one egress thread per
      peer (WireGuard to peer) and one ingress thread per port (peer to
      WireGuard).  A thread receives datagrams in batches ([BatchRecv]),
      obfuscates or restores each in place ([obfs_encap], [obfs_verify],
      [obfs_decap]), adds or removes the envelope of the mode
      ([proto/syslog.rs], [proto/sip.rs], with [proto/base64.rs]) and shares
      what it learns about peers through lock-free addresses ([SharedAddr])
      and tables.
    - The protocol and crypto modules that both paths use: masking
      ([proto/mask_balanced.rs]), the Feistel permutation
      ([proto/feistel.rs]), QUIC Initial keys ([proto/quic.rs]), SHA-256,
      HMAC, HKDF, AES-128 and GCM ([crypto.rs]).
    - The kernel path: [tun.rs] creates a veth pair with [netlink.rs], and
      [tc/loader.rs] finds the route and the hardware address of the next
      hop, fills the configuration map of the packet programs
      ([tc/maps.rs]), loads them and reads their statistics.
    - The packet programs, C code under [src/src/bpf], do in the kernel what
      the userspace path does in its threads: [gut_egress] hides the messages
      that leave through the veth pair, [xdp_dispatch] chooses a program by
      the port, and [gut_xdp_core] restores the messages that arrive.
      [build.rs] compiles them once for each mode and address family.

    ** Which file models what

    Shared foundations:
    - [Prelude]: outcomes (a Rust call returns or panics), counted loops,
      list lemmas, hint databases and tactics.
    - [Words], [Slices], [Text], [StrOps], [Results]: machine integers with
      their wrap-around, checked slice accesses, formatting and searching
      bytes, the [str] methods, and [Result] with the [?] operator.
    - [CivilDate]: Hinnant's day-to-date algorithm, against the calendar.
    - [Net]: [std::net] addresses and their parser.

    Protocols and crypto ([src/src/proto], [src/src/crypto.rs]):
    - [Feistel], [Base64], [ChaCha], [Syslog]: feistel.rs, base64.rs,
      mask_balanced.rs, syslog.rs.
    - [Sip], [SipProofs], [SipDate]: sip.rs with its cached date.
    - [Sha256], [Hkdf], [Aes], [Gcm]: crypto.rs, and quic.rs in [Hkdf].

    The userspace path ([src/src/userspace.rs]):
    - [Obfs]: the obfuscation itself; [ObfsMask], [ObfsHeader] and
      [ObfsRoundtrip] hold its theory.
    - [SharedAddr]: the cells of an address, as functions and as a step
      relation in which a store and a load interleave.
    - [Batch]: the receive slots; the slice handed out is the slot itself.
    - [Proxy]: one iteration of the egress and the ingress loop on the
      shared state, and the setup of [run].  [ProxyTotal], [ProxyTunnel],
      [ProxyRouting] and [ProxySetup] hold its theory.
    - [Threads]: the same iterations as sequences of atomic accesses (cells,
      locks, tables), and a world of threads that interleave at them.
      [ThreadsAlone] shows that an iteration without interference is that of
      [Proxy]; [ThreadLogic] has the logic of interleaved iterations,
      [ThreadsProofs] their theory and executed schedules.
    - [Sockets]: the sockets, their options and the threads of [run], and what
      [run] does on Windows before.

    Configuration ([src/src/config.rs]):
    - [Config]: the file parser, the builder with its defaults and the
      environment loader; [ConfigProofs] and [ConfigPrint] hold its theory.

    The kernel path:
    - [Netlink], [NetlinkParse], [Frames]: the messages of
      [src/src/netlink.rs], the parsing of the answers, and the ARP, probe
      and neighbour solicitation frames, with the echo requests of
      [src/src/tc/loader.rs].
    - [Links]: the operations on interfaces, over the class [NetKernel] of
      the kernel calls they use.  [LinksSpec] states as [NetKernelLaws] what
      the kernel documents about these calls, with requests read back from
      their bytes; [SimKernel] is an executable instance of the laws.
    - [Tun], [TunProofs]: [src/src/tun.rs], proved against the laws.
    - [Routes], [RoutesProofs]: the route and next-hop lookups of
      [src/src/tc/loader.rs].
    - [Loader], [LoaderProofs]: [src/src/tc/maps.rs], [build_gut_config] and
      the statistics of [src/src/tc/loader.rs].
    - [TcLoad]: the rest of [src/src/tc/loader.rs]: the skeletons of the
      packet programs, the XDP dispatcher of an interface and
      [TcBpfManager], over the class [BpfKernel] of the libbpf calls they
      use.  [TcLaws] states as [BpfLaws] what is documented about these
      calls (a descriptor names a map, an update changes one entry of one
      map, [reuse_fd] makes two descriptors name the same map); [SimBpf] is
      an executable instance.  [TcProofs] has what each operation does to
      the maps, [TcServe] the invariant of all managers and dispatchers
      together, [TcManager] that making and updating a manager keep it.
    - [Build]: [src/build.rs], the version text and the objects it generates.

    The packet programs ([src/src/bpf]):
    - [BpfCommon]: the functions of gut_common.h that the modelled programs
      use, the class [PacketKernel] of the helpers of the kernel with what is
      documented about them in [PacketLaws] (and in [PacketReliable] that
      memory does not run out), and the monad of a program: [Err] is an early
      return with a verdict, [Abort] an access outside of the packet; and the
      layout of the frames.
    - [BpfEgress]: tc_gut_egress.bpf.c.  [BpfEgressProofs] and [BpfSend]
      follow it step by step.
    - [BpfIngress]: xdp_gut_ingress.bpf.c and xdp_dispatcher.bpf.c.
      [BpfReceive] has what the userspace path makes of a payload and the
      steps of the program, [BpfDeliver] its run.
    - [BpfChannel]: an executable instance of the helpers, both programs
      together, and runs; [BpfSafe]: that they stay inside the packet, and the
      dispatcher.

    Daemon, command line and installer:
    - [Daemon]: the flags of [src/src/reload.rs] and the daemon loop of
      [src/src/main.rs].  A [turn] holds what the system does during one
      turn of the loop: signals at each point between two accesses to the
      flags, answers, files and failures.  The log records what happened.
      [DaemonLogic] has the program logic of the loop, [DaemonSignals] (with
      the installation of the handlers), [DaemonProofs] and [DaemonClock] its
      theory, [DaemonExamples] runs on the two executable kernels.
    - [Cli]: arguments, subcommands and help text of [src/src/main.rs], and
      the counters and words of the loader's messages.
    - [Installer], [InstallerProofs]: [src/src/installer.rs] on Linux, with
      files, modes and the commands that are run as state; [WinInstaller]: the
      same on Windows.

    Windows:
    - [WinRoute], [WinRouteProofs]: [src/src/windows_route.rs] over the class
      [WinNet] of the IP Helper calls, with the laws of the routing table in
      [WinNetLaws] and an executable table.
    - [WinWfp], [WinWfpProofs]: [src/src/windows_wfp.rs] over the class
      [WfpEngine] of the filtering platform, with its laws in [WfpLaws] and an
      executable platform.  The watchdog runs over turns, in each of which
      other programs may change the platform.

    ** What the theorems show

    - The tunnel: what one end sends the other end delivers, in every mode
      and role ([tunnel_delivers], over [obfs_roundtrip] and the round trips
      of the envelopes); only datagrams that pass verification change the
      state or reach WireGuard ([ingress_authenticated]); no datagram stops
      an ingress thread ([ingress_total]); a dynamic server answers the
      address its client was last heard from ([dynamic_routing]); [run] makes
      the sockets and threads of the configuration or refuses ([run_starts]).
    - The threads: in every interleaving of the egress and the ingress
      threads, access by access, no thread panics and the tables are what some
      sequence of whole iterations makes of them ([threads_linearizable]); an
      iteration that has begun can always go on and ends
      ([threads_deadlock_free]); run alone it is the iteration of [Proxy]
      ([threads_refine_iterations]).
    - The packet programs: the sender puts exactly the datagram of
      [obfs_encap] into a correct frame to the peer
      ([kernel_egress_is_userspace]); the receiver accepts what [obfs_verify]
      accepts, but for a padding of 64 bytes, and delivers what [obfs_decap]
      restores ([kernel_ingress_is_userspace]), so the two paths understand
      each other and themselves ([kernel_roundtrip]); neither program reaches
      outside of the packet ([packet_programs_safe]); the build generates the
      objects the loader opens ([objects_for_loader]).
    - Shared memory: a load that runs during the first store returns nothing
      or the stored address under every interleaving
      ([shared_addr_publication]); a batch is delivered in order and intact
      ([batch_in_order], [batch_sizes]).
    - Crypto against its standards: the streaming SHA-256 and the padded
      FIPS 180-4 hash, HKDF and RFC 5869, AES and FIPS 197, GCM and
      SP 800-38D, the QUIC keys and RFC 9001; the masking and the Feistel
      permutation are invertible.
    - Configuration: a loaded configuration is valid
      ([parse_config_valid], [env_config_valid]), every key is read into its
      field ([config_roundtrip]), and an ASCII file never panics.
    - The kernel: requests carry exactly what they are given
      ([netlink_requests]); no answer makes the parsers read out of bounds
      or loop ([kernel_replies_safe]); lookups and resolvers return the
      first valid answer; the veth pair is set up whatever was left over
      ([veth_pair_configured]); routes are longest-prefix matches; the
      packet programs get the keys the userspace path uses
      ([gut_config_correct]).
    - The daemon: from the setup on and after any turns of the loop, each
      port of each peer leads through the dispatcher to the peer's program,
      and both programs of the peer read the record built from what was last
      applied to it ([daemon_serves]); no signal is lost
      ([signals_answered]); files are written on schedule and the counters
      of the loop never overflow ([daemon_schedule]); a refresh applies the
      start-up configuration ([refresh_applies_start]).
    - Command line and installer: a generated key is one the configuration
      reads ([genkey_usable]); the installed service starts the daemon with
      the installed configuration ([installed_service_starts]); what is
      installed is removed and nothing else ([install_uninstall]).
    - Windows: the pinned route goes over the best physical interface and
      comes and goes without touching other routes ([pin_route_correct]); an
      installation of the filters is complete or leaves nothing behind
      ([bypass_installed]); the watchdog puts lost filters back or counts its
      failures until it gives up ([watchdog_keeps_bypass]).

    ** Conventions, bounds and fuel

    - Integers are in [Z] at their Rust width.  The release profile has no
      overflow checks, so [+], [-] and [*] wrap where the source does not
      say otherwise; [panic = "abort"], so a panic is the value [Panic]
      ([Abort] in [Results.res]) and ends everything.
    - Bytes and [str] are lists of integers below 256.  Native order is
      little-endian, as on all of the supported targets.
    - Loops over ranges and slices are structural.  A [while] loop has fuel;
      running out is a panic, so a theorem that excludes a panic also shows
      termination.  The message and attribute walks of [NetlinkParse] have
      fuel [S (length buf)], one more than the bytes that each turn consumes
      at least one of.  The checksum folding of [Frames] has fuel 4: a sum
      of 32 bits is folded after two turns.  [SharedAddr] bounds the number
      of steps of the two threads.  An iteration of a proxy thread has at most
      22 accesses, which bounds the number of steps until it ends.
    - A packet program is compiled for 0 to 21 rounds of ChaCha; the theorems
      about it say so.
    - Parameters stand for what is outside the program: the clock, the
      environment and files, the datagrams that a socket returns, the
      kernel.  A theorem that relies on a documented behaviour names it as a
      hypothesis or as a field of [NetKernelLaws], [BpfLaws],
      [PacketLaws], [WinNetLaws] or [WfpLaws]; each has an executable instance, on which the witnesses
      are evaluated.
    - The buffer for the path of the executable doubles at most five times
      before the code gives up, so fuel 6 is enough ([exe_path_loop_spec]).
    - The daemon loop has no fuel: [run_ticks] takes the list of the turns
      so far, and the theorems hold for every list.

    ** Not modelled

    - Of the packet programs: the syslog and SIP modes, the tail program that
      writes the QUIC long header, the handlers that answer probes, and the
      parts of gut_common.h that only these use or that nothing calls.
    - The debug and progress messages, beyond the statistics, the counters,
      the keys and the help text.
    - The socket loops of other platforms ([recv_from] instead of batches):
      their body is the iteration that is modelled.
    - On Windows, other programs act on routes and filters only while the
      watchdog sleeps, not between two calls of one turn.
    - The tests of the crate. *)

From stdpp Require Export base tactics list numbers strings.

Declare Scope gutd_scope.
Delimit Scope gutd_scope with gutd.

(** ** Outcomes

    A Rust function either returns or panics (out-of-range index, slice
    length mismatch, failed [unwrap] or [assert!]).  The release profile of
    [Cargo.toml] has [panic = "abort"], so a panic ends the process. *)

Inductive outcome (A : Type) : Type :=
| Done (a : A)
| Panic.
Arguments Done {_} _.
Arguments Panic {_}.

#[global] Instance outcome_ret : MRet outcome := λ A a, Done a.
#[global] Instance outcome_bind : MBind outcome := λ A B f m,
  match m with Done a => f a | Panic => Panic end.
#[global] Instance outcome_fmap : FMap outcome := λ A B f m,
  match m with Done a => Done (f a) | Panic => Panic end.

#[global] Instance outcome_eq_dec {A} `{EqDecision A} : EqDecision (outcome A).
Proof. solve_decision. Defined.

#[global] Instance Done_inj {A} : Inj (=) (=) (@Done A).
Proof. by intros ?? [= ->]. Qed.

(** [unwrap] and [expect] on an [Option]. *)
Definition unwrap {A} (o : option A) : outcome A :=
  match o with Some a => Done a | None => Panic end.

(** [assert!] *)
Definition assert_ (b : bool) : outcome unit := if b then Done tt else Panic.

Lemma bind_Done {A B} (a : A) (f : A → outcome B) : (Done a ≫= f) = f a.
Proof. done. Qed.

Lemma bind_Done_inv {A B} (m : outcome A) (f : A → outcome B) b :
  (m ≫= f) = Done b → ∃ a, m = Done a ∧ f a = Done b.
Proof. destruct m; simpl; naive_solver. Qed.

Lemma bind_assoc {A B C} (m : outcome A) (f : A → outcome B) (g : B → outcome C) :
  ((m ≫= f) ≫= g) = (m ≫= λ a, f a ≫= g).
Proof. by destruct m. Qed.

(** ** Counted loops

    [for i in lo..hi { body }] is [for_range lo (hi - lo) body]; the body
    threads its mutable state and may panic. *)

Fixpoint for_range {S : Type} (i n : nat) (f : nat → S → outcome S) (s : S)
    : outcome S :=
  match n with
  | O => Done s
  | Datatypes.S n' => s' ← f i s; for_range (Datatypes.S i) n' f s'
  end.

(** A loop whose body always returns computes a fold. *)
Lemma for_range_fold {S} (f : nat → S → outcome S) (g : nat → S → S)
    (Inv : nat → S → Prop) n i s :
  Inv i s →
  (∀ j s, i ≤ j < i + n → Inv j s → f j s = Done (g j s) ∧ Inv (Datatypes.S j) (g j s)) →
  for_range i n f s = Done (foldl (λ s j, g j s) s (seq i n)) ∧
  Inv (i + n) (foldl (λ s j, g j s) s (seq i n)).
Proof.
  revert i s. induction n as [|n IH]; intros i s Hs Hstep; simpl.
  { by rewrite Nat.add_0_r. }
  destruct (Hstep i s) as [-> Hi]; [lia|done|]. rewrite bind_Done.
  rewrite <- Nat.add_succ_comm. apply IH; [done|].
  intros j t Hj Ht. apply Hstep; [lia|done].
Qed.

(** Loops whose bodies agree on their range. *)
Lemma for_range_ext {S} (f g : nat → S → outcome S) i n s :
  (∀ j s, i ≤ j < i + n → f j s = g j s) → for_range i n f s = for_range i n g s.
Proof.
  revert i s. induction n as [|n IH]; intros i s H; [done|]. cbn [for_range].
  rewrite H by lia. destruct (g i s); [|done]. simpl. apply IH.
  intros j t Hj. apply H. lia.
Qed.

(** ** Lists *)

(** Pointwise equality from agreement on every index. *)
Lemma list_eq_lookup {A} (l k : list A) :
  length l = length k → (∀ i, i < length l → l !! i = k !! i) → l = k.
Proof.
  intros Hlen Hi. apply list_eq. intros i.
  destruct (decide (i < length l)) as [?|?]; [by apply Hi|].
  rewrite !lookup_ge_None_2; [done|lia..].
Qed.

Lemma list_eq_total {A} `{Inhabited A} (l k : list A) : length l = length k →
  (∀ i, i < length l → l !!! i = k !!! i) → l = k.
Proof.
  intros Hl Hi. apply list_eq_lookup; [done|]. intros i Hlt.
  rewrite !list_lookup_lookup_total_lt by lia. f_equal. by apply Hi.
Qed.

(** The bytes of a window of a list. *)
Definition window {A} (lo n : nat) (l : list A) : list A := take n (drop lo l).

Lemma length_window {A} lo n (l : list A) :
  lo + n ≤ length l → length (window lo n l) = n.
Proof. intros. unfold window. rewrite length_take, length_drop. lia. Qed.

Lemma lookup_window {A} lo n (l : list A) i :
  window lo n l !! i = if decide (i < n) then l !! (lo + i) else None.
Proof.
  unfold window. case_decide.
  - rewrite lookup_take_lt by lia. apply lookup_drop.
  - rewrite lookup_take_ge; [done|lia].
Qed.

(** Two windows agree when the lists agree on their indices. *)
Lemma window_ext {A} lo lo' n (l k : list A) :
  (∀ i, i < n → l !! (lo + i) = k !! (lo' + i)) → window lo n l = window lo' n k.
Proof.
  intros H. apply list_eq. intros i. rewrite !lookup_window.
  case_decide; [by apply H|done].
Qed.

Lemma window_0 {A} n (l : list A) : window 0 n l = take n l.
Proof. done. Qed.

Lemma window_all {A} (l : list A) : window 0 (length l) l = l.
Proof. unfold window. by rewrite drop_0, firstn_all. Qed.

Lemma window_app_r {A} n (l k : list A) :
  window (length l) n (l ++ k) = take n k.
Proof. unfold window. by rewrite drop_app_length. Qed.

Lemma window_inserts {A} lo (k l : list A) :
  lo + length k ≤ length l → window lo (length k) (list_inserts lo k l) = k.
Proof.
  intros H. apply list_eq. intros i. rewrite lookup_window. case_decide.
  - rewrite list_lookup_inserts by lia. f_equal. lia.
  - by rewrite lookup_ge_None_2 by lia.
Qed.

(** Lookup in a block write. *)
Lemma lookup_list_inserts {A} lo (k l : list A) i :
  lo + length k ≤ length l →
  list_inserts lo k l !! i =
    if decide (lo ≤ i < lo + length k) then k !! (i - lo) else l !! i.
Proof.
  intros H. case_decide.
  - apply list_lookup_inserts; lia.
  - destruct (decide (i < lo)).
    + apply list_lookup_inserts_lt; lia.
    + apply list_lookup_inserts_ge; lia.
Qed.

(** A block write as a concatenation. *)
Lemma list_inserts_app {A} lo (k l : list A) :
  lo + length k ≤ length l →
  list_inserts lo k l = take lo l ++ k ++ drop (lo + length k) l.
Proof.
  intros H. apply list_eq. intros i. rewrite lookup_list_inserts by done.
  assert (Hlo : length (take lo l) = lo) by (rewrite length_take; lia).
  repeat case_decide.
  - rewrite lookup_app_r by lia. rewrite Hlo. rewrite lookup_app_l by lia. done.
  - destruct (decide (i < lo)).
    + rewrite lookup_app_l by lia. by rewrite lookup_take_lt by lia.
    + rewrite lookup_app_r by lia. rewrite Hlo, lookup_app_r by lia.
      rewrite lookup_drop. f_equal. lia.
Qed.

(** Stores at increasing addresses are one block write. *)
Lemma list_inserts_snoc {A} lo (k l : list A) x :
  list_inserts lo (k ++ [x]) l = <[lo + length k := x]> (list_inserts lo k l).
Proof.
  revert lo. induction k as [|y k IH]; intros lo; simpl.
  { by rewrite Nat.add_0_r. }
  rewrite IH, Nat.add_succ_r. apply list_insert_insert_ne. lia.
Qed.

Lemma list_inserts_app_r {A} lo (k1 k2 l : list A) :
  list_inserts lo (k1 ++ k2) l =
    list_inserts (lo + length k1) k2 (list_inserts lo k1 l).
Proof.
  revert k1. induction k2 as [|x k2 IH] using rev_ind; intros k1.
  { by rewrite app_nil_r. }
  rewrite app_assoc, !list_inserts_snoc, IH, length_app. f_equal. lia.
Qed.

Lemma Forall_window {A} (P : A → Prop) lo n l : Forall P l → Forall P (window lo n l).
Proof. intros. unfold window. by apply Forall_take, Forall_drop. Qed.

Lemma Forall_list_inserts {A} (P : A → Prop) lo k l :
  Forall P k → Forall P l → Forall P (list_inserts lo k l).
Proof.
  revert lo. induction k as [|x k IH]; intros lo Hk Hl; simpl; [done|].
  inversion Hk; subst. apply Forall_insert; auto.
Qed.

(** Total lookup at an in-range index satisfies what every element does. *)
Lemma Forall_lookup_total {A} `{Inhabited A} (P : A → Prop) (l : list A) i :
  Forall P l → i < length l → P (l !!! i).
Proof.
  intros Hl Hi. rewrite Forall_lookup in Hl. apply (Hl i).
  by apply list_lookup_lookup_total_lt.
Qed.

(** A boolean property of every integer below a bound, by evaluation. *)
Lemma check_below (P : Z → bool) (n : nat) :
  forallb P (Z.of_nat <$> seq 0 n) = true →
  ∀ v, (0 ≤ v < Z.of_nat n)%Z → P v = true.
Proof.
  intros H v Hv. rewrite forallb_forall in H. apply H.
  apply list_elem_of_In, list_elem_of_fmap. exists (Z.to_nat v).
  rewrite Z2Nat.id by lia. split; [done|]. apply elem_of_seq. lia.
Qed.

Lemma check_below_P (P : Z → Prop) `{∀ v, Decision (P v)} (n : nat) :
  forallb (λ v, bool_decide (P v)) (Z.of_nat <$> seq 0 n) = true →
  ∀ v, (0 ≤ v < Z.of_nat n)%Z → P v.
Proof.
  intros Hc v Hv. apply (bool_decide_eq_true (P v)).
  exact (check_below _ n Hc v Hv).
Qed.

(** The same over a range of [Z], without unary numbers. *)
Fixpoint check_from (P : Z → bool) (n : nat) (z : Z) : bool :=
  match n with
  | O => true
  | S n => P z && check_from P n (z + 1)%Z
  end.

Lemma check_from_spec (P : Z → bool) n z :
  check_from P n z = true → ∀ v, (z ≤ v < z + Z.of_nat n)%Z → P v = true.
Proof.
  revert z. induction n as [|n IH]; intros z H v Hv; [lia|].
  cbn [check_from] in H. apply andb_true_iff in H as [H1 H2].
  destruct (decide (v = z)) as [->|]; [done|]. apply (IH (z + 1)%Z); [done|lia].
Qed.

(** ** The development's automation *)

Create HintDb gutd.
#[export] Hint Resolve Forall_window Forall_list_inserts Forall_app_2
  Forall_take Forall_drop : gutd.

(** Rewrite the length of a block built from writes. *)
Create Rewrite HintDb gutd_len.
#[export] Hint Rewrite @length_insert @length_inserts @length_app @length_take
  @length_drop @length_replicate @length_fmap @length_seq @length_zip_with
  @length_imap @length_cons @length_nil : gutd_len.

Ltac len := autorewrite with gutd_len in *; try lia.

(** [lia] with division and remainder by constants. *)
Ltac dlia := zify; Z.to_euclidean_division_equations; lia.

(** Case analysis on the boolean comparisons a definition branches on. *)
Ltac case_bool :=
  match goal with
  | |- context [ Nat.ltb ?a ?b ] => destruct (Nat.ltb_spec a b)
  | |- context [ Nat.leb ?a ?b ] => destruct (Nat.leb_spec a b)
  | |- context [ Nat.eqb ?a ?b ] => destruct (Nat.eqb_spec a b)
  | |- context [ Z.ltb ?a ?b ] => destruct (Z.ltb_spec a b)
  | |- context [ Z.leb ?a ?b ] => destruct (Z.leb_spec a b)
  | |- context [ Z.eqb ?a ?b ] => destruct (Z.eqb_spec a b)
  end.
