(* ===== verification/Words.v ===== *)
(** * Machine integers

    [u8], [u16], [u32] and [u64] values are integers of type [Z] in their
    range; the wrap-around of each operation is written out.  The byte order
    conversions ([to_le_bytes], [from_be_bytes], ...) are list functions on
    bytes.  [transmute] of [[u32; 16]] to [[u8; 64]] and the [_ne_]
    conversions are the little-endian ones (the x86-64 and aarch64 targets). *)

From S2P Require Import Prelude.
Local Open Scope Z_scope.

(** ** Ranges and wrap-around *)

Definition in_width (w : Z) (z : Z) : Prop := 0 ≤ z < 2 ^ w.
Abbreviation is_u8 := (in_width 8).
Abbreviation is_u16 := (in_width 16).
Abbreviation is_u32 := (in_width 32).
Abbreviation is_u64 := (in_width 64).

#[global] Instance in_width_dec w z : Decision (in_width w z).
Proof. unfold in_width. solve_decision. Defined.

(** [x as uN], and the reduction every wrapping operation performs. *)
Definition wrap (w z : Z) : Z := z mod 2 ^ w.
Abbreviation as_u8 := (wrap 8).
Abbreviation as_u16 := (wrap 16).
Abbreviation as_u32 := (wrap 32).
Abbreviation as_u64 := (wrap 64).

Definition wrapping_add (w a b : Z) : Z := wrap w (a + b).
Definition wrapping_mul (w a b : Z) : Z := wrap w (a * b).

(** [x << n] on a [w]-bit integer drops the bits above [w]. *)
Definition shl (w x n : Z) : Z := wrap w (Z.shiftl x n).
Definition shr (x n : Z) : Z := Z.shiftr x n.

Definition rotate_left (w x n : Z) : Z :=
  Z.lor (shl w x n) (Z.shiftr x (w - n)).
Definition rotate_right (w x n : Z) : Z :=
  Z.lor (Z.shiftr x n) (shl w x (w - n)).

(** [!x] on a [w]-bit integer. *)
Definition bnot (w x : Z) : Z := 2 ^ w - 1 - x.

(** Evaluate the powers of two in the goal and the hypotheses. *)
Ltac pow2 :=
  repeat match goal with
  | |- context [2 ^ Zpos ?n] =>
      let v := eval vm_compute in (2 ^ Zpos n) in change (2 ^ Zpos n) with v
  | H : context [2 ^ Zpos ?n] |- _ =>
      let v := eval vm_compute in (2 ^ Zpos n) in change (2 ^ Zpos n) with v in H
  end.

Ltac width := unfold in_width in *; pow2; first [lia | dlia].

Lemma wrap_range w z : 0 ≤ w → in_width w (wrap w z).
Proof. intros. apply Z.mod_pos_bound. by apply Z.pow_pos_nonneg. Qed.

Lemma wrap_small w z : in_width w z → wrap w z = z.
Proof. intros. by apply Z.mod_small. Qed.

Lemma wrap_wrap w z : 0 ≤ w → wrap w (wrap w z) = wrap w z.
Proof. intros. by apply wrap_small, wrap_range. Qed.

Lemma wrap_testbit w z i : 0 ≤ w →
  Z.testbit (wrap w z) i = if decide (i < w) then Z.testbit z i else false.
Proof.
  intros. unfold wrap. case_decide.
  - destruct (decide (0 ≤ i)); [by apply Z.mod_pow2_bits_low|].
    by rewrite !Z.testbit_neg_r by lia.
  - apply Z.mod_pow2_bits_high. lia.
Qed.

(** A nonnegative integer with no bit at or above [w] has width [w]. *)
Lemma in_width_testbit w z : 0 ≤ w → 0 ≤ z →
  (∀ i, w ≤ i → Z.testbit z i = false) → in_width w z.
Proof.
  intros Hw Hz Hbits. split; [done|].
  assert (z = wrap w z) as ->; [|by apply wrap_range].
  apply Z.bits_inj'. intros i Hi. rewrite wrap_testbit by done.
  case_decide; [done|]. apply Hbits. lia.
Qed.

Lemma testbit_above w z i : in_width w z → w ≤ i → Z.testbit z i = false.
Proof.
  intros [Hz Hw] Hi. destruct (decide (0 ≤ w)) as [Hw0|].
  - rewrite <- (Z.mod_small z (2 ^ w)) by done.
    apply Z.mod_pow2_bits_high. lia.
  - rewrite Z.pow_neg_r in Hw by lia. lia.
Qed.

Lemma in_width_mono w w' z : w ≤ w' → 0 ≤ w → in_width w z → in_width w' z.
Proof.
  intros ?? [??]. split; [done|]. eapply Z.lt_le_trans; [done|].
  apply Z.pow_le_mono_r; lia.
Qed.

Lemma lxor_range w a b : 0 ≤ w → in_width w a → in_width w b → in_width w (Z.lxor a b).
Proof.
  intros Hw Ha Hb. apply in_width_testbit; [done| |].
  - apply Z.lxor_nonneg. destruct Ha, Hb. lia.
  - intros i Hi. by rewrite Z.lxor_spec, !(testbit_above w) by done.
Qed.

Lemma lor_range w a b : 0 ≤ w → in_width w a → in_width w b → in_width w (Z.lor a b).
Proof.
  intros Hw Ha Hb. apply in_width_testbit; [done| |].
  - apply Z.lor_nonneg. destruct Ha, Hb. lia.
  - intros i Hi. by rewrite Z.lor_spec, !(testbit_above w) by done.
Qed.

Lemma land_range_r w a b : 0 ≤ w → in_width w b → in_width w (Z.land a b).
Proof.
  intros Hw Hb. apply in_width_testbit; [done| |].
  - apply Z.land_nonneg. destruct Hb. lia.
  - intros i Hi. rewrite Z.land_spec, (testbit_above w b) by done. apply andb_false_r.
Qed.

Lemma land_range_l w a b : 0 ≤ w → in_width w a → in_width w (Z.land a b).
Proof. rewrite Z.land_comm. apply land_range_r. Qed.

Lemma shr_range w x n : 0 ≤ w → 0 ≤ n → in_width w x → in_width w (shr x n).
Proof.
  intros Hw Hn Hx. apply in_width_testbit; [done| |].
  - apply Z.shiftr_nonneg. by destruct Hx.
  - intros i Hi. unfold shr. rewrite Z.shiftr_spec by lia.
    apply (testbit_above w); [done|lia].
Qed.

(** Shifting right by [n] leaves [w - n] bits. *)
Lemma shr_width w x n : 0 ≤ n ≤ w → in_width w x → in_width (w - n) (shr x n).
Proof.
  intros Hn [Hx0 Hxw]. unfold shr. rewrite Z.shiftr_div_pow2 by lia. split.
  - apply Z.div_pos; [done|]. apply Z.pow_pos_nonneg; lia.
  - apply Z.div_lt_upper_bound; [apply Z.pow_pos_nonneg; lia|].
    rewrite <- Z.pow_add_r by lia. by replace (n + (w - n)) with w by lia.
Qed.

Lemma shl_range w x n : 0 ≤ w → in_width w (shl w x n).
Proof. apply wrap_range. Qed.

Lemma rotate_left_range w x n : 0 ≤ w → n ≤ w → in_width w x →
  in_width w (rotate_left w x n).
Proof.
  intros. apply lor_range; [done|by apply shl_range|].
  apply shr_range; [done|lia|done].
Qed.

Lemma rotate_right_range w x n : 0 ≤ w → 0 ≤ n → in_width w x →
  in_width w (rotate_right w x n).
Proof.
  intros. apply lor_range; [done| |by apply shl_range]. by apply shr_range.
Qed.

Lemma bnot_range w x : in_width w x → in_width w (bnot w x).
Proof. unfold bnot, in_width. lia. Qed.

#[export] Hint Resolve wrap_range lxor_range lor_range land_range_l land_range_r
  shr_range shl_range rotate_left_range rotate_right_range bnot_range : gutd.
#[export] Hint Extern 1 (_ ≤ _) => lia : gutd.
#[export] Hint Extern 1 (in_width _ (Zpos _)) => unfold in_width; lia : gutd.
#[export] Hint Extern 1 (in_width _ 0) => unfold in_width; lia : gutd.

(** [Forall] on a list written out element by element. *)
Ltac forall_list :=
  repeat (apply Forall_cons_2; [first [done | unfold in_width; lia | auto with gutd]|]);
  try apply Forall_nil_2.

(** XOR masking is an involution. *)
Lemma lxor_involutive a k : Z.lxor (Z.lxor a k) k = a.
Proof. by rewrite Z.lxor_assoc, Z.lxor_nilpotent, Z.lxor_0_r. Qed.

(** ** Byte order conversions *)

Fixpoint le_bytes (n : nat) (z : Z) : list Z :=
  match n with
  | O => []
  | S n => as_u8 z :: le_bytes n (Z.shiftr z 8)
  end.

Fixpoint from_le (l : list Z) : Z :=
  match l with
  | [] => 0
  | b :: l => b + 256 * from_le l
  end.

Definition be_bytes (n : nat) (z : Z) : list Z := rev (le_bytes n z).
Definition from_be (l : list Z) : Z := from_le (rev l).

Abbreviation u16_to_le_bytes := (le_bytes 2).
Abbreviation u32_to_le_bytes := (le_bytes 4).
Abbreviation u16_to_be_bytes := (be_bytes 2).
Abbreviation u32_to_be_bytes := (be_bytes 4).
Abbreviation u64_to_be_bytes := (be_bytes 8).

Abbreviation bytes := (Forall (in_width 8)).
Abbreviation words := (Forall (in_width 32)).

Lemma length_le_bytes n z : length (le_bytes n z) = n.
Proof. revert z. induction n; simpl; auto. Qed.

Lemma length_be_bytes n z : length (be_bytes n z) = n.
Proof. unfold be_bytes. by rewrite length_rev, length_le_bytes. Qed.

Lemma le_bytes_bytes n z : bytes (le_bytes n z).
Proof. revert z. induction n; simpl; constructor; auto with gutd. Qed.

Lemma be_bytes_bytes n z : bytes (be_bytes n z).
Proof. unfold be_bytes. apply Forall_rev, le_bytes_bytes. Qed.

Lemma from_le_range l : bytes l → in_width (8 * Z.of_nat (length l)) (from_le l).
Proof.
  induction 1 as [|b l Hb Hl IH]; [unfold in_width; simpl; lia|].
  unfold in_width in *. cbn [from_le length].
  replace (8 * Z.of_nat (S (length l))) with (8 + 8 * Z.of_nat (length l)) by lia.
  rewrite Z.pow_add_r by lia. change (2 ^ 8) with 256 in *. lia.
Qed.

Lemma from_le_bytes n z : from_le (le_bytes n z) = wrap (8 * Z.of_nat n) z.
Proof.
  revert z. induction n as [|n IH]; intros z.
  { unfold wrap. simpl. by rewrite Z.mod_1_r. }
  cbn [le_bytes from_le]. rewrite IH. unfold wrap.
  replace (8 * Z.of_nat (S n)) with (8 + 8 * Z.of_nat n) by lia.
  rewrite Z.pow_add_r by lia. rewrite Z.shiftr_div_pow2 by lia.
  change (2 ^ 8) with 256. rewrite Z.rem_mul_r; [lia|lia|].
  apply Z.pow_pos_nonneg; lia.
Qed.

Lemma le_bytes_from_le l : bytes l → le_bytes (length l) (from_le l) = l.
Proof.
  induction 1 as [|b l Hb Hl IH]; [done|]. cbn [length le_bytes from_le].
  unfold in_width in Hb. change (2 ^ 8) with 256 in Hb. f_equal.
  - unfold wrap. change (2 ^ 8) with 256. rewrite Z.mul_comm, Z.mod_add by lia.
    by apply Z.mod_small.
  - rewrite Z.shiftr_div_pow2 by lia. change (2 ^ 8) with 256.
    rewrite Z.mul_comm, Z.div_add by lia. by rewrite Z.div_small.
Qed.

Lemma le_bytes_inj n y z : in_width (8 * Z.of_nat n) y → in_width (8 * Z.of_nat n) z →
  le_bytes n y = le_bytes n z → y = z.
Proof.
  intros Hy Hz He. apply (f_equal from_le) in He. rewrite !from_le_bytes in He.
  by rewrite !wrap_small in He.
Qed.

Lemma from_be_bytes n z : from_be (be_bytes n z) = wrap (8 * Z.of_nat n) z.
Proof. unfold from_be, be_bytes. by rewrite rev_involutive, from_le_bytes. Qed.

(** The bytes of a word do not see what is wrapped away. *)
Lemma be_bytes_ext n y z : wrap (8 * Z.of_nat n) y = wrap (8 * Z.of_nat n) z →
  be_bytes n y = be_bytes n z.
Proof.
  intros H. unfold be_bytes. f_equal.
  rewrite <- (le_bytes_from_le (le_bytes n y)), <- (le_bytes_from_le (le_bytes n z))
    by apply le_bytes_bytes.
  by rewrite !length_le_bytes, !from_le_bytes, H.
Qed.

Lemma be_bytes_from_be l : bytes l → be_bytes (length l) (from_be l) = l.
Proof.
  intros Hl. unfold be_bytes, from_be.
  rewrite <- (length_rev l), le_bytes_from_le; [apply rev_involutive|].
  by apply Forall_rev.
Qed.

Lemma from_be_range l : bytes l → in_width (8 * Z.of_nat (length l)) (from_be l).
Proof.
  intros Hl. unfold from_be. rewrite <- (length_rev l).
  by apply from_le_range, Forall_rev.
Qed.

#[export] Hint Rewrite length_le_bytes length_be_bytes : gutd_len.
#[export] Hint Resolve le_bytes_bytes be_bytes_bytes : gutd.

(** The bytes of an array of words: [transmute::<[u32; N], [u8; 4 * N]>]. *)
Definition words_to_bytes (l : list Z) : list Z := l ≫= u32_to_le_bytes.

Lemma length_words_to_bytes l : length (words_to_bytes l) = (4 * length l)%nat.
Proof.
  unfold words_to_bytes. induction l as [|x l IH]; [done|].
  rewrite bind_cons, length_app, IH, length_le_bytes. simpl. lia.
Qed.

Lemma words_to_bytes_bytes l : bytes (words_to_bytes l).
Proof.
  unfold words_to_bytes. induction l; [by constructor|].
  rewrite bind_cons. apply Forall_app_2; auto with gutd.
Qed.

#[export] Hint Rewrite length_words_to_bytes : gutd_len.
#[export] Hint Resolve words_to_bytes_bytes : gutd.

(** XOR of two byte strings, up to the shorter one. *)
Definition xor_bytes : list Z → list Z → list Z := zip_with Z.lxor.

Lemma length_xor_bytes p k : length (xor_bytes p k) = Nat.min (length p) (length k).
Proof. apply length_zip_with. Qed.

Lemma xor_bytes_bytes p k : bytes p → bytes k → bytes (xor_bytes p k).
Proof.
  intros Hp. revert k. induction Hp as [|x p Hx Hp IH]; intros k Hk; [constructor|].
  destruct Hk; constructor; [auto with gutd|by apply IH].
Qed.

Lemma xor_bytes_involutive p k : (length p ≤ length k)%nat →
  xor_bytes (xor_bytes p k) k = p.
Proof.
  revert k. induction p as [|x p IH]; intros [|y k] H; simpl in *; try done; [lia|].
  rewrite lxor_involutive. f_equal. apply IH. lia.
Qed.

Lemma xor_bytes_comm p k : xor_bytes p k = xor_bytes k p.
Proof.
  revert k. induction p as [|x p IH]; intros [|y k]; simpl; try done.
  rewrite Z.lxor_comm. f_equal. apply IH.
Qed.

(** XOR with a concatenation, block by block. *)
Lemma xor_bytes_app d k1 k2 :
  xor_bytes d (k1 ++ k2)
  = xor_bytes (take (length k1) d) (take (length d) k1)
      ++ xor_bytes (drop (length k1) d) k2.
Proof.
  revert d. induction k1 as [|y k1 IH]; intros [|x d]; try done.
  cbn [app length take drop xor_bytes zip_with]. unfold xor_bytes in *. simpl.
  f_equal. apply IH.
Qed.

#[export] Hint Rewrite length_xor_bytes : gutd_len.
#[export] Hint Resolve xor_bytes_bytes : gutd.

(** ** Fields of a word *)

Lemma shr_div b n : 0 ≤ n → shr b n = b / 2 ^ n.
Proof. apply Z.shiftr_div_pow2. Qed.

Lemma land_ones_mod b n : 0 ≤ n → Z.land b (2 ^ n - 1) = b mod 2 ^ n.
Proof. intros. by rewrite <- Z.land_ones, Z.ones_equiv, Z.sub_1_r by lia. Qed.

(** Bits that do not overlap: [|] is addition. *)
Lemma lor_add a b n : 0 ≤ n → 0 ≤ b < 2 ^ n → Z.lor (a * 2 ^ n) b = a * 2 ^ n + b.
Proof.
  intros Hn Hb. assert (H : Z.land (a * 2 ^ n) b = 0).
  { apply Z.bits_inj'. intros i Hi. rewrite Z.land_spec, Z.bits_0.
    destruct (decide (i < n)).
    - by rewrite Z.mul_pow2_bits_low.
    - rewrite (testbit_above n b) by (done || lia). apply andb_false_r. }
  by rewrite <- Z.lxor_lor, Z.add_nocarry_lxor.
Qed.

Lemma lor_shl_add w a b n : 0 ≤ n → 0 ≤ a → 0 ≤ b < 2 ^ n → a * 2 ^ n < 2 ^ w →
  Z.lor (shl w a n) b = a * 2 ^ n + b.
Proof.
  intros Hn Ha Hb Hw. unfold shl. rewrite Z.shiftl_mul_pow2 by lia.
  rewrite wrap_small by (split; nia). by apply lor_add.
Qed.

(** ** XOR and byte order *)

Lemma wrap_lxor w a b : 0 ≤ w → wrap w (Z.lxor a b) = Z.lxor (wrap w a) (wrap w b).
Proof.
  intros Hw. apply Z.bits_inj'. intros i Hi.
  rewrite Z.lxor_spec, !wrap_testbit by done. case_decide; [by rewrite Z.lxor_spec|done].
Qed.

Lemma le_bytes_lxor n a b : le_bytes n (Z.lxor a b) = xor_bytes (le_bytes n a) (le_bytes n b).
Proof.
  revert a b. induction n as [|n IH]; intros a b; [done|].
  cbn [le_bytes xor_bytes zip_with]. rewrite wrap_lxor, Z.shiftr_lxor, IH by lia. done.
Qed.

Lemma rev_zip_with {A B C} (f : A → B → C) l k : length l = length k →
  rev (zip_with f l k) = zip_with f (rev l) (rev k).
Proof.
  revert k. induction l as [|x l IH]; intros [|y k] H; simpl in *; try done.
  rewrite IH by lia. rewrite zip_with_app by (rewrite !length_rev; lia). done.
Qed.

Lemma be_bytes_lxor n a b : be_bytes n (Z.lxor a b) = xor_bytes (be_bytes n a) (be_bytes n b).
Proof.
  unfold be_bytes. rewrite le_bytes_lxor. apply rev_zip_with. by rewrite !length_le_bytes.
Qed.

(** The bits of a little-endian byte string. *)
Lemma from_le_lxor l k : bytes l → bytes k → length l = length k →
  from_le (xor_bytes l k) = Z.lxor (from_le l) (from_le k).
Proof.
  intros Hl Hk Hlen.
  pose proof (le_bytes_lxor (length l) (from_le l) (from_le k)) as H.
  rewrite le_bytes_from_le in H by done. rewrite Hlen in H at 2.
  rewrite le_bytes_from_le in H by done. rewrite <- H, from_le_bytes.
  apply wrap_small, lxor_range; [lia|by apply from_le_range|].
  rewrite Hlen. by apply from_le_range.
Qed.

Lemma from_be_lxor l k : bytes l → bytes k → length l = length k →
  from_be (xor_bytes l k) = Z.lxor (from_be l) (from_be k).
Proof.
  intros Hl Hk Hlen. unfold from_be, xor_bytes. rewrite rev_zip_with by done.
  apply from_le_lxor; [by apply Forall_rev..|by rewrite !length_rev].
Qed.

Lemma from_be_app l k :
  from_be (l ++ k) = from_be l * 2 ^ (8 * Z.of_nat (length k)) + from_be k.
Proof.
  unfold from_be. rewrite rev_app_distr. rewrite <- (length_rev k).
  generalize (rev k). clear k. intros k. induction k as [|x k IH]; simpl app.
  { rewrite Z.mul_1_r. simpl. lia. }
  cbn [from_le length]. rewrite IH.
  replace (8 * Z.of_nat (S (length k))) with (8 + 8 * Z.of_nat (length k)) by lia.
  rewrite Z.pow_add_r by lia. change (2 ^ 8) with 256. ring.
Qed.

Lemma from_be_cons b l : from_be (b :: l) = b * 2 ^ (8 * Z.of_nat (length l)) + from_be l.
Proof.
  rewrite (from_be_app [b] l : from_be (b :: l) = _). f_equal. f_equal.
  unfold from_be. simpl. lia.
Qed.

(** Bit [i] of a big-endian byte string, counted from its most significant
    bit, is bit [7 - i mod 8] of byte [i / 8]. *)
Lemma from_be_testbit l i : bytes l → (i < 8 * length l)%nat →
  Z.testbit (from_be l) (8 * Z.of_nat (length l) - 1 - Z.of_nat i)
  = Z.testbit (l !!! (i / 8)%nat) (Z.of_nat (7 - i mod 8)).
Proof.
  intros Hl. revert i. induction Hl as [|b l Hb Hl IH]; intros i Hi; [simpl in Hi; lia|].
  cbn [length] in *. pose proof (from_be_range l Hl) as HL.
  rewrite from_be_cons, <- lor_add by (done || lia). rewrite Z.lor_spec.
  destruct (decide (i < 8)%nat) as [Hlt|Hge].
  - rewrite (testbit_above _ (from_be l) _ HL), orb_false_r by lia.
    rewrite Z.mul_pow2_bits by lia.
    rewrite Nat.div_small, Nat.mod_small by done. cbn [lookup_total list_lookup_total]. f_equal. lia.
  - rewrite Z.mul_pow2_bits_low by lia. rewrite orb_false_l.
    replace i with (i - 8 + 1 * 8)%nat by lia.
    rewrite Nat.div_add, Nat.Div0.mod_add by lia. rewrite Nat.add_1_r.
    cbn [lookup_total list_lookup_total]. rewrite <- IH by lia. f_equal. lia.
Qed.

(** A one-bit right shift of a big-endian byte string: each byte takes the
    low bit of the byte before it. *)
Fixpoint shr1_bytes (prev : Z) (l : list Z) : list Z :=
  match l with
  | [] => []
  | b :: l => Z.lor (shr b 1) (shl 8 prev 7) :: shr1_bytes b l
  end.

Lemma length_shr1_bytes prev l : length (shr1_bytes prev l) = length l.
Proof. revert prev. induction l as [|x l IH]; intros prev; simpl; auto. Qed.

Lemma lookup_shr1_bytes prev l i : (i < length l)%nat →
  shr1_bytes prev l !!! i
  = Z.lor (shr (l !!! i) 1) (shl 8 (if (i =? 0)%nat then prev else l !!! (i - 1)%nat) 7).
Proof.
  revert prev i. induction l as [|b l IH]; intros prev [|i] Hi; simpl in Hi; try lia; [done|].
  cbn [shr1_bytes lookup_total list_lookup_total]. rewrite IH by lia.
  destruct i; simpl; rewrite ?Nat.sub_0_r; done.
Qed.

Lemma shr1_byte b prev : is_u8 b → 0 ≤ prev →
  Z.lor (shr b 1) (shl 8 prev 7) = b / 2 + 128 * (prev mod 2).
Proof.
  intros Hb Hp. rewrite Z.lor_comm. unfold shl, wrap. rewrite Z.shiftl_mul_pow2 by lia.
  rewrite shr_div by lia. change (2 ^ 1) with 2. change (2 ^ 7) with 128.
  replace (prev * 128 mod 2 ^ 8) with (prev mod 2 * 128)
    by (rewrite Zmult_mod_distr_r with (b := 2); done).
  change 128 with (2 ^ 7) at 1. unfold in_width in Hb. rewrite lor_add; [change (2 ^ 7) with 128; lia|lia|].
  change (2 ^ 8) with 256 in Hb. change (2 ^ 7) with 128. dlia.
Qed.

Lemma shr1_bytes_bytes prev l : bytes l → 0 ≤ prev → bytes (shr1_bytes prev l).
Proof.
  intros Hl. revert prev. induction Hl as [|b l Hb Hl IH]; intros prev Hp; [constructor|].
  cbn [shr1_bytes]. constructor; [|apply IH; by destruct Hb].
  apply lor_range; [lia|by apply shr_range|by apply shl_range].
Qed.

Lemma from_be_shr1 prev l : bytes l → 0 ≤ prev →
  from_be (shr1_bytes prev l)
  = (from_be l + prev mod 2 * 2 ^ (8 * Z.of_nat (length l))) / 2.
Proof.
  intros Hl. revert prev. induction Hl as [|b l Hb Hl IH]; intros prev Hp.
  { simpl. change (from_be []) with 0. dlia. }
  cbn [shr1_bytes length]. rewrite !from_be_cons, shr1_byte by done.
  unfold in_width in Hb. rewrite length_shr1_bytes, IH by lia.
  replace (8 * Z.of_nat (S (length l))) with (8 + 8 * Z.of_nat (length l)) by lia.
  rewrite Z.pow_add_r by lia. change (2 ^ 8) with 256 in *.
  set (M := 2 ^ (8 * Z.of_nat (length l))).
  rewrite <- Z.div_add_l by lia. f_equal.
  rewrite (Z.div_mod b 2) at 3 by lia. ring.
Qed.
