(* ===== verification/Slices.v ===== *)
(** * Slices

    A [&[u8]] or [&mut [u8]] is a list of bytes.  Every access is checked, as
    in Rust: an index or range that is out of bounds, and a
    [copy_from_slice] between slices of different lengths, panics.  A
    mutating operation returns the updated buffer.  The lemmas give the
    value of each operation when it is in bounds. *)

From S2P Require Import Prelude Words.

(** [b[i]] *)
Definition get (b : list Z) (i : nat) : outcome Z := unwrap (b !! i).

(** [b[i] = v] *)
Definition put (b : list Z) (i : nat) (v : Z) : outcome (list Z) :=
  if i <? length b then Done (<[i:=v]> b) else Panic.

(** [&b[lo..hi]] *)
Definition slice (b : list Z) (lo hi : nat) : outcome (list Z) :=
  if (lo <=? hi) && (hi <=? length b) then Done (window lo (hi - lo) b) else Panic.

(** [&b[lo..]] *)
Definition slice_from (b : list Z) (lo : nat) : outcome (list Z) :=
  slice b lo (length b).

(** [b[lo..hi].copy_from_slice(src)] *)
Definition copy_from_slice (b : list Z) (lo hi : nat) (src : list Z)
    : outcome (list Z) :=
  if (lo <=? hi) && (hi <=? length b) && (hi - lo =? length src)
  then Done (list_inserts lo src b) else Panic.

(** [b.copy_within(lo..hi, dst)] *)
Definition copy_within (b : list Z) (lo hi dst : nat) : outcome (list Z) :=
  if (lo <=? hi) && (hi <=? length b) && (dst + (hi - lo) <=? length b)
  then Done (list_inserts dst (window lo (hi - lo) b) b) else Panic.

(** [u32::from_le_bytes(b[lo..hi].try_into().unwrap())] *)
Definition read_u32_le (b : list Z) (lo hi : nat) : outcome Z :=
  s ← slice b lo hi;
  if length s =? 4 then Done (from_le s) else Panic.

(** [u32::from_be_bytes(b[lo..hi].try_into().unwrap())] *)
Definition read_u32_be (b : list Z) (lo hi : nat) : outcome Z :=
  s ← slice b lo hi;
  if length s =? 4 then Done (from_be s) else Panic.

(** [for i in 0..n { p[off + i] ^= k[i] }] *)
Definition xor_in_place (off : nat) (p k : list Z) (n : nat) : outcome (list Z) :=
  for_range 0 n
    (λ i p, a ← get p (off + i); x ← get k i; put p (off + i) (Z.lxor a x)) p.

(** ** In-bounds values *)

Lemma get_Done b i v : b !! i = Some v → get b i = Done v.
Proof. intros H. unfold get. by rewrite H. Qed.

Lemma get_total (b : list Z) i : i < length b → get b i = Done (b !!! i).
Proof. intros H. by apply get_Done, list_lookup_lookup_total_lt. Qed.

Lemma put_Done b i v : i < length b → put b i v = Done (<[i:=v]> b).
Proof. intros H. unfold put. by apply Nat.ltb_lt in H as ->. Qed.

Lemma put_inv b i v b' : put b i v = Done b' → b' = <[i:=v]> b ∧ i < length b.
Proof. unfold put. destruct (Nat.ltb_spec i (length b)); naive_solver. Qed.

Lemma get_inv b i v : get b i = Done v → b !! i = Some v.
Proof. unfold get. by destruct (b !! i); intros [=]; subst. Qed.

Lemma put_Panic b i v : length b ≤ i → put b i v = Panic.
Proof. intros H. unfold put. by apply Nat.ltb_ge in H as ->. Qed.

Lemma slice_Done b lo hi :
  lo ≤ hi → hi ≤ length b → slice b lo hi = Done (window lo (hi - lo) b).
Proof.
  intros H1 H2. unfold slice.
  by apply Nat.leb_le in H1 as ->; apply Nat.leb_le in H2 as ->.
Qed.

Lemma slice_window b lo n :
  lo + n ≤ length b → slice b lo (lo + n) = Done (window lo n b).
Proof. intros. rewrite slice_Done by lia. do 2 f_equal. lia. Qed.

Lemma slice_Panic b lo hi : length b < hi → slice b lo hi = Panic.
Proof.
  intros H. unfold slice. apply Nat.leb_gt in H as ->. by rewrite andb_false_r.
Qed.

Lemma copy_from_slice_Done b lo hi src :
  hi = lo + length src → hi ≤ length b →
  copy_from_slice b lo hi src = Done (list_inserts lo src b).
Proof.
  intros -> H. unfold copy_from_slice.
  assert ((lo <=? lo + length src) = true) as -> by (apply Nat.leb_le; lia).
  apply Nat.leb_le in H as ->.
  by assert ((lo + length src - lo =? length src) = true) as ->
    by (apply Nat.eqb_eq; lia).
Qed.

Lemma copy_within_Done b lo hi dst :
  lo ≤ hi → hi ≤ length b → dst + (hi - lo) ≤ length b →
  copy_within b lo hi dst = Done (list_inserts dst (window lo (hi - lo) b) b).
Proof.
  intros H1 H2 H3. unfold copy_within.
  by apply Nat.leb_le in H1 as ->; apply Nat.leb_le in H2 as ->;
    apply Nat.leb_le in H3 as ->.
Qed.

Lemma read_u32_le_Done b lo hi :
  hi = lo + 4 → hi ≤ length b → read_u32_le b lo hi = Done (from_le (window lo 4 b)).
Proof.
  intros -> H. unfold read_u32_le. rewrite slice_window by done.
  by rewrite bind_Done, length_window.
Qed.

Lemma read_u32_be_Done b lo hi :
  hi = lo + 4 → hi ≤ length b → read_u32_be b lo hi = Done (from_be (window lo 4 b)).
Proof.
  intros -> H. unfold read_u32_be. rewrite slice_window by done.
  by rewrite bind_Done, length_window.
Qed.

(** Reading back a word that was written in little-endian order. *)
Lemma from_le_window_u32 b lo v :
  is_u32 v → window lo 4 b = u32_to_le_bytes v → from_le (window lo 4 b) = v.
Proof. intros Hv ->. rewrite from_le_bytes. by apply wrap_small. Qed.

(** The in-place XOR loop computes [xor_bytes] on a window. *)
Lemma xor_in_place_Done off p k n :
  off + n ≤ length p → n ≤ length k →
  xor_in_place off p k n
  = Done (list_inserts off (xor_bytes (window off n p) (take n k)) p).
Proof.
  intros Hp Hk. unfold xor_in_place.
  set (upto := λ m, list_inserts off (xor_bytes (window off m p) (take m k)) p).
  assert (Hx : ∀ m, m ≤ n → length (xor_bytes (window off m p) (take m k)) = m).
  { intros. rewrite length_xor_bytes, length_window; len. }
  assert (Hlook : ∀ m i, m ≤ n → upto m !! i =
    if decide (off ≤ i < off + m)
    then (Some (Z.lxor (p !!! i) (k !!! (i - off)))) else p !! i).
  { intros m i Hm. unfold upto. rewrite lookup_list_inserts by (rewrite Hx; lia).
    rewrite Hx by done. case_decide; [|done].
    unfold xor_bytes. rewrite lookup_zip_with, lookup_window, lookup_take_lt by lia.
    rewrite decide_True by lia. replace (off + (i - off)) with i by lia.
    rewrite (list_lookup_lookup_total_lt p), (list_lookup_lookup_total_lt k) by lia. done. }
  assert (Hlen : ∀ m, length (upto m) = length p) by (intros; apply length_inserts).
  assert (Hgen : ∀ m j, j + m = n →
    for_range j m (λ i p, a ← get p (off + i); x ← get k i; put p (off + i) (Z.lxor a x))
      (upto j) = Done (upto n)).
  2: { apply (Hgen n 0). lia. }
  induction m as [|m IH]; intros j Hj; [by replace n with j by lia|].
  cbn [for_range].
  rewrite (get_Done (upto j) _ (p !!! (off + j))).
  2: { rewrite Hlook, decide_False by lia. apply list_lookup_lookup_total_lt. lia. }
  rewrite bind_Done, get_total, bind_Done, put_Done by (rewrite ?Hlen; lia).
  rewrite bind_Done. rewrite <- (IH (S j)) by lia. f_equal.
  apply list_eq. intros i. rewrite Hlook by lia.
  destruct (decide (i = off + j)) as [->|Hne].
  - rewrite list_lookup_insert_eq by (rewrite Hlen; lia). rewrite decide_True by lia.
    do 3 f_equal. lia.
  - rewrite list_lookup_insert_ne, Hlook by lia.
    destruct (decide (off ≤ i < off + j)), (decide (off ≤ i < off + S j)); try lia; done.
Qed.

(** When the loop covers all of [p], the result is the XOR itself. *)
Lemma xor_in_place_all p k :
  length p ≤ length k →
  xor_in_place 0 p k (length p) = Done (xor_bytes p (take (length p) k)).
Proof.
  intros H. rewrite xor_in_place_Done by lia. f_equal.
  rewrite window_all, list_inserts_app by len. len. simpl.
  rewrite drop_ge by len. by rewrite app_nil_r.
Qed.

(** A loop that stores [g i] at [off + i] writes a block. *)
Lemma for_range_put off g lo n b :
  off + lo + n ≤ length b →
  for_range lo n (λ i b, put b (off + i) (g i)) b
  = Done (list_inserts (off + lo) (g <$> seq lo n) b).
Proof.
  revert lo b. induction n as [|n IH]; intros lo b H; [done|].
  cbn [for_range seq fmap list_fmap list_inserts].
  rewrite put_Done by lia. rewrite bind_Done, IH by len. f_equal.
  rewrite Nat.add_succ_r. apply list_eq. intros i.
  assert (Hl : length (g <$> seq (S lo) n) = n) by len.
  rewrite lookup_list_inserts by len. rewrite Hl.
  destruct (decide (i = off + lo)) as [->|Hne].
  - rewrite decide_False by lia. rewrite !list_lookup_insert_eq; len; done.
  - rewrite !list_lookup_insert_ne by done.
    rewrite lookup_list_inserts by len. by rewrite Hl.
Qed.

(** ** Reading back after block writes *)

Lemma drop_list_inserts {A} n lo (k l : list A) :
  lo + length k ≤ n → drop n (list_inserts lo k l) = drop n l.
Proof.
  intros H. apply list_eq. intros i. rewrite !lookup_drop.
  apply list_lookup_inserts_ge. lia.
Qed.

Lemma window_list_inserts_ne {A} lo n a (k l : list A) :
  lo + n ≤ a ∨ a + length k ≤ lo → window lo n (list_inserts a k l) = window lo n l.
Proof.
  intros H. apply window_ext. intros i Hi. destruct H.
  - apply list_lookup_inserts_lt. lia.
  - apply list_lookup_inserts_ge. lia.
Qed.

Lemma window_list_inserts_in {A} lo n a (k l : list A) :
  a ≤ lo → lo + n ≤ a + length k → a + length k ≤ length l →
  window lo n (list_inserts a k l) = window (lo - a) n k.
Proof.
  intros H1 H2 H3. apply window_ext. intros i Hi.
  rewrite lookup_list_inserts by done. rewrite decide_True by lia. f_equal. lia.
Qed.

Lemma window_inserts_eq {A} lo n (k l : list A) :
  n = length k → lo + n ≤ length l → window lo n (list_inserts lo k l) = k.
Proof. intros -> H. by apply window_inserts. Qed.

Lemma window_whole {A} lo (l : list A) n : lo = 0 → n = length l → window lo n l = l.
Proof. intros -> ->. apply window_all. Qed.

Lemma window_app_l {A} lo n (l k : list A) :
  lo + n ≤ length l → window lo n (l ++ k) = window lo n l.
Proof. intros H. apply window_ext. intros i Hi. apply lookup_app_l. lia. Qed.

Lemma window_app_ge {A} lo n (l k : list A) :
  length l ≤ lo → window lo n (l ++ k) = window (lo - length l) n k.
Proof.
  intros H. apply window_ext. intros i Hi. rewrite lookup_app_r by lia. f_equal. lia.
Qed.

Lemma lookup_total_list_inserts_ne {A} `{Inhabited A} i a (k l : list A) :
  i < a ∨ a + length k ≤ i → list_inserts a k l !!! i = l !!! i.
Proof.
  intros Hi. rewrite !list_lookup_total_alt. f_equal. destruct Hi.
  - by apply list_lookup_inserts_lt.
  - by apply list_lookup_inserts_ge.
Qed.

Lemma lookup_total_list_inserts_in {A} `{Inhabited A} i a (k l : list A) :
  a ≤ i < a + length k → a + length k ≤ length l →
  list_inserts a k l !!! i = k !!! (i - a).
Proof.
  intros Hi Hl. rewrite !list_lookup_total_alt. f_equal.
  rewrite lookup_list_inserts by done. by rewrite decide_True.
Qed.

(** A buffer whose tail from [n] on is untouched is a block write at 0. *)
Lemma list_inserts_prefix {A} n (b b' : list A) :
  length b' = length b → n ≤ length b → drop n b' = drop n b →
  b' = list_inserts 0 (take n b') b.
Proof.
  intros Hl Hn Hd. rewrite list_inserts_app by (rewrite length_take; lia).
  rewrite take_0, app_nil_l, length_take.
  replace (0 + Nat.min n (length b')) with n by lia. rewrite <- Hd. by rewrite take_drop.
Qed.

(** A block write inside a window is a block write of the updated window. *)
Lemma list_inserts_window {A} off len a (k : list A) (b : list A) :
  off + len ≤ length b → a + length k ≤ len →
  list_inserts (off + a) k b = list_inserts off (list_inserts a k (window off len b)) b.
Proof.
  intros H1 H2. assert (Hw : length (window off len b) = len) by by apply length_window.
  apply list_eq. intros i.
  rewrite lookup_list_inserts by lia.
  rewrite lookup_list_inserts by (rewrite length_inserts; lia).
  rewrite length_inserts, Hw. repeat case_decide; try lia; try done.
  - rewrite lookup_list_inserts by lia. rewrite decide_True by lia. f_equal. lia.
  - rewrite lookup_list_inserts by lia. rewrite decide_False by lia.
    rewrite lookup_window, decide_True by lia. f_equal. lia.
Qed.

Lemma list_inserts_twice {A} off (k1 k2 : list A) b :
  length k1 = length k2 → off + length k2 ≤ length b →
  list_inserts off k2 (list_inserts off k1 b) = list_inserts off k2 b.
Proof.
  intros Hl Hb. apply list_eq. intros i.
  rewrite !lookup_list_inserts by (rewrite ?length_inserts; lia).
  case_decide; [done|]. by rewrite decide_False by lia.
Qed.

(** One more block behind the ones already written from [lo] on. *)
Lemma copy_next (k1 : list Z) b lo hi hi' (k2 : list Z) :
  hi = (lo + length k1) → hi' = (hi + length k2) → (hi' ≤ length b) →
  copy_from_slice (list_inserts lo k1 b) hi hi' k2 = Done (list_inserts lo (k1 ++ k2) b).
Proof.
  intros -> -> H. rewrite copy_from_slice_Done by len. by rewrite list_inserts_app_r.
Qed.

Lemma put_next (k1 : list Z) b lo hi v :
  hi = (lo + length k1) → (hi < length b) →
  put (list_inserts lo k1 b) hi v = Done (list_inserts lo (k1 ++ [v]) b).
Proof. intros -> H. rewrite put_Done by len. by rewrite list_inserts_snoc. Qed.

(** ** Automation: evaluate in-bounds accesses. *)

Ltac buf_side := first [done | len].

Ltac buf_step :=
  first
    [ rewrite bind_Done
    | rewrite put_Done by buf_side
    | rewrite slice_Done by buf_side
    | rewrite copy_from_slice_Done by buf_side
    | rewrite copy_within_Done by buf_side
    | rewrite read_u32_le_Done by buf_side
    | rewrite read_u32_be_Done by buf_side
    | rewrite get_total by buf_side ].

(** Lookup of a concrete index in a chain of writes. *)
Ltac buf_lookup :=
  repeat first
    [ rewrite list_lookup_insert_eq by len
    | rewrite list_lookup_insert_ne by lia
    | rewrite lookup_list_inserts by len;
      first [rewrite decide_True by len | rewrite decide_False by len] ].

(** Peel the steps of a computation that returned. *)
Ltac done_inv :=
  repeat match goal with
  | H : (_ ≫= _) = Done _ |- _ =>
      let x := fresh "r" in let E := fresh "E" in
      apply bind_Done_inv in H as (x & E & H);
      match type of x with prod _ _ => destruct x | unit => destruct x | _ => idtac end
  | H : put _ _ _ = Done _ |- _ => apply put_inv in H as [-> _]
  | H : Done _ = Done _ |- _ => injection H as H; try subst
  | H : Panic = Done _ |- _ => discriminate H
  end.
