(* ===== verification/Text.v ===== *)
(** * Text: the Rust formatting and searching the protocol modules use

    A [str] is the list of its UTF-8 bytes.  [write!] to a
    [Cursor<&mut [u8]>] copies the text at the cursor and fails when it does
    not fit; the code unwraps the result, so a text that does not fit is a
    panic. *)

From S2P Require Import Prelude Words Slices.
Local Open Scope Z_scope.

(** The bytes of a string literal ([b"..."] or [str::as_bytes]). *)
Definition bs (s : string) : list Z :=
  Z.of_N ∘ Ascii.N_of_ascii <$> String.list_ascii_of_string s.

Definition CR : Z := 13.
Definition LF : Z := 10.
Definition CRLF : list Z := [CR; LF].
Definition SPACE : Z := 32.
Definition QUOTE : Z := 34.

(** ** Numbers *)

(** [{}] of an unsigned integer (at most twenty digits). *)
Fixpoint dec_fuel (fuel : nat) (n : Z) (acc : list Z) : list Z :=
  match fuel with
  | O => acc
  | S fuel => if n <? 10 then (48 + n) :: acc
              else dec_fuel fuel (n / 10) ((48 + n mod 10) :: acc)
  end.
Definition dec (n : Z) : list Z := dec_fuel 20 n [].

(** [{:0w}] *)
Definition pad0 (w : nat) (t : list Z) : list Z := replicate (w - length t) 48 ++ t.

(** [{:x}] of a nibble. *)
Definition hex_digit (n : Z) : Z := if n <? 10 then 48 + n else 87 + n.

Definition is_digit (b : Z) : bool := (48 <=? b) && (b <=? 57).

Lemma dec_fuel_digits fuel n acc : 0 ≤ n →
  Forall (λ b, is_digit b = true) acc → Forall (λ b, is_digit b = true) (dec_fuel fuel n acc).
Proof.
  assert (Hd : ∀ k, 0 ≤ k < 10 → is_digit (48 + k) = true).
  { intros k Hk. unfold is_digit. apply andb_true_iff; split; apply Z.leb_le; lia. }
  revert n acc. induction fuel as [|fuel IH]; intros n acc Hn Hacc; [done|].
  cbn [dec_fuel]. destruct (Z.ltb_spec n 10).
  - constructor; [apply Hd; lia|done].
  - apply IH; [by apply Z.div_pos|]. constructor; [|done].
    apply Hd. by apply Z.mod_pos_bound.
Qed.

Lemma dec_digits n : 0 ≤ n → Forall (λ b, is_digit b = true) (dec n).
Proof. intros. apply dec_fuel_digits; [done|constructor]. Qed.

(** ** Searching *)

(** [l.starts_with(m)] *)
Definition starts_with (l m : list Z) : bool := bool_decide (take (length m) l = m).

(** [l.windows(m.len()).position(|w| w == m)] *)
Fixpoint find_sub (m l : list Z) : option nat :=
  match l with
  | [] => if bool_decide (m = []) then Some 0%nat else None
  | _ :: l' => if starts_with l m then Some 0%nat else S <$> find_sub m l'
  end.

(** No two adjacent bytes [x], [y]; [s] tells whether the byte before was [x]. *)
Fixpoint no_adj (x y : Z) (s : bool) (l : list Z) : bool :=
  match l with
  | [] => true
  | b :: l => negb (s && (b =? y)) && no_adj x y (b =? x) l
  end.

Lemma no_adj_mono x y l : no_adj x y true l = true → no_adj x y false l = true.
Proof. destruct l as [|b l]; [done|]. simpl. by intros [_ H]%andb_true_iff. Qed.

Lemma no_adj_tail x y s b l : no_adj x y s (b :: l) = true → no_adj x y false l = true.
Proof.
  cbn [no_adj]. intros [_ H]%andb_true_iff. destruct (b =? x); [by apply no_adj_mono|done].
Qed.

Lemma no_adj_lookup x y s l i : no_adj x y s l = true →
  l !! i = Some x → l !! S i = Some y → False.
Proof.
  revert s i. induction l as [|b l IH]; intros s i H Hx Hy; [done|].
  destruct i as [|i].
  - cbn in Hx. injection Hx as ->. destruct l as [|c l]; [done|]. cbn in Hy. injection Hy as ->.
    cbn [no_adj] in H. rewrite !Z.eqb_refl in H. simpl in H. by rewrite andb_false_r in H.
  - apply (IH false i); [by apply no_adj_tail in H|done..].
Qed.

(** The first occurrence of a marker [m0 :: x :: y :: m] is the one that
    follows a text without the pair [x], [y]. *)
Lemma find_sub_first m0 x y m a rest :
  no_adj x y false (a ++ [m0; x]) = true →
  find_sub (m0 :: x :: y :: m) (a ++ (m0 :: x :: y :: m) ++ rest) = Some (length a).
Proof.
  induction a as [|b a IH]; intros H.
  - assert (Hs : starts_with ((m0 :: x :: y :: m) ++ rest) (m0 :: x :: y :: m) = true).
    { apply bool_decide_eq_true. by rewrite take_app_length. }
    change ([] ++ (m0 :: x :: y :: m) ++ rest) with ((m0 :: x :: y :: m) ++ rest).
    cbn [app find_sub length] in *. by rewrite Hs.
  - cbn [app] in H. pose proof (no_adj_tail _ _ _ _ _ H) as Ht.
    assert (Hs : starts_with (b :: a ++ (m0 :: x :: y :: m) ++ rest) (m0 :: x :: y :: m) = false).
    { apply bool_decide_eq_false. intros Heq.
      apply (no_adj_lookup x y false ((b :: a) ++ [m0; x]) 1 H).
      - rewrite <- (lookup_app_l _ (y :: m ++ rest)) by (rewrite length_app; simpl; lia).
        rewrite <- app_assoc. apply (f_equal (.!! 1%nat)) in Heq.
        by rewrite lookup_take_lt in Heq by (simpl; lia).
      - rewrite <- (lookup_app_l _ (y :: m ++ rest)) by (rewrite length_app; simpl; lia).
        rewrite <- app_assoc. apply (f_equal (.!! 2%nat)) in Heq.
        by rewrite lookup_take_lt in Heq by (simpl; lia). }
    cbn [app find_sub length]. cbn [app] in Hs. rewrite Hs. cbn [app] in IH.
    by rewrite IH.
Qed.

(** ** Texts with variable parts *)

(** A text as literal pieces and values filled in. *)
Inductive piece := Lit (l : list Z) | Var (l : list Z).

Definition flat (ps : list piece) : list Z :=
  ps ≫= λ p, match p with Lit l | Var l => l end.

Lemma flat_lit l ps : flat (Lit l :: ps) = l ++ flat ps.
Proof. done. Qed.

Lemma flat_var l ps : flat (Var l :: ps) = l ++ flat ps.
Proof. done. Qed.

Lemma flat_app ps qs : flat (ps ++ qs) = flat ps ++ flat qs.
Proof. apply bind_app. Qed.

(** Bring two ways of writing a text to one concatenation. *)
Ltac text_eq :=
  rewrite ?concat_app, ?flat_app; rewrite ?concat_cons, ?concat_nil;
  repeat first [rewrite flat_lit | rewrite flat_var]; change (flat []) with (@nil Z);
  rewrite <- ?app_assoc, ?app_nil_l, ?app_nil_r; rewrite <- ?app_assoc; reflexivity.

Definition last_is (x : Z) (s : bool) (l : list Z) : bool :=
  match last l with Some b => b =? x | None => s end.

(** The adjacency check on the literal pieces only. *)
Fixpoint pieces_ok (x y : Z) (s : bool) (ps : list piece) : bool :=
  match ps with
  | [] => true
  | Lit l :: ps => no_adj x y s l && pieces_ok x y (last_is x s l) ps
  | Var _ :: ps => negb s && pieces_ok x y false ps
  end.

(** The filled-in values do not contain the first byte of the pair. *)
Definition vars_free (x : Z) (ps : list piece) : Prop :=
  Forall (λ p, match p with Lit _ => True | Var l => Forall (λ b, b ≠ x) l end) ps.

Lemma no_adj_app x y s l k :
  no_adj x y s (l ++ k) = no_adj x y s l && no_adj x y (last_is x s l) k.
Proof.
  revert s. induction l as [|b l IH]; intros s; [done|].
  cbn [app no_adj]. rewrite IH, andb_assoc. f_equal.
  unfold last_is. destruct l as [|c l]; [done|]. rewrite last_cons_cons. 
  destruct (last (c :: l)) eqn:Hl; [done|]. by apply last_None in Hl.
Qed.

Lemma no_adj_free x y l : Forall (λ b, b ≠ x) l →
  no_adj x y false l = true ∧ last_is x false l = false.
Proof.
  intros H. split.
  - induction H as [|b l Hx Hl IH]; [done|]. cbn [no_adj]. by apply Z.eqb_neq in Hx as ->.
  - unfold last_is. destruct (last l) as [b|] eqn:Hl; [|done].
    apply Z.eqb_neq. apply last_Some_elem_of in Hl. rewrite Forall_forall in H. by apply H.
Qed.

Lemma pieces_ok_no_adj x y s ps : vars_free x ps → pieces_ok x y s ps = true →
  no_adj x y s (flat ps) = true.
Proof.
  unfold flat. intros Hv. revert s. induction Hv as [|p ps Hp Hps IH]; intros s H; [done|].
  rewrite bind_cons, no_adj_app. destruct p as [l|l]; cbn [pieces_ok] in H;
    apply andb_true_iff in H as [H1 H2]; apply andb_true_iff.
  - split; [done|]. by apply IH.
  - destruct s; [done|]. destruct (no_adj_free x y l Hp) as [-> ->]. split; [done|by apply IH].
Qed.

(** ** [io::Cursor] over a mutable slice *)

Record cursor := Cursor { cur_buf : list Z; cur_pos : nat }.

(** [write!(cursor, ...).unwrap()] of an already formatted text. *)
Definition cur_write (c : cursor) (t : list Z) : outcome cursor :=
  if (cur_pos c + length t <=? length (cur_buf c))%nat
  then Done (Cursor (list_inserts (cur_pos c) t (cur_buf c)) (cur_pos c + length t))
  else Panic.

(** A sequence of writes. *)
Fixpoint cur_writes (c : cursor) (ts : list (list Z)) : outcome cursor :=
  match ts with
  | [] => Done c
  | t :: ts => c ← cur_write c t; cur_writes c ts
  end.

Definition cursor_at (b t : list Z) : cursor := Cursor (list_inserts 0 t b) (length t).

Lemma cur_write_Done b t t2 : (length t + length t2 ≤ length b)%nat →
  cur_write (cursor_at b t) t2 = Done (cursor_at b (t ++ t2)).
Proof.
  intros H. unfold cur_write, cursor_at. cbn [cur_buf cur_pos].
  rewrite length_inserts. apply Nat.leb_le in H as ->.
  rewrite list_inserts_app_r, length_app. done.
Qed.

Lemma cur_writes_Done b ts t : (length t + length (concat ts) ≤ length b)%nat →
  cur_writes (cursor_at b t) ts = Done (cursor_at b (t ++ concat ts)).
Proof.
  revert t. induction ts as [|t2 ts IH]; intros t H; cbn [cur_writes concat] in *.
  { by rewrite app_nil_r. }
  rewrite length_app in H. rewrite cur_write_Done, bind_Done by lia.
  rewrite IH by len. by rewrite app_assoc.
Qed.

Lemma cur_writes_app c ts1 ts2 :
  cur_writes c (ts1 ++ ts2) = (c ← cur_writes c ts1; cur_writes c ts2).
Proof.
  revert c. induction ts1 as [|t ts IH]; intros c; [done|]. cbn [cur_writes app].
  destruct (cur_write c t); [|done]. simpl. apply IH.
Qed.

(** The eight hexadecimal digits of a word. *)
Definition hex8 (v : Z) : list Z :=
  (λ i, hex_digit (Z.land (shr v (28 - 4 * Z.of_nat i)) 0xF)) <$> seq 0 8.

(** Alphanumeric text: no white space, no punctuation. *)
Definition is_alnum (b : Z) : bool :=
  is_digit b || ((65 <=? b) && (b <=? 90)) || ((97 <=? b) && (b <=? 122)).

Lemma is_digit_alnum b : is_digit b = true → is_alnum b = true.
Proof. unfold is_alnum. by intros ->. Qed.

Lemma hex_digit_alnum n : 0 ≤ n < 16 → is_alnum (hex_digit n) = true.
Proof. apply (check_below (λ n, is_alnum (hex_digit n)) 16). vm_compute. reflexivity. Qed.

Lemma hex8_alnum v : Forall (λ b, is_alnum b = true) (hex8 v).
Proof.
  apply Forall_fmap, Forall_forall. intros i _. apply hex_digit_alnum.
  change 0xF with (2 ^ 4 - 1). rewrite land_ones_mod by lia. by apply Z.mod_pos_bound.
Qed.

Lemma alnum_free x l : is_alnum x = false →
  Forall (λ b, is_alnum b = true) l → Forall (λ b, b ≠ x) l.
Proof. intros Hx H. eapply Forall_impl; [exact H|]. intros b Hb ->. congruence. Qed.

(** ** Widths of formatted numbers *)

Lemma length_dec2 n : 0 ≤ n < 100 → length (pad0 2 (dec n)) = 2%nat.
Proof. apply (check_below_P (λ n, length (pad0 2 (dec n)) = 2%nat) 100). vm_compute. reflexivity. Qed.

Lemma length_dec4 n : 1000 ≤ n < 10000 → length (pad0 4 (dec n)) = 4%nat.
Proof.
  intros Hn. assert (H : length (dec n) = 4%nat); [|unfold pad0; rewrite length_app, length_replicate; lia].
  unfold dec. cbn [dec_fuel].
  destruct (Z.ltb_spec n 10); [lia|].
  destruct (Z.ltb_spec (n / 10) 10); [dlia|].
  destruct (Z.ltb_spec (n / 10 / 10) 10); [dlia|].
  destruct (Z.ltb_spec (n / 10 / 10 / 10) 10); [done|dlia].
Qed.

Lemma pad0_digits w n : 0 ≤ n → Forall (λ b, is_digit b = true) (pad0 w (dec n)).
Proof. intros. apply Forall_app_2; [by apply Forall_replicate|by apply dec_digits]. Qed.
