(* ===== verification/CivilDate.v ===== *)
(** * The civil date of a day number (proto/syslog.rs, proto/sip.rs)

    Both modules convert days since 1970-01-01 to a calendar date with
    Hinnant's algorithm.  It is proved against a day counter: starting from
    1 January 1970, [n] steps of "the next day" of the Gregorian calendar. *)

From S2P Require Import Prelude Words.
Local Open Scope Z_scope.

(** The algorithm on the shifted day number [z] (days since 0000-03-01):
    year, month, day. *)
Definition civil_of_shifted (z : Z) : Z * Z * Z :=
  let era := z / 146097 in
  let doe := z - era * 146097 in
  let yoe := (doe - doe / 1460 + doe / 36524 - doe / 146096) / 365 in
  let y := yoe + era * 400 in
  let doy := doe - (365 * yoe + yoe / 4 - yoe / 100) in
  let mp := (5 * doy + 2) / 153 in
  let d := doy - (153 * mp + 2) / 5 + 1 in
  let m := if mp <? 10 then mp + 3 else mp - 9 in
  let y := if m <=? 2 then y + 1 else y in
  (y, m, d).

(** ** The Gregorian calendar *)

Definition leap (y : Z) : bool :=
  (y mod 4 =? 0) && (negb (y mod 100 =? 0) || (y mod 400 =? 0)).

Definition days_in_month (y m : Z) : Z :=
  if m =? 2 then (if leap y then 29 else 28)
  else if (m =? 4) || (m =? 6) || (m =? 9) || (m =? 11) then 30 else 31.

Definition next_day (dt : Z * Z * Z) : Z * Z * Z :=
  let '(y, m, d) := dt in
  if d <? days_in_month y m then (y, m, d + 1)
  else if m <? 12 then (y, m + 1, 1) else (y + 1, 1, 1).

(** The date [n] days after 1 January 1970. *)
Definition calendar (n : nat) : Z * Z * Z := Nat.iter n next_day (1970, 1, 1).

(** ** The year and the day of the year

    The algorithm's years start on 1 March: year [y] of an era starts on day
    [ystart y] of it, and ends with the February of civil year [y + 1]. *)

Definition ystart (y : Z) : Z := 365 * y + y / 4 - y / 100 + y / 400.

(** The days of a year that ends with a leap or a common February. *)
Definition ylen (b : bool) : Z := if b then 366 else 365.

Definition yoe_of (doe : Z) : Z :=
  (doe - doe / 1460 + doe / 36524 - doe / 146096) / 365.

Lemma yoe_of_mono a b : 0 ≤ a ≤ b → b < 146097 → yoe_of a ≤ yoe_of b.
Proof.
  intros Ha Hb.
  assert (Hstep : ∀ n c, 0 ≤ c → c + Z.of_nat n < 146097 → yoe_of c ≤ yoe_of (c + Z.of_nat n)).
  { induction n as [|n IH]; intros c Hc Hn; [rewrite Z.add_0_r; lia|].
    etrans; [apply (IH c); lia|]. unfold yoe_of. apply Z.div_le_mono; [lia|].
    replace (c + Z.of_nat (S n)) with (c + Z.of_nat n + 1) by lia. dlia. }
  specialize (Hstep (Z.to_nat (b - a)) a). rewrite Z2Nat.id in Hstep by lia.
  replace (a + (b - a)) with b in Hstep by lia. apply Hstep; lia.
Qed.

(** Both ends of every year, and its length, by evaluation. *)
Lemma year_ends y : 0 ≤ y < 400 →
  yoe_of (ystart y) = y ∧ yoe_of (ystart (y + 1) - 1) = y ∧
  ystart (y + 1) - ystart y = ylen (leap (y + 1)) ∧
  0 ≤ ystart y ∧ ystart (y + 1) ≤ 146097.
Proof.
  apply (check_below_P (λ y, yoe_of (ystart y) = y ∧ yoe_of (ystart (y + 1) - 1) = y ∧
    ystart (y + 1) - ystart y = ylen (leap (y + 1)) ∧
    0 ≤ ystart y ∧ ystart (y + 1) ≤ 146097) 400).
  vm_compute. reflexivity.
Qed.

Lemma yoe_of_year y doy : 0 ≤ y < 400 → 0 ≤ doy < ystart (y + 1) - ystart y →
  yoe_of (ystart y + doy) = y.
Proof.
  intros Hy Hd. destruct (year_ends y Hy) as (H1 & H2 & _ & H3 & H4).
  pose proof (yoe_of_mono (ystart y) (ystart y + doy)).
  pose proof (yoe_of_mono (ystart y + doy) (ystart (y + 1) - 1)). lia.
Qed.

(** Every day of an era is in one of its 400 years. *)
Lemma year_exists doe : 0 ≤ doe < 146097 →
  ∃ y doy, 0 ≤ y < 400 ∧ 0 ≤ doy < ystart (y + 1) - ystart y ∧ doe = ystart y + doy.
Proof.
  intros Hd.
  assert (H : ∀ n, doe < ystart (Z.of_nat n) → (n ≤ 400)%nat →
    ∃ y, 0 ≤ y < Z.of_nat n ∧ ystart y ≤ doe < ystart (y + 1)).
  { induction n as [|n IH]; intros Hlt Hn; [change (ystart (Z.of_nat 0)) with 0 in Hlt; lia|].
    destruct (decide (doe < ystart (Z.of_nat n))) as [Hl|Hg].
    - destruct (IH Hl ltac:(lia)) as (y & ? & ?). exists y. lia.
    - exists (Z.of_nat n). replace (Z.of_nat n + 1) with (Z.of_nat (S n)) by lia. lia. }
  destruct (H 400%nat) as (y & Hy & Hyd);
    [change (ystart (Z.of_nat 400)) with 146097; lia|lia|].
  exists y, (doe - ystart y). lia.
Qed.

(** ** The month and the day *)

Definition md_of (doy : Z) : Z * Z :=
  let mp := (5 * doy + 2) / 153 in
  (if mp <? 10 then mp + 3 else mp - 9, doy - (153 * mp + 2) / 5 + 1).

(** The next month and day; [b] says whether February has 29 days. *)
Definition md_next (b : bool) (md : Z * Z) : Z * Z :=
  let '(m, d) := md in
  let n := if m =? 2 then (if b then 29 else 28)
           else if (m =? 4) || (m =? 6) || (m =? 9) || (m =? 11) then 30 else 31 in
  if d <? n then (m, d + 1) else if m <? 12 then (m + 1, 1) else (1, 1).

Definition md_check (b : bool) (doy : Z) : bool :=
  bool_decide (md_next b (md_of doy)
    = (if doy + 1 =? ylen b then (3, 1) else md_of (doy + 1)) ∧ 1 ≤ (md_of doy).1 ≤ 12) &&
  (negb (doy + 1 =? ylen b) || ((md_of doy).1 =? 2)) &&
  (negb (doy + 1 <? ylen b) || negb ((md_of doy).1 =? 2) || ((md_of (doy + 1)).1 =? 2)).

Lemma md_check_ok b doy : 0 ≤ doy < ylen b → md_check b doy = true.
Proof.
  destruct b.
  - apply (check_from_spec (md_check true) 366 0). vm_compute. reflexivity.
  - apply (check_from_spec (md_check false) 365 0). vm_compute. reflexivity.
Qed.

Lemma md_ok (b : bool) doy : 0 ≤ doy < ylen b →
  md_next b (md_of doy) = (if doy + 1 =? ylen b then (3, 1) else md_of (doy + 1)) ∧
  1 ≤ (md_of doy).1 ≤ 12 ∧ (doy + 1 = ylen b → (md_of doy).1 = 2) ∧
  (doy + 1 < ylen b → (md_of doy).1 = 2 → (md_of (doy + 1)).1 = 2).
Proof.
  intros Hd. pose proof (md_check_ok b doy Hd) as H. unfold md_check in H.
  apply andb_true_iff in H as [[[H1 H2]%bool_decide_eq_true H3]%andb_true_iff H4].
  split_and!; [done|lia|lia| |].
  - intros He. apply Z.eqb_eq in He. rewrite He in H3. by apply Z.eqb_eq.
  - intros Hl Hm. apply Z.ltb_lt in Hl. rewrite Hl, Hm in H4. by apply Z.eqb_eq.
Qed.

(** The civil date in the March-based year [y]. *)
Definition date_in (y : Z) (md : Z * Z) : Z * Z * Z :=
  let '(m, d) := md in ((if m <=? 2 then y + 1 else y), m, d).

Lemma next_day_in y md : 1 ≤ md.1 ≤ 12 →
  next_day (date_in y md)
  = (if (md.1 =? 2) && negb ((md_next (leap (y + 1)) md).1 =? 2)
     then date_in (y + 1) (md_next (leap (y + 1)) md)
     else date_in y (md_next (leap (y + 1)) md)).
Proof.
  destruct md as [m d]. cbn [fst]. intros Hm. unfold next_day, date_in, md_next, days_in_month.
  destruct (Z.leb_spec m 2).
  - destruct (Z.eqb_spec m 2) as [->|].
    + destruct (leap (y + 1)); repeat case_bool; simpl in *; try lia; done.
    + assert (m = 1) as -> by lia. simpl. repeat case_bool; simpl in *; try lia; done.
  - destruct (Z.eqb_spec m 2); [lia|].
    repeat case_bool; simpl in *; try lia; f_equal; f_equal; lia.
Qed.

Lemma leap_shift y k : leap (y + 400 * k) = leap y.
Proof.
  unfold leap.
  replace ((y + 400 * k) mod 4) with (y mod 4)
    by (replace (y + 400 * k) with (y + (100 * k) * 4) by lia; by rewrite Z.mod_add).
  replace ((y + 400 * k) mod 100) with (y mod 100)
    by (replace (y + 400 * k) with (y + (4 * k) * 100) by lia; by rewrite Z.mod_add).
  replace ((y + 400 * k) mod 400) with (y mod 400)
    by (replace (y + 400 * k) with (y + k * 400) by lia; by rewrite Z.mod_add).
  done.
Qed.

(** What the algorithm computes on day [doy] of year [y] of era [e]. *)
Lemma civil_at e y doy : 0 ≤ y < 400 → 0 ≤ doy < ystart (y + 1) - ystart y →
  civil_of_shifted (e * 146097 + (ystart y + doy)) = date_in (y + e * 400) (md_of doy).
Proof.
  intros Hy Hd. destruct (year_ends y Hy) as (_ & _ & _ & H0 & H1).
  pose proof (yoe_of_year y doy Hy Hd) as Hyoe. unfold civil_of_shifted. cbv zeta.
  rewrite Z.div_add_l by lia. rewrite (Z.div_small (ystart y + doy)) by lia.
  replace (e * 146097 + (ystart y + doy) - (e + 0) * 146097) with (ystart y + doy) by lia.
  fold (yoe_of (ystart y + doy)). rewrite Hyoe.
  assert (Hdoy : ystart y + doy - (365 * y + y / 4 - y / 100) = doy).
  { unfold ystart. rewrite (Z.div_small y 400) by lia. lia. }
  rewrite Hdoy. unfold date_in, md_of. rewrite Z.add_0_r. done.
Qed.

Lemma date_in_march y y' : y = y' → date_in y (md_of 0) = date_in y' (3, 1).
Proof. by intros ->. Qed.

(** The algorithm steps like the calendar, from every day on. *)
Lemma civil_next z : civil_of_shifted (z + 1) = next_day (civil_of_shifted z).
Proof.
  pose proof (Z.div_mod z 146097 ltac:(lia)) as Hz.
  pose proof (Z.mod_pos_bound z 146097 ltac:(lia)) as Hr.
  set (e := z / 146097) in *.
  destruct (year_exists (z mod 146097) Hr) as (y & doy & Hy & Hd & Hdoe).
  destruct (year_ends y Hy) as (_ & _ & Hlen & _ & _).
  replace z with (e * 146097 + (ystart y + doy)) by lia.
  rewrite civil_at by done. rewrite Hlen in Hd.
  assert (Hleap : leap (y + e * 400 + 1) = leap (y + 1)).
  { rewrite <- (leap_shift (y + 1) e). f_equal. lia. }
  destruct (md_ok (leap (y + 1)) doy Hd) as (Hnext & Hm & Hend & Hin).
  rewrite next_day_in, Hleap by done.
  destruct (Z.eqb_spec (doy + 1) (ylen (leap (y + 1)))) as [He|Hne].
  - rewrite Hnext, (Hend He). cbn [fst Z.eqb andb negb].
    change (2 =? 2) with true. cbn [andb negb Z.eqb].
    destruct (decide (y + 1 = 400)) as [H400|].
    + replace (e * 146097 + (ystart y + doy) + 1) with ((e + 1) * 146097 + (ystart 0 + 0)).
      2: { change (ystart 0) with 0. assert (ystart (y + 1) = 146097) by by rewrite H400. lia. }
      rewrite civil_at by (vm_compute; (done || lia)). apply date_in_march. lia.
    + replace (e * 146097 + (ystart y + doy) + 1) with (e * 146097 + (ystart (y + 1) + 0)) by lia.
      destruct (year_ends (y + 1)) as (_ & _ & Hlen' & _ & _); [lia|].
      rewrite civil_at; [|lia|rewrite Hlen'; destruct (leap (y + 1 + 1)); simpl; lia]. apply date_in_march. lia.
  - rewrite Hnext.
    assert (Hfin : ((md_of doy).1 =? 2) && negb ((md_of (doy + 1)).1 =? 2) = false).
    { destruct (Z.eqb_spec (md_of doy).1 2) as [H2|]; [|done].
      rewrite Hin; [done|lia|done]. }
    rewrite Hfin. rewrite <- Z.add_assoc, <- Z.add_assoc. apply civil_at; [done|lia].
Qed.

(** Hinnant's algorithm is the calendar. *)
Lemma civil_calendar n : civil_of_shifted (Z.of_nat n + 719468) = calendar n.
Proof.
  induction n as [|n IH]; [reflexivity|].
  change (calendar (S n)) with (next_day (calendar n)). rewrite <- IH, <- civil_next.
  f_equal. lia.
Qed.

(** Ranges, from the calendar. *)
Definition date_ok (dt : Z * Z * Z) : Prop :=
  let '(y, m, d) := dt in 1970 ≤ y ∧ 1 ≤ m ≤ 12 ∧ 1 ≤ d ≤ days_in_month y m.

Lemma days_in_month_range y m : 28 ≤ days_in_month y m ≤ 31.
Proof. unfold days_in_month. repeat case_match; lia. Qed.

Lemma next_day_ok dt : date_ok dt → date_ok (next_day dt).
Proof.
  destruct dt as [[y m] d]. unfold date_ok, next_day. intros (Hy & Hm & Hd).
  pose proof (days_in_month_range y (m + 1)). pose proof (days_in_month_range (y + 1) 1).
  repeat case_bool; lia.
Qed.

Lemma calendar_ok n : date_ok (calendar n).
Proof. induction n as [|n IH]; [by vm_compute|]. by apply next_day_ok. Qed.
