(* ===== verification/Feistel.v ===== *)
(** * proto/feistel.rs: the 32-bit Feistel permutation and the token hash *)

From S2P Require Import Prelude Words.
Local Open Scope Z_scope.

Definition FEISTEL_SALT_PORTS : Z := 0xB7E15163.

(** [sip_hash32]: a multiply-rotate mix of [x] with the four round keys. *)
Definition sip_hash32 (x : Z) (rk : list Z) : Z :=
  let h := x in
  let h := wrapping_add 32 (wrapping_mul 32 h 0xcc9e2d51) (rk !!! 0%nat) in
  let h := rotate_left 32 h 15 in
  let h := wrapping_add 32 (wrapping_mul 32 h 0x1b873593) (rk !!! 1%nat) in
  let h := rotate_left 32 h 13 in
  let h := wrapping_add 32 (wrapping_mul 32 h 0xe6546b64) (rk !!! 2%nat) in
  let h := rotate_left 32 h 10 in
  let h := wrapping_add 32 (wrapping_mul 32 h 0x85ebca6b) (rk !!! 3%nat) in
  let h := Z.lxor h (shr h 16) in
  let h := wrapping_mul 32 h 0x85ebca6b in
  let h := Z.lxor h (shr h 13) in
  let h := wrapping_mul 32 h 0xc2b2ae35 in
  let h := Z.lxor h (shr h 16) in
  h.

Lemma sip_hash32_range x rk : is_u32 (sip_hash32 x rk).
Proof.
  unfold sip_hash32, wrapping_mul. cbv zeta. eauto 10 with gutd.
Qed.

(** The round function: [lo] and [k] as [u32]. *)
Definition feistel_f (lo k : Z) : Z :=
  Z.lxor (Z.lxor (wrapping_add 32 (wrapping_mul 32 lo 0x9E37) k) (shl 32 lo 3))
         (shr lo 5).

(** One round on the pair [(lo, hi)], and its inverse. *)
Definition feistel_round (st : Z * Z) (k : Z) : Z * Z :=
  let '(lo, hi) := st in
  let f := feistel_f lo k in
  let new_lo := Z.lxor hi (as_u16 (Z.land f 0xFFFF)) in
  (new_lo, lo).

Definition feistel_unround (st : Z * Z) (k : Z) : Z * Z :=
  let '(lo, hi) := st in
  let lo_old := hi in
  let f := feistel_f hi k in
  let hi_old := Z.lxor lo (as_u16 (Z.land f 0xFFFF)) in
  (lo_old, hi_old).

Definition feistel_split (x : Z) : Z * Z :=
  (as_u16 (Z.land x 0xFFFF), as_u16 (shr x 16)).

Definition feistel_join (st : Z * Z) : Z :=
  let '(lo, hi) := st in Z.lor (shl 32 hi 16) lo.

Definition feistel32 (x : Z) (rk : list Z) : Z :=
  feistel_join (foldl feistel_round (feistel_split x) rk).

(** The loop runs [i] over [(0..4).rev()]. *)
Definition feistel32_inv (x : Z) (rk : list Z) : Z :=
  feistel_join
    (foldl (λ st i, feistel_unround st (rk !!! i)) (feistel_split x) (rev (seq 0 4))).

(** ** Properties *)

Definition half_pair (st : Z * Z) : Prop := is_u16 st.1 ∧ is_u16 st.2.

Lemma feistel_split_half x : half_pair (feistel_split x).
Proof. split; simpl; auto with gutd. Qed.

Lemma feistel_round_half st k : half_pair st → half_pair (feistel_round st k).
Proof. destruct st as [lo hi]. intros [??]; split; simpl in *; auto with gutd. Qed.

Lemma feistel_unround_round st k : feistel_unround (feistel_round st k) k = st.
Proof. destruct st as [lo hi]. simpl. by rewrite lxor_involutive. Qed.

Lemma feistel_round_unround st k : feistel_round (feistel_unround st k) k = st.
Proof. destruct st as [lo hi]. simpl. by rewrite lxor_involutive. Qed.

Lemma feistel_join_range st : half_pair st → is_u32 (feistel_join st).
Proof.
  destruct st as [lo hi]. intros [Hl Hh]. simpl in *.
  apply lor_range; [lia|auto with gutd|]. by apply (in_width_mono 16).
Qed.

Lemma feistel_split_join st : half_pair st → feistel_split (feistel_join st) = st.
Proof.
  destruct st as [lo hi]. intros [Hl Hh]. simpl in *.
  unfold feistel_split. f_equal; apply Z.bits_inj'; intros i Hi.
  - rewrite wrap_testbit by lia. change 0xFFFF with (Z.ones 16).
    rewrite Z.land_spec, Z.lor_spec. unfold shl.
    rewrite wrap_testbit, Z.testbit_ones_nonneg by lia. case_decide.
    + rewrite decide_True by lia. rewrite Z.shiftl_spec_low by lia. simpl.
      destruct (Z.ltb_spec i 16); [|lia]. by rewrite andb_true_r.
    + symmetry. apply (testbit_above 16); [done|lia].
  - rewrite wrap_testbit by lia. unfold shr. rewrite Z.shiftr_spec by lia.
    rewrite Z.lor_spec. unfold shl. rewrite wrap_testbit by lia.
    rewrite (testbit_above 16 lo) by (done || lia). rewrite orb_false_r.
    case_decide; [rewrite decide_True by lia|].
    + rewrite Z.shiftl_spec by lia. f_equal. lia.
    + symmetry. apply (testbit_above 16); [done|lia].
Qed.

Lemma feistel_join_split x : is_u32 x → feistel_join (feistel_split x) = x.
Proof.
  intros Hx. unfold feistel_split, feistel_join, shl, shr.
  apply Z.bits_inj'. intros i Hi. rewrite Z.lor_spec.
  rewrite (wrap_testbit 16), (wrap_testbit 32) by lia.
  change 0xFFFF with (Z.ones 16). rewrite Z.land_spec, Z.testbit_ones_nonneg by lia.
  destruct (decide (i < 32)).
  - destruct (decide (i < 16)).
    + rewrite Z.shiftl_spec_low by lia. destruct (Z.ltb_spec i 16); [|lia].
      by rewrite andb_true_r.
    + rewrite Z.shiftl_spec, wrap_testbit, decide_True, Z.shiftr_spec by lia.
      rewrite orb_false_r. f_equal. lia.
  - rewrite decide_False by lia. simpl. symmetry.
    apply (testbit_above 32); [done|lia].
Qed.

Lemma feistel_rounds_half rk st : half_pair st → half_pair (foldl feistel_round st rk).
Proof.
  revert st. induction rk as [|k rk IH]; intros st H; simpl; [done|].
  by apply IH, feistel_round_half.
Qed.

Lemma feistel_unrounds_rounds rk st :
  foldl feistel_unround (foldl feistel_round st rk) (rev rk) = st.
Proof.
  revert st. induction rk as [|k rk IH]; intros st; [done|].
  cbn [rev foldl]. rewrite foldl_app. cbn [foldl]. rewrite IH.
  apply feistel_unround_round.
Qed.

Lemma feistel_rounds_unrounds rk st :
  foldl feistel_round (foldl feistel_unround st (rev rk)) rk = st.
Proof.
  revert st. induction rk as [|k rk IH]; intros st; [done|].
  cbn [rev foldl]. rewrite foldl_app. cbn [foldl].
  by rewrite feistel_round_unround, IH.
Qed.

(** The indexed, reversed loop of the inverse walks the reversed keys. *)
Lemma feistel32_inv_rev x rk : length rk = 4%nat →
  feistel32_inv x rk = feistel_join (foldl feistel_unround (feistel_split x) (rev rk)).
Proof. intros H. do 5 (destruct rk as [|? rk]; try done). Qed.

Lemma feistel32_range x rk : is_u32 (feistel32 x rk).
Proof. apply feistel_join_range, feistel_rounds_half, feistel_split_half. Qed.

(** [feistel32] is a permutation of the 32-bit words for every key
    schedule: [feistel32_inv] undoes it on every [u32], and it undoes
    [feistel32_inv]. *)
Theorem feistel32_bijective (x : Z) (rk : list Z) :
  is_u32 x → length rk = 4%nat →
  feistel32_inv (feistel32 x rk) rk = x ∧ feistel32 (feistel32_inv x rk) rk = x.
Proof.
  intros Hx Hrk. rewrite !feistel32_inv_rev by done. unfold feistel32. split.
  - rewrite feistel_split_join by apply feistel_rounds_half, feistel_split_half.
    by rewrite feistel_unrounds_rounds, feistel_join_split.
  - assert (H : ∀ l st, half_pair st → half_pair (foldl feistel_unround st l)).
    { induction l as [|k l IH]; intros [lo hi] [??]; simpl in *; [done|].
      apply IH. split; simpl; auto with gutd. }
    rewrite feistel_split_join by apply H, feistel_split_half.
    by rewrite feistel_rounds_unrounds, feistel_join_split.
Qed.

Lemma feistel32_bijective_witness :
  feistel32_inv (feistel32 0xDEADBEEF [1; 2; 3; 4]) [1; 2; 3; 4] = 0xDEADBEEF ∧
  feistel32 (feistel32_inv 0xDEADBEEF [1; 2; 3; 4]) [1; 2; 3; 4] = 0xDEADBEEF.
Proof. apply feistel32_bijective; [split; [lia|reflexivity]|reflexivity]. Defined.
