(* ===== verification/Base64.v ===== *)
(** * proto/base64.rs: the Base64 codec of the syslog and SIP envelopes *)

From S2P Require Import Prelude Words Slices Text.
Local Open Scope Z_scope.

Definition ALPHABET : list Z :=
  bs "ABCDEFGHIJKLMNOPQRSTUVWXYZabcdefghijklmnopqrstuvwxyz0123456789+/".

Definition EQ_SIGN : Z := 61.  (* b'=' *)

Definition build_decode_table : outcome (list Z) :=
  table ← for_range 0 64
    (λ i table, a ← get ALPHABET i; put table (Z.to_nat a) (Z.of_nat i))
    (replicate 256 0xFF);
  put table (Z.to_nat EQ_SIGN) 0.

(** The [static DECODE_TABLE], evaluated at compile time. *)
Definition DECODE_TABLE : list Z :=
  Eval vm_compute in match build_decode_table with Done t => t | Panic => [] end.

(** [ALPHABET[v as usize]] and [DECODE_TABLE[b as usize]] *)
Definition enc_char (v : Z) : outcome Z := get ALPHABET (Z.to_nat v).
Definition dec_char (b : Z) : outcome Z := get DECODE_TABLE (Z.to_nat b).

(** The body of the [while i < len] loop, then the loop; [fuel] bounds the
    number of iterations. *)
Definition encode_step (input output : list Z) (i o : nat) : outcome (list Z) :=
  let len := length input in
  b0 ← get input i;
  b1 ← (if (i + 1 <? len)%nat then get input (i + 1) else Done 0);
  b2 ← (if (i + 2 <? len)%nat then get input (i + 2) else Done 0);
  c0 ← enc_char (shr b0 2);
  output ← put output o c0;
  c1 ← enc_char (Z.lor (shl 8 (Z.land b0 0x3) 4) (shr b1 4));
  output ← put output (o + 1) c1;
  output ← (if (i + 1 <? len)%nat
            then c2 ← enc_char (Z.lor (shl 8 (Z.land b1 0xF) 2) (shr b2 6));
                 put output (o + 2) c2
            else put output (o + 2) EQ_SIGN);
  if (i + 2 <? len)%nat
  then c3 ← enc_char (Z.land b2 0x3F); put output (o + 3) c3
  else put output (o + 3) EQ_SIGN.

Fixpoint encode_loop (fuel : nat) (input output : list Z) (i o : nat)
    : outcome (list Z * nat) :=
  if (i <? length input)%nat then
    match fuel with
    | O => Panic
    | S fuel =>
        output ← encode_step input output i o;
        encode_loop fuel input output (i + 3) (o + 4)
    end
  else Done (output, o).

(** [encode]: the updated output buffer and the number of bytes written. *)
Definition encode (input output : list Z) : outcome (list Z * nat) :=
  encode_loop (length input) input output 0 0.

(** One quantum of [decode]: [None] on an invalid character, otherwise the
    updated output and the number of bytes written. *)
Definition decode_step (input output : list Z) (i o : nat)
    : outcome (option (list Z * nat)) :=
  a0 ← get input i; v0 ← dec_char a0;
  a1 ← get input (i + 1); v1 ← dec_char a1;
  a2 ← get input (i + 2); v2 ← dec_char a2;
  a3 ← get input (i + 3); v3 ← dec_char a3;
  if (v0 =? 0xFF) || (v1 =? 0xFF) || (v2 =? 0xFF) || (v3 =? 0xFF)
  then Done None
  else
    output ← put output o (Z.lor (shl 8 v0 2) (shr v1 4));
    '(output, written) ←
      (if negb (a2 =? EQ_SIGN)
       then output ← put output (o + 1) (Z.lor (shl 8 v1 4) (shr v2 2));
            Done (output, 2%nat)
       else Done (output, 1%nat));
    '(output, written) ←
      (if negb (a3 =? EQ_SIGN)
       then output ← put output (o + 2) (Z.lor (shl 8 v2 6) v3);
            Done (output, S written)
       else Done (output, written));
    Done (Some (output, written)).

Fixpoint decode_loop (fuel : nat) (input output : list Z) (i o : nat)
    : outcome (list Z * option nat) :=
  if (i <? length input)%nat then
    match fuel with
    | O => Panic
    | S fuel =>
        r ← decode_step input output i o;
        match r with
        | None => Done (output, None)
        | Some (output, written) => decode_loop fuel input output (i + 4) (o + written)
        end
    end
  else Done (output, Some o).

(** [decode]: the updated output buffer and [Some] length, or [None]. *)
Definition decode (input output : list Z) : outcome (list Z * option nat) :=
  if negb (length input mod 4 =? 0)%nat then Done (output, None)
  else decode_loop (length input) input output 0 0.

(** ** Reference encoding (RFC 4648): three bytes to four characters *)

Definition b64_char (v : Z) : Z := ALPHABET !!! Z.to_nat v.

Fixpoint b64 (l : list Z) : list Z :=
  match l with
  | [] => []
  | [b0] => [b64_char (b0 / 4); b64_char (b0 mod 4 * 16); EQ_SIGN; EQ_SIGN]
  | [b0; b1] =>
      [b64_char (b0 / 4); b64_char (b0 mod 4 * 16 + b1 / 16);
       b64_char (b1 mod 16 * 4); EQ_SIGN]
  | b0 :: b1 :: b2 :: l =>
      b64_char (b0 / 4) :: b64_char (b0 mod 4 * 16 + b1 / 16) ::
      b64_char (b1 mod 16 * 4 + b2 / 64) :: b64_char (b2 mod 64) :: b64 l
  end.

(** Induction three bytes at a time. *)
Lemma list_ind3 (P : list Z → Prop) :
  P [] → (∀ a, P [a]) → (∀ a b, P [a; b]) →
  (∀ a b c l, P l → P (a :: b :: c :: l)) → ∀ l, P l.
Proof.
  intros H0 H1 H2 H3. fix IH 1.
  intros [|a [|b [|c l]]]; [done|done|done|]. apply H3, IH.
Qed.

Lemma length_b64 l : length (b64 l) = (4 * ((length l + 2) / 3))%nat.
Proof.
  induction l as [| | |a b c l IH] using list_ind3; [done..|].
  cbn [b64 length]. rewrite IH.
  replace (S (S (S (length l))) + 2)%nat with (length l + 2 + 1 * 3)%nat by lia.
  rewrite Nat.div_add by lia. lia.
Qed.

Lemma enc_char_Done v : 0 ≤ v < 64 → enc_char v = Done (b64_char v).
Proof. intros. apply get_total. change (length ALPHABET) with 64%nat. lia. Qed.

(** The six-bit fields the code extracts with shifts and masks. *)
Lemma field0 b0 : shr b0 2 = b0 / 4.
Proof. apply Z.shiftr_div_pow2. lia. Qed.

Lemma field1 b0 b1 : is_u8 b0 → is_u8 b1 →
  Z.lor (shl 8 (Z.land b0 0x3) 4) (shr b1 4) = b0 mod 4 * 16 + b1 / 16.
Proof.
  intros H0 H1. change 0x3 with (2 ^ 2 - 1). rewrite land_ones_mod, shr_div by lia.
  rewrite lor_shl_add; width.
Qed.

Lemma field2 b1 b2 : is_u8 b1 → is_u8 b2 →
  Z.lor (shl 8 (Z.land b1 0xF) 2) (shr b2 6) = b1 mod 16 * 4 + b2 / 64.
Proof.
  intros H1 H2. change 0xF with (2 ^ 4 - 1). rewrite land_ones_mod, shr_div by lia.
  rewrite lor_shl_add; width.
Qed.

Lemma field3 b2 : Z.land b2 0x3F = b2 mod 64.
Proof. apply (land_ones_mod b2 6). lia. Qed.

(** Stores in a row. *)
Lemma put3 o (a b c : Z) (l : list Z) :
  <[(o + 2)%nat := c]> (<[(o + 1)%nat := b]> (<[o := a]> l)) = list_inserts o [a; b; c] l.
Proof.
  change [a; b; c] with ([a] ++ [b] ++ [c]).
  rewrite !list_inserts_app_r. cbn [list_inserts length].
  by replace (o + 1 + 1)%nat with (o + 2)%nat by lia.
Qed.

Lemma put4 o (a b c d : Z) (l : list Z) :
  <[(o + 3)%nat := d]> (<[(o + 2)%nat := c]> (<[(o + 1)%nat := b]> (<[o := a]> l)))
  = list_inserts o [a; b; c; d] l.
Proof.
  change [a; b; c; d] with ([a] ++ [b] ++ [c] ++ [d]).
  rewrite !list_inserts_app_r. cbn [list_inserts length].
  replace (o + 1 + 1 + 1)%nat with (o + 3)%nat by lia.
  by replace (o + 1 + 1)%nat with (o + 2)%nat by lia.
Qed.

(** ** The encoder writes the reference encoding *)

(** The characters one iteration writes are the next four of [b64]. *)
Lemma encode_step_Done (input output : list Z) (i o : nat) (l : list Z) :
  bytes input → drop i input = l → l ≠ [] → (o + 4 ≤ length output)%nat →
  encode_step input output i o = Done (list_inserts o (take 4 (b64 l)) output).
Proof.
  intros Hin Hl Hne Ho. unfold encode_step.
  assert (Hlen : (length input = i + length l)%nat).
  { subst l. rewrite length_drop. destruct (decide (i < length input)%nat) as [?|?]; [lia|].
    by rewrite drop_ge in Hne by (apply Nat.nlt_ge; done). }
  assert (Hget : ∀ k, input !! (i + k)%nat = l !! k) by (intros; by rewrite <- Hl, lookup_drop).
  assert (Hl8 : bytes l) by (subst l; auto with gutd).
  rewrite (get_Done _ i (l !!! 0%nat)).
  2: { rewrite <- (Nat.add_0_r i) at 1. rewrite Hget. destruct l; done. }
  rewrite bind_Done, Hlen.
  destruct l as [|b0 [|b1 [|b2 l]]]; [done|..]; cbn [length];
    repeat match goal with H : Forall _ (_ :: _) |- _ => inversion H; clear H; subst end;
    repeat case_bool; try lia; rewrite ?bind_Done;
    rewrite ?(get_Done input (i + 1) b1), ?(get_Done input (i + 2) b2) by (by rewrite Hget);
    rewrite ?bind_Done;
    change ((_ :: _) !!! 0%nat) with b0;
    rewrite field0, field1, ?field2, ?field3 by auto with gutd;
    repeat first [rewrite bind_Done | rewrite enc_char_Done by width | rewrite put_Done by len];
    f_equal; cbn [b64 take]; change (0 / 16) with 0; change (0 / 64) with 0;
    rewrite ?Z.add_0_r; apply put4.
Qed.

Lemma encode_loop_Done (l input output : list Z) (i o fuel : nat) :
  bytes input → drop i input = l → (i ≤ length input)%nat →
  (length l ≤ fuel)%nat → (o + length (b64 l) ≤ length output)%nat →
  encode_loop fuel input output i o
  = Done (list_inserts o (b64 l) output, (o + length (b64 l))%nat).
Proof.
  intros Hin. revert i o fuel output.
  induction l as [|a|a b|a b c l IH] using list_ind3; intros i o fuel output Hl Hi Hf Ho;
    assert (Hlen : (length input - i = length (drop i input))%nat)
      by (by rewrite length_drop); rewrite Hl in Hlen; cbn [length] in *;
    (destruct fuel as [|fuel]; [try lia|]); cbn [encode_loop];
    try (destruct (Nat.ltb_spec i (length input)); [|lia]);
    try (erewrite encode_step_Done; [|done..|cbn in Ho; lia]; rewrite bind_Done).
  - by case_bool; [lia|]; rewrite Nat.add_0_r.
  - by case_bool; [lia|]; rewrite Nat.add_0_r.
  - destruct fuel; cbn [encode_loop]; case_bool; [lia|done|lia|done].
  - destruct fuel; cbn [encode_loop]; case_bool; [lia|done|lia|done].
  - rewrite IH; [| |lia..|].
    + set (k := take 4 (b64 (a :: b :: c :: l))).
      assert (b64 (a :: b :: c :: l) = k ++ b64 l) as -> by done.
      rewrite list_inserts_app_r, length_app. change (length k) with 4%nat.
      by rewrite Nat.add_assoc.
    + rewrite <- drop_drop, Hl. done.
    + cbn [b64 length take] in *. len.
Qed.

Lemma encode_Done (input output : list Z) :
  bytes input → (length (b64 input) ≤ length output)%nat →
  encode input output = Done (list_inserts 0 (b64 input) output, length (b64 input)).
Proof. intros Hin Hlen. unfold encode. by rewrite (encode_loop_Done input) by (done || lia). Qed.

(** [encode] on a large enough buffer writes exactly the RFC 4648 Base64
    encoding of its input at the start of the buffer, leaves the rest of the
    buffer alone and returns the number of characters, [4 * ceil(n / 3)]. *)
Theorem encode_correct (input output : list Z) :
  bytes input → (4 * ((length input + 2) / 3) ≤ length output)%nat →
  encode input output
  = Done (list_inserts 0 (b64 input) output, (4 * ((length input + 2) / 3))%nat).
Proof.
  intros Hin Hlen. rewrite <- length_b64 in *. by apply encode_Done.
Qed.

Lemma encode_correct_witness :
  encode [72; 105] (replicate 6 0) = Done ([83; 71; 107; 61; 0; 0], 4%nat).
Proof.
  rewrite encode_correct; [reflexivity| |simpl; lia].
  repeat constructor; unfold in_width; lia.
Defined.

(** ** The decoder *)

(** A character of the alphabet, or the padding character. *)
Definition valid_char (b : Z) : bool := negb (DECODE_TABLE !!! Z.to_nat b =? 0xFF).

Lemma dec_char_Done b : is_u8 b → dec_char b = Done (DECODE_TABLE !!! Z.to_nat b).
Proof. intros. apply get_total. change (length DECODE_TABLE) with 256%nat. width. Qed.

Lemma dec_b64_char v : 0 ≤ v < 64 → DECODE_TABLE !!! Z.to_nat (b64_char v) = v.
Proof.
  intros. apply Z.eqb_eq. revert v H.
  apply (check_below (λ v, DECODE_TABLE !!! Z.to_nat (b64_char v) =? v) 64).
  vm_compute. done.
Qed.

Lemma b64_char_ok v : 0 ≤ v < 64 →
  is_u8 (b64_char v) ∧ (b64_char v =? EQ_SIGN) = false.
Proof.
  intros. cut (bool_decide (is_u8 (b64_char v)) && negb (b64_char v =? EQ_SIGN) = true).
  { intros [H1 H2]%andb_true_iff. apply bool_decide_eq_true in H1.
    by apply negb_true_iff in H2. }
  revert v H.
  apply (check_below (λ v, bool_decide (is_u8 (b64_char v)) && negb (b64_char v =? EQ_SIGN)) 64).
  vm_compute. done.
Qed.

Lemma b64_bytes l : bytes l → bytes (b64 l).
Proof.
  induction l as [|a|a b|a b c l IH] using list_ind3; intros H;
    repeat match goal with H : Forall _ (_ :: _) |- _ => inversion H; clear H; subst end;
    cbn [b64]; repeat constructor; try (apply b64_char_ok; width);
    try (unfold EQ_SIGN; width).
  by apply IH.
Qed.

(** Putting the fields back together. *)
Lemma join0 b0 x : is_u8 b0 → 0 ≤ x < 16 →
  Z.lor (shl 8 (b0 / 4) 2) (shr (b0 mod 4 * 16 + x) 4) = b0.
Proof.
  intros. rewrite shr_div by lia.
  replace ((b0 mod 4 * 16 + x) / 2 ^ 4) with (b0 mod 4) by width.
  rewrite lor_shl_add; width.
Qed.

Lemma join1 b0 b1 x : is_u8 b1 → 0 ≤ x < 4 →
  Z.lor (shl 8 (b0 mod 4 * 16 + b1 / 16) 4) (shr (b1 mod 16 * 4 + x) 2) = b1.
Proof.
  intros. rewrite shr_div by lia.
  replace ((b1 mod 16 * 4 + x) / 2 ^ 2) with (b1 mod 16) by width.
  unfold shl. rewrite Z.shiftl_mul_pow2 by lia. unfold wrap.
  replace (((b0 mod 4 * 16 + b1 / 16) * 2 ^ 4) mod 2 ^ 8) with (b1 / 16 * 2 ^ 4).
  { rewrite lor_add; width. }
  replace ((b0 mod 4 * 16 + b1 / 16) * 2 ^ 4)
    with (b1 / 16 * 2 ^ 4 + b0 mod 4 * 2 ^ 8) by (pow2; lia).
  rewrite Z.mod_add by lia. rewrite Z.mod_small; width.
Qed.

Lemma join2 b1 b2 : is_u8 b2 →
  Z.lor (shl 8 (b1 mod 16 * 4 + b2 / 64) 6) (b2 mod 64) = b2.
Proof.
  intros. unfold shl. rewrite Z.shiftl_mul_pow2 by lia. unfold wrap.
  replace (((b1 mod 16 * 4 + b2 / 64) * 2 ^ 6) mod 2 ^ 8) with (b2 / 64 * 2 ^ 6).
  { rewrite lor_add; width. }
  replace ((b1 mod 16 * 4 + b2 / 64) * 2 ^ 6)
    with (b2 / 64 * 2 ^ 6 + b1 mod 16 * 2 ^ 8) by (pow2; lia).
  rewrite Z.mod_add by lia. rewrite Z.mod_small; width.
Qed.

(** One quantum, from the four characters it reads. *)
Definition quantum (input : list Z) (i : nat) (q : Z * Z * Z * Z) : Prop :=
  let '(a0, a1, a2, a3) := q in
  input !! i = Some a0 ∧ input !! (i + 1)%nat = Some a1 ∧
  input !! (i + 2)%nat = Some a2 ∧ input !! (i + 3)%nat = Some a3.

Lemma decode_step_eq input output i o a0 a1 a2 a3 :
  bytes input → quantum input i (a0, a1, a2, a3) →
  let v := λ a, DECODE_TABLE !!! Z.to_nat a in
  decode_step input output i o =
  if negb (valid_char a0 && valid_char a1 && valid_char a2 && valid_char a3)
  then Done None
  else
    output ← put output o (Z.lor (shl 8 (v a0) 2) (shr (v a1) 4));
    '(output, written) ←
      (if negb (a2 =? EQ_SIGN)
       then output ← put output (o + 1) (Z.lor (shl 8 (v a1) 4) (shr (v a2) 2));
            Done (output, 2%nat)
       else Done (output, 1%nat));
    '(output, written) ←
      (if negb (a3 =? EQ_SIGN)
       then output ← put output (o + 2) (Z.lor (shl 8 (v a2) 6) (v a3));
            Done (output, S written)
       else Done (output, written));
    Done (Some (output, written)).
Proof.
  intros Hin (H0 & H1 & H2 & H3) v. unfold decode_step.
  assert (Hb : ∀ i a, input !! i = Some a → is_u8 a)
    by (intros j a Ha; rewrite Forall_lookup in Hin; eauto).
  rewrite (get_Done _ _ _ H0), bind_Done, dec_char_Done by eauto.
  rewrite (get_Done _ _ _ H1), !bind_Done, dec_char_Done by eauto.
  rewrite (get_Done _ _ _ H2), !bind_Done, dec_char_Done by eauto.
  rewrite (get_Done _ _ _ H3), !bind_Done, dec_char_Done by eauto.
  rewrite bind_Done. unfold valid_char. rewrite !negb_andb, !negb_involutive. done.
Qed.

(** Decoding a quantum the encoder wrote stores the bytes it came from. *)
Lemma decode_step_b64 l input output i o :
  bytes input → bytes l → l ≠ [] →
  (∀ k, (k < 4)%nat → input !! (i + k)%nat = b64 l !! k) →
  (o + Nat.min 3 (length l) ≤ length output)%nat →
  decode_step input output i o
  = Done (Some (list_inserts o (take 3 l) output, Nat.min 3 (length l))).
Proof.
  intros Hin Hl Hne Hk Ho.
  assert (Hq : ∀ k a, (k < 4)%nat → b64 l !! k = Some a → input !! (i + k)%nat = Some a)
    by (intros; by rewrite Hk).
  pose proof (Hq 0%nat) as Hq0. rewrite Nat.add_0_r in Hq0.
  destruct l as [|b0 [|b1 [|b2 l]]]; [done|..];
    repeat match goal with H : Forall _ (_ :: _) |- _ => inversion H; clear H; subst end;
    (erewrite decode_step_eq;
     [|done|repeat split; [apply Hq0; [lia|done]|apply Hq; [lia|done]..]]);
    unfold valid_char; cbv zeta; rewrite !dec_b64_char by width;
    change (DECODE_TABLE !!! Z.to_nat EQ_SIGN) with 0.
  all: repeat match goal with |- context [b64_char ?v =? EQ_SIGN] =>
         rewrite (proj2 (b64_char_ok v ltac:(width))) end.
  all: repeat match goal with |- context [?v =? 255] =>
         replace (v =? 255) with false by (symmetry; apply Z.eqb_neq; width) end.
  all: rewrite ?Z.eqb_refl; cbn [negb andb length Nat.min take] in *.
  - rewrite <- (Z.add_0_r (b0 mod 4 * 16)), join0 by (done || lia).
    rewrite put_Done by lia. done.
  - rewrite join0 by (done || width).
    rewrite <- (Z.add_0_r (b1 mod 16 * 4)), join1 by (done || lia).
    repeat first [rewrite bind_Done | rewrite put_Done by len].
    do 3 f_equal. cbn [list_inserts].
    rewrite list_insert_insert_ne by lia. by rewrite Nat.add_1_r.
  - rewrite join0, join1, join2 by (done || width).
    repeat first [rewrite bind_Done | rewrite put_Done by len].
    by rewrite put3.
Qed.

Lemma decode_loop_b64 l input output i o fuel :
  bytes input → bytes l → drop i input = b64 l → (i ≤ length input)%nat →
  (length (b64 l) ≤ fuel)%nat → (o + length l ≤ length output)%nat →
  decode_loop fuel input output i o
  = Done (list_inserts o l output, Some (o + length l)%nat).
Proof.
  intros Hin. revert i o fuel output.
  induction l as [|a|a b|a b c l IH] using list_ind3;
    intros i o fuel output Hl8 Hl Hi Hf Ho;
    assert (Hlen : (length input - i = length (drop i input))%nat)
      by (by rewrite length_drop); rewrite Hl in Hlen; cbn [length b64] in *.
  1: destruct fuel; cbn [decode_loop]; case_bool; try lia; by rewrite Nat.add_0_r.
  all: destruct fuel as [|fuel]; [lia|]; cbn [decode_loop];
    (destruct (Nat.ltb_spec i (length input)); [|lia]);
    (erewrite (decode_step_b64 (_ :: _));
     [|done|exact Hl8|done|intros k Hk; rewrite <- lookup_drop, Hl; by destruct k as [|[|[|[|]]]]
      |cbn; lia]); rewrite bind_Done; cbn [length Nat.min take].
  1,2: destruct fuel; cbn [decode_loop]; case_bool; try lia; done.
  repeat match goal with H : Forall _ (_ :: _) |- _ => inversion H; clear H; subst end.
  rewrite IH; [|done| |lia..|len].
  - change (a :: b :: c :: l) with ([a; b; c] ++ l). rewrite list_inserts_app_r.
    cbn [length Nat.min].
    by replace (o + S (S (S (length l))))%nat with (o + 3 + length l)%nat by lia.
  - by rewrite <- drop_drop, Hl.
Qed.

Lemma decode_b64 (input dst : list Z) : bytes input → (length input ≤ length dst)%nat →
  decode (b64 input) dst = Done (list_inserts 0 input dst, Some (length input)).
Proof.
  intros Hin Hd. unfold decode. rewrite length_b64 at 1.
  rewrite Nat.mul_comm, Nat.Div0.mod_mul. cbn [Nat.eqb negb].
  rewrite (decode_loop_b64 input) by (done || lia || by apply b64_bytes). done.
Qed.

(** Base64 round trip: decoding what [encode] wrote returns the number of
    bytes that went in and restores them at the start of the destination
    buffer, for every byte string and both buffers large enough. *)
Theorem base64_roundtrip (input output dst : list Z) :
  bytes input → (4 * ((length input + 2) / 3) ≤ length output)%nat →
  (length input ≤ length dst)%nat →
  ∃ out n, encode input output = Done (out, n) ∧
    decode (take n out) dst = Done (list_inserts 0 input dst, Some (length input)).
Proof.
  intros Hin Ho Hd. rewrite <- length_b64 in Ho. do 2 eexists.
  split; [by apply encode_Done|]. rewrite <- window_0, window_inserts by done. by apply decode_b64.
Qed.

Lemma base64_roundtrip_witness :
  ∃ out n, encode (bs "Hello, World, 12345! ") (replicate 100 0) = Done (out, n) ∧
    decode (take n out) (replicate 100 0)
    = Done (list_inserts 0 (bs "Hello, World, 12345! ") (replicate 100 0), Some 21%nat).
Proof.
  apply (base64_roundtrip (bs "Hello, World, 12345! ")); [|cbn; lia..].
  apply (bool_decide_unpack _). vm_compute. done.
Defined.

(** ** Arbitrary input *)

Lemma decode_step_total input output i o :
  bytes input → (i + 4 ≤ length input)%nat → (o + 3 ≤ length output)%nat →
  (forallb valid_char (window i 4 input) = false ∧
   decode_step input output i o = Done None) ∨
  (forallb valid_char (window i 4 input) = true ∧
   ∃ out w, decode_step input output i o = Done (Some (out, w)) ∧
     length out = length output ∧ (1 ≤ w ≤ 3)%nat).
Proof.
  intros Hin Hi Ho.
  assert (Hsome : ∀ k, (k < 4)%nat → input !! (i + k)%nat = Some (input !!! (i + k)%nat))
    by (intros; apply list_lookup_lookup_total_lt; lia).
  assert (Hw : window i 4 input = [input !!! i; input !!! (i + 1)%nat;
                 input !!! (i + 2)%nat; input !!! (i + 3)%nat]).
  { apply list_eq. intros k. rewrite lookup_window.
    destruct k as [|[|[|[|k]]]]; simpl; try (rewrite Hsome by lia; done); [|done].
    rewrite Nat.add_0_r. rewrite <- (Nat.add_0_r i), Hsome by lia. done. }
  erewrite decode_step_eq.
  2: done. 2: { pose proof (Hsome 0%nat) as H0. rewrite Nat.add_0_r in H0.
    repeat split; [apply H0; lia|apply Hsome; lia..]. }
  rewrite Hw. cbn [forallb]. rewrite andb_true_r, !andb_assoc.
  destruct (_ && valid_char (input !!! (i + 3)%nat)) eqn:E; [right|by left].
  split; [done|]. cbn [negb]. rewrite put_Done by len. rewrite bind_Done.
  destruct (negb _), (negb _); repeat first [rewrite bind_Done | rewrite put_Done by len];
    do 2 eexists; (split; [done|]); (split; [by len|lia]).
Qed.

Lemma forallb_window_split {A} (f : A → bool) (i : nat) l : (i + 4 ≤ length l)%nat →
  forallb f (drop i l) = forallb f (window i 4 l) && forallb f (drop (i + 4) l).
Proof.
  intros. unfold window. rewrite <- drop_drop, <- forallb_app, take_drop. done.
Qed.

Lemma decode_loop_total q input output i o fuel :
  bytes input → (length input = i + 4 * q)%nat → (q ≤ fuel)%nat →
  (o + 3 * q ≤ length output)%nat →
  ∃ out r, decode_loop fuel input output i o = Done (out, r) ∧
    length out = length output ∧
    match r with
    | None => forallb valid_char (drop i input) = false
    | Some n => forallb valid_char (drop i input) = true ∧ (n ≤ o + 3 * q)%nat
    end.
Proof.
  intros Hin. revert i o fuel output. induction q as [|q IH]; intros i o fuel output Hi Hf Ho.
  { exists output, (Some o). rewrite drop_ge by lia.
    destruct fuel; cbn [decode_loop]; case_bool; try lia; by (split; [done|]; simpl; auto with lia). }
  destruct fuel as [|fuel]; [lia|]. cbn [decode_loop].
  destruct (Nat.ltb_spec i (length input)); [|lia].
  rewrite forallb_window_split by lia.
  destruct (decode_step_total input output i o) as [[-> ->]|(-> & out & w & -> & Hlen & Hw)];
    [done|lia..|by exists output, None|].
  rewrite bind_Done. destruct (IH (i + 4) (o + w) fuel out)%nat
    as (out' & r & -> & Hl' & Hr); [lia..|].
  exists out', r. split; [done|]. split; [lia|]. destruct r; simpl; [|done].
  destruct Hr. split; [done|lia].
Qed.

(** Every branch of [decode]. *)
Lemma decode_spec (input dst : list Z) :
  bytes input → (3 * (length input / 4) ≤ length dst)%nat →
  ∃ out r, decode input dst = Done (out, r) ∧ length out = length dst ∧
    (r = None ↔ (length input mod 4 ≠ 0)%nat ∨ forallb valid_char input = false) ∧
    (∀ n, r = Some n → (n ≤ 3 * (length input / 4))%nat).
Proof.
  intros Hin Hd. unfold decode. destruct (Nat.eqb_spec (length input mod 4) 0) as [E|E]; cbn [negb].
  - pose proof (Nat.div_mod_eq (length input) 4) as Hdiv.
    destruct (decode_loop_total (length input / 4) input dst 0 0 (length input))
      as (out & r & -> & Hl & Hr); [done|lia..|].
    rewrite drop_0 in Hr. exists out, r. split; [done|]. split; [done|].
    destruct r as [m|].
    + destruct Hr as [Hv Hm]. split; [|intros ? [= <-]; lia]. split; [done|]. intros [?|?]; congruence.
    + split; [|done]. split; [by right|done].
  - exists dst, None. repeat split; auto. done.
Qed.

(** [decode] on an arbitrary byte string and a destination of at least
    three quarters of its length never panics, never writes outside the
    buffer, and reports a length of at most three quarters of the input; it
    returns [None] exactly when the input length is not a multiple of four or
    some character is neither in the alphabet nor the padding sign. *)
Theorem decode_total (input dst : list Z) :
  bytes input → (3 * (length input / 4) ≤ length dst)%nat →
  ∃ out r, decode input dst = Done (out, r) ∧ length out = length dst ∧
    (r = None ↔ (length input mod 4 ≠ 0)%nat ∨ forallb valid_char input = false) ∧
    (∀ n, r = Some n → (n ≤ 3 * (length input / 4))%nat).
Proof. apply decode_spec. Qed.

Lemma decode_total_witness :
  ∃ out r, decode (bs "SGk=") [9; 9; 9] = Done (out, r) ∧ length out = 3%nat ∧
    (r = None ↔ (length (bs "SGk=") mod 4 ≠ 0)%nat ∨ forallb valid_char (bs "SGk=") = false) ∧
    (∀ n, r = Some n → (n ≤ 3 * (length (bs "SGk=") / 4))%nat).
Proof.
  apply (decode_total (bs "SGk=") [9; 9; 9]); [|cbn; lia].
  apply (bool_decide_unpack _). vm_compute. done.
Defined.

(** ** What [decode] leaves in the destination are bytes *)

Lemma dec_char_u8 b v : dec_char b = Done v → is_u8 v.
Proof.
  intros H%get_inv. assert (HT : bytes DECODE_TABLE)
    by (apply (bool_decide_unpack _); vm_compute; exact I).
  by apply (Forall_lookup_1 _ _ _ _ HT H).
Qed.

Lemma decode_step_bytes input output i o out n : bytes output →
  decode_step input output i o = Done (Some (out, n)) → bytes out.
Proof.
  intros Hb H. unfold decode_step in H. do 8 (apply bind_Done_inv in H as (? & ? & H)).
  repeat match goal with H : dec_char _ = Done _ |- _ => apply dec_char_u8 in H end.
  destruct (_ || _); [done|]. done_inv.
  repeat match goal with
  | H : (if ?c then _ else _) = Done (_, _) |- _ => destruct c; done_inv
  | H : (_, _) = (_, _) |- _ => injection H as -> ->
  | H : Some (_, _) = Some (_, _) |- _ => injection H as -> ->
  end; repeat apply Forall_insert; try done;
    apply lor_range; try done; first [apply shl_range | apply shr_range]; done.
Qed.

Lemma decode_loop_bytes fuel input output i o out r : bytes output →
  decode_loop fuel input output i o = Done (out, r) → bytes out.
Proof.
  revert output i o. induction fuel as [|fuel IH]; intros output i o Hb H;
    cbn [decode_loop] in H; destruct (_ <? _)%nat; try done; try (by injection H as <- _).
  apply bind_Done_inv in H as ([[o' n]|] & E & H); [|by injection H as <- _].
  eapply IH; [|exact H]. by eapply decode_step_bytes.
Qed.

Lemma decode_bytes input output out r : bytes output →
  decode input output = Done (out, r) → bytes out.
Proof.
  intros Hb. unfold decode. destruct (negb _); [by intros [= <- _]|]. by apply decode_loop_bytes.
Qed.
