(* ===== verification/ChaCha.v ===== *)
(** * proto/mask_balanced.rs: the ChaCha keystream and payload masking *)

From S2P Require Import Prelude Words Slices.
Local Open Scope Z_scope.

(** ** The block function *)

(** [s[i] = s[i].wrapping_add(s[j])], [s[i] ^= s[j]] and
    [s[i] = s[i].rotate_left(n)] *)
Definition add_at (s : list Z) (i j : nat) : list Z :=
  <[i := wrapping_add 32 (s !!! i) (s !!! j)]> s.
Definition xor_at (s : list Z) (i j : nat) : list Z :=
  <[i := Z.lxor (s !!! i) (s !!! j)]> s.
Definition rot_at (s : list Z) (i : nat) (n : Z) : list Z :=
  <[i := rotate_left 32 (s !!! i) n]> s.

(** [qr(&mut s, a, b, c, d)] *)
Definition qr (s : list Z) (a b c d : nat) : list Z :=
  let s := add_at s a b in
  let s := xor_at s d a in
  let s := rot_at s d 16 in
  let s := add_at s c d in
  let s := xor_at s b c in
  let s := rot_at s b 12 in
  let s := add_at s a b in
  let s := xor_at s d a in
  let s := rot_at s d 8 in
  let s := add_at s c d in
  let s := xor_at s b c in
  let s := rot_at s b 7 in
  s.

(** The body of the [for _ in 0..dr] loop: four column and four diagonal
    quarter rounds. *)
Definition double_round (s : list Z) : list Z :=
  let s := qr s 0 4 8 12 in
  let s := qr s 1 5 9 13 in
  let s := qr s 2 6 10 14 in
  let s := qr s 3 7 11 15 in
  let s := qr s 0 5 10 15 in
  let s := qr s 1 6 11 12 in
  let s := qr s 2 7 8 13 in
  let s := qr s 3 4 9 14 in
  s.

(** "expand 32-byte k" *)
Definition chacha_constants : list Z :=
  [0x61707865; 0x3320646e; 0x79622d32; 0x6b206574].

(** [s[4 + i] = u32::from_le_bytes(key[i * 4..(i + 1) * 4])], [i] in [0..8] *)
Definition key_words (key : list Z) : list Z :=
  (λ i, from_le (window (i * 4) 4 key)) <$> seq 0 8.

(** [(rounds / 2).max(1)] *)
Definition rounds_dr (rounds : Z) : nat := Z.to_nat (Z.max (rounds / 2) 1).

(** [dr] double rounds, then the feed-forward addition. *)
Definition chacha_core (initial : list Z) (rounds : Z) : list Z :=
  let s := Nat.iter (rounds_dr rounds) double_round initial in
  zip_with (wrapping_add 32) s initial.

Definition chacha_block (key : list Z) (counter nonce rounds : Z) : list Z :=
  chacha_core (chacha_constants ++ key_words key ++ [counter; nonce; 0; 0]) rounds.

Definition chacha_init (key : list Z) : list Z := chacha_constants ++ key_words key.

Definition chacha_block_fast (init : list Z) (counter nonce rounds : Z) : list Z :=
  chacha_core (init ++ [counter; nonce; 0; 0]) rounds.

(** [chacha_next_ids] *)
Definition chacha_next_ids (key : list Z) (nonce rounds : Z) : Z * Z :=
  let ks := chacha_block key 211 nonce rounds in
  let nn := if ks !!! 0%nat =? 0 then 1 else ks !!! 0%nat in
  let np := if ks !!! 1%nat =? 0 then 1 else ks !!! 1%nat in
  (nn, np).

(** [chacha_ballast] *)
Definition chacha_ballast (key : list Z) (nonce rounds : Z) : list Z * nat :=
  let ks := chacha_block key 199 nonce rounds in
  let b := words_to_bytes ks in
  let blen := Z.to_nat (Z.land (b !!! 63%nat) 0x3F) in
  (take 63 b, blen).

(** ** Masking *)

Fixpoint mask_loop (fuel : nat) (data key : list Z) (nonce rounds : Z)
    (offset : nat) (counter : Z) : outcome (list Z) :=
  if (offset <? length data)%nat then
    match fuel with
    | O => Panic
    | S fuel =>
        let ks := chacha_block key counter nonce rounds in
        let ks_bytes := words_to_bytes ks in
        let remain := (length data - offset)%nat in
        let n := Nat.min remain 64 in
        data ← xor_in_place offset data ks_bytes n;
        mask_loop fuel data key nonce rounds (offset + 64) (wrapping_add 32 counter 1)
    end
  else Done data.

Definition mask_data (data key : list Z) (nonce rounds : Z) : outcome (list Z) :=
  mask_loop (length data) data key nonce rounds 0 0.

(** ** The interface other components rely on

    A keystream block is sixteen 32-bit words. *)
Class KeystreamBlock (ks : list Z) : Prop := {
  ks_length : length ks = 16%nat;
  ks_words : words ks;
}.

Lemma ks_word ks `{!KeystreamBlock ks} i : (i < 16)%nat → is_u32 (ks !!! i).
Proof. intros. apply Forall_lookup_total; [apply ks_words|by rewrite ks_length]. Qed.

Lemma ks_byte_length ks `{!KeystreamBlock ks} : length (words_to_bytes ks) = 64%nat.
Proof. by rewrite length_words_to_bytes, ks_length. Qed.

#[export] Hint Resolve ks_words : gutd.

(** ** Well-formedness of the block function *)

(** The working state: sixteen 32-bit words. *)
Definition chacha_state (s : list Z) : Prop := words s ∧ length s = 16%nat.

Lemma chacha_state_insert s i v :
  chacha_state s → is_u32 v → chacha_state (<[i:=v]> s).
Proof. intros [??] ?. split; [by apply Forall_insert|by rewrite length_insert]. Qed.

Lemma chacha_state_word s i : chacha_state s → (i < 16)%nat → is_u32 (s !!! i).
Proof. intros [??] ?. apply Forall_lookup_total; [done|lia]. Qed.

Lemma add_at_wf s i j : chacha_state s → chacha_state (add_at s i j).
Proof. intros. apply chacha_state_insert; [done|apply wrap_range; lia]. Qed.

Lemma xor_at_wf s i j : (i < 16)%nat → (j < 16)%nat →
  chacha_state s → chacha_state (xor_at s i j).
Proof.
  intros. apply chacha_state_insert; [done|].
  apply lxor_range; [lia|by apply chacha_state_word..].
Qed.

Lemma rot_at_wf s i n : (i < 16)%nat → n ≤ 32 → chacha_state s → chacha_state (rot_at s i n).
Proof.
  intros. apply chacha_state_insert; [done|].
  apply rotate_left_range; [lia|done|by apply chacha_state_word].
Qed.

Lemma qr_wf s a b c d : (a < 16)%nat → (b < 16)%nat → (c < 16)%nat → (d < 16)%nat →
  chacha_state s → chacha_state (qr s a b c d).
Proof.
  intros Ha Hb Hc Hd Hs. unfold qr. cbv zeta.
  repeat first [apply add_at_wf | apply xor_at_wf; [done..|] | apply rot_at_wf; [done|lia|]].
  done.
Qed.

Lemma double_round_wf s : chacha_state s → chacha_state (double_round s).
Proof.
  intros Hs. unfold double_round. cbv zeta.
  repeat (apply qr_wf; [lia..|]). done.
Qed.

Lemma chacha_core_wf s rounds : words s → length s = 16%nat →
  KeystreamBlock (chacha_core s rounds).
Proof.
  intros Hs Hl. unfold chacha_core. cbv zeta.
  assert (Hit : ∀ n, chacha_state (Nat.iter n double_round s))
    by (induction n; [done|by apply double_round_wf]).
  destruct (Hit (rounds_dr rounds)) as [H1 H2]. split.
  - rewrite length_zip_with. lia.
  - revert H1. generalize (Nat.iter (rounds_dr rounds) double_round s). clear.
    intros l H. revert s. induction H as [|x l Hx Hl IH]; intros [|y s]; constructor;
      [apply wrap_range; lia|apply IH].
Qed.

Lemma key_words_wf key : bytes key → length key = 32%nat →
  words (key_words key) ∧ length (key_words key) = 8%nat.
Proof.
  intros Hk Hl. unfold key_words. split; [|by len].
  apply Forall_fmap, Forall_forall. intros i Hi%elem_of_seq. simpl.
  pose proof (from_le_range (window (i * 4) 4 key)) as H.
  rewrite length_window in H by lia. apply H. auto with gutd.
Qed.

(** The expanded key the datapath keeps: twelve words. *)
Definition expanded_key (init : list Z) : Prop := words init ∧ length init = 12%nat.

Lemma constants_words : words chacha_constants.
Proof. unfold chacha_constants. forall_list. Qed.

Lemma chacha_init_wf key : bytes key → length key = 32%nat → expanded_key (chacha_init key).
Proof.
  intros Hk Hl. destruct (key_words_wf key) as [??]; [done..|]. split.
  - apply Forall_app_2; [apply constants_words|done].
  - unfold chacha_init. rewrite length_app. change (length chacha_constants) with 4%nat. lia.
Qed.

Lemma chacha_block_fast_wf init counter nonce rounds :
  expanded_key init → is_u32 counter → is_u32 nonce →
  KeystreamBlock (chacha_block_fast init counter nonce rounds).
Proof.
  intros [Hw Hl] Hc Hn. apply chacha_core_wf.
  - apply Forall_app_2; [done|]. forall_list.
  - rewrite length_app, Hl. done.
Qed.

(** The precomputed-key variant is the plain one. *)
Lemma chacha_block_fast_init key counter nonce rounds :
  chacha_block_fast (chacha_init key) counter nonce rounds
  = chacha_block key counter nonce rounds.
Proof. unfold chacha_block_fast, chacha_init, chacha_block. by rewrite <- app_assoc. Qed.

Lemma chacha_block_wf key counter nonce rounds :
  bytes key → length key = 32%nat → is_u32 counter → is_u32 nonce →
  KeystreamBlock (chacha_block key counter nonce rounds).
Proof.
  intros. rewrite <- chacha_block_fast_init.
  apply chacha_block_fast_wf; [by apply chacha_init_wf|done..].
Qed.

(** ** The keystream and masking as XOR with it *)

(** A session key: 32 bytes. *)
Definition session_key (key : list Z) : Prop := bytes key ∧ length key = 32%nat.

(** Reference: the blocks with counters [i], [i + 1], ... *)
Fixpoint keystream (key : list Z) (nonce rounds : Z) (i m : nat) : list Z :=
  match m with
  | O => []
  | S m => words_to_bytes (chacha_block key (as_u32 (Z.of_nat i)) nonce rounds)
             ++ keystream key nonce rounds (S i) m
  end.

(** The number of 64-byte blocks that cover [n] bytes. *)
Definition blocks_for (n : nat) : nat := ((n + 63) / 64)%nat.

Section masking.
  Context (key : list Z) (nonce rounds : Z).
  Context (Hkey : session_key key) (Hnonce : is_u32 nonce).
  Local Abbreviation stream := (keystream key nonce rounds).

Lemma length_block_bytes i :
  length (words_to_bytes (chacha_block key (as_u32 i) nonce rounds)) = 64%nat.
Proof using Hkey Hnonce.
  destruct Hkey. apply (ks_byte_length _ (KeystreamBlock0 := chacha_block_wf _ _ _ _
    ltac:(done) ltac:(done) (wrap_range 32 i ltac:(lia)) Hnonce)).
Qed.

Lemma length_keystream i m : length (stream i m) = (64 * m)%nat.
Proof using Hkey Hnonce.
  revert i. induction m as [|m IH]; intros i; [done|]. cbn [keystream].
  rewrite length_app, IH, length_block_bytes. lia.
Qed.

Lemma as_u32_succ i : wrapping_add 32 (as_u32 (Z.of_nat i)) 1 = as_u32 (Z.of_nat (S i)).
Proof using Type.
  unfold wrapping_add, wrap. rewrite Z.add_mod_idemp_l by lia. f_equal. lia.
Qed.

(** One iteration masks one block; the loop masks the rest. *)
Lemma mask_loop_spec m fuel data i :
  (length data ≤ 64 * (i + m))%nat → (m ≤ fuel)%nat →
  mask_loop fuel data key nonce rounds (64 * i) (as_u32 (Z.of_nat i))
  = Done (take (64 * i) data ++ xor_bytes (drop (64 * i) data) (stream i m)).
Proof using Hkey Hnonce.
  revert fuel data i. induction m as [|m IH]; intros fuel data i Hl Hf.
  { destruct fuel; cbn [mask_loop];
      (destruct (Nat.ltb_spec (64 * i) (length data)); [lia|]);
      by rewrite take_ge, drop_ge, app_nil_r by lia. }
  destruct fuel as [|fuel]; [lia|]. cbn [mask_loop keystream].
  set (ks := words_to_bytes _).
  assert (Hks : length ks = 64%nat) by apply length_block_bytes.
  destruct (Nat.ltb_spec (64 * i) (length data)) as [Hlt|Hge].
  2: { by rewrite take_ge, drop_ge, app_nil_r by lia. }
  rewrite xor_in_place_Done, bind_Done, as_u32_succ by lia.
  set (n := Nat.min (length data - 64 * i) 64).
  set (x := xor_bytes (window (64 * i) n data) (take n ks)).
  assert (Hx : length x = n).
  { subst x. rewrite length_xor_bytes, length_window, length_take by lia. lia. }
  replace (64 * i + 64)%nat with (64 * S i)%nat by lia.
  rewrite IH by (rewrite ?length_inserts; lia). f_equal.
  rewrite list_inserts_app by lia. rewrite Hx, xor_bytes_app, Hks.
  assert (Hd : length (drop (64 * i) data) = (length data - 64 * i)%nat) by len.
  assert (x = xor_bytes (take 64 (drop (64 * i) data))
                (take (length (drop (64 * i) data)) ks)) as <-.
  { subst x. unfold window, n. f_equal.
    - destruct (Nat.min_spec (length data - 64 * i) 64) as [[? ->]|[? ->]]; [|done].
      by rewrite !take_ge by lia.
    - rewrite Hd. destruct (Nat.min_spec (length data - 64 * i) 64) as [[? ->]|[? ->]];
        [done|]. by rewrite !take_ge by lia. }
  assert (Ht : length (take (64 * i) data) = (64 * i)%nat) by len.
  rewrite !drop_drop, app_assoc.
  set (hd := take (64 * i) data ++ x).
  assert (Hhd : length hd = (64 * i + n)%nat) by (subst hd; len).
  rewrite app_assoc. fold hd.
  destruct (decide (64 ≤ length data - 64 * i)%nat).
  - replace (64 * S i)%nat with (length hd) by lia.
    rewrite take_app_length, drop_app_length. do 3 f_equal. lia.
  - rewrite (drop_ge data (_ + n)), app_nil_r by lia.
    rewrite take_ge, !drop_ge by lia. done.
Qed.

(** [mask_data] XORs the data with the keystream of its nonce. *)
Lemma mask_data_spec data :
  mask_data data key nonce rounds
  = Done (xor_bytes data (stream 0 (blocks_for (length data)))).
Proof using Hkey Hnonce.
  unfold mask_data.
  assert (length data ≤ 64 * blocks_for (length data))%nat.
  { unfold blocks_for. pose proof (Nat.div_mod_eq (length data + 63) 64).
    pose proof (Nat.mod_upper_bound (length data + 63) 64). lia. }
  assert (blocks_for (length data) ≤ length data)%nat.
  { unfold blocks_for. destruct data; [done|].
    apply Nat.Div0.div_le_upper_bound. simpl. lia. }
  apply (mask_loop_spec _ _ data 0); lia.
Qed.

End masking.

(** Masking is its own inverse: for every 32-byte key, nonce, round count
    and payload (of any length), [mask_data] returns, keeps the length, and
    applied twice restores the payload. *)
Theorem mask_data_involutive data key nonce rounds :
  session_key key → is_u32 nonce →
  ∃ masked, mask_data data key nonce rounds = Done masked ∧
            length masked = length data ∧
            mask_data masked key nonce rounds = Done data.
Proof.
  intros Hk Hn. set (st := keystream key nonce rounds 0 (blocks_for (length data))).
  assert (Hst : (length data ≤ length st)%nat).
  { subst st. rewrite length_keystream by done. unfold blocks_for.
    pose proof (Nat.div_mod_eq (length data + 63) 64).
    pose proof (Nat.mod_upper_bound (length data + 63) 64). lia. }
  assert (Hl : length (xor_bytes data st) = length data) by (rewrite length_xor_bytes; lia).
  exists (xor_bytes data st). split_and!; [by apply mask_data_spec|done|].
  rewrite mask_data_spec, Hl by done. f_equal. by apply xor_bytes_involutive.
Qed.

Lemma mask_data_involutive_witness :
  ∃ masked, mask_data (replicate 100 7) (replicate 32 0x42) 0x12345678 4 = Done masked ∧
            length masked = length (replicate 100 7) ∧
            mask_data masked (replicate 32 0x42) 0x12345678 4 = Done (replicate 100 7).
Proof.
  apply mask_data_involutive; [|unfold in_width; lia].
  split; [|done]. apply Forall_replicate. unfold in_width; lia.
Defined.

(** The derived identifiers are nonzero 32-bit words. *)
Lemma chacha_next_ids_spec key nonce rounds :
  session_key key → is_u32 nonce →
  let '(nn, np) := chacha_next_ids key nonce rounds in
  (0 < nn < 2 ^ 32) ∧ (0 < np < 2 ^ 32).
Proof.
  intros [Hk Hl] Hn. unfold chacha_next_ids.
  assert (Hb : KeystreamBlock (chacha_block key 211 nonce rounds))
    by (apply chacha_block_wf; auto with gutd).
  pose proof (ks_word _ 0 ltac:(lia)) as H0. pose proof (ks_word _ 1 ltac:(lia)) as H1.
  unfold in_width in *. split; case_bool; lia.
Qed.

(** Every ballast length fits the 63 bytes returned with it. *)
Lemma chacha_ballast_spec key nonce rounds :
  session_key key → is_u32 nonce →
  let '(b, n) := chacha_ballast key nonce rounds in
  bytes b ∧ length b = 63%nat ∧ (n ≤ 63)%nat.
Proof.
  intros [Hk Hl] Hn. unfold chacha_ballast. cbv zeta.
  assert (Hb : KeystreamBlock (chacha_block key 199 nonce rounds))
    by (apply chacha_block_wf; auto with gutd).
  split_and!.
  - auto with gutd.
  - rewrite length_take, (ks_byte_length _). lia.
  - assert (in_width 6 (Z.land (words_to_bytes (chacha_block key 199 nonce rounds) !!! 63%nat) 0x3F)).
    { apply land_range_r; [lia|]. unfold in_width. lia. }
    unfold in_width in *. change (2 ^ 6) with 64 in *. lia.
Qed.

(** Known answer: the first ChaCha20 block of the all-zero key and nonce. *)
Example chacha20_zero_block :
  chacha_block (replicate 32 0) 0 0 20 =
  [0xade0b876; 0x903df1a0; 0xe56a5d40; 0x28bd8653; 0xb819d2bd; 0x1aed8da0;
   0xccef36a8; 0xc70d778b; 0x7c5941da; 0x8d485751; 0x3fe02477; 0x374ad8b8;
   0xf4b8436a; 0x1ca11815; 0x69b687c3; 0x8665eeb2].
Proof. vm_compute. reflexivity. Qed.
