(* ===== verification/Sha256.v ===== *)
(** * crypto.rs: SHA-256

    The streaming hasher ([Sha256::new], [update], [finalize]) and, as the
    specification it is proved against, the FIPS 180-4 hash of the padded
    message.  The compression function is the code's. *)

From S2P Require Import Prelude Words Slices.
Local Open Scope Z_scope.

Module Sha256.

(** [const K: [u32; 64]] *)
Definition K : list Z :=
  [0x428a2f98; 0x71374491; 0xb5c0fbcf; 0xe9b5dba5; 0x3956c25b; 0x59f111f1; 0x923f82a4; 0xab1c5ed5] ++
  [0xd807aa98; 0x12835b01; 0x243185be; 0x550c7dc3; 0x72be5d74; 0x80deb1fe; 0x9bdc06a7; 0xc19bf174] ++
  [0xe49b69c1; 0xefbe4786; 0x0fc19dc6; 0x240ca1cc; 0x2de92c6f; 0x4a7484aa; 0x5cb0a9dc; 0x76f988da] ++
  [0x983e5152; 0xa831c66d; 0xb00327c8; 0xbf597fc7; 0xc6e00bf3; 0xd5a79147; 0x06ca6351; 0x14292967] ++
  [0x27b70a85; 0x2e1b2138; 0x4d2c6dfc; 0x53380d13; 0x650a7354; 0x766a0abb; 0x81c2c92e; 0x92722c85] ++
  [0xa2bfe8a1; 0xa81a664b; 0xc24b8b70; 0xc76c51a3; 0xd192e819; 0xd6990624; 0xf40e3585; 0x106aa070] ++
  [0x19a4c116; 0x1e376c08; 0x2748774c; 0x34b0bcb5; 0x391c0cb3; 0x4ed8aa4a; 0x5b9cca4f; 0x682e6ff3] ++
  [0x748f82ee; 0x78a5636f; 0x84c87814; 0x8cc70208; 0x90befffa; 0xa4506ceb; 0xbef9a3f7; 0xc67178f2].

(** [const H0: [u32; 8]] *)
Definition H0 : list Z :=
  [0x6a09e667; 0xbb67ae85; 0x3c6ef372; 0xa54ff53a; 0x510e527f; 0x9b05688c; 0x1f83d9ab; 0x5be0cd19].

(** The message schedule: sixteen big-endian words of the block, then the
    recurrence for [i] in [16..64]. *)
Definition schedule_word (w : list Z) (i : nat) : Z :=
  let w15 := w !!! (i - 15)%nat in
  let w2 := w !!! (i - 2)%nat in
  let s0 := Z.lxor (Z.lxor (rotate_right 32 w15 7) (rotate_right 32 w15 18)) (shr w15 3) in
  let s1 := Z.lxor (Z.lxor (rotate_right 32 w2 17) (rotate_right 32 w2 19)) (shr w2 10) in
  wrapping_add 32
    (wrapping_add 32 (wrapping_add 32 (w !!! (i - 16)%nat) s0) (w !!! (i - 7)%nat)) s1.

Definition schedule (block : list Z) : list Z :=
  let w := list_inserts 0 ((λ i, from_be (window (i * 4) 4 block)) <$> seq 0 16)
             (replicate 64 0) in
  foldl (λ w i, <[i := schedule_word w i]> w) w (seq 16 48).

Definition vars : Type := Z * Z * Z * Z * Z * Z * Z * Z.

(** The body of the 64-round loop. *)
Definition sha_round (w : list Z) (st : vars) (i : nat) : vars :=
  let '(a, b, c, d, e, f, g, hh) := st in
  let s1 := Z.lxor (Z.lxor (rotate_right 32 e 6) (rotate_right 32 e 11)) (rotate_right 32 e 25) in
  let ch := Z.lxor (Z.land e f) (Z.land (bnot 32 e) g) in
  let temp1 := wrapping_add 32 (wrapping_add 32 (wrapping_add 32 (wrapping_add 32 hh s1) ch)
                 (K !!! i)) (w !!! i) in
  let s0 := Z.lxor (Z.lxor (rotate_right 32 a 2) (rotate_right 32 a 13)) (rotate_right 32 a 22) in
  let maj := Z.lxor (Z.lxor (Z.land a b) (Z.land a c)) (Z.land b c) in
  let temp2 := wrapping_add 32 s0 maj in
  (wrapping_add 32 temp1 temp2, a, b, c, wrapping_add 32 d temp1, e, f, g).

Definition compress (h block : list Z) : list Z :=
  let w := schedule block in
  let '(a, b, c, d, e, f, g, hh) :=
    foldl (sha_round w)
      (h !!! 0%nat, h !!! 1%nat, h !!! 2%nat, h !!! 3%nat,
       h !!! 4%nat, h !!! 5%nat, h !!! 6%nat, h !!! 7%nat) (seq 0 64) in
  zip_with (wrapping_add 32) h [a; b; c; d; e; f; g; hh].

(** [struct Sha256] *)
Record state := State {
  h : list Z;
  buf : list Z;
  buf_len : nat;
  total_len : Z;
}.

Definition new : state := State H0 (replicate 64 0) 0 0.

(** The partial block of an earlier call is filled up first. *)
Definition update_fill (self : state) (data : list Z) : outcome (state * nat) :=
  if (0 <? buf_len self)%nat then
    let fill := (64 - buf_len self)%nat in
    let take_ := Nat.min (length data) fill in
    src ← slice data 0 take_;
    buf ← copy_from_slice (buf self) (buf_len self) (buf_len self + take_) src;
    let buf_len := (buf_len self + take_)%nat in
    if (buf_len =? 64)%nat
    then Done (State (compress (h self) buf) buf 0 (total_len self), take_)
    else Done (State (h self) buf buf_len (total_len self), take_)
  else Done (self, 0%nat).

(** [while offset + 64 <= data.len() { compress(...); offset += 64 }] *)
Fixpoint update_blocks (fuel : nat) (h data : list Z) (offset : nat)
    : outcome (list Z * nat) :=
  if (offset + 64 <=? length data)%nat then
    match fuel with
    | O => Panic
    | S fuel =>
        block ← slice data offset (offset + 64);
        update_blocks fuel (compress h block) data (offset + 64)
    end
  else Done (h, offset).

Definition update (self : state) (data : list Z) : outcome state :=
  let self := State (h self) (buf self) (buf_len self)
                (wrapping_add 64 (total_len self) (Z.of_nat (length data))) in
  '(self, offset) ← update_fill self data;
  '(h, offset) ← update_blocks (length data) (h self) data offset;
  let remaining := (length data - offset)%nat in
  if (0 <? remaining)%nat then
    src ← slice_from data offset;
    buf ← copy_from_slice (buf self) 0 remaining src;
    Done (State h buf remaining (total_len self))
  else Done (State h (buf self) (buf_len self) (total_len self)).

(** [for i in lo..hi { buf[i] = 0 }] *)
Definition zero_fill (b : list Z) (lo hi : nat) : outcome (list Z) :=
  for_range lo (hi - lo) (λ i b, put b i 0) b.

(** [out[i * 4..i * 4 + 4].copy_from_slice(&word.to_be_bytes())] for each word *)
Definition digest (h : list Z) : list Z := h ≫= u32_to_be_bytes.

Definition finalize (self : state) : outcome (list Z) :=
  let bit_len := u64_to_be_bytes (wrapping_mul 64 (total_len self) 8) in
  b ← put (buf self) (buf_len self) 0x80;
  let n := (buf_len self + 1)%nat in
  '(h, b, n) ← (if (56 <? n)%nat then
                  b ← zero_fill b n 64;
                  Done (compress (h self) b, b, 0%nat)
                else Done (h self, b, n));
  b ← zero_fill b n 56;
  b ← copy_from_slice b 56 64 bit_len;
  Done (digest (compress h b)).

Definition sha256 (data : list Z) : outcome (list Z) :=
  self ← update new data; finalize self.

(** ** Specification: the Merkle-Damgard iteration over the padded message *)

Fixpoint compress_blocks (n : nat) (h data : list Z) : list Z :=
  match n with
  | O => h
  | S n => compress_blocks n (compress h (take 64 data)) (drop 64 data)
  end.

(** FIPS 180-4, 5.1.1: a one bit, the fewest zero bits, the 64-bit length. *)
Definition pad_zeros (n : nat) : nat := ((119 - n mod 64) mod 64)%nat.
Definition pad (m : list Z) : list Z :=
  m ++ [0x80] ++ replicate (pad_zeros (length m)) 0
    ++ u64_to_be_bytes (8 * Z.of_nat (length m)).

Definition sha256_spec (m : list Z) : list Z :=
  digest (compress_blocks (length (pad m) / 64) H0 (pad m)).

(** The hasher holds the message [m]: its whole blocks are compressed and
    the rest is pending in the buffer. *)
Definition holds (self : state) (m : list Z) : Prop :=
  ∃ q m0 p, m = m0 ++ p ∧ length m0 = (64 * q)%nat ∧ (length p < 64)%nat ∧
    h self = compress_blocks q H0 m0 ∧ buf_len self = length p ∧
    (∃ tl, buf self = p ++ tl) ∧ length (buf self) = 64%nat.

(** The hasher has absorbed exactly the message [m]. *)
Definition absorbed (self : state) (m : list Z) : Prop :=
  holds self m ∧ total_len self = as_u64 (Z.of_nat (length m)).

(** ** The block iteration *)

Lemma compress_blocks_add n k h d :
  compress_blocks (n + k) h d
  = compress_blocks k (compress_blocks n h d) (drop (64 * n) d).
Proof.
  revert h d. induction n as [|n IH]; intros h d; [done|].
  cbn [Nat.add compress_blocks]. rewrite IH, drop_drop. do 2 f_equal. lia.
Qed.

Lemma compress_blocks_app_l n h d x : (64 * n ≤ length d)%nat →
  compress_blocks n h (d ++ x) = compress_blocks n h d.
Proof.
  revert h d. induction n as [|n IH]; intros h d Hn; [done|]. cbn [compress_blocks].
  rewrite take_app_le, drop_app_le by lia. apply IH. len.
Qed.

Lemma compress_blocks_app q k h m0 b : length m0 = (64 * q)%nat →
  compress_blocks (q + k) h (m0 ++ b) = compress_blocks k (compress_blocks q h m0) b.
Proof.
  intros Hl. rewrite compress_blocks_add, compress_blocks_app_l by lia.
  by rewrite <- Hl, drop_app_length.
Qed.

Lemma update_blocks_Done q fuel h data offset :
  (offset + 64 * q ≤ length data < offset + 64 * q + 64)%nat → (q ≤ fuel)%nat →
  update_blocks fuel h data offset
  = Done (compress_blocks q h (drop offset data), (offset + 64 * q)%nat).
Proof.
  revert fuel h offset. induction q as [|q IH]; intros fuel h offset Hq Hf.
  { destruct fuel; cbn [update_blocks];
      (destruct (Nat.leb_spec (offset + 64) (length data)); [lia|]);
      by rewrite Nat.mul_0_r, Nat.add_0_r. }
  destruct fuel as [|fuel]; [lia|]. cbn [update_blocks].
  destruct (Nat.leb_spec (offset + 64) (length data)); [|lia].
  rewrite slice_window by lia. rewrite bind_Done, IH by lia.
  cbn [compress_blocks]. rewrite drop_drop. do 2 f_equal. lia.
Qed.

(** ** [update] appends to the message *)

Lemma update_fill_spec self m data :
  holds self m →
  ∃ self' offset, update_fill self data = Done (self', offset) ∧
    holds self' (m ++ take offset data) ∧ (offset ≤ length data)%nat ∧
    (offset = length data ∨ buf_len self' = 0%nat) ∧ total_len self' = total_len self.
Proof.
  intros (q & m0 & p & -> & Hm0 & Hp & Hh & Hn & [tl Htl] & Hb).
  unfold update_fill. rewrite Hn.
  destruct (Nat.ltb_spec 0 (length p)) as [Hpos|Hz].
  2: { exists self, 0%nat. rewrite take_0, app_nil_r. split_and!; [done| |lia| |done].
       - exists q, m0, p. split_and!; eauto.
       - right. lia. }
  set (t := Nat.min (length data) (64 - length p)).
  assert (Ht : length (take t data) = t) by len.
  rewrite slice_Done, bind_Done by lia. rewrite Nat.sub_0_r, window_0.
  rewrite copy_from_slice_Done, bind_Done by lia.
  rewrite list_inserts_app by lia. rewrite Ht.
  replace (take (length p) (buf self)) with p by (by rewrite Htl, take_app_length).
  rewrite app_assoc.
  set (p' := p ++ take t data). assert (Hp' : length p' = (length p + t)%nat)
    by (subst p'; len).
  set (b := p' ++ _). assert (Hb' : length b = 64%nat).
  { subst b. rewrite length_app, length_drop. lia. }
  destruct (Nat.eqb_spec (length p + t) 64) as [H64|Hne].
  - eexists _, t. split_and!; [done| |lia|by right|done].
    exists (q + 1)%nat, (m0 ++ p'), []. simpl.
    assert (Hpb : p' = b).
    { subst b. rewrite drop_ge by lia. by rewrite app_nil_r. }
    split_and!; [subst p'; by rewrite app_nil_r, <- !app_assoc|len|lia| |done|by exists b|done].
    rewrite compress_blocks_app by done. cbn [compress_blocks].
    rewrite Hh, take_ge by lia. by rewrite Hpb.
  - eexists _, t. split_and!; [done| |lia|left; lia|done].
    exists q, m0, p'. simpl. split_and!; [subst p'; by rewrite <- app_assoc|done|lia|done
      |by symmetry| |done]. by eexists.
Qed.

(** Whatever is absorbed stays absorbed; [data] is appended. *)
(** The two ends of [update]: the rest of the input goes into the empty
    buffer, or there is none. *)
Lemma holds_rest self1 m o k data src : holds self1 (m ++ take o data) → buf_len self1 = 0%nat →
  (o + 64 * k ≤ length data < o + 64 * k + 64)%nat →
  src = window (o + 64 * k) (length data - (o + 64 * k)) data → ∀ n total,
  n = (length data - (o + 64 * k))%nat →
  holds (State (compress_blocks k (h self1) (drop o data)) (list_inserts 0 src (buf self1)) n total) (m ++ data).
Proof.
  intros (q & m0 & p & Heq & Hm0 & Hp & Hh & Hn & Hbuf & Hb) H0 Hk Hs n total ->.
  assert (Hsrc : length src = (length data - (o + 64 * k))%nat) by (rewrite Hs; apply length_window; lia).
  rewrite H0 in Hn. symmetry in Hn. apply nil_length_inv in Hn. subst p. rewrite app_nil_r in Heq.
  assert (Hw : length (window o (64 * k) data) = (64 * k)%nat) by (apply length_window; lia).
  exists (q + k)%nat, (m0 ++ window o (64 * k) data), src. cbn [h buf buf_len]. split_and!.
  - rewrite <- Heq, <- !app_assoc. f_equal. rewrite Hs. unfold window.
    rewrite <- (take_drop o data) at 1. f_equal.
    rewrite <- (take_drop (64 * k) (drop o data)) at 1. f_equal.
    rewrite drop_drop. rewrite take_ge; [done|len].
  - len.
  - lia.
  - rewrite compress_blocks_app by done. rewrite Hh. symmetry.
    unfold window. rewrite <- (take_drop (64 * k) (drop o data)) at 2.
    by rewrite compress_blocks_app_l by len.
  - done.
  - rewrite list_inserts_app by lia. simpl. by eexists.
  - by rewrite length_inserts.
Qed.

Lemma holds_whole self1 m o k data : holds self1 (m ++ take o data) →
  o = length data ∨ buf_len self1 = 0%nat → (o + 64 * k = length data)%nat → ∀ total,
  holds (State (compress_blocks k (h self1) (drop o data)) (buf self1) (buf_len self1) total) (m ++ data).
Proof.
  intros (q & m0 & p & Heq & Hm0 & Hp & Hh & Hn & Hbuf & Hb) Hcase Hk total.
  exists (q + k)%nat, (m0 ++ window o (64 * k) data), p. cbn [h buf buf_len].
  assert (Hw : length (window o (64 * k) data) = (64 * k)%nat) by (apply length_window; lia).
  assert (Hd : window o (64 * k) data = drop o data)
    by (unfold window; apply take_ge; rewrite length_drop; lia).
  assert (Hmd : m ++ data = m0 ++ p ++ drop o data).
  { rewrite app_assoc, <- Heq, <- app_assoc. by rewrite take_drop. }
  split_and!; try done; [| |].
  - rewrite Hmd, Hd. destruct Hcase as [->|H0].
    + by rewrite drop_all, !app_nil_r.
    + rewrite H0 in Hn. symmetry in Hn. apply nil_length_inv in Hn. subst p. by rewrite app_nil_r.
  - len.
  - rewrite compress_blocks_app by done. by rewrite Hh, Hd.
Qed.

Lemma update_absorbs self m data :
  absorbed self m → ∃ self', update self data = Done self' ∧ absorbed self' (m ++ data).
Proof.
  intros [Hm Htot]. unfold update. cbv zeta.
  set (self0 := State _ _ _ _).
  assert (Hself0 : holds self0 m) by done.
  destruct (update_fill_spec self0 m data Hself0)
    as (self1 & o & -> & Hh1 & Ho & Hcase & Htot1).
  rewrite bind_Done.
  assert (Htot' : total_len self1 = as_u64 (Z.of_nat (length (m ++ data)))).
  { rewrite Htot1. subst self0. simpl. rewrite Htot, length_app. unfold wrapping_add, wrap.
    rewrite Z.add_mod_idemp_l by lia. f_equal. lia. }
  set (k := ((length data - o) / 64)%nat).
  assert (Hk : (o + 64 * k ≤ length data < o + 64 * k + 64)%nat).
  { subst k. pose proof (Nat.div_mod_eq (length data - o) 64).
    pose proof (Nat.mod_upper_bound (length data - o) 64). lia. }
  rewrite (update_blocks_Done k), bind_Done by lia.
  destruct (Nat.ltb_spec 0 (length data - (o + 64 * k))) as [Hr|Hr].
  - destruct Hcase as [->|Hz]; [lia|]. unfold slice_from. rewrite slice_Done, bind_Done by lia.
    set (src := window _ _ data).
    assert (Hsrc : length src = (length data - (o + 64 * k))%nat) by (subst src; apply length_window; lia).
    assert (length (buf self1) = 64%nat) by by destruct Hh1 as (? & ? & ? & ? & ? & ? & ? & ? & ? & ?).
    rewrite copy_from_slice_Done, bind_Done by lia.
    eexists. split; [done|]. split; [|done]. by apply (holds_rest self1 m o k data src).
  - eexists. split; [done|]. split; [|done]. apply (holds_whole self1 m o k data); [done|tauto|lia].
Qed.

Lemma new_absorbed : absorbed new [].
Proof. split; [|done]. exists 0%nat, [], []. 
  split_and!; [done|done|simpl; lia|done|done|by exists (replicate 64 0)|done].
Qed.

(** ** [finalize] hashes the padded message *)

Lemma zero_fill_Done b lo hi : (lo ≤ hi)%nat → (hi ≤ length b)%nat →
  zero_fill b lo hi = Done (take lo b ++ replicate (hi - lo) 0 ++ drop hi b).
Proof.
  intros Hl Hh. unfold zero_fill.
  pose proof (for_range_put 0 (λ _, 0) lo (hi - lo) b ltac:(lia)) as H.
  cbn [Nat.add] in H. rewrite H. f_equal.
  rewrite (const_fmap _ (seq lo (hi - lo)) 0), length_seq by done. rewrite list_inserts_app by len.
  rewrite length_replicate. do 3 f_equal. lia.
Qed.

(** The two shapes of the padding after the pending bytes. *)
Lemma pad_split m0 q p : length m0 = (64 * q)%nat → (length p < 64)%nat →
  pad (m0 ++ p) = m0 ++ p ++ [0x80]
    ++ replicate (if (length p <? 56)%nat then 55 - length p else 119 - length p) 0
    ++ u64_to_be_bytes (8 * Z.of_nat (length (m0 ++ p))).
Proof.
  intros Hm Hp. unfold pad. rewrite <- app_assoc. do 5 f_equal.
  unfold pad_zeros. rewrite length_app, Hm.
  replace ((64 * q + length p) mod 64)%nat with (length p).
  2: { rewrite Nat.add_comm, Nat.mul_comm, Nat.Div0.mod_add. symmetry. by apply Nat.mod_small. }
  destruct (Nat.ltb_spec (length p) 56).
  - symmetry. apply (Nat.mod_unique _ _ 1); lia.
  - apply Nat.mod_small. lia.
Qed.

Lemma bit_len_bytes n : u64_to_be_bytes (wrapping_mul 64 (as_u64 n) 8) = u64_to_be_bytes (8 * n).
Proof.
  apply be_bytes_ext. unfold wrapping_mul, wrap. change (8 * Z.of_nat 8) with 64.
  rewrite Z.mod_mod, Z.mul_mod_idemp_l by lia. f_equal. lia.
Qed.

Lemma compress_blocks_rest q k h m0 r :
  length m0 = (64 * q)%nat → length r = (64 * k)%nat →
  compress_blocks (length (m0 ++ r) / 64) h (m0 ++ r)
  = compress_blocks k (compress_blocks q h m0) r.
Proof.
  intros Hm Hr. rewrite <- compress_blocks_app by done. f_equal.
  rewrite length_app, Hm, Hr, <- Nat.mul_add_distr_l, Nat.mul_comm. by apply Nat.div_mul.
Qed.

(** The end marker goes right after the pending bytes. *)
Lemma put_marker p tl b : b = p ++ tl → length b = 64%nat → (length p < 64)%nat →
  ∃ tl', put b (length p) 0x80 = Done ((p ++ [0x80]) ++ tl') ∧
         length tl' = (63 - length p)%nat.
Proof.
  intros -> Hb Hp. rewrite length_app in Hb. destruct tl as [|x tl]; cbn [length] in *; [lia|].
  exists tl. rewrite put_Done by len. rewrite insert_app_r_alt, Nat.sub_diag by done.
  split; [|lia]. rewrite <- app_assoc. reflexivity.
Qed.

Lemma finalize_Done self m : absorbed self m → finalize self = Done (sha256_spec m).
Proof.
  intros [(q & m0 & p & -> & Hm0 & Hp & Hh & Hn & [tl Htl] & Hb) Htot].
  unfold finalize, sha256_spec. rewrite Hn, Htot, bit_len_bytes.
  rewrite (pad_split m0 q p) by done.
  set (bl := u64_to_be_bytes _). assert (Hbl : length bl = 8%nat) by apply length_be_bytes.
  destruct (put_marker p tl (buf self)) as (tl' & -> & Htl'); [done..|]. rewrite bind_Done.
  rewrite !(app_assoc p [0x80]).
  assert (Hp8 : length (p ++ [0x80]) = (length p + 1)%nat) by by rewrite length_app.
  set (p8 := p ++ [0x80]) in *.
  destruct (Nat.ltb_spec 56 (length p + 1)) as [Hbig|Hsmall].
  - destruct (Nat.ltb_spec (length p) 56); [lia|].
    rewrite zero_fill_Done, !bind_Done by len.
    rewrite <- Hp8 at 1. rewrite take_app_length, (drop_ge _ 64), app_nil_r by len.
    set (b1 := p8 ++ replicate _ _). assert (Hb1 : length b1 = 64%nat) by (subst b1; len).
    rewrite zero_fill_Done, bind_Done by lia. cbn [take app]. rewrite Nat.sub_0_r.
    rewrite copy_from_slice_Done, bind_Done, list_inserts_app by len.
    rewrite take_app_le, take_ge, (drop_ge _ (56 + _)), app_nil_r by len.
    set (b2 := replicate 56 0 ++ bl). assert (Hb2 : length b2 = 64%nat) by (subst b2; len).
    assert (Hr : p8 ++ replicate (119 - length p) 0 ++ bl = b1 ++ b2).
    { subst b1 b2. rewrite <- !app_assoc, (app_assoc (replicate _ _)), <- replicate_add.
      do 3 f_equal. lia. }
    rewrite Hr, (compress_blocks_rest q 2) by len. cbn [compress_blocks].
    rewrite (take_app_length' b1), (drop_app_length' b1) by done.
    rewrite (take_ge b2) by lia. by rewrite Hh.
  - destruct (Nat.ltb_spec (length p) 56); [|lia]. rewrite bind_Done.
    rewrite zero_fill_Done, bind_Done by len. rewrite <- Hp8 at 1.
    rewrite take_app_length.
    rewrite copy_from_slice_Done, bind_Done, list_inserts_app by len.
    rewrite (app_assoc p8), take_app_le, take_ge, (drop_ge _ (56 + _)), app_nil_r by len.
    replace (56 - (length p + 1))%nat with (55 - length p)%nat by lia.
    rewrite <- (app_assoc p8).
    set (b := p8 ++ _). assert (Hb1 : length b = 64%nat) by (subst b; len).
    rewrite (compress_blocks_rest q 1) by len. cbn [compress_blocks].
    rewrite (take_ge b) by lia. by rewrite Hh.
Qed.

(** The one-shot hash. *)
Lemma sha256_Done m : sha256 m = Done (sha256_spec m).
Proof.
  unfold sha256. destruct (update_absorbs new [] m new_absorbed) as (s & -> & Hs).
  rewrite bind_Done. by apply finalize_Done.
Qed.

(** Hashing a message given in two [update] calls. *)
Lemma sha256_two m1 m2 :
  (s ← update new m1; s ← update s m2; finalize s) = Done (sha256_spec (m1 ++ m2)).
Proof.
  destruct (update_absorbs new [] m1 new_absorbed) as (s1 & -> & Hs1). rewrite bind_Done.
  destruct (update_absorbs s1 m1 m2 Hs1) as (s2 & -> & Hs2). rewrite bind_Done.
  by apply finalize_Done.
Qed.


Lemma length_compress hh b : length hh = 8%nat → length (compress hh b) = 8%nat.
Proof.
  intros Hl. unfold compress. repeat case_match. rewrite length_zip_with, Hl. done.
Qed.

Lemma compress_blocks_length n hh d : length hh = 8%nat →
  length (compress_blocks n hh d) = 8%nat.
Proof.
  revert hh d. induction n; intros; [done|]. cbn [compress_blocks]. auto using length_compress.
Qed.

Lemma length_digest hh : length (digest hh) = (4 * length hh)%nat.
Proof.
  unfold digest. induction hh as [|x l IH]; [done|].
  rewrite bind_cons, length_app, IH, length_be_bytes. simpl. lia.
Qed.

Lemma sha256_spec_length m : length (sha256_spec m) = 32%nat.
Proof. unfold sha256_spec. by rewrite length_digest, compress_blocks_length. Qed.

Lemma sha256_spec_bytes m : bytes (sha256_spec m).
Proof.
  unfold sha256_spec, digest. generalize (compress_blocks (length (pad m) / 64) H0 (pad m)).
  intros l. induction l as [|x l IH]; [by constructor|].
  rewrite bind_cons. apply Forall_app_2; auto with gutd.
Qed.

Example sha256_abc :
  sha256 [0x61; 0x62; 0x63] = Done [
    0xba; 0x78; 0x16; 0xbf; 0x8f; 0x01; 0xcf; 0xea; 0x41; 0x41; 0x40; 0xde; 0x5d; 0xae; 0x22; 0x23;
    0xb0; 0x03; 0x61; 0xa3; 0x96; 0x17; 0x7a; 0x9c; 0xb4; 0x10; 0xff; 0x61; 0xf2; 0x00; 0x15; 0xad].
Proof. vm_compute. reflexivity. Qed.

Example sha256_spec_abc : sha256 [0x61; 0x62; 0x63] = Done (sha256_spec [0x61; 0x62; 0x63]).
Proof. vm_compute. reflexivity. Qed.

End Sha256.

#[export] Hint Rewrite Sha256.sha256_spec_length : gutd_len.
#[export] Hint Resolve Sha256.sha256_spec_bytes : gutd.
