(* ===== verification/Hkdf.v ===== *)
(** * crypto.rs: HMAC-SHA256 and HKDF-SHA256; proto/quic.rs: QUIC Initial keys

    Each routine is proved equal to its RFC definition (RFC 2104, RFC 5869,
    RFC 8446 section 7.1) over the SHA-256 specification. *)

From S2P Require Import Prelude Words Slices Text Sha256.
Import Sha256.
Local Open Scope Z_scope.

(** ** HMAC *)

Definition hmac_sha256 (key message : list Z) : outcome (list Z) :=
  k ← (if (64 <? length key)%nat
       then h ← sha256 key; copy_from_slice (replicate 64 0) 0 32 h
       else copy_from_slice (replicate 64 0) 0 (length key) key);
  ipad ← xor_in_place 0 (replicate 64 0x36) k 64;
  opad ← xor_in_place 0 (replicate 64 0x5c) k 64;
  inner ← update new ipad;
  inner ← update inner message;
  inner_hash ← finalize inner;
  outer ← update new opad;
  outer ← update outer inner_hash;
  finalize outer.

(** RFC 2104: [H((K0 ^ opad) || H((K0 ^ ipad) || text))]. *)
Definition hmac_key (key : list Z) : list Z :=
  let k := if (64 <? length key)%nat then sha256_spec key else key in
  k ++ replicate (64 - length k) 0.

Definition hmac_spec (key message : list Z) : list Z :=
  sha256_spec (xor_bytes (replicate 64 0x5c) (hmac_key key)
    ++ sha256_spec (xor_bytes (replicate 64 0x36) (hmac_key key) ++ message)).

Lemma length_hmac_key key : length (hmac_key key) = 64%nat.
Proof. unfold hmac_key. case_bool; len. Qed.

Lemma hmac_key_Done key :
  (if (64 <? length key)%nat
   then h ← sha256 key; copy_from_slice (replicate 64 0) 0 32 h
   else copy_from_slice (replicate 64 0) 0 (length key) key) = Done (hmac_key key).
Proof.
  unfold hmac_key. destruct (Nat.ltb_spec 64 (length key)).
  - rewrite sha256_Done, bind_Done, copy_from_slice_Done by len. f_equal.
    rewrite list_inserts_app by len. by rewrite drop_replicate.
  - rewrite copy_from_slice_Done by len. f_equal.
    rewrite list_inserts_app by len. by rewrite drop_replicate.
Qed.

Lemma hmac_sha256_Done key message :
  hmac_sha256 key message = Done (hmac_spec key message).
Proof.
  unfold hmac_sha256. rewrite hmac_key_Done, bind_Done.
  pose proof (length_hmac_key key) as Hk.
  rewrite !(xor_in_place_all (replicate 64 _)) by len.
  rewrite !bind_Done, !length_replicate, !take_ge by lia.
  set (ip := xor_bytes (replicate 64 0x36) _). set (op := xor_bytes (replicate 64 0x5c) _).
  pose proof (sha256_two ip message) as H1.
  pose proof (sha256_two op (sha256_spec (ip ++ message))) as H2.
  destruct (update new ip) as [s1|]; [|done]. rewrite bind_Done in *.
  destruct (update s1 message) as [s2|]; [|done]. rewrite bind_Done in *.
  rewrite H1, bind_Done. exact H2.
Qed.

Lemma length_hmac_spec key message : length (hmac_spec key message) = 32%nat.
Proof. apply sha256_spec_length. Qed.

#[export] Hint Rewrite length_hmac_key length_hmac_spec : gutd_len.

(** ** HKDF *)

Definition hkdf_extract (salt ikm : list Z) : outcome (list Z) := hmac_sha256 salt ikm.

(** [usize::div_ceil] *)
Definition div_ceil (n d : nat) : nat :=
  (if n mod d =? 0 then n / d else n / d + 1)%nat.

(** The loop state of [hkdf_expand]. *)
Record expand_state := ExpandState {
  ex_t : list Z;
  ex_t_len : nat;
  ex_offset : nat;
  ex_msg : list Z;
  ex_okm : list Z;
}.

Definition hkdf_expand_step (prk info : list Z) (i : nat) (s : expand_state)
    : outcome expand_state :=
  let msg_len := (ex_t_len s + length info + 1)%nat in
  _ ← assert_ (msg_len <=? length (ex_msg s))%nat;
  tt ← slice (ex_t s) 0 (ex_t_len s);
  m ← copy_from_slice (ex_msg s) 0 (ex_t_len s) tt;
  m ← copy_from_slice m (ex_t_len s) (ex_t_len s + length info) info;
  m ← put m (ex_t_len s + length info) (as_u8 (Z.of_nat i));
  mm ← slice m 0 msg_len;
  t ← hmac_sha256 prk mm;
  let copy_len := Nat.min (length (ex_okm s) - ex_offset s) 32 in
  src ← slice t 0 copy_len;
  okm ← copy_from_slice (ex_okm s) (ex_offset s) (ex_offset s + copy_len) src;
  Done (ExpandState t 32 (ex_offset s + copy_len) m okm).

(** [for i in 1..=n] *)
Definition hkdf_expand (prk info okm_in : list Z) : outcome (list Z) :=
  let n := div_ceil (length okm_in) 32 in
  s ← for_range 1 n (hkdf_expand_step prk info)
        (ExpandState (replicate 32 0) 0 0 (replicate 256 0) okm_in);
  Done (ex_okm s).

(** RFC 5869: [T(0) = ""], [T(i) = HMAC(PRK, T(i-1) || info || i)], and the
    output is the first [L] octets of [T(1) || T(2) || ...]. *)
Fixpoint hkdf_T (prk info : list Z) (i : nat) : list Z :=
  match i with
  | O => []
  | S j => hmac_spec prk (hkdf_T prk info j ++ info ++ [as_u8 (Z.of_nat i)])
  end.

Definition hkdf_spec (prk info : list Z) (L : nat) : list Z :=
  take L (concat (hkdf_T prk info <$> seq 1 (div_ceil L 32))).

Definition hkdf_expand_label (secret label context okm_in : list Z) : outcome (list Z) :=
  let info := replicate 256 0 in
  let len := as_u16 (Z.of_nat (length okm_in)) in
  info ← copy_from_slice info 0 2 (u16_to_be_bytes len);
  info ← put info 2 (as_u8 (Z.of_nat (6 + length label)));
  info ← copy_from_slice info 3 9 (bs "tls13 ");
  info ← copy_from_slice info 9 (9 + length label) label;
  info ← put info (9 + length label) (as_u8 (Z.of_nat (length context)));
  let pos := (9 + length label + 1)%nat in
  info ← copy_from_slice info pos (pos + length context) context;
  s ← slice info 0 (pos + length context);
  hkdf_expand secret s okm_in.

(** RFC 8446, 7.1: the [HkdfLabel] structure. *)
Definition HkdfLabel (L : nat) (label context : list Z) : list Z :=
  u16_to_be_bytes (Z.of_nat L) ++ [Z.of_nat (6 + length label)] ++ bs "tls13 " ++ label
    ++ [Z.of_nat (length context)] ++ context.

Definition hkdf_sha256 (salt ikm info okm_in : list Z) : outcome (list Z) :=
  prk ← hkdf_extract salt ikm; hkdf_expand prk info okm_in.

Definition HKDF_SALT : list Z := bs "gutd-v1".
Definition HKDF_INFO : list Z := bs "gutd-chacha-key".

(** [derive_key(passphrase)] *)
Definition derive_key (passphrase : list Z) : outcome (list Z) :=
  hkdf_sha256 HKDF_SALT passphrase HKDF_INFO (replicate 32 0).

(** ** Proof of [hkdf_expand] *)

Lemma div_ceil_bounds n d : (0 < d)%nat →
  (n ≤ d * div_ceil n d)%nat ∧ (d * div_ceil n d < n + d)%nat.
Proof.
  intros Hd. unfold div_ceil. pose proof (Nat.div_mod_eq n d).
  pose proof (Nat.mod_upper_bound n d).
  destruct (Nat.eqb_spec (n mod d) 0); split; nia.
Qed.

Lemma length_hkdf_T prk info i : length (hkdf_T prk info (S i)) = 32%nat.
Proof. cbn [hkdf_T]. apply length_hmac_spec. Qed.

(** The output written after [i] blocks. *)
Definition T_upto (prk info : list Z) (i : nat) : list Z :=
  concat (hkdf_T prk info <$> seq 1 i).

Lemma T_upto_S prk info i : T_upto prk info (S i) = T_upto prk info i ++ hkdf_T prk info (S i).
Proof.
  unfold T_upto. rewrite seq_S, fmap_app, concat_app. simpl. by rewrite app_nil_r.
Qed.

Lemma length_T_upto prk info i : length (T_upto prk info i) = (32 * i)%nat.
Proof.
  induction i as [|i IH]; [done|]. rewrite T_upto_S, length_app, IH, length_hkdf_T. lia.
Qed.

(** Loop invariant before iteration [i + 1]. *)
Definition expand_inv (prk info okm_in : list Z) (i : nat) (s : expand_state) : Prop :=
  length (ex_t s) = 32%nat ∧ ex_t_len s = length (hkdf_T prk info i) ∧
  take (ex_t_len s) (ex_t s) = hkdf_T prk info i ∧
  ex_offset s = Nat.min (length okm_in) (32 * i) ∧ length (ex_msg s) = 256%nat ∧
  ex_okm s = take (ex_offset s) (T_upto prk info i) ++ drop (ex_offset s) okm_in.

(** One iteration, while output remains to be written. *)
Lemma expand_step_inv prk info okm_in i s :
  (length info ≤ 223)%nat → (32 * i < length okm_in)%nat →
  expand_inv prk info okm_in i s →
  ∃ s', hkdf_expand_step prk info (S i) s = Done s' ∧ expand_inv prk info okm_in (S i) s'.
Proof.
  intros Hinfo Hi (Ht & Htl & Htt & Hoff & Hmsg & Hokm). unfold hkdf_expand_step.
  set (T := hkdf_T prk info i) in *.
  assert (HT : (length T ≤ 32)%nat) by (subst T; destruct i; [simpl; lia|rewrite length_hkdf_T; lia]).
  assert (Hokl : length (ex_okm s) = length okm_in).
  { rewrite Hokm, length_app, length_take, length_drop, length_T_upto. lia. }
  unfold assert_. destruct (Nat.leb_spec (ex_t_len s + length info + 1) (length (ex_msg s))); [|lia].
  rewrite bind_Done, slice_Done, bind_Done by lia. rewrite Nat.sub_0_r, window_0, Htt.
  rewrite copy_from_slice_Done, bind_Done by lia.
  rewrite copy_from_slice_Done, bind_Done by len.
  rewrite put_Done, bind_Done by len. rewrite Htl.
  pose proof (list_inserts_app_r 0 T info (ex_msg s)) as Happ. cbn [Nat.add] in Happ.
  rewrite <- Happ.
  pose proof (list_inserts_snoc 0 (T ++ info) (ex_msg s) (as_u8 (Z.of_nat (S i)))) as Hsn.
  rewrite length_app in Hsn. cbn [Nat.add] in Hsn. rewrite <- Hsn. clear Happ Hsn.
  set (m := (T ++ info) ++ [as_u8 (Z.of_nat (S i))]).
  assert (Hm : length m = (length T + length info + 1)%nat) by (subst m; len).
  rewrite slice_Done, bind_Done by len. rewrite Nat.sub_0_r, <- Hm, window_inserts by lia.
  rewrite hmac_sha256_Done, bind_Done.
  assert (Hnext : hmac_spec prk m = hkdf_T prk info (S i)).
  { cbn [hkdf_T]. subst m. by rewrite <- app_assoc. }
  rewrite Hnext. set (T' := hkdf_T prk info (S i)).
  assert (HT' : length T' = 32%nat) by apply length_hkdf_T.
  set (c := Nat.min (length (ex_okm s) - ex_offset s) 32).
  rewrite slice_Done, bind_Done by lia. rewrite Nat.sub_0_r, window_0.
  rewrite copy_from_slice_Done, bind_Done by len.
  eexists. split; [done|]. unfold expand_inv.
  cbn [ex_t ex_t_len ex_offset ex_msg ex_okm].
  split_and!; [done|done|by rewrite take_ge by lia|lia|by rewrite length_inserts|].
  assert (Hc : length (take c T') = c) by len.
  rewrite list_inserts_app by lia. rewrite Hc, Hokm.
  rewrite (take_ge (T_upto prk info i)) by (rewrite length_T_upto; lia).
  assert (Hlu : length (T_upto prk info i) = ex_offset s) by (rewrite length_T_upto; lia).
  rewrite (take_app_length' (T_upto prk info i)) by done.
  rewrite drop_app_ge, drop_drop by lia. rewrite T_upto_S, Hlu. fold T'.
  rewrite take_app_ge, Hlu, <- app_assoc by lia. do 3 f_equal; lia.
Qed.

(** The whole loop: every block is written and nothing panics. *)
Lemma hkdf_expand_Done (prk info okm_in : list Z) :
  (length info ≤ 223)%nat →
  hkdf_expand prk info okm_in = Done (hkdf_spec prk info (length okm_in)).
Proof.
  intros Hinfo. unfold hkdf_expand, hkdf_spec.
  pose proof (div_ceil_bounds (length okm_in) 32 ltac:(lia)) as [Hn1 Hn2].
  set (n := div_ceil (length okm_in) 32) in *.
  set (s0 := ExpandState _ _ _ _ _).
  assert (H0 : expand_inv prk info okm_in 0 s0).
  { subst s0. split_and!; try done; simpl; lia. }
  assert (H : ∀ k i s, (i + k = n)%nat → expand_inv prk info okm_in i s →
    ∃ s', for_range (S i) k (hkdf_expand_step prk info) s = Done s' ∧
          expand_inv prk info okm_in n s').
  { induction k as [|k IH]; intros i s Hik Hs; cbn [for_range].
    { exists s. split; [done|]. by replace n with i by lia. }
    destruct (expand_step_inv prk info okm_in i s) as (s1 & -> & Hs1); [done|lia|done|].
    rewrite bind_Done. apply IH; [lia|done]. }
  destruct (H n 0%nat s0) as (s' & -> & (_ & _ & _ & Hoff & _ & Hok)); [lia|done|].
  rewrite bind_Done, Hok, Hoff. f_equal.
  replace (Nat.min (length okm_in) (32 * n)) with (length okm_in) by lia.
  by rewrite drop_all, app_nil_r.
Qed.

Lemma length_hkdf_spec prk info L : length (hkdf_spec prk info L) = L.
Proof.
  unfold hkdf_spec. fold (T_upto prk info (div_ceil L 32)).
  pose proof (div_ceil_bounds L 32 ltac:(lia)). rewrite length_take, length_T_upto. lia.
Qed.

Lemma hkdf_spec_bytes prk info L : bytes (hkdf_spec prk info L).
Proof.
  apply Forall_take, Forall_concat, Forall_fmap, Forall_forall.
  intros [|i] _; simpl; [constructor|apply sha256_spec_bytes].
Qed.

#[export] Hint Rewrite length_hkdf_spec : gutd_len.
#[export] Hint Resolve hkdf_spec_bytes : gutd.

(** C21: HKDF is RFC 5869: for every salt, input keying material, output buffer
    and [info] of at most 223 bytes, extract-then-expand returns without
    panicking and fills the whole buffer with the first [L] octets of
    [T(1) || T(2) || ...] under [PRK = HMAC(salt, IKM)] (the counter octet wraps
    past 255 blocks, a length the RFC excludes). *)
Theorem hkdf_sha256_correct (salt ikm info okm_in : list Z) :
  (length info ≤ 223)%nat →
  hkdf_sha256 salt ikm info okm_in
  = Done (hkdf_spec (hmac_spec salt ikm) info (length okm_in)).
Proof.
  intros H. unfold hkdf_sha256, hkdf_extract. rewrite hmac_sha256_Done, bind_Done.
  by apply hkdf_expand_Done.
Qed.

(** RFC 5869, test case 1 (42 octets: the last block is partial). *)
Lemma hkdf_sha256_correct_witness :
  hkdf_sha256 [0;1;2;3;4;5;6;7;8;9;10;11;12] (replicate 22 0x0b)
    [0xf0;0xf1;0xf2;0xf3;0xf4;0xf5;0xf6;0xf7;0xf8;0xf9] (replicate 42 0)
  = Done [0x3c; 0xb2; 0x5f; 0x25; 0xfa; 0xac; 0xd5; 0x7a; 0x90; 0x43; 0x4f; 0x64; 0xd0; 0x36;
          0x2f; 0x2a; 0x2d; 0x2d; 0x0a; 0x90; 0xcf; 0x1a; 0x5a; 0x4c; 0x5d; 0xb0; 0x2d; 0x56;
          0xec; 0xc4; 0xc5; 0xbf; 0x34; 0x00; 0x72; 0x08; 0xd5; 0xb8; 0x87; 0x18; 0x58; 0x65].
Proof. rewrite hkdf_sha256_correct; [|simpl; lia]. vm_compute. reflexivity. Defined.

(** ** HKDF-Expand-Label *)

(** The [info] buffer holds the [HkdfLabel] structure. *)
Lemma hkdf_expand_label_Done secret label context okm_in :
  (length label + length context ≤ 213)%nat → Z.of_nat (length okm_in) < 2 ^ 16 →
  hkdf_expand_label secret label context okm_in
  = Done (hkdf_spec secret (HkdfLabel (length okm_in) label context) (length okm_in)).
Proof.
  intros Hl Ho. unfold hkdf_expand_label. cbv zeta.
  rewrite !(wrap_small 8) by (unfold in_width; lia).
  rewrite wrap_small by (unfold in_width; lia).
  set (b2 := u16_to_be_bytes _). assert (length b2 = 2%nat) by apply length_be_bytes.
  set (tls := bs "tls13 "). assert (length tls = 6%nat) by done.
  set (i0 := replicate 256 0). assert (length i0 = 256%nat) by apply length_replicate.
  rewrite copy_from_slice_Done, bind_Done by lia.
  rewrite put_Done, bind_Done by len.
  rewrite copy_from_slice_Done, bind_Done by len.
  rewrite copy_from_slice_Done, bind_Done by len.
  rewrite put_Done, bind_Done by len.
  rewrite copy_from_slice_Done, bind_Done by len.
  rewrite slice_Done, bind_Done by len.
  set (x := Z.of_nat (6 + length label)). set (y := Z.of_nat (length context)).
  set (b := list_inserts _ context _).
  assert (Hb : b = list_inserts 0 (HkdfLabel (length okm_in) label context) i0).
  { unfold HkdfLabel. fold b2 x tls y.
    rewrite list_inserts_app_r, list_inserts_app_r, list_inserts_app_r, list_inserts_app_r.
    rewrite list_inserts_app_r. cbn [length].
    replace (0 + length b2)%nat with 2%nat by lia.
    replace (2 + 1 + length tls)%nat with 9%nat by lia. done. }
  assert (Hlen : length (HkdfLabel (length okm_in) label context)
                 = (9 + length label + 1 + length context)%nat).
  { unfold HkdfLabel. fold b2 tls. len. }
  rewrite Hb, Nat.sub_0_r, <- Hlen, window_inserts by len.
  apply hkdf_expand_Done. len.
Qed.

(** ** QUIC Initial secrets (RFC 9001, 5.1 and 5.2) *)

Definition QUIC_V1_SALT : list Z :=
  [0x38; 0x76; 0x2c; 0xf7; 0xf5; 0x59; 0x34; 0xb3; 0x4d; 0x17; 0x9a; 0xe6; 0xa4; 0xc8; 0x0c;
   0xad; 0xcc; 0xbb; 0x7f; 0x0a].

Definition derive_quic_initial_secret (dcid : list Z) : outcome (list Z) :=
  hkdf_extract QUIC_V1_SALT dcid.

Definition derive_client_initial_secret (initial_secret : list Z) : outcome (list Z) :=
  hkdf_expand_label initial_secret (bs "client in") [] (replicate 32 0).

Definition derive_server_initial_secret (initial_secret : list Z) : outcome (list Z) :=
  hkdf_expand_label initial_secret (bs "server in") [] (replicate 32 0).

Definition derive_quic_keys (secret : list Z) : outcome (list Z * list Z * list Z) :=
  key ← hkdf_expand_label secret (bs "quic key") [] (replicate 16 0);
  iv ← hkdf_expand_label secret (bs "quic iv") [] (replicate 12 0);
  hp ← hkdf_expand_label secret (bs "quic hp") [] (replicate 16 0);
  Done (key, iv, hp).

(** The client Initial keys of a connection id, as [write_quic_long_header]
    and [build_gut_config] derive them. *)
Definition client_initial_keys (dcid : list Z) : outcome (list Z * list Z * list Z) :=
  s ← derive_quic_initial_secret dcid;
  c ← derive_client_initial_secret s;
  derive_quic_keys c.

Lemma derive_quic_keys_Done secret :
  derive_quic_keys secret
  = Done (hkdf_spec secret (HkdfLabel 16 (bs "quic key") []) 16,
          hkdf_spec secret (HkdfLabel 12 (bs "quic iv") []) 12,
          hkdf_spec secret (HkdfLabel 16 (bs "quic hp") []) 16).
Proof.
  unfold derive_quic_keys.
  by rewrite !hkdf_expand_label_Done by (rewrite ?length_replicate; (done || (cbn; lia))).
Qed.

(** QUIC Initial key derivation is RFC 9001: for every connection id the
    client key, IV and header-protection key are derived without panicking,
    have 16, 12 and 16 bytes, and are HKDF-Expand-Label of the client secret
    under the labels of the RFC. *)
Theorem client_initial_keys_correct (dcid : list Z) :
  let initial := hmac_spec QUIC_V1_SALT dcid in
  let client := hkdf_spec initial (HkdfLabel 32 (bs "client in") []) 32 in
  ∃ key iv hp, client_initial_keys dcid = Done (key, iv, hp) ∧
    key = hkdf_spec client (HkdfLabel 16 (bs "quic key") []) 16 ∧ length key = 16%nat ∧
    iv = hkdf_spec client (HkdfLabel 12 (bs "quic iv") []) 12 ∧ length iv = 12%nat ∧
    hp = hkdf_spec client (HkdfLabel 16 (bs "quic hp") []) 16 ∧ length hp = 16%nat.
Proof.
  intros initial client. unfold client_initial_keys, derive_quic_initial_secret, hkdf_extract.
  rewrite hmac_sha256_Done, bind_Done. unfold derive_client_initial_secret.
  rewrite hkdf_expand_label_Done by (rewrite ?length_replicate; (done || (cbn; lia))).
  rewrite length_replicate, bind_Done, derive_quic_keys_Done. fold initial client.
  eexists _, _, _. by rewrite !length_hkdf_spec.
Qed.

(** RFC 9001, appendix A.1. *)
Example rfc9001_client_keys :
  client_initial_keys [0x83; 0x94; 0xc8; 0xf0; 0x3e; 0x51; 0x57; 0x08] = Done (
    [0x1f; 0x36; 0x96; 0x13; 0xdd; 0x76; 0xd5; 0x46; 0x77; 0x30; 0xef; 0xcb; 0xe3; 0xb1; 0xa2; 0x2d],
    [0xfa; 0x04; 0x4b; 0x2f; 0x42; 0xa3; 0xfd; 0x3b; 0x46; 0xfb; 0x25; 0x5c],
    [0x9f; 0x50; 0x44; 0x9e; 0x04; 0xa0; 0xe8; 0x10; 0x28; 0x3a; 0x1e; 0x99; 0x33; 0xad; 0xed; 0xd2]).
Proof. vm_compute. reflexivity. Qed.

(** [derive_key] always yields a 32-byte key. *)
Lemma derive_key_wf passphrase :
  ∃ key, derive_key passphrase = Done key ∧ bytes key ∧ length key = 32%nat.
Proof.
  unfold derive_key, hkdf_sha256, hkdf_extract. rewrite hmac_sha256_Done, bind_Done.
  rewrite hkdf_expand_Done by (cbn; lia). eexists. split; [done|].
  split; [auto with gutd|len].
Qed.

(** ** [key_to_hex] *)

Definition key_to_hex (key : list Z) : list Z :=
  key ≫= λ b, [hex_digit (shr b 4); hex_digit (Z.land b 0xF)].
