(* ===== verification/Aes.v ===== *)
(** * crypto.rs: AES-128

    The block cipher works on four big-endian column words and is proved
    equal to the byte-matrix cipher of FIPS 197. *)

From S2P Require Import Prelude Words.
Local Open Scope Z_scope.

(** [const SBOX: [u8; 256]] *)
Definition SBOX : list Z := [
  0x63; 0x7c; 0x77; 0x7b; 0xf2; 0x6b; 0x6f; 0xc5; 0x30; 0x01; 0x67; 0x2b; 0xfe; 0xd7; 0xab; 0x76;
  0xca; 0x82; 0xc9; 0x7d; 0xfa; 0x59; 0x47; 0xf0; 0xad; 0xd4; 0xa2; 0xaf; 0x9c; 0xa4; 0x72; 0xc0;
  0xb7; 0xfd; 0x93; 0x26; 0x36; 0x3f; 0xf7; 0xcc; 0x34; 0xa5; 0xe5; 0xf1; 0x71; 0xd8; 0x31; 0x15;
  0x04; 0xc7; 0x23; 0xc3; 0x18; 0x96; 0x05; 0x9a; 0x07; 0x12; 0x80; 0xe2; 0xeb; 0x27; 0xb2; 0x75;
  0x09; 0x83; 0x2c; 0x1a; 0x1b; 0x6e; 0x5a; 0xa0; 0x52; 0x3b; 0xd6; 0xb3; 0x29; 0xe3; 0x2f; 0x84;
  0x53; 0xd1; 0x00; 0xed; 0x20; 0xfc; 0xb1; 0x5b; 0x6a; 0xcb; 0xbe; 0x39; 0x4a; 0x4c; 0x58; 0xcf;
  0xd0; 0xef; 0xaa; 0xfb; 0x43; 0x4d; 0x33; 0x85; 0x45; 0xf9; 0x02; 0x7f; 0x50; 0x3c; 0x9f; 0xa8;
  0x51; 0xa3; 0x40; 0x8f; 0x92; 0x9d; 0x38; 0xf5; 0xbc; 0xb6; 0xda; 0x21; 0x10; 0xff; 0xf3; 0xd2;
  0xcd; 0x0c; 0x13; 0xec; 0x5f; 0x97; 0x44; 0x17; 0xc4; 0xa7; 0x7e; 0x3d; 0x64; 0x5d; 0x19; 0x73;
  0x60; 0x81; 0x4f; 0xdc; 0x22; 0x2a; 0x90; 0x88; 0x46; 0xee; 0xb8; 0x14; 0xde; 0x5e; 0x0b; 0xdb;
  0xe0; 0x32; 0x3a; 0x0a; 0x49; 0x06; 0x24; 0x5c; 0xc2; 0xd3; 0xac; 0x62; 0x91; 0x95; 0xe4; 0x79;
  0xe7; 0xc8; 0x37; 0x6d; 0x8d; 0xd5; 0x4e; 0xa9; 0x6c; 0x56; 0xf4; 0xea; 0x65; 0x7a; 0xae; 0x08;
  0xba; 0x78; 0x25; 0x2e; 0x1c; 0xa6; 0xb4; 0xc6; 0xe8; 0xdd; 0x74; 0x1f; 0x4b; 0xbd; 0x8b; 0x8a;
  0x70; 0x3e; 0xb5; 0x66; 0x48; 0x03; 0xf6; 0x0e; 0x61; 0x35; 0x57; 0xb9; 0x86; 0xc1; 0x1d; 0x9e;
  0xe1; 0xf8; 0x98; 0x11; 0x69; 0xd9; 0x8e; 0x94; 0x9b; 0x1e; 0x87; 0xe9; 0xce; 0x55; 0x28; 0xdf;
  0x8c; 0xa1; 0x89; 0x0d; 0xbf; 0xe6; 0x42; 0x68; 0x41; 0x99; 0x2d; 0x0f; 0xb0; 0x54; 0xbb; 0x16].

Definition sbox (b : Z) : Z := SBOX !!! Z.to_nat b.

Definition sub_word (w : Z) : Z :=
  let b := u32_to_be_bytes w in
  from_be [sbox (b !!! 0%nat); sbox (b !!! 1%nat); sbox (b !!! 2%nat); sbox (b !!! 3%nat)].

Definition rot_word (w : Z) : Z := rotate_left 32 w 8.

Definition rcon : list Z :=
  [0x01000000; 0x02000000; 0x04000000; 0x08000000; 0x10000000; 0x20000000; 0x40000000;
   0x80000000; 0x1b000000; 0x36000000].

Definition aes128_expand_step (w : list Z) (i : nat) : list Z :=
  let temp := w !!! (i - 1)%nat in
  let temp := if (i mod 4 =? 0)%nat
              then Z.lxor (sub_word (rot_word temp)) (rcon !!! (i / 4 - 1)%nat) else temp in
  <[i := Z.lxor (w !!! (i - 4)%nat) temp]> w.

Definition aes128_expand_key (key : list Z) : list Z :=
  let w := list_inserts 0
    ((λ i, from_be [key !!! (4 * i)%nat; key !!! (4 * i + 1)%nat; key !!! (4 * i + 2)%nat;
                    key !!! (4 * i + 3)%nat]) <$> seq 0 4) (replicate 44 0) in
  foldl aes128_expand_step w (seq 4 40).

(** The closure [h] of [mix_columns]. *)
Definition xtime (x : Z) : Z :=
  if Z.land x 0x80 =? 0 then shl 8 x 1 else Z.lxor (shl 8 x 1) 0x1b.

Definition mix_column (w : Z) : Z :=
  let col := u32_to_be_bytes w in
  let a := col !!! 0%nat in
  let b := col !!! 1%nat in
  let c := col !!! 2%nat in
  let d := col !!! 3%nat in
  let h := xtime in
  from_be
    [Z.lxor (Z.lxor (Z.lxor (h a) (Z.lxor (h b) b)) c) d;
     Z.lxor (Z.lxor (Z.lxor a (h b)) (Z.lxor (h c) c)) d;
     Z.lxor (Z.lxor (Z.lxor a b) (h c)) (Z.lxor (h d) d);
     Z.lxor (Z.lxor (Z.lxor (Z.lxor (h a) a) b) c) (h d)].

Definition mix_columns (s : list Z) : list Z := mix_column <$> s.

Definition state_bytes (s : list Z) : list Z := s ≫= u32_to_be_bytes.

(** SubBytes and ShiftRows of a state, as the code indexes its bytes. *)
Definition sub_shift (s : list Z) : list Z :=
  let bytes := state_bytes s in
  let sb i := sbox (bytes !!! i) in
  [from_be [sb 0%nat; sb 5%nat; sb 10%nat; sb 15%nat];
   from_be [sb 4%nat; sb 9%nat; sb 14%nat; sb 3%nat];
   from_be [sb 8%nat; sb 13%nat; sb 2%nat; sb 7%nat];
   from_be [sb 12%nat; sb 1%nat; sb 6%nat; sb 11%nat]].

Definition aes_round (round_keys : list Z) (s : list Z) (r : nat) : list Z :=
  let ns := sub_shift s in
  let ns := if (r <? 10)%nat then mix_columns ns else ns in
  (λ i, Z.lxor (ns !!! i) (round_keys !!! (r * 4 + i)%nat)) <$> seq 0 4.

Definition aes128_encrypt_block (round_keys block : list Z) : list Z :=
  let s := (λ i, Z.lxor (from_be [block !!! (4 * i)%nat; block !!! (4 * i + 1)%nat;
                                  block !!! (4 * i + 2)%nat; block !!! (4 * i + 3)%nat])
                        (round_keys !!! i)) <$> seq 0 4 in
  let s := foldl (aes_round round_keys) s (seq 1 9) in
  let ns := sub_shift s in
  seq 0 4 ≫= λ i, u32_to_be_bytes (Z.lxor (ns !!! i) (round_keys !!! (40 + i)%nat)).

(** FIPS 197, appendix B. *)
Example fips197_appendix_b :
  aes128_encrypt_block
    (aes128_expand_key [0x2b; 0x7e; 0x15; 0x16; 0x28; 0xae; 0xd2; 0xa6; 0xab; 0xf7; 0x15; 0x88;
                        0x09; 0xcf; 0x4f; 0x3c])
    [0x32; 0x43; 0xf6; 0xa8; 0x88; 0x5a; 0x30; 0x8d; 0x31; 0x31; 0x98; 0xa2; 0xe0; 0x37; 0x07; 0x34]
  = [0x39; 0x25; 0x84; 0x1d; 0x02; 0xdc; 0x09; 0xfb; 0xdc; 0x11; 0x85; 0x97; 0x19; 0x6a; 0x0b; 0x32].
Proof. vm_compute. reflexivity. Qed.

(** ** FIPS 197 reference: the cipher on sixteen bytes, column by column *)

Module Fips197.

(** Multiplication in GF(2^8) modulo [x^8 + x^4 + x^3 + x + 1]: the carry-less
    product, reduced from its top bit down. *)
Definition clmul (a b : Z) : Z :=
  foldl (λ acc i, if Z.testbit b (Z.of_nat i) then Z.lxor acc (Z.shiftl a (Z.of_nat i)) else acc)
    0 (seq 0 8).

Definition reduce (p : Z) : Z :=
  foldl (λ p i, if Z.testbit p (Z.of_nat (i + 8)) then Z.lxor p (Z.shiftl 0x11b (Z.of_nat i)) else p)
    p (rev (seq 0 8)).

Definition gmul (a b : Z) : Z := reduce (clmul a b).

(** The multiplicative inverse, [b ^ 254]. *)
Definition ginv (b : Z) : Z := Nat.iter 253 (gmul b) b.

(** 5.1.1: the affine transformation of the inverse. *)
Definition sub_byte (b : Z) : Z :=
  let i := ginv b in
  let rotl n := Z.lor (shl 8 i n) (shr i (8 - n)) in
  Z.lxor (Z.lxor (Z.lxor (Z.lxor (Z.lxor i (rotl 1)) (rotl 2)) (rotl 3)) (rotl 4)) 0x63.

(** Byte [r + 4 c] of the state is row [r], column [c]. *)
Definition shift_rows (s : list Z) : list Z :=
  (λ i, s !!! ((i + 4 * (i mod 4)) mod 16)%nat) <$> seq 0 16.

Definition mix_one (col : list Z) : list Z :=
  (λ r, Z.lxor (Z.lxor (Z.lxor (gmul 2 (col !!! r)) (gmul 3 (col !!! ((r + 1) mod 4)%nat)))
               (col !!! ((r + 2) mod 4)%nat)) (col !!! ((r + 3) mod 4)%nat)) <$> seq 0 4.

Definition mix_columns (s : list Z) : list Z :=
  seq 0 4 ≫= λ c, mix_one (window (4 * c) 4 s).

(** 5.2: the key schedule, on four-byte words. *)
Definition rot_word (w : list Z) : list Z := drop 1 w ++ take 1 w.

Fixpoint rcon (i : nat) : Z := match i with O => 1 | S i => gmul 2 (rcon i) end.

Definition key_step (w : list (list Z)) (i : nat) : list (list Z) :=
  let temp := w !!! (i - 1)%nat in
  let temp := if (i mod 4 =? 0)%nat
              then xor_bytes (sub_byte <$> rot_word temp) [rcon (i / 4 - 1); 0; 0; 0] else temp in
  w ++ [xor_bytes (w !!! (i - 4)%nat) temp].

Definition key_expansion (key : list Z) : list (list Z) :=
  foldl key_step ((λ i, window (4 * i) 4 key) <$> seq 0 4) (seq 4 40).

(** The bytes of round key [r]. *)
Definition round_key (w : list (list Z)) (r : nat) : list Z :=
  seq 0 4 ≫= λ i, w !!! (r * 4 + i)%nat.

Definition add_round_key (w : list (list Z)) (r : nat) (s : list Z) : list Z :=
  xor_bytes s (round_key w r).

Definition round (w : list (list Z)) (s : list Z) (r : nat) : list Z :=
  add_round_key w r (mix_columns (shift_rows (sub_byte <$> s))).

(** 5.1: the cipher. *)
Definition cipher (w : list (list Z)) (block : list Z) : list Z :=
  let s := foldl (round w) (add_round_key w 0 block) (seq 1 9) in
  add_round_key w 10 (shift_rows (sub_byte <$> s)).

End Fips197.

Lemma sbox_correct b : is_u8 b → sbox b = Fips197.sub_byte b.
Proof.
  apply (check_below_P (λ b, sbox b = Fips197.sub_byte b) 256). vm_compute. reflexivity.
Qed.

Lemma sbox_u8 b : is_u8 b → is_u8 (sbox b).
Proof. apply (check_below_P (λ b, is_u8 (sbox b)) 256). vm_compute. reflexivity. Qed.

Lemma xtime_correct x : is_u8 x →
  is_u8 (xtime x) ∧ xtime x = Fips197.gmul 2 x ∧ Z.lxor (xtime x) x = Fips197.gmul 3 x.
Proof.
  apply (check_below_P (λ x, is_u8 (xtime x) ∧ xtime x = Fips197.gmul 2 x ∧
                             Z.lxor (xtime x) x = Fips197.gmul 3 x) 256).
  vm_compute. reflexivity.
Qed.

#[export] Hint Resolve sbox_u8 : gutd.

(** ** The word-based cipher is the byte-based one *)

(** A word built from four bytes has those bytes. *)
Lemma quad_bytes a b c d : is_u8 a → is_u8 b → is_u8 c → is_u8 d →
  u32_to_be_bytes (from_be [a; b; c; d]) = [a; b; c; d].
Proof. intros. apply (be_bytes_from_be [a; b; c; d]). forall_list. Qed.

(** A state of four words. *)
Definition aes_state (s : list Z) : Prop := words s ∧ length s = 4%nat.

Lemma length_state_bytes s : length (state_bytes s) = (4 * length s)%nat.
Proof.
  unfold state_bytes. induction s as [|x l IH]; [done|].
  rewrite bind_cons, length_app, IH, length_be_bytes. simpl. lia.
Qed.

Lemma state_bytes_bytes s : bytes (state_bytes s).
Proof.
  unfold state_bytes. induction s; [by constructor|].
  rewrite bind_cons. apply Forall_app_2; auto with gutd.
Qed.

(** Expose the sixteen bytes of a block. *)
Ltac split16 l :=
  match goal with H : length l = 16%nat |- _ =>
    do 16 (destruct l as [|? l]; [discriminate H|]);
    destruct l; [clear H|discriminate H]
  end;
  repeat match goal with H : bytes (_ :: _) |- _ => apply Forall_cons in H as [? H] end.

Lemma sub_bytes_sbox bs : bytes bs → Fips197.sub_byte <$> bs = sbox <$> bs.
Proof.
  intros Hb. apply list_fmap_ext. intros i x Hx. symmetry. apply sbox_correct.
  by apply (Forall_lookup_1 _ bs i).
Qed.

Lemma quad_word a b c d : is_u8 a → is_u8 b → is_u8 c → is_u8 d →
  is_u32 (from_be [a; b; c; d]).
Proof. intros. apply (from_be_range [a; b; c; d]). forall_list. Qed.

Lemma sub_shift_bytes s : aes_state s →
  state_bytes (sub_shift s) = Fips197.shift_rows (Fips197.sub_byte <$> state_bytes s) ∧
  aes_state (sub_shift s).
Proof.
  intros [_ Hs]. pose proof (length_state_bytes s) as Hl. rewrite Hs in Hl.
  pose proof (state_bytes_bytes s) as Hb.
  rewrite sub_bytes_sbox by done. unfold sub_shift. cbv zeta.
  generalize dependent (state_bytes s). intros bs Hl Hb.
  change (4 * 4)%nat with 16%nat in Hl. split16 bs.
  split; [|split; [|done]]; cbn [lookup_total list_lookup_total fmap list_fmap];
    [|repeat (apply Forall_cons_2; [apply quad_word; auto with gutd|]); apply Forall_nil_2].
  cbn [lookup_total list_lookup_total fmap list_fmap].
  unfold state_bytes. rewrite !bind_cons, !quad_bytes by auto with gutd. reflexivity.
Qed.

Lemma lxor4_rot a b c d :
  Z.lxor (Z.lxor (Z.lxor a b) c) d = Z.lxor (Z.lxor (Z.lxor b c) d) a.
Proof. by rewrite !Z.lxor_assoc, (Z.lxor_comm a), !Z.lxor_assoc. Qed.

Lemma mix_column_bytes a b c d : is_u8 a → is_u8 b → is_u8 c → is_u8 d →
  u32_to_be_bytes (mix_column (from_be [a; b; c; d])) = Fips197.mix_one [a; b; c; d].
Proof.
  intros Ha Hb Hc Hd. unfold mix_column. rewrite (quad_bytes a b c d) by assumption.
  cbn [lookup_total list_lookup_total]. cbv zeta.
  destruct (xtime_correct a Ha) as (? & Ha2 & Ha3), (xtime_correct b Hb) as (? & Hb2 & Hb3),
    (xtime_correct c Hc) as (? & Hc2 & Hc3), (xtime_correct d Hd) as (? & Hd2 & Hd3).
  rewrite quad_bytes by (repeat apply lxor_range; assumption || lia).
  unfold Fips197.mix_one. cbn [seq fmap list_fmap Nat.add Nat.modulo Nat.divmod fst snd Nat.sub
    lookup_total list_lookup_total].
  rewrite <- Ha3, <- Hb3, <- Hc3, <- Hd3, <- Ha2, <- Hb2, <- Hc2, <- Hd2.
  rewrite (lxor4_rot a (xtime b)), (lxor4_rot a b (xtime c)), (lxor4_rot b (xtime c)).
  rewrite (lxor4_rot _ b c), (lxor4_rot b c), (lxor4_rot c (xtime d)). reflexivity.
Qed.

Lemma mix_column_word a b c d : is_u8 a → is_u8 b → is_u8 c → is_u8 d →
  is_u32 (mix_column (from_be [a; b; c; d])).
Proof.
  intros Ha Hb Hc Hd. unfold mix_column. rewrite (quad_bytes a b c d) by assumption.
  cbn [lookup_total list_lookup_total]. cbv zeta.
  apply quad_word; repeat apply lxor_range; try lia; try assumption;
    by apply xtime_correct.
Qed.

Lemma word_quad w : is_u32 w → ∃ a b c d, is_u8 a ∧ is_u8 b ∧ is_u8 c ∧ is_u8 d ∧
  w = from_be [a; b; c; d] ∧ u32_to_be_bytes w = [a; b; c; d].
Proof.
  intros Hw. pose proof (be_bytes_bytes 4 w) as Hbw. pose proof (length_be_bytes 4 w) as Hlw.
  pose proof (from_be_bytes 4 w) as Hfw. rewrite wrap_small in Hfw by done.
  destruct (u32_to_be_bytes w) as [|a [|b [|c [|d [|]]]]]; try done.
  apply Forall_cons in Hbw as [? Hbw]. apply Forall_cons in Hbw as [? Hbw].
  apply Forall_cons in Hbw as [? Hbw]. apply Forall_cons in Hbw as [? Hbw].
  exists a, b, c, d. done.
Qed.

Lemma mix_columns_bytes s : aes_state s →
  state_bytes (mix_columns s) = Fips197.mix_columns (state_bytes s) ∧
  aes_state (mix_columns s).
Proof.
  intros [Hw Hsl].
  destruct s as [|w0 [|w1 [|w2 [|w3 [|]]]]]; try done.
  apply Forall_cons in Hw as [H0 Hw]. apply Forall_cons in Hw as [H1 Hw].
  apply Forall_cons in Hw as [H2 Hw]. apply Forall_cons in Hw as [H3 _].
  destruct (word_quad w0 H0) as (a0 & b0 & c0 & d0 & ? & ? & ? & ? & Hw0 & Hb0).
  destruct (word_quad w1 H1) as (a1 & b1 & c1 & d1 & ? & ? & ? & ? & Hw1 & Hb1).
  destruct (word_quad w2 H2) as (a2 & b2 & c2 & d2 & ? & ? & ? & ? & Hw2 & Hb2).
  destruct (word_quad w3 H3) as (a3 & b3 & c3 & d3 & ? & ? & ? & ? & Hw3 & Hb3).
  split.
  - unfold mix_columns, state_bytes. cbn [fmap list_fmap].
    rewrite !bind_cons, Hb0, Hb1, Hb2, Hb3, Hw0, Hw1, Hw2, Hw3, !mix_column_bytes by assumption.
    reflexivity.
  - split; [|done]. rewrite Hw0, Hw1, Hw2, Hw3. unfold mix_columns. cbn [fmap list_fmap].
    repeat (apply Forall_cons_2; [by apply mix_column_word|]). apply Forall_nil_2.
Qed.

(** The expanded key: 44 words. *)
Definition aes_key (w : list Z) : Prop := words w ∧ length w = 44%nat.

(** The code's words [w] and the reference words [W] up to index [n]. *)
Definition key_agree (w : list Z) (W : list (list Z)) (n : nat) : Prop :=
  length W = n ∧ ∀ i, (i < n)%nat → u32_to_be_bytes (w !!! i) = W !!! i.

(** AddRoundKey on words is AddRoundKey on bytes. *)
Lemma add_key_bytes w W r ns : aes_key w → key_agree w W 44 → aes_state ns → (r ≤ 10)%nat →
  let s := (λ i, Z.lxor (ns !!! i) (w !!! (r * 4 + i)%nat)) <$> seq 0 4 in
  state_bytes s = Fips197.add_round_key W r (state_bytes ns) ∧ aes_state s.
Proof.
  intros [Hw Hwl] [HWl HW] [Hn Hnl] Hr s. subst s.
  assert (Hk : ∀ i, (i < 4)%nat → is_u32 (w !!! (r * 4 + i)%nat))
    by (intros; apply Forall_lookup_total; [done|lia]).
  destruct ns as [|n0 [|n1 [|n2 [|n3 [|]]]]]; try done.
  apply Forall_cons in Hn as [? Hn]. apply Forall_cons in Hn as [? Hn].
  apply Forall_cons in Hn as [? Hn]. apply Forall_cons in Hn as [? _].
  cbn [fmap list_fmap seq lookup_total list_lookup_total]. split; [|split; [|done]].
  - unfold Fips197.add_round_key, Fips197.round_key, state_bytes. cbn [seq].
    rewrite !bind_cons, !be_bytes_lxor, !HW by lia. unfold xor_bytes.
    rewrite !zip_with_app by (rewrite <- ?HW, !length_be_bytes by lia; done). done.
  - repeat (apply Forall_cons_2; [apply lxor_range; [lia|done|apply Hk; lia]|]).
    apply Forall_nil_2.
Qed.

Lemma aes_round_bytes w W r s : aes_key w → key_agree w W 44 → aes_state s → (1 ≤ r < 10)%nat →
  state_bytes (aes_round w s r) = Fips197.round W (state_bytes s) r ∧
  aes_state (aes_round w s r).
Proof.
  intros Hw HW Hs Hr. unfold aes_round, Fips197.round.
  destruct (Nat.ltb_spec r 10); [|lia].
  destruct (sub_shift_bytes s Hs) as [<- Hss].
  destruct (mix_columns_bytes _ Hss) as [<- Hms].
  apply add_key_bytes; [done..|lia].
Qed.

Lemma block_words_bytes block : bytes block → length block = 16%nat →
  let ns := (λ i, from_be [block !!! (4 * i)%nat; block !!! (4 * i + 1)%nat;
                           block !!! (4 * i + 2)%nat; block !!! (4 * i + 3)%nat]) <$> seq 0 4 in
  state_bytes ns = block ∧ aes_state ns.
Proof.
  intros Hb Hl ns. subst ns. split16 block.
  cbn [fmap list_fmap seq Nat.mul Nat.add lookup_total list_lookup_total].
  split; [|split; [|done]].
  - unfold state_bytes. by rewrite !bind_cons, !quad_bytes by assumption.
  - repeat (apply Forall_cons_2; [by apply quad_word|]). apply Forall_nil_2.
Qed.

(** The code's block encryption is the FIPS 197 cipher. *)
Lemma aes128_encrypt_block_bytes w W block :
  aes_key w → key_agree w W 44 → bytes block → length block = 16%nat →
  aes128_encrypt_block w block = Fips197.cipher W block.
Proof.
  intros Hw HW Hb Hl. unfold aes128_encrypt_block, Fips197.cipher. cbv zeta.
  destruct (block_words_bytes block Hb Hl) as [Hbb Hns].
  destruct (add_key_bytes w W 0 _ Hw HW Hns ltac:(lia)) as [Hs0 Hs0'].
  rewrite Hbb in Hs0.
  assert (Hrounds : ∀ k r s, (r + k = 10)%nat → (1 ≤ r)%nat → aes_state s →
    state_bytes (foldl (aes_round w) s (seq r k))
    = foldl (Fips197.round W) (state_bytes s) (seq r k) ∧
    aes_state (foldl (aes_round w) s (seq r k))).
  { induction k as [|k IH]; intros r s Hrk Hr Hs; [done|]. cbn [seq foldl].
    destruct (aes_round_bytes w W r s Hw HW Hs ltac:(lia)) as [<- Hs'].
    apply IH; [lia|lia|done]. }
  destruct (Hrounds 9%nat 1%nat _ ltac:(lia) ltac:(lia) Hs0') as [Hr Hr'].
  destruct (sub_shift_bytes _ Hr') as [Hf Hf'].
  destruct (add_key_bytes w W 10 _ Hw HW Hf' ltac:(lia)) as [Hk _].
  rewrite Hf, Hr, Hs0 in Hk. rewrite <- Hk. reflexivity.
Qed.

(** ** The key schedule *)

Lemma rot_word_bytes w : is_u32 w →
  u32_to_be_bytes (rot_word w) = Fips197.rot_word (u32_to_be_bytes w) ∧ is_u32 (rot_word w).
Proof.
  intros Hw. destruct (word_quad w Hw) as (a & b & c & d & Ha & Hb & Hc & Hd & -> & ->).
  assert (H : rot_word (from_be [a; b; c; d]) = from_be [b; c; d; a]).
  { unfold rot_word, rotate_left, shl, wrap. unfold from_be. simpl rev. cbn [from_le].
    rewrite Z.shiftl_mul_pow2, Z.shiftr_div_pow2 by lia.
    unfold in_width in *. change (2 ^ 8) with 256 in *. change (2 ^ (32 - 8)) with 16777216.
    change (2 ^ 32) with (16777216 * 256). rewrite Zmult_mod_distr_r.
    replace ((d + 256 * (c + 256 * (b + 256 * (a + 256 * 0)))) / 16777216) with a by dlia.
    change 256 with (2 ^ 8) at 5. rewrite lor_add by (change (2 ^ 8) with 256; lia).
    change (2 ^ 8) with 256. dlia. }
  rewrite H, quad_bytes by assumption. split; [done|by apply quad_word].
Qed.

Lemma sub_word_bytes w : is_u32 w →
  u32_to_be_bytes (sub_word w) = Fips197.sub_byte <$> u32_to_be_bytes w ∧ is_u32 (sub_word w).
Proof.
  intros Hw. rewrite sub_bytes_sbox by auto with gutd. unfold sub_word.
  destruct (word_quad w Hw) as (a & b & c & d & Ha & Hb & Hc & Hd & _ & ->).
  cbn [lookup_total list_lookup_total fmap list_fmap].
  split; [by rewrite quad_bytes by auto with gutd|apply quad_word; auto with gutd].
Qed.

Lemma rcon_bytes k : (k < 10)%nat →
  u32_to_be_bytes (rcon !!! k) = [Fips197.rcon k; 0; 0; 0] ∧ is_u32 (rcon !!! k).
Proof.
  intros Hk.
  assert (H : ∀ z, 0 ≤ z < 10 → u32_to_be_bytes (rcon !!! Z.to_nat z)
      = [Fips197.rcon (Z.to_nat z); 0; 0; 0] ∧ is_u32 (rcon !!! Z.to_nat z)).
  { apply (check_below_P (λ z, u32_to_be_bytes (rcon !!! Z.to_nat z)
      = [Fips197.rcon (Z.to_nat z); 0; 0; 0] ∧ is_u32 (rcon !!! Z.to_nat z)) 10).
    vm_compute. reflexivity. }
  specialize (H (Z.of_nat k)). rewrite Nat2Z.id in H. apply H. lia.
Qed.

Lemma expand_step_agree w W i : (4 ≤ i < 44)%nat →
  aes_key w → key_agree w W i →
  aes_key (aes128_expand_step w i) ∧
  key_agree (aes128_expand_step w i) (Fips197.key_step W i) (S i).
Proof.
  intros Hi [Hw Hwl] [HWl HW]. unfold aes128_expand_step, Fips197.key_step.
  assert (Hu : ∀ j, (j < 44)%nat → is_u32 (w !!! j))
    by (intros; apply Forall_lookup_total; [done|lia]).
  set (temp := if (i mod 4 =? 0)%nat then Z.lxor _ _ else _).
  set (Temp := if (i mod 4 =? 0)%nat then xor_bytes _ _ else _).
  assert (Ht : u32_to_be_bytes temp = Temp ∧ is_u32 temp).
  { subst temp Temp. rewrite <- HW by lia.
    destruct (i mod 4 =? 0)%nat; [|split; [done|apply Hu; lia]].
    destruct (rot_word_bytes (w !!! (i - 1)%nat)) as [<- Hr]; [apply Hu; lia|].
    destruct (sub_word_bytes _ Hr) as [<- Hs].
    destruct (rcon_bytes (i / 4 - 1)) as [<- Hc].
    { assert (i / 4 < 11)%nat by (apply Nat.Div0.div_lt_upper_bound; lia). lia. }
    rewrite be_bytes_lxor. split; [done|]. apply lxor_range; [lia|done..]. }
  destruct Ht as [Ht1 Ht2]. split; [split|split].
  - apply Forall_insert; [done|]. apply lxor_range; [lia|apply Hu; lia|done].
  - by rewrite length_insert.
  - rewrite length_app, HWl. simpl. lia.
  - intros j Hj. destruct (decide (j = i)) as [->|Hne].
    + rewrite list_lookup_total_insert_eq, be_bytes_lxor by lia. rewrite HW, Ht1 by lia.
      rewrite lookup_total_app_r, HWl, Nat.sub_diag by lia. done.
    + rewrite list_lookup_total_insert_ne by done. rewrite lookup_total_app_l by lia.
      apply HW. lia.
Qed.

Lemma expand_key_agree key : bytes key → length key = 16%nat →
  aes_key (aes128_expand_key key) ∧
  key_agree (aes128_expand_key key) (Fips197.key_expansion key) 44.
Proof.
  intros Hk Hl. unfold aes128_expand_key, Fips197.key_expansion. cbv zeta.
  set (w := list_inserts 0 _ _). set (W := _ <$> seq 0 4).
  assert (H : ∀ k i w W, (i + k = 44)%nat → (4 ≤ i)%nat → aes_key w → key_agree w W i →
    aes_key (foldl aes128_expand_step w (seq i k)) ∧
    key_agree (foldl aes128_expand_step w (seq i k)) (foldl Fips197.key_step W (seq i k)) 44).
  { clear. induction k as [|k IH]; intros i w W Hik Hi Hw HW; cbn [seq foldl].
    { replace i with 44%nat in HW by lia. done. }
    destruct (expand_step_agree w W i) as [? ?]; [lia|done..|]. apply IH; (lia || done). }
  apply H; [lia|lia|..]; subst w W; clear H; split16 key.
  - split; [|done]. cbn [fmap list_fmap seq Nat.mul Nat.add lookup_total list_lookup_total].
    apply Forall_list_inserts.
    + repeat (apply Forall_cons_2; [by apply quad_word|]). apply Forall_nil_2.
    + apply Forall_replicate. unfold in_width; lia.
  - split; [done|].
    cbn [fmap list_fmap seq Nat.mul Nat.add lookup_total list_lookup_total].
    intros i Hi. destruct i as [|[|[|[|i]]]]; [apply quad_bytes; assumption..|lia].
Qed.

(** C20: [aes128_encrypt_block] with the round keys of [aes128_expand_key] is the
    FIPS 197 cipher: for every 16-byte key and block the word-based code (with its
    S-box table, fused SubBytes/ShiftRows and [xtime] closure) returns what the
    byte-matrix cipher over GF(2^8), with the S-box computed from the inverse and
    the affine map, returns. *)
Theorem aes128_is_fips197 (key block : list Z) :
  bytes key → length key = 16%nat → bytes block → length block = 16%nat →
  aes128_encrypt_block (aes128_expand_key key) block
  = Fips197.cipher (Fips197.key_expansion key) block.
Proof.
  intros Hk Hkl Hb Hl. destruct (expand_key_agree key Hk Hkl) as [Hw HW].
  by apply aes128_encrypt_block_bytes.
Qed.

Lemma aes128_is_fips197_witness :
  aes128_encrypt_block (aes128_expand_key (replicate 16 0x2b)) (replicate 16 0x32)
  = Fips197.cipher (Fips197.key_expansion (replicate 16 0x2b)) (replicate 16 0x32).
Proof.
  apply aes128_is_fips197; try reflexivity; apply Forall_replicate; unfold in_width; lia.
Defined.

(** What the users of the block cipher rely on. *)
Lemma length_aes128_encrypt_block w block : length (aes128_encrypt_block w block) = 16%nat.
Proof.
  unfold aes128_encrypt_block. cbv zeta. cbn [seq]. rewrite !bind_cons.
  by rewrite !length_app, !length_be_bytes.
Qed.

Lemma aes128_encrypt_block_u8 w block : bytes (aes128_encrypt_block w block).
Proof.
  unfold aes128_encrypt_block. cbv zeta. cbn [seq]. rewrite !bind_cons.
  repeat (apply Forall_app_2; [auto with gutd|]). apply Forall_nil_2.
Qed.

#[export] Hint Rewrite length_aes128_encrypt_block : gutd_len.
#[export] Hint Resolve aes128_encrypt_block_u8 : gutd.
