(* ===== verification/Gcm.v ===== *)
(** * crypto.rs: GHASH and AES-128-GCM

    The GF(2^128) product works on bytes and is proved equal to the integer
    algorithm of NIST SP 800-38D; the AEAD is proved equal to the
    counter-mode and GHASH construction over it. *)

From S2P Require Import Prelude Words Slices Hkdf Aes.
Local Open Scope Z_scope.

(** ** GF(2^128) and GHASH *)

(** [for j in 0..16 { z[j] ^= v[j] }] *)
Definition xor_block (z v : list Z) : list Z := zip_with Z.lxor z v.

(** [v >>= 1] across the sixteen bytes, highest index first, and the
    conditional reduction. *)
Definition gf_shift (v : list Z) : list Z :=
  let carry := Z.land (v !!! 15%nat) 1 in
  let v := foldl (λ v j, <[j := Z.lor (shr (v !!! j) 1) (shl 8 (v !!! (j - 1)%nat) 7)]> v)
             v (rev (seq 1 15)) in
  let v := <[0%nat := shr (v !!! 0%nat) 1]> v in
  if carry =? 1 then <[0%nat := Z.lxor (v !!! 0%nat) 0xE1]> v else v.

Definition gf128_step (x : list Z) (zv : list Z * list Z) (i : nat) : list Z * list Z :=
  let '(z, v) := zv in
  let z := if Z.land (shr (x !!! (i / 8)%nat) (Z.of_nat (7 - i mod 8))) 1 =? 1
           then xor_block z v else z in
  (z, gf_shift v).

Definition gf128_mul (x y : list Z) : list Z :=
  (foldl (gf128_step x) (replicate 16 0, y) (seq 0 128)).1.

(** The loop over the zero-padded 16-byte blocks of the AAD or ciphertext. *)
Definition ghash_step (h data : list Z) (i : nat) (x : list Z) : outcome (list Z) :=
  let start := (i * 16)%nat in
  let end_ := Nat.min (start + 16) (length data) in
  src ← slice data start end_;
  block ← copy_from_slice (replicate 16 0) 0 (end_ - start) src;
  Done (gf128_mul (xor_block x block) h).

Definition ghash (h aad ct : list Z) : outcome (list Z) :=
  x ← for_range 0 (div_ceil (length aad) 16) (ghash_step h aad) (replicate 16 0);
  x ← for_range 0 (div_ceil (length ct) 16) (ghash_step h ct) x;
  let len_block := u64_to_be_bytes (wrapping_mul 64 (Z.of_nat (length aad)) 8)
                     ++ u64_to_be_bytes (wrapping_mul 64 (Z.of_nat (length ct)) 8) in
  Done (gf128_mul (xor_block x len_block) h).

(** ** AES-128-GCM *)

(** One counter block: [ciphertext[j] = plaintext[j] ^ ks[j - start]]. *)
Definition gcm_ctr_step (rk nonce plaintext : list Z) (i : nat) (ciphertext : list Z)
    : outcome (list Z) :=
  let counter := u32_to_be_bytes (wrapping_add 32 (as_u32 (Z.of_nat i)) 2) in
  ctr_block ← copy_from_slice (replicate 16 0) 0 12 nonce;
  ctr_block ← copy_from_slice ctr_block 12 16 counter;
  let ks := aes128_encrypt_block rk ctr_block in
  let start := (i * 16)%nat in
  let end_ := Nat.min (start + 16) (length plaintext) in
  for_range start (end_ - start)
    (λ j c, p ← get plaintext j; k ← get ks (j - start); put c j (Z.lxor p k)) ciphertext.

Definition aes128_gcm_encrypt (rk nonce aad plaintext ciphertext : list Z)
    : outcome (list Z * list Z) :=
  _ ← assert_ (length ciphertext =? length plaintext)%nat;
  let h := aes128_encrypt_block rk (replicate 16 0) in
  j0 ← copy_from_slice (replicate 16 0) 0 12 nonce;
  j0 ← put j0 15 1;
  ciphertext ← for_range 0 (div_ceil (length plaintext) 16)
                 (gcm_ctr_step rk nonce plaintext) ciphertext;
  ghash_result ← ghash h aad ciphertext;
  let enc_j0 := aes128_encrypt_block rk j0 in
  Done (ciphertext, xor_block enc_j0 ghash_result).

(** The GCM specification, test case 2. *)
Example gcm_test_case_2 :
  aes128_gcm_encrypt (aes128_expand_key (replicate 16 0)) (replicate 12 0) [] (replicate 16 0)
    (replicate 16 0)
  = Done ([0x03; 0x88; 0xda; 0xce; 0x60; 0xb6; 0xa3; 0x92; 0xf3; 0x28; 0xc2; 0xb9; 0x71; 0xb2; 0xfe; 0x78],
          [0xab; 0x6e; 0x47; 0xd4; 0x2c; 0xec; 0x13; 0xbd; 0xf5; 0x3a; 0x67; 0xb2; 0x12; 0x57; 0xbd; 0xdf]).
Proof. vm_compute. reflexivity. Qed.


(** ** NIST SP 800-38D reference *)

Module Sp800_38d.

Definition R : Z := Z.shiftl 0xE1 120.

(** Algorithm 1: [X . Y] on 128-bit integers, most significant bit first. *)
Definition mul_step (x : Z) (zv : Z * Z) (i : nat) : Z * Z :=
  let '(z, v) := zv in
  (if Z.testbit x (127 - Z.of_nat i) then Z.lxor z v else z,
   if Z.odd v then Z.lxor (v / 2) R else v / 2).

Definition mul (x y : Z) : Z := (foldl (mul_step x) (0, y) (seq 0 128)).1.

(** Zero padding to whole blocks. *)
Definition pad16 (d : list Z) : list Z := d ++ replicate (16 * div_ceil (length d) 16 - length d) 0.

(** Algorithm 2: GHASH over the blocks of [d], as integers. *)
Fixpoint ghash_blocks (n : nat) (h y : Z) (d : list Z) : Z :=
  match n with
  | O => y
  | S n => ghash_blocks n h (mul (Z.lxor y (from_be (take 16 d))) h) (drop 16 d)
  end.

Definition len64 (d : list Z) : list Z := u64_to_be_bytes (8 * Z.of_nat (length d)).

Definition ghash (h : Z) (a c : list Z) : Z :=
  let d := pad16 a ++ pad16 c ++ len64 a ++ len64 c in
  ghash_blocks (length d / 16) h 0 d.

(** Counter mode: the blocks [nonce || i + 2]. *)
Fixpoint ctr_stream (rk nonce : list Z) (i n : nat) : list Z :=
  match n with
  | O => []
  | S n => aes128_encrypt_block rk (nonce ++ u32_to_be_bytes (Z.of_nat i + 2))
             ++ ctr_stream rk nonce (S i) n
  end.

(** Algorithm 4: ciphertext and tag. *)
Definition encrypt (rk nonce aad p : list Z) : list Z * list Z :=
  let h := from_be (aes128_encrypt_block rk (replicate 16 0)) in
  let c := xor_bytes p (ctr_stream rk nonce 0 (div_ceil (length p) 16)) in
  let s := be_bytes 16 (ghash h aad c) in
  (c, xor_bytes (aes128_encrypt_block rk (nonce ++ [0; 0; 0; 1])) s).

End Sp800_38d.

(** ** The product *)

Definition block16 (l : list Z) : Prop := bytes l ∧ length l = 16%nat.

Lemma xor_block_wf a b : block16 a → block16 b → block16 (xor_block a b).
Proof.
  intros [??] [??]. split; [by apply xor_bytes_bytes|].
  unfold xor_block. rewrite length_zip_with. lia.
Qed.

Lemma from_be_xor_block a b : block16 a → block16 b →
  from_be (xor_block a b) = Z.lxor (from_be a) (from_be b).
Proof. intros [??] [??]. apply from_be_lxor; [done..|lia]. Qed.

(** The shift loop runs from the last byte down, so each byte still sees the
    unshifted byte before it. *)
Lemma gf_shift_loop v n : length v = 16%nat → (n ≤ 15)%nat →
  let w := foldl (λ v j, <[j := Z.lor (shr (v !!! j) 1) (shl 8 (v !!! (j - 1)%nat) 7)]> v)
             v (rev (seq (16 - n) n)) in
  length w = 16%nat ∧ ∀ i, w !!! i =
    if (16 - n <=? i)%nat && (i <? 16)%nat
    then Z.lor (shr (v !!! i) 1) (shl 8 (v !!! (i - 1)%nat) 7) else v !!! i.
Proof.
  intros Hl. induction n as [|n IH]; intros Hn w.
  { split; [done|]. intros i. destruct (Nat.leb_spec (16 - 0) i), (Nat.ltb_spec i 16);
      simpl; done || lia. }
  subst w. cbn [seq rev]. rewrite foldl_app. cbn [foldl].
  replace (S (16 - S n)) with (16 - n)%nat by lia.
  destruct IH as [IHl IH]; [lia|]. set (w := foldl _ v _) in *.
  split; [by rewrite length_insert|]. intros i.
  destruct (decide (i = 16 - S n)%nat) as [->|Hne].
  - rewrite list_lookup_total_insert_eq by lia. rewrite !IH.
    repeat case_bool; simpl; done || lia.
  - rewrite list_lookup_total_insert_ne by done. rewrite IH.
    repeat case_bool; simpl; done || lia.
Qed.

Lemma gf_shift_shr1 v : block16 v →
  gf_shift v = if Z.land (v !!! 15%nat) 1 =? 1
               then xor_block (shr1_bytes 0 v) (0xE1 :: replicate 15 0) else shr1_bytes 0 v.
Proof.
  intros [Hb Hl]. unfold gf_shift. cbv zeta.
  destruct (gf_shift_loop v 15 Hl ltac:(lia)) as [Hwl Hw].
  change (16 - 15)%nat with 1%nat in *. set (w := foldl _ v _) in *.
  assert (H : <[0%nat := shr (w !!! 0%nat) 1]> w = shr1_bytes 0 v).
  { apply list_eq_total; [by rewrite length_insert, length_shr1_bytes; lia|].
    rewrite length_insert. intros i Hi. rewrite lookup_shr1_bytes by lia.
    destruct i as [|i].
    - rewrite list_lookup_total_insert_eq by lia. rewrite Hw. simpl.
      unfold shl. rewrite Z.shiftl_0_l. by rewrite Z.lor_0_r.
    - rewrite list_lookup_total_insert_ne, Hw by lia.
      repeat case_bool; simpl; done || lia. }
  rewrite H. case_bool; [|done].
  pose proof (length_shr1_bytes 0 v) as Hsl.
  apply list_eq_total; [unfold xor_block; rewrite length_insert, length_zip_with; simpl; lia|].
  rewrite length_insert. intros i Hi. unfold xor_block.
  destruct (shr1_bytes 0 v) as [|b l]; [simpl in Hsl; lia|]. cbn [zip_with].
  destruct i as [|i]; [done|]. cbn [insert list_insert lookup_total list_lookup_total].
  assert (Hz : zip_with Z.lxor l (replicate 15 0) = l); [|by rewrite Hz].
  rewrite zip_with_replicate_r_eq by (simpl in Hsl; lia).
  rewrite <- (list_fmap_id l) at 2. apply list_fmap_ext. intros ???. apply Z.lxor_0_r.
Qed.

Lemma land_1_odd b : (Z.land b 1 =? 1) = Z.odd b.
Proof.
  change 1 with (2 ^ 1 - 1) at 1. rewrite land_ones_mod by lia. change (2 ^ 1) with 2.
  rewrite Zmod_odd. by destruct (Z.odd b).
Qed.

Lemma from_be_odd v : block16 v → Z.odd (from_be v) = Z.odd (v !!! 15%nat).
Proof.
  intros [Hb Hl]. rewrite <- !Z.bit0_odd.
  pose proof (from_be_testbit v 127 Hb ltac:(lia)) as H. by rewrite Hl in H.
Qed.

(** One shift step, on integers. *)
Lemma gf_shift_spec v : block16 v →
  block16 (gf_shift v) ∧
  from_be (gf_shift v)
  = if Z.odd (from_be v) then Z.lxor (from_be v / 2) Sp800_38d.R else from_be v / 2.
Proof.
  intros Hv. destruct Hv as [Hb Hl] eqn:Hv'. clear Hv'.
  assert (Hs : block16 (shr1_bytes 0 v)).
  { split; [apply shr1_bytes_bytes; [done|lia]|by rewrite length_shr1_bytes]. }
  assert (He : block16 (0xE1 :: replicate 15 0)).
  { split; [|done]. simpl. forall_list. }
  pose proof (from_be_shr1 0 v Hb ltac:(lia)) as Hsh.
  rewrite Z.mul_0_l, Z.add_0_r in Hsh.
  rewrite gf_shift_shr1, land_1_odd, <- from_be_odd by done.
  destruct (Z.odd (from_be v)); split; [by apply xor_block_wf| |done|done].
  rewrite from_be_xor_block, Hsh by done. done.
Qed.

Lemma x_bit x i : block16 x → (i < 128)%nat →
  (Z.land (shr (x !!! (i / 8)%nat) (Z.of_nat (7 - i mod 8))) 1 =? 1)
  = Z.testbit (from_be x) (127 - Z.of_nat i).
Proof.
  intros [Hb Hl] Hi. rewrite land_1_odd, <- Z.bit0_odd. unfold shr.
  rewrite Z.shiftr_spec by lia. cbn [Z.add].
  rewrite <- from_be_testbit by (done || lia). by rewrite Hl.
Qed.

(** The byte-wise product is the integer product. *)
Lemma gf128_mul_spec x y : block16 x → block16 y →
  block16 (gf128_mul x y) ∧ from_be (gf128_mul x y) = Sp800_38d.mul (from_be x) (from_be y).
Proof.
  intros Hx Hy. unfold gf128_mul, Sp800_38d.mul.
  assert (H : ∀ n i z v, (i + n ≤ 128)%nat → block16 z → block16 v →
    let r := foldl (gf128_step x) (z, v) (seq i n) in
    block16 r.1 ∧ block16 r.2 ∧
    (from_be r.1, from_be r.2)
    = foldl (Sp800_38d.mul_step (from_be x)) (from_be z, from_be v) (seq i n)).
  { induction n as [|n IH]; intros i z v Hin Hz Hv; [done|].
    cbn [seq foldl gf128_step Sp800_38d.mul_step]. rewrite x_bit by (done || lia).
    destruct (gf_shift_spec v Hv) as [Hg Hg']. rewrite <- Hg'.
    destruct (Z.testbit (from_be x) (127 - Z.of_nat i)).
    - rewrite <- from_be_xor_block by done. apply IH; [lia|by apply xor_block_wf|done].
    - apply IH; [lia|done..]. }
  assert (H0 : block16 (replicate 16 0)).
  { split; [|done]. apply Forall_replicate. unfold in_width. lia. }
  destruct (H 128%nat 0%nat (replicate 16 0) y ltac:(lia) H0 Hy) as (H1 & _ & H2).
  change (from_be (replicate 16 0)) with 0 in H2. 
  destruct (foldl (gf128_step x) _ _) as [rz rv]. cbn [fst] in H1, H2 |- *.
  split; [exact H1|]. rewrite <- H2. reflexivity.
Qed.

(** ** GHASH *)

Lemma pad16_window d i : (i < div_ceil (length d) 16)%nat →
  let e := Nat.min (i * 16 + 16) (length d) in
  take (16) (drop (16 * i) (Sp800_38d.pad16 d))
  = list_inserts 0 (window (i * 16) (e - i * 16) d) (replicate 16 0).
Proof.
  intros Hi e. pose proof (div_ceil_bounds (length d) 16 ltac:(lia)) as [H1 H2].
  assert (Hw : length (window (i * 16) (e - i * 16) d) = (e - i * 16)%nat)
    by (apply length_window; lia).
  rewrite list_inserts_app by (rewrite Hw, length_replicate; lia).
  rewrite Hw, take_0, app_nil_l, drop_replicate. cbn [Nat.add].
  unfold Sp800_38d.pad16, window. rewrite drop_app_le by lia.
  replace (16 * i)%nat with (i * 16)%nat by lia.
  destruct (decide (i * 16 + 16 ≤ length d)%nat).
  - rewrite take_app_le by len. replace (e - i * 16)%nat with 16%nat by lia.
    by rewrite app_nil_r.
  - rewrite take_app_ge by len. rewrite (take_ge (drop _ d) (e - _)) by len. f_equal.
    rewrite take_replicate, length_drop. f_equal. lia.
Qed.

Lemma ghash_step_Done h d i x : (i < div_ceil (length d) 16)%nat →
  ghash_step h d i x
  = Done (gf128_mul (xor_block x (take 16 (drop (16 * i) (Sp800_38d.pad16 d)))) h).
Proof.
  intros Hi. pose proof (div_ceil_bounds (length d) 16 ltac:(lia)) as [H1 H2].
  unfold ghash_step. rewrite slice_Done, bind_Done by lia.
  rewrite copy_from_slice_Done, bind_Done.
  - by rewrite <- pad16_window.
  - rewrite length_window; lia.
  - rewrite length_replicate. lia.
Qed.

(** The padded-block loop is GHASH over the padded data. *)
Lemma ghash_loop h d x : block16 h → block16 x → bytes d →
  ∃ x', for_range 0 (div_ceil (length d) 16) (ghash_step h d) x = Done x' ∧ block16 x' ∧
    ∀ rest n, Sp800_38d.ghash_blocks (div_ceil (length d) 16 + n) (from_be h) (from_be x)
                (Sp800_38d.pad16 d ++ rest)
              = Sp800_38d.ghash_blocks n (from_be h) (from_be x') rest.
Proof.
  intros Hh Hx Hd. pose proof (div_ceil_bounds (length d) 16 ltac:(lia)) as [H1 H2].
  set (m := div_ceil (length d) 16) in *.
  assert (Hp : length (Sp800_38d.pad16 d) = (16 * m)%nat)
    by (unfold Sp800_38d.pad16; fold m; len).
  assert (H : ∀ k i x, (i + k = m)%nat → block16 x →
    ∃ x', for_range i k (ghash_step h d) x = Done x' ∧ block16 x' ∧
    ∀ rest n, Sp800_38d.ghash_blocks (k + n) (from_be h) (from_be x)
                (drop (16 * i) (Sp800_38d.pad16 d) ++ rest)
              = Sp800_38d.ghash_blocks n (from_be h) (from_be x') rest).
  { clear x Hx. induction k as [|k IH]; intros i x Hik Hx; cbn [for_range].
    { exists x. split_and!; [done|done|]. intros rest n. rewrite drop_ge by lia. done. }
    rewrite ghash_step_Done, bind_Done by lia.
    set (blk := take 16 _).
    assert (Hblk : block16 blk).
    { subst blk. split; [|len]. apply Forall_take, Forall_drop, Forall_app_2; [done|].
      apply Forall_replicate. unfold in_width; lia. }
    destruct (gf128_mul_spec (xor_block x blk) h) as [Hg Hg']; [by apply xor_block_wf|done|].
    destruct (IH (S i) (gf128_mul (xor_block x blk) h)) as (x' & -> & Hx' & Hrest); [lia|done|].
    exists x'. split_and!; [done..|]. intros rest n. rewrite <- Hrest.
    cbn [Nat.add Sp800_38d.ghash_blocks].
    rewrite take_app_le, drop_app_le, drop_drop by len. fold blk.
    rewrite Hg', from_be_xor_block by done. do 3 f_equal. lia. }
  destruct (H m 0%nat x) as (x' & -> & Hx' & Hr); [lia|done|]. exists x'. done.
Qed.

Lemma u64_len_bits d : u64_to_be_bytes (wrapping_mul 64 (Z.of_nat (length d)) 8)
  = Sp800_38d.len64 d.
Proof.
  apply be_bytes_ext. unfold wrapping_mul, wrap. change (8 * Z.of_nat 8) with 64.
  rewrite Z.mod_mod by lia. f_equal. lia.
Qed.

Lemma ghash_Done h a c : block16 h → bytes a → bytes c →
  ∃ x, ghash h a c = Done x ∧ block16 x ∧ from_be x = Sp800_38d.ghash (from_be h) a c.
Proof.
  intros Hh Ha Hc. unfold ghash, Sp800_38d.ghash.
  assert (H0 : block16 (replicate 16 0)).
  { split; [|done]. apply Forall_replicate. unfold in_width. lia. }
  destruct (ghash_loop h a _ Hh H0 Ha) as (x1 & -> & Hx1 & Hr1). rewrite bind_Done.
  destruct (ghash_loop h c x1 Hh Hx1 Hc) as (x2 & -> & Hx2 & Hr2). rewrite bind_Done.
  rewrite !u64_len_bits. set (lb := Sp800_38d.len64 a ++ Sp800_38d.len64 c).
  assert (Hlb : block16 lb).
  { subst lb. unfold Sp800_38d.len64. split; [apply Forall_app_2; auto with gutd|].
    by rewrite length_app, !length_be_bytes. }
  destruct (gf128_mul_spec (xor_block x2 lb) h) as [Hg Hg']; [by apply xor_block_wf|done|].
  eexists. split_and!; [done|done|]. rewrite Hg', from_be_xor_block by done.
  set (na := div_ceil (length a) 16) in *. set (nc := div_ceil (length c) 16) in *.
  pose proof (div_ceil_bounds (length a) 16 ltac:(lia)).
  pose proof (div_ceil_bounds (length c) 16 ltac:(lia)).
  replace (length (Sp800_38d.pad16 a ++ Sp800_38d.pad16 c ++ lb) / 16)%nat
    with (na + (nc + 1))%nat.
  2: { apply (Nat.div_unique _ _ _ 0); [lia|]. destruct Hlb as [_ Hlb].
       unfold Sp800_38d.pad16. fold na nc. len. }
  change 0 with (from_be (replicate 16 0)) at 1. rewrite Hr1, Hr2.
  cbn [Sp800_38d.ghash_blocks]. destruct Hlb as [_ Hlb]. by rewrite take_ge by lia.
Qed.

(** ** Counter mode *)

Lemma counter_bytes i : u32_to_be_bytes (wrapping_add 32 (as_u32 (Z.of_nat i)) 2)
  = u32_to_be_bytes (Z.of_nat i + 2).
Proof.
  apply be_bytes_ext. unfold wrapping_add, wrap. change (8 * Z.of_nat 4) with 32.
  by rewrite Z.mod_mod, Z.add_mod_idemp_l by lia.
Qed.

Lemma length_ctr_stream rk nonce i n :
  length (Sp800_38d.ctr_stream rk nonce i n) = (16 * n)%nat.
Proof.
  revert i. induction n as [|n IH]; intros i; [done|]. cbn [Sp800_38d.ctr_stream].
  rewrite length_app, IH, length_aes128_encrypt_block. lia.
Qed.

Lemma ctr_stream_bytes rk nonce i n : bytes (Sp800_38d.ctr_stream rk nonce i n).
Proof.
  revert i. induction n as [|n IH]; intros i; cbn [Sp800_38d.ctr_stream]; [constructor|].
  apply Forall_app_2; auto with gutd.
Qed.

Lemma lookup_ctr_stream rk nonce i n j k : (j < n)%nat → (k < 16)%nat →
  Sp800_38d.ctr_stream rk nonce i n !!! (16 * j + k)%nat
  = aes128_encrypt_block rk (nonce ++ u32_to_be_bytes (Z.of_nat (i + j) + 2)) !!! k.
Proof.
  revert i j. induction n as [|n IH]; intros i j Hj Hk; [lia|]. cbn [Sp800_38d.ctr_stream].
  destruct j as [|j].
  - rewrite lookup_total_app_l by len. by rewrite Nat.add_0_r.
  - rewrite lookup_total_app_r by len. rewrite length_aes128_encrypt_block.
    replace (16 * S j + k - 16)%nat with (16 * j + k)%nat by lia.
    rewrite IH by lia. by replace (S i + j)%nat with (i + S j)%nat by lia.
Qed.

(** One block of counter mode writes its window of the XOR. *)
Lemma gcm_ctr_step_Done rk nonce p i c : length nonce = 12%nat →
  (i < div_ceil (length p) 16)%nat → length c = length p →
  let X := xor_bytes p (Sp800_38d.ctr_stream rk nonce 0 (div_ceil (length p) 16)) in
  let n := (Nat.min (i * 16 + 16) (length p) - i * 16)%nat in
  gcm_ctr_step rk nonce p i c = Done (list_inserts (i * 16) (window (i * 16) n X) c).
Proof.
  intros Hn Hi Hc X n. pose proof (div_ceil_bounds (length p) 16 ltac:(lia)) as [H1 H2].
  unfold gcm_ctr_step. rewrite counter_bytes.
  rewrite copy_from_slice_Done, bind_Done by (rewrite ?length_replicate; lia).
  rewrite copy_from_slice_Done, bind_Done by len.
  set (ctr := list_inserts 12 _ _).
  assert (Hctr : ctr = nonce ++ u32_to_be_bytes (Z.of_nat i + 2)).
  { subst ctr. rewrite list_inserts_app by len. rewrite length_be_bytes.
    rewrite list_inserts_app by len. rewrite take_0, Hn, app_nil_l.
    rewrite (take_app_length' nonce) by lia.
    rewrite drop_ge by (rewrite length_app, length_drop, length_replicate; lia).
    by rewrite app_nil_r. }
  rewrite Hctr. fold n.
  set (ks := aes128_encrypt_block rk _).
  rewrite (for_range_ext _ (λ j c, put c (0 + j) (Z.lxor (p !!! j) (ks !!! (j - i * 16)%nat)))).
  2: { intros j c' Hj. rewrite (get_total p), bind_Done by lia.
       rewrite (get_total ks), bind_Done by (subst ks; len). done. }
  rewrite for_range_put by lia. do 2 f_equal. apply list_eq_total.
  { rewrite length_fmap, length_seq, length_window; [done|].
    subst X. rewrite length_xor_bytes, length_ctr_stream. lia. }
  rewrite length_fmap, length_seq. intros k Hk.
  rewrite (list_lookup_total_fmap (A := nat) (B := Z) _ (seq (i * 16) n) k) by len.
  rewrite lookup_total_seq_lt by done.
  unfold window. rewrite lookup_total_take_lt by done. rewrite lookup_total_drop.
  subst X. unfold xor_bytes.
  rewrite (list_lookup_total_alt (zip_with _ _ _)), lookup_zip_with.
  rewrite !list_lookup_lookup_total_lt by (rewrite ?length_ctr_stream; lia). simpl.
  f_equal. replace (i * 16 + k)%nat with (16 * i + k)%nat by lia.
  rewrite lookup_ctr_stream by lia. subst ks.
  by replace (16 * i + k - i * 16)%nat with k by lia.
Qed.

(** The whole counter-mode loop. *)
Lemma gcm_ctr_Done rk nonce p c : length nonce = 12%nat → length c = length p →
  for_range 0 (div_ceil (length p) 16) (gcm_ctr_step rk nonce p) c
  = Done (xor_bytes p (Sp800_38d.ctr_stream rk nonce 0 (div_ceil (length p) 16))).
Proof.
  intros Hn Hc. pose proof (div_ceil_bounds (length p) 16 ltac:(lia)) as [H1 H2].
  set (m := div_ceil (length p) 16) in *.
  set (X := xor_bytes p _).
  assert (HX : length X = length p) by (subst X; rewrite length_xor_bytes, length_ctr_stream; lia).
  assert (H : ∀ k i c, (i + k = m)%nat → length c = length p →
    (∀ j, (j < i * 16)%nat → c !! j = X !! j) →
    for_range i k (gcm_ctr_step rk nonce p) c = Done X).
  { clear c Hc. induction k as [|k IH]; intros i c Hik Hc Hj; cbn [for_range].
    { f_equal. apply list_eq_lookup; [lia|]. intros j Hlt. apply Hj. lia. }
    rewrite gcm_ctr_step_Done, bind_Done by (fold m; (done || lia)). fold m X.
    set (n := (_ - _)%nat).
    assert (Hw : length (window (i * 16) n X) = n) by (apply length_window; lia).
    apply IH; [lia|by rewrite length_inserts|]. intros j Hlt.
    rewrite lookup_list_inserts by lia. rewrite Hw. case_decide.
    - rewrite lookup_window, decide_True by lia. f_equal. lia.
    - destruct (decide (j < i * 16)%nat); [by apply Hj|].
      rewrite !lookup_ge_None_2 by lia. done. }
  apply H; [lia|done|lia].
Qed.

Lemma gcm_encrypt_Done rk nonce aad p c :
  bytes aad → bytes p → length nonce = 12%nat → length c = length p →
  aes128_gcm_encrypt rk nonce aad p c = Done (Sp800_38d.encrypt rk nonce aad p).
Proof.
  intros Ha Hp Hn Hc. unfold aes128_gcm_encrypt, Sp800_38d.encrypt, assert_.
  rewrite (proj2 (Nat.eqb_eq _ _) Hc), bind_Done. cbv zeta.
  rewrite copy_from_slice_Done, bind_Done by (rewrite ?length_replicate; lia).
  rewrite put_Done, bind_Done by len.
  rewrite gcm_ctr_Done, bind_Done by done.
  set (h := aes128_encrypt_block rk (replicate 16 0)).
  set (X := xor_bytes p _).
  assert (HX : bytes X).
  { apply xor_bytes_bytes; [done|apply ctr_stream_bytes]. }
  destruct (ghash_Done h aad X) as (x & -> & [Hx Hxl] & Hxs); [|done..|].
  { subst h. split; [auto with gutd|len]. }
  rewrite bind_Done, <- Hxs.
  assert (be_bytes 16 (from_be x) = x) as -> by (rewrite <- Hxl; by apply be_bytes_from_be).
  assert (Hj0 : <[15%nat := 1]> (list_inserts 0 nonce (replicate 16 0)) = nonce ++ [0; 0; 0; 1]).
  { rewrite list_inserts_app by len. rewrite take_0, app_nil_l, drop_replicate, Hn.
    rewrite insert_app_r_alt by lia. by rewrite Hn. }
  by rewrite Hj0.
Qed.

(** Totality and lengths, whatever the values in the buffers. *)
Lemma length_gf_shift v : length (gf_shift v) = length v.
Proof.
  unfold gf_shift. cbv zeta.
  assert (H : ∀ l (w : list Z), length (foldl (λ v j, <[j := Z.lor (shr (v !!! j) 1)
      (shl 8 (v !!! (j - 1)%nat) 7)]> v) w l) = length w).
  { induction l as [|j l IH]; intros w; [done|]. cbn [foldl]. by rewrite IH, length_insert. }
  case_bool; by rewrite !length_insert, H.
Qed.

Lemma length_gf128_mul x y : length y = 16%nat → length (gf128_mul x y) = 16%nat.
Proof.
  intros Hy. unfold gf128_mul.
  assert (H : ∀ l z v, length z = 16%nat → length v = 16%nat →
    length (foldl (gf128_step x) (z, v) l).1 = 16%nat).
  { induction l as [|i l IH]; intros z v Hz Hv; [done|]. cbn [foldl gf128_step].
    apply IH; [|by rewrite length_gf_shift]. case_bool; [|done].
    unfold xor_block. rewrite length_zip_with. lia. }
  by apply H.
Qed.

Lemma ghash_loop_total h d x : ∃ x',
  for_range 0 (div_ceil (length d) 16) (ghash_step h d) x = Done x'.
Proof.
  set (m := div_ceil (length d) 16).
  assert (H : ∀ k i x, (i + k = m)%nat → ∃ x', for_range i k (ghash_step h d) x = Done x').
  { clear x. induction k as [|k IH]; intros i x Hik; cbn [for_range]; [by eexists|].
    rewrite ghash_step_Done, bind_Done by (fold m; lia). apply IH. lia. }
  by apply H.
Qed.

Lemma gcm_encrypt_total rk nonce aad p c :
  length nonce = 12%nat → length c = length p →
  ∃ ct tag, aes128_gcm_encrypt rk nonce aad p c = Done (ct, tag) ∧
            length ct = length p ∧ length tag = 16%nat.
Proof.
  intros Hn Hc. unfold aes128_gcm_encrypt, assert_.
  rewrite (proj2 (Nat.eqb_eq _ _) Hc), bind_Done. cbv zeta.
  rewrite copy_from_slice_Done, bind_Done by (rewrite ?length_replicate; lia).
  rewrite put_Done, bind_Done by len. rewrite gcm_ctr_Done, bind_Done by done.
  unfold ghash. edestruct ghash_loop_total as [x1 ->]. rewrite bind_Done.
  edestruct ghash_loop_total as [x2 ->]. rewrite !bind_Done.
  eexists _, _. split_and!; [done| |].
  - rewrite length_xor_bytes, length_ctr_stream.
    pose proof (div_ceil_bounds (length p) 16). lia.
  - unfold xor_block at 1. rewrite length_zip_with, length_gf128_mul by len. len.
Qed.

(** C19: [aes128_gcm_encrypt] is NIST SP 800-38D authenticated encryption: for
    every key schedule, 12-byte nonce, associated data, plaintext and ciphertext
    buffer of the plaintext's length it returns without panicking the
    counter-mode ciphertext and the GHASH tag of the standard (with the GF(2^128)
    product on 128-bit integers), and running it on the ciphertext with the same
    key and nonce recovers the plaintext. *)
Theorem gcm_encrypt_correct (rk nonce aad p c : list Z) :
  bytes aad → bytes p → length nonce = 12%nat → length c = length p →
  ∃ ct tag, aes128_gcm_encrypt rk nonce aad p c = Done (ct, tag) ∧
    (ct, tag) = Sp800_38d.encrypt rk nonce aad p ∧ length ct = length p ∧ length tag = 16%nat ∧
    ∃ tag', aes128_gcm_encrypt rk nonce aad ct c = Done (p, tag').
Proof.
  intros Ha Hp Hn Hc. set (st := Sp800_38d.ctr_stream rk nonce 0 (div_ceil (length p) 16)).
  assert (Hst : (length p ≤ length st)%nat).
  { subst st. rewrite length_ctr_stream. apply div_ceil_bounds. lia. }
  assert (Hl : length (xor_bytes p st) = length p) by (rewrite length_xor_bytes; lia).
  assert (Hb : bytes (xor_bytes p st)).
  { apply xor_bytes_bytes; [done|apply ctr_stream_bytes]. }
  eexists _, _. split_and!; [by apply gcm_encrypt_Done|done|done| |].
  - unfold xor_bytes. by rewrite length_zip_with, length_be_bytes, length_aes128_encrypt_block.
  - fold st. rewrite gcm_encrypt_Done by (done || lia). unfold Sp800_38d.encrypt.
    rewrite Hl. fold st. rewrite xor_bytes_involutive by done. by eexists.
Qed.

Lemma gcm_encrypt_correct_witness :
  ∃ ct tag, aes128_gcm_encrypt (replicate 44 7) (replicate 12 9) [1; 2; 3] [4; 5] [0; 0] = Done (ct, tag) ∧
    (ct, tag) = Sp800_38d.encrypt (replicate 44 7) (replicate 12 9) [1; 2; 3] [4; 5] ∧
    length ct = length [4; 5] ∧ length tag = 16%nat ∧
    ∃ tag', aes128_gcm_encrypt (replicate 44 7) (replicate 12 9) [1; 2; 3] ct [0; 0]
            = Done ([4; 5], tag').
Proof.
  apply (gcm_encrypt_correct (replicate 44 7) (replicate 12 9) [1; 2; 3] [4; 5] [0; 0]);
    [forall_list|forall_list|reflexivity|reflexivity].
Defined.
