(* ===== verification/Obfs.v ===== *)
(** * userspace.rs: packet obfuscation

    [obfs_encap] turns a WireGuard datagram into an obfuscated one in place,
    [obfs_verify] recognises obfuscated datagrams and [obfs_decap] restores
    the original.  The buffers are lists of bytes with checked accesses; the
    system clock read by the long header is a parameter [t_ns]. *)

From S2P Require Import Prelude Words Slices ChaCha Feistel Hkdf Aes Gcm.
Local Open Scope Z_scope.

(** [enum ObfsMode] (config.rs) *)
Inductive ObfsMode := Quic | Gut | Syslog | Sip.

#[global] Instance ObfsMode_eq_dec : EqDecision ObfsMode.
Proof. solve_decision. Defined.

Definition is_quic (m : ObfsMode) : bool := bool_decide (m = Quic).

Definition GUT_QUIC_SHORT_HEADER_SIZE : nat := 16.
Definition GUT_HEADER_SIZE : nat := 10.
Definition GUT_QUIC_LONG_HEADER_SIZE : nat := 1200.

Definition wg_nonce32 (wg : list Z) : outcome Z :=
  if (length wg <? 32)%nat then Done 0
  else
    n0 ← read_u32_le wg 16 20;
    n1 ← read_u32_le wg 20 24;
    n2 ← read_u32_le wg 24 28;
    n3 ← read_u32_le wg 28 32;
    Done (Z.lxor (Z.lxor (Z.lxor n0 n1) n2) n3).

(** [xor16(&mut buf[off..off + 16], &k[klo..klo + 16])]: both slices are
    checked, then sixteen bytes are XORed in place. *)
Definition xor16 (buf : list Z) (off : nat) (k : list Z) (klo : nat) : outcome (list Z) :=
  _ ← slice buf off (off + 16);
  k ← slice k klo (klo + 16);
  xor_in_place off buf k 16.

(** [0x40 | ((pad_len as u8 - 1) & 0x3F)], or 0 *)
Definition pad_byte (pad_len : nat) : Z :=
  if (0 <? pad_len)%nat
  then Z.lor 0x40 (Z.land (wrap 8 (as_u8 (Z.of_nat pad_len) - 1)) 0x3F) else 0.

Definition write_gut_header (buf : list Z) (ppn enc_ports : Z) (pad_len : nat)
    : outcome (list Z) :=
  buf ← copy_from_slice buf 0 4 (u32_to_le_bytes ppn);
  buf ← copy_from_slice buf 4 8 (u32_to_le_bytes enc_ports);
  buf ← put buf 8 0x00;
  put buf 9 (pad_byte pad_len).

Definition write_quic_short_header (buf : list Z) (dcid ppn enc_ports : Z) (pad_len : nat)
    : outcome (list Z) :=
  buf ← put buf 0 0x40;
  buf ← copy_from_slice buf 1 5 (u32_to_le_bytes dcid);
  buf ← put buf 5 0x01;
  buf ← copy_from_slice buf 6 10 (u32_to_le_bytes ppn);
  buf ← copy_from_slice buf 10 14 (u32_to_le_bytes enc_ports);
  buf ← put buf 14 0x00;
  put buf 15 (pad_byte pad_len).

(** ** The QUIC long header *)

(** [buf[0..5]]: first byte and QUIC version 1 *)
Definition write_long_prefix (buf : list Z) (wg_type : Z) : outcome (list Z) :=
  buf ← put buf 0 (if wg_type =? 3 then 0xF3 else 0xC3);
  buf ← put buf 1 0x00;
  buf ← put buf 2 0x00;
  buf ← put buf 3 0x00;
  put buf 4 0x01.

(** The 32 bytes used as the ClientHello random. *)
Definition long_entropy (buf : list Z) (orig_len wg_off : nat) (pad_block : list Z)
    : outcome (list Z) :=
  src ← (if (64 <=? orig_len)%nat then slice buf (wg_off + 32) (wg_off + 64)
         else slice pad_block 0 32);
  copy_from_slice (replicate 32 0) 0 32 src.

(** The filler: [buf[i] = pad_block[(i * 13) & 0x3F] ^ gut_b[i & 3]]. *)
Definition long_fill (buf : list Z) (pad_block : list Z) (t_ns : Z) : outcome (list Z) :=
  let time_gut := rotate_left 32 (wrapping_mul 32 t_ns 0x9E3779B9) 13 in
  let gut_b := u32_to_le_bytes time_gut in
  for_range 1 (GUT_QUIC_LONG_HEADER_SIZE - 1 - 1)
    (λ i buf, a ← get pad_block (Z.to_nat (Z.land (Z.of_nat (i * 13)) 0x3F));
              g ← get gut_b (Z.to_nat (Z.land (Z.of_nat i) 3));
              put buf i (Z.lxor a g)) buf.

(** The connection id of the long header: ChaCha block 99, nonce 0. *)
Definition fixed_dcid (key_init : list Z) (rounds : Z) : list Z :=
  let ks99 := chacha_block_fast key_init 99 0 rounds in
  u32_to_le_bytes (ks99 !!! 0%nat) ++ u32_to_le_bytes (ks99 !!! 1%nat).

(** DCID, SCID (with the packet number in the clear) and token. *)
Definition write_long_ids (buf : list Z) (dcid : list Z) (wg_idx ppn enc_ports : Z)
    : outcome (list Z) :=
  buf ← put buf 5 0x08;
  buf ← copy_from_slice buf 6 14 dcid;
  buf ← put buf 14 0x08;
  buf ← copy_from_slice buf 15 19 (u32_to_le_bytes ppn);
  let scid2 := sip_hash32 (Z.lxor wg_idx 0x12345678)
                 [0x428A2F98; 0x71374491; 0xB5C0FBCF; 0xE9B5DBA5] in
  buf ← copy_from_slice buf 19 23 (u32_to_le_bytes scid2);
  buf ← put buf 23 0x04;
  copy_from_slice buf 24 28 (u32_to_le_bytes enc_ports).

(** The two bytes of a length field. *)
Definition hi_byte (n : nat) : Z := Z.land (shr (Z.of_nat n) 8) 0xFF.
Definition lo_byte (n : nat) : Z := Z.land (Z.of_nat n) 0xFF.

(** Writes of consecutive constants, [b[o] = v0; b[o + 1] = v1; ...]. *)
Fixpoint put_all (b : list Z) (o : nat) (vs : list Z) : outcome (list Z) :=
  match vs with
  | [] => Done b
  | v :: vs => b ← put b o v; put_all b (S o) vs
  end.

(** The lengths of the ClientHello for a server name of [domain_len] bytes. *)
Definition sni_ext_data_len (domain_len : nat) : nat :=
  if (0 <? domain_len)%nat then domain_len + 5 else 0.
Definition sni_ext_total (domain_len : nat) : nat :=
  if (0 <? domain_len)%nat then sni_ext_data_len domain_len + 4 else 0.
Definition extensions_len (domain_len : nat) : nat := sni_ext_total domain_len + 9 + 7.
Definition ch_body_len (domain_len : nat) : nat :=
  2 + 32 + 1 + 2 + 2 + 1 + 1 + 2 + extensions_len domain_len.
Definition crypto_data_len (domain_len : nat) : nat := ch_body_len domain_len + 4.
Definition crypto_frame_total (domain_len : nat) : nat := 4 + crypto_data_len domain_len.

(** The CRYPTO frame carrying a ClientHello with the SNI, ALPN and
    supported_versions extensions. *)
Definition build_crypto_frame (entropy_source domain_bytes : list Z) : outcome (list Z) :=
  let domain_len := Nat.min (length domain_bytes) 32 in
  let f := replicate 128 0 in
  f ← put_all f 0
        [0x06; 0x00; as_u8 (Z.lor 0x40 (Z.land (shr (Z.of_nat (crypto_data_len domain_len)) 8) 0x3F));
         as_u8 (lo_byte (crypto_data_len domain_len));
         0x01; 0; as_u8 (hi_byte (ch_body_len domain_len)); as_u8 (lo_byte (ch_body_len domain_len));
         0x03; 0x03];
  f ← for_range 0 32
        (λ i f, e ← get entropy_source (Z.to_nat (Z.land (Z.of_nat i) 31)); put f (10 + i) e) f;
  f ← put_all f 42 [0x00; 0x00; 0x02; 0x13; 0x01; 0x01; 0x00;
                    as_u8 (hi_byte (extensions_len domain_len));
                    as_u8 (lo_byte (extensions_len domain_len))];
  let ext_off := 51%nat in
  '(f, ext_off) ←
    (if (0 <? domain_len)%nat then
       f ← put_all f ext_off
             [0x00; 0x00; as_u8 (hi_byte (sni_ext_data_len domain_len));
              as_u8 (lo_byte (sni_ext_data_len domain_len));
              as_u8 (hi_byte (domain_len + 3)); as_u8 (lo_byte (domain_len + 3));
              0x00; as_u8 (hi_byte domain_len); as_u8 (lo_byte domain_len)];
       name ← slice domain_bytes 0 domain_len;
       f ← copy_from_slice f (ext_off + 9) (ext_off + 9 + domain_len) name;
       Done (f, (ext_off + sni_ext_total domain_len)%nat)
     else Done (f, ext_off));
  f ← put_all f ext_off [0x00; 0x10; 0x00; 0x05; 0x00; 0x03; 0x02; 104; 51];
  put_all f (ext_off + 9) [0x00; 0x2b; 0x00; 0x03; 0x02; 0x03; 0x04].

(** Seal the frame: payload length, AEAD, tag and header protection. *)
Definition seal_long (buf : list Z) (ppn : Z) (q_key q_iv q_hp : list Z)
    (crypto_frame : list Z) (total : nat) : outcome (list Z) :=
  let sni_pos := 34%nat in
  let quic_payload_len := as_u16 (Z.of_nat (4 + total + 16)) in
  buf ← put buf 28 (Z.lor 0x40 (as_u8 (shr quic_payload_len 8)));
  buf ← put buf 29 (as_u8 (Z.land quic_payload_len 0xFF));
  let ppn_be := u32_to_be_bytes ppn in
  nonce ← copy_from_slice (replicate 12 0) 0 12 q_iv;
  nonce ← xor_in_place 8 nonce ppn_be 4;
  hdr ← slice buf 0 30;
  aad ← copy_from_slice (replicate 34 0) 0 30 hdr;
  aad ← copy_from_slice aad 30 34 ppn_be;
  let rk := aes128_expand_key q_key in
  plain ← slice crypto_frame 0 total;
  dst ← slice buf sni_pos (sni_pos + total);
  '(ct, gcm_tag) ← aes128_gcm_encrypt rk nonce aad plain dst;
  buf ← copy_from_slice buf sni_pos (sni_pos + total) ct;
  buf ← copy_from_slice buf (sni_pos + total) (sni_pos + total + 16) gcm_tag;
  let hp_rk := aes128_expand_key q_hp in
  sample ← slice buf sni_pos (sni_pos + 16);
  let hp_mask := aes128_encrypt_block hp_rk sample in
  buf ← copy_from_slice buf 30 34 ppn_be;
  b0 ← get buf 0;
  buf ← put buf 0 (Z.lxor b0 (Z.land (hp_mask !!! 0%nat) 0x0F));
  m ← slice hp_mask 1 5;
  xor_in_place 30 buf m 4.

Definition write_quic_long_header (buf : list Z) (wg_type wg_idx ppn enc_ports : Z)
    (pad_len orig_len wg_off : nat) (pad_block sip_domain key_init : list Z) (rounds t_ns : Z)
    : outcome (list Z) :=
  buf ← write_long_prefix buf wg_type;
  entropy_source ← long_entropy buf orig_len wg_off pad_block;
  buf ← long_fill buf pad_block t_ns;
  buf ← write_long_prefix buf wg_type;
  let dcid := fixed_dcid key_init rounds in
  buf ← write_long_ids buf dcid wg_idx ppn enc_ports;
  initial_secret ← derive_quic_initial_secret dcid;
  client_secret ← derive_client_initial_secret initial_secret;
  '(q_key, q_iv, q_hp) ← derive_quic_keys client_secret;
  crypto_frame ← build_crypto_frame entropy_source sip_domain;
  buf ← seal_long buf ppn q_key q_iv q_hp crypto_frame
          (crypto_frame_total (Nat.min (length sip_domain) 32));
  put buf (GUT_QUIC_LONG_HEADER_SIZE - 1) (pad_byte pad_len).

(** ** Encapsulation *)

(** The header an outgoing packet gets. *)
Definition encap_hdr_len (obfs : ObfsMode) (is_server : bool) (wg_type : Z) : nat :=
  if negb (is_quic obfs) then GUT_HEADER_SIZE
  else if wg_type =? 3 then GUT_QUIC_LONG_HEADER_SIZE
  else if is_server then GUT_QUIC_SHORT_HEADER_SIZE
  else if wg_type =? 1 then GUT_QUIC_LONG_HEADER_SIZE
  else GUT_QUIC_SHORT_HEADER_SIZE.

(** The receiver index the long header hides. *)
Definition read_wg_idx (buf : list Z) (wg_type : Z) (orig_len : nat) : outcome Z :=
  if (wg_type =? 2) && (12 <=? orig_len)%nat then read_u32_le buf 8 12
  else if (8 <=? orig_len)%nat then read_u32_le buf 4 8
  else Done 0.

(** Masking of the WireGuard header and of the MAC fields of the handshake
    messages, at offset [off]; [len] is the payload length.  The type is
    passed in, as the two callers obtain it differently. *)
Definition mask_macs (buf : list Z) (off : nat) (ks : list Z) (wg_type : Z) (len : nat)
    : outcome (list Z) :=
  if (wg_type =? 1) && (148 <=? len)%nat then xor16 buf (off + 132) ks 16
  else if (wg_type =? 2) && (92 <=? len)%nat then xor16 buf (off + 76) ks 16
  else Done buf.

(** The length of the padding after the payload. *)
Definition encap_pad_len (obfs : ObfsMode) (hdr_len orig_len : nat) (last : Z) : nat :=
  match obfs with
  | Gut =>
      if (orig_len <? 256)%nat then
        let remainder := ((8 + hdr_len + orig_len) mod 16)%nat in
        if (remainder =? 0)%nat then 0%nat else (16 - remainder)%nat
      else 0%nat
  | Quic =>
      if (220 <=? orig_len)%nat then 0%nat
      else (Z.to_nat (Z.land last 0x3F) + 1)%nat
  | Syslog | Sip =>
      if (220 <=? orig_len)%nat
      then (Nat.min (Z.to_nat (Z.land last 0x0F)) 14 + 1)%nat
      else (Z.to_nat (Z.land last 0x1F) + 1)%nat
  end.

(** Copy the padding behind the payload and write the pad byte. *)
Definition write_padding (buf : list Z) (hdr_len orig_len pad_len : nat) (pad_block : list Z)
    : outcome (list Z) :=
  if (0 <? pad_len)%nat then
    buf ← for_range 0 pad_len
            (λ i buf, v ← get pad_block (Z.to_nat (Z.land (Z.of_nat i) 0x3F));
                      put buf (hdr_len + orig_len + i) v) buf;
    put buf (hdr_len - 1) (Z.lor 0x40 (as_u8 (Z.of_nat (pad_len - 1))))
  else put buf (hdr_len - 1) 0x00.

(** [obfs_encap]: the updated buffer, and the new length with the DCID. *)
Definition obfs_encap (buf : list Z) (orig_len : nat) (key : list Z) (rounds : Z)
    (is_server : bool) (wg_sport wg_dport : Z) (obfs : ObfsMode) (sip_domain : list Z)
    (t_ns : Z) : outcome (list Z * option (nat * Z)) :=
  if (orig_len <? 16)%nat then Done (buf, None) else
  b0 ← get buf 0;
  let wg_type := Z.land b0 0x1F in
  let quic_hdr_len := encap_hdr_len obfs is_server wg_type in
  wg_idx ← read_wg_idx buf wg_type orig_len;
  wg ← slice buf 0 orig_len;
  nonce ← wg_nonce32 wg;
  buf ← copy_within buf 0 orig_len quic_hdr_len;
  let ks47 := chacha_block_fast key 47 nonce rounds in
  let ks47_b := words_to_bytes ks47 in
  let wg_off := quic_hdr_len in
  buf ← xor16 buf wg_off ks47_b 0;
  buf ← mask_macs buf wg_off ks47_b wg_type orig_len;
  let plain_ports := Z.lor (shl 32 wg_sport 16) wg_dport in
  let enc_ports := Z.lxor plain_ports (ks47 !!! 11%nat) in
  let ppn := ks47 !!! 10%nat in
  let ks69 := chacha_block_fast key 69 nonce rounds in
  let pad_block := words_to_bytes ks69 in
  let pad_len := encap_pad_len obfs quic_hdr_len orig_len (pad_block !!! 63%nat) in
  buf ← write_padding buf quic_hdr_len orig_len pad_len pad_block;
  let dcid := ks47 !!! 9%nat in
  buf ← (if (quic_hdr_len =? GUT_HEADER_SIZE)%nat
         then write_gut_header buf ppn enc_ports pad_len
         else if (quic_hdr_len =? GUT_QUIC_SHORT_HEADER_SIZE)%nat
         then write_quic_short_header buf dcid ppn enc_ports pad_len
         else write_quic_long_header buf wg_type wg_idx ppn enc_ports pad_len orig_len wg_off
                pad_block sip_domain key rounds t_ns);
  Done (buf, Some ((quic_hdr_len + orig_len + pad_len)%nat, dcid)).

(** ** Verification and decapsulation *)

(** The ballast length a pad byte announces. *)
Definition ballast_of (pad : Z) : nat :=
  if Z.land pad 0x40 =? 0 then 0%nat else (Z.to_nat (Z.land pad 0x3F) + 1)%nat.

(** [buf.len() <= 5 || buf[5] != v] returns [false] *)
Definition byte5_is (buf : list Z) (v : Z) : outcome bool :=
  if (length buf <=? 5)%nat then Done false
  else b ← get buf 5; Done (b =? v).

(** The header length [obfs_verify] reads off the first bytes; [None] is
    [return false]. *)
Definition verify_hdr_len (buf : list Z) (obfs : ObfsMode) : outcome (option nat) :=
  first_byte ← get buf 0;
  if negb (is_quic obfs) then Done (Some GUT_HEADER_SIZE)
  else if Z.land first_byte 0xC0 =? 0xC0 then
    ok ← byte5_is buf 0x08;
    Done (if ok : bool then Some GUT_QUIC_LONG_HEADER_SIZE else None)
  else if Z.land first_byte 0x40 =? 0x40 then
    ok ← byte5_is buf 0x01;
    Done (if ok : bool then Some GUT_QUIC_SHORT_HEADER_SIZE else None)
  else Done None.

Definition obfs_verify (buf : list Z) (orig_len : nat) (key : list Z) (rounds : Z)
    (obfs : ObfsMode) : outcome bool :=
  if (orig_len =? 0)%nat then Done false else
  h ← verify_hdr_len buf obfs;
  match h with
  | None => Done false
  | Some hdr_len =>
    if (orig_len <? hdr_len + 32)%nat then Done false else
    pad ← get buf (hdr_len - 1);
    let ballast_len := ballast_of pad in
    let wg_off := hdr_len in
    let wg_len := (orig_len - hdr_len)%nat in
    if (wg_len <? ballast_len)%nat then Done false else
    let actual_wg_len := (wg_len - ballast_len)%nat in
    if (actual_wg_len <? 32)%nat then Done false else
    wg ← slice buf wg_off (wg_off + actual_wg_len);
    nonce ← wg_nonce32 wg;
    let ks47 := chacha_block_fast key 47 nonce rounds in
    let expected_ppn := ks47 !!! 10%nat in
    if negb (is_quic obfs) then
      pkt_ppn ← read_u32_le buf 0 4;
      Done (pkt_ppn =? expected_ppn)
    else
      let ks47_b := words_to_bytes ks47 in
      src ← slice buf wg_off (wg_off + 16);
      hdr ← copy_from_slice (replicate 16 0) 0 16 src;
      hdr ← xor16 hdr 0 ks47_b 0;
      let wg_type := Z.land (hdr !!! 0%nat) 0x1F in
      _ ← (if wg_type =? 2 then read_u32_le hdr 8 12 else read_u32_le hdr 4 8);
      let expected_dcid := ks47 !!! 9%nat in
      if (hdr_len =? GUT_QUIC_SHORT_HEADER_SIZE)%nat then
        pkt_dcid ← read_u32_le buf 1 5;
        pkt_ppn ← read_u32_le buf 6 10;
        Done ((pkt_dcid =? expected_dcid) && (pkt_ppn =? expected_ppn))
      else if (length buf <? 20)%nat then Done false
      else
        let ks99 := chacha_block_fast key 99 0 rounds in
        let expected_fixed_dcid := from_le (u32_to_le_bytes (ks99 !!! 0%nat)) in
        pkt_dcid ← read_u32_le buf 6 10;
        pkt_ppn ← read_u32_le buf 15 19;
        Done ((pkt_dcid =? expected_fixed_dcid) && (pkt_ppn =? expected_ppn))
  end.

Definition decap_hdr_len (buf : list Z) (obfs : ObfsMode) : outcome (option nat) :=
  if negb (is_quic obfs) then Done (Some GUT_HEADER_SIZE)
  else
    first_byte ← get buf 0;
    Done (if Z.land first_byte 0x80 =? 0x80 then Some GUT_QUIC_LONG_HEADER_SIZE
          else if Z.land first_byte 0x40 =? 0x40 then Some GUT_QUIC_SHORT_HEADER_SIZE
          else None).

Definition obfs_decap (buf : list Z) (orig_len : nat) (key : list Z) (rounds : Z)
    (obfs : ObfsMode) : outcome (list Z * option (nat * Z * Z)) :=
  if (orig_len =? 0)%nat then Done (buf, None) else
  h ← decap_hdr_len buf obfs;
  match h with
  | None => Done (buf, None)
  | Some hdr_len =>
    if (orig_len <? hdr_len + 16)%nat then Done (buf, None) else
    pad ← get buf (hdr_len - 1);
    let ballast_len := ballast_of pad in
    let wg_off := hdr_len in
    let wg_len := (orig_len - hdr_len)%nat in
    if (wg_len <? ballast_len)%nat then Done (buf, None) else
    let actual_wg_len := (wg_len - ballast_len)%nat in
    enc_ports ← (if (hdr_len =? GUT_HEADER_SIZE)%nat then read_u32_le buf 4 8
                 else if (hdr_len =? GUT_QUIC_SHORT_HEADER_SIZE)%nat then read_u32_le buf 10 14
                 else read_u32_le buf 24 28);
    wg ← slice buf wg_off (wg_off + actual_wg_len);
    nonce ← wg_nonce32 wg;
    let ks47 := chacha_block_fast key 47 nonce rounds in
    let ks47_b := words_to_bytes ks47 in
    let plain_ports := Z.lxor enc_ports (ks47 !!! 11%nat) in
    let wg_sport := as_u16 (shr plain_ports 16) in
    let wg_dport := as_u16 (Z.land plain_ports 0xFFFF) in
    buf ← xor16 buf wg_off ks47_b 0;
    b ← get buf wg_off;
    let wg_type := Z.land b 0x1F in
    buf ← mask_macs buf wg_off ks47_b wg_type actual_wg_len;
    buf ← copy_within buf wg_off (wg_off + actual_wg_len) 0;
    Done (buf, Some (actual_wg_len, wg_sport, wg_dport))
  end.

(** ** Version negotiation *)

(** [generate_quic_version_negotiation]: the 64-byte output and its length. *)
Definition generate_quic_version_negotiation (buf : list Z) (size : nat) (out : list Z)
    : outcome (list Z * option nat) :=
  if (size <? 14)%nat then Done (out, None) else
  fb ← get buf 0;
  if Z.land fb 0x80 =? 0 then Done (out, None) else
  version ← read_u32_be buf 1 5;
  if (version =? 0) || (version =? 0x6b3343cf) then Done (out, None) else
  d ← get buf 5;
  let dcid_len := Z.to_nat d in
  if (size <=? 6 + dcid_len)%nat then Done (out, None) else
  dcid ← slice buf 6 (6 + dcid_len);
  s ← get buf (6 + dcid_len);
  let scid_len := Z.to_nat s in
  if (size <? 6 + dcid_len + 1 + scid_len)%nat then Done (out, None) else
  scid ← slice buf (6 + dcid_len + 1) (6 + dcid_len + 1 + scid_len);
  let total_len := (1 + 4 + 1 + length scid + 1 + length dcid + 8)%nat in
  if (length out <? total_len)%nat then Done (out, None) else
  rand_bits ← (if (length dcid =? 0)%nat then Done 0x0A
               else x ← get dcid 0; Done (Z.land x 0x3F));
  out ← put out 0 (Z.lor (Z.lor 0x80 0x40) rand_bits);
  out ← copy_from_slice out 1 5 [0; 0; 0; 0];
  out ← put out 5 (as_u8 (Z.of_nat (length scid)));
  out ← copy_from_slice out 6 (6 + length scid) scid;
  let pos := (6 + length scid)%nat in
  out ← put out pos (as_u8 (Z.of_nat (length dcid)));
  out ← copy_from_slice out (pos + 1) (pos + 1 + length dcid) dcid;
  let pos := (pos + 1 + length dcid)%nat in
  out ← copy_from_slice out pos (pos + 4) [0x6b; 0x33; 0x43; 0xcf];
  out ← copy_from_slice out (pos + 4) (pos + 4 + 4) [0; 0; 0; 1];
  Done (out, Some (pos + 8)%nat).
