(* ===== verification/ObfsMask.v ===== *)
(** * userspace.rs: the masking layer of the obfuscation

    What the in-place masking of the payload computes, that it is an
    involution, and what it leaves untouched: the sixteen bytes the nonce is
    derived from. *)

From S2P Require Import Prelude Words Slices ChaCha Obfs.
Local Open Scope Z_scope.

Lemma xor16_Done buf off k klo :
  (off + 16 ≤ length buf)%nat → (klo + 16 ≤ length k)%nat →
  xor16 buf off k klo
  = Done (list_inserts off (xor_bytes (window off 16 buf) (window klo 16 k)) buf).
Proof.
  intros H1 H2. unfold xor16. rewrite !slice_window, !bind_Done by done.
  rewrite xor_in_place_Done by (rewrite ?length_window; lia).
  by rewrite (take_ge (window klo 16 k)) by (rewrite length_window; lia).
Qed.

(** ** The mask of a payload *)

(** XOR of sixteen bytes of [p] at [a] with sixteen bytes of [ks] at [klo]. *)
Definition xor_at16 (a klo : nat) (ks p : list Z) : list Z :=
  list_inserts a (xor_bytes (window a 16 p) (window klo 16 ks)) p.

Definition mask_tail (ks : list Z) (t : Z) (p : list Z) : list Z :=
  if (t =? 1) && (148 <=? length p)%nat then xor_at16 132 16 ks p
  else if (t =? 2) && (92 <=? length p)%nat then xor_at16 76 16 ks p
  else p.

(** The masked form of a payload of message type [t]. *)
Definition payload_mask (ks : list Z) (t : Z) (p : list Z) : list Z :=
  mask_tail ks t (xor_at16 0 0 ks p).

Section mask.
  Context (ks : list Z) (Hks : length ks = 64%nat).

Lemma length_xor_at16 a klo p : length (xor_at16 a klo ks p) = length p.
Proof using Type. apply length_inserts. Qed.

Lemma length_mask_tail t p : length (mask_tail ks t p) = length p.
Proof using Type.
  unfold mask_tail. repeat case_match; auto using length_xor_at16.
Qed.

Lemma length_payload_mask t p : length (payload_mask ks t p) = length p.
Proof using Type. unfold payload_mask. by rewrite length_mask_tail, length_xor_at16. Qed.

Lemma payload_mask_bytes t p : bytes ks → bytes p → bytes (payload_mask ks t p).
Proof using Type.
  intros Hk Hp. assert (Hx : ∀ a k q, bytes q → bytes (xor_at16 a k ks q)).
  { intros a k q Hq. unfold xor_at16. auto 6 with gutd. }
  unfold payload_mask, mask_tail. repeat case_match; auto.
Qed.

Lemma length_xor_window a klo p : (a + 16 ≤ length p)%nat → (klo + 16 ≤ 64)%nat →
  length (xor_bytes (window a 16 p) (window klo 16 ks)) = 16%nat.
Proof using Hks. intros. rewrite length_xor_bytes, !length_window by lia. lia. Qed.

Lemma xor_at16_involutive a klo p : (a + 16 ≤ length p)%nat → (klo + 16 ≤ 64)%nat →
  xor_at16 a klo ks (xor_at16 a klo ks p) = p.
Proof using Hks.
  intros Ha Hk. unfold xor_at16. pose proof (length_xor_window a klo p Ha Hk) as Hx.
  set (x := xor_bytes (window a 16 p) (window klo 16 ks)) in *.
  assert (Hw : window a 16 (list_inserts a x p) = x).
  { rewrite <- Hx at 1. apply window_inserts. lia. }
  rewrite Hw. subst x. rewrite xor_bytes_involutive by (rewrite !length_window; lia).
  rewrite list_inserts_twice by (rewrite ?Hx, ?length_window; lia).
  apply list_eq. intros i. rewrite lookup_list_inserts by (rewrite length_window; lia).
  rewrite length_window by lia. case_decide; [|done].
  rewrite lookup_window, decide_True by lia. f_equal. lia.
Qed.

(** Masks at disjoint places commute. *)
Lemma xor_at16_comm a b klo kho p :
  (a + 16 ≤ b)%nat → (b + 16 ≤ length p)%nat → (klo + 16 ≤ 64)%nat → (kho + 16 ≤ 64)%nat →
  xor_at16 a klo ks (xor_at16 b kho ks p) = xor_at16 b kho ks (xor_at16 a klo ks p).
Proof using Hks.
  intros Hab Hb Hk Hk'. unfold xor_at16.
  rewrite (window_list_inserts_ne a 16 b) by lia.
  rewrite (window_list_inserts_ne b 16 a) by (rewrite length_xor_window; lia).
  apply list_eq. intros i.
  rewrite !lookup_list_inserts by (rewrite ?length_inserts, ?length_xor_window; lia).
  rewrite !length_xor_window by lia. repeat case_decide; try lia; done.
Qed.

Lemma mask_tail_comm t p : (16 ≤ length p)%nat →
  mask_tail ks t (xor_at16 0 0 ks p) = xor_at16 0 0 ks (mask_tail ks t p).
Proof using Hks.
  intros Hp. unfold mask_tail. rewrite length_xor_at16.
  destruct (t =? 1), (t =? 2), (Nat.leb_spec 148 (length p)), (Nat.leb_spec 92 (length p));
    cbn [andb]; try done; symmetry; apply xor_at16_comm; lia.
Qed.

Lemma mask_tail_involutive t p : mask_tail ks t (mask_tail ks t p) = p.
Proof using Hks.
  unfold mask_tail.
  destruct (t =? 1), (t =? 2), (Nat.leb_spec 148 (length p)), (Nat.leb_spec 92 (length p));
    cbn [andb]; rewrite ?length_xor_at16;
    repeat match goal with
    | H : (?a ≤ ?b)%nat |- context [(?a <=? ?b)%nat] =>
        rewrite (proj2 (Nat.leb_le a b) H); cbn [andb]
    | H : (?b < ?a)%nat |- context [(?a <=? ?b)%nat] =>
        rewrite (proj2 (Nat.leb_gt a b) H); cbn [andb]
    end; try done; apply xor_at16_involutive; lia.
Qed.

(** Unmasking undoes masking. *)
Lemma unmask_mask t p : (16 ≤ length p)%nat →
  mask_tail ks t (xor_at16 0 0 ks (payload_mask ks t p)) = p.
Proof using Hks.
  intros Hp. unfold payload_mask.
  rewrite (mask_tail_comm t p), xor_at16_involutive, mask_tail_involutive
    by (rewrite ?length_mask_tail; lia). done.
Qed.

(** The first sixteen bytes come back before the type is known. *)
Lemma unmask_head t p : (16 ≤ length p)%nat →
  xor_at16 0 0 ks (payload_mask ks t p) = mask_tail ks t p.
Proof using Hks.
  intros Hp. unfold payload_mask. rewrite (mask_tail_comm t p) by done.
  apply xor_at16_involutive; rewrite ?length_mask_tail; lia.
Qed.

Lemma mask_tail_head t p : take 76 (mask_tail ks t p) = take 76 p.
Proof using Hks.
  unfold mask_tail, xor_at16.
  repeat case_match; [apply (window_list_inserts_ne 0 76); lia..|done].
Qed.

(** Bytes 16..32, from which the nonce is derived, are never masked. *)
Lemma payload_mask_nonce t p : (16 ≤ length p)%nat →
  window 16 16 (payload_mask ks t p) = window 16 16 p.
Proof using Hks.
  intros Hp. unfold payload_mask. rewrite mask_tail_comm by done. unfold xor_at16 at 1.
  rewrite window_list_inserts_ne.
  2: { right. rewrite length_xor_window; rewrite ?length_mask_tail; lia. }
  apply window_ext. intros i Hi.
  rewrite <- (lookup_take_lt _ 76), mask_tail_head by lia. apply lookup_take_lt. lia.
Qed.

(** The in-place operations on a window of a larger buffer. *)
Lemma xor16_window buf off len : (off + len ≤ length buf)%nat → (16 ≤ len)%nat →
  xor16 buf off ks 0 = Done (list_inserts off (xor_at16 0 0 ks (window off len buf)) buf).
Proof using Hks.
  intros H1 H2. rewrite xor16_Done by lia. f_equal. unfold xor_at16.
  rewrite <- (Nat.add_0_r off) at 1.
  rewrite (list_inserts_window off len 0) by (rewrite ?length_xor_window; lia).
  do 3 f_equal. apply window_ext. intros i Hi. rewrite lookup_window, decide_True by lia.
  done.
Qed.

Lemma mask_macs_window buf off len t : (off + len ≤ length buf)%nat →
  mask_macs buf off ks t len = Done (list_inserts off (mask_tail ks t (window off len buf)) buf).
Proof using Hks.
  intros H1. unfold mask_macs, mask_tail. rewrite length_window by done.
  assert (Hid : list_inserts off (window off len buf) buf = buf).
  { apply list_eq. intros i. rewrite lookup_list_inserts by (rewrite length_window; lia).
    rewrite length_window by done. case_decide; [|done].
    rewrite lookup_window, decide_True by lia. f_equal. lia. }
  assert (Hx : ∀ a, (a + 16 ≤ len)%nat → xor16 buf (off + a) ks 16
    = Done (list_inserts off (xor_at16 a 16 ks (window off len buf)) buf)).
  { intros a Ha. rewrite xor16_Done by lia. f_equal. unfold xor_at16.
    rewrite (list_inserts_window off len a) by (rewrite ?length_xor_window; lia).
    do 3 f_equal. apply window_ext. intros i Hi. rewrite lookup_window, decide_True by lia.
    f_equal. lia. }
  destruct (t =? 1), (t =? 2), (Nat.leb_spec 148 len), (Nat.leb_spec 92 len);
    cbn [andb]; rewrite ?Hx by lia; by rewrite ?Hid.
Qed.
End mask.

(** ** The nonce *)

(** The nonce as a function of the payload. *)
Definition nonce_of (p : list Z) : Z :=
  if (length p <? 32)%nat then 0
  else Z.lxor (Z.lxor (Z.lxor (from_le (window 16 4 p)) (from_le (window 20 4 p)))
                      (from_le (window 24 4 p))) (from_le (window 28 4 p)).

Lemma wg_nonce32_Done p : wg_nonce32 p = Done (nonce_of p).
Proof.
  unfold wg_nonce32, nonce_of. destruct (Nat.ltb_spec (length p) 32); [done|].
  by rewrite !read_u32_le_Done by lia.
Qed.

Lemma nonce_of_range p : bytes p → is_u32 (nonce_of p).
Proof.
  intros Hp. unfold nonce_of. destruct (Nat.ltb_spec (length p) 32); [unfold in_width; lia|].
  assert (Hw : ∀ lo, (lo + 4 ≤ length p)%nat → is_u32 (from_le (window lo 4 p))).
  { intros lo Hlo. pose proof (from_le_range (window lo 4 p)) as Hr.
    rewrite length_window in Hr by lia. apply Hr. auto with gutd. }
  repeat (apply lxor_range; [lia| |apply Hw; lia]). apply Hw; lia.
Qed.

(** It depends on bytes 16..32 and on the length only. *)
Lemma nonce_of_ext p q : length p = length q → window 16 16 p = window 16 16 q →
  nonce_of p = nonce_of q.
Proof.
  intros Hl Hw. unfold nonce_of. rewrite Hl.
  assert (H : ∀ lo, (16 ≤ lo)%nat → (lo + 4 ≤ 32)%nat → window lo 4 p = window lo 4 q).
  { intros lo H1 H2. apply window_ext. intros i Hi.
    assert (Hlk : window 16 16 p !! (lo - 16 + i)%nat = window 16 16 q !! (lo - 16 + i)%nat)
      by by rewrite Hw.
    rewrite !lookup_window, !decide_True in Hlk by lia.
    by replace (16 + (lo - 16 + i))%nat with (lo + i)%nat in Hlk by lia. }
  by rewrite !H by lia.
Qed.

Lemma nonce_of_masked ks t p : length ks = 64%nat → (16 ≤ length p)%nat →
  nonce_of (payload_mask ks t p) = nonce_of p.
Proof.
  intros Hks Hp. apply nonce_of_ext; [apply length_payload_mask|by apply payload_mask_nonce].
Qed.
