(* ===== verification/ObfsHeader.v ===== *)
(** * userspace.rs: the header writers

    Each writer replaces exactly the first [hdr_len] bytes of the buffer and
    leaves the payload behind them alone; the fields the receiver reads have
    the values written. *)

From S2P Require Import Prelude Words Slices ChaCha Feistel Hkdf Aes Gcm Obfs.
Local Open Scope Z_scope.

(** Consecutive stores are one block write. *)
Lemma put_all_Done b o vs : (o + length vs ≤ length b)%nat →
  put_all b o vs = Done (list_inserts o vs b).
Proof.
  revert b o. induction vs as [|v vs IH]; intros b o H; [done|].
  cbn [put_all length] in *. rewrite put_Done, bind_Done by lia.
  rewrite IH by len. f_equal. cbn [list_inserts].
  apply list_eq. intros i.
  destruct (decide (i = o)) as [->|Hne].
  - rewrite list_lookup_inserts_lt by lia.
    rewrite !list_lookup_insert_eq; [done|rewrite length_inserts; lia|lia].
  - rewrite list_lookup_insert_ne by done.
    rewrite !lookup_list_inserts by (rewrite ?length_insert; lia).
    by rewrite list_lookup_insert_ne by done.
Qed.

Definition gut_header (ppn enc_ports : Z) (pad_len : nat) : list Z :=
  u32_to_le_bytes ppn ++ u32_to_le_bytes enc_ports ++ [0; pad_byte pad_len].

Lemma pad_byte_range n : (n ≤ 64)%nat → is_u8 (pad_byte n).
Proof.
  intros Hn. assert (H : ∀ z, 0 ≤ z < 65 → is_u8 (pad_byte (Z.to_nat z))).
  { intros z Hz. unfold in_width.
    apply (check_below_P (λ z, 0 ≤ pad_byte (Z.to_nat z) < 2 ^ 8) 65); [|done].
    vm_compute. reflexivity. }
  specialize (H (Z.of_nat n) ltac:(lia)). by rewrite Nat2Z.id in H.
Qed.

Lemma gut_header_bytes ppn enc_ports pad_len : (pad_len ≤ 64)%nat →
  bytes (gut_header ppn enc_ports pad_len).
Proof.
  intros H. unfold gut_header. apply Forall_app_2; [apply le_bytes_bytes|].
  apply Forall_app_2; [apply le_bytes_bytes|]. repeat constructor; try done; by apply pad_byte_range.
Qed.

Lemma write_gut_header_Done buf ppn enc_ports pad_len : (10 ≤ length buf)%nat →
  write_gut_header buf ppn enc_ports pad_len
  = Done (list_inserts 0 (gut_header ppn enc_ports pad_len) buf).
Proof.
  intros H. unfold write_gut_header.
  rewrite copy_from_slice_Done, bind_Done by len.
  rewrite copy_next, bind_Done by len. rewrite put_next, bind_Done by len.
  rewrite put_next by len. unfold gut_header. by rewrite <- !app_assoc.
Qed.

Definition short_header (dcid ppn enc_ports : Z) (pad_len : nat) : list Z :=
  [0x40] ++ u32_to_le_bytes dcid ++ [1] ++ u32_to_le_bytes ppn ++ u32_to_le_bytes enc_ports
    ++ [0; pad_byte pad_len].

Lemma write_quic_short_header_Done buf dcid ppn enc_ports pad_len : (16 ≤ length buf)%nat →
  write_quic_short_header buf dcid ppn enc_ports pad_len
  = Done (list_inserts 0 (short_header dcid ppn enc_ports pad_len) buf).
Proof.
  intros H. unfold write_quic_short_header.
  rewrite put_Done, bind_Done by lia. change (<[0%nat := 0x40]> buf) with (list_inserts 0 [0x40] buf).
  rewrite copy_next, bind_Done by len. rewrite put_next, bind_Done by len.
  do 2 (rewrite copy_next, bind_Done by len). rewrite put_next, bind_Done by len.
  rewrite put_next by len. unfold short_header. by rewrite <- !app_assoc.
Qed.

(** ** The long header *)

Definition long_first (wg_type : Z) : Z := if wg_type =? 3 then 0xF3 else 0xC3.

Lemma write_long_prefix_Done buf wg_type : (5 ≤ length buf)%nat →
  write_long_prefix buf wg_type = Done (list_inserts 0 [long_first wg_type; 0; 0; 0; 1] buf).
Proof.
  intros H. unfold write_long_prefix. fold (long_first wg_type).
  rewrite put_Done, bind_Done by lia.
  change (<[0%nat := long_first wg_type]> buf) with (list_inserts 0 [long_first wg_type] buf).
  do 3 (rewrite put_next, bind_Done by len). rewrite put_next by len. done.
Qed.

Lemma long_entropy_Done buf orig_len wg_off pad_block :
  (wg_off + orig_len ≤ length buf)%nat → length pad_block = 64%nat →
  ∃ e, long_entropy buf orig_len wg_off pad_block = Done e ∧ length e = 32%nat.
Proof.
  intros H1 H2. unfold long_entropy. destruct (Nat.leb_spec 64 orig_len).
  - rewrite slice_Done, bind_Done by lia. rewrite copy_from_slice_Done.
    + eexists. split; [done|]. by rewrite length_inserts.
    + rewrite length_window; lia.
    + by rewrite length_replicate.
  - rewrite slice_Done, bind_Done by lia. rewrite copy_from_slice_Done.
    + eexists. split; [done|]. by rewrite length_inserts.
    + rewrite length_window; lia.
    + by rewrite length_replicate.
Qed.

Lemma land_ones_lt x n : 0 ≤ n → (Z.to_nat (Z.land x (2 ^ n - 1)) < Z.to_nat (2 ^ n))%nat.
Proof.
  intros Hn. rewrite land_ones_mod by done.
  pose proof (Z.mod_pos_bound x (2 ^ n) ltac:(apply Z.pow_pos_nonneg; lia)). lia.
Qed.

Lemma long_fill_Done buf pad_block t_ns :
  (1199 ≤ length buf)%nat → length pad_block = 64%nat →
  ∃ fill, long_fill buf pad_block t_ns = Done (list_inserts 1 fill buf) ∧
          length fill = 1198%nat.
Proof.
  intros H1 H2. unfold long_fill. cbv zeta. set (gut_b := u32_to_le_bytes _).
  assert (Hg : length gut_b = 4%nat) by apply length_le_bytes.
  set (g := λ i : nat, Z.lxor (pad_block !!! Z.to_nat (Z.land (Z.of_nat (i * 13)) 0x3F))
                              (gut_b !!! Z.to_nat (Z.land (Z.of_nat i) 3))).
  exists (g <$> seq 1 1198). change (GUT_QUIC_LONG_HEADER_SIZE - 1 - 1)%nat with 1198%nat. split.
  - rewrite (for_range_ext _ (λ i b, put b (0 + i) (g i))).
    + by rewrite for_range_put by lia.
    + intros i b Hi. rewrite (get_total pad_block), bind_Done.
      2: { rewrite H2. apply (land_ones_lt _ 6). lia. }
      rewrite (get_total gut_b), bind_Done; [done|]. rewrite Hg. apply (land_ones_lt _ 2). lia.
  - by rewrite length_fmap, length_seq.
Qed.

Lemma length_fixed_dcid key rounds : length (fixed_dcid key rounds) = 8%nat.
Proof. unfold fixed_dcid. by rewrite length_app, !length_le_bytes. Qed.

(** Bytes 5..28 of the long header. *)
Definition long_ids (dcid : list Z) (wg_idx ppn enc_ports : Z) : list Z :=
  [8] ++ dcid ++ [8] ++ u32_to_le_bytes ppn
    ++ u32_to_le_bytes (sip_hash32 (Z.lxor wg_idx 0x12345678)
                          [0x428A2F98; 0x71374491; 0xB5C0FBCF; 0xE9B5DBA5])
    ++ [4] ++ u32_to_le_bytes enc_ports.

Lemma write_long_ids_Done buf dcid wg_idx ppn enc_ports :
  (28 ≤ length buf)%nat → length dcid = 8%nat →
  write_long_ids buf dcid wg_idx ppn enc_ports
  = Done (list_inserts 5 (long_ids dcid wg_idx ppn enc_ports) buf) ∧
  length (long_ids dcid wg_idx ppn enc_ports) = 23%nat.
Proof.
  intros H Hd. split; [|unfold long_ids; len]. unfold write_long_ids.
  rewrite put_Done, bind_Done by lia. change (<[5%nat := 8]> buf) with (list_inserts 5 [8] buf).
  rewrite copy_next, bind_Done by len. rewrite put_next, bind_Done by len.
  do 2 (rewrite copy_next, bind_Done by len).
  rewrite put_next, bind_Done by len. rewrite copy_next by len.
  unfold long_ids. by rewrite <- !app_assoc.
Qed.

Lemma crypto_frame_total_bound n : (n ≤ 32)%nat → (67 ≤ crypto_frame_total n ≤ 108)%nat.
Proof.
  unfold crypto_frame_total, crypto_data_len, ch_body_len, extensions_len, sni_ext_total,
    sni_ext_data_len. case_bool; lia.
Qed.

Lemma build_crypto_frame_Done entropy domain : length entropy = 32%nat →
  ∃ f, build_crypto_frame entropy domain = Done f ∧ length f = 128%nat.
Proof.
  intros He. unfold build_crypto_frame. set (n := Nat.min (length domain) 32).
  assert (Hn : (n ≤ 32 ∧ n ≤ length domain)%nat) by lia.
  rewrite put_all_Done, bind_Done by len.
  rewrite (for_range_ext _ (λ i f, put f (10 + i) (entropy !!! Z.to_nat (Z.land (Z.of_nat i) 31)))).
  2: { intros i f Hi. rewrite get_total, bind_Done; [done|].
       rewrite He. apply (land_ones_lt _ 5). lia. }
  rewrite for_range_put, bind_Done by len.
  rewrite put_all_Done, bind_Done by len.
  destruct (Nat.ltb_spec 0 n) as [Hpos|Hz].
  - rewrite put_all_Done, bind_Done by len.
    rewrite slice_Done, bind_Done by lia.
    assert (Hw : length (window 0 (n - 0) domain) = n) by (rewrite length_window; lia).
    rewrite copy_from_slice_Done, !bind_Done by len.
    assert (sni_ext_total n = (n + 9)%nat) as ->.
    { unfold sni_ext_total, sni_ext_data_len. destruct (Nat.ltb_spec 0 n); lia. }
    rewrite put_all_Done, bind_Done by len. rewrite put_all_Done by len.
    eexists. split; [done|]. by rewrite !length_inserts, length_replicate.
  - rewrite bind_Done, put_all_Done, bind_Done by len. rewrite put_all_Done by len.
    eexists. split; [done|]. by rewrite !length_inserts, length_replicate.
Qed.

(** Sealing keeps bytes 1..28, flips at most the low nibble of byte 0, and
    does not reach the payload. *)
Lemma seal_long_Done buf ppn q_key q_iv q_hp frame total :
  (1200 ≤ length buf)%nat → length q_iv = 12%nat → length frame = 128%nat →
  (12 ≤ total ≤ 128)%nat →
  ∃ buf' m, seal_long buf ppn q_key q_iv q_hp frame total = Done buf' ∧
    length buf' = length buf ∧ buf' !!! 0%nat = Z.lxor (buf !!! 0%nat) (Z.land m 0x0F) ∧
    window 1 27 buf' = window 1 27 buf ∧ drop 1199 buf' = drop 1199 buf.
Proof.
  intros Hb Hiv Hf Ht. unfold seal_long. cbv zeta.
  set (v28 := Z.lor 0x40 _). set (v29 := as_u8 (Z.land _ _)).
  set (ppn_be := u32_to_be_bytes ppn).
  assert (Hp : length ppn_be = 4%nat) by apply length_be_bytes.
  rewrite put_Done, bind_Done by lia. rewrite put_Done, bind_Done by len.
  set (b1 := <[29%nat := v29]> _). assert (Hb1 : length b1 = length buf) by (subst b1; len).
  rewrite copy_from_slice_Done, bind_Done by len.
  rewrite xor_in_place_Done, bind_Done by len.
  set (nonce := list_inserts 8 _ _).
  assert (Hn : length nonce = 12%nat) by (subst nonce; len).
  rewrite (slice_Done b1 0), bind_Done by lia.
  assert (H30 : length (window 0 (30 - 0) b1) = 30%nat) by (apply length_window; lia).
  rewrite copy_from_slice_Done, bind_Done by len.
  rewrite copy_from_slice_Done, bind_Done by len.
  set (aad := list_inserts 30 _ _).
  rewrite (slice_Done frame), bind_Done by lia. rewrite (slice_Done b1), bind_Done by lia.
  destruct (gcm_encrypt_total (aes128_expand_key q_key) nonce aad (window 0 (total - 0) frame)
    (window 34 (34 + total - 34) b1)) as (ct & tag & -> & Hct & Htag).
  { done. }
  { rewrite !length_window; lia. }
  rewrite length_window in Hct by lia. rewrite bind_Done.
  rewrite copy_from_slice_Done, bind_Done by lia.
  rewrite copy_from_slice_Done, bind_Done by len.
  rewrite slice_Done, bind_Done by len.
  set (b2 := list_inserts (34 + total) tag _).
  assert (Hb2 : length b2 = length buf) by (subst b2; len).
  set (hp := aes128_encrypt_block _ _).
  assert (Hhp : length hp = 16%nat) by apply length_aes128_encrypt_block.
  rewrite copy_from_slice_Done, bind_Done by lia.
  set (b3 := list_inserts 30 ppn_be b2).
  assert (Hb3 : length b3 = length buf) by (subst b3; len).
  rewrite get_total, bind_Done by lia. rewrite put_Done, bind_Done by lia.
  rewrite slice_Done, bind_Done by lia.
  rewrite xor_in_place_Done by (rewrite ?length_insert, ?length_window; lia).
  set (x := xor_bytes _ _).
  assert (Hx : length x = 4%nat).
  { subst x. rewrite length_xor_bytes, length_take, !length_window by (rewrite ?length_insert; lia).
    lia. }
  eexists _, (hp !!! 0%nat). split_and!; [done| | | |].
  - by rewrite length_inserts, length_insert.
  - rewrite lookup_total_list_inserts_ne by lia.
    rewrite list_lookup_total_insert_eq by lia. f_equal.
    subst b3 b2. rewrite !lookup_total_list_inserts_ne by lia.
    subst b1. by rewrite !list_lookup_total_insert_ne by lia.
  - rewrite window_list_inserts_ne by lia.
    change (<[0%nat := ?v]> b3) with (list_inserts 0 [v] b3).
    rewrite window_list_inserts_ne by (simpl; lia). subst b3 b2.
    rewrite !window_list_inserts_ne by lia. subst b1.
    apply window_ext. intros i Hi. by rewrite !list_lookup_insert_ne by lia.
  - rewrite drop_list_inserts by lia. rewrite drop_insert_lt by lia. subst b3 b2.
    rewrite !drop_list_inserts by lia. subst b1. by rewrite !drop_insert_lt by lia.
Qed.

(** The fields of the long header the receiver reads. *)
Record long_header_ok (H : list Z) (wg_type : Z) (dcid : list Z) (ppn enc_ports : Z)
    (pad_len : nat) : Prop := {
  lh_length : length H = 1200%nat;
  lh_first : ∃ m, H !!! 0%nat = Z.lxor (long_first wg_type) (Z.land m 0x0F);
  lh_byte5 : H !!! 5%nat = 8;
  lh_dcid : window 6 8 H = dcid;
  lh_ppn : window 15 4 H = u32_to_le_bytes ppn;
  lh_ports : window 24 4 H = u32_to_le_bytes enc_ports;
  lh_pad : H !!! 1199%nat = pad_byte pad_len;
}.

(** A sub-window of a window known to be [k]. *)
Lemma window_of_window {A} lo n lo' n' (k b : list A) :
  window lo n b = k → (lo ≤ lo')%nat → (lo' + n' ≤ lo + n)%nat →
  window lo' n' b = window (lo' - lo) n' k.
Proof.
  intros <- H1 H2. apply window_ext. intros i Hi.
  rewrite lookup_window, decide_True by lia. f_equal. lia.
Qed.

Lemma lookup_total_of_window {A} `{Inhabited A} lo n i (k b : list A) :
  window lo n b = k → (lo ≤ i < lo + n)%nat → b !!! i = k !!! (i - lo)%nat.
Proof.
  intros <- Hi. rewrite !list_lookup_total_alt. f_equal.
  rewrite lookup_window, decide_True by lia. f_equal. lia.
Qed.

(** The header of a buffer whose identifiers, first byte and padding byte are
    in place. *)
Lemma long_header_of_ids b wg_type dcid wg_idx ppn enc_ports pad_len m :
  (1200 ≤ length b)%nat → length dcid = 8%nat → length (long_ids dcid wg_idx ppn enc_ports) = 23%nat →
  window 5 23 b = long_ids dcid wg_idx ppn enc_ports →
  b !!! 0%nat = Z.lxor (long_first wg_type) (Z.land m 0x0F) → b !!! 1199%nat = pad_byte pad_len →
  long_header_ok (take 1200 b) wg_type dcid ppn enc_ports pad_len.
Proof.
  intros Hb Hd Hids Hw5 H0 Hpad. set (ids := long_ids dcid wg_idx ppn enc_ports) in *.
  assert (Hw : ∀ lo n, (lo + n ≤ 1200)%nat → window lo n (take 1200 b) = window lo n b).
  { intros lo n Hlo. apply window_ext. intros i Hi. apply lookup_take_lt. lia. }
  assert (Hl : ∀ i, (i < 1200)%nat → take 1200 b !!! i = b !!! i).
  { intros i Hi. by apply lookup_total_take_lt. }
  split.
  - rewrite length_take. lia.
  - exists m. by rewrite Hl by lia.
  - rewrite Hl by lia. by rewrite (lookup_total_of_window 5 23 5 ids b) by (done || lia).
  - rewrite Hw by lia. rewrite (window_of_window 5 23 6 8 ids b) by (done || lia).
    unfold ids, long_ids. rewrite window_app_ge by len. rewrite window_app_l by len.
    apply (take_ge dcid). lia.
  - rewrite Hw by lia. rewrite (window_of_window 5 23 15 4 ids b) by (done || lia).
    unfold ids, long_ids. rewrite (app_assoc [8]), (app_assoc _ [8]).
    rewrite window_app_ge by len. rewrite window_app_l by len.
    rewrite !length_app, Hd. apply (take_ge (u32_to_le_bytes ppn)). len.
  - rewrite Hw by lia. rewrite (window_of_window 5 23 24 4 ids b) by (done || lia).
    unfold ids, long_ids. rewrite (app_assoc [8]), (app_assoc _ [8]), !(app_assoc (_ ++ _)).
    rewrite window_app_ge by len. rewrite !length_app, !length_le_bytes, Hd.
    apply (take_ge (u32_to_le_bytes enc_ports)). len.
  - by rewrite Hl by lia.
Qed.

Lemma write_quic_long_header_Done buf wg_type wg_idx ppn enc_ports pad_len orig_len wg_off
    pad_block sip_domain key rounds t_ns :
  (1200 ≤ length buf)%nat → (wg_off + orig_len ≤ length buf)%nat → length pad_block = 64%nat →
  ∃ H, write_quic_long_header buf wg_type wg_idx ppn enc_ports pad_len orig_len wg_off
         pad_block sip_domain key rounds t_ns = Done (list_inserts 0 H buf) ∧
       long_header_ok H wg_type (fixed_dcid key rounds) ppn enc_ports pad_len.
Proof.
  intros Hb Ho Hpb. unfold write_quic_long_header.
  rewrite write_long_prefix_Done, bind_Done by lia.
  set (b1 := list_inserts 0 _ buf). assert (Hb1 : length b1 = length buf) by (subst b1; len).
  destruct (long_entropy_Done b1 orig_len wg_off pad_block) as (e & -> & He); [lia|done|].
  rewrite bind_Done.
  destruct (long_fill_Done b1 pad_block t_ns) as (fill & -> & Hfill); [lia|done|].
  rewrite bind_Done. set (b2 := list_inserts 1 fill b1).
  assert (Hb2 : length b2 = length buf) by (subst b2; len).
  rewrite write_long_prefix_Done, bind_Done by lia.
  set (b3 := list_inserts 0 _ b2). assert (Hb3 : length b3 = length buf) by (subst b3; len).
  set (dcid := fixed_dcid key rounds).
  assert (Hd : length dcid = 8%nat) by apply length_fixed_dcid.
  destruct (write_long_ids_Done b3 dcid wg_idx ppn enc_ports) as [-> Hids]; [lia|done|].
  rewrite bind_Done. set (ids := long_ids dcid wg_idx ppn enc_ports) in *.
  set (b4 := list_inserts 5 ids b3). assert (Hb4 : length b4 = length buf) by (subst b4; len).
  unfold derive_quic_initial_secret, hkdf_extract. rewrite hmac_sha256_Done, bind_Done.
  unfold derive_client_initial_secret.
  rewrite hkdf_expand_label_Done by (rewrite ?length_replicate; (done || (cbn; lia))).
  rewrite bind_Done, derive_quic_keys_Done, bind_Done.
  destruct (build_crypto_frame_Done e sip_domain He) as (f & -> & Hf). rewrite bind_Done.
  pose proof (crypto_frame_total_bound (Nat.min (length sip_domain) 32) ltac:(lia)) as Htot.
  edestruct (seal_long_Done b4 ppn) as (b5 & m & -> & Hb5 & H0 & H28 & Hdrop);
    [lia|apply length_hkdf_spec|exact Hf|lia|].
  rewrite bind_Done. change (GUT_QUIC_LONG_HEADER_SIZE - 1)%nat with 1199%nat.
  rewrite put_Done by lia. set (b6 := <[1199%nat := _]> b5).
  assert (Hb6 : length b6 = length buf) by (subst b6; len).
  assert (Hids6 : window 5 23 b6 = ids).
  { subst b6. transitivity (window 5 23 b5).
    { apply window_ext. intros i Hi. by rewrite list_lookup_insert_ne by lia. }
    rewrite (window_of_window 1 27 5 23 _ b5 H28) by lia.
    rewrite <- (window_of_window 1 27 5 23 _ b4 eq_refl) by lia.
    subst b4. rewrite window_list_inserts_in by lia. rewrite <- Hids. apply window_all. }
  exists (take 1200 b6). split.
  { f_equal. apply list_inserts_prefix; [done|lia|]. subst b6. rewrite drop_insert_lt by lia.
    replace (drop 1200 b5) with (drop 1 (drop 1199 b5)) by by rewrite drop_drop.
    rewrite Hdrop, drop_drop. subst b4 b3 b2 b1.
    by rewrite !drop_list_inserts by (simpl; lia). }
  apply (long_header_of_ids b6 wg_type dcid wg_idx ppn enc_ports pad_len m); [lia|done|done|done| |].
  - subst b6. rewrite list_lookup_total_insert_ne, H0 by lia. f_equal.
    subst b4 b3. rewrite lookup_total_list_inserts_ne by lia.
    by rewrite lookup_total_list_inserts_in by (simpl; lia).
  - subst b6. by rewrite list_lookup_total_insert_eq by lia.
Qed.
