(* ===== verification/ObfsRoundtrip.v ===== *)
(** * userspace.rs: the obfuscation round trip

    [obfs_encap] produces header ++ masked payload ++ padding; [obfs_verify]
    accepts it and [obfs_decap] restores the payload and the ports. *)

From S2P Require Import Prelude Words Slices ChaCha Feistel Hkdf Obfs ObfsMask ObfsHeader Text.
Local Open Scope Z_scope.

(** ** Padding *)

Lemma encap_pad_len_bound obfs hdr_len orig_len last :
  (encap_pad_len obfs hdr_len orig_len last ≤ 64)%nat.
Proof.
  assert (H : ∀ n, (0 ≤ n) → n ≤ 6 → (Z.to_nat (Z.land last (2 ^ n - 1)) < 64)%nat).
  { intros n H1 H2. pose proof (land_ones_lt last n H1).
    pose proof (Z.pow_le_mono_r 2 n 6 ltac:(lia) H2). change (2 ^ 6) with 64 in *. lia. }
  pose proof (H 6 ltac:(lia) ltac:(lia)) as H6. pose proof (H 5 ltac:(lia) ltac:(lia)) as H5.
  change (2 ^ 6 - 1) with 0x3F in H6. change (2 ^ 5 - 1) with 0x1F in H5.
  unfold encap_pad_len. destruct obfs; repeat case_bool; lia.
Qed.

(** In Gut mode a short datagram is padded to a multiple of 16 bytes on the
    wire (with its UDP header). *)
Lemma encap_pad_len_gut hdr_len orig_len last : (orig_len < 256)%nat →
  ((8 + hdr_len + orig_len + encap_pad_len Gut hdr_len orig_len last) mod 16 = 0)%nat.
Proof.
  intros H. unfold encap_pad_len. destruct (Nat.ltb_spec orig_len 256); [|lia].
  pose proof (Nat.div_mod_eq (8 + hdr_len + orig_len) 16) as Hdm.
  pose proof (Nat.mod_upper_bound (8 + hdr_len + orig_len) 16 ltac:(lia)) as Hub.
  set (r := ((8 + hdr_len + orig_len) mod 16)%nat) in *.
  destruct (Nat.eqb_spec r 0); [by rewrite Nat.add_0_r; fold r|].
  symmetry. apply (Nat.mod_unique _ _ ((8 + hdr_len + orig_len) / 16 + 1)); lia.
Qed.

Lemma ballast_of_pad_byte n : (n ≤ 64)%nat → ballast_of (pad_byte n) = n.
Proof.
  intros Hn.
  assert (H : ∀ z, 0 ≤ z < 65 → ballast_of (pad_byte (Z.to_nat z)) = Z.to_nat z).
  { apply (check_below_P (λ z, ballast_of (pad_byte (Z.to_nat z)) = Z.to_nat z) 65).
    vm_compute. reflexivity. }
  specialize (H (Z.of_nat n) ltac:(lia)). by rewrite Nat2Z.id in H.
Qed.

Lemma write_padding_Done buf hdr_len orig_len pad_len pad_block :
  (0 < hdr_len)%nat → (hdr_len + orig_len + pad_len ≤ length buf)%nat →
  length pad_block = 64%nat →
  ∃ pad v, write_padding buf hdr_len orig_len pad_len pad_block
           = Done (<[(hdr_len - 1)%nat := v]> (list_inserts (hdr_len + orig_len) pad buf)) ∧
           length pad = pad_len ∧ (bytes pad_block → bytes pad) ∧
           ((pad_len ≤ 64)%nat → pad = take pad_len pad_block).
Proof.
  intros H0 Hb Hp. unfold write_padding. destruct (Nat.ltb_spec 0 pad_len).
  - set (g := λ i : nat, pad_block !!! Z.to_nat (Z.land (Z.of_nat i) 0x3F)).
    rewrite (for_range_ext _ (λ i b, put b (hdr_len + orig_len + i) (g i))).
    2: { intros i b Hi. rewrite get_total, bind_Done; [done|].
         rewrite Hp. apply (land_ones_lt _ 6). lia. }
    rewrite for_range_put, bind_Done by lia. rewrite put_Done by len. rewrite Nat.add_0_r.
    eexists _, _. split; [done|]. rewrite length_fmap, length_seq. split; [done|].
    split.
    + intros Hbytes. apply Forall_fmap, Forall_forall. intros i _. apply (Forall_lookup_total _ _ _ Hbytes).
      rewrite Hp. apply (land_ones_lt _ 6). lia.
    + intros Hle. apply list_eq_same_length with pad_len; [len|len|]. intros i x y Hi.
      rewrite list_lookup_fmap, lookup_seq_lt, lookup_take_lt by done. unfold g. simpl.
      intros [= <-] Hy. rewrite <- (list_lookup_total_correct _ _ _ Hy). f_equal. change 0x3F with (2 ^ 6 - 1).
      rewrite land_ones_mod by lia. rewrite Z.mod_small by lia. lia.
  - rewrite put_Done by lia. exists [], 0. split; [done|]. split; [simpl; lia|]. split; [constructor|].
    intros _. by replace pad_len with 0%nat by lia.
Qed.

(** ** Encapsulation *)

(** What the receiver can rely on in the header. *)
Definition header_ok (H : list Z) (hdr_len : nat) (wg_type : Z) (fixed : list Z)
    (dcid ppn enc_ports : Z) (pad_len : nat) : Prop :=
  length H = hdr_len ∧
  (if (hdr_len =? GUT_HEADER_SIZE)%nat then H = gut_header ppn enc_ports pad_len
   else if (hdr_len =? GUT_QUIC_SHORT_HEADER_SIZE)%nat
   then H = short_header dcid ppn enc_ports pad_len
   else long_header_ok H wg_type fixed ppn enc_ports pad_len).

Lemma encap_hdr_len_cases obfs is_server t :
  encap_hdr_len obfs is_server t = 10%nat ∧ is_quic obfs = false ∨
  encap_hdr_len obfs is_server t = 16%nat ∧ is_quic obfs = true ∨
  encap_hdr_len obfs is_server t = 1200%nat ∧ is_quic obfs = true.
Proof. unfold encap_hdr_len. destruct (is_quic obfs), (t =? 3), is_server, (t =? 1); auto. Qed.

Section encap.
  Context (buf : list Z) (orig_len : nat) (key : list Z) (rounds : Z) (is_server : bool).
  Context (wg_sport wg_dport : Z) (obfs : ObfsMode) (sip_domain : list Z) (t_ns : Z).

(** The quantities [obfs_encap] derives from the payload. *)
Definition enc_payload : list Z := take orig_len buf.
Definition enc_type : Z := Z.land (enc_payload !!! 0%nat) 0x1F.
Definition enc_ks (n : Z) : list Z :=
  chacha_block_fast key n (nonce_of enc_payload) rounds.
Definition enc_hdr : nat := encap_hdr_len obfs is_server enc_type.
Definition enc_pad : nat :=
  encap_pad_len obfs enc_hdr orig_len (words_to_bytes (enc_ks 69) !!! 63%nat).
Definition enc_masked : list Z :=
  payload_mask (words_to_bytes (enc_ks 47)) enc_type enc_payload.
Definition enc_ports : Z :=
  Z.lxor (Z.lor (shl 32 wg_sport 16) wg_dport) (enc_ks 47 !!! 11%nat).

  Context (Hkey : expanded_key key) (Hbuf : bytes buf) (Horig : (16 ≤ orig_len)%nat).
  Context (Hroom : (enc_hdr + orig_len + 64 ≤ length buf)%nat).

Lemma enc_nonce_range : is_u32 (nonce_of enc_payload).
Proof using Hbuf. apply nonce_of_range. unfold enc_payload. auto with gutd. Qed.

Lemma enc_ks_wf n : is_u32 n → KeystreamBlock (enc_ks n).
Proof using Hkey Hbuf. intros. apply chacha_block_fast_wf; [done..|apply enc_nonce_range]. Qed.

Lemma length_enc_ks n : is_u32 n → length (words_to_bytes (enc_ks n)) = 64%nat.
Proof using Hkey Hbuf. intros Hn. pose proof (enc_ks_wf n Hn). by apply ks_byte_length. Qed.

Lemma read_wg_idx_Done t : ∃ idx, read_wg_idx buf t orig_len = Done idx.
Proof using Hroom Horig.
  unfold read_wg_idx. repeat case_match; try by eexists.
  - rewrite read_u32_le_Done by lia. by eexists.
  - rewrite read_u32_le_Done by lia. by eexists.
Qed.

(** The header writer chosen by the header length. *)
Lemma write_header_Done b wg_idx ppn ep dcid pad_len pad_block :
  length b = length buf → length pad_block = 64%nat →
  ∃ H, (if (enc_hdr =? GUT_HEADER_SIZE)%nat then write_gut_header b ppn ep pad_len
        else if (enc_hdr =? GUT_QUIC_SHORT_HEADER_SIZE)%nat
        then write_quic_short_header b dcid ppn ep pad_len
        else write_quic_long_header b enc_type wg_idx ppn ep pad_len orig_len enc_hdr
               pad_block sip_domain key rounds t_ns) = Done (list_inserts 0 H b) ∧
       header_ok H enc_hdr enc_type (fixed_dcid key rounds) dcid ppn ep pad_len.
Proof using Hroom Horig.
  intros Hb Hp. unfold header_ok.
  destruct (encap_hdr_len_cases obfs is_server enc_type) as [[He _]|[[He _]|[He _]]];
    unfold enc_hdr in *; rewrite He in *; cbn [Nat.eqb].
  - rewrite write_gut_header_Done by lia. eexists. split; [done|]. split; [|done].
    unfold gut_header. len.
  - change (16 =? GUT_HEADER_SIZE)%nat with false. cbn iota.
    change (16 =? GUT_QUIC_SHORT_HEADER_SIZE)%nat with true. cbn iota.
    rewrite write_quic_short_header_Done by lia. eexists. split; [done|]. split; [|done].
    unfold short_header. len.
  - change (1200 =? GUT_HEADER_SIZE)%nat with false. cbn iota.
    change (1200 =? GUT_QUIC_SHORT_HEADER_SIZE)%nat with false. cbn iota.
    edestruct (write_quic_long_header_Done b enc_type wg_idx ppn ep pad_len orig_len 1200
      pad_block sip_domain key rounds t_ns) as (H & -> & HH); [lia..|].
    exists H. split; [done|]. split; [by eapply lh_length|done].
Qed.

(** Header, masked payload, padding, and the untouched rest. *)
Lemma obfs_encap_Done :
  ∃ H pad,
    obfs_encap buf orig_len key rounds is_server wg_sport wg_dport obfs sip_domain t_ns
    = Done (H ++ enc_masked ++ pad ++ drop (enc_hdr + orig_len + enc_pad) buf,
            Some ((enc_hdr + orig_len + enc_pad)%nat, enc_ks 47 !!! 9%nat)) ∧
    length pad = enc_pad ∧
    header_ok H enc_hdr enc_type (fixed_dcid key rounds) (enc_ks 47 !!! 9%nat)
      (enc_ks 47 !!! 10%nat) enc_ports enc_pad ∧ bytes pad ∧
    pad = take enc_pad (words_to_bytes (enc_ks 69)).
Proof using Hkey Hbuf Horig Hroom.
  assert (Hpl : length enc_payload = orig_len) by (unfold enc_payload; len).
  assert (Hpad : (enc_pad ≤ 64)%nat) by apply encap_pad_len_bound.
  assert (Hks : length (words_to_bytes (enc_ks 47)) = 64%nat)
    by (apply length_enc_ks; unfold in_width; lia).
  assert (Hks69 : length (words_to_bytes (enc_ks 69)) = 64%nat)
    by (apply length_enc_ks; unfold in_width; lia).
  assert (Hm : length enc_masked = orig_len) by (unfold enc_masked; by rewrite length_payload_mask).
  unfold obfs_encap. destruct (Nat.ltb_spec orig_len 16); [lia|].
  rewrite get_total, bind_Done by lia.
  assert (Hb0 : Z.land (buf !!! 0%nat) 0x1F = enc_type).
  { unfold enc_type, enc_payload. by rewrite lookup_total_take_lt by lia. }
  rewrite Hb0. fold enc_hdr.
  destruct (read_wg_idx_Done enc_type) as [idx ->]. rewrite bind_Done.
  rewrite slice_Done, bind_Done by lia. rewrite Nat.sub_0_r, window_0. fold enc_payload.
  rewrite wg_nonce32_Done, bind_Done. fold (enc_ks 47) (enc_ks 69).
  rewrite copy_within_Done, bind_Done by lia. rewrite Nat.sub_0_r, window_0. fold enc_payload.
  rewrite (xor16_window _ Hks _ _ orig_len), bind_Done by (rewrite ?length_inserts; lia).
  rewrite (window_inserts_eq _ _ enc_payload) by lia.
  rewrite list_inserts_twice by (rewrite ?length_xor_at16; lia).
  rewrite (mask_macs_window _ Hks), bind_Done by (rewrite ?length_inserts; lia).
  rewrite (window_inserts_eq _ _ (xor_at16 _ _ _ _)) by (rewrite ?length_xor_at16; lia).
  rewrite list_inserts_twice by (rewrite ?length_mask_tail, ?length_xor_at16; lia).
  fold (payload_mask (words_to_bytes (enc_ks 47)) enc_type enc_payload).
  fold enc_masked enc_pad enc_ports.
  destruct (write_padding_Done (list_inserts enc_hdr enc_masked buf) enc_hdr orig_len enc_pad
    (words_to_bytes (enc_ks 69))) as (pad & v & -> & Hpadl & Hpadb & Hpade).
  { destruct (encap_hdr_len_cases obfs is_server enc_type) as [[He _]|[[He _]|[He _]]];
      unfold enc_hdr; lia. }
  { rewrite length_inserts. lia. }
  { done. }
  rewrite bind_Done.
  set (b3 := <[(enc_hdr - 1)%nat := v]> _).
  assert (Hb3 : length b3 = length buf) by (subst b3; len).
  destruct (write_header_Done b3 idx (enc_ks 47 !!! 10%nat) enc_ports (enc_ks 47 !!! 9%nat)
    enc_pad (words_to_bytes (enc_ks 69))) as (H' & -> & HH); [done..|].
  rewrite bind_Done. exists H', pad. split_and!; [|done|done| |by apply Hpade].
  2: { apply Hpadb, words_to_bytes_bytes. }
  destruct HH as [HHl _].
  assert (0 < enc_hdr)%nat.
  { destruct (encap_hdr_len_cases obfs is_server enc_type) as [[He _]|[[He _]|[He _]]];
      unfold enc_hdr; lia. }
  do 2 f_equal. rewrite list_inserts_app by lia. rewrite take_0, app_nil_l, HHl. f_equal.
  cbn [Nat.add]. subst b3. rewrite drop_insert_lt by lia.
  replace (enc_hdr + orig_len)%nat with (enc_hdr + length enc_masked)%nat by lia.
  rewrite <- list_inserts_app_r, list_inserts_app by len.
  rewrite drop_app_ge by len. replace (enc_hdr - length (take enc_hdr buf))%nat with 0%nat by len.
  rewrite drop_0, <- app_assoc. do 3 f_equal. len.
Qed.
End encap.

(** ** Reading the header back *)

Lemma long_first_bits t m :
  let b := Z.lxor (long_first t) (Z.land m 0x0F) in
  Z.land b 0xC0 = 0xC0 ∧ Z.land b 0x80 = 0x80.
Proof.
  intros b. subst b.
  assert (Hm : 0 ≤ Z.land m 0x0F < 16).
  { change 0x0F with (2 ^ 4 - 1). rewrite land_ones_mod by lia. by apply Z.mod_pos_bound. }
  revert Hm. generalize (Z.land m 0x0F). unfold long_first.
  destruct (t =? 3); intros n Hn; revert n Hn.
  - apply (check_below_P (λ n, Z.land (Z.lxor 0xF3 n) 0xC0 = 0xC0 ∧
      Z.land (Z.lxor 0xF3 n) 0x80 = 0x80) 16). vm_compute. reflexivity.
  - apply (check_below_P (λ n, Z.land (Z.lxor 0xC3 n) 0xC0 = 0xC0 ∧
      Z.land (Z.lxor 0xC3 n) 0x80 = 0x80) 16). vm_compute. reflexivity.
Qed.

Section header.
  Context (H X : list Z) (obfs : ObfsMode) (is_server : bool) (t : Z) (fixed : list Z).
  Context (dcid ppn ports : Z) (pad_len : nat).
  Local Abbreviation hdr := (encap_hdr_len obfs is_server t).
  Context (HH : header_ok H hdr t fixed dcid ppn ports pad_len).

  (** The three header formats. *)
Lemma header_cases :
  (hdr = 10%nat ∧ is_quic obfs = false ∧ H = gut_header ppn ports pad_len) ∨
  (hdr = 16%nat ∧ is_quic obfs = true ∧ H = short_header dcid ppn ports pad_len) ∨
  (hdr = 1200%nat ∧ is_quic obfs = true ∧ long_header_ok H t fixed ppn ports pad_len).
Proof using HH.
  destruct HH as [_ Hc].
  destruct (encap_hdr_len_cases obfs is_server t) as [[He Hq]|[[He Hq]|[He Hq]]];
    rewrite He in Hc; auto.
Qed.

Lemma header_app_lookup i : (i < length H)%nat → (H ++ X) !!! i = H !!! i.
Proof using Type. apply lookup_total_app_l. Qed.

Lemma header_length_pos : (10 ≤ length H)%nat.
Proof using HH.
  destruct HH as [-> _].
  destruct (encap_hdr_len_cases obfs is_server t) as [[-> _]|[[-> _]|[-> _]]]; lia.
Qed.

Lemma header_pad : (H ++ X) !!! (hdr - 1)%nat = pad_byte pad_len.
Proof using HH.
  pose proof header_length_pos. destruct HH as [Hl _]. rewrite header_app_lookup by lia.
  destruct header_cases as [(-> & _ & ->)|[(-> & _ & ->)|(-> & _ & Hok)]].
  - unfold gut_header. rewrite lookup_total_app_r, lookup_total_app_r by len.
    by rewrite !length_le_bytes.
  - unfold short_header. do 5 rewrite lookup_total_app_r by len. by rewrite !length_le_bytes.
  - by apply lh_pad in Hok.
Qed.

Lemma decap_hdr_len_Done : decap_hdr_len (H ++ X) obfs = Done (Some hdr).
Proof using HH.
  pose proof header_length_pos. unfold decap_hdr_len.
  destruct header_cases as [(-> & -> & ->)|[(-> & -> & ->)|(-> & -> & Hok)]]; [done|done|].
  cbn [negb]. rewrite get_total, bind_Done by len. rewrite header_app_lookup by lia.
  destruct (lh_first _ _ _ _ _ _ Hok) as [m ->].
  by rewrite (proj2 (long_first_bits t m)).
Qed.

Lemma verify_hdr_len_Done : verify_hdr_len (H ++ X) obfs = Done (Some hdr).
Proof using HH.
  pose proof header_length_pos. unfold verify_hdr_len, byte5_is.
  rewrite (get_total _ 0), (get_total _ 5), bind_Done by len.
  rewrite (header_app_lookup 0), (header_app_lookup 5) by lia.
  destruct (Nat.leb_spec (length (H ++ X)) 5) as [Hle|_]; [rewrite length_app in Hle; lia|].
  destruct header_cases as [(-> & -> & HHe)|[(-> & -> & HHe)|(-> & -> & Hok)]]; cbn [negb].
  - done.
  - rewrite HHe. unfold short_header. rewrite (app_assoc [0x40]).
    rewrite (lookup_total_app_l _ _ 0), (lookup_total_app_r _ _ 5) by len.
    rewrite length_app, length_le_bytes. done.
  - destruct (lh_first _ _ _ _ _ _ Hok) as [m ->]. rewrite (proj1 (long_first_bits t m)).
    change (0xC0 =? 0xC0) with true. cbn iota.
    by rewrite bind_Done, (lh_byte5 _ _ _ _ _ _ Hok).
Qed.

(** A little-endian word of the header. *)
Lemma header_read lo v : (lo + 4 ≤ length H)%nat → is_u32 v →
  window lo 4 H = u32_to_le_bytes v → read_u32_le (H ++ X) lo (lo + 4) = Done v.
Proof using Type.
  intros Hlo Hv Hw. rewrite read_u32_le_Done by len. f_equal.
  apply from_le_window_u32; [done|]. by rewrite window_app_l.
Qed.

Context (Hports : is_u32 ports).

Lemma header_ports :
  (if (hdr =? GUT_HEADER_SIZE)%nat then read_u32_le (H ++ X) 4 8
   else if (hdr =? GUT_QUIC_SHORT_HEADER_SIZE)%nat then read_u32_le (H ++ X) 10 14
   else read_u32_le (H ++ X) 24 28) = Done ports.
Proof using HH Hports.
  pose proof header_length_pos. destruct HH as [Hl _].
  destruct header_cases as [(He & _ & HHe)|[(He & _ & HHe)|(He & _ & Hok)]]; rewrite He in *.
  - apply (header_read 4); [lia|done|]. rewrite HHe. unfold gut_header.
    rewrite window_app_ge, length_le_bytes by len. rewrite window_app_l by len.
    apply (take_ge (u32_to_le_bytes ports)). len.
  - apply (header_read 10); [lia|done|]. rewrite HHe. unfold short_header.
    rewrite !app_assoc. rewrite window_app_l by len. rewrite window_app_ge by len.
    rewrite !length_app, !length_le_bytes. apply (take_ge (u32_to_le_bytes ports)). len.
  - apply (header_read 24); [lia|done|]. by apply lh_ports in Hok.
Qed.
End header.

(** ** Decapsulation and verification of an encapsulated datagram *)

Lemma plain_ports_eq sport dport : is_u16 sport → is_u16 dport →
  Z.lor (shl 32 sport 16) dport = sport * 2 ^ 16 + dport ∧
  is_u32 (sport * 2 ^ 16 + dport) ∧
  as_u16 (shr (sport * 2 ^ 16 + dport) 16) = sport ∧
  as_u16 (Z.land (sport * 2 ^ 16 + dport) 0xFFFF) = dport.
Proof.
  unfold in_width. intros Hs Hd. split_and!.
  - apply lor_shl_add; lia.
  - lia.
  - lia.
  - rewrite shr_div by lia. rewrite Z.div_add_l by lia.
    rewrite Z.div_small by done. rewrite Z.add_0_r. by apply wrap_small.
  - change 0xFFFF with (2 ^ 16 - 1). rewrite land_ones_mod by lia.
    rewrite Z.add_comm, Z.mod_add by lia. rewrite Z.mod_small by done. by apply wrap_small.
Qed.

Lemma short_header_dcid dcid ppn ep n :
  window 1 4 (short_header dcid ppn ep n) = u32_to_le_bytes dcid.
Proof.
  unfold short_header. rewrite window_app_ge by len. rewrite window_app_l by len.
  apply (take_ge (u32_to_le_bytes dcid)). len.
Qed.

Lemma short_header_ppn dcid ppn ep n :
  window 6 4 (short_header dcid ppn ep n) = u32_to_le_bytes ppn.
Proof.
  unfold short_header. do 3 rewrite window_app_ge by len. rewrite window_app_l by len.
  rewrite !length_le_bytes. apply (take_ge (u32_to_le_bytes ppn)). len.
Qed.

Section wire.
  Context (buf : list Z) (orig_len : nat) (key : list Z) (rounds : Z) (is_server : bool).
  Context (wg_sport wg_dport : Z) (obfs : ObfsMode).
  Context (Hkey : expanded_key key) (Hbuf : bytes buf) (Horig : (16 ≤ orig_len ≤ length buf)%nat).
  Context (Hsport : is_u16 wg_sport) (Hdport : is_u16 wg_dport).

  Local Abbreviation P := (enc_payload buf orig_len).
  Local Abbreviation t := (enc_type buf orig_len).
  Local Abbreviation ks := (enc_ks buf orig_len key rounds).
  Local Abbreviation hdr := (enc_hdr buf orig_len is_server obfs).
  Local Abbreviation npad := (enc_pad buf orig_len key rounds is_server obfs).
  Local Abbreviation M := (enc_masked buf orig_len key rounds).
  Local Abbreviation ports := (enc_ports buf orig_len key rounds wg_sport wg_dport).

  Context (H pad rest : list Z) (Hpad : length pad = npad).
  Context (HH : header_ok H hdr t (fixed_dcid key rounds) (ks 47 !!! 9%nat) (ks 47 !!! 10%nat)
                  ports npad).

  Local Abbreviation W := (H ++ M ++ pad ++ rest).

Lemma ks47_word i : (i < 16)%nat → is_u32 (ks 47 !!! i).
Proof.
  intros Hi. assert (Hw : KeystreamBlock (ks 47)) by (apply enc_ks_wf; auto with gutd).
  by apply ks_word.
Qed.

Lemma ports_u32 : is_u32 ports.
Proof.
  unfold enc_ports. apply lxor_range; [done| |by apply ks47_word, Nat.ltb_lt].
  by destruct (plain_ports_eq _ _ Hsport Hdport) as (-> & ? & _).
Qed.

Lemma payload_length : length P = orig_len.
Proof. unfold enc_payload. len. Qed.

Lemma masked_length : length M = orig_len.
Proof. unfold enc_masked. rewrite length_payload_mask. apply payload_length. Qed.

Lemma ks47_bytes_length : length (words_to_bytes (ks 47)) = 64%nat.
Proof. by apply length_enc_ks; auto with gutd. Qed.

Lemma npad_bound : (npad ≤ 64)%nat.
Proof. apply encap_pad_len_bound. Qed.

(** The receiver's view of the payload, and the nonce it derives. *)
Lemma wire_window : window hdr orig_len W = M.
Proof.
  destruct HH as [<- _]. rewrite window_app_ge, Nat.sub_diag by lia.
  rewrite window_app_l by (rewrite masked_length; lia). rewrite window_0.
  apply take_ge. rewrite masked_length. lia.
Qed.

Lemma wire_length : (hdr + orig_len + npad ≤ length W)%nat.
Proof.
  destruct HH as [<- _]. rewrite !length_app, masked_length. lia.
Qed.

Lemma wire_nonce : nonce_of M = nonce_of P.
Proof.
  apply nonce_of_masked; [apply ks47_bytes_length|rewrite payload_length; lia].
Qed.

Lemma wire_pad : W !!! (hdr - 1)%nat = pad_byte npad.
Proof. exact (header_pad H (M ++ pad ++ rest) _ _ _ _ _ _ _ _ HH). Qed.

Lemma wire_ports :
  (if (hdr =? GUT_HEADER_SIZE)%nat then read_u32_le W 4 8
   else if (hdr =? GUT_QUIC_SHORT_HEADER_SIZE)%nat then read_u32_le W 10 14
   else read_u32_le W 24 28) = Done ports.
Proof. exact (header_ports H (M ++ pad ++ rest) _ _ _ _ _ _ _ _ HH ports_u32). Qed.

Lemma decap_wire :
  ∃ back, obfs_decap W (hdr + orig_len + npad) key rounds obfs
          = Done (back, Some (orig_len, wg_sport, wg_dport)) ∧
          take orig_len back = P ∧ length back = length W.
Proof.
  pose proof wire_length as HW. pose proof npad_bound as Hnp.
  pose proof ks47_bytes_length as Hks. pose proof payload_length as HP.
  pose proof masked_length as HM.
  assert (0 < hdr)%nat.
  { destruct HH as [<- _]. by pose proof (header_length_pos H _ _ _ _ _ _ _ _ HH); lia. }
  unfold obfs_decap. destruct (Nat.eqb_spec (hdr + orig_len + npad) 0); [lia|].
  rewrite (decap_hdr_len_Done H (M ++ pad ++ rest) _ _ _ _ _ _ _ _ HH), bind_Done.
  fold hdr. destruct (Nat.ltb_spec (hdr + orig_len + npad) (hdr + 16)); [lia|].
  rewrite get_total, bind_Done by lia.
  rewrite wire_pad, ballast_of_pad_byte by done.
  replace (hdr + orig_len + npad - hdr)%nat with (orig_len + npad)%nat by lia.
  destruct (Nat.ltb_spec (orig_len + npad) npad); [lia|].
  replace (orig_len + npad - npad)%nat with orig_len by lia.
  rewrite wire_ports, bind_Done.
  rewrite slice_window, bind_Done by lia. rewrite wire_window, wg_nonce32_Done, bind_Done.
  rewrite wire_nonce. fold (ks 47).
  rewrite (xor16_window _ Hks _ _ orig_len), bind_Done by lia.
  rewrite wire_window. set (M1 := xor_at16 0 0 (words_to_bytes (ks 47)) M).
  assert (HM1 : M1 = mask_tail (words_to_bytes (ks 47)) t P) by (apply unmask_head; [done|lia]).
  assert (HM1l : length M1 = orig_len) by (rewrite HM1, length_mask_tail; done).
  rewrite get_total, bind_Done by (rewrite length_inserts; lia).
  rewrite lookup_total_list_inserts_in by lia. rewrite Nat.sub_diag.
  assert (Hty : Z.land (M1 !!! 0%nat) 0x1F = t).
  { unfold enc_type. f_equal. rewrite HM1.
    rewrite <- (lookup_total_take_lt _ 76), mask_tail_head by (done || lia).
    apply lookup_total_take_lt. lia. }
  rewrite Hty. rewrite (mask_macs_window _ Hks), bind_Done by (rewrite length_inserts; lia).
  rewrite (window_inserts_eq _ _ M1) by lia.
  rewrite HM1, mask_tail_involutive by done. rewrite <- HM1.
  rewrite list_inserts_twice by lia.
  rewrite copy_within_Done, bind_Done by (rewrite ?length_inserts; lia).
  replace (hdr + orig_len - hdr)%nat with orig_len by lia.
  rewrite (window_inserts_eq _ _ P) by lia.
  destruct (plain_ports_eq _ _ Hsport Hdport) as (Hpp & _ & Hs & Hd).
  unfold enc_ports. rewrite lxor_involutive, Hpp.
  rewrite Hs, Hd. eexists. split; [done|]. split; [|by rewrite !length_inserts].
  rewrite <- window_0. apply window_inserts_eq; [lia|rewrite length_inserts; lia].
Qed.

(** The receiver recomputes the same keystream and compares. *)
(** What the receiver reads from the header, little-endian. *)
Lemma header_read4 lo hi v : hi = (lo + 4)%nat → (lo + 4 ≤ length H)%nat → is_u32 v →
  window lo 4 H = u32_to_le_bytes v → read_u32_le W lo hi = Done v.
Proof. intros ->. intros. by apply header_read. Qed.

Lemma verify_gut : is_quic obfs = false → read_u32_le W 0 4 = Done (ks 47 !!! 10%nat).
Proof.
  intros Hq. pose proof (header_length_pos H _ _ _ _ _ _ _ _ HH) as Hpos.
  destruct (header_cases H _ _ _ _ _ _ _ _ HH) as [(He & _ & HHe)|[(_ & ? & _)|(_ & ? & _)]]; [|congruence..].
  apply header_read4; [done| |apply ks47_word; lia|].
  - destruct HH. lia.
  - rewrite HHe. unfold gut_header. rewrite window_app_l by len.
    apply (take_ge (u32_to_le_bytes _)). len.
Qed.

Lemma verify_wire : (32 ≤ orig_len)%nat →
  obfs_verify W (hdr + orig_len + npad) key rounds obfs = Done true.
Proof.
  intros H32. pose proof wire_length as HW. pose proof npad_bound as Hnp.
  pose proof ks47_bytes_length as Hks. pose proof payload_length as HP.
  pose proof masked_length as HM.
  pose proof (header_length_pos H _ _ _ _ _ _ _ _ HH) as Hpos.
  assert (Hhl : length H = hdr) by by destruct HH.
  unfold obfs_verify. destruct (Nat.eqb_spec (hdr + orig_len + npad) 0); [lia|].
  rewrite (verify_hdr_len_Done H (M ++ pad ++ rest) _ _ _ _ _ _ _ _ HH), bind_Done.
  fold hdr. destruct (Nat.ltb_spec (hdr + orig_len + npad) (hdr + 32)); [lia|].
  rewrite get_total, bind_Done by lia.
  rewrite wire_pad, ballast_of_pad_byte by done.
  replace (hdr + orig_len + npad - hdr)%nat with (orig_len + npad)%nat by lia.
  destruct (Nat.ltb_spec (orig_len + npad) npad); [lia|].
  replace (orig_len + npad - npad)%nat with orig_len by lia.
  destruct (Nat.ltb_spec orig_len 32); [lia|].
  rewrite (slice_window W hdr orig_len), bind_Done by lia.
  rewrite wire_window, wg_nonce32_Done, bind_Done.
  rewrite wire_nonce. fold (ks 47).
  assert (Hw9 : is_u32 (ks 47 !!! 9%nat)) by (apply ks47_word; lia).
  assert (Hw10 : is_u32 (ks 47 !!! 10%nat)) by (apply ks47_word; lia).
  destruct (is_quic obfs) eqn:Hq; cbn [negb].
  2: { rewrite verify_gut, bind_Done by done. by rewrite Z.eqb_refl. }
  rewrite (slice_window W hdr 16), bind_Done by lia.
  rewrite copy_from_slice_Done, bind_Done by (rewrite ?length_window, ?length_replicate; lia).
  rewrite xor16_Done, bind_Done by (rewrite ?length_inserts, ?length_replicate; lia).
  set (hd := list_inserts 0 (xor_bytes _ _) _).
  assert (Hhd : length hd = 16%nat) by (subst hd; len).
  assert (Hidx : ∃ x, (if Z.land (hd !!! 0%nat) 0x1F =? 2 then read_u32_le hd 8 12
                       else read_u32_le hd 4 8) = Done x).
  { destruct (_ =? 2); rewrite read_u32_le_Done by lia; by eexists. }
  destruct Hidx as [idx ->]. rewrite bind_Done.
  destruct (header_cases H _ _ _ _ _ _ _ _ HH) as [(_ & ? & _)|[(He & _ & HHe)|(He & _ & Hok)]];
    [congruence|..]; fold hdr in He; rewrite He.
  - change (16 =? GUT_QUIC_SHORT_HEADER_SIZE)%nat with true. cbn iota.
    rewrite (header_read4 1%nat 5%nat (ks 47 !!! 9%nat)), bind_Done;
      [|done|lia|done|rewrite HHe; apply short_header_dcid].
    rewrite (header_read4 6%nat 10%nat (ks 47 !!! 10%nat)), bind_Done;
      [|done|lia|done|rewrite HHe; apply short_header_ppn].
    by rewrite !Z.eqb_refl.
  - change (1200 =? GUT_QUIC_SHORT_HEADER_SIZE)%nat with false. cbn iota.
    destruct (Nat.ltb_spec (length W) 20); [lia|].
    assert (H99 : is_u32 (chacha_block_fast key 99 0 rounds !!! 0%nat)).
    { assert (KeystreamBlock (chacha_block_fast key 99 0 rounds))
        by (apply chacha_block_fast_wf; auto with gutd). apply ks_word; (done || lia). }
    rewrite (header_read4 6%nat 10%nat _ eq_refl ltac:(lia) H99), bind_Done.
    2: { rewrite (window_of_window 6 8 6 4 _ H (lh_dcid _ _ _ _ _ _ Hok)) by lia.
         unfold fixed_dcid. rewrite window_app_l by len.
         apply (take_ge (u32_to_le_bytes _)). len. }
    rewrite (header_read4 15%nat 19%nat (ks 47 !!! 10%nat)), bind_Done;
      [|done|lia|done|by apply lh_ppn in Hok].
    rewrite from_le_bytes, wrap_small by done. by rewrite !Z.eqb_refl.
Qed.
End wire.

(** ** The properties *)

(** The datagram [obfs_encap] makes, as the receiver of the same mode sees it
    whatever follows it in the slot. *)
Lemma obfs_channel buf orig_len key rounds is_server wg_sport wg_dport obfs sip_domain t_ns :
  expanded_key key → bytes buf → is_u16 wg_sport → is_u16 wg_dport → (16 ≤ orig_len)%nat →
  (encap_hdr_len obfs is_server (Z.land (buf !!! 0%nat) 0x1F) + orig_len + 64 ≤ length buf)%nat →
  ∃ D tail dcid,
    obfs_encap buf orig_len key rounds is_server wg_sport wg_dport obfs sip_domain t_ns
    = Done (D ++ tail, Some (length D, dcid)) ∧
    (orig_len + 10 ≤ length D)%nat ∧ (length D + length tail = length buf)%nat ∧ is_u32 dcid ∧
    (is_quic obfs = false → bytes D) ∧
    (is_quic obfs = true → D !!! 0%nat = 0x40 ∨ Z.land (D !!! 0%nat) 0xC0 = 0xC0) ∧
    ∀ rest, ((32 ≤ orig_len)%nat → obfs_verify (D ++ rest) (length D) key rounds obfs = Done true) ∧
      ∃ back, obfs_decap (D ++ rest) (length D) key rounds obfs
              = Done (back, Some (orig_len, wg_sport, wg_dport)) ∧
              take orig_len back = take orig_len buf ∧ length back = length (D ++ rest).
Proof.
  intros Hkey Hbuf Hs Hd Ho Hroom.
  assert (Hroom' : (enc_hdr buf orig_len is_server obfs + orig_len + 64 ≤ length buf)%nat).
  { unfold enc_hdr, enc_type, enc_payload. by rewrite lookup_total_take_lt by lia. }
  destruct (obfs_encap_Done buf orig_len key rounds is_server wg_sport wg_dport obfs sip_domain
    t_ns Hkey Hbuf Ho Hroom') as (H & pad & -> & Hpad & HH & Hpb & _).
  assert (Hnp : (enc_pad buf orig_len key rounds is_server obfs ≤ 64)%nat)
    by apply encap_pad_len_bound.
  assert (Hm : length (enc_masked buf orig_len key rounds) = orig_len)
    by (unfold enc_masked, enc_payload; rewrite length_payload_mask; len).
  pose proof (header_length_pos H _ _ _ _ _ _ _ _ HH) as Hpos.
  assert (Hhl : length H = enc_hdr buf orig_len is_server obfs) by by destruct HH.
  assert (HlD : length (H ++ enc_masked buf orig_len key rounds ++ pad)
    = (enc_hdr buf orig_len is_server obfs + orig_len
       + enc_pad buf orig_len key rounds is_server obfs)%nat) by (rewrite !length_app; lia).
  exists (H ++ enc_masked buf orig_len key rounds ++ pad), (drop (enc_hdr buf orig_len is_server obfs
    + orig_len + enc_pad buf orig_len key rounds is_server obfs) buf), (enc_ks buf orig_len key rounds 47 !!! 9%nat).
  rewrite HlD, <- !app_assoc. split_and!; [done|lia|rewrite length_drop; lia| | | |].
  - assert (Hw : KeystreamBlock (enc_ks buf orig_len key rounds 47))
      by (apply enc_ks_wf; auto with gutd).
    apply (ks_word _ 9). lia.
  - intros Hq. apply Forall_app_2; [|apply Forall_app_2; [|done]].
    + destruct (header_cases H _ _ _ _ _ _ _ _ HH) as [(_ & _ & ->)|[(_ & Hq' & _)|(_ & Hq' & _)]];
        [by apply gut_header_bytes|congruence..].
    + unfold enc_masked, enc_payload. apply payload_mask_bytes; [apply words_to_bytes_bytes|].
      by apply Forall_take.
  - intros Hq. rewrite header_app_lookup by lia.
    destruct (header_cases H _ _ _ _ _ _ _ _ HH) as [(_ & Hq' & _)|[(_ & _ & ->)|(_ & _ & Hok)]];
      [congruence|by left|right].
    destruct (lh_first _ _ _ _ _ _ Hok) as [m ->]. apply long_first_bits.
  - intros rest. rewrite <- !app_assoc. split.
    + intros H32. eapply (verify_wire buf orig_len key rounds is_server wg_sport wg_dport obfs);
        (exact Hpad || exact HH || done || lia).
    + destruct (decap_wire buf orig_len key rounds is_server wg_sport wg_dport obfs Hkey Hbuf
        ltac:(lia) Hs Hd H pad rest Hpad HH) as (back & Hback & Htake & Hlb).
      exists back. split; [done|]. split; [|done]. by rewrite Htake.
Qed.

(** C4: encapsulation followed by decapsulation is the identity, in every
    obfuscation mode and role: for every datagram of at least 16 bytes in a
    buffer with room for the header and 64 bytes of padding, [obfs_encap]
    returns without panicking a longer datagram of [n] bytes, and [obfs_decap]
    on those [n] bytes, in whatever buffer they are received, returns the
    original length and ports and puts the original bytes at the front. *)
Theorem obfs_roundtrip buf orig_len key rounds is_server wg_sport wg_dport obfs sip_domain t_ns :
  expanded_key key → bytes buf → is_u16 wg_sport → is_u16 wg_dport →
  (16 ≤ orig_len)%nat →
  (encap_hdr_len obfs is_server (Z.land (buf !!! 0%nat) 0x1F) + orig_len + 64
   ≤ length buf)%nat →
  ∃ out n dcid,
    obfs_encap buf orig_len key rounds is_server wg_sport wg_dport obfs sip_domain t_ns
    = Done (out, Some (n, dcid)) ∧
    length out = length buf ∧ (orig_len + 10 ≤ n ≤ length buf)%nat ∧
    ∀ rest, ∃ back,
      obfs_decap (take n out ++ rest) n key rounds obfs
      = Done (back, Some (orig_len, wg_sport, wg_dport)) ∧
      take orig_len back = take orig_len buf.
Proof.
  intros Hkey Hbuf Hs Hd Ho Hroom.
  destruct (obfs_channel buf orig_len key rounds is_server wg_sport wg_dport obfs sip_domain t_ns)
    as (D & tail & dcid & He & Hn & Hl & _ & _ & _ & Hr); [done..|].
  exists (D ++ tail), (length D), dcid. rewrite length_app, take_app_length.
  split_and!; [done|done|lia|lia|]. intros rest.
  destruct (Hr rest) as (_ & back & Hb & Ht & _). by exists back.
Qed.

Lemma obfs_roundtrip_witness :
  ∃ out n dcid,
    obfs_encap (replicate 1500 1) 148 (replicate 12 7) 4 false 51820 443 Quic (bs "example.com")
      123456789 = Done (out, Some (n, dcid)) ∧
    length out = length (replicate 1500 1) ∧ (148 + 10 ≤ n ≤ length (replicate 1500 1))%nat ∧
    ∀ rest, ∃ back,
      obfs_decap (take n out ++ rest) n (replicate 12 7) 4 Quic
      = Done (back, Some (148%nat, 51820, 443)) ∧
      take 148 back = take 148 (replicate 1500 1).
Proof.
  apply obfs_roundtrip; try (unfold in_width; lia).
  - split; [apply Forall_replicate; unfold in_width; lia|reflexivity].
  - apply Forall_replicate; unfold in_width; lia.
  - vm_compute. lia.
Defined.

(** Every datagram [obfs_encap] makes from a packet of at least 32 bytes (all
    WireGuard messages are) is recognised by [obfs_verify] with the same key,
    round count and mode, in whatever buffer it is received. *)
Theorem obfs_verify_accepts buf orig_len key rounds is_server wg_sport wg_dport obfs sip_domain
    t_ns :
  expanded_key key → bytes buf → is_u16 wg_sport → is_u16 wg_dport →
  (32 ≤ orig_len)%nat →
  (encap_hdr_len obfs is_server (Z.land (buf !!! 0%nat) 0x1F) + orig_len + 64
   ≤ length buf)%nat →
  ∃ out n dcid,
    obfs_encap buf orig_len key rounds is_server wg_sport wg_dport obfs sip_domain t_ns
    = Done (out, Some (n, dcid)) ∧
    ∀ rest, obfs_verify (take n out ++ rest) n key rounds obfs = Done true.
Proof.
  intros Hkey Hbuf Hs Hd Ho Hroom.
  destruct (obfs_channel buf orig_len key rounds is_server wg_sport wg_dport obfs sip_domain t_ns)
    as (D & tail & dcid & He & _ & _ & _ & _ & _ & Hr); [done..|lia|done|].
  exists (D ++ tail), (length D), dcid. rewrite take_app_length.
  split; [done|]. intros rest. by apply Hr.
Qed.

Lemma obfs_verify_accepts_witness :
  ∃ out n dcid,
    obfs_encap (replicate 1500 4) 96 (replicate 12 7) 4 true 51820 443 Gut [] 0
    = Done (out, Some (n, dcid)) ∧
    ∀ rest, obfs_verify (take n out ++ rest) n (replicate 12 7) 4 Gut = Done true.
Proof.
  apply obfs_verify_accepts; try (unfold in_width; lia).
  - split; [apply Forall_replicate; unfold in_width; lia|reflexivity].
  - apply Forall_replicate; unfold in_width; lia.
  - vm_compute. lia.
Defined.

(** ** Arbitrary received datagrams *)

Lemma decap_hdr_len_total buf obfs : (0 < length buf)%nat →
  ∃ o, decap_hdr_len buf obfs = Done o ∧
       ∀ h, o = Some h → h = 10%nat ∨ h = 16%nat ∨ h = 1200%nat.
Proof.
  intros Hb. unfold decap_hdr_len. destruct (is_quic obfs); cbn [negb].
  - rewrite get_total, bind_Done by done. eexists. split; [done|].
    intros h. repeat case_bool; intros [= <-]; auto.
  - eexists. split; [done|]. intros h [= <-]. auto.
Qed.

Lemma verify_hdr_len_total buf obfs : (0 < length buf)%nat →
  ∃ o, verify_hdr_len buf obfs = Done o ∧
       ∀ h, o = Some h → h = 10%nat ∨ h = 16%nat ∨ h = 1200%nat.
Proof.
  intros Hb. unfold verify_hdr_len, byte5_is. rewrite (get_total _ 0), bind_Done by done.
  destruct (is_quic obfs); cbn [negb]; [|eexists; split; [done|]; intros h [= <-]; auto].
  destruct (Nat.leb_spec (length buf) 5) as [Hle|Hgt].
  - repeat case_bool; eexists; (split; [done|]); intros h [=].
  - rewrite (get_total _ 5) by done. rewrite !bind_Done.
    repeat case_bool; eexists; (split; [done|]); intros h [= <-]; auto.
Qed.

Section receive.
  Context (buf : list Z) (size : nat) (key : list Z) (rounds : Z) (obfs : ObfsMode).
  Context (Hkey : expanded_key key) (Hbuf : bytes buf) (Hsize : (size ≤ length buf)%nat).

Lemma rx_keystream wg : bytes wg →
  length (words_to_bytes (chacha_block_fast key 47 (nonce_of wg) rounds)) = 64%nat.
Proof.
  intros Hwg. assert (Hw : KeystreamBlock (chacha_block_fast key 47 (nonce_of wg) rounds)).
  { apply chacha_block_fast_wf; [done|auto with gutd|by apply nonce_of_range]. }
  by apply ks_byte_length.
Qed.

Lemma obfs_decap_Done : ∃ back r, obfs_decap buf size key rounds obfs = Done (back, r) ∧
  length back = length buf ∧ ∀ n s d, r = Some (n, s, d) → (n + 10 ≤ size)%nat.
Proof.
  unfold obfs_decap. destruct (Nat.eqb_spec size 0); [by eexists _, None|].
  destruct (decap_hdr_len_total buf obfs) as ([h|] & -> & Hh); [lia| |by eexists _, None].
  rewrite bind_Done. specialize (Hh h eq_refl).
  destruct (Nat.ltb_spec size (h + 16)); [by eexists _, None|].
  rewrite get_total, bind_Done by lia. set (bl := ballast_of _).
  destruct (Nat.ltb_spec (size - h) bl); [by eexists _, None|].
  set (al := (size - h - bl)%nat).
  assert (Hp : ∃ ep, (if (h =? GUT_HEADER_SIZE)%nat then read_u32_le buf 4 8
                      else if (h =? GUT_QUIC_SHORT_HEADER_SIZE)%nat then read_u32_le buf 10 14
                      else read_u32_le buf 24 28) = Done ep).
  { destruct Hh as [-> | [-> | ->]]; cbn [Nat.eqb GUT_HEADER_SIZE GUT_QUIC_SHORT_HEADER_SIZE];
      rewrite read_u32_le_Done by lia; by eexists. }
  destruct Hp as [ep ->]. rewrite bind_Done.
  rewrite slice_window, bind_Done, wg_nonce32_Done, bind_Done by lia.
  pose proof (rx_keystream (window h al buf) ltac:(auto with gutd)) as Hks.
  set (ks := words_to_bytes _) in *.
  rewrite xor16_Done, bind_Done by lia. set (b1 := list_inserts h _ buf).
  assert (Hb1 : length b1 = length buf) by (subst b1; len).
  rewrite get_total, bind_Done by lia.
  rewrite (mask_macs_window _ Hks), bind_Done by lia.
  rewrite copy_within_Done, bind_Done by (rewrite ?length_inserts; lia).
  eexists _, _. split; [done|]. split; [by rewrite !length_inserts|].
  intros ??? [= <- <- <-]. lia.
Qed.

Lemma obfs_verify_Done : ∃ r, obfs_verify buf size key rounds obfs = Done r.
Proof.
  unfold obfs_verify. destruct (Nat.eqb_spec size 0); [by eexists|].
  destruct (verify_hdr_len_total buf obfs) as ([h|] & -> & Hh); [lia| |by eexists].
  rewrite bind_Done. specialize (Hh h eq_refl).
  destruct (Nat.ltb_spec size (h + 32)); [by eexists|].
  rewrite get_total, bind_Done by lia. set (bl := ballast_of _).
  destruct (Nat.ltb_spec (size - h) bl); [by eexists|].
  set (al := (size - h - bl)%nat). destruct (Nat.ltb_spec al 32); [by eexists|].
  rewrite (slice_window buf h al), bind_Done, wg_nonce32_Done, bind_Done by lia.
  pose proof (rx_keystream (window h al buf) ltac:(auto with gutd)) as Hks.
  set (ks := chacha_block_fast _ _ _ _) in *.
  destruct (is_quic obfs); cbn [negb].
  2: { rewrite read_u32_le_Done by lia. by eexists. }
  rewrite (slice_window buf h 16), bind_Done by lia.
  rewrite copy_from_slice_Done, bind_Done by (rewrite ?length_window, ?length_replicate; lia).
  rewrite xor16_Done, bind_Done by (rewrite ?length_inserts, ?length_replicate; lia).
  set (hd := list_inserts 0 (xor_bytes _ _) _).
  assert (Hhd : length hd = 16%nat) by (subst hd; len).
  assert (Hidx : ∃ x, (if Z.land (hd !!! 0%nat) 0x1F =? 2 then read_u32_le hd 8 12
                       else read_u32_le hd 4 8) = Done x).
  { destruct (_ =? 2); rewrite read_u32_le_Done by lia; by eexists. }
  destruct Hidx as [idx ->]. rewrite bind_Done.
  destruct (_ =? _)%nat; [rewrite !read_u32_le_Done by lia; by eexists|].
  destruct (_ <? _)%nat; [by eexists|]. rewrite !read_u32_le_Done by lia. by eexists.
Qed.
End receive.

(** No received datagram can crash the receive path: whatever the bytes, for
    every length that fits the buffer and every mode, [obfs_verify] and
    [obfs_decap] return, the buffer keeps its length, and a decapsulated payload
    is shorter than the datagram it came from. *)
Theorem obfs_receive_total buf size key rounds obfs :
  expanded_key key → bytes buf → (size ≤ length buf)%nat →
  (∃ r, obfs_verify buf size key rounds obfs = Done r) ∧
  (∃ back r, obfs_decap buf size key rounds obfs = Done (back, r) ∧
     length back = length buf ∧ ∀ n s d, r = Some (n, s, d) → (n + 10 ≤ size)%nat).
Proof. intros. split; [by apply obfs_verify_Done|by apply obfs_decap_Done]. Qed.

Lemma obfs_receive_total_witness :
  (∃ r, obfs_verify (replicate 2000 0xC3) 1300 (replicate 12 7) 4 Quic = Done r) ∧
  (∃ back r, obfs_decap (replicate 2000 0xC3) 1300 (replicate 12 7) 4 Quic = Done (back, r) ∧
     length back = length (replicate 2000 0xC3) ∧
     ∀ n s d, r = Some (n, s, d) → (n + 10 ≤ 1300)%nat).
Proof.
  apply obfs_receive_total.
  - split; [apply Forall_replicate; unfold in_width; lia|reflexivity].
  - apply Forall_replicate; unfold in_width; lia.
  - vm_compute. lia.
Defined.

(** ** Version negotiation *)

(** RFC 9000, 17.2.1: the reply to a long-header packet with connection ids
    [dcid] and [scid] (swapped in the reply), listing the two versions. *)
Definition vn_packet (dcid scid : list Z) : list Z :=
  [Z.lor 0xC0 (match dcid with [] => 0x0A | x :: _ => Z.land x 0x3F end)]
    ++ [0; 0; 0; 0] ++ [Z.of_nat (length scid)] ++ scid ++ [Z.of_nat (length dcid)] ++ dcid
    ++ [0x6b; 0x33; 0x43; 0xcf] ++ [0; 0; 0; 1].

(** Every branch of the version negotiation. *)
Lemma version_negotiation_spec buf size out :
  bytes buf → (size ≤ length buf)%nat → length out = 64%nat →
  ∃ out' r, generate_quic_version_negotiation buf size out = Done (out', r) ∧
    match r with
    | None => out' = out
    | Some n => ∃ dl sl,
        let dcid := window 6 dl buf in
        let scid := window (7 + dl) sl buf in
        Z.land (buf !!! 0%nat) 0x80 ≠ 0 ∧ from_be (window 1 4 buf) ≠ 0 ∧
        from_be (window 1 4 buf) ≠ 0x6b3343cf ∧
        Z.of_nat dl = buf !!! 5%nat ∧ Z.of_nat sl = buf !!! (6 + dl)%nat ∧
        (7 + dl + sl ≤ size)%nat ∧ n = (15 + dl + sl)%nat ∧ (n ≤ 64)%nat ∧
        out' = vn_packet dcid scid ++ drop n out
    end.
Proof.
  intros Hb Hs Ho. unfold generate_quic_version_negotiation.
  assert (Hu8 : ∀ i, (i < length buf)%nat → is_u8 (buf !!! i))
    by (intros; by apply Forall_lookup_total).
  destruct (Nat.ltb_spec size 14); [by eexists _, None|].
  rewrite (get_total buf 0), bind_Done by lia.
  destruct (Z.eqb_spec (Z.land (buf !!! 0%nat) 0x80) 0); [by eexists _, None|].
  rewrite read_u32_be_Done, bind_Done by lia.
  destruct (Z.eqb_spec (from_be (window 1 4 buf)) 0); [by eexists _, None|].
  destruct (Z.eqb_spec (from_be (window 1 4 buf)) 0x6b3343cf); [by eexists _, None|].
  cbn [orb]. rewrite (get_total buf 5), bind_Done by lia.
  pose proof (Hu8 5%nat ltac:(lia)) as H5. set (dl := Z.to_nat (buf !!! 5%nat)).
  destruct (Nat.leb_spec size (6 + dl)); [by eexists _, None|].
  rewrite slice_window, bind_Done by lia. rewrite (get_total buf (6 + dl)), bind_Done by lia.
  pose proof (Hu8 (6 + dl)%nat ltac:(lia)) as H6. set (sl := Z.to_nat (buf !!! (6 + dl)%nat)).
  destruct (Nat.ltb_spec size (6 + dl + 1 + sl)); [by eexists _, None|].
  rewrite slice_window, bind_Done by lia.
  replace (6 + dl + 1)%nat with (7 + dl)%nat by lia.
  assert (Hd : length (window 6 dl buf) = dl) by (apply length_window; lia).
  assert (Hsc : length (window (7 + dl) sl buf) = sl) by (apply length_window; lia).
  set (dcid := window 6 dl buf) in *. set (scid := window (7 + dl) sl buf) in *.
  rewrite Hd, Hsc, Ho.
  destruct (Nat.ltb_spec 64 (1 + 4 + 1 + sl + 1 + dl + 8)); [by eexists _, None|].
  assert (Hrand : (if (dl =? 0)%nat then Done 0x0A else x ← get dcid 0; Done (Z.land x 0x3F))
    = Done (match dcid with [] => 0x0A | x :: _ => Z.land x 0x3F end)).
  { destruct dcid; simpl in Hd; rewrite <- Hd; done. }
  rewrite Hrand, bind_Done. set (r := match dcid with [] => _ | _ => _ end).
  rewrite !wrap_small by (unfold in_width; lia).
  rewrite put_Done, bind_Done by lia.
  change (<[0%nat := ?v]> out) with (list_inserts 0 [v] out).
  rewrite copy_next, bind_Done by len. rewrite put_next, bind_Done by len.
  rewrite copy_next, bind_Done by len. rewrite put_next, bind_Done by len.
  do 2 (rewrite copy_next, bind_Done by len). rewrite copy_next, bind_Done by len.
  eexists _, _. split; [done|]. exists dl, sl. fold dcid scid. unfold in_width in *.
  split_and!; try done; try lia.
  rewrite list_inserts_app by len. rewrite take_0, app_nil_l. unfold vn_packet. fold r.
  rewrite Hd, Hsc, <- !app_assoc. do 9 f_equal. len.
Qed.

(** Version negotiation: for every received datagram that fits its buffer,
    [generate_quic_version_negotiation] returns without panicking; when it
    answers, the datagram is a long-header packet of another version, the answer
    is the RFC 9000 version negotiation packet with the connection ids swapped,
    it fits the 64-byte output buffer and nothing behind it is written. *)
Theorem version_negotiation_correct buf size out :
  bytes buf → (size ≤ length buf)%nat → length out = 64%nat →
  ∃ out' r, generate_quic_version_negotiation buf size out = Done (out', r) ∧
    match r with
    | None => out' = out
    | Some n => ∃ dl sl,
        let dcid := window 6 dl buf in
        let scid := window (7 + dl) sl buf in
        Z.land (buf !!! 0%nat) 0x80 ≠ 0 ∧ from_be (window 1 4 buf) ≠ 0 ∧
        from_be (window 1 4 buf) ≠ 0x6b3343cf ∧
        Z.of_nat dl = buf !!! 5%nat ∧ Z.of_nat sl = buf !!! (6 + dl)%nat ∧
        (7 + dl + sl ≤ size)%nat ∧ n = (15 + dl + sl)%nat ∧ (n ≤ 64)%nat ∧
        out' = vn_packet dcid scid ++ drop n out
    end.
Proof. apply version_negotiation_spec. Qed.

Lemma version_negotiation_correct_witness :
  ∃ out' r, generate_quic_version_negotiation
      ([0xC0; 0; 0; 0; 2; 2; 7; 8; 1; 9; 0; 0; 0; 0; 0]) 15 (replicate 64 0) = Done (out', r) ∧
    match r with
    | None => out' = replicate 64 0
    | Some n => ∃ dl sl,
        let buf := [0xC0; 0; 0; 0; 2; 2; 7; 8; 1; 9; 0; 0; 0; 0; 0] in
        let dcid := window 6 dl buf in
        let scid := window (7 + dl) sl buf in
        Z.land (buf !!! 0%nat) 0x80 ≠ 0 ∧ from_be (window 1 4 buf) ≠ 0 ∧
        from_be (window 1 4 buf) ≠ 0x6b3343cf ∧
        Z.of_nat dl = buf !!! 5%nat ∧ Z.of_nat sl = buf !!! (6 + dl)%nat ∧
        (7 + dl + sl ≤ 15)%nat ∧ n = (15 + dl + sl)%nat ∧ (n ≤ 64)%nat ∧
        out' = vn_packet dcid scid ++ drop n (replicate 64 0)
    end.
Proof.
  apply (version_negotiation_correct [0xC0; 0; 0; 0; 2; 2; 7; 8; 1; 9; 0; 0; 0; 0; 0] 15
    (replicate 64 0)); [forall_list|simpl; lia|reflexivity].
Defined.
