(* ===== verification/Syslog.v ===== *)
(** * proto/syslog.rs: the syslog envelope

    The system clock is the parameter [now] (seconds since the epoch). *)

From S2P Require Import Prelude Words Slices Text CivilDate.
Local Open Scope Z_scope.

Module Syslog.

Definition SYSLOG_HDR_BASE : nat := 36.

Definition header_len (service_name : list Z) : nat :=
  (SYSLOG_HDR_BASE + length service_name)%nat.

(** ["<165>1 {:04}-{:02}-{:02}T{:02}:{:02}:{:02}Z {} - - -  "] *)
Definition header_text (date : Z * Z * Z) (hour min sec : Z) (service_name : list Z) : list Z :=
  let '(y, m, d) := date in
  bs "<165>1 " ++ pad0 4 (dec y) ++ bs "-" ++ pad0 2 (dec m) ++ bs "-" ++ pad0 2 (dec d)
    ++ bs "T" ++ pad0 2 (dec hour) ++ bs ":" ++ pad0 2 (dec min) ++ bs ":" ++ pad0 2 (dec sec)
    ++ bs "Z " ++ service_name ++ bs " - - -  ".

(** [write!(&mut buf[0..hlen], ...)] copies what fits; its result is ignored. *)
Definition write_header (buf service_name : list Z) (now : Z) : outcome (list Z * nat) :=
  let sec := now mod 60 in
  let min := (now / 60) mod 60 in
  let hour := (now / 3600) mod 24 in
  let z := wrapping_add 32 (as_u32 (now / 86400)) 719468 in
  let date := civil_of_shifted z in
  let hlen := (SYSLOG_HDR_BASE + length service_name)%nat in
  _ ← slice buf 0 hlen;
  Done (list_inserts 0 (take hlen (header_text date hour min sec service_name)) buf, hlen).

(** [for i in 28..end.saturating_sub(7)], with the early return. *)
Fixpoint scan_marker (buf : list Z) (i n : nat) : outcome (option nat) :=
  match n with
  | O => Done None
  | S n =>
      w ← slice buf i (i + 8);
      if bool_decide (w = bs " - - -  ") then Done (Some (i + 8)%nat)
      else scan_marker buf (S i) n
  end.

Definition check_header (buf : list Z) : outcome (option nat) :=
  if (length buf <? SYSLOG_HDR_BASE)%nat then Done None else
  h ← slice buf 0 7;
  if negb (bool_decide (h = bs "<165>1 ")) then Done None else
  let end_ := Nat.min (length buf) 68 in
  scan_marker buf 28 (end_ - 7 - 28).

(** ** The header that is written *)

Definition marker : list Z := bs " - - -  ".

Lemma length_header_text date hour min sec name :
  date_ok date → date.1.1 < 10000 → 0 ≤ hour < 24 → 0 ≤ min < 60 → 0 ≤ sec < 60 →
  ∃ pre, header_text date hour min sec name = bs "<165>1 " ++ pre ++ name ++ marker ∧
         length pre = 21%nat.
Proof.
  destruct date as [[y m] d]. cbn [fst]. intros (Hy & Hm & Hd) Hy' Hh Hmi Hs.
  pose proof (days_in_month_range y m). unfold header_text.
  exists (pad0 4 (dec y) ++ bs "-" ++ pad0 2 (dec m) ++ bs "-" ++ pad0 2 (dec d)
    ++ bs "T" ++ pad0 2 (dec hour) ++ bs ":" ++ pad0 2 (dec min) ++ bs ":" ++ pad0 2 (dec sec)
    ++ bs "Z "). split; [by rewrite <- !app_assoc|].
  rewrite !length_app, length_dec4, !length_dec2 by lia. done.
Qed.

(** The scan finds the first marker that starts with a space after the name. *)
Lemma scan_marker_name pre name rest i n :
  length pre = i → Forall (λ b, b ≠ SPACE) name → (length name < n)%nat →
  (i + n + 7 ≤ length (pre ++ name ++ marker ++ rest))%nat →
  scan_marker (pre ++ name ++ marker ++ rest) i n = Done (Some (i + length name + 8)%nat).
Proof.
  revert pre name i. induction n as [|n IH]; intros pre name i Hpre Hname Hn Hl; [lia|].
  cbn [scan_marker]. rewrite slice_window, bind_Done by lia.
  rewrite window_app_ge by lia. rewrite Hpre, Nat.sub_diag.
  destruct name as [|b name].
  - rewrite bool_decide_eq_true_2; [cbn; f_equal; f_equal; lia|].
    cbn [app]. by rewrite window_app_l by (cbn; lia).
  - apply Forall_cons in Hname as [Hb Hname].
    rewrite bool_decide_eq_false_2; [|by intros [=]].
    specialize (IH (pre ++ [b]) name (S i)). rewrite <- !app_assoc in IH.
    change ([b] ++ name ++ marker ++ rest) with ((b :: name) ++ marker ++ rest) in IH.
    rewrite IH; [f_equal; f_equal; cbn [length]; lia|rewrite length_app; simpl; lia|done
      |simpl in Hn; lia|lia].
Qed.

(** What is written, and that it is recognised. *)
Lemma header_spec (buf name payload : list Z) (now : Z) :
  0 ≤ now / 86400 < 2 ^ 31 → (calendar (Z.to_nat (now / 86400))).1.1 < 10000 →
  Forall (λ b, b ≠ SPACE) name → (length name ≤ 32)%nat →
  (header_len name ≤ length buf)%nat →
  ∃ text,
    text = header_text (calendar (Z.to_nat (now / 86400)))
             ((now / 3600) mod 24) ((now / 60) mod 60) (now mod 60) name ∧
    length text = header_len name ∧
    write_header buf name now = Done (list_inserts 0 text buf, header_len name) ∧
    check_header (text ++ payload) = Done (Some (header_len name)).
Proof.
  intros Hnow Hyear Hname Hlen Hbuf.
  set (date := calendar _) in *.
  assert (Hcivil : civil_of_shifted (wrapping_add 32 (as_u32 (now / 86400)) 719468) = date).
  { unfold wrapping_add. rewrite (wrap_small 32 (now / 86400)) by (unfold in_width; lia).
    rewrite wrap_small by (unfold in_width; lia).
    subst date. rewrite <- civil_calendar, Z2Nat.id by lia. done. }
  destruct (length_header_text date ((now / 3600) mod 24) ((now / 60) mod 60) (now mod 60) name)
    as (pre & Ht & Hpre); [apply calendar_ok|done|by apply Z.mod_pos_bound..|].
  exists (bs "<165>1 " ++ pre ++ name ++ marker). split; [by rewrite Ht|].
  assert (Hl : length (bs "<165>1 " ++ pre ++ name ++ marker) = header_len name).
  { rewrite !length_app, Hpre. unfold header_len, SYSLOG_HDR_BASE. cbn. lia. }
  split; [done|]. unfold header_len in *. split.
  - unfold write_header. rewrite Hcivil, Ht, slice_Done, bind_Done by (done || lia).
    by rewrite take_ge by (rewrite Hl; lia).
  - unfold check_header, SYSLOG_HDR_BASE in *. rewrite <- !app_assoc.
    set (b := bs "<165>1 " ++ _).
    assert (Hb : length b = (36 + length name + length payload)%nat).
    { subst b. rewrite !length_app, Hpre. cbn. lia. }
    destruct (Nat.ltb_spec (length b) 36); [lia|].
    rewrite (slice_Done b 0 7), bind_Done by lia.
    rewrite bool_decide_eq_true_2 by (subst b; by rewrite window_app_l by (cbn; lia)).
    cbn [negb]. set (n := (Nat.min (length b) 68 - 7 - 28)%nat).
    assert (Hn : (length name < n ∧ 28 + n + 7 ≤ length b)%nat) by lia. clearbody n.
    subst b. rewrite (app_assoc (bs "<165>1 ")) in *.
    rewrite scan_marker_name; [f_equal; f_equal; lia|rewrite length_app, Hpre; done|done|lia|lia].
Qed.

(** The syslog envelope is written and recognised: for every clock value whose
    year has four digits and every service name without spaces of at most 32
    bytes, [write_header] fills exactly [header_len] bytes with the RFC 5424
    text of the Gregorian date and time, and [check_header] on them, followed by
    any payload, returns exactly that length. *)
Theorem syslog_roundtrip (buf name payload : list Z) (now : Z) :
  0 ≤ now / 86400 < 2 ^ 31 → (calendar (Z.to_nat (now / 86400))).1.1 < 10000 →
  Forall (λ b, b ≠ SPACE) name → (length name ≤ 32)%nat →
  (header_len name ≤ length buf)%nat →
  ∃ text,
    text = header_text (calendar (Z.to_nat (now / 86400)))
             ((now / 3600) mod 24) ((now / 60) mod 60) (now mod 60) name ∧
    length text = header_len name ∧
    write_header buf name now = Done (list_inserts 0 text buf, header_len name) ∧
    check_header (text ++ payload) = Done (Some (header_len name)).
Proof. apply header_spec. Qed.

Lemma syslog_roundtrip_witness :
  ∃ text,
    text = header_text (calendar 59) 1 1 1 (bs "sshd") ∧
    length text = header_len (bs "sshd") ∧
    write_header (replicate 200 0) (bs "sshd") 5101261
    = Done (list_inserts 0 text (replicate 200 0), header_len (bs "sshd")) ∧
    check_header (text ++ bs "QUJD") = Done (Some (header_len (bs "sshd"))).
Proof.
  apply (syslog_roundtrip (replicate 200 0) (bs "sshd") (bs "QUJD") 5101261).
  - vm_compute. split; congruence.
  - vm_compute. reflexivity.
  - vm_compute. repeat constructor; discriminate.
  - vm_compute. lia.
  - vm_compute. lia.
Defined.

(** A name of 33 bytes is written in full but its header is not recognised:
    the scan stops at byte 68. *)
Example syslog_long_name_not_recognised :
  let name := replicate 33 97 in
  (x ← write_header (replicate 200 0) name 5101261; check_header x.1) = Done None.
Proof. vm_compute. reflexivity. Qed.

End Syslog.
