(* ===== verification/Sip.v ===== *)
(** * proto/sip.rs: the SIP and RTP envelopes

    The system clock is a parameter ([now] in seconds, [timestamp_us] in
    microseconds); the static [CACHED_DATE] is threaded as a packed word. *)

From S2P Require Import Prelude Words Slices Text CivilDate Feistel.
Local Open Scope Z_scope.

Module Sip.

Definition MAX_SIP_HEADER_LEN : nat := 1024.

Inductive SipKind := Register | Message | Options | Response200 | Response401 | Response403.

(** ** The cached date *)

(** The civil date of a day count, with the year as [u16]. *)
Definition sip_civil (days_since_epoch : Z) : Z * Z * Z :=
  let '(y, m, d) := civil_of_shifted (days_since_epoch + 719468) in (as_u16 y, as_u8 m, as_u8 d).

(** Bits 0-15 year, 16-19 month, 20-24 day, 25-27 weekday. *)
Definition pack_date (year month day weekday : Z) : Z :=
  Z.lor (Z.lor (Z.lor year (shl 32 month 16)) (shl 32 day 20)) (shl 32 weekday 25).

Definition update_cached_date (now : Z) : Z :=
  let days_since_epoch := now / 86400 in
  let weekday := as_u8 ((days_since_epoch + 4) mod 7) in
  let '(year, month, day) := sip_civil days_since_epoch in
  pack_date year month day weekday.

(** The new value of the cache; [now] is the clock an update reads. *)
Definition check_and_update_date (packed current_time_us now : Z) : Z :=
  if packed =? 0 then update_cached_date now else
  let stored_year := Z.land packed 0xFFFF in
  let stored_month := Z.land (shr packed 16) 0xF in
  let stored_day := Z.land (shr packed 20) 0x1F in
  let now_secs := current_time_us / 1000000 in
  let days_since_epoch := now_secs / 86400 in
  let '(year, month, day) := sip_civil days_since_epoch in
  if negb (year =? stored_year) || negb (month =? stored_month) || negb (day =? stored_day)
  then update_cached_date now else packed.

Definition DAYS : list (list Z) :=
  [bs "Mon"; bs "Tue"; bs "Wed"; bs "Thu"; bs "Fri"; bs "Sat"; bs "Sun"].
Definition MONTHS : list (list Z) :=
  [bs "Jan"; bs "Feb"; bs "Mar"; bs "Apr"; bs "May"; bs "Jun"; bs "Jul"; bs "Aug"; bs "Sep";
   bs "Oct"; bs "Nov"; bs "Dec"].

(** [MONTHS[month - 1]]: [month - 1] wraps at zero and the index then fails. *)
Definition format_date_header (packed time_us : Z) : outcome (list Z) :=
  let year := Z.land packed 0xFFFF in
  let month := Z.land (shr packed 16) 0xF in
  let day := Z.land (shr packed 20) 0x1F in
  let weekday := Z.land (shr packed 25) 0x7 in
  let secs_today := (time_us / 1000000) mod 86400 in
  let hour := as_u8 (secs_today / 3600) in
  let minute := as_u8 ((secs_today mod 3600) / 60) in
  let second := as_u8 (secs_today mod 60) in
  dn ← unwrap (DAYS !! Z.to_nat weekday);
  mn ← (if month =? 0 then Panic else unwrap (MONTHS !! Z.to_nat (month - 1)));
  Done (dn ++ bs ", " ++ pad0 2 (dec day) ++ bs " " ++ mn ++ bs " " ++ dec year ++ bs " "
          ++ pad0 2 (dec hour) ++ bs ":" ++ pad0 2 (dec minute) ++ bs ":" ++ pad0 2 (dec second)
          ++ bs " GMT").

(** [format_sip_date_only]; the month index is [month - 1]. *)
Definition format_sip_date_only (timestamp : Z) : outcome (list Z) :=
  let days_since_epoch := timestamp / 86400 in
  let day_of_week := (days_since_epoch + 4) mod 7 in
  let '(year, month, day) := civil_of_shifted (days_since_epoch + 719468) in
  dn ← unwrap (DAYS !! Z.to_nat day_of_week);
  mn ← unwrap (MONTHS !! Z.to_nat (month - 1));
  Done (dn ++ bs ", " ++ pad0 2 (dec (as_u8 day)) ++ bs " " ++ mn ++ bs " " ++ dec year).

(** ** Recognising headers *)

Definition crlf_crlf : list Z := CRLF ++ CRLF.

Definition find_crlf_crlf (buf : list Z) : option nat :=
  (λ p, (p + 4)%nat) <$> find_sub crlf_crlf buf.

Definition fmtp : list Z := bs "a=fmtp:0 ".

Definition check_header (buf : list Z) : option nat :=
  if (length buf <? 16)%nat then None else
  let starts_valid :=
    starts_with buf (bs "INVITE ") || starts_with buf (bs "REGISTER ")
    || starts_with buf (bs "MESSAGE ") || starts_with buf (bs "OPTIONS ")
    || starts_with buf (bs "SIP/2.0 ") in
  if negb starts_valid then None else
  hl ← find_crlf_crlf buf;
  match find_sub fmtp (drop hl buf) with
  | Some pos => Some (hl + pos + length fmtp)%nat
  | None => Some hl
  end.

(** ** Timestamps and tokens *)

Definition u64_max : Z := 2 ^ 64 - 1.

(** [result.saturating_mul(10).saturating_add(digit)] over the digits *)
Definition digits_value (l : list Z) : Z :=
  foldl (λ result b, if is_digit b
                     then Z.min u64_max (Z.min u64_max (result * 10) + (b - 48)) else result) 0 l.

Definition parse_timestamp_from_date_header (buf : list Z) : option Z :=
  date_pos ← find_sub (bs "Date: ") buf;
  let date_start := (date_pos + 6)%nat in
  e ← find_sub CRLF (drop date_start buf);
  Some (digits_value (take e (drop date_start buf))).

Definition generate_auth_token (timestamp_us : Z) (feistel_key : list Z) : Z :=
  sip_hash32 (as_u32 (timestamp_us / 100000)) feistel_key.

Definition HEX : list Z := bs "0123456789abcdef".

(** [write_hex8]: eight stores through the table. *)
Definition write_hex8 (buf : list Z) (v : Z) : outcome (list Z) :=
  for_range 0 8
    (λ i buf, c ← get HEX (Z.to_nat (Z.land (shr v (28 - 4 * Z.of_nat i)) 0xF)); put buf i c) buf.

(** [u32::from_str_radix(s, 16)] of a byte string: an optional plus sign,
    then at least one digit, no overflow. *)
Definition hex_val (b : Z) : option Z :=
  if is_digit b then Some (b - 48)
  else if (97 <=? b) && (b <=? 102) then Some (b - 87)
  else if (65 <=? b) && (b <=? 70) then Some (b - 55)
  else None.

Fixpoint hex_acc (acc : Z) (l : list Z) : option Z :=
  match l with
  | [] => Some acc
  | b :: l => d ← hex_val b;
              if 2 ^ 32 <=? acc * 16 + d then None else hex_acc (acc * 16 + d) l
  end.

Definition u32_from_hex (l : list Z) : option Z :=
  match l with
  | [] => None
  | b :: l' => if b =? 43 then (if (length l' =? 0)%nat then None else hex_acc 0 l')
               else hex_acc 0 l
  end.

Definition verify_auth_token_from_timestamp (token_str : list Z) (packet_timestamp_value : Z)
    (feistel_key : list Z) : bool :=
  if negb (length token_str =? 8)%nat then false else
  match u32_from_hex token_str with
  | None => false
  | Some token =>
      token =? sip_hash32 (as_u32 (packet_timestamp_value / 10000)) feistel_key
  end.

(** ** Writing headers *)

(** The texts of [write_options_keepalive], in order; [write_hex8] at the
    cursor followed by [set_position] is a write of the eight digits. *)
Definition options_keepalive_texts (src_ip : list Z) (sport dport : Z) (domain : list Z)
    (feistel_key date_str : list Z) (timestamp_us : Z) : list (list Z) :=
  let auth_token := generate_auth_token timestamp_us feistel_key in
  let from_tag_val :=
    sip_hash32 (as_u32 (Z.lxor (timestamp_us / 1000) sport)) feistel_key in
  let tod := timestamp_us mod 86400000000 in
  let hour := as_u8 (tod / 3600000000) in
  let minute := as_u8 ((tod mod 3600000000) / 60000000) in
  let second := as_u8 ((tod mod 60000000) / 1000000) in
  let microsecond := as_u32 (tod mod 1000000) in
  [bs "OPTIONS sip:" ++ dec dport ++ bs "@" ++ domain ++ bs ":" ++ dec dport ++ bs " SIP/2.0"
     ++ CRLF ++ bs "Via: SIP/2.0/UDP " ++ src_ip ++ bs ":" ++ dec sport ++ bs ";branch=z9hG4bK-";
   hex8 auth_token;
   CRLF ++ bs "Max-Forwards: 70" ++ CRLF ++ bs "From: <sip:" ++ dec sport ++ bs "@" ++ domain
     ++ bs ">;tag=";
   hex8 from_tag_val;
   CRLF ++ bs "To: <sip:" ++ dec dport ++ bs "@" ++ domain ++ bs ">" ++ CRLF ++ bs "Call-ID: ";
   hex8 auth_token;
   bs "@" ++ domain ++ CRLF ++ bs "CSeq: " ++ dec ((timestamp_us / 1000) mod 1000 + 1)
     ++ bs " OPTIONS" ++ CRLF ++ bs "Date: " ++ date_str ++ bs " " ++ pad0 2 (dec hour) ++ bs ":"
     ++ pad0 2 (dec minute) ++ bs ":" ++ pad0 2 (dec second) ++ bs "." ++ pad0 6 (dec microsecond)
     ++ bs " GMT" ++ CRLF ++ bs "Contact: <sip:" ++ dec sport ++ bs "@" ++ src_ip ++ bs ":"
     ++ dec sport ++ bs ">" ++ CRLF ++ bs "User-Agent: Asterisk PBX 16.2.0" ++ CRLF
     ++ bs "Content-Length: 0" ++ CRLF ++ CRLF].

(** The request or status line (and the challenge of a 401). *)
Definition start_texts (kind : SipKind) (domain : list Z) (dport timestamp_us : Z)
    (feistel_key : list Z) : list (list Z) :=
  match kind with
  | Register => [bs "REGISTER sip:" ++ domain ++ bs " SIP/2.0" ++ CRLF]
  | Message => [bs "MESSAGE sip:" ++ dec dport ++ bs "@" ++ domain ++ bs ":" ++ dec dport
                  ++ bs " SIP/2.0" ++ CRLF]
  | Options => [bs "OPTIONS sip:" ++ dec dport ++ bs "@" ++ domain ++ bs ":" ++ dec dport
                  ++ bs " SIP/2.0" ++ CRLF]
  | Response200 => [bs "SIP/2.0 200 OK" ++ CRLF]
  | Response401 =>
      [bs "SIP/2.0 401 Unauthorized" ++ CRLF;
       bs "WWW-Authenticate: Digest realm=" ++ [QUOTE] ++ domain ++ [QUOTE] ++ bs ", nonce="
         ++ [QUOTE];
       hex8 (sip_hash32 (as_u32 (timestamp_us / 1000)) feistel_key);
       [QUOTE] ++ bs ", algorithm=MD5" ++ CRLF]
  | Response403 => [bs "SIP/2.0 403 Forbidden" ++ CRLF]
  end.

Definition is_response (kind : SipKind) : bool :=
  match kind with Response200 | Response401 | Response403 => true | _ => false end.

Definition cseq_method (kind : SipKind) : list Z :=
  match kind with
  | Register | Response401 => bs "REGISTER"
  | Response200 => bs "OPTIONS"
  | Response403 => bs "INVITE"
  | Message => bs "MESSAGE"
  | Options => bs "OPTIONS"
  end.

(** The session description in front of the payload. *)
Definition sdp_preamble (session_id : Z) (src_ip dst_ip : list Z) (rtp_port : Z) : list Z :=
  bs "v=0" ++ CRLF ++ bs "o=- " ++ dec session_id ++ bs " " ++ dec session_id ++ bs " IN IP4 "
    ++ src_ip ++ CRLF ++ bs "s=SIP Call" ++ CRLF ++ bs "c=IN IP4 " ++ dst_ip ++ CRLF
    ++ bs "t=0 0" ++ CRLF ++ bs "m=audio " ++ dec rtp_port ++ bs " RTP/AVP 0 8" ++ CRLF
    ++ bs "a=rtpmap:0 PCMU/8000" ++ CRLF ++ bs "a=rtpmap:8 PCMA/8000" ++ CRLF
    ++ bs "a=ptime:20" ++ CRLF ++ bs "a=sendrecv" ++ CRLF ++ bs "a=fmtp:0 ".

Definition header_texts (kind : SipKind) (domain src_ip dst_ip : list Z) (sport dport rtp_port : Z)
    (payload_len : nat) (feistel_key date_str : list Z) (timestamp_us : Z) : list (list Z) :=
  let auth_token := generate_auth_token timestamp_us feistel_key in
  let session_id := timestamp_us / 1000 in
  let from_tag_val := sip_hash32 (as_u32 (Z.lxor (timestamp_us / 1000) sport)) feistel_key in
  let to_tag_val := sip_hash32 (as_u32 (Z.lxor (timestamp_us / 1000) dport)) feistel_key in
  let tod := timestamp_us mod 86400000000 in
  let hour := tod / 3600000000 in
  let minute := (tod mod 3600000000) / 60000000 in
  let second := (tod mod 60000000) / 1000000 in
  let microsecond := tod mod 1000000 in
  start_texts kind domain dport timestamp_us feistel_key ++
  [bs "Via: SIP/2.0/UDP " ++ src_ip ++ bs ":" ++ dec sport ++ bs ";branch=z9hG4bK-";
   hex8 auth_token;
   CRLF ++ bs "Max-Forwards: 70" ++ CRLF ++ bs "From: <sip:" ++ dec sport ++ bs "@" ++ domain
     ++ bs ">;tag=";
   hex8 from_tag_val;
   CRLF ++ bs "To: <sip:" ++ dec dport ++ bs "@" ++ domain ++ bs ">"] ++
  (if is_response kind then [bs ";tag="; hex8 to_tag_val; CRLF] else [CRLF]) ++
  [bs "Call-ID: "; hex8 auth_token; bs "@" ++ domain ++ CRLF;
   bs "CSeq: " ++ dec ((timestamp_us / 1000) mod 1000 + 1) ++ bs " " ++ cseq_method kind ++ CRLF;
   bs "Date: " ++ date_str ++ bs " " ++ pad0 2 (dec hour) ++ bs ":" ++ pad0 2 (dec minute)
     ++ bs ":" ++ pad0 2 (dec second) ++ bs "." ++ pad0 6 (dec microsecond) ++ bs " GMT" ++ CRLF;
   bs "Contact: <sip:" ++ dec sport ++ bs "@" ++ src_ip ++ bs ":" ++ dec sport ++ bs ">" ++ CRLF;
   bs "User-Agent: Asterisk PBX 16.2.0" ++ CRLF] ++
  (if (0 <? payload_len)%nat then
     let sdp := sdp_preamble session_id src_ip dst_ip rtp_port in
     [bs "Content-Type: application/sdp" ++ CRLF;
      bs "Content-Length: " ++ dec (Z.of_nat (length sdp + payload_len)) ++ CRLF ++ CRLF ++ sdp]
   else [bs "Content-Length: 0" ++ CRLF ++ CRLF]).

(** [write_header]: the updated buffer and the number of bytes written. *)
Definition write_header (buf : list Z) (kind : SipKind) (domain src_ip dst_ip : list Z)
    (sport dport rtp_port : Z) (payload_len : nat) (feistel_key date_str : list Z)
    (timestamp_us : Z) : outcome (list Z * nat) :=
  let texts :=
    match kind with
    | Options =>
        if (payload_len =? 0)%nat
        then options_keepalive_texts src_ip sport dport domain feistel_key date_str timestamp_us
        else header_texts kind domain src_ip dst_ip sport dport rtp_port payload_len feistel_key
               date_str timestamp_us
    | _ => header_texts kind domain src_ip dst_ip sport dport rtp_port payload_len feistel_key
             date_str timestamp_us
    end in
  c ← cur_writes (Cursor buf 0) texts;
  Done (cur_buf c, cur_pos c).

(** ** RTP *)

Definition RTP_HEADER_LEN : nat := 12.

Definition check_rtp_header (buf : list Z) : outcome bool :=
  if (length buf <? RTP_HEADER_LEN)%nat then Done false else
  b0 ← get buf 0;
  if Z.land b0 0xC0 =? 0x80 then b1 ← get buf 1; Done (Z.land b1 0x7F =? 0x60) else Done false.

Definition write_rtp_header (buf : list Z) (seq ts ssrc : Z) : outcome (list Z * nat) :=
  buf ← put buf 0 0x80;
  buf ← put buf 1 0x60;
  buf ← copy_from_slice buf 2 4 (u16_to_be_bytes seq);
  buf ← copy_from_slice buf 4 8 (u32_to_be_bytes ts);
  buf ← copy_from_slice buf 8 12 (u32_to_be_bytes ssrc);
  Done (buf, RTP_HEADER_LEN).

End Sip.
