(* ===== verification/SipProofs.v ===== *)
(** * proto/sip.rs: what is written is recognised

    The header text is cut into literal pieces and filled-in values; the
    searches of [check_header] then find the blank line and the payload
    marker where the writer put them. *)

From S2P Require Import Prelude Words Slices Text CivilDate Feistel Sip.
Import Sip.
Local Open Scope Z_scope.

(** A value that may be filled into a header: no line feed and no [=]. *)
Definition header_value (l : list Z) : Prop := Forall (λ b, b ≠ LF) l ∧ Forall (λ b, b ≠ 61) l.

(** The bytes the searches look for. *)
Class Sought (x : Z) : Prop := sought : (x = LF ∨ x = 61).
#[global] Instance Sought_LF : Sought LF := or_introl eq_refl.
#[global] Instance Sought_EQ : Sought 61 := or_intror eq_refl.

Section free.
  Context (x : Z) `{!Sought x}.

Lemma sought_alnum : is_alnum x = false.
Proof. by destruct sought as [-> | ->]. Qed.

Lemma value_free l : header_value l → Forall (λ b, b ≠ x) l.
Proof. intros [??]. by destruct sought as [-> | ->]. Qed.

Lemma digits_free l : Forall (λ b, is_digit b = true) l → Forall (λ b, b ≠ x) l.
Proof.
  intros H. apply alnum_free; [apply sought_alnum|].
  eapply Forall_impl; [exact H|]. apply is_digit_alnum.
Qed.

Lemma dec_free n : 0 ≤ n → Forall (λ b, b ≠ x) (dec n).
Proof. intros. by apply digits_free, dec_digits. Qed.

Lemma pad0_free w n : 0 ≤ n → Forall (λ b, b ≠ x) (pad0 w (dec n)).
Proof. intros. by apply digits_free, pad0_digits. Qed.

Lemma hex8_free v : Forall (λ b, b ≠ x) (hex8 v).
Proof. apply alnum_free; [apply sought_alnum|apply hex8_alnum]. Qed.
End free.

Create HintDb sip.
#[export] Hint Resolve value_free dec_free pad0_free hex8_free Sought_LF Sought_EQ : sip.
#[export] Hint Extern 1 (0 ≤ _ / _) => apply Z.div_pos : sip.
#[export] Hint Extern 1 (0 ≤ _ mod _) => apply Z.mod_pos_bound : sip.
#[export] Hint Extern 1 (0 ≤ _) => lia : sip.
#[export] Hint Extern 1 (_ < _) => lia : sip.

(** ** The pieces of a header *)

Definition start_pieces (kind : SipKind) (domain : list Z) (dport timestamp_us : Z)
    (feistel_key : list Z) : list piece :=
  match kind with
  | Register => [Lit (bs "REGISTER sip:"); Var domain; Lit (bs " SIP/2.0" ++ CRLF)]
  | Message => [Lit (bs "MESSAGE sip:"); Var (dec dport); Lit (bs "@"); Var domain; Lit (bs ":");
                Var (dec dport); Lit (bs " SIP/2.0" ++ CRLF)]
  | Options => [Lit (bs "OPTIONS sip:"); Var (dec dport); Lit (bs "@"); Var domain; Lit (bs ":");
                Var (dec dport); Lit (bs " SIP/2.0" ++ CRLF)]
  | Response200 => [Lit (bs "SIP/2.0 200 OK" ++ CRLF)]
  | Response401 =>
      [Lit (bs "SIP/2.0 401 Unauthorized" ++ CRLF);
       Lit (bs "WWW-Authenticate: Digest realm=" ++ [QUOTE]); Var domain;
       Lit ([QUOTE] ++ bs ", nonce=" ++ [QUOTE]);
       Var (hex8 (sip_hash32 (as_u32 (timestamp_us / 1000)) feistel_key));
       Lit ([QUOTE] ++ bs ", algorithm=MD5" ++ CRLF)]
  | Response403 => [Lit (bs "SIP/2.0 403 Forbidden" ++ CRLF)]
  end.

Section header.
  Context (kind : SipKind) (domain src_ip dst_ip : list Z) (sport dport rtp_port : Z).
  Context (payload_len : nat) (feistel_key date_str : list Z) (timestamp_us : Z).
  Context (Hdomain : header_value domain) (Hsrc : header_value src_ip) (Hdst : header_value dst_ip).
  Context (Hdate : header_value date_str) (Hs : 0 ≤ sport) (Hd : 0 ≤ dport) (Hr : 0 ≤ rtp_port).
  Context (Hts : 0 ≤ timestamp_us).

  Local Abbreviation tok := (hex8 (generate_auth_token timestamp_us feistel_key)).
  Local Abbreviation tod := (timestamp_us mod 86400000000).
  Local Abbreviation tag p := (hex8 (sip_hash32 (as_u32 (Z.lxor (timestamp_us / 1000) p)) feistel_key)).

  (** From the start line up to the content length. *)
Definition head_pieces (content : list piece) : list piece :=
  start_pieces kind domain dport timestamp_us feistel_key ++
  [Lit (bs "Via: SIP/2.0/UDP "); Var src_ip; Lit (bs ":"); Var (dec sport);
   Lit (bs ";branch=z9hG4bK-"); Var tok;
   Lit (CRLF ++ bs "Max-Forwards: 70" ++ CRLF ++ bs "From: <sip:"); Var (dec sport); Lit (bs "@");
   Var domain; Lit (bs ">;tag="); Var (tag sport); Lit (CRLF ++ bs "To: <sip:"); Var (dec dport);
   Lit (bs "@"); Var domain; Lit (bs ">")] ++
  (if is_response kind then [Lit (bs ";tag="); Var (tag dport); Lit CRLF] else [Lit CRLF]) ++
  [Lit (bs "Call-ID: "); Var tok; Lit (bs "@"); Var domain; Lit CRLF; Lit (bs "CSeq: ");
   Var (dec ((timestamp_us / 1000) mod 1000 + 1)); Lit (bs " "); Lit (cseq_method kind); Lit CRLF;
   Lit (bs "Date: "); Var date_str; Lit (bs " "); Var (pad0 2 (dec (tod / 3600000000)));
   Lit (bs ":"); Var (pad0 2 (dec ((tod mod 3600000000) / 60000000))); Lit (bs ":");
   Var (pad0 2 (dec ((tod mod 60000000) / 1000000))); Lit (bs ".");
   Var (pad0 6 (dec (tod mod 1000000))); Lit (bs " GMT" ++ CRLF);
   Lit (bs "Contact: <sip:"); Var (dec sport); Lit (bs "@"); Var src_ip; Lit (bs ":");
   Var (dec sport); Lit (bs ">" ++ CRLF); Lit (bs "User-Agent: Asterisk PBX 16.2.0" ++ CRLF)] ++
  content.

Lemma start_free : vars_free LF (start_pieces kind domain dport timestamp_us feistel_key).
Proof. destruct kind; repeat (apply Forall_cons_2; [try done; eauto with sip|]); apply Forall_nil_2. Qed.

Lemma head_free content : vars_free LF content → vars_free LF (head_pieces content).
Proof.
  intros Hc. unfold head_pieces, vars_free. apply Forall_app_2; [apply start_free|].
  assert (0 ≤ tod) by (by apply Z.mod_pos_bound).
  assert (0 ≤ tod mod 3600000000) by (by apply Z.mod_pos_bound).
  assert (0 ≤ tod mod 60000000) by (by apply Z.mod_pos_bound).
  assert (0 ≤ (timestamp_us / 1000) mod 1000) by (by apply Z.mod_pos_bound).
  repeat first [apply Forall_app_2 | apply Forall_cons_2; [try done; eauto with sip|]
               | apply Forall_nil_2 | exact Hc | destruct (is_response kind)].
Qed.

(** The literal pieces never put a line feed before a carriage return. *)
Lemma head_pieces_ok content :
  pieces_ok LF CR true content = true → pieces_ok LF CR false (head_pieces content) = true.
Proof. intros Hc. unfold head_pieces. destruct kind; exact Hc. Qed.

(** The text before the blank line. *)
Definition head_text (content : list piece) : list Z := flat (head_pieces content).

Lemma head_no_adj content : vars_free LF content → pieces_ok LF CR true content = true →
  no_adj LF CR false (flat (head_pieces content)) = true.
Proof. intros. apply pieces_ok_no_adj; [by apply head_free|by apply head_pieces_ok]. Qed.

(** The searches start at a valid start line. *)
Lemma head_starts content rest :
  let b := flat (head_pieces content) ++ rest in
  (starts_with b (bs "INVITE ") || starts_with b (bs "REGISTER ")
    || starts_with b (bs "MESSAGE ") || starts_with b (bs "OPTIONS ")
    || starts_with b (bs "SIP/2.0 ")) = true ∧ (16 ≤ length b)%nat.
Proof.
  intros b. split.
  - assert (H : ∃ m tl, b = m ++ tl ∧ (m = bs "REGISTER " ∨ m = bs "MESSAGE " ∨ m = bs "OPTIONS "
      ∨ m = bs "SIP/2.0 ")).
    { subst b. unfold head_pieces. destruct kind.
      - exists (bs "REGISTER "). eexists. split; [reflexivity|auto].
      - exists (bs "MESSAGE "). eexists. split; [reflexivity|auto].
      - exists (bs "OPTIONS "). eexists. split; [reflexivity|auto].
      - exists (bs "SIP/2.0 "). eexists. split; [reflexivity|auto].
      - exists (bs "SIP/2.0 "). eexists. split; [reflexivity|auto].
      - exists (bs "SIP/2.0 "). eexists. split; [reflexivity|auto]. }
    destruct H as (m & tl & -> & Hm).
    assert (Hsw : starts_with (m ++ tl) m = true).
    { apply bool_decide_eq_true. by rewrite take_app_length. }
    destruct Hm as [->|[->|[->| ->]]]; rewrite Hsw, ?orb_true_r; done.
  - assert (H : ∃ x y, b = x ++ bs "Via: SIP/2.0/UDP " ++ y).
    { subst b. unfold head_pieces, flat. rewrite bind_app, <- app_assoc.
      eexists _, _. reflexivity. }
    destruct H as (x & y & ->). rewrite !length_app.
    change (length (bs "Via: SIP/2.0/UDP ")) with 17%nat. lia.
Qed.

(** The body marker and the session description in front of it. *)
Definition sdp_pieces : list piece :=
  [Lit (bs "v=0" ++ CRLF ++ bs "o=- "); Var (dec (timestamp_us / 1000)); Lit (bs " ");
   Var (dec (timestamp_us / 1000)); Lit (bs " IN IP4 "); Var src_ip;
   Lit (CRLF ++ bs "s=SIP Call" ++ CRLF ++ bs "c=IN IP4 "); Var dst_ip;
   Lit (CRLF ++ bs "t=0 0" ++ CRLF ++ bs "m=audio "); Var (dec rtp_port);
   Lit (bs " RTP/AVP 0 8" ++ CRLF ++ bs "a=rtpmap:0 PCMU/8000" ++ CRLF
        ++ bs "a=rtpmap:8 PCMA/8000" ++ CRLF ++ bs "a=ptime:20" ++ CRLF ++ bs "a=sendrecv" ++ CRLF)].

Lemma sdp_no_adj : no_adj 61 102 false (flat sdp_pieces ++ [97; 61]) = true.
Proof.
  assert (Hf : flat sdp_pieces ++ [97; 61] = flat (sdp_pieces ++ [Lit [97; 61]])).
  { unfold flat. by rewrite bind_app. }
  rewrite Hf. apply pieces_ok_no_adj; [|reflexivity].
  unfold vars_free, sdp_pieces. cbn [app].
  repeat (apply Forall_cons_2; [try done; eauto with sip|]). apply Forall_nil_2.
Qed.

Lemma sdp_flat : sdp_preamble (timestamp_us / 1000) src_ip dst_ip rtp_port = flat sdp_pieces ++ fmtp.
Proof.
  unfold sdp_preamble, sdp_pieces, fmtp. text_eq.
Qed.

(** The last lines: with a session description when there is a payload. *)
Definition content_pieces : list piece :=
  if (0 <? payload_len)%nat then
    [Lit (bs "Content-Type: application/sdp" ++ CRLF); Lit (bs "Content-Length: ");
     Var (dec (Z.of_nat (length (sdp_preamble (timestamp_us / 1000) src_ip dst_ip rtp_port)
                         + payload_len)))]
  else [Lit (bs "Content-Length: 0")].

Definition body_text : list Z :=
  if (0 <? payload_len)%nat
  then sdp_preamble (timestamp_us / 1000) src_ip dst_ip rtp_port else [].

(** The header text is head, blank line, body. *)
Lemma header_texts_flat :
  concat (header_texts kind domain src_ip dst_ip sport dport rtp_port payload_len feistel_key
            date_str timestamp_us)
  = flat (head_pieces content_pieces) ++ crlf_crlf ++ body_text.
Proof.
  assert (Hst : concat (start_texts kind domain dport timestamp_us feistel_key)
                = flat (start_pieces kind domain dport timestamp_us feistel_key)).
  { destruct kind; cbn [start_texts start_pieces]; text_eq. }
  assert (Hresp : concat (if is_response kind then [bs ";tag="; tag dport; CRLF] else [CRLF])
    = flat (if is_response kind then [Lit (bs ";tag="); Var (tag dport); Lit CRLF] else [Lit CRLF])).
  { destruct (is_response kind); text_eq. }
  unfold header_texts, head_pieces. cbv zeta. rewrite !concat_app, !flat_app, Hst, Hresp.
  set (st := flat (start_pieces _ _ _ _ _)). set (rs := flat (if is_response kind then _ else _)).
  clearbody st rs. unfold content_pieces, body_text, crlf_crlf.
  destruct (0 <? payload_len)%nat; text_eq.
Qed.

(** [check_header] skips the whole header. *)
Lemma check_header_texts payload :
  (payload_len = 0%nat → payload = []) →
  let text := flat (head_pieces content_pieces) ++ crlf_crlf ++ body_text in
  check_header (text ++ payload) = Some (length text).
Proof.
  intros Hpay text. subst text. unfold check_header. rewrite <- !app_assoc.
  destruct (head_starts content_pieces (crlf_crlf ++ body_text ++ payload)) as [Hst Hlen].
  set (b := flat _ ++ _) in *. destruct (Nat.ltb_spec (length b) 16); [lia|].
  cbv zeta. rewrite Hst. cbn [negb].
  assert (Hfind : find_crlf_crlf b = Some (length (flat (head_pieces content_pieces)) + 4)%nat).
  { unfold find_crlf_crlf.
    assert (find_sub crlf_crlf b = Some (length (flat (head_pieces content_pieces)))) as ->;
      [|done].
    apply (find_sub_first CR LF CR [LF] (flat (head_pieces content_pieces))).
    assert (Hf : flat (head_pieces content_pieces) ++ [CR; LF]
                 = flat (head_pieces (content_pieces ++ [Lit [CR; LF]]))).
    { unfold flat, head_pieces. rewrite !bind_app, <- !app_assoc. done. }
    rewrite Hf. apply head_no_adj.
    - apply Forall_app_2; [|by apply Forall_cons_2]. unfold content_pieces.
      destruct (0 <? payload_len)%nat; repeat (apply Forall_cons_2; [try done; eauto with sip|]);
        apply Forall_nil_2.
    - unfold content_pieces. by destruct (0 <? payload_len)%nat. }
  rewrite Hfind. cbn [mbind option_bind].
  assert (Hdrop : drop (length (flat (head_pieces content_pieces)) + 4) b = body_text ++ payload).
  { subst b. rewrite drop_app_ge by lia.
    replace (length (flat (head_pieces content_pieces)) + 4
             - length (flat (head_pieces content_pieces)))%nat with 4%nat by lia. done. }
  rewrite Hdrop, !length_app. change (length crlf_crlf) with 4%nat.
  unfold body_text. destruct (Nat.ltb_spec 0 payload_len) as [Hp|Hp].
  - rewrite sdp_flat, <- app_assoc.
    assert (Hm : find_sub fmtp (flat sdp_pieces ++ fmtp ++ payload) = Some (length (flat sdp_pieces))).
    { apply (find_sub_first 97 61 102 (bs "mtp:0 ")). apply sdp_no_adj. }
    rewrite Hm, !length_app. f_equal. lia.
  - rewrite Hpay by lia. cbn [app find_sub length]. f_equal; lia.
Qed.
End header.

(** ** The keepalive *)

Section keepalive.
  Context (domain src_ip : list Z) (sport dport : Z) (feistel_key date_str : list Z).
  Context (timestamp_us : Z).

(** The fast path writes what the general path writes for an empty OPTIONS. *)
Lemma keepalive_texts : 0 ≤ timestamp_us →
  concat (options_keepalive_texts src_ip sport dport domain feistel_key date_str timestamp_us)
  = concat (header_texts Options domain src_ip [] sport dport 0 0 feistel_key date_str timestamp_us).
Proof.
  intros Hts.
  set (tod := timestamp_us mod 86400000000).
  assert (Htod : 0 ≤ tod < 86400000000) by (by apply Z.mod_pos_bound).
  assert (H1 : as_u8 (tod / 3600000000) = tod / 3600000000).
  { apply wrap_small. unfold in_width. change (2 ^ 8) with 256. dlia. }
  assert (H2 : as_u8 ((tod mod 3600000000) / 60000000) = (tod mod 3600000000) / 60000000).
  { apply wrap_small. unfold in_width. change (2 ^ 8) with 256. dlia. }
  assert (H3 : as_u8 ((tod mod 60000000) / 1000000) = (tod mod 60000000) / 1000000).
  { apply wrap_small. unfold in_width. change (2 ^ 8) with 256. dlia. }
  assert (H4 : as_u32 (tod mod 1000000) = tod mod 1000000).
  { apply wrap_small. unfold in_width. change (2 ^ 32) with 4294967296. dlia. }
  unfold options_keepalive_texts, header_texts. cbv zeta. fold tod. rewrite H1, H2, H3, H4.
  cbn [start_texts is_response cseq_method]. change (0 <? 0)%nat with false. cbn iota. text_eq.
Qed.
End keepalive.

(** ** The properties *)

(** What [write_header] writes, whichever path it takes. *)
Lemma sip_write_header_Done buf kind domain src_ip dst_ip sport dport rtp_port payload_len
    feistel_key date_str timestamp_us :
  0 ≤ timestamp_us →
  let text := concat (header_texts kind domain src_ip dst_ip sport dport rtp_port payload_len
                        feistel_key date_str timestamp_us) in
  (length text ≤ length buf)%nat →
  write_header buf kind domain src_ip dst_ip sport dport rtp_port payload_len feistel_key date_str
    timestamp_us = Done (list_inserts 0 text buf, length text).
Proof.
  intros Hts text Hl. unfold write_header.
  assert (Hw : ∀ ts, concat ts = text →
    (c ← cur_writes (Cursor buf 0) ts; Done (cur_buf c, cur_pos c))
    = Done (list_inserts 0 text buf, length text)).
  { intros ts Hc. change (Cursor buf 0) with (cursor_at buf []).
    rewrite cur_writes_Done, bind_Done by (rewrite Hc; simpl; lia). by rewrite Hc. }
  destruct kind; try by apply Hw.
  destruct (Nat.eqb_spec payload_len 0) as [->|]; [|by apply Hw].
  apply Hw. rewrite keepalive_texts by done. subst text.
  unfold header_texts. cbv zeta. change (0 <? 0)%nat with false. cbn iota. reflexivity.
Qed.

(** C29: the SIP envelope is written and recognised: for every kind of message, and
    domain, addresses and date without line feeds and [=], [write_header] on a
    large enough buffer writes the header text without panicking and returns its
    length, and [check_header] on it, followed by any payload (by none when the
    announced payload is empty), returns exactly that length: the payload is
    found where it was put. *)
Theorem sip_roundtrip buf kind domain src_ip dst_ip sport dport rtp_port payload_len
    feistel_key date_str timestamp_us payload :
  header_value domain → header_value src_ip → header_value dst_ip → header_value date_str →
  is_u16 sport → is_u16 dport → is_u16 rtp_port → 0 ≤ timestamp_us →
  (payload_len = 0%nat → payload = []) →
  (length (concat (header_texts kind domain src_ip dst_ip sport dport rtp_port payload_len
             feistel_key date_str timestamp_us)) ≤ length buf)%nat →
  ∃ text,
    write_header buf kind domain src_ip dst_ip sport dport rtp_port payload_len feistel_key
      date_str timestamp_us = Done (list_inserts 0 text buf, length text) ∧
    check_header (text ++ payload) = Some (length text).
Proof.
  intros Hdom Hsrc Hdst Hdate [Hs _] [Hd _] [Hr _] Hts Hpay Hl. eexists. split.
  - by apply sip_write_header_Done.
  - rewrite header_texts_flat. by apply check_header_texts.
Qed.

Lemma sip_roundtrip_witness :
  ∃ text,
    write_header (replicate 1024 0) Message (bs "example.com") (bs "10.0.0.1") (bs "10.0.0.2")
      5060 5061 10000 4 [1; 2; 3; 4] (bs "Tue, 17 Mar 2026") 1773756800123456
    = Done (list_inserts 0 text (replicate 1024 0), length text) ∧
    check_header (text ++ bs "QUJD") = Some (length text).
Proof.
  apply (sip_roundtrip (replicate 1024 0) Message (bs "example.com") (bs "10.0.0.1")
    (bs "10.0.0.2") 5060 5061 10000 4 [1; 2; 3; 4] (bs "Tue, 17 Mar 2026") 1773756800123456
    (bs "QUJD")).
  1-4: split; vm_compute; repeat constructor; discriminate.
  1-3: unfold in_width; lia.
  - lia.
  - discriminate.
  - vm_compute. lia.
Defined.

(** ** RTP *)

(** What is written, and that it is recognised. *)
Lemma rtp_spec buf seq ts ssrc rest :
  is_u16 seq → is_u32 ts → is_u32 ssrc → (12 ≤ length buf)%nat →
  ∃ h, write_rtp_header buf seq ts ssrc = Done (list_inserts 0 h buf, RTP_HEADER_LEN) ∧
    length h = RTP_HEADER_LEN ∧ check_rtp_header (h ++ rest) = Done true ∧
    from_be (window 2 2 h) = seq ∧ from_be (window 4 4 h) = ts ∧ from_be (window 8 4 h) = ssrc ∧
    head h = Some 0x80.
Proof.
  intros Hseq Hts Hss Hb.
  set (h := [0x80; 0x60] ++ u16_to_be_bytes seq ++ u32_to_be_bytes ts ++ u32_to_be_bytes ssrc).
  assert (Hh : length h = 12%nat) by (subst h; len).
  exists h. split_and!; [|done| | | | |done].
  - unfold write_rtp_header. rewrite put_Done, bind_Done by lia.
    change (<[0%nat:=0x80]> buf) with (list_inserts 0 [0x80] buf).
    rewrite put_next, bind_Done by len. do 3 (rewrite copy_next, bind_Done by len).
    by rewrite <- !app_assoc.
  - unfold check_rtp_header, RTP_HEADER_LEN.
    destruct (Nat.ltb_spec (length (h ++ rest)) 12) as [Hlt|_]; [rewrite length_app in Hlt; lia|].
    by rewrite !get_total by len.
  - unfold h. rewrite window_app_ge, window_app_l by len.
    rewrite (window_whole _ (u16_to_be_bytes seq)), from_be_bytes by len. by apply wrap_small.
  - unfold h. do 2 rewrite window_app_ge by len. rewrite window_app_l, length_be_bytes by len.
    rewrite (window_whole _ (u32_to_be_bytes ts)), from_be_bytes by len. by apply wrap_small.
  - unfold h. do 3 rewrite window_app_ge by len. rewrite !length_be_bytes.
    rewrite (window_whole _ (u32_to_be_bytes ssrc)), from_be_bytes by len.
    by apply wrap_small.
Qed.

(** An RTP header written by [write_rtp_header] is recognised by
    [check_rtp_header], with any payload behind it, and carries its sequence
    number, timestamp and source in network byte order. *)
Theorem rtp_roundtrip buf seq ts ssrc rest :
  is_u16 seq → is_u32 ts → is_u32 ssrc → (12 ≤ length buf)%nat →
  ∃ h, write_rtp_header buf seq ts ssrc = Done (list_inserts 0 h buf, RTP_HEADER_LEN) ∧
    length h = RTP_HEADER_LEN ∧ check_rtp_header (h ++ rest) = Done true ∧
    from_be (window 2 2 h) = seq ∧ from_be (window 4 4 h) = ts ∧ from_be (window 8 4 h) = ssrc.
Proof.
  intros Hseq Hts Hss Hb. destruct (rtp_spec buf seq ts ssrc rest Hseq Hts Hss Hb)
    as (h & ? & ? & ? & ? & ? & ? & _). by exists h.
Qed.

Lemma rtp_roundtrip_witness :
  ∃ h, write_rtp_header (replicate 20 0) 513 160 0xdeadbeef
       = Done (list_inserts 0 h (replicate 20 0), RTP_HEADER_LEN) ∧
    length h = RTP_HEADER_LEN ∧ check_rtp_header (h ++ [1; 2; 3]) = Done true ∧
    from_be (window 2 2 h) = 513 ∧ from_be (window 4 4 h) = 160 ∧
    from_be (window 8 4 h) = 0xdeadbeef.
Proof.
  apply (rtp_roundtrip (replicate 20 0) 513 160 0xdeadbeef [1; 2; 3]).
  1-3: unfold in_width; lia.
  vm_compute. lia.
Defined.
