(* ===== verification/SipDate.v ===== *)
(** * proto/sip.rs: the cached date

    The packed date word keeps the date of the day it was made on, and the
    cache is refreshed exactly when the day has changed. *)

From S2P Require Import Prelude Words Slices Text CivilDate Sip.
Import Sip.
Local Open Scope Z_scope.

(** ** The calendar never repeats a date *)

Definition date_key (dt : Z * Z * Z) : Z := let '(y, m, d) := dt in (y * 13 + m) * 32 + d.

Lemma next_day_later dt : date_ok dt → date_key dt < date_key (next_day dt).
Proof.
  destruct dt as [[y m] d]. unfold date_ok, next_day, date_key. intros (Hy & Hm & Hd).
  pose proof (days_in_month_range y m). repeat case_bool; lia.
Qed.

Lemma calendar_later a k : date_key (calendar a) + Z.of_nat k ≤ date_key (calendar (k + a)).
Proof.
  induction k as [|k IH]; [rewrite Nat.add_0_l; lia|].
  change (calendar (S k + a)) with (next_day (calendar (k + a))).
  pose proof (next_day_later _ (calendar_ok (k + a))). lia.
Qed.

Lemma calendar_inj a b : calendar a = calendar b → a = b.
Proof.
  intros H. destruct (decide (a ≤ b)%nat).
  - pose proof (calendar_later a (b - a)) as Hl. rewrite Nat.sub_add, H in Hl by done. lia.
  - pose proof (calendar_later b (a - b)) as Hl. rewrite Nat.sub_add, H in Hl by lia. lia.
Qed.

Lemma calendar_year n : (calendar n).1.1 ≤ 400 * ((Z.of_nat n + 719468) / 146097) + 400.
Proof.
  rewrite <- civil_calendar. set (z := Z.of_nat n + 719468).
  pose proof (Z.div_mod z 146097 ltac:(lia)) as Hz.
  pose proof (Z.mod_pos_bound z 146097 ltac:(lia)) as Hr.
  set (e := z / 146097) in *.
  destruct (year_exists (z mod 146097) Hr) as (y & doy & Hy & Hd & Hdoe).
  replace z with (e * 146097 + (ystart y + doy)) by lia. rewrite civil_at by done.
  unfold date_in. destruct (md_of doy) as [m d]. cbn [fst]. case_bool; lia.
Qed.

(** ** The packed word *)

(** The clocks for which the date fields fit: over thirty thousand years. *)
Definition clock_ok (now : Z) : Prop := 0 ≤ now < 2 ^ 40.

Definition day_of (now : Z) : nat := Z.to_nat (now / 86400).

Lemma sip_civil_calendar now : clock_ok now →
  sip_civil (now / 86400) = calendar (day_of now) ∧
  let '(y, m, d) := calendar (day_of now) in 1970 ≤ y < 2 ^ 16 ∧ 1 ≤ m ≤ 12 ∧ 1 ≤ d ≤ 31.
Proof.
  intros Hn. unfold clock_ok in Hn. unfold sip_civil.
  assert (H0 : 0 ≤ now / 86400) by (apply Z.div_pos; lia).
  assert (Hb : now / 86400 < 12800000) by (apply Z.div_lt_upper_bound; lia).
  replace (now / 86400) with (Z.of_nat (day_of now)) by (unfold day_of; lia).
  rewrite civil_calendar. pose proof (calendar_ok (day_of now)) as Hok.
  pose proof (calendar_year (day_of now)) as Hy.
  assert (He : (Z.of_nat (day_of now) + 719468) / 146097 ≤ 93)
    by (unfold day_of; rewrite Z2Nat.id by done; apply Z.lt_succ_r, Z.div_lt_upper_bound; lia).
  destruct (calendar (day_of now)) as [[y m] d]. cbn [fst] in Hy.
  unfold date_ok in Hok. pose proof (days_in_month_range y m).
  split; [|lia]. rewrite !wrap_small by (split; lia). done.
Qed.

Lemma pack_date_sum y m d w :
  0 ≤ y < 2 ^ 16 → 0 ≤ m < 2 ^ 4 → 0 ≤ d < 2 ^ 5 → 0 ≤ w < 2 ^ 3 →
  pack_date y m d w = w * 2 ^ 25 + (d * 2 ^ 20 + (m * 2 ^ 16 + y)).
Proof.
  intros Hy Hm Hd Hw. unfold pack_date.
  rewrite Z.lor_comm, (Z.lor_comm _ (shl 32 d 20)), (Z.lor_comm y).
  rewrite (lor_shl_add 32 m y) by lia. rewrite (lor_shl_add 32 d) by lia.
  by rewrite lor_shl_add by lia.
Qed.

(** Unpacking returns the fields. *)
Lemma pack_date_fields y m d w :
  0 ≤ y < 2 ^ 16 → 0 ≤ m < 2 ^ 4 → 0 ≤ d < 2 ^ 5 → 0 ≤ w < 2 ^ 3 →
  let p := pack_date y m d w in
  Z.land p 0xFFFF = y ∧ Z.land (shr p 16) 0xF = m ∧ Z.land (shr p 20) 0x1F = d ∧
  Z.land (shr p 25) 0x7 = w.
Proof.
  intros Hy Hm Hd Hw p. subst p. rewrite pack_date_sum by done.
  rewrite !shr_div by lia.
  rewrite (land_ones_mod _ 16), (land_ones_mod _ 4), (land_ones_mod _ 5), (land_ones_mod _ 3)
    by lia.
  split_and!; dlia.
Qed.

Definition weekday_of (now : Z) : Z := (now / 86400 + 4) mod 7.

Lemma update_cached_date_fields now : clock_ok now →
  let p := update_cached_date now in
  let '(y, m, d) := calendar (day_of now) in
  Z.land p 0xFFFF = y ∧ Z.land (shr p 16) 0xF = m ∧ Z.land (shr p 20) 0x1F = d ∧
  Z.land (shr p 25) 0x7 = weekday_of now ∧ p ≠ 0.
Proof.
  intros Hn p. destruct (sip_civil_calendar now Hn) as [Hc Hr].
  assert (Hw : 0 ≤ weekday_of now < 7) by apply Z.mod_pos_bound, eq_refl.
  assert (Hp : p = let '(y, m, d) := calendar (day_of now) in pack_date y m d (weekday_of now)).
  { subst p. unfold update_cached_date. rewrite Hc. destruct (calendar _) as [[y m] d].
    f_equal. fold (weekday_of now). apply wrap_small. split; lia. }
  clearbody p. destruct (calendar (day_of now)) as [[y m] d]. subst p.
  destruct (pack_date_fields y m d (weekday_of now)) as (H1 & H2 & H3 & H4); [lia..|].
  split_and!; [done..|]. intros E. rewrite E in H1. rewrite Z.land_0_l in H1. lia.
Qed.

(** The words a cache may hold: none yet, or the one of some clock reading. *)
Definition cache_ok (packed : Z) : Prop :=
  packed = 0 ∨ ∃ t0, clock_ok t0 ∧ packed = update_cached_date t0.

Lemma update_cached_date_day t0 now : day_of t0 = day_of now → clock_ok t0 → clock_ok now →
  update_cached_date t0 = update_cached_date now.
Proof.
  intros H H0 H1. unfold clock_ok in *. unfold day_of in H.
  assert (E : t0 / 86400 = now / 86400).
  { assert (0 ≤ t0 / 86400) by (apply Z.div_pos; lia).
    assert (0 ≤ now / 86400) by (apply Z.div_pos; lia). lia. }
  unfold update_cached_date. by rewrite E.
Qed.

Lemma check_and_update_fresh packed us now :
  cache_ok packed → clock_ok now → us / 1000000 = now →
  check_and_update_date packed us now = update_cached_date now.
Proof.
  intros [-> | (t0 & H0 & ->)] Hn Hus; [done|]. unfold check_and_update_date. rewrite Hus.
  pose proof (update_cached_date_fields t0 H0) as Hf.
  destruct (sip_civil_calendar now Hn) as [-> _].
  destruct (calendar (day_of t0)) as [[y m] d] eqn:E0. destruct Hf as (Hy & Hm & Hd & _ & Hz).
  apply Z.eqb_neq in Hz. cbv zeta. rewrite Hz, Hy, Hm, Hd.
  destruct (calendar (day_of now)) as [[y' m'] d'] eqn:E1.
  repeat case_bool; cbn [negb orb]; try done. subst.
  apply update_cached_date_day; [|done..]. apply calendar_inj. by rewrite E0, E1.
Qed.

(** ** The texts *)

(** The name the table gives to a month. *)
Definition month_name (m : Z) : list Z := MONTHS !!! Z.to_nat (m - 1).
Definition day_name (w : Z) : list Z := DAYS !!! Z.to_nat w.

Definition date_text (now : Z) : list Z :=
  let '(y, m, d) := calendar (day_of now) in
  day_name (weekday_of now) ++ bs ", " ++ pad0 2 (dec d) ++ bs " " ++ month_name m ++ bs " "
    ++ dec y.

Definition time_text (now : Z) : list Z :=
  pad0 2 (dec (now mod 86400 / 3600)) ++ bs ":" ++ pad0 2 (dec (now mod 86400 mod 3600 / 60))
    ++ bs ":" ++ pad0 2 (dec (now mod 86400 mod 60)).

Lemma MONTHS_lookup m : 1 ≤ m ≤ 12 → MONTHS !! Z.to_nat (m - 1) = Some (month_name m).
Proof.
  intros H. apply list_lookup_lookup_total_lt. change (length MONTHS) with 12%nat. lia.
Qed.

Lemma DAYS_lookup now : DAYS !! Z.to_nat (weekday_of now) = Some (day_name (weekday_of now)).
Proof.
  apply list_lookup_lookup_total_lt. change (length DAYS) with 7%nat.
  pose proof (Z.mod_pos_bound (now / 86400 + 4) 7 eq_refl). unfold weekday_of. lia.
Qed.

Lemma format_sip_date_only_Done now : clock_ok now →
  format_sip_date_only now = Done (date_text now).
Proof.
  intros Hn. destruct (sip_civil_calendar now Hn) as [_ Hr].
  assert (H0 : 0 ≤ now / 86400) by (unfold clock_ok in Hn; apply Z.div_pos; lia).
  unfold format_sip_date_only, date_text.
  replace (civil_of_shifted (now / 86400 + 719468)) with (calendar (day_of now)).
  2: { rewrite <- civil_calendar. unfold day_of. f_equal. lia. }
  destruct (calendar (day_of now)) as [[y m] d]. cbv zeta.
  change ((now / 86400 + 4) mod 7) with (weekday_of now).
  rewrite DAYS_lookup, MONTHS_lookup by lia. cbn [unwrap]. rewrite !bind_Done.
  by rewrite (wrap_small 8 d) by (split; lia).
Qed.

Lemma format_date_header_Done us now : clock_ok now → us / 1000000 = now →
  format_date_header (update_cached_date now) us
  = Done (date_text now ++ bs " " ++ time_text now ++ bs " GMT").
Proof.
  intros Hn Hus. destruct (sip_civil_calendar now Hn) as [_ Hr].
  pose proof (update_cached_date_fields now Hn) as Hf.
  unfold format_date_header, date_text, time_text. rewrite Hus.
  destruct (calendar (day_of now)) as [[y m] d]. destruct Hf as (Hy & Hm & Hd & Hw & _).
  cbv zeta. rewrite Hy, Hm, Hd, Hw, DAYS_lookup. cbn [unwrap]. rewrite bind_Done.
  destruct (Z.eqb_spec m 0) as [|_]; [lia|].
  rewrite MONTHS_lookup by lia. cbn [unwrap]. rewrite bind_Done.
  pose proof (Z.mod_pos_bound now 86400 eq_refl).
  rewrite !wrap_small by (split; dlia). by rewrite <- !app_assoc.
Qed.



(** 1 January 1970 was a Thursday: the tables start on Monday and the offset
    of 4 names the day after. *)
Example sip_weekday_is_a_day_late :
  format_sip_date_only 0 = Done (bs "Fri, 01 Jan 1970").
Proof. vm_compute. reflexivity. Qed.
