(* ===== verification/Results.v ===== *)
(** * Results: functions that return [Result] and may panic

    [res E A] is the outcome of a call that returns [Result<A, E>]: [Ok a],
    [Err e], or [Abort] when it panics.  The bind is the [?] operator. *)

From S2P Require Import Prelude.

Inductive res (E A : Type) : Type :=
| Ok (a : A)
| Err (e : E)
| Abort.
Arguments Ok {_ _} _.
Arguments Err {_ _} _.
Arguments Abort {_ _}.

#[global] Instance res_ret {E} : MRet (res E) := λ A a, Ok a.
#[global] Instance res_bind {E} : MBind (res E) := λ A B f m,
  match m with Ok a => f a | Err e => Err e | Abort => Abort end.
#[global] Instance res_fmap {E} : FMap (res E) := λ A B f m,
  match m with Ok a => Ok (f a) | Err e => Err e | Abort => Abort end.

#[global] Instance res_eq_dec {E A} `{EqDecision E, EqDecision A} : EqDecision (res E A).
Proof. solve_decision. Defined.

(** A call that cannot fail but may panic. *)
Definition lift {E A} (m : outcome A) : res E A :=
  match m with Done a => Ok a | Panic => Abort end.

(** [o.ok_or(e)] *)
Definition ok_or {E A} (o : option A) (e : E) : res E A :=
  match o with Some a => Ok a | None => Err e end.

(** [return Err(e)] unless the condition holds. *)
Definition ensure {E} (b : bool) (e : E) : res E unit := if b then Ok tt else Err e.

(** [m.map_err(f)] *)
Definition map_err {E F A} (f : E → F) (m : res E A) : res F A :=
  match m with Ok a => Ok a | Err e => Err (f e) | Abort => Abort end.

(** A loop over a list that threads its state and stops at the first error. *)
Fixpoint foldM {E A S} (f : S → A → res E S) (s : S) (l : list A) : res E S :=
  match l with
  | [] => Ok s
  | a :: l => s' ← f s a; foldM f s' l
  end.

(** [iter.map(f).collect::<Result<Vec<_>, _>>()] *)
Fixpoint mapR {E A B} (f : A → res E B) (l : list A) : res E (list B) :=
  match l with
  | [] => Ok []
  | a :: l => b ← f a; bs ← mapR f l; Ok (b :: bs)
  end.

Section lemmas.
  Context {E : Type}.

Lemma res_bind_Ok {A B} (a : A) (f : A → res E B) : (Ok a ≫= f) = f a.
Proof. done. Qed.

Lemma res_bind_inv {A B} (m : res E A) (f : A → res E B) b :
  (m ≫= f) = Ok b → ∃ a, m = Ok a ∧ f a = Ok b.
Proof. destruct m; simpl; naive_solver. Qed.

Lemma res_fmap_inv {A B} (m : res E A) (f : A → B) b :
  f <$> m = Ok b → ∃ a, m = Ok a ∧ b = f a.
Proof. destruct m; simpl; naive_solver. Qed.

Lemma ensure_inv b (e : E) u : ensure b e = Ok u → b = true.
Proof. by destruct b. Qed.

Lemma ok_or_inv {A} (o : option A) (e : E) a : ok_or o e = Ok a → o = Some a.
Proof. destruct o; naive_solver. Qed.

Lemma lift_inv {A} (m : outcome A) a : lift (E:=E) m = Ok a → m = Done a.
Proof. destruct m; naive_solver. Qed.

(** What every step preserves holds at the end of the loop. *)
Lemma foldM_inv {A S} (P : S → Prop) (f : S → A → res E S) l s s' :
  (∀ t a t', a ∈ l → P t → f t a = Ok t' → P t') → P s → foldM f s l = Ok s' → P s'.
Proof.
  revert s. induction l as [|a l IH]; intros s Hstep Hs; simpl; [congruence|].
  intros (t & Ht & Hl)%res_bind_inv. apply (IH t); [|eapply Hstep; [left|exact Hs|exact Ht]|done].
  intros t1 a1 t2 Ha. apply Hstep. by right.
Qed.

Lemma foldM_step {A S} (f : S → A → res E S) a l s t r :
  f s a = Ok t → foldM f t l = r → foldM f s (a :: l) = r.
Proof. intros H <-. cbn [foldM]. by rewrite H. Qed.

Lemma foldM_app {A S} (f : S → A → res E S) l k s :
  foldM f s (l ++ k) = foldM f s l ≫= λ t, foldM f t k.
Proof. revert s. induction l as [|a l IH]; intros s; [done|]. simpl. destruct (f s a); [apply IH|done..]. Qed.

Lemma mapR_Ok {A B} (f : A → res E B) (g : A → B) l :
  (∀ a, a ∈ l → f a = Ok (g a)) → mapR f l = Ok (g <$> l).
Proof.
  induction l as [|a l IH]; intros H; [done|]. simpl. rewrite H by left. simpl.
  rewrite IH; [done|]. intros b Hb. apply H. by right.
Qed.

(** Reading back what was written, element by element. *)
Lemma mapR_fmap_id {A B} (f : B → res E A) (g : A → B) l :
  (∀ a, a ∈ l → f (g a) = Ok a) → mapR f (g <$> l) = Ok l.
Proof.
  induction l as [|a l IH]; intros H; [done|]. rewrite fmap_cons. cbn [mapR].
  rewrite H by left. rewrite res_bind_Ok.
  rewrite IH; [done|]. intros b Hb. apply H. by right.
Qed.

(** The elements of a collected vector come from the function. *)
Lemma mapR_Forall {A B} (P : B → Prop) (f : A → res E B) l k :
  (∀ a b, f a = Ok b → P b) → mapR f l = Ok k → Forall P k ∧ length k = length l.
Proof.
  intros Hf. revert k. induction l as [|a l IH]; intros k; simpl.
  { intros [= <-]. split; [constructor|done]. }
  intros (b & Hb & (k' & Hk & [= <-])%res_bind_inv)%res_bind_inv.
  destruct (IH k' Hk) as [HF Hl]. split; [|simpl; by rewrite Hl]. constructor; [eauto|done].
Qed.
End lemmas.

(** Peel the steps of a call that returned [Ok]. *)
Ltac res_inv :=
  repeat match goal with
  | H : (_ ≫= _) = Ok _ |- _ =>
      let x := fresh "r" in let E := fresh "E" in
      apply res_bind_inv in H as (x & E & H);
      match type of x with unit => destruct x | prod _ _ => destruct x | _ => idtac end
  | H : (_ <$> _) = Ok _ |- _ =>
      let x := fresh "r" in let E := fresh "E" in
      apply res_fmap_inv in H as (x & E & H); try subst
  | H : ensure _ _ = Ok _ |- _ => apply ensure_inv in H
  | H : ok_or _ _ = Ok _ |- _ => apply ok_or_inv in H
  | H : lift _ = Ok _ |- _ => apply lift_inv in H
  | H : Ok _ = Ok _ |- _ => injection H as H; try subst
  | H : Err _ = Ok _ |- _ => discriminate H
  | H : Abort = Ok _ |- _ => discriminate H
  end.
