(* ===== verification/StrOps.v ===== *)
(** * StrOps: the [str] methods the configuration and route parsers use

    A [str] is the list of its UTF-8 bytes.  Searching for an ASCII character
    or an ASCII prefix is a search for its byte; white space is the Unicode
    property [White_Space], by its encodings. *)

From S2P Require Import Prelude Text.
Local Open Scope Z_scope.

Definition str_eqb (a b : list Z) : bool := bool_decide (a = b).

(** [s.find(c)] for an ASCII character *)
Fixpoint find_byte (c : Z) (l : list Z) : option nat :=
  match l with
  | [] => None
  | b :: l => if b =? c then Some O else S <$> find_byte c l
  end.

(** [s.split(c)] for an ASCII character: never empty. *)
Fixpoint split_byte (c : Z) (l : list Z) : list (list Z) :=
  match l with
  | [] => [[]]
  | b :: l =>
      if b =? c then [] :: split_byte c l
      else match split_byte c l with
           | p :: ps => (b :: p) :: ps
           | [] => [[b]]
           end
  end.

(** Texts with a separator between them. *)
Fixpoint join (sep : list Z) (ls : list (list Z)) : list Z :=
  match ls with
  | [] => []
  | x :: r => x ++ match r with [] => [] | _ => sep ++ join sep r end
  end.

(** ** White space *)

Definition utf8_spaces : list (list Z) :=
  ((λ b, [b]) <$> [9; 10; 11; 12; 13; 32]) ++
  [[0xC2; 0x85]; [0xC2; 0xA0]; [0xE1; 0x9A; 0x80]] ++
  ((λ b, [0xE2; 0x80; b]) <$> [0x80; 0x81; 0x82; 0x83; 0x84; 0x85; 0x86; 0x87; 0x88; 0x89; 0x8A;
                               0xA8; 0xA9; 0xAF]) ++
  [[0xE2; 0x81; 0x9F]; [0xE3; 0x80; 0x80]].

(** Strip leading members of [ps] (none of them empty). *)
Fixpoint strip_any (fuel : nat) (ps : list (list Z)) (l : list Z) : list Z :=
  match fuel with
  | O => l
  | S fuel =>
      match list_find (λ p, starts_with l p = true) ps with
      | Some (_, p) => strip_any fuel ps (drop (length p) l)
      | None => l
      end
  end.

Definition trim_start (l : list Z) : list Z := strip_any (length l) utf8_spaces l.
Definition trim_end (l : list Z) : list Z :=
  reverse (strip_any (length l) (reverse <$> utf8_spaces) (reverse l)).

(** [s.trim()] *)
Definition trim (l : list Z) : list Z := trim_end (trim_start l).

(** [s.trim_matches(c)] for an ASCII character *)
Definition trim_matches (c : Z) (l : list Z) : list Z :=
  reverse (strip_any (length l) [[c]] (reverse (strip_any (length l) [[c]] l))).

(** [s.split_whitespace()]: the non-empty pieces between white space. *)
Fixpoint words_fuel (fuel : nat) (cur l : list Z) : list (list Z) :=
  match fuel with
  | O => []
  | S fuel =>
      match l with
      | [] => if bool_decide (cur = []) then [] else [reverse cur]
      | b :: l' =>
          match list_find (λ p, starts_with l p = true) utf8_spaces with
          | Some (_, p) =>
              (if bool_decide (cur = []) then [] else [reverse cur])
              ++ words_fuel fuel [] (drop (length p) l)
          | None => words_fuel fuel (b :: cur) l'
          end
      end
  end.
Definition split_whitespace (l : list Z) : list (list Z) := words_fuel (S (length l)) [] l.

(** [s.lines()]: cut after every line feed, drop it and a carriage return
    before it; no line for an empty rest. *)
Definition strip_cr (l : list Z) : list Z :=
  match last l with Some 13 => take (length l - 1) l | _ => l end.

Definition lines (l : list Z) : list (list Z) :=
  let ps := split_byte LF l in
  let n := (length ps - 1)%nat in
  (strip_cr <$> take n ps) ++ filter (λ p, p ≠ []) (drop n ps).

(** ** Numbers, booleans, case *)

Definition to_digit (radix : Z) (b : Z) : option Z :=
  let d := if is_digit b then b - 48
           else if (97 <=? b) && (b <=? 122) then b - 87
           else if (65 <=? b) && (b <=? 90) then b - 55
           else 36 in
  if d <? radix then Some d else None.

Fixpoint digits_acc (radix max acc : Z) (l : list Z) : option Z :=
  match l with
  | [] => Some acc
  | b :: l =>
      d ← to_digit radix b;
      if max <? acc * radix + d then None else digits_acc radix max (acc * radix + d) l
  end.

(** [uN::from_str_radix(s, radix)], [max] being [uN::MAX]: an optional plus
    sign and at least one digit; a value above [max] is an error. *)
Definition from_str_radix (radix max : Z) (l : list Z) : option Z :=
  match l with
  | [] => None
  | b :: l' =>
      if b =? 43 then (if (length l' =? 0)%nat then None else digits_acc radix max 0 l')
      else digits_acc radix max 0 l
  end.

Definition u8_max : Z := 255.
Definition u16_max : Z := 65535.
Definition u32_max : Z := 4294967295.

(** [s.parse::<uN>()] *)
Definition parse_uint (max : Z) (l : list Z) : option Z := from_str_radix 10 max l.

Definition parse_bool (l : list Z) : option bool :=
  if str_eqb l (bs "true") then Some true
  else if str_eqb l (bs "false") then Some false else None.

Definition to_ascii_lowercase (b : Z) : Z := if (65 <=? b) && (b <=? 90) then b + 32 else b.

Definition eq_ignore_ascii_case (a b : list Z) : bool :=
  str_eqb (to_ascii_lowercase <$> a) (to_ascii_lowercase <$> b).

(** [s.is_char_boundary(i)] *)
Definition is_char_boundary (l : list Z) (i : nat) : bool :=
  if (i =? 0)%nat then true else
  match l !! i with
  | Some b => negb ((0x80 <=? b) && (b <? 0xC0))
  | None => (i =? length l)%nat
  end.

(** [&s[lo..hi]]: the bounds must be character boundaries. *)
Definition str_slice (l : list Z) (lo hi : nat) : outcome (list Z) :=
  if (lo <=? hi)%nat && is_char_boundary l lo && is_char_boundary l hi
  then Done (window lo (hi - lo) l) else Panic.

(** ** Decimal numbers read back *)

Definition digits_val (acc : Z) (l : list Z) : Z := foldl (λ a b, a * 10 + (b - 48)) acc l.

Lemma dec_fuel_app fuel n acc : dec_fuel fuel n acc = dec_fuel fuel n [] ++ acc.
Proof.
  revert n acc. induction fuel as [|fuel IH]; intros n acc; [done|].
  cbn [dec_fuel]. case_bool; [done|].
  rewrite (IH (n / 10) (_ :: acc)), (IH (n / 10) [_]), <- app_assoc. done.
Qed.

Lemma digits_val_dec_fuel fuel n : 0 ≤ n < 10 ^ Z.of_nat fuel →
  digits_val 0 (dec_fuel fuel n []) = n.
Proof.
  revert n. induction fuel as [|fuel IH]; intros n Hn; [cbn in *; lia|].
  cbn [dec_fuel]. case_bool; [cbn; lia|].
  rewrite dec_fuel_app. unfold digits_val in *. rewrite foldl_app, IH.
  - cbn [foldl]. pose proof (Z.div_mod n 10). lia.
  - rewrite Nat2Z.inj_succ, Z.pow_succ_r in Hn by lia. split; [by apply Z.div_pos; lia|].
    apply Z.div_lt_upper_bound; lia.
Qed.

Lemma digits_val_dec n : 0 ≤ n < 2 ^ 64 → digits_val 0 (dec n) = n.
Proof.
  intros H. apply digits_val_dec_fuel. change (10 ^ Z.of_nat 20) with 100000000000000000000.
  assert (2 ^ 64 < 100000000000000000000) by done. lia.
Qed.

Lemma dec_nonempty n : dec n ≠ [].
Proof.
  assert (H : ∀ f, dec_fuel (S f) n [] ≠ []); [|apply H]. intros f. cbn [dec_fuel].
  case_bool; [done|]. rewrite dec_fuel_app. by destruct (dec_fuel _ _ _).
Qed.

(** The number of digits. *)
Lemma length_dec_fuel fuel k n acc : (1 ≤ k ≤ fuel)%nat → 0 ≤ n < 10 ^ Z.of_nat k →
  (length (dec_fuel fuel n acc) ≤ k + length acc)%nat.
Proof.
  revert k n acc. induction fuel as [|fuel IH]; intros k n acc Hk Hn; [lia|].
  cbn [dec_fuel]. case_bool; [cbn; lia|].
  destruct k as [|[|k]]; [lia|change (10 ^ Z.of_nat 1) with 10 in Hn; lia|].
  etransitivity; [apply (IH (S k))|cbn; lia]; [lia|].
  rewrite (Nat2Z.inj_succ (S k)), Z.pow_succ_r in Hn by lia.
  split; [by apply Z.div_pos; lia|]. apply Z.div_lt_upper_bound; lia.
Qed.

Lemma length_dec k n : (1 ≤ k ≤ 20)%nat → 0 ≤ n < 10 ^ Z.of_nat k → (length (dec n) ≤ k)%nat.
Proof. intros. etransitivity; [by apply length_dec_fuel|]. cbn. lia. Qed.

Lemma length_join sep k ls : Forall (λ l, (length l ≤ k)%nat) ls →
  (length (join sep ls) ≤ length ls * (k + length sep))%nat.
Proof.
  induction 1 as [|l ls Hl HF IH]; [done|]. cbn [join length]. rewrite length_app.
  destruct ls; [cbn; lia|]. rewrite length_app. cbn [length] in *. lia.
Qed.

Lemma Forall_join (P : Z → Prop) sep ls : Forall P sep → Forall (Forall P) ls → Forall P (join sep ls).
Proof.
  intros Hs. induction 1 as [|l ls Hl HF IH]; [constructor|]. cbn [join].
  apply Forall_app_2; [done|]. destruct ls; [constructor|]. by apply Forall_app_2.
Qed.

Lemma to_digit_dec b : is_digit b = true → to_digit 10 b = Some (b - 48).
Proof.
  intros H. unfold to_digit. rewrite H. unfold is_digit in H.
  apply andb_true_iff in H as [H1 H2]. apply Z.leb_le in H1, H2.
  destruct (Z.ltb_spec (b - 48) 10); [done|lia].
Qed.

Lemma digits_val_ge acc l : 0 ≤ acc → Forall (λ b, is_digit b = true) l → acc ≤ digits_val acc l.
Proof.
  intros Ha Hl. revert acc Ha. induction Hl as [|b l Hb Hl IH]; intros acc Ha; [done|].
  cbn. unfold is_digit in Hb. apply andb_true_iff in Hb as [H1 H2]. apply Z.leb_le in H1, H2.
  etransitivity; [|apply IH]; lia.
Qed.

Lemma digits_acc_val max acc l : 0 ≤ acc → Forall (λ b, is_digit b = true) l →
  digits_val acc l ≤ max → digits_acc 10 max acc l = Some (digits_val acc l).
Proof.
  intros Ha Hl. revert acc Ha. induction Hl as [|b l Hb Hl IH]; intros acc Ha Hm; [done|].
  cbn [digits_acc]. rewrite (to_digit_dec b Hb). cbn [mbind option_bind].
  unfold is_digit in Hb. apply andb_true_iff in Hb as [H1 H2]. apply Z.leb_le in H1, H2.
  pose proof (digits_val_ge (acc * 10 + (b - 48)) l ltac:(lia) Hl).
  cbn [digits_val foldl] in Hm. fold (digits_val (acc * 10 + (b - 48)) l) in Hm.
  destruct (Z.ltb_spec max (acc * 10 + (b - 48))); [lia|]. apply IH; [lia|done].
Qed.

(** Printing a number and parsing it gives the number back. *)
Lemma parse_uint_dec max n : 0 ≤ n ≤ max → max < 2 ^ 64 → parse_uint max (dec n) = Some n.
Proof.
  intros Hn Hm. unfold parse_uint, from_str_radix.
  pose proof (dec_digits n ltac:(lia)) as Hd. pose proof (dec_nonempty n) as Hne.
  assert (Hv : digits_val 0 (dec n) = n) by (apply digits_val_dec; lia).
  destruct (dec n) as [|b l]; [done|]. pose proof (Forall_inv Hd) as Hb. cbv beta in Hb.
  destruct (Z.eqb_spec b 43) as [->|_]; [done|].
  rewrite digits_acc_val by (done || lia). by rewrite Hv.
Qed.

Lemma digits_acc_range radix max acc l v : 0 ≤ acc ≤ max → 0 ≤ radix →
  digits_acc radix max acc l = Some v → 0 ≤ v ≤ max.
Proof.
  intros Ha Hr. revert acc Ha. induction l as [|b l IH]; intros acc Ha; cbn [digits_acc].
  { intros [= <-]. done. }
  destruct (to_digit radix b) as [d|] eqn:Hd; [|done]. cbn [mbind option_bind].
  assert (0 ≤ d).
  { unfold to_digit in Hd. destruct (_ <? radix); [|done]. injection Hd as <-.
    unfold is_digit. repeat case_bool; cbn [andb]; lia. }
  case_bool; [done|]. apply IH. nia.
Qed.

(** Whatever is parsed is in range. *)
Lemma parse_uint_range max l v : 0 ≤ max → parse_uint max l = Some v → 0 ≤ v ≤ max.
Proof.
  intros Hm. unfold parse_uint, from_str_radix. destruct l as [|b l]; [done|].
  repeat case_bool; try done; apply digits_acc_range; lia.
Qed.

Lemma split_byte_nonempty c l : split_byte c l ≠ [].
Proof. destruct l as [|b l]; simpl; [done|]. case_bool; [done|]. by destruct (split_byte c l). Qed.

(** A piece without the separator is split off whole. *)
Lemma split_byte_one c x : Forall (λ b, b ≠ c) x → split_byte c x = [x].
Proof.
  induction 1 as [|b x Hb Hx IH]; [done|]. simpl. rewrite IH.
  apply Z.eqb_neq in Hb. by rewrite Hb.
Qed.

Lemma split_byte_app c x l : Forall (λ b, b ≠ c) x →
  split_byte c (x ++ c :: l) = x :: split_byte c l.
Proof.
  induction 1 as [|b x Hb Hx IH]; simpl; [by rewrite Z.eqb_refl|].
  rewrite IH. apply Z.eqb_neq in Hb. by rewrite Hb.
Qed.

(** Splitting undoes joining. *)
Lemma split_byte_join c ls : ls ≠ [] → Forall (Forall (λ b, b ≠ c)) ls →
  split_byte c (join [c] ls) = ls.
Proof.
  intros Hne Hl. induction Hl as [|x ls Hx Hl IH]; [done|].
  cbn [join]. destruct ls as [|y ls].
  { by rewrite app_nil_r, split_byte_one. }
  cbn [app]. by rewrite split_byte_app, IH.
Qed.

(** ** What the operations keep of every byte *)

Section bytewise.
  Context (P : Z → Prop).

Lemma Forall_strip_any fuel ps l : Forall P l → Forall P (strip_any fuel ps l).
Proof.
  revert l. induction fuel as [|fuel IH]; intros l Hl; [done|]. cbn [strip_any].
  destruct (list_find _ ps) as [[i p]|]; [|done]. apply IH. by apply Forall_drop.
Qed.

Lemma Forall_trim l : Forall P l → Forall P (trim l).
Proof. intros H. by apply Forall_reverse, Forall_strip_any, Forall_reverse, Forall_strip_any. Qed.

Lemma Forall_trim_matches c l : Forall P l → Forall P (trim_matches c l).
Proof. intros H. by apply Forall_reverse, Forall_strip_any, Forall_reverse, Forall_strip_any. Qed.

Lemma Forall_split_byte c l : Forall P l → Forall (Forall P) (split_byte c l).
Proof.
  induction 1 as [|b l Hb Hl IH]; cbn [split_byte]; [by apply Forall_singleton|].
  case_bool; [by constructor|]. destruct IH as [|p ps]; repeat constructor; done.
Qed.

Lemma Forall_lines l : Forall P l → Forall (Forall P) (lines l).
Proof.
  intros H. unfold lines. pose proof (Forall_split_byte LF l H) as Hs.
  set (ps := split_byte LF l) in *. apply Forall_app_2.
  - apply Forall_fmap. eapply Forall_impl; [by apply Forall_take|]. intros p Hp. simpl.
    unfold strip_cr. repeat case_match; try done. by apply Forall_take.
  - apply Forall_forall. intros p [_ Hp]%list_elem_of_filter.
    pose proof (Forall_drop _ (length ps - 1) _ Hs) as Hd. rewrite Forall_forall in Hd. by apply Hd.
Qed.
End bytewise.

(** ** Trimming text that is set off by spaces *)

(** Printable ASCII other than the space. *)
Definition graphic (b : Z) : Prop := 33 ≤ b ≤ 126.

Definition spaces_only (ps : list (list Z)) : bool :=
  forallb (λ p, match p with c :: _ => (c <=? 32) || (127 <=? c) | [] => false end) ps.

Lemma strip_any_stop fuel ps x l : spaces_only ps = true → graphic x →
  strip_any fuel ps (x :: l) = x :: l.
Proof.
  intros Hps Hx. destruct fuel as [|fuel]; [done|]. cbn [strip_any].
  destruct (list_find _ ps) as [[i p]|] eqn:E; [|done]. exfalso.
  apply list_find_Some in E as (Hi & Hp & _). unfold spaces_only in Hps.
  rewrite forallb_forall in Hps. specialize (Hps p).
  apply list_elem_of_lookup_2, list_elem_of_In in Hi. specialize (Hps Hi).
  destruct p as [|c t]; [done|]. unfold starts_with in Hp.
  apply bool_decide_eq_true in Hp. injection Hp as -> _. unfold graphic in Hx.
  revert Hps. repeat case_bool; cbn [orb]; (lia || done).
Qed.

(** A space first: stripped, then it stops. *)
Lemma strip_any_space fuel ps x l :
  ps = utf8_spaces ∨ ps = reverse <$> utf8_spaces → graphic x →
  strip_any (S fuel) ps (SPACE :: x :: l) = x :: l.
Proof.
  intros Hps Hx.
  assert (Hf : list_find (λ p, starts_with (SPACE :: x :: l) p = true) ps = Some (5%nat, [SPACE])).
  { by destruct Hps as [-> | ->]. }
  cbn [strip_any]. rewrite Hf. cbn [length drop]. apply strip_any_stop; [|done].
  by destruct Hps as [-> | ->].
Qed.

(** A text that starts and ends with a printable character. *)
Definition tight (l : list Z) : Prop :=
  match head l, last l with Some a, Some b => graphic a ∧ graphic b | _, _ => False end.

Lemma tight_inv l : tight l → ∃ x l' y l'', l = x :: l' ∧ reverse l = y :: l'' ∧ graphic x ∧ graphic y.
Proof.
  unfold tight. destruct l as [|x l]; [done|]. cbn [head].
  rewrite <- head_reverse. destruct (reverse (x :: l)) as [|y r] eqn:E; [done|].
  cbn. intros [? ?]. by exists x, l, y, r.
Qed.

Lemma trim_tight l : tight l → trim l = l.
Proof.
  intros (x & l' & y & l'' & -> & Hr & Hx & Hy)%tight_inv. unfold trim, trim_start, trim_end.
  rewrite strip_any_stop by done. rewrite Hr, strip_any_stop by done.
  by rewrite <- Hr, reverse_involutive.
Qed.

Lemma trim_space_l l : tight l → trim (SPACE :: l) = l.
Proof.
  intros Ht. pose proof Ht as (x & l' & y & l'' & -> & Hr & Hx & Hy)%tight_inv.
  unfold trim, trim_start. cbn [length]. rewrite strip_any_space by (done || by left).
  unfold trim_end. rewrite Hr, strip_any_stop by done. by rewrite <- Hr, reverse_involutive.
Qed.

Lemma trim_space_r l : tight l → trim (l ++ [SPACE]) = l.
Proof.
  intros (x & l' & y & l'' & -> & Hr & Hx & Hy)%tight_inv.
  unfold trim, trim_start. cbn [app]. rewrite strip_any_stop by done.
  change (x :: l' ++ [SPACE]) with ((x :: l') ++ [SPACE]). unfold trim_end.
  rewrite reverse_snoc, Hr, length_app, Nat.add_1_r.
  rewrite strip_any_space by (done || by right). by rewrite <- Hr, reverse_involutive.
Qed.

Lemma trim_matches_id c l : head l ≠ Some c → last l ≠ Some c → trim_matches c l = l.
Proof.
  assert (Hs : ∀ fuel k, head k ≠ Some c → strip_any fuel [[c]] k = k).
  { intros [|fuel] k Hk; [done|]. cbn [strip_any].
    destruct (list_find _ _) as [[i p]|] eqn:E; [|done]. exfalso.
    apply list_find_Some in E as (Hi & Hp & _). destruct i as [|[|]]; try done.
    injection Hi as <-. unfold starts_with in Hp. apply bool_decide_eq_true in Hp.
    destruct k as [|b k]; [done|]. injection Hp as ->. done. }
  intros Hh Hl. unfold trim_matches. rewrite (Hs _ l) by done.
  rewrite Hs by by rewrite head_reverse. apply reverse_involutive.
Qed.

Lemma tight_app a b : tight a → tight b → ∀ m, tight (a ++ m ++ b).
Proof.
  unfold tight. intros Ha Hb m. destruct a as [|x a]; [done|]. cbn [head app] in *.
  destruct (last b) as [z|] eqn:E; [|by destruct (head b)].
  rewrite app_assoc. change (x :: (a ++ m) ++ b) with ((x :: a ++ m) ++ b). rewrite last_app, E.
  destruct (last (x :: a)); [|done]. destruct (head b); [|done].
  by destruct Ha, Hb.
Qed.

(** The first occurrence of a byte. *)
Lemma find_byte_app c a b : Forall (λ x, x ≠ c) a → find_byte c (a ++ c :: b) = Some (length a).
Proof.
  induction 1 as [|x a Hx Ha IH]; simpl; [by rewrite Z.eqb_refl|].
  apply Z.eqb_neq in Hx. by rewrite Hx, IH.
Qed.

Lemma find_byte_None c l : Forall (λ x, x ≠ c) l → find_byte c l = None.
Proof. induction 1 as [|x a Hx Ha IH]; [done|]. simpl. apply Z.eqb_neq in Hx. by rewrite Hx, IH. Qed.

(** ** Lines *)

Definition unlines (ls : list (list Z)) : list Z := concat ((λ l, l ++ [LF]) <$> ls).

Lemma split_byte_unlines ls : Forall (Forall (λ b, b ≠ LF)) ls →
  split_byte LF (unlines ls) = ls ++ [[]].
Proof.
  induction 1 as [|l ls Hl Hls IH]; [done|]. unfold unlines in *. rewrite fmap_cons. simpl.
  rewrite <- app_assoc. cbn [app]. by rewrite split_byte_app, IH.
Qed.

(** Reading the lines that were written. *)
Lemma lines_unlines ls : Forall (λ l, Forall (λ b, b ≠ LF) l ∧ last l ≠ Some CR) ls →
  lines (unlines ls) = ls.
Proof.
  intros H. unfold lines. rewrite split_byte_unlines.
  2: { eapply Forall_impl; [exact H|]. by intros l [? _]. }
  rewrite length_app. cbn [length]. rewrite Nat.add_sub.
  rewrite take_app_length, drop_app_length. cbn.
  rewrite app_nil_r. induction H as [|l ls [_ Hl] Hls IH]; [done|].
  rewrite fmap_cons, IH. f_equal. unfold strip_cr. destruct (last l) as [z|]; [|done].
  destruct (decide (z = 13)) as [-> | Hz]; [done|]. by repeat case_match; subst.
Qed.
