(* ===== verification/Net.v ===== *)
(** * Net: [std::net] addresses and their parser

    The cursor functions follow [core::net::parser]: each consumes a prefix
    of the input or leaves it untouched, [read_atomically] being the failure
    of the option. *)

From stdpp Require Import countable.
From S2P Require Import Prelude Words Text StrOps.
Local Open Scope Z_scope.

(** Octets of an IPv4 address, segments of an IPv6 address. *)
Inductive IpAddr :=
| V4 (octets : list Z)
| V6 (segments : list Z).

#[global] Instance IpAddr_eq_dec : EqDecision IpAddr.
Proof. solve_decision. Defined.

#[global] Instance IpAddr_countable : Countable IpAddr.
Proof.
  refine (inj_countable' (λ ip, match ip with V4 o => (true, o) | V6 s => (false, s) end)
            (λ '(b, l), if b : bool then V4 l else V6 l) _). by intros [].
Defined.

(** [SocketAddr]: an address and a port. *)
Record SocketAddr := mkAddr { sa_ip : IpAddr; sa_port : Z }.

#[global] Instance SocketAddr_eq_dec : EqDecision SocketAddr.
Proof. solve_decision. Defined.
#[global] Instance SocketAddr_countable : Countable SocketAddr.
Proof.
  refine (inj_countable' (λ a, (sa_ip a, sa_port a)) (λ '(i, p), mkAddr i p) _). by intros [].
Defined.

Definition ip_ok (ip : IpAddr) : Prop :=
  match ip with
  | V4 o => length o = 4%nat ∧ Forall (in_width 8) o
  | V6 s => length s = 8%nat ∧ Forall (in_width 16) s
  end.

Definition addr_ok (a : SocketAddr) : Prop := ip_ok (sa_ip a) ∧ is_u16 (sa_port a).

(** The octets of an IPv6 address and back. *)
Definition v6_octets (s : list Z) : list Z := s ≫= u16_to_be_bytes.
Fixpoint v6_segments (l : list Z) : list Z :=
  match l with
  | a :: b :: l => from_be [a; b] :: v6_segments l
  | _ => []
  end.

Definition ip_unspecified : IpAddr := V4 [0; 0; 0; 0].

Definition is_v4 (ip : IpAddr) : bool := match ip with V4 _ => true | V6 _ => false end.

(** Leading digits: their value, their count and the rest. *)
Fixpoint read_digits (radix acc : Z) (n : nat) (l : list Z) : Z * nat * list Z :=
  match l with
  | [] => (acc, n, [])
  | b :: l' =>
      match to_digit radix b with
      | Some d => read_digits radix (acc * radix + d) (S n) l'
      | None => (acc, n, l)
      end
  end.

Definition read_number (radix max : Z) (max_digits : nat) (allow_zero_prefix : bool) (l : list Z)
    : option (Z * list Z) :=
  let has_leading_zero := bool_decide (head l = Some 48) in
  let '(v, n, rest) := read_digits radix 0 0 l in
  if (max_digits <? n)%nat then None
  else if (n =? 0)%nat then None
  else if negb allow_zero_prefix && has_leading_zero && (1 <? n)%nat then None
  else if max <? v then None else Some (v, rest).

Definition read_given_char (c : Z) (l : list Z) : option (list Z) :=
  match l with
  | b :: l => if b =? c then Some l else None
  | [] => None
  end.

Definition read_separator {A} (sep : Z) (index : nat) (inner : list Z → option (A * list Z))
    (l : list Z) : option (A * list Z) :=
  if (index =? 0)%nat then inner l else l' ← read_given_char sep l; inner l'.

Definition DOT : Z := 46.
Definition COLON : Z := 58.

Fixpoint read_octets (n i : nat) (l : list Z) : option (list Z * list Z) :=
  match n with
  | O => Some ([], l)
  | S n =>
      '(o, l) ← read_separator DOT i (read_number 10 255 3 false) l;
      '(os, l) ← read_octets n (S i) l;
      Some (o :: os, l)
  end.

Definition read_ipv4_addr (l : list Z) : option (list Z * list Z) := read_octets 4 0 l.

(** [read_groups] for [n] remaining slots of [limit]; the groups read, whether
    an embedded IPv4 address ended them, and the rest. *)
Fixpoint read_groups (n i limit : nat) (l : list Z) : list Z * bool * list Z :=
  match n with
  | O => ([], false, l)
  | S n =>
      let v4 := if (i <? limit - 1)%nat then read_separator COLON i read_ipv4_addr l else None in
      match v4 with
      | Some ([a; b; c; d], l') => ([a * 256 + b; c * 256 + d], true, l')
      | _ =>
          match read_separator COLON i (read_number 16 0xFFFF 4 true) l with
          | Some (g, l') =>
              let '(gs, v, rest) := read_groups n (S i) limit l' in (g :: gs, v, rest)
          | None => ([], false, l)
          end
      end
  end.

Definition read_ipv6_addr (l : list Z) : option (list Z * list Z) :=
  let '(hd, head_ipv4, l) := read_groups 8 0 8 l in
  if (length hd =? 8)%nat then Some (hd, l) else
  if head_ipv4 then None else
  l ← read_given_char COLON l;
  l ← read_given_char COLON l;
  let limit := (8 - (length hd + 1))%nat in
  let '(tl, _, l) := read_groups limit 0 limit l in
  Some (hd ++ replicate (8 - length hd - length tl) 0 ++ tl, l).

Definition parse_with {A} (r : option (A * list Z)) : option A :=
  match r with Some (a, []) => Some a | _ => None end.

(** [s.parse::<IpAddr>()]: the IPv4 reader first, then the IPv6 reader; the
    whole input must be consumed. *)
Definition parse_ip (l : list Z) : option IpAddr :=
  parse_with
    (match read_ipv4_addr l with
     | Some (o, rest) => Some (V4 o, rest)
     | None => match read_ipv6_addr l with
               | Some (s, rest) => Some (V6 s, rest)
               | None => None
               end
     end).

(** [s.parse::<Ipv4Addr>()]: at most 15 bytes. *)
Definition parse_ipv4 (l : list Z) : option (list Z) :=
  if (15 <? length l)%nat then None else parse_with (read_ipv4_addr l).

(** [Display] of an IPv4 address *)
Definition show_ipv4 (o : list Z) : list Z := join [DOT] (dec <$> o).

(** [{:x}] of a segment *)
Definition hex_u16 (v : Z) : list Z :=
  let h := (λ k, hex_digit ((v / 16 ^ k) mod 16)) in
  if v <? 16 then [h 0]
  else if v <? 256 then [h 1; h 0]
  else if v <? 4096 then [h 2; h 1; h 0] else [h 3; h 2; h 1; h 0].

(** The longest run of zero segments, the first one if several: [cur] and
    [best] are a start and a length. *)
Fixpoint zero_span (i : nat) (cur best : nat * nat) (s : list Z) : nat * nat :=
  match s with
  | [] => best
  | v :: s =>
      if v =? 0 then
        let cur := (if (cur.2 =? 0)%nat then i else cur.1, S cur.2) in
        zero_span (S i) cur (if (best.2 <? cur.2)%nat then cur else best) s
      else zero_span (S i) (0, 0)%nat best s
  end.

(** [Display] of an IPv6 address *)
Definition show_ipv6 (s : list Z) : list Z :=
  match s with
  | [0; 0; 0; 0; 0; 0xFFFF; a; b] =>
      bs "::ffff:" ++ show_ipv4 (u16_to_be_bytes a ++ u16_to_be_bytes b)
  | _ =>
      let '(start, n) := zero_span 0 (0, 0)%nat (0, 0)%nat s in
      if (1 <? n)%nat
      then join [COLON] (hex_u16 <$> take start s) ++ bs "::"
             ++ join [COLON] (hex_u16 <$> drop (start + n) s)
      else join [COLON] (hex_u16 <$> s)
  end.

Definition show_ip (ip : IpAddr) : list Z :=
  match ip with V4 o => show_ipv4 o | V6 s => show_ipv6 s end.

(** Leading decimal digits with no bound on their number; a port overflow is
    a failure. *)
Definition read_port (l : list Z) : option (Z * list Z) :=
  let '(v, n, rest) := read_digits 10 0 0 l in
  if (n =? 0)%nat then None else if 0xFFFF <? v then None else Some (v, rest).

Definition read_socket_addr_v4 (l : list Z) : option (SocketAddr * list Z) :=
  '(o, l) ← read_ipv4_addr l;
  l ← read_given_char COLON l;
  '(p, l) ← read_port l;
  Some (mkAddr (V4 o) p, l).

(** [[addr]:port]; an optional scope id is read and not kept. *)
Definition read_scope_id (l : list Z) : option (list Z) :=
  match read_given_char 37 l with
  | None => Some l
  | Some l' => let '(v, n, rest) := read_digits 10 0 0 l' in
               if (n =? 0)%nat || (u32_max <? v) then None else Some rest
  end.

Definition read_socket_addr_v6 (l : list Z) : option (SocketAddr * list Z) :=
  l ← read_given_char 91 l;
  '(s, l) ← read_ipv6_addr l;
  l ← read_scope_id l;
  l ← read_given_char 93 l;
  l ← read_given_char COLON l;
  '(p, l) ← read_port l;
  Some (mkAddr (V6 s) p, l).

(** [s.parse::<SocketAddr>()] *)
Definition parse_socket_addr (l : list Z) : option SocketAddr :=
  parse_with (match read_socket_addr_v4 l with
              | Some r => Some r
              | None => read_socket_addr_v6 l
              end).

(** ** The parser reads back a printed IPv4 address *)

Lemma read_digits_app acc n l rest :
  Forall (λ b, is_digit b = true) l → (∀ b, head rest = Some b → to_digit 10 b = None) →
  read_digits 10 acc n (l ++ rest) = (digits_val acc l, (n + length l)%nat, rest).
Proof.
  intros Hl Hr. revert acc n. induction Hl as [|b l Hb Hl IH]; intros acc n.
  - rewrite Nat.add_0_r. destruct rest as [|b rest]; [done|].
    cbn [app read_digits]. by rewrite (Hr b).
  - cbn [app read_digits]. rewrite (to_digit_dec b Hb), IH. cbn [length].
    by rewrite Nat.add_succ_comm.
Qed.

Definition octet_text_ok (v : Z) : bool :=
  bool_decide (length (dec v) ≤ 3)%nat && bool_decide (length (dec v) ≠ 0%nat)
  && negb (bool_decide (head (dec v) = Some 48) && bool_decide (1 < length (dec v))%nat).

Lemma octet_texts v : 0 ≤ v < 256 → octet_text_ok v = true.
Proof. apply (check_below _ 256). vm_compute. reflexivity. Qed.

Lemma read_number_dec v rest : 0 ≤ v < 256 →
  (∀ b, head rest = Some b → to_digit 10 b = None) →
  read_number 10 255 3 false (dec v ++ rest) = Some (v, rest).
Proof.
  intros Hv Hr. unfold read_number.
  rewrite read_digits_app by (done || apply dec_digits; lia).
  rewrite digits_val_dec by lia. rewrite Nat.add_0_l.
  pose proof (octet_texts v Hv) as Ho. unfold octet_text_ok in Ho.
  apply andb_true_iff in Ho as [[H1 H2]%andb_true_iff H3].
  apply bool_decide_eq_true in H1, H2.
  destruct (Nat.ltb_spec 3 (length (dec v))); [lia|].
  destruct (Nat.eqb_spec (length (dec v)) 0); [lia|].
  assert (Hh : head (dec v ++ rest) = head (dec v)) by by destruct (dec v).
  rewrite Hh. cbn [negb andb].
  replace (bool_decide (head (dec v) = Some 48) && (1 <? length (dec v))%nat) with false.
  2: { symmetry. apply negb_true_iff in H3. rewrite <- H3. f_equal.
       case_bool; [by rewrite bool_decide_eq_true_2|by rewrite bool_decide_eq_false_2 by lia]. }
  destruct (Z.ltb_spec 255 v); [lia|done].
Qed.

Lemma read_octets_show n i os rest : length os = n → Forall (λ v, 0 ≤ v < 256) os →
  (∀ b, head rest = Some b → to_digit 10 b = None) → (n ≠ 0)%nat →
  read_octets n i ((if (i =? 0)%nat then [] else [DOT]) ++ join [DOT] (dec <$> os) ++ rest)
  = Some (os, rest).
Proof.
  revert i os. induction n as [|n IH]; intros i os Hl Ho Hr Hn; [done|].
  destruct os as [|o os]; [done|]. apply Forall_cons in Ho as [Ho1 Ho2]. injection Hl as Hl.
  cbn [read_octets].
  assert (Hsep : ∀ l, read_separator DOT i (read_number 10 255 3 false)
            ((if (i =? 0)%nat then [] else [DOT]) ++ l) = read_number 10 255 3 false l).
  { intros l. unfold read_separator. by destruct (i =? 0)%nat. }
  rewrite Hsep. clear Hsep. rewrite fmap_cons. cbn [join]. rewrite <- app_assoc.
  destruct n as [|n].
  - destruct os; [|done]. cbn [fmap list_fmap app]. rewrite read_number_dec by done. done.
  - destruct os as [|o' os]; [done|].
    rewrite read_number_dec; [|done|].
    2: { rewrite fmap_cons. intros b [= <-]. reflexivity. }
    cbn [mbind option_bind].
    specialize (IH (S i) (o' :: os) Hl Ho2 Hr ltac:(lia)).
    cbn [Nat.eqb app] in IH. rewrite fmap_cons in IH |- *. cbn [app].
    by rewrite IH.
Qed.

Lemma parse_ip_show_ipv4 os : length os = 4%nat → Forall (λ v, 0 ≤ v < 256) os →
  parse_ip (show_ipv4 os) = Some (V4 os).
Proof.
  intros Hl Ho. unfold parse_ip, read_ipv4_addr.
  pose proof (read_octets_show 4 0 os [] Hl Ho ltac:(done) ltac:(lia)) as H.
  rewrite app_nil_r in H. cbn [Nat.eqb app] in H. fold (show_ipv4 os) in H. by rewrite H.
Qed.

(** ** The text of an address *)

(** Hexadecimal digits, dots and colons. *)
Definition ip_char (b : Z) : Prop := is_alnum b = true ∨ b = DOT ∨ b = COLON.

Lemma dec_ip_chars n : 0 ≤ n → Forall ip_char (dec n).
Proof.
  intros Hn. eapply Forall_impl; [by apply dec_digits|]. intros b Hb. left. by apply is_digit_alnum.
Qed.

Lemma hex_u16_chars v : Forall ip_char (hex_u16 v).
Proof.
  assert (H : ∀ k, ip_char (hex_digit ((v / 16 ^ k) mod 16))).
  { intros k. left. apply (check_below (λ n, is_alnum (hex_digit n)) 16); [reflexivity|].
    by apply Z.mod_pos_bound. }
  unfold hex_u16. repeat case_match; repeat (apply Forall_cons; split; [apply H|]); constructor.
Qed.

Lemma length_hex_u16 v : (length (hex_u16 v) ≤ 4)%nat.
Proof. unfold hex_u16. repeat case_match; simpl; lia. Qed.

Lemma ipv4_text o : Forall (in_width 8) o →
  Forall ip_char (show_ipv4 o) ∧ (length (show_ipv4 o) ≤ length o * 4)%nat.
Proof.
  intros HF. split.
  - apply Forall_join; [apply Forall_singleton; right; by left|].
    apply Forall_fmap. eapply Forall_impl; [exact HF|]. intros v [Hv _]. by apply dec_ip_chars.
  - unfold show_ipv4. etransitivity; [apply (length_join _ 3)|by rewrite length_fmap].
    apply Forall_fmap. eapply Forall_impl; [exact HF|]. intros v [H0 H1]. cbn.
    apply length_dec; [lia|]. change (2 ^ 8) with 256 in H1. change (10 ^ Z.of_nat 3) with 1000. lia.
Qed.

Lemma groups_text s :
  Forall ip_char (join [COLON] (hex_u16 <$> s)) ∧
  (length (join [COLON] (hex_u16 <$> s)) ≤ length s * 5)%nat.
Proof.
  split.
  - apply Forall_join; [apply Forall_singleton; right; by right|].
    apply Forall_fmap, Forall_forall. intros v _. apply hex_u16_chars.
  - etransitivity; [apply (length_join _ 4)|by rewrite length_fmap].
    apply Forall_fmap, Forall_forall. intros v _. apply length_hex_u16.
Qed.

(** The text of an address is short and plain. *)
Lemma show_ip_text ip : ip_ok ip → Forall ip_char (show_ip ip) ∧ (length (show_ip ip) ≤ 42)%nat.
Proof.
  destruct ip as [o|s]; intros [Hl HF]; cbn [show_ip].
  { destruct (ipv4_text o HF). split; [done|]. rewrite Hl in *. lia. }
  assert (Hplain : Forall ip_char (join [COLON] (hex_u16 <$> s)) ∧
    (length (join [COLON] (hex_u16 <$> s)) ≤ 42)%nat).
  { destruct (groups_text s). rewrite Hl in *. split; [done|lia]. }
  assert (Hspan : ∀ a n, Forall ip_char (join [COLON] (hex_u16 <$> take a s) ++ bs "::"
             ++ join [COLON] (hex_u16 <$> drop (a + n) s)) ∧
    (length (join [COLON] (hex_u16 <$> take a s) ++ bs "::"
             ++ join [COLON] (hex_u16 <$> drop (a + n) s)) ≤ 42)%nat).
  { intros a n. destruct (groups_text (take a s)) as [H1 H2].
    destruct (groups_text (drop (a + n) s)) as [H3 H4].
    rewrite length_take in H2. rewrite length_drop in H4. split.
    - apply Forall_app_2; [done|]. apply Forall_app_2; [|done].
      repeat (apply Forall_cons; split; [right; by right|]). constructor.
    - rewrite !length_app. change (length (bs "::")) with 2%nat. lia. }
  assert (Hmap : ∀ a b, Forall ip_char (bs "::ffff:" ++ show_ipv4 (u16_to_be_bytes a ++ u16_to_be_bytes b)) ∧
    (length (bs "::ffff:" ++ show_ipv4 (u16_to_be_bytes a ++ u16_to_be_bytes b)) ≤ 42)%nat).
  { intros a b. destruct (ipv4_text (u16_to_be_bytes a ++ u16_to_be_bytes b)) as [H1 H2].
    { apply Forall_app_2; apply be_bytes_bytes. }
    rewrite length_app, !length_be_bytes in H2. split.
    - apply Forall_app_2; [|done].
      repeat (apply Forall_cons; split; [first [by left | right; by right]|]). constructor.
    - rewrite length_app. change (length (bs "::ffff:")) with 7%nat. lia. }
  unfold show_ipv6. destruct (zero_span 0 (0, 0)%nat (0, 0)%nat s) as [a n].
  repeat case_match; subst; auto.
Qed.

Lemma parse_ipv4_show os : length os = 4%nat → Forall (in_width 8) os →
  parse_ipv4 (show_ipv4 os) = Some os.
Proof.
  intros Hl Ho. unfold parse_ipv4, read_ipv4_addr.
  assert (Hlen : (length (show_ipv4 os) ≤ 15)%nat).
  { destruct os as [|a [|b [|c [|d [|]]]]]; try done.
    repeat match goal with H : Forall _ (_ :: _) |- _ => apply Forall_cons in H as [? H] end.
    assert (Hd : ∀ v, in_width 8 v → (length (dec v) ≤ 3)%nat).
    { intros v [Hv Hw]. change (2 ^ 8) with 256 in Hw. apply length_dec; lia. }
    unfold show_ipv4. cbn [fmap list_fmap join]. rewrite !length_app. cbn [length].
    pose proof (Hd a). pose proof (Hd b). pose proof (Hd c). pose proof (Hd d). intuition lia. }
  destruct (Nat.ltb_spec 15 (length (show_ipv4 os))); [lia|].
  pose proof (read_octets_show 4 0 os [] Hl Ho ltac:(done) ltac:(lia)) as Hr.
  rewrite app_nil_r in Hr. cbn [Nat.eqb app] in Hr. fold (show_ipv4 os) in Hr. by rewrite Hr.
Qed.
