(* ===== verification/Config.v ===== *)
(** * config.rs: the configuration

    The text of a configuration file and the environment are parameters; the
    parser threads its locals as a record and reports each error site by a
    constructor.  A value that [parse] rejects, a key of the wrong length and
    a slice off a character boundary end the load, the last one by a panic. *)

From stdpp Require Import gmap.
From S2P Require Import Prelude Words Slices Text Hkdf Obfs Results StrOps Net.
Local Open Scope Z_scope.

Inductive XdpDefaultPolicy := Allow | Drop.

Record PeerConfig := mkPeer {
  name : list Z;
  mtu : Z;
  nic : option (list Z);
  default_policy : XdpDefaultPolicy;
  address : list Z;
  bind_ip : IpAddr;
  peer_ip : IpAddr;
  dynamic_peer : bool;
  responder : bool;
  ports : list Z;
  peer_ports : list Z;
  key : list Z;
  keepalive_drop_percent : Z;
  outer_mtu : Z;
  own_http3 : bool;
  wg_host : list Z;
  sip_domain : list Z;
  obfs : ObfsMode;
  bind_port : Z
}.

Record GlobalConfig := mkGlobal { g_outer_mtu : Z; userspace_only : bool }.
Record RuntimeConfig := mkRuntime { stats_interval : Z; stat_file : list Z }.
Record Config := mkConfig {
  global : GlobalConfig;
  runtime : RuntimeConfig;
  peers : list PeerConfig
}.

(** The errors, by the place that reports them. *)
Inductive cerr :=
| EKeyLen (n : nat)
| EHexByte (i : nat)
| EParseInt
| EParseBool
| EParseIp
| EInvalidPolicy (v : list Z)
| EInvalidObfs (v : list Z)
| EPortParse
| EPortsEmpty
| EPortZero
| EPeerPortsEmpty
| EKeepalive
| EPeerIpNotSet
| EPortsNotSet
| ESipPorts
| ENoKey (name : list Z)
| ENoPeers
| EDuplicateName (name : list Z)
| EPortShared
| EEnvMissing (var : list Z)
| ECannotRead
| EInFile (e : cerr).

(** [Config::peer]: the first peer. *)
Definition peer (c : Config) : outcome PeerConfig := unwrap (peers c !! 0%nat).

(** ** Keys *)

Definition parse_hex_key (s : list Z) : res cerr (list Z) :=
  if negb (length s =? 64)%nat then Err (EKeyLen (length s)) else
  mapR (λ i, t ← lift (str_slice s (i * 2) (i * 2 + 2));
             ok_or (from_str_radix 16 u8_max t) (EHexByte i)) (seq 0 32).

(** ** The builder *)

Record PeerBuilder := mkBuilder {
  b_name : list Z;
  b_mtu : Z;
  b_nic : option (list Z);
  b_default_policy : XdpDefaultPolicy;
  b_address : option (list Z);
  b_bind_ip : option IpAddr;
  b_peer_ip : option IpAddr;
  b_dynamic_peer : bool;
  b_responder : option bool;
  b_ports : option (list Z);
  b_peer_ports : option (list Z);
  b_key : option (list Z);
  b_passphrase : option (list Z);
  b_keepalive_drop_percent : Z;
  b_own_http3 : bool;
  b_wg_host : option (list Z);
  b_sip_domain : option (list Z);
  b_obfs : ObfsMode;
  b_bind_port : option Z
}.

Definition set_name (b : PeerBuilder) (v : list Z) : PeerBuilder :=
  mkBuilder v (b_mtu b) (b_nic b) (b_default_policy b) (b_address b) (b_bind_ip b) (b_peer_ip b)
    (b_dynamic_peer b) (b_responder b) (b_ports b) (b_peer_ports b) (b_key b) (b_passphrase b)
    (b_keepalive_drop_percent b) (b_own_http3 b) (b_wg_host b) (b_sip_domain b) (b_obfs b)
    (b_bind_port b).
Definition set_mtu (b : PeerBuilder) (v : Z) : PeerBuilder :=
  mkBuilder (b_name b) v (b_nic b) (b_default_policy b) (b_address b) (b_bind_ip b) (b_peer_ip
    b) (b_dynamic_peer b) (b_responder b) (b_ports b) (b_peer_ports b) (b_key b) (b_passphrase
    b) (b_keepalive_drop_percent b) (b_own_http3 b) (b_wg_host b) (b_sip_domain b) (b_obfs b)
    (b_bind_port b).
Definition set_nic (b : PeerBuilder) (v : option (list Z)) : PeerBuilder :=
  mkBuilder (b_name b) (b_mtu b) v (b_default_policy b) (b_address b) (b_bind_ip b) (b_peer_ip
    b) (b_dynamic_peer b) (b_responder b) (b_ports b) (b_peer_ports b) (b_key b) (b_passphrase
    b) (b_keepalive_drop_percent b) (b_own_http3 b) (b_wg_host b) (b_sip_domain b) (b_obfs b)
    (b_bind_port b).
Definition set_default_policy (b : PeerBuilder) (v : XdpDefaultPolicy) : PeerBuilder :=
  mkBuilder (b_name b) (b_mtu b) (b_nic b) v (b_address b) (b_bind_ip b) (b_peer_ip b)
    (b_dynamic_peer b) (b_responder b) (b_ports b) (b_peer_ports b) (b_key b) (b_passphrase b)
    (b_keepalive_drop_percent b) (b_own_http3 b) (b_wg_host b) (b_sip_domain b) (b_obfs b)
    (b_bind_port b).
Definition set_address (b : PeerBuilder) (v : option (list Z)) : PeerBuilder :=
  mkBuilder (b_name b) (b_mtu b) (b_nic b) (b_default_policy b) v (b_bind_ip b) (b_peer_ip b)
    (b_dynamic_peer b) (b_responder b) (b_ports b) (b_peer_ports b) (b_key b) (b_passphrase b)
    (b_keepalive_drop_percent b) (b_own_http3 b) (b_wg_host b) (b_sip_domain b) (b_obfs b)
    (b_bind_port b).
Definition set_bind_ip (b : PeerBuilder) (v : option IpAddr) : PeerBuilder :=
  mkBuilder (b_name b) (b_mtu b) (b_nic b) (b_default_policy b) (b_address b) v (b_peer_ip b)
    (b_dynamic_peer b) (b_responder b) (b_ports b) (b_peer_ports b) (b_key b) (b_passphrase b)
    (b_keepalive_drop_percent b) (b_own_http3 b) (b_wg_host b) (b_sip_domain b) (b_obfs b)
    (b_bind_port b).
Definition set_peer_ip (b : PeerBuilder) (v : option IpAddr) : PeerBuilder :=
  mkBuilder (b_name b) (b_mtu b) (b_nic b) (b_default_policy b) (b_address b) (b_bind_ip b) v
    (b_dynamic_peer b) (b_responder b) (b_ports b) (b_peer_ports b) (b_key b) (b_passphrase b)
    (b_keepalive_drop_percent b) (b_own_http3 b) (b_wg_host b) (b_sip_domain b) (b_obfs b)
    (b_bind_port b).
Definition set_dynamic_peer (b : PeerBuilder) (v : bool) : PeerBuilder :=
  mkBuilder (b_name b) (b_mtu b) (b_nic b) (b_default_policy b) (b_address b) (b_bind_ip b)
    (b_peer_ip b) v (b_responder b) (b_ports b) (b_peer_ports b) (b_key b) (b_passphrase b)
    (b_keepalive_drop_percent b) (b_own_http3 b) (b_wg_host b) (b_sip_domain b) (b_obfs b)
    (b_bind_port b).
Definition set_responder (b : PeerBuilder) (v : option bool) : PeerBuilder :=
  mkBuilder (b_name b) (b_mtu b) (b_nic b) (b_default_policy b) (b_address b) (b_bind_ip b)
    (b_peer_ip b) (b_dynamic_peer b) v (b_ports b) (b_peer_ports b) (b_key b) (b_passphrase b)
    (b_keepalive_drop_percent b) (b_own_http3 b) (b_wg_host b) (b_sip_domain b) (b_obfs b)
    (b_bind_port b).
Definition set_ports (b : PeerBuilder) (v : option (list Z)) : PeerBuilder :=
  mkBuilder (b_name b) (b_mtu b) (b_nic b) (b_default_policy b) (b_address b) (b_bind_ip b)
    (b_peer_ip b) (b_dynamic_peer b) (b_responder b) v (b_peer_ports b) (b_key b) (b_passphrase
    b) (b_keepalive_drop_percent b) (b_own_http3 b) (b_wg_host b) (b_sip_domain b) (b_obfs b)
    (b_bind_port b).
Definition set_peer_ports (b : PeerBuilder) (v : option (list Z)) : PeerBuilder :=
  mkBuilder (b_name b) (b_mtu b) (b_nic b) (b_default_policy b) (b_address b) (b_bind_ip b)
    (b_peer_ip b) (b_dynamic_peer b) (b_responder b) (b_ports b) v (b_key b) (b_passphrase b)
    (b_keepalive_drop_percent b) (b_own_http3 b) (b_wg_host b) (b_sip_domain b) (b_obfs b)
    (b_bind_port b).
Definition set_key (b : PeerBuilder) (v : option (list Z)) : PeerBuilder :=
  mkBuilder (b_name b) (b_mtu b) (b_nic b) (b_default_policy b) (b_address b) (b_bind_ip b)
    (b_peer_ip b) (b_dynamic_peer b) (b_responder b) (b_ports b) (b_peer_ports b) v
    (b_passphrase b) (b_keepalive_drop_percent b) (b_own_http3 b) (b_wg_host b) (b_sip_domain b)
    (b_obfs b) (b_bind_port b).
Definition set_passphrase (b : PeerBuilder) (v : option (list Z)) : PeerBuilder :=
  mkBuilder (b_name b) (b_mtu b) (b_nic b) (b_default_policy b) (b_address b) (b_bind_ip b)
    (b_peer_ip b) (b_dynamic_peer b) (b_responder b) (b_ports b) (b_peer_ports b) (b_key b) v
    (b_keepalive_drop_percent b) (b_own_http3 b) (b_wg_host b) (b_sip_domain b) (b_obfs b)
    (b_bind_port b).
Definition set_keepalive_drop_percent (b : PeerBuilder) (v : Z) : PeerBuilder :=
  mkBuilder (b_name b) (b_mtu b) (b_nic b) (b_default_policy b) (b_address b) (b_bind_ip b)
    (b_peer_ip b) (b_dynamic_peer b) (b_responder b) (b_ports b) (b_peer_ports b) (b_key b)
    (b_passphrase b) v (b_own_http3 b) (b_wg_host b) (b_sip_domain b) (b_obfs b) (b_bind_port b).
Definition set_own_http3 (b : PeerBuilder) (v : bool) : PeerBuilder :=
  mkBuilder (b_name b) (b_mtu b) (b_nic b) (b_default_policy b) (b_address b) (b_bind_ip b)
    (b_peer_ip b) (b_dynamic_peer b) (b_responder b) (b_ports b) (b_peer_ports b) (b_key b)
    (b_passphrase b) (b_keepalive_drop_percent b) v (b_wg_host b) (b_sip_domain b) (b_obfs b)
    (b_bind_port b).
Definition set_wg_host (b : PeerBuilder) (v : option (list Z)) : PeerBuilder :=
  mkBuilder (b_name b) (b_mtu b) (b_nic b) (b_default_policy b) (b_address b) (b_bind_ip b)
    (b_peer_ip b) (b_dynamic_peer b) (b_responder b) (b_ports b) (b_peer_ports b) (b_key b)
    (b_passphrase b) (b_keepalive_drop_percent b) (b_own_http3 b) v (b_sip_domain b) (b_obfs b)
    (b_bind_port b).
Definition set_sip_domain (b : PeerBuilder) (v : option (list Z)) : PeerBuilder :=
  mkBuilder (b_name b) (b_mtu b) (b_nic b) (b_default_policy b) (b_address b) (b_bind_ip b)
    (b_peer_ip b) (b_dynamic_peer b) (b_responder b) (b_ports b) (b_peer_ports b) (b_key b)
    (b_passphrase b) (b_keepalive_drop_percent b) (b_own_http3 b) (b_wg_host b) v (b_obfs b)
    (b_bind_port b).
Definition set_obfs (b : PeerBuilder) (v : ObfsMode) : PeerBuilder :=
  mkBuilder (b_name b) (b_mtu b) (b_nic b) (b_default_policy b) (b_address b) (b_bind_ip b)
    (b_peer_ip b) (b_dynamic_peer b) (b_responder b) (b_ports b) (b_peer_ports b) (b_key b)
    (b_passphrase b) (b_keepalive_drop_percent b) (b_own_http3 b) (b_wg_host b) (b_sip_domain b)
    v (b_bind_port b).
Definition set_bind_port (b : PeerBuilder) (v : option Z) : PeerBuilder :=
  mkBuilder (b_name b) (b_mtu b) (b_nic b) (b_default_policy b) (b_address b) (b_bind_ip b)
    (b_peer_ip b) (b_dynamic_peer b) (b_responder b) (b_ports b) (b_peer_ports b) (b_key b)
    (b_passphrase b) (b_keepalive_drop_percent b) (b_own_http3 b) (b_wg_host b) (b_sip_domain b)
    (b_obfs b) v.

Definition default_builder : PeerBuilder :=
  mkBuilder (bs "gut0") 1492 None Allow None None None false None None None None None 30 true
    None None Gut None.

(** The role from an explicit setting, else from the last octet of the
    address, else from whether the peer is dynamic. *)
Definition resolve_responder (explicit : option bool) (addr : option (list Z)) (dynamic : bool)
    : bool :=
  match explicit with
  | Some r => r
  | None =>
      match addr with
      | Some a =>
          let ip_part := default [] (head (split_byte 47 a)) in
          let parts := split_byte DOT ip_part in
          if (length parts =? 4)%nat
          then Z.land (default 0 (parse_uint u8_max (default [] (parts !! 3%nat)))) 1 =? 1
          else false
      | None => dynamic
      end
  end.

(** The address of the peer's own /30 block. *)
Definition auto_address (responder : bool) (peer_index : nat) : list Z :=
  let base := Z.of_nat (peer_index * 4) in
  bs "10.47.0." ++ dec (if responder then base + 1 else base + 2) ++ bs "/30".

Definition is_sip (m : ObfsMode) : bool := match m with Sip => true | _ => false end.

Definition build (b : PeerBuilder) (outer_mtu : Z) (peer_index : nat) : res cerr PeerConfig :=
  let responder := resolve_responder (b_responder b) (b_address b) (b_dynamic_peer b) in
  let address := default (auto_address responder peer_index) (b_address b) in
  let bind_ip := default ip_unspecified (b_bind_ip b) in
  peer_ip ← (if b_dynamic_peer b then Ok ip_unspecified
             else ok_or (b_peer_ip b) EPeerIpNotSet);
  ports ← ok_or (b_ports b) EPortsNotSet;
  let peer_ports := default ports (b_peer_ports b) in
  _ ← ensure (negb (is_sip (b_obfs b) && (length peer_ports <? 2)%nat)) ESipPorts;
  key ← match b_key b, b_passphrase b with
        | Some k, _ => Ok k
        | None, Some p => lift (derive_key p)
        | None, None => Err (ENoKey (b_name b))
        end;
  Ok (mkPeer (b_name b) (b_mtu b) (b_nic b) (b_default_policy b) address bind_ip peer_ip
        (b_dynamic_peer b) responder ports peer_ports key (b_keepalive_drop_percent b) outer_mtu
        (b_own_http3 b) (default (bs "127.0.0.1:51820") (b_wg_host b))
        (default (bs "127.0.0.1") (b_sip_domain b)) (b_obfs b) (default 0 (b_bind_port b))).

(** ** Values *)

(** [value.parse()?] *)
Definition parse_int (max : Z) (v : list Z) : res cerr Z := ok_or (parse_uint max v) EParseInt.

Definition is_true (v : list Z) : bool := str_eqb v (bs "true") || str_eqb v (bs "1").

Definition parse_policy (v : list Z) : option XdpDefaultPolicy :=
  if str_eqb v (bs "allow") || str_eqb v (bs "pass") then Some Allow
  else if str_eqb v (bs "drop") then Some Drop else None.

Definition parse_obfs (v : list Z) : option ObfsMode :=
  if str_eqb v (bs "quic") then Some Quic
  else if str_eqb v (bs "gut") || str_eqb v (bs "gost") || str_eqb v (bs "noise") then Some Gut
  else if str_eqb v (bs "syslog") then Some Syslog
  else if str_eqb v (bs "sip") then Some Sip else None.

Definition COMMA : Z := 44.
Definition HASH : Z := 35.
Definition EQUALS : Z := 61.

Definition parse_port_list (v : list Z) : res cerr (list Z) :=
  mapR (λ s, ok_or (parse_uint u16_max (trim s)) EPortParse) (split_byte COMMA v).

Definition parse_ports (v : list Z) : res cerr (list Z) :=
  parsed ← parse_port_list v;
  _ ← ensure (negb (length parsed =? 0)%nat) EPortsEmpty;
  _ ← ensure (forallb (λ p, negb (p =? 0)) parsed) EPortZero;
  Ok parsed.

Definition parse_peer_ports (v : list Z) : res cerr (list Z) :=
  parsed ← parse_port_list v;
  _ ← ensure (negb (length parsed =? 0)%nat) EPeerPortsEmpty;
  Ok parsed.

(** One [key = value] of a [[peer]] section. *)
Definition peer_key (b : PeerBuilder) (k v : list Z) : res cerr PeerBuilder :=
  if str_eqb k (bs "name") then Ok (set_name b v)
  else if str_eqb k (bs "mtu") then set_mtu b <$> parse_int u16_max v
  else if str_eqb k (bs "nic") then Ok (set_nic b (Some v))
  else if str_eqb k (bs "address") then Ok (set_address b (Some v))
  else if str_eqb k (bs "default_policy") then
    set_default_policy b <$> ok_or (parse_policy v) (EInvalidPolicy v)
  else if str_eqb k (bs "bind_ip") then
    (λ ip, set_bind_ip b (Some ip)) <$> ok_or (parse_ip v) EParseIp
  else if str_eqb k (bs "bind_port") then
    (λ p, set_bind_port b (Some p)) <$> parse_int u16_max v
  else if str_eqb k (bs "peer_ip") then
    if eq_ignore_ascii_case v (bs "dynamic") then Ok (set_dynamic_peer b true)
    else (λ ip, set_peer_ip b (Some ip)) <$> ok_or (parse_ip v) EParseIp
  else if str_eqb k (bs "ports") then (λ l, set_ports b (Some l)) <$> parse_ports v
  else if str_eqb k (bs "peer_ports") then
    (λ l, set_peer_ports b (Some l)) <$> parse_peer_ports v
  else if str_eqb k (bs "key") then (λ l, set_key b (Some l)) <$> parse_hex_key (trim v)
  else if str_eqb k (bs "passphrase") then Ok (set_passphrase b (Some (trim_matches QUOTE v)))
  else if str_eqb k (bs "keepalive_drop_percent") then
    p ← parse_int u8_max v;
    _ ← ensure (p <=? 100) EKeepalive;
    Ok (set_keepalive_drop_percent b p)
  else if str_eqb k (bs "wg_host") then Ok (set_wg_host b (Some v))
  else if str_eqb k (bs "wg_port") then Ok (set_wg_host b (Some (bs "127.0.0.1:" ++ v)))
  else if str_eqb k (bs "own_http3") then Ok (set_own_http3 b (is_true v))
  else if str_eqb k (bs "responder") then Ok (set_responder b (Some (is_true v)))
  else if str_eqb k (bs "sip_domain") || str_eqb k (bs "sni") || str_eqb k (bs "service_name") then
    Ok (set_sip_domain b (Some (trim_matches QUOTE v)))
  else if str_eqb k (bs "obfs") then set_obfs b <$> ok_or (parse_obfs v) (EInvalidObfs v)
  else Ok b.

(** ** The file parser *)

Record pstate := mkPstate {
  p_outer_mtu : Z;
  p_userspace_only : bool;
  p_stats_interval : Z;
  p_stat_file : list Z;
  p_peers : list PeerConfig;
  p_builder : option PeerBuilder;
  p_section : list Z
}.

Definition init_pstate : pstate :=
  mkPstate 1500 false 5 (bs "/run/gutd.stat") [] None [].

(** [if let Some(builder) = current_builder.take() { peers.push(build?) }] *)
Definition finalize_peer (s : pstate) : res cerr pstate :=
  match p_builder s with
  | None => Ok s
  | Some b =>
      p ← build b (p_outer_mtu s) (length (p_peers s));
      Ok (mkPstate (p_outer_mtu s) (p_userspace_only s) (p_stats_interval s) (p_stat_file s)
            (p_peers s ++ [p]) None (p_section s))
  end.

Definition set_builder (s : pstate) (b : PeerBuilder) : pstate :=
  mkPstate (p_outer_mtu s) (p_userspace_only s) (p_stats_interval s) (p_stat_file s) (p_peers s)
    (Some b) (p_section s).
Definition set_section (s : pstate) (sec : list Z) : pstate :=
  mkPstate (p_outer_mtu s) (p_userspace_only s) (p_stats_interval s) (p_stat_file s) (p_peers s)
    (p_builder s) sec.

Definition global_key (s : pstate) (k v : list Z) : res cerr pstate :=
  let mk om uo si sf := mkPstate om uo si sf (p_peers s) (p_builder s) (p_section s) in
  if str_eqb k (bs "outer_mtu") then
    (λ n, mk n (p_userspace_only s) (p_stats_interval s) (p_stat_file s)) <$> parse_int u16_max v
  else if str_eqb k (bs "userspace_only") then
    (λ u, mk (p_outer_mtu s) u (p_stats_interval s) (p_stat_file s))
      <$> ok_or (parse_bool v) EParseBool
  else if str_eqb k (bs "stats_interval") then
    (λ n, mk (p_outer_mtu s) (p_userspace_only s) n (p_stat_file s)) <$> parse_int u32_max v
  else if str_eqb k (bs "stat_file") then
    Ok (mk (p_outer_mtu s) (p_userspace_only s) (p_stats_interval s) (trim_matches QUOTE v))
  else Ok s.

(** The value of a line: a quoted value keeps its quotes and drops what
    follows the closing one; an unquoted value ends at a [#]. *)
Definition clean_value (raw : list Z) : list Z :=
  match raw with
  | 34 :: stripped =>
      match find_byte QUOTE stripped with
      | Some e => take (e + 2) raw
      | None => raw
      end
  | _ =>
      match find_byte HASH raw with
      | Some h => trim (take h raw)
      | None => raw
      end
  end.

Definition config_line (s : pstate) (line : list Z) : res cerr pstate :=
  let line := trim line in
  if bool_decide (line = []) || bool_decide (head line = Some HASH) then Ok s else
  if bool_decide (head line = Some 91) && bool_decide (last line = Some 93) then
    let section := window 1 (length line - 2) line in
    s ← (if str_eqb section (bs "peer")
         then s ← finalize_peer s; Ok (set_builder s default_builder) else Ok s);
    Ok (set_section s section)
  else
    match find_byte EQUALS line with
    | None => Ok s
    | Some eq_pos =>
        let key_name := trim (take eq_pos line) in
        let value := clean_value (trim (drop (eq_pos + 1) line)) in
        if str_eqb (p_section s) (bs "global") then global_key s key_name value
        else if str_eqb (p_section s) (bs "peer") then
          set_builder s <$> peer_key (default default_builder (p_builder s)) key_name value
        else Ok s
    end.

(** Peer names are unique ([HashSet::insert] in order). *)
Fixpoint check_names (seen : gset (list Z)) (ps : list PeerConfig) : res cerr unit :=
  match ps with
  | [] => Ok tt
  | p :: ps =>
      if decide (name p ∈ seen) then Err (EDuplicateName (name p))
      else check_names ({[name p]} ∪ seen) ps
  end.

(** No port belongs to two peers. *)
Fixpoint check_ports (seen : gset Z) (ps : list PeerConfig) : res cerr unit :=
  match ps with
  | [] => Ok tt
  | p :: ps =>
      let unique : gset Z := list_to_set (ports p) in
      if decide (unique ## seen) then check_ports (unique ∪ seen) ps else Err EPortShared
  end.

Definition parse_config (content : list Z) : res cerr Config :=
  s ← foldM config_line init_pstate (lines content);
  s ← finalize_peer s;
  _ ← ensure (negb (length (p_peers s) =? 0)%nat) ENoPeers;
  _ ← check_names ∅ (p_peers s);
  _ ← check_ports ∅ (p_peers s);
  Ok (mkConfig (mkGlobal (p_outer_mtu s) (p_userspace_only s))
        (mkRuntime (p_stats_interval s) (p_stat_file s)) (p_peers s)).

(** [load_config]: [file] is what [fs::read_to_string] returned. *)
Definition load_config (file : option (list Z)) : res cerr Config :=
  content ← ok_or file ECannotRead;
  map_err EInFile (parse_config content).

(** ** The environment *)

Section env.
  (** [std::env::var(name).ok()] *)
  Context (var : list Z → option (list Z)).

Definition getenv (n : string) : res cerr (list Z) := ok_or (var (bs n)) (EEnvMissing (bs n)).
Definition env_or (n : string) (d : string) : list Z := default (bs d) (var (bs n)).
Definition nonblank (o : option (list Z)) : option (list Z) :=
  match o with Some s => if bool_decide (trim s = []) then None else Some s | None => None end.
Definition first_of (a b : option (list Z)) : option (list Z) :=
  match a with Some x => Some x | None => b end.

Definition env_key : res cerr (list Z) :=
  match first_of (var (bs "GUTD_KEY")) (first_of (var (bs "GUTD_SECRET")) (var (bs "GUTD_CIPHER")))
  with
  | Some hex => parse_hex_key (trim hex)
  | None =>
      match first_of (var (bs "GUTD_PASSPHRASE")) (var (bs "GUTD_PHRASE")) with
      | Some phrase => lift (derive_key phrase)
      | None => Err (ENoKey [])
      end
  end.

(** The addresses and the role. *)
Record endpoints := mkEndpoints {
  ep_peer_ip : IpAddr;
  ep_dynamic : bool;
  ep_bind_ip : IpAddr;
  ep_responder : bool;
  ep_address : list Z
}.

Definition env_endpoints : res cerr endpoints :=
  peer_ip_str ← getenv "GUTD_PEER_IP";
  '(peer_ip, dynamic_peer) ←
    (if eq_ignore_ascii_case (trim peer_ip_str) (bs "dynamic") then Ok (ip_unspecified, true)
     else ip ← ok_or (parse_ip peer_ip_str) EParseIp; Ok (ip, false));
  bind_ip ← match nonblank (var (bs "GUTD_BIND_IP")) with
            | Some s => ok_or (parse_ip s) EParseIp
            | None => Ok ip_unspecified
            end;
  let address_opt := nonblank (var (bs "GUTD_ADDRESS")) in
  let responder_opt := is_true <$> var (bs "GUTD_RESPONDER") in
  let responder := resolve_responder responder_opt address_opt dynamic_peer in
  let address := default (if responder then bs "10.47.0.1/30" else bs "10.47.0.2/30")
                   address_opt in
  Ok (mkEndpoints peer_ip dynamic_peer bind_ip responder address).

(** The listening ports and the ports of the peer. *)
Definition env_ports : res cerr (list Z * list Z) :=
  ports_str ← getenv "GUTD_PORTS";
  ports ← parse_ports ports_str;
  peer_ports ← match var (bs "GUTD_PEER_PORTS") with
               | Some s => parse_peer_ports s
               | None => Ok ports
               end;
  Ok (ports, peer_ports).

(** The remaining settings, and the configuration. *)
Definition env_settings (ep : endpoints) (ports peer_ports key : list Z) : res cerr Config :=
  let name := env_or "GUTD_NAME" "gut0" in
  mtu ← parse_int u16_max (env_or "GUTD_MTU" "1492");
  let userspace_only := default false (is_true <$> var (bs "GUTD_USERSPACE_ONLY")) in
  outer_mtu ← parse_int u16_max (env_or "GUTD_OUTER_MTU" "1500");
  let nic := nonblank (var (bs "GUTD_NIC")) in
  let policy_str := env_or "GUTD_DEFAULT_POLICY" "allow" in
  default_policy ← ok_or (parse_policy policy_str) (EInvalidPolicy policy_str);
  keepalive ← parse_int u8_max (env_or "GUTD_KEEPALIVE_DROP_PCT" "30");
  let own_http3 := default true (is_true <$> var (bs "GUTD_OWN_HTTP3")) in
  let obfs_str := env_or "GUTD_OBFS" "gut" in
  obfs ← ok_or (parse_obfs obfs_str) (EInvalidObfs obfs_str);
  _ ← ensure (negb (is_sip obfs && (length peer_ports <? 2)%nat)) ESipPorts;
  stats_interval ← parse_int u32_max (env_or "GUTD_STATS_INTERVAL" "5");
  let stat_file := env_or "GUTD_STAT_FILE" "/run/gutd.stat" in
  let sip_domain :=
    default (bs "nginx")
      (first_of (var (bs "GUTD_SNI"))
         (first_of (var (bs "GUTD_SIP_DOMAIN")) (var (bs "GUTD_SERVICE_NAME")))) in
  let bind_port := default 0 (var (bs "GUTD_BIND_PORT") ≫= parse_uint u16_max) in
  Ok (mkConfig (mkGlobal outer_mtu userspace_only) (mkRuntime stats_interval stat_file)
        [mkPeer name mtu nic default_policy (ep_address ep) (ep_bind_ip ep) (ep_peer_ip ep)
           (ep_dynamic ep) (ep_responder ep) ports peer_ports key keepalive outer_mtu own_http3
           (env_or "GUTD_WG_HOST" "127.0.0.1:51820") sip_domain obfs bind_port]).

Definition load_config_from_env : res cerr Config :=
  ep ← env_endpoints;
  '(ports, peer_ports) ← env_ports;
  key ← env_key;
  env_settings ep ports peer_ports key.
End env.
