(* ===== verification/ConfigProofs.v ===== *)
(** * config.rs: what a loaded configuration guarantees *)

From stdpp Require Import gmap.
From S2P Require Import Prelude Words Slices Text Hkdf Obfs Results StrOps Net Config.
Local Open Scope Z_scope.

(** ** Well-formed values *)

Definition key_ok (k : list Z) : Prop := length k = 32%nat ∧ bytes k.
Definition port_list_ok (l : list Z) : Prop := l ≠ [] ∧ Forall (λ p, 1 ≤ p ≤ 65535) l.
Definition peer_ports_ok (l : list Z) : Prop := l ≠ [] ∧ Forall (λ p, 0 ≤ p ≤ 65535) l.

(** What every peer of a configuration satisfies. *)
Record peer_ok (max_drop : Z) (p : PeerConfig) : Prop := {
  ok_mtu : is_u16 (mtu p);
  ok_outer_mtu : is_u16 (outer_mtu p);
  ok_ports : port_list_ok (ports p);
  ok_peer_ports : peer_ports_ok (peer_ports p);
  ok_key : key_ok (key p);
  ok_drop : 0 ≤ keepalive_drop_percent p ≤ max_drop;
  ok_sip : obfs p = Sip → (2 ≤ length (peer_ports p))%nat;
  ok_bind_ip : ip_ok (bind_ip p);
  ok_peer_ip : ip_ok (peer_ip p);
  ok_dynamic : dynamic_peer p = true → peer_ip p = ip_unspecified;
  ok_bind_port : is_u16 (bind_port p)
}.

Definition on_some {A} (P : A → Prop) (o : option A) : Prop :=
  match o with Some a => P a | None => True end.

Record builder_ok (b : PeerBuilder) : Prop := {
  bok_mtu : is_u16 (b_mtu b);
  bok_ports : on_some port_list_ok (b_ports b);
  bok_peer_ports : on_some peer_ports_ok (b_peer_ports b);
  bok_key : on_some key_ok (b_key b);
  bok_drop : 0 ≤ b_keepalive_drop_percent b ≤ 100;
  bok_bind_ip : on_some ip_ok (b_bind_ip b);
  bok_peer_ip : on_some ip_ok (b_peer_ip b);
  bok_bind_port : on_some is_u16 (b_bind_port b)
}.

(** ** Parsed addresses *)

Lemma to_digit_nonneg radix b d : to_digit radix b = Some d → 0 ≤ d.
Proof.
  unfold to_digit. intros H. destruct (_ <? radix); [|done]. injection H as <-.
  unfold is_digit. repeat case_bool; cbn [andb]; lia.
Qed.

Lemma read_digits_nonneg radix acc n l v k rest : 0 ≤ radix → 0 ≤ acc →
  read_digits radix acc n l = (v, k, rest) → 0 ≤ v.
Proof.
  intros Hr. revert acc n. induction l as [|b l IH]; intros acc n Ha; simpl.
  { by intros [= <- _ _]. }
  destruct (to_digit radix b) as [d|] eqn:Hd; [|by intros [= <- _ _]].
  apply to_digit_nonneg in Hd. apply IH. nia.
Qed.

Lemma read_number_range radix max k z l v rest : 0 ≤ radix →
  read_number radix max k z l = Some (v, rest) → 0 ≤ v ≤ max.
Proof.
  intros Hr. unfold read_number. destruct (read_digits radix 0 0 l) as [[a n] r] eqn:E.
  apply read_digits_nonneg in E; [|done..].
  repeat (case_match; try done). intros [= <- <-]. apply Z.ltb_ge in H2. done.
Qed.

Lemma read_separator_inv {A} sep i (f : list Z → option (A * list Z)) l x :
  read_separator sep i f l = Some x → ∃ l', f l' = Some x.
Proof.
  unfold read_separator. case_bool; [eauto|].
  destruct (read_given_char sep l); [|done]. cbn. eauto.
Qed.

Lemma read_octets_ok n i l o rest : read_octets n i l = Some (o, rest) →
  length o = n ∧ Forall (in_width 8) o.
Proof.
  revert i l o. induction n as [|n IH]; intros i l o; cbn [read_octets].
  { intros [= <- _]. split; [done|constructor]. }
  destruct (read_separator _ _ _ l) as [[v l1]|] eqn:E; [|done]. cbn [mbind option_bind].
  destruct (read_octets n (S i) l1) as [[os l2]|] eqn:E2; [|done]. cbn. intros [= <- <-].
  apply IH in E2 as [? ?]. apply read_separator_inv in E as [l' E].
  apply read_number_range in E; [|done]. split; [simpl; congruence|].
  constructor; [|done]. split; [lia|]. change (2 ^ 8) with 256. lia.
Qed.

Lemma read_groups_ok n i limit l gs v rest : (n + i = limit)%nat →
  read_groups n i limit l = (gs, v, rest) →
  (length gs ≤ n)%nat ∧ Forall (in_width 16) gs.
Proof.
  revert i l gs v rest. induction n as [|n IH]; intros i l gs v rest Hn; cbn [read_groups].
  { intros [= <- _ _]. split; [simpl; lia|constructor]. }
  assert (Hgroup : ∀ g l', read_separator COLON i (read_number 16 65535 4 true) l = Some (g, l') →
            in_width 16 g).
  { intros g l' [l'' E]%read_separator_inv. apply read_number_range in E; [|done].
    split; [lia|]. change (2 ^ 16) with 65536. lia. }
  set (grp := read_separator COLON i (read_number 16 0xFFFF 4 true) l) in *.
  assert (Hrest : match grp with
            | Some (g, l') => let '(gs, v, rest) := read_groups n (S i) limit l' in (g :: gs, v, rest)
            | None => ([], false, l) end = (gs, v, rest) →
            (length gs ≤ S n)%nat ∧ Forall (in_width 16) gs).
  { destruct grp as [[g l']|]; [|intros [= <- _ _]; split; [simpl; lia|constructor]].
    destruct (read_groups n (S i) limit l') as [[gs' v'] r'] eqn:E. intros [= <- _ _].
    apply IH in E as [? ?]; [|lia]. split; [simpl; lia|]. constructor; [by eapply Hgroup|done]. }
  destruct (Nat.ltb_spec i (limit - 1)) as [Hi|]; [|exact Hrest].
  destruct (read_separator COLON i read_ipv4_addr l) as [[o l']|] eqn:E; [|exact Hrest].
  apply read_separator_inv in E as [l'' E]. apply read_octets_ok in E as [Hl Ho].
  destruct o as [|a [|b [|c [|d [|]]]]]; try done. intros [= <- _ _].
  split; [simpl; lia|].
  repeat match goal with H : Forall _ (_ :: _) |- _ => apply Forall_cons in H as [? H] end.
  unfold in_width in *. change (2 ^ 8) with 256 in *. change (2 ^ 16) with 65536.
  apply Forall_cons; split; [lia|]. apply Forall_singleton. lia.
Qed.

Lemma read_ipv6_ok l s rest : read_ipv6_addr l = Some (s, rest) →
  length s = 8%nat ∧ Forall (in_width 16) s.
Proof.
  unfold read_ipv6_addr. pose proof (read_groups_ok 8 0 8 l) as Hok.
  destruct (read_groups 8 0 8 l) as [[hd v4] l1].
  destruct (Hok hd v4 l1) as [Hh Fh]; [done..|]. clear Hok.
  destruct (Nat.eqb_spec (length hd) 8); [by intros [= <- _]|]. destruct v4; [done|].
  intros (l2 & _ & (l3 & _ & E6)%bind_Some)%bind_Some. revert E6. cbv zeta.
  set (k := (8 - (length hd + 1))%nat).
  pose proof (read_groups_ok k 0 k l3) as Hok.
  destruct (read_groups k 0 k l3) as [[tl v] l4].
  destruct (Hok tl v l4) as [Ht Ft]; [lia|done|]. subst k.
  intros [= <- _]. split; [len|].
  apply Forall_app_2; [done|]. apply Forall_app_2; [|done].
  apply Forall_replicate. split; [done|]. by vm_compute.
Qed.

Lemma parse_ip_ok l ip : parse_ip l = Some ip → ip_ok ip.
Proof.
  unfold parse_ip, read_ipv4_addr. pose proof (read_octets_ok 4 0 l) as H4.
  destruct (read_octets 4 0 l) as [[o r]|].
  { destruct r; simpl; [|done]. intros [= <-]. by eapply H4. }
  pose proof (read_ipv6_ok l) as H6. destruct (read_ipv6_addr l) as [[s r]|]; [|done].
  destruct r; cbn [parse_with]; [|done]. intros [= <-]. by eapply H6.
Qed.

(** ** Parsed keys and ports *)

Lemma from_str_radix_range radix max l v : 0 ≤ radix → 0 ≤ max →
  from_str_radix radix max l = Some v → 0 ≤ v ≤ max.
Proof.
  intros Hr Hm. unfold from_str_radix. destruct l as [|b l]; [done|].
  repeat case_bool; try done; apply digits_acc_range; lia.
Qed.

Lemma parse_hex_key_ok s k : parse_hex_key s = Ok k → key_ok k.
Proof.
  unfold parse_hex_key. destruct (negb _); [done|]. intros H.
  apply (mapR_Forall (in_width 8)) in H as [HF Hl].
  - split; [by rewrite Hl, length_seq|done].
  - intros i b Hb. res_inv. apply from_str_radix_range in Hb; [|done..].
    unfold u8_max in Hb. split; [lia|]. change (2 ^ 8) with 256. lia.
Qed.

Lemma parse_int_range max v n : 0 ≤ max → parse_int max v = Ok n → 0 ≤ n ≤ max.
Proof. unfold parse_int. intros Hm H. res_inv. by apply parse_uint_range in H. Qed.

Lemma parse_port_list_ok v l : parse_port_list v = Ok l → peer_ports_ok l.
Proof.
  unfold parse_port_list. intros H. apply (mapR_Forall (λ p, 0 ≤ p ≤ 65535)) in H as [HF Hl].
  - split; [|done]. intros ->. pose proof (split_byte_nonempty COMMA v).
    by destruct (split_byte COMMA v).
  - intros s p Hp. res_inv. by apply parse_uint_range in Hp.
Qed.

Lemma parse_peer_ports_ok v l : parse_peer_ports v = Ok l → peer_ports_ok l.
Proof. unfold parse_peer_ports. intros H. res_inv. by apply parse_port_list_ok in E. Qed.

Lemma parse_ports_ok v l : parse_ports v = Ok l → port_list_ok l.
Proof.
  unfold parse_ports. intros H. res_inv. apply parse_port_list_ok in E as [Hne HF].
  split; [done|]. rewrite forallb_forall in E1. rewrite Forall_forall in HF |- *.
  intros p Hp. specialize (HF p Hp). apply list_elem_of_In in Hp.
  specialize (E1 p Hp). apply negb_true_iff, Z.eqb_neq in E1. lia.
Qed.

(** ** The builder *)

Lemma u16_of_range n : 0 ≤ n ≤ 65535 → is_u16 n.
Proof. intros. split; [lia|]. change (2 ^ 16) with 65536. lia. Qed.

Lemma default_builder_ok : builder_ok default_builder.
Proof. split; try exact I; [apply u16_of_range|]; simpl; lia. Qed.

#[local] Hint Resolve parse_hex_key_ok parse_ports_ok parse_peer_ports_ok parse_ip_ok
  u16_of_range default_builder_ok : gutd.
#[local] Hint Extern 2 (_ ≤ _ ≤ _) => eapply parse_int_range; [done|eassumption] : gutd.

(** Every key of a peer section keeps the builder well-formed. *)
Lemma peer_key_ok b k v b' : builder_ok b → peer_key b k v = Ok b' → builder_ok b'.
Proof.
  intros Hb. unfold peer_key.
  repeat match goal with
  | |- (if ?c then _ else _) = Ok _ → _ => destruct c
  end;
  intros H; res_inv; try exact Hb; destruct Hb; split; cbn; try assumption; eauto with gutd.
  apply parse_int_range in E; [|done]. apply Z.leb_le in E0. lia.
Qed.

Lemma ip_unspecified_ok : ip_ok ip_unspecified.
Proof. split; [done|]. repeat (apply Forall_cons; split; [by split|]). constructor. Qed.

(** What a builder is turned into. *)
Lemma build_ok b om i p : builder_ok b → is_u16 om → build b om i = Ok p →
  peer_ok 100 p ∧ outer_mtu p = om ∧ name p = b_name b.
Proof.
  intros [] Hom H. unfold build in H. res_inv.
  assert (Hk : key_ok r1).
  { destruct (b_key b); [by injection E2 as <-|]. destruct (b_passphrase b) as [ph|]; [|done].
    res_inv. destruct (derive_key_wf ph) as (k & Hd & Hw & Hl). rewrite Hd in E2.
    injection E2 as <-. by split. }
  rewrite E0 in bok_ports0. cbn in bok_ports0.
  split_and!; [|done..]. split; cbn; try done.
  - destruct (b_peer_ports b); [done|]. destruct bok_ports0 as [? HF]. split; [done|].
    eapply Forall_impl; [exact HF|]. simpl. lia.
  - intros Hs. rewrite Hs in E1. revert E1. cbn [is_sip andb].
    destruct (Nat.ltb_spec (length (default r0 (b_peer_ports b))) 2); [done|lia].
  - destruct (b_bind_ip b); [done|]. apply ip_unspecified_ok.
  - destruct (b_dynamic_peer b); res_inv; [apply ip_unspecified_ok|].
    by rewrite E in bok_peer_ip0.
  - intros Hd. rewrite Hd in E. by res_inv.
  - destruct (b_bind_port b); [done|]. by apply u16_of_range.
Qed.

(** ** The parser's state *)

Record pstate_ok (s : pstate) : Prop := {
  pok_mtu : is_u16 (p_outer_mtu s);
  pok_interval : is_u32 (p_stats_interval s);
  pok_peers : Forall (peer_ok 100) (p_peers s);
  pok_builder : on_some builder_ok (p_builder s)
}.

Lemma finalize_peer_ok s s' : pstate_ok s → finalize_peer s = Ok s' →
  pstate_ok s' ∧ p_builder s' = None.
Proof.
  intros [] H. unfold finalize_peer in H. destruct (p_builder s) as [b|] eqn:Eb.
  - res_inv. destruct (build_ok _ _ _ _ pok_builder0 pok_mtu0 E) as [Hp _].
    split; [|done]. split; try done; cbn. apply Forall_app_2; [done|]. by apply Forall_singleton.
  - injection H as <-. split; [|done]. split; try done. by rewrite Eb.
Qed.

Lemma global_key_ok s k v s' : pstate_ok s → global_key s k v = Ok s' → pstate_ok s'.
Proof.
  intros Hs. unfold global_key.
  repeat match goal with
  | |- (if ?c then _ else _) = Ok _ → _ => destruct c
  end;
  intros H; res_inv; try exact Hs; destruct Hs; split; cbn; try assumption; eauto with gutd.
  apply parse_int_range in E; [|done]. unfold u32_max in E. split; [lia|].
  change (2 ^ 32) with 4294967296. lia.
Qed.

Lemma config_line_ok s line s' : pstate_ok s → config_line s line = Ok s' → pstate_ok s'.
Proof.
  intros Hs. unfold config_line. set (l := trim line).
  destruct (_ || _); [by intros [= <-]|]. destruct (_ && _).
  - intros H. res_inv. assert (Hr : pstate_ok r); [|by destruct Hr; split].
    destruct (str_eqb _ _); [|by res_inv]. res_inv.
    apply finalize_peer_ok in E0 as [[] _]; [|done]. split; try done; apply default_builder_ok.
  - destruct (find_byte EQUALS l) as [e|]; [|by intros [= <-]].
    destruct (str_eqb _ _); [by apply global_key_ok|].
    destruct (str_eqb _ _); [|by intros [= <-]]. intros H. res_inv.
    assert (Hb : builder_ok r).
    { eapply peer_key_ok; [|exact E]. destruct Hs as [_ _ _ Hb].
      destruct (p_builder s); [done|apply default_builder_ok]. }
    destruct Hs; by split.
Qed.

(** ** The final checks *)

Lemma check_names_ok seen ps u : check_names seen ps = Ok u →
  NoDup (name <$> ps) ∧ Forall (λ p, name p ∉ seen) ps.
Proof.
  revert seen. induction ps as [|p ps IH]; intros seen; cbn [check_names].
  { intros _. split; [constructor|constructor]. }
  case_decide as Hin; [done|]. intros [H1 H2]%IH. split.
  - rewrite fmap_cons. constructor; [|done]. intros (q & Hq & Hqin)%list_elem_of_fmap.
    rewrite Forall_forall in H2. specialize (H2 q Hqin). set_solver.
  - constructor; [done|]. eapply Forall_impl; [exact H2|]. set_solver.
Qed.

(** Two peers never share a port. *)
Definition ports_disjoint (ps : list PeerConfig) : Prop :=
  ∀ i j p q port, ps !! i = Some p → ps !! j = Some q →
    port ∈ ports p → port ∈ ports q → i = j.

Lemma check_ports_ok seen ps u : check_ports seen ps = Ok u →
  ports_disjoint ps ∧ Forall (λ p, ∀ port, port ∈ ports p → port ∉ seen) ps.
Proof.
  revert seen. induction ps as [|p ps IH]; intros seen; cbn [check_ports].
  { intros _. split; [|constructor]. by intros [|]. }
  case_decide as Hd; [|done]. intros [H1 H2]%IH. rewrite Forall_forall in H2. split.
  - assert (Hx : ∀ k q port, ps !! k = Some q → port ∈ ports q → port ∉ ports p).
    { intros k q port Hk Hq. apply list_elem_of_lookup_2 in Hk.
      specialize (H2 q Hk port Hq). set_solver. }
    intros [|i] [|j] a b port Ha Hb Hpa Hpb; cbn in Ha, Hb; simplify_eq; [done|..].
    + by destruct (Hx j b port).
    + by destruct (Hx i a port).
    + f_equal. by eapply H1.
  - constructor; [set_solver|]. apply Forall_forall. intros q Hq port Hp.
    specialize (H2 q Hq port Hp). set_solver.
Qed.

Lemma check_names_no_abort seen ps : check_names seen ps ≠ Abort.
Proof. revert seen. induction ps; intros seen; cbn [check_names]; [done|]. by case_decide. Qed.

Lemma check_ports_no_abort seen ps : check_ports seen ps ≠ Abort.
Proof. revert seen. induction ps; intros seen; cbn [check_ports]; [done|]. by case_decide. Qed.

Lemma parse_config_peers content c :
  parse_config content = Ok c →
  peers c ≠ [] ∧ Forall (peer_ok 100) (peers c) ∧ NoDup (name <$> peers c) ∧
  ports_disjoint (peers c) ∧ is_u16 (g_outer_mtu (global c)) ∧
  is_u32 (stats_interval (runtime c)).
Proof.
  unfold parse_config. intros H. res_inv.
  assert (Hr : pstate_ok r).
  { eapply (foldM_inv pstate_ok); [|split|exact E].
    - intros t l t' _. apply config_line_ok.
    - by apply u16_of_range.
    - by split.
    - constructor.
    - exact I. }
  apply finalize_peer_ok in E0 as [[] _]; [|done].
  apply check_names_ok in E2 as [? _]. apply check_ports_ok in E3 as [? _].
  cbn. split_and!; try done. intros Hn. by rewrite Hn in E1.
Qed.

(** C17: whatever the file holds, a configuration [parse_config] returns has at
    least one peer, peers with distinct names and disjoint ports, and every
    peer has its ports in 1..65535, a 32-byte key, 16-bit sizes, a drop
    percentage of at most 100, well-formed addresses, the unspecified address
    when it is dynamic, and two peer ports or more in SIP mode. *)
Theorem parse_config_valid content c :
  parse_config content = Ok c →
  peers c ≠ [] ∧ Forall (peer_ok 100) (peers c) ∧ NoDup (name <$> peers c) ∧
  ports_disjoint (peers c) ∧ is_u16 (g_outer_mtu (global c)) ∧
  is_u32 (stats_interval (runtime c)).
Proof. apply parse_config_peers. Qed.

(** A sample file: comments, a [[global]] section, two peers. *)
Definition sample_file : list Z :=
  join [LF] [bs "# sample"; bs "[global]"; bs "outer_mtu = 1400  # physical"; bs "";
    bs "[peer]"; bs "name = gut0"; bs "peer_ip = 203.0.113.10"; bs "ports = 41000, 41001";
    bs "key = 00112233445566778899aabbccddeeff00112233445566778899aabbccddeeff";
    bs "[peer]"; bs "name = gut1"; bs "peer_ip = dynamic"; bs "ports = 41002"; bs "obfs = quic";
    bs "key = ffeeddccbbaa99887766554433221100ffeeddccbbaa99887766554433221100"].

Lemma parse_config_valid_witness :
  ∃ c, parse_config sample_file = Ok c ∧
  (peers c ≠ [] ∧ Forall (peer_ok 100) (peers c) ∧ NoDup (name <$> peers c) ∧
  ports_disjoint (peers c) ∧ is_u16 (g_outer_mtu (global c)) ∧
  is_u32 (stats_interval (runtime c))).
Proof.
  eexists. split; [vm_compute; reflexivity|]. apply (parse_config_valid sample_file).
  vm_compute. reflexivity.
Defined.

(** ** No panic on ASCII text *)

Definition is_ascii (l : list Z) : Prop := Forall (λ b, 0 ≤ b < 128) l.

Lemma ascii_boundary l i : is_ascii l → (i ≤ length l)%nat → is_char_boundary l i = true.
Proof.
  intros Hl Hi. unfold is_char_boundary. case_bool; [done|].
  destruct (l !! i) as [b|] eqn:E.
  - apply (Forall_lookup_1 _ _ _ _ Hl) in E. simpl in E.
    destruct (Z.leb_spec 128 b); [lia|done].
  - apply lookup_ge_None in E. apply Nat.eqb_eq. lia.
Qed.

Lemma mapR_no_abort {E A B} (f : A → res E B) l :
  (∀ a, a ∈ l → f a ≠ Abort) → mapR f l ≠ Abort.
Proof.
  induction l as [|a l IH]; intros H; [done|]. cbn [mapR].
  pose proof (H a ltac:(left)) as Ha. destruct (f a); [|done..]. cbn [mbind res_bind].
  specialize (IH ltac:(intros; apply H; by right)). by destruct (mapR f l).
Qed.

Lemma foldM_no_abort {E A S} (f : S → A → res E S) l s :
  (∀ t a, a ∈ l → f t a ≠ Abort) → foldM f s l ≠ Abort.
Proof.
  revert s. induction l as [|a l IH]; intros s H; [done|]. cbn [foldM].
  pose proof (H s a ltac:(left)) as Ha. destruct (f s a); [|done..].
  apply IH. intros; apply H; by right.
Qed.

Lemma parse_hex_key_no_abort s : is_ascii s → parse_hex_key s ≠ Abort.
Proof.
  intros Hs. unfold parse_hex_key. destruct (Nat.eqb_spec (length s) 64) as [Hl|]; [|done].
  cbn [negb]. apply mapR_no_abort. intros i Hi%elem_of_seq. unfold str_slice.
  rewrite !ascii_boundary by (done || lia).
  destruct (Nat.leb_spec (i * 2) (i * 2 + 2)); [|lia]. cbn.
  by destruct (from_str_radix _ _ _).
Qed.

Lemma fmap_no_abort {E A B} (f : A → B) (m : res E A) : m ≠ Abort → f <$> m ≠ Abort.
Proof. by destruct m. Qed.

Lemma ok_or_no_abort {E A} (o : option A) (e : E) : ok_or o e ≠ Abort.
Proof. by destruct o. Qed.

Lemma bind_no_abort {E A B} (m : res E A) (f : A → res E B) :
  m ≠ Abort → (∀ a, m = Ok a → f a ≠ Abort) → (m ≫= f) ≠ Abort.
Proof. destruct m; intros; cbn; auto. Qed.

Lemma ensure_no_abort {E} b (e : E) : ensure b e ≠ Abort.
Proof. by destruct b. Qed.

Lemma parse_int_no_abort m v : parse_int m v ≠ Abort.
Proof. apply ok_or_no_abort. Qed.

Lemma derive_key_no_abort {E} p : lift (E:=E) (derive_key p) ≠ Abort.
Proof. by destruct (derive_key_wf p) as (k & -> & _). Qed.

Create HintDb noabort.
#[local] Hint Resolve fmap_no_abort ok_or_no_abort bind_no_abort ensure_no_abort
  parse_int_no_abort parse_hex_key_no_abort mapR_no_abort : noabort.
#[local] Hint Extern 1 (Ok _ ≠ Abort) => discriminate : noabort.
#[local] Hint Extern 1 (Err _ ≠ Abort) => discriminate : noabort.

Lemma parse_ports_no_abort v : parse_ports v ≠ Abort ∧ parse_peer_ports v ≠ Abort.
Proof. unfold parse_ports, parse_peer_ports, parse_port_list. auto 8 with noabort. Qed.

Lemma peer_key_no_abort b k v : is_ascii v → peer_key b k v ≠ Abort.
Proof.
  intros Hv. destruct (parse_ports_no_abort v) as [Hp Hpp].
  assert (is_ascii (trim v)) by by apply Forall_trim. unfold peer_key.
  repeat match goal with
  | |- (if ?c then _ else _) ≠ Abort => destruct c
  end; auto with noabort.
Qed.

Lemma build_no_abort b om i : build b om i ≠ Abort.
Proof.
  unfold build. apply bind_no_abort; [destruct (b_dynamic_peer b); auto with noabort|].
  intros ip _. apply bind_no_abort; [auto with noabort|]. intros ps _.
  apply bind_no_abort; [auto with noabort|]. intros _ _.
  apply bind_no_abort; [|auto with noabort].
  destruct (b_key b); [done|]. destruct (b_passphrase b); [apply derive_key_no_abort|done].
Qed.

Lemma finalize_no_abort s : finalize_peer s ≠ Abort.
Proof.
  unfold finalize_peer. destruct (p_builder s); [|done].
  apply bind_no_abort; [apply build_no_abort|done].
Qed.

Lemma clean_value_ascii v : is_ascii v → is_ascii (clean_value v).
Proof.
  intros Hv. unfold clean_value.
  repeat case_match; subst; try done; try (by apply Forall_take);
    try (by apply Forall_trim, Forall_take).
Qed.

Lemma config_line_no_abort s l : is_ascii l → config_line s l ≠ Abort.
Proof.
  intros Hl. assert (Ht : is_ascii (trim l)) by by apply Forall_trim. unfold config_line.
  destruct (_ || _); [done|]. destruct (_ && _).
  - apply bind_no_abort; [|done]. destruct (str_eqb _ _); [|done].
    apply bind_no_abort; [apply finalize_no_abort|done].
  - destruct (find_byte EQUALS (trim l)) as [e|]; [|done].
    destruct (str_eqb _ _).
    + unfold global_key.
      repeat match goal with
      | |- (if ?c then _ else _) ≠ Abort => destruct c
      end; auto with noabort.
    + destruct (str_eqb _ _); [|done]. apply fmap_no_abort, peer_key_no_abort.
      by apply clean_value_ascii, Forall_trim, Forall_drop.
Qed.

(** C28: loading an ASCII configuration file never panics: [parse_config]
    returns a configuration or reports an error, whatever the text. *)
Theorem parse_config_no_panic content :
  is_ascii content → (∃ c, parse_config content = Ok c) ∨ (∃ e, parse_config content = Err e).
Proof.
  intros Hc. assert (H : parse_config content ≠ Abort).
  { unfold parse_config. apply bind_no_abort.
    { apply foldM_no_abort. intros t l Hl. apply config_line_no_abort.
      pose proof (Forall_lines _ _ Hc) as HF. rewrite Forall_forall in HF. by apply HF. }
    intros s _. apply bind_no_abort; [apply finalize_no_abort|]. intros s' _.
    apply bind_no_abort; [apply ensure_no_abort|]. intros _ _.
    apply bind_no_abort; [apply check_names_no_abort|]. intros _ _.
    apply bind_no_abort; [apply check_ports_no_abort|done]. }
  destruct (parse_config content); naive_solver.
Qed.

Lemma parse_config_no_panic_witness :
  (∃ c, parse_config sample_file = Ok c) ∨ (∃ e, parse_config sample_file = Err e).
Proof.
  apply (parse_config_no_panic sample_file).
  apply (bool_decide_unpack _). vm_compute. exact I.
Defined.

(** ** The environment *)

Lemma env_key_ok var k : env_key var = Ok k → key_ok k.
Proof.
  unfold env_key. destruct (first_of _ _); [apply parse_hex_key_ok|].
  destruct (first_of _ _) as [ph|]; [|done]. intros H. res_inv.
  destruct (derive_key_wf ph) as (k' & Hd & Hw & Hl). rewrite Hd in H.
  injection H as <-. by split.
Qed.

Lemma env_endpoints_ok var ep : env_endpoints var = Ok ep →
  ip_ok (ep_bind_ip ep) ∧ ip_ok (ep_peer_ip ep) ∧
  (ep_dynamic ep = true → ep_peer_ip ep = ip_unspecified).
Proof.
  unfold env_endpoints. intros H. res_inv. cbn. split.
  - destruct (nonblank _); [|injection E1 as <-; apply ip_unspecified_ok].
    apply ok_or_inv in E1. by apply parse_ip_ok in E1.
  - destruct (eq_ignore_ascii_case _ _); res_inv; [split; [apply ip_unspecified_ok|done]|].
    split; [by eapply parse_ip_ok|done].
Qed.

Lemma env_ports_ok var ps pps : env_ports var = Ok (ps, pps) → port_list_ok ps ∧ peer_ports_ok pps.
Proof.
  unfold env_ports. intros H. res_inv. apply parse_ports_ok in E0 as [? HF].
  split; [done|]. destruct (var (bs "GUTD_PEER_PORTS")); [by apply parse_peer_ports_ok in E1|].
  injection E1 as <-. split; [done|]. eapply Forall_impl; [exact HF|]. simpl. lia.
Qed.

(** A configuration loaded from the environment has exactly one peer; it
    satisfies every constraint of a file configuration except the bound on the
    drop percentage, which is only that of its type (255), and its outer MTU
    is the global one. *)
Theorem env_config_valid var c :
  load_config_from_env var = Ok c →
  ∃ p, peers c = [p] ∧ peer_ok 255 p ∧ outer_mtu p = g_outer_mtu (global c) ∧
    is_u32 (stats_interval (runtime c)).
Proof.
  unfold load_config_from_env, env_settings. intros H. res_inv. eexists. split; [done|].
  apply env_endpoints_ok in E as (Hb & Hp & Hd). apply env_ports_ok in E0 as [Hps Hpps].
  apply env_key_ok in E1. apply parse_int_range in E2, E3, E5, E8; [|done..].
  split_and!; [|done|cbn; unfold u32_max in E8; split; lia].
  split; cbn; try done; try (by apply u16_of_range).
  - intros ->. revert E7. cbn [is_sip andb].
    match goal with |- context [(length ?l <? 2)%nat] => destruct (Nat.ltb_spec (length l) 2) end;
      [done|lia].
  - apply u16_of_range.
    match goal with |- context [default 0 ?o] => destruct o as [n|] eqn:En end; [|done].
    apply bind_Some in En as (v & _ & En). by apply parse_uint_range in En.
Qed.

Definition sample_env (n : list Z) : option (list Z) :=
  if str_eqb n (bs "GUTD_PEER_IP") then Some (bs "203.0.113.10")
  else if str_eqb n (bs "GUTD_PORTS") then Some (bs "41000,41001")
  else if str_eqb n (bs "GUTD_KEY")
  then Some (bs "00112233445566778899aabbccddeeff00112233445566778899aabbccddeeff")
  else if str_eqb n (bs "GUTD_KEEPALIVE_DROP_PCT") then Some (bs "200") else None.

(** The sample sets a drop percentage of 200, which the environment accepts. *)
Lemma env_config_valid_witness :
  ∃ c, load_config_from_env sample_env = Ok c ∧
  ∃ p, peers c = [p] ∧ peer_ok 255 p ∧ outer_mtu p = g_outer_mtu (global c) ∧
    is_u32 (stats_interval (runtime c)).
Proof.
  eexists. split; [vm_compute; reflexivity|]. apply (env_config_valid sample_env).
  vm_compute. reflexivity.
Defined.
