(* ===== verification/ConfigPrint.v ===== *)
(** * config.rs: every key is read into its field

    A configuration is printed one [key = value] line per field; parsing the
    text gives the configuration back.  The printer is a specification: the
    program only reads. *)

From stdpp Require Import gmap.
From S2P Require Import Prelude Words Slices Text Hkdf Obfs Results StrOps Net Config.
From S2P Require Import ConfigProofs.
Local Open Scope Z_scope.

(** ** The printer *)

Definition kv (k v : list Z) : list Z := k ++ bs " = " ++ v.

Definition show_bool (b : bool) : list Z := if b then bs "true" else bs "false".
Definition show_policy (p : XdpDefaultPolicy) : list Z :=
  match p with Allow => bs "allow" | Drop => bs "drop" end.
Definition show_obfs (m : ObfsMode) : list Z :=
  match m with Quic => bs "quic" | Gut => bs "gut" | Syslog => bs "syslog" | Sip => bs "sip" end.
Definition show_ports (l : list Z) : list Z := join [COMMA] (dec <$> l).
Definition show_v4 (ip : IpAddr) : list Z :=
  match ip with V4 o => show_ipv4 o | V6 _ => [] end.

Definition peer_pairs (p : PeerConfig) : list (list Z * list Z) :=
  [(bs "name", name p); (bs "mtu", dec (mtu p))] ++
  match nic p with Some n => [(bs "nic", n)] | None => [] end ++
  [(bs "default_policy", show_policy (default_policy p));
   (bs "address", address p);
   (bs "bind_ip", show_v4 (bind_ip p));
   (bs "bind_port", dec (bind_port p));
   (bs "peer_ip", if dynamic_peer p then bs "dynamic" else show_v4 (peer_ip p));
   (bs "ports", show_ports (ports p));
   (bs "peer_ports", show_ports (peer_ports p));
   (bs "key", key_to_hex (key p));
   (bs "keepalive_drop_percent", dec (keepalive_drop_percent p));
   (bs "wg_host", wg_host p);
   (bs "own_http3", show_bool (own_http3 p));
   (bs "responder", show_bool (responder p));
   (bs "sip_domain", sip_domain p);
   (bs "obfs", show_obfs (obfs p))].

Definition peer_lines (p : PeerConfig) : list (list Z) :=
  bs "[peer]" :: ((λ '(k, v), kv k v) <$> peer_pairs p).

Definition global_pairs (c : Config) : list (list Z * list Z) :=
  [(bs "outer_mtu", dec (g_outer_mtu (global c)));
   (bs "userspace_only", show_bool (userspace_only (global c)));
   (bs "stats_interval", dec (stats_interval (runtime c)));
   (bs "stat_file", stat_file (runtime c))].

Definition print_config (c : Config) : list Z :=
  unlines (bs "[global]" :: ((λ '(k, v), kv k v) <$> global_pairs c)
             ++ concat (peer_lines <$> peers c)).

(** ** The values that can be written *)

(** Printable ASCII without quotes and hashes, no space at either end. *)
Definition text_ok (v : list Z) : Prop :=
  tight v ∧ Forall (λ b, 32 ≤ b ≤ 126 ∧ b ≠ QUOTE ∧ b ≠ HASH) v.

Definition v4_ok (ip : IpAddr) : Prop := is_v4 ip = true ∧ ip_ok ip.

Record printable (om : Z) (p : PeerConfig) : Prop := {
  pr_ok : peer_ok 100 p;
  pr_outer : outer_mtu p = om;
  pr_name : text_ok (name p);
  pr_nic : on_some text_ok (nic p);
  pr_address : text_ok (address p);
  pr_bind_ip : v4_ok (bind_ip p);
  pr_peer_ip : v4_ok (peer_ip p);
  pr_wg_host : text_ok (wg_host p);
  pr_sip_domain : text_ok (sip_domain p)
}.

(** Key names. *)
Definition word_ok (k : list Z) : Prop :=
  tight k ∧ Forall (λ b, graphic b ∧ b ≠ EQUALS) k ∧ head k ≠ Some HASH ∧ head k ≠ Some 91.

(** ** One line *)

Section line.
  Context (s : pstate) (k v : list Z) (Hk : word_ok k) (Hv : text_ok v).

Lemma kv_tight : tight (kv k v).
Proof. destruct Hk as [? _], Hv as [? _]. unfold kv. by apply tight_app. Qed.

Lemma clean_value_text : clean_value v = v.
Proof.
  destruct Hv as [_ HF]. unfold clean_value.
  destruct v as [|b v'] eqn:E; [done|]. apply Forall_cons in HF as [Hb HF'].
  assert (Hn : find_byte HASH (b :: v') = None).
  { apply find_byte_None. constructor; [naive_solver|].
    eapply Forall_impl; [exact HF'|]. naive_solver. }
  rewrite Hn. destruct (decide (b = 34)) as [-> | Hne].
  - destruct Hb as (_ & Hq & _). by destruct Hq.
  - destruct b as [|b|b]; [done| |done]. repeat (case_match; try done).
Qed.

(** A line [k = v] is the assignment of [v] to [k] in its section. *)
Lemma config_line_kv : config_line s (kv k v)
  = if str_eqb (p_section s) (bs "global") then global_key s k v
    else if str_eqb (p_section s) (bs "peer")
    then set_builder s <$> peer_key (default default_builder (p_builder s)) k v
    else Ok s.
Proof.
  pose proof kv_tight as Ht. destruct Hk as (Htk & HF & Hh1 & Hh2).
  unfold config_line. rewrite (trim_tight (kv k v) Ht).
  assert (Hf : find_byte EQUALS (kv k v) = Some (length (k ++ [SPACE]))).
  { unfold kv. change (bs " = " ++ v) with ([SPACE] ++ EQUALS :: SPACE :: v).
    rewrite app_assoc. apply find_byte_app. apply Forall_app_2.
    - eapply Forall_impl; [exact HF|]. by intros b [_ ?].
    - by apply Forall_singleton. }
  rewrite Hf. destruct k as [|c k'] eqn:Ek; [by destruct Htk|].
  cbn [kv head app] in *. rewrite !bool_decide_eq_false_2 by done. cbn [orb andb].
  change (c :: k' ++ bs " = " ++ v) with ((c :: k') ++ ([SPACE] ++ (EQUALS :: SPACE :: v))).
  rewrite app_assoc.
  rewrite take_app_length, trim_space_r by done.
  rewrite drop_app_add. cbn [drop].
  rewrite trim_space_l by by destruct Hv. by rewrite clean_value_text.
Qed.
End line.

(** ** The texts of values *)

Lemma text_ok_alnum l : l ≠ [] → Forall (λ b, is_alnum b = true) l → text_ok l.
Proof.
  intros Hne HF.
  assert (Hg : ∀ b, is_alnum b = true → graphic b ∧ b ≠ QUOTE ∧ b ≠ HASH ∧ b ≠ LF).
  { intros b. unfold is_alnum, is_digit, graphic, QUOTE, HASH, LF.
    repeat case_bool; cbn [andb orb]; (lia || done). }
  split.
  - unfold tight. destruct (head l) as [a|] eqn:Ea; [|by destruct l].
    destruct (last l) as [b|] eqn:Eb; [|by apply last_None in Eb].
    apply head_Some_elem_of in Ea. apply last_Some_elem_of in Eb.
    rewrite Forall_forall in HF. by split; apply Hg, HF.
  - eapply Forall_impl; [exact HF|]. intros b (Hb & ? & ? & ?)%Hg. unfold graphic in Hb.
    split_and!; [lia..|done|done].
Qed.

Lemma text_ok_app a b : text_ok a → text_ok b →
  ∀ m, Forall (λ b, 32 ≤ b ≤ 126 ∧ b ≠ QUOTE ∧ b ≠ HASH) m → text_ok (a ++ m ++ b).
Proof. intros [??] [??] m Hm. split; [by apply tight_app|]. by repeat apply Forall_app_2. Qed.

Lemma text_ok_join sep l : l ≠ [] → Forall text_ok l →
  Forall (λ b, 32 ≤ b ≤ 126 ∧ b ≠ QUOTE ∧ b ≠ HASH) sep → text_ok (join sep l).
Proof.
  intros Hne HF Hs. induction HF as [|x l Hx HF IH]; [done|]. cbn [join].
  destruct l as [|y l]; [by rewrite app_nil_r|]. apply text_ok_app; [done| |done]. by apply IH.
Qed.

Lemma text_ok_dec n : 0 ≤ n → text_ok (dec n).
Proof.
  intros Hn. apply text_ok_alnum; [apply dec_nonempty|].
  eapply Forall_impl; [by apply dec_digits|]. apply is_digit_alnum.
Qed.

Lemma text_ok_ports l : l ≠ [] → Forall (λ p, 0 ≤ p ≤ 65535) l → text_ok (show_ports l).
Proof.
  intros Hne HF. apply text_ok_join.
  - by destruct l.
  - apply Forall_fmap. eapply Forall_impl; [exact HF|]. intros p [? _]. by apply text_ok_dec.
  - by apply Forall_singleton.
Qed.

Lemma text_ok_ip ip : v4_ok ip → text_ok (show_v4 ip).
Proof.
  destruct ip as [o|]; intros [H4 Hok]; [|done]. destruct Hok as [Hl HF]. cbn [show_v4].
  apply text_ok_join.
  - by destruct o.
  - apply Forall_fmap. eapply Forall_impl; [exact HF|]. intros p Hp. apply text_ok_dec.
    by destruct Hp.
  - by apply Forall_singleton.
Qed.

Lemma hex_digit_text n : 0 ≤ n < 16 → is_alnum (hex_digit n) = true.
Proof. apply (check_below (λ n, is_alnum (hex_digit n)) 16). reflexivity. Qed.

Lemma byte_nibbles b : in_width 8 b → 0 ≤ shr b 4 < 16 ∧ 0 ≤ Z.land b 0xF < 16.
Proof.
  intros Hb. unfold in_width in Hb. change (2 ^ 8) with 256 in Hb.
  rewrite shr_div, (land_ones_mod _ 4) by lia. change (2 ^ 4) with 16. dlia.
Qed.

Lemma text_ok_key k : key_ok k → text_ok (key_to_hex k).
Proof.
  intros [Hl HF]. apply text_ok_alnum; [by destruct k|]. unfold key_to_hex.
  apply Forall_bind. eapply Forall_impl; [exact HF|].
  intros b [Hh Hlo]%byte_nibbles. repeat constructor; by apply hex_digit_text.
Qed.

(** ** Reading the values back *)

Lemma parse_port_list_show l : l ≠ [] → Forall (λ p, 0 ≤ p ≤ 65535) l →
  parse_port_list (show_ports l) = Ok l.
Proof.
  intros Hne HF. unfold parse_port_list, show_ports. rewrite Forall_forall in HF.
  rewrite split_byte_join.
  - apply mapR_fmap_id. intros p Hp. specialize (HF p Hp).
    destruct (text_ok_dec p) as [Ht _]; [lia|].
    rewrite trim_tight, parse_uint_dec by (done || unfold u16_max; lia). done.
  - by destruct l.
  - apply Forall_fmap, Forall_forall. intros p Hp. specialize (HF p Hp).
    eapply Forall_impl; [apply dec_digits; lia|]. by intros b Hb ->.
Qed.

Lemma parse_ports_show l : port_list_ok l → parse_ports (show_ports l) = Ok l.
Proof.
  intros [Hne HF]. unfold parse_ports. rewrite parse_port_list_show, res_bind_Ok.
  - destruct l as [|a l]; [done|]. cbn [length Nat.eqb negb ensure]. rewrite res_bind_Ok.
    replace (forallb _ (a :: l)) with true; [done|]. symmetry. apply forallb_forall.
    intros p Hp%list_elem_of_In. rewrite Forall_forall in HF. specialize (HF p Hp).
    apply negb_true_iff, Z.eqb_neq. lia.
  - done.
  - eapply Forall_impl; [exact HF|]. simpl. lia.
Qed.

Lemma parse_peer_ports_show l : peer_ports_ok l → parse_peer_ports (show_ports l) = Ok l.
Proof.
  intros [Hne HF]. unfold parse_peer_ports. rewrite parse_port_list_show by done.
  by destruct l.
Qed.

Lemma parse_ip_show ip : v4_ok ip → parse_ip (show_v4 ip) = Some ip.
Proof.
  destruct ip as [o|]; intros [H4 Hok]; [|done]. destruct Hok as [Hl HF].
  by apply parse_ip_show_ipv4.
Qed.

Lemma show_v4_not_dynamic ip : v4_ok ip →
  eq_ignore_ascii_case (show_v4 ip) (bs "dynamic") = false.
Proof.
  intros Hip. destruct ip as [[|a o]|]; [by destruct Hip as [_ [? _]]| |by destruct Hip].
  destruct Hip as [_ [_ [Ha _]%Forall_cons]]. cbn [show_v4]. unfold show_ipv4.
  rewrite fmap_cons. cbn [join].
  pose proof (dec_digits a ltac:(by destruct Ha)) as Hd. pose proof (dec_nonempty a) as Hn.
  destruct (dec a) as [|d ds]; [done|]. apply Forall_cons in Hd as [Hd _]. cbn [app].
  unfold eq_ignore_ascii_case, str_eqb. apply bool_decide_eq_false. rewrite fmap_cons.
  intros [= Hc _]. unfold is_digit in Hd. unfold to_ascii_lowercase in Hc. cbn in Hc.
  revert Hd Hc. repeat case_bool; cbn [andb]; (lia || done).
Qed.

Lemma hex_byte_parse b : in_width 8 b →
  from_str_radix 16 u8_max [hex_digit (shr b 4); hex_digit (Z.land b 0xF)] = Some b.
Proof.
  apply (check_below_P (λ b, from_str_radix 16 u8_max
    [hex_digit (shr b 4); hex_digit (Z.land b 0xF)] = Some b) 256). vm_compute. reflexivity.
Qed.

Lemma drop_pairs {A B} (f : A → list B) i l : (∀ a, length (f a) = 2%nat) →
  drop (i * 2) (l ≫= f) = drop i l ≫= f.
Proof.
  intros Hf. revert l. induction i as [|i IH]; intros l; [done|].
  destruct l as [|a l]; [done|]. cbn [mbind list_bind Nat.mul drop].
  change (S (S (i * 2))) with (2 + i * 2)%nat. rewrite (drop_app_add' (f a)) by done. apply IH.
Qed.

Lemma length_pairs {A B} (f : A → list B) l : (∀ a, length (f a) = 2%nat) →
  length (l ≫= f) = (length l * 2)%nat.
Proof.
  intros Hf. induction l as [|a l IH]; [done|]. cbn [mbind list_bind length].
  rewrite length_app, Hf, IH. lia.
Qed.

(** A key is read back from its hexadecimal text. *)
Lemma parse_hex_key_show k : key_ok k → parse_hex_key (key_to_hex k) = Ok k.
Proof.
  intros Hk. pose proof Hk as [Hl HF]. pose proof (text_ok_key k Hk) as [_ Ht].
  assert (Hlen : length (key_to_hex k) = 64%nat).
  { unfold key_to_hex. rewrite length_pairs by done. lia. }
  assert (Ha : is_ascii (key_to_hex k)).
  { eapply Forall_impl; [exact Ht|]. simpl. lia. }
  unfold parse_hex_key. rewrite Hlen. cbn [Nat.eqb negb].
  transitivity (Ok (E:=cerr) ((λ i, k !!! i) <$> seq 0 32)).
  2: { f_equal. apply list_eq_lookup; [by rewrite length_fmap, length_seq|]. intros i Hi.
       rewrite length_fmap, length_seq in Hi.
       rewrite list_lookup_fmap, lookup_seq_lt by done. cbn.
       symmetry. apply list_lookup_lookup_total_lt. lia. }
  apply mapR_Ok. intros i Hi%elem_of_seq. unfold str_slice.
  rewrite !ascii_boundary by (done || lia).
  destruct (Nat.leb_spec (i * 2) (i * 2 + 2)); [|lia]. cbn [andb lift mbind res_bind].
  replace (i * 2 + 2 - i * 2)%nat with 2%nat by lia. unfold window, key_to_hex.
  rewrite drop_pairs by done. rewrite (drop_S k (k !!! i)).
  2: { apply list_lookup_lookup_total_lt. lia. }
  cbn [mbind list_bind app take]. rewrite hex_byte_parse; [done|].
  apply (Forall_lookup_total _ _ _ HF). lia.
Qed.

(** ** Sections *)

Definition pair_ok (kv : list Z * list Z) : Prop := word_ok kv.1 ∧ text_ok kv.2.

Definition word_okb (k : list Z) : bool :=
  match head k, last k with
  | Some a, Some b => (33 <=? a) && (a <=? 126) && (33 <=? b) && (b <=? 126)
  | _, _ => false
  end && forallb (λ b, (33 <=? b) && (b <=? 126) && negb (b =? EQUALS)) k
  && negb (bool_decide (head k = Some HASH)) && negb (bool_decide (head k = Some 91)).

Lemma word_okb_ok k : word_okb k = true → word_ok k.
Proof.
  unfold word_okb, word_ok, tight, graphic. rewrite !andb_true_iff, !negb_true_iff.
  intros [[[H1 H2] H3%bool_decide_eq_false] H4%bool_decide_eq_false]. split_and!; try done.
  - destruct (head k), (last k); try done. rewrite !andb_true_iff, !Z.leb_le in H1. lia.
  - rewrite forallb_forall in H2. apply Forall_forall. intros b Hb%list_elem_of_In.
    specialize (H2 b Hb). rewrite !andb_true_iff, !Z.leb_le, negb_true_iff, Z.eqb_neq in H2. lia.
Qed.

(** The lines of a [[peer]] section fold [peer_key]. *)
Lemma peer_section s b pairs b' :
  p_section s = bs "peer" → p_builder s = Some b → Forall pair_ok pairs →
  foldM (λ b '(k, v), peer_key b k v) b pairs = Ok b' →
  foldM config_line s ((λ '(k, v), kv k v) <$> pairs) = Ok (set_builder s b').
Proof.
  intros Hs Hb HF. revert s b Hs Hb. induction HF as [|[k v] pairs [Hk Hv] HF IH];
    intros s b Hs Hb H; cbn [foldM] in H.
  - injection H as <-. cbn. destruct s. cbn in *. by subst.
  - apply res_bind_inv in H as (b1 & H1 & H). rewrite fmap_cons. cbn [foldM].
    rewrite config_line_kv by done. rewrite Hs, Hb.
    change (default default_builder (Some b)) with b.
    change (str_eqb (bs "peer") (bs "global")) with false.
    change (str_eqb (bs "peer") (bs "peer")) with true. cbv iota.
    rewrite H1. cbn [fmap res_fmap mbind res_bind].
    by rewrite (IH (set_builder s b1) b1).
Qed.

(** What the keys of a printed peer leave in the builder. *)
Definition printed_builder (p : PeerConfig) : PeerBuilder :=
  mkBuilder (name p) (mtu p) (nic p) (default_policy p) (Some (address p)) (Some (bind_ip p))
    (if dynamic_peer p then None else Some (peer_ip p)) (dynamic_peer p) (Some (responder p))
    (Some (ports p)) (Some (peer_ports p)) (Some (key p)) None (keepalive_drop_percent p)
    (own_http3 p) (Some (wg_host p)) (Some (sip_domain p)) (obfs p) (Some (bind_port p)).

Lemma parse_int_dec m n : 0 ≤ n ≤ m → m ≤ 4294967295 → parse_int m (dec n) = Ok n.
Proof. intros H Hm. unfold parse_int. rewrite parse_uint_dec by lia. done. Qed.

Lemma is_true_show b : is_true (show_bool b) = b.
Proof. by destruct b. Qed.

Lemma parse_policy_show p : parse_policy (show_policy p) = Some p.
Proof. by destruct p. Qed.

Lemma parse_obfs_show m : parse_obfs (show_obfs m) = Some m.
Proof. by destruct m. Qed.

Lemma text_quote_free v : text_ok v → trim_matches QUOTE v = v.
Proof.
  intros [_ HF]. rewrite Forall_forall in HF. apply trim_matches_id.
  - intros H%head_Some_elem_of. apply HF in H. naive_solver.
  - intros H%last_Some_elem_of. apply HF in H. naive_solver.
Qed.

Lemma foldM_nic b o l :
  foldM (λ b '(k, v), peer_key b k v) b (match o with Some n => [(bs "nic", n)] | None => [] end ++ l)
  = foldM (λ b '(k, v), peer_key b k v) (match o with Some n => set_nic b (Some n) | None => b end) l.
Proof. by destruct o. Qed.

Lemma peer_ip_key b (dyn : bool) ip : v4_ok ip →
  peer_key b (bs "peer_ip") (if dyn then bs "dynamic" else show_v4 ip)
  = Ok (if dyn then set_dynamic_peer b true else set_peer_ip b (Some ip)).
Proof.
  intros Hip. destruct dyn; [done|].
  change (peer_key b (bs "peer_ip") (show_v4 ip))
    with (if eq_ignore_ascii_case (show_v4 ip) (bs "dynamic") then Ok (set_dynamic_peer b true)
          else (λ ip, set_peer_ip b (Some ip)) <$> ok_or (E:=cerr) (parse_ip (show_v4 ip)) EParseIp).
  by rewrite show_v4_not_dynamic, parse_ip_show.
Qed.

(** The next key, with the comparisons of its name evaluated. *)
Ltac key_step :=
  eapply foldM_step;
  [ cbv beta iota; unfold peer_key, global_key;
    repeat match goal with
    | |- context [str_eqb (bs ?x) (bs ?y)] =>
        let r := eval vm_compute in (str_eqb (bs x) (bs y)) in
        change (str_eqb (bs x) (bs y)) with r
    end; cbv beta iota; cbn [orb] | ].

Section peer.
  Context (om : Z) (p : PeerConfig) (Hp : printable om p).

Lemma u16_le n : is_u16 n → 0 ≤ n ≤ u16_max.
Proof. unfold in_width, u16_max. change (2 ^ 16) with 65536. lia. Qed.

Lemma peer_pairs_ok : Forall pair_ok (peer_pairs p).
Proof.
  destruct Hp as [Hok Hom Hname Hnic Haddr Hbind Hpeer Hwg Hsip].
  destruct Hok as [Hmtu _ Hports Hpports Hkey Hdrop _ _ _ _ Hbp].
  apply u16_le in Hmtu, Hbp.
  assert (Hpp : Forall (λ p, 0 ≤ p ≤ 65535) (ports p)).
  { destruct Hports as [_ HF]. eapply Forall_impl; [exact HF|]. simpl. lia. }
  unfold peer_pairs.
  repeat first [apply Forall_app_2 | apply Forall_cons; split | apply Forall_nil];
    try (split; [apply word_okb_ok; reflexivity|cbn [snd]]);
    try done; try (apply text_ok_dec; lia).
  - destruct (nic p); [|constructor]. apply Forall_singleton. split; [|done].
    apply word_okb_ok. reflexivity.
  - destruct (default_policy p); by apply text_ok_alnum; [|repeat constructor].
  - by apply text_ok_ip.
  - destruct (dynamic_peer p); [|by apply text_ok_ip].
    by apply text_ok_alnum; [|repeat constructor].
  - apply text_ok_ports; [|done]. by destruct Hports.
  - by destruct Hpports; apply text_ok_ports.
  - by apply text_ok_key.
  - destruct (own_http3 p); by apply text_ok_alnum; [|repeat constructor].
  - destruct (responder p); by apply text_ok_alnum; [|repeat constructor].
  - destruct (obfs p); by apply text_ok_alnum; [|repeat constructor].
Qed.

(** Each printed key is read into its field. *)
Lemma peer_pairs_build :
  foldM (λ b '(k, v), peer_key b k v) default_builder (peer_pairs p) = Ok (printed_builder p).
Proof.
  destruct Hp as [Hok Hom Hname Hnic Haddr Hbind Hpeer Hwg Hsip].
  destruct Hok as [Hmtu _ Hports Hpports Hkey Hdrop _ _ _ _ Hbp].
  apply u16_le in Hmtu, Hbp.
  pose proof (proj1 (text_ok_key _ Hkey)) as Htk.
  unfold peer_pairs. cbn [app].
  key_step; [done|]. key_step; [by rewrite parse_int_dec|].
  rewrite (foldM_nic (set_mtu (set_name default_builder (name p)) (mtu p))).
  key_step; [by rewrite parse_policy_show|]. key_step; [done|].
  key_step; [by rewrite parse_ip_show|]. key_step; [by rewrite parse_int_dec|].
  eapply foldM_step; [by apply peer_ip_key|].
  key_step; [by rewrite parse_ports_show|]. key_step; [by rewrite parse_peer_ports_show|].
  key_step; [by rewrite trim_tight, parse_hex_key_show|].
  key_step. { rewrite parse_int_dec by (unfold u8_max; lia). rewrite res_bind_Ok.
    apply proj2, Z.leb_le in Hdrop. rewrite Hdrop. reflexivity. }
  key_step; [done|]. key_step; [by rewrite is_true_show|]. key_step; [by rewrite is_true_show|].
  key_step; [by rewrite text_quote_free|]. key_step; [by rewrite parse_obfs_show|].
  cbn [foldM]. unfold printed_builder. by destruct (dynamic_peer p), (nic p).
Qed.
End peer.

(** The printed builder is the peer. *)
Lemma build_printed om p i : printable om p → build (printed_builder p) om i = Ok p.
Proof.
  intros [Hok Hom _ _ _ _ _ _ _]. destruct Hok as [_ _ _ _ _ _ Hsip _ _ Hdyn _].
  assert (Hs : negb (is_sip (obfs p) && (length (peer_ports p) <? 2)%nat) = true).
  { destruct (obfs p); try done. specialize (Hsip eq_refl). cbn [is_sip andb].
    destruct (Nat.ltb_spec (length (peer_ports p)) 2); [lia|done]. }
  assert (Hip : (if dynamic_peer p then Ok ip_unspecified
    else ok_or (if dynamic_peer p then None else Some (peer_ip p)) EPeerIpNotSet) = Ok (peer_ip p)).
  { destruct (dynamic_peer p); [|done]. by rewrite Hdyn. }
  subst om. unfold build, printed_builder.
  cbn [b_name b_mtu b_nic b_default_policy b_address b_bind_ip b_peer_ip b_dynamic_peer
    b_responder b_ports b_peer_ports b_key b_passphrase b_keepalive_drop_percent b_own_http3
    b_wg_host b_sip_domain b_obfs b_bind_port].
  rewrite Hip, res_bind_Ok. cbn [ok_or]. rewrite res_bind_Ok.
  change (default (ports p) (Some (peer_ports p))) with (peer_ports p).
  rewrite Hs. by destruct p.
Qed.

(** ** The whole file *)

Lemma peer_header s : config_line s (bs "[peer]")
  = (s' ← finalize_peer s; Ok (set_section (set_builder s' default_builder) (bs "peer"))).
Proof.
  change (config_line s (bs "[peer]")) with
    (s' ← (s' ← finalize_peer s; Ok (set_builder s' default_builder));
     Ok (set_section s' (bs "peer"))).
  by destruct (finalize_peer s).
Qed.

(** A state that, once its pending peer is built, has the peers [ps]. *)
Definition pending (om : Z) (uo : bool) (si : Z) (sf : list Z) (ps : list PeerConfig) (s : pstate)
    : Prop :=
  ∃ sec, finalize_peer s = Ok (mkPstate om uo si sf ps None sec).

Lemma peer_lines_read om uo si sf ps s p :
  pending om uo si sf ps s → printable om p →
  ∃ s', foldM config_line s (peer_lines p) = Ok s' ∧ pending om uo si sf (ps ++ [p]) s'.
Proof.
  intros [sec Hs] Hp. eexists. split.
  - unfold peer_lines. eapply foldM_step; [rewrite peer_header, Hs; reflexivity|].
    eapply peer_section; [done|done|by eapply peer_pairs_ok|by eapply peer_pairs_build].
  - eexists. unfold finalize_peer. cbn [p_builder set_builder p_outer_mtu p_peers set_section].
    rewrite (build_printed om p) by done. reflexivity.
Qed.

Lemma peers_read om uo si sf ps s l :
  pending om uo si sf ps s → Forall (printable om) l →
  ∃ s', foldM config_line s (concat (peer_lines <$> l)) = Ok s' ∧
    pending om uo si sf (ps ++ l) s'.
Proof.
  intros Hs HF. revert ps s Hs. induction HF as [|p l Hp HF IH]; intros ps s Hs.
  { exists s. by rewrite app_nil_r. }
  rewrite fmap_cons. cbn [concat]. rewrite foldM_app.
  destruct (peer_lines_read _ _ _ _ _ _ _ Hs Hp) as (s1 & -> & H1).
  destruct (IH _ _ H1) as (s2 & H2 & H3). exists s2. rewrite <- app_assoc in H3. done.
Qed.

Lemma check_names_NoDup seen ps :
  NoDup (name <$> ps) → Forall (λ p, name p ∉ seen) ps → check_names seen ps = Ok tt.
Proof.
  revert seen. induction ps as [|p ps IHps]; intros seen Hnd HF; [done|].
  rewrite fmap_cons in Hnd. apply NoDup_cons in Hnd as [Hp Hnd].
  apply Forall_cons in HF as [Hp' HF]. cbn [check_names]. rewrite decide_False by done.
  apply IHps; [done|]. rewrite Forall_forall in HF |- *. intros q Hq.
  specialize (HF q Hq). intros [Heq%elem_of_singleton | ?]%elem_of_union; [|done].
  apply Hp. rewrite <- Heq. by apply list_elem_of_fmap_2.
Qed.

Lemma check_ports_disjoint seen ps : ports_disjoint ps →
  Forall (λ p, ∀ port, port ∈ ports p → port ∉ seen) ps → check_ports seen ps = Ok tt.
Proof.
  revert seen. induction ps as [|p ps IHps]; intros seen Hd HF; [done|].
  apply Forall_cons in HF as [Hp HF]. cbn [check_ports]. rewrite decide_True.
  2: { intros x Hx%elem_of_list_to_set. by apply Hp. }
  apply IHps.
  - intros i j a b port Ha Hb Hpa Hpb.
    by injection (Hd (S i) (S j) a b port Ha Hb Hpa Hpb).
  - rewrite Forall_forall in HF |- *. intros q Hq port Hport.
    specialize (HF q Hq port Hport). intros [Hin%elem_of_list_to_set | ?]%elem_of_union; [|done].
    apply list_elem_of_lookup_1 in Hq as [i Hi].
    pose proof (Hd 0%nat (S i) p q port eq_refl Hi Hin Hport). done.
Qed.

(** What can be printed: a valid configuration whose texts are plain. *)
Record printable_config (c : Config) : Prop := {
  pc_peers : peers c ≠ [];
  pc_printable : Forall (printable (g_outer_mtu (global c))) (peers c);
  pc_names : NoDup (name <$> peers c);
  pc_ports : ports_disjoint (peers c);
  pc_mtu : is_u16 (g_outer_mtu (global c));
  pc_interval : is_u32 (stats_interval (runtime c));
  pc_stat_file : text_ok (stat_file (runtime c))
}.

Lemma global_key_section s k v s' : global_key s k v = Ok s' → p_section s' = p_section s.
Proof.
  unfold global_key.
  repeat match goal with
  | |- (if ?c then _ else _) = Ok _ → _ => destruct c
  end; intros H; by res_inv.
Qed.

(** The lines of a [[global]] section fold [global_key]. *)
Lemma global_section s pairs s' : p_section s = bs "global" → Forall pair_ok pairs →
  foldM (λ s '(k, v), global_key s k v) s pairs = Ok s' →
  foldM config_line s ((λ '(k, v), kv k v) <$> pairs) = Ok s'.
Proof.
  intros Hs HF. revert s Hs. induction HF as [|[k v] pairs [Hk Hv] HF IH];
    intros s Hs H; cbn [foldM] in H; [done|].
  apply res_bind_inv in H as (s1 & H1 & H). rewrite fmap_cons. cbn [foldM].
  rewrite config_line_kv by done. rewrite Hs.
  change (str_eqb (bs "global") (bs "global")) with true. cbv iota. rewrite H1, res_bind_Ok.
  apply IH; [|done]. apply global_key_section in H1. congruence.
Qed.

Lemma parse_bool_show b : parse_bool (show_bool b) = Some b.
Proof. by destruct b. Qed.

Lemma global_lines_read c : printable_config c →
  ∃ s, foldM config_line init_pstate
         (bs "[global]" :: ((λ '(k, v), kv k v) <$> global_pairs c)) = Ok s ∧
  pending (g_outer_mtu (global c)) (userspace_only (global c)) (stats_interval (runtime c))
    (stat_file (runtime c)) [] s.
Proof.
  intros [_ _ _ _ Hm Hi Hf]. apply u16_le in Hm.
  assert (Hi' : 0 ≤ stats_interval (runtime c) ≤ u32_max).
  { unfold in_width in Hi. unfold u32_max. change (2 ^ 32) with 4294967296 in Hi. lia. }
  eexists. split.
  - apply (foldM_step _ _ _ _ (set_section init_pstate (bs "global"))); [reflexivity|].
    apply global_section; [done| |].
    + repeat (apply Forall_cons; split; [split; [apply word_okb_ok; reflexivity|]|]); cbn [snd];
        try done; try (apply text_ok_dec; lia).
      destruct (userspace_only (global c)); by apply text_ok_alnum; [|repeat constructor].
    + unfold global_pairs. key_step; [by rewrite parse_int_dec|].
      key_step; [by rewrite parse_bool_show|]. key_step; [by rewrite parse_int_dec|].
      key_step; [by rewrite text_quote_free|]. reflexivity.
  - eexists. reflexivity.
Qed.

Lemma text_line v : text_ok v → Forall (λ b, b ≠ LF) v ∧ last v ≠ Some CR.
Proof.
  intros [Ht HF]. split.
  - eapply Forall_impl; [exact HF|]. unfold LF. simpl. lia.
  - intros H%last_Some_elem_of. rewrite Forall_forall in HF. apply HF in H. unfold CR in H. lia.
Qed.

Lemma kv_text k v : word_ok k → text_ok v → Forall (λ b, b ≠ LF) (kv k v) ∧ last (kv k v) ≠ Some CR.
Proof.
  intros (_ & Hk & _) [Ht Hv]%text_line. split.
  - unfold kv. repeat apply Forall_app_2; [|repeat constructor; done|done].
    eapply Forall_impl; [exact Hk|]. unfold graphic, LF. simpl. lia.
  - unfold kv. rewrite !last_app. destruct (last v); [done|]. done.
Qed.

Lemma print_config_lines c : printable_config c →
  lines (print_config c)
  = bs "[global]" :: ((λ '(k, v), kv k v) <$> global_pairs c) ++ concat (peer_lines <$> peers c).
Proof.
  intros [_ HF _ _ Hm Hi Hf]. apply lines_unlines.
  assert (Hpairs : ∀ pairs, Forall pair_ok pairs →
    Forall (λ l, Forall (λ b, b ≠ LF) l ∧ last l ≠ Some CR) ((λ '(k, v), kv k v) <$> pairs)).
  { intros pairs Hp. apply Forall_fmap. eapply Forall_impl; [exact Hp|].
    intros [k v] [Hk Hv]. by apply kv_text. }
  apply Forall_cons; split; [split; [repeat constructor|]; done|]. apply Forall_app_2.
  - apply Hpairs. apply u16_le in Hm. unfold in_width in Hi.
    repeat (apply Forall_cons; split; [split; [apply word_okb_ok; reflexivity|]|]); cbn [snd];
      try done; try (apply text_ok_dec; lia).
    destruct (userspace_only (global c)); by apply text_ok_alnum; [|repeat constructor].
  - apply Forall_concat, Forall_fmap. eapply Forall_impl; [exact HF|]. intros p Hp. simpl.
    apply Forall_cons; split; [split; [repeat constructor|]; done|].
    apply Hpairs. by eapply peer_pairs_ok.
Qed.

(** C13: parsing the printed form of a configuration gives that configuration:
    every key of the two sections is read into its own field and nothing else,
    sections accumulate in order, and a valid configuration with plain texts
    is always accepted. *)
Theorem config_roundtrip c : printable_config c → parse_config (print_config c) = Ok c.
Proof.
  intros Hc. unfold parse_config. rewrite print_config_lines by done.
  rewrite app_comm_cons, foldM_app.
  destruct (global_lines_read c Hc) as (s1 & -> & Hs1). rewrite res_bind_Ok.
  destruct (peers_read _ _ _ _ _ _ _ Hs1 (pc_printable c Hc)) as (s2 & -> & sec & Hs2).
  rewrite res_bind_Ok, Hs2, res_bind_Ok. cbn [p_peers app].
  destruct Hc as [Hne _ Hn Hd _ _ _].
  destruct (Nat.eqb_spec (length (peers c)) 0) as [Hl|_]; [by destruct (peers c)|].
  cbn [negb ensure]. rewrite res_bind_Ok.
  rewrite check_names_NoDup, res_bind_Ok by (done || apply Forall_forall; set_solver).
  rewrite check_ports_disjoint, res_bind_Ok by (done || apply Forall_forall; set_solver).
  by destruct c as [[] [] ?].
Qed.

Definition sample_peer (nm : string) (port : Z) (m : ObfsMode) : PeerConfig :=
  mkPeer (bs nm) 1420 (Some (bs "eth0")) Drop (bs "10.0.0.1/30") ip_unspecified
    (V4 [203; 0; 113; 10]) false true [port; port + 1] [port; port + 1] (Z.of_nat <$> seq 100 32) 55
    1400 false (bs "127.0.0.1:51820") (bs "example.com") m 0.

Definition sample_config : Config :=
  mkConfig (mkGlobal 1400 true) (mkRuntime 10 (bs "/run/gutd.stat"))
    [sample_peer "gut0" 41000 Quic; sample_peer "gut1" 42000 Sip].

#[global] Instance tight_dec l : Decision (tight l).
Proof. unfold tight, graphic. destruct (head l), (last l); apply _. Defined.
#[global] Instance text_ok_dec_inst v : Decision (text_ok v).
Proof. unfold text_ok. apply _. Defined.

Lemma sample_peer_printable nm port m : text_ok (bs nm) → 1 ≤ port < 65535 →
  printable 1400 (sample_peer nm port m).
Proof.
  intros Hn Hport. split; try done; try (apply (bool_decide_unpack _); vm_compute; exact I).
  - split; try (split; [done|]); try done; cbn;
      try (apply Forall_cons; split; [lia|apply Forall_singleton; lia]);
      try (intros; lia).
    all: apply (bool_decide_unpack _); vm_compute; exact I.
Qed.

Lemma config_roundtrip_witness : parse_config (print_config sample_config) = Ok sample_config.
Proof.
  apply (config_roundtrip sample_config). split.
  - discriminate.
  - apply Forall_cons; split; [|apply Forall_singleton]; apply sample_peer_printable; try lia;
      apply (bool_decide_unpack _); vm_compute; exact I.
  - apply (bool_decide_unpack _). vm_compute. exact I.
  - refine (proj1 (check_ports_ok ∅ (peers sample_config) tt _)). vm_compute. reflexivity.
  - apply (bool_decide_unpack _). vm_compute. exact I.
  - apply (bool_decide_unpack _). vm_compute. exact I.
  - apply (bool_decide_unpack _). vm_compute. exact I.
Defined.
