(* ===== verification/SharedAddr.v ===== *)
(** * userspace.rs: [SharedAddr], the lock-free shared address

    Six atomic cells hold one socket address.  [store] and [load] are given as
    functions of the cells, and as threads that touch one cell at a time: a
    store publishes its relaxed writes in any order and its release of
    [family] after all of them; a load acquires [family] first. *)

From stdpp Require Import relations.
From S2P Require Import Prelude Words Slices Net.
Local Open Scope Z_scope.

(** ** Sequential operations *)

Record cells := mkCells { family : Z; ip : list Z; port : Z }.

Definition new : cells := mkCells 0 [0; 0; 0; 0] 0.

Inductive cell := CFamily | CIp (i : nat) | CPort.

Definition write (s : cells) (w : cell * Z) : cells :=
  match w with
  | (CFamily, v) => mkCells v (ip s) (port s)
  | (CIp i, v) => mkCells (family s) (<[i:=v]> (ip s)) (port s)
  | (CPort, v) => mkCells (family s) (ip s) v
  end.

(** The four words of an address. *)
Definition ip_words (a : IpAddr) : list Z :=
  match a with
  | V4 o => [from_be o; 0; 0; 0]
  | V6 seg =>
      let o := v6_octets seg in
      [from_be (window 0 4 o); from_be (window 4 4 o); from_be (window 8 4 o);
       from_be (window 12 4 o)]
  end.

Definition family_of (a : IpAddr) : Z := match a with V4 _ => 4 | V6 _ => 6 end.

(** The relaxed writes of a store, in program order, and its release. *)
Definition relaxed_writes (a : SocketAddr) : list (cell * Z) :=
  imap (λ i w, (CIp i, w)) (ip_words (sa_ip a)) ++ [(CPort, sa_port a)].
Definition release_write (a : SocketAddr) : cell * Z := (CFamily, family_of (sa_ip a)).

Definition store (s : cells) (a : SocketAddr) : cells :=
  foldl write s (relaxed_writes a ++ [release_write a]).

(** The address the loaded words stand for. *)
Definition decode_addr (fam port : Z) (ws : list Z) : SocketAddr :=
  mkAddr (if fam =? 4 then V4 (u32_to_be_bytes (ws !!! 0%nat))
          else V6 (v6_segments (ws ≫= u32_to_be_bytes))) (as_u16 port).

Definition load (s : cells) : option SocketAddr :=
  if family s =? 0 then None
  else Some (decode_addr (family s) (port s) (if family s =? 4 then take 1 (ip s) else ip s)).

(** [((w0 ^ w2) << 32 | (w1 ^ w3)) ^ port] *)
Definition fold_words (ws : list Z) (port : Z) : Z :=
  Z.lxor (Z.lor (shl 64 (Z.lxor (ws !!! 0%nat) (ws !!! 2%nat)) 32)
            (Z.lxor (ws !!! 1%nat) (ws !!! 3%nat))) port.

Definition load_raw (s : cells) : Z := fold_words (ip s) (port s).

Definition addr_fingerprint (a : SocketAddr) : Z :=
  match sa_ip a with
  | V4 o => Z.lxor (shl 64 (from_be o) 32) (sa_port a)
  | V6 _ => fold_words (ip_words (sa_ip a)) (sa_port a)
  end.

(** ** The address round trip *)

Lemma v6_segments_octets s : Forall (in_width 16) s → v6_segments (v6_octets s) = s.
Proof.
  induction 1 as [|x s Hx Hs IH]; [done|]. unfold v6_octets in *. cbn [mbind list_bind].
  assert (E : ∃ a b, u16_to_be_bytes x = [a; b]).
  { pose proof (length_be_bytes 2 x) as Hl.
    destruct (be_bytes 2 x) as [|a [|b [|]]]; try done. by exists a, b. }
  destruct E as (a & b & E). rewrite E. cbn [app v6_segments]. f_equal; [|done].
  rewrite <- E, from_be_bytes. by apply wrap_small.
Qed.

Lemma length_v6_octets s : length (v6_octets s) = (length s * 2)%nat.
Proof.
  induction s as [|x s IH]; [done|]. unfold v6_octets in *. cbn [mbind list_bind length].
  rewrite length_app, length_be_bytes, IH. lia.
Qed.

Lemma v6_octets_bytes s : bytes (v6_octets s).
Proof.
  induction s as [|x s IH]; [constructor|]. unfold v6_octets in *. cbn [mbind list_bind].
  apply Forall_app_2; [apply be_bytes_bytes|done].
Qed.

(** Four octets are their word. *)
Lemma word_octets l : bytes l → length l = 4%nat → u32_to_be_bytes (from_be l) = l.
Proof. intros Hb Hl. rewrite <- Hl. by apply be_bytes_from_be. Qed.

Lemma decode_words a : addr_ok a →
  decode_addr (family_of (sa_ip a)) (sa_port a) (ip_words (sa_ip a)) = a.
Proof.
  destruct a as [[o|s] p]; intros [Hip Hp]; destruct Hip as [Hl Hb]; unfold decode_addr;
    cbn [sa_ip sa_port family_of Z.eqb ip_words] in *.
  - rewrite (wrap_small 16 p) by done. do 2 f_equal. by apply word_octets.
  - rewrite (wrap_small 16 p) by done. do 2 f_equal. change (6 =? 4) with false. cbv iota.
    f_equal. cbn [mbind list_bind]. rewrite app_nil_r.
    pose proof (length_v6_octets s) as Ho. pose proof (v6_octets_bytes s) as HB.
    rewrite !word_octets by (first [by apply Forall_window | rewrite length_window; lia]).
    rewrite <- (v6_segments_octets s Hb) at 5. f_equal.
    set (l := v6_octets s) in *. clearbody l. clear HB.
    rewrite Hl in Ho. do 17 (destruct l as [|? l]; [try done|]); done.
Qed.

(** The cells after a completed store. *)
Definition published (a : SocketAddr) : cells :=
  mkCells (family_of (sa_ip a)) (ip_words (sa_ip a)) (sa_port a).

Lemma length_ip_words a : length (ip_words a) = 4%nat.
Proof. by destruct a. Qed.

Lemma store_published s a : length (ip s) = 4%nat → store s a = published a.
Proof.
  intros Hl. unfold store, relaxed_writes, published. destruct s as [f l p]. cbn [ip] in Hl.
  destruct l as [|l0 [|l1 [|l2 [|l3 [|]]]]]; try done. by destruct a as [[o|seg] q].
Qed.

Lemma load_published a : addr_ok a → load (published a) = Some a.
Proof.
  intros Ha. unfold load, published. cbn [family port ip]. pose proof (decode_words a Ha) as Hd.
  destruct (sa_ip a) as [o|seg] eqn:E; cbn [family_of] in *;
    change (4 =? 0) with false; change (6 =? 0) with false;
    change (4 =? 4) with true; change (6 =? 4) with false; cbv iota.
  - by rewrite <- Hd at 2.
  - by rewrite Hd.
Qed.

Lemma load_raw_published a : load_raw (published a) = addr_fingerprint a.
Proof.
  unfold load_raw, addr_fingerprint, published. cbn [ip port]. destruct (sa_ip a) as [o|seg]; [|done].
  unfold fold_words. cbn [ip_words lookup_total list_lookup_total].
  rewrite !Z.lxor_0_r. by rewrite Z.lor_0_r.
Qed.

Definition cells_ok (s : cells) : Prop := length (ip s) = 4%nat.

(** An address that was stored is what [load] returns, whatever the cells
    held, and the fingerprint of the cells is the fingerprint of the address,
    so that the update a thread skips when the fingerprints agree would have
    been a no-op for the fingerprint. *)
Theorem shared_addr_store_load s a :
  cells_ok s → addr_ok a →
  load (store s a) = Some a ∧ load_raw (store s a) = addr_fingerprint a ∧ cells_ok (store s a) ∧
  load new = None.
Proof.
  intros Hs Ha. rewrite store_published by done. split_and!; try done.
  - by apply load_published.
  - apply load_raw_published.
  - apply length_ip_words.
Qed.

Definition sample_addr : SocketAddr := mkAddr (V4 [203; 0; 113; 10]) 41000.

Lemma sample_addr_ok : addr_ok sample_addr.
Proof.
  split; [split; [done|]|by split]. repeat (apply Forall_cons; split; [by split|]). constructor.
Qed.

Lemma shared_addr_store_load_witness :
  load (store new sample_addr) = Some sample_addr ∧
  load_raw (store new sample_addr) = addr_fingerprint sample_addr ∧
  cells_ok (store new sample_addr) ∧ load new = None.
Proof. apply (shared_addr_store_load new sample_addr); [reflexivity|apply sample_addr_ok]. Defined.

(** An IPv4 fingerprint determines the address. *)
Lemma v4_fingerprint_inj o1 o2 p1 p2 :
  addr_ok (mkAddr (V4 o1) p1) → addr_ok (mkAddr (V4 o2) p2) →
  addr_fingerprint (mkAddr (V4 o1) p1) = addr_fingerprint (mkAddr (V4 o2) p2) →
  o1 = o2 ∧ p1 = p2.
Proof.
  intros [[Hl1 Hb1] Hp1] [[Hl2 Hb2] Hp2]. cbn [sa_ip sa_port] in *.
  unfold addr_fingerprint. cbn [sa_ip sa_port].
  pose proof (from_be_range o1 Hb1) as H1. pose proof (from_be_range o2 Hb2) as H2.
  rewrite Hl1 in H1. rewrite Hl2 in H2. change (8 * Z.of_nat 4) with 32 in *.
  assert (Hx : ∀ v p, is_u32 v → is_u16 p → Z.lxor (shl 64 v 32) p = v * 2 ^ 32 + p).
  { intros v p Hv Hp. unfold in_width in *. rewrite <- (lor_shl_add 64 v p 32) by lia.
    pose proof (lor_shl_add 64 v p 32). pose proof (Z.sub_2lor_lxor (shl 64 v 32) p).
    unfold shl in *. rewrite Z.shiftl_mul_pow2 in * by lia.
    rewrite wrap_small in * by (split; lia). lia. }
  rewrite !Hx by done. unfold in_width in *. intros H.
  assert (Hf : from_be o1 = from_be o2) by lia. split; [|lia].
  by rewrite <- (word_octets o1), <- (word_octets o2), Hf.
Qed.

(** An IPv6 fingerprint does not: words that cancel in the exclusive or. *)
Example v6_fingerprint_collision :
  let a := mkAddr (V6 [0x2001; 0xdb8; 0; 0; 0; 0; 0; 1]) 443 in
  let b := mkAddr (V6 [0; 0; 0; 0; 0x2001; 0xdb8; 0; 1]) 443 in
  a ≠ b ∧ addr_fingerprint a = addr_fingerprint b.
Proof. split; [discriminate|]. vm_compute. reflexivity. Qed.

(** ** Threads that touch one cell at a time *)

(** A writer has relaxed writes left in any order, then its release. *)
Inductive writer :=
| WRun (rest : list (cell * Z)) (release : cell * Z)
| WDone.

(** A reader between two loads. *)
Inductive reader :=
| RStart
| RPort (fam : Z)
| RIp (fam port : Z) (ws : list Z)
| RDone (r : option SocketAddr).

Definition start_store (a : SocketAddr) : writer := WRun (relaxed_writes a) (release_write a).

(** The number of [ip] words a load reads for a family. *)
Definition words_of (fam : Z) : nat := if fam =? 4 then 1 else 4.

Record config := mkConf { mem : cells; wr : writer; rd : reader }.

Inductive step : config → config → Prop :=
| step_relaxed m w l1 l2 rel r :
    step (mkConf m (WRun (l1 ++ w :: l2) rel) r) (mkConf (write m w) (WRun (l1 ++ l2) rel) r)
| step_release m rel r :
    step (mkConf m (WRun [] rel) r) (mkConf (write m rel) WDone r)
| step_family m w :
    step (mkConf m w RStart)
      (mkConf m w (if family m =? 0 then RDone None else RPort (family m)))
| step_port m w fam :
    step (mkConf m w (RPort fam)) (mkConf m w (RIp fam (port m) []))
| step_ip m w fam p ws :
    (length ws < words_of fam)%nat →
    step (mkConf m w (RIp fam p ws)) (mkConf m w (RIp fam p (ws ++ [ip m !!! length ws])))
| step_return m w fam p ws :
    length ws = words_of fam →
    step (mkConf m w (RIp fam p ws)) (mkConf m w (RDone (Some (decode_addr fam p ws)))).

(** ** Publication of a first address *)

Definition holds (m : cells) (w : cell * Z) : Prop :=
  match w with
  | (CFamily, v) => family m = v
  | (CIp i, v) => ip m !! i = Some v
  | (CPort, v) => port m = v
  end.

Lemma family_of_nonzero i : (family_of i =? 0) = false.
Proof. by destruct i. Qed.

(** The words a load does not read do not matter. *)
Lemma decode_take i p :
  decode_addr (family_of i) p (take (words_of (family_of i)) (ip_words i))
  = decode_addr (family_of i) p (ip_words i).
Proof. by destruct i. Qed.

Section publication.
  Context (a : SocketAddr) (Ha : addr_ok a).

Definition init_conf : config := mkConf new (start_store a) RStart.

(** The writes of the store that are not left have taken effect. *)
Definition writer_inv (m : cells) (w : writer) : Prop :=
  match w with
  | WRun rest rel =>
      rel = release_write a ∧ family m = 0 ∧ cells_ok m ∧ rest ⊆ relaxed_writes a ∧
      ∀ x, x ∈ relaxed_writes a → x ∈ rest ∨ holds m x
  | WDone => m = published a
  end.

(** A reader that saw a family saw a finished store. *)
Definition reader_inv (w : writer) (r : reader) : Prop :=
  match r with
  | RStart => True
  | RPort fam => w = WDone ∧ fam = family_of (sa_ip a)
  | RIp fam p ws =>
      w = WDone ∧ fam = family_of (sa_ip a) ∧ p = sa_port a ∧
      ws = take (length ws) (ip_words (sa_ip a)) ∧ (length ws ≤ words_of fam)%nat
  | RDone res => res = None ∨ res = Some a
  end.

Definition inv (c : config) : Prop := writer_inv (mem c) (wr c) ∧ reader_inv (wr c) (rd c).

Lemma relaxed_writes_inv x : x ∈ relaxed_writes a →
  x = (CPort, sa_port a) ∨ ∃ i v, x = (CIp i, v) ∧ ip_words (sa_ip a) !! i = Some v.
Proof.
  unfold relaxed_writes. intros [(i & v & -> & Hv)%elem_of_lookup_imap |
    ->%list_elem_of_singleton]%elem_of_app; [right|by left]. by exists i, v.
Qed.

(** A relaxed write keeps what the others have written. *)
Lemma write_holds m x y : cells_ok m → x ∈ relaxed_writes a → y ∈ relaxed_writes a →
  y = x ∨ holds m y → holds (write m x) y.
Proof.
  intros Hm Hx Hy Hor.
  assert (Hlt : ∀ i v, ip_words (sa_ip a) !! i = Some v → (i < 4)%nat).
  { intros i v Hi%lookup_lt_Some. by rewrite length_ip_words in Hi. }
  apply relaxed_writes_inv in Hx as [-> | (i & v & -> & Hv)];
    apply relaxed_writes_inv in Hy as [-> | (j & u & -> & Hu)];
    cbn [holds write port ip] in *; try done; try (by destruct Hor).
  destruct (decide (i = j)) as [-> | Hne].
  - rewrite list_lookup_insert_eq; [congruence|]. rewrite Hm. by eapply Hlt.
  - rewrite list_lookup_insert_ne by done. destruct Hor as [[= -> ->]|]; done.
Qed.

(** All writes done and the release: the address is published. *)
Lemma release_published m : cells_ok m → (∀ x, x ∈ relaxed_writes a → holds m x) →
  write m (release_write a) = published a.
Proof.
  intros Hm Hall. unfold release_write, published. cbn [write]. f_equal.
  - apply list_eq_lookup; [by rewrite length_ip_words|]. intros i Hi. rewrite Hm in Hi.
    destruct (lookup_lt_is_Some_2 (ip_words (sa_ip a)) i) as [v Hv]; [by rewrite length_ip_words|].
    rewrite Hv. apply (Hall (CIp i, v)). apply elem_of_app. left.
    apply elem_of_lookup_imap. by exists i, v.
  - apply (Hall (CPort, sa_port a)). apply elem_of_app. right. by apply list_elem_of_singleton.
Qed.

Lemma step_inv c c' : inv c → step c c' → inv c'.
Proof.
  intros [Hw Hr] Hs. destruct Hs as [m w l1 l2 rel r|m rel r|m w|m w fam|m w fam p ws Hl|m w fam p ws Hl];
    cbn [mem wr rd] in *; split; cbn [mem wr rd]; try done.
  - destruct Hw as (-> & Hf & Hm & Hsub & Hall).
    assert (Hwin : w ∈ relaxed_writes a) by (apply Hsub, elem_of_app; right; left).
    split_and!; try done.
    + apply relaxed_writes_inv in Hwin as [-> | (i & v & -> & _)]; done.
    + apply relaxed_writes_inv in Hwin as [-> | (i & v & -> & _)]; [done|].
      unfold cells_ok. cbn [write ip]. by rewrite length_insert.
    + intros x [?|?]%elem_of_app; apply Hsub, elem_of_app; [by left|right; by right].
    + intros x Hx. destruct (Hall x Hx) as [[H1 | [-> | H2]%elem_of_cons]%elem_of_app | Hh].
      * left. apply elem_of_app. by left.
      * right. apply write_holds; [done..|by left].
      * left. apply elem_of_app. by right.
      * right. apply write_holds; [done..|by right].
  - by destruct r; [|destruct Hr..|].
  - destruct Hw as (-> & Hf & Hm & Hsub & Hall). apply release_published; [done|].
    intros x Hx. destruct (Hall x Hx) as [?%elem_of_nil|]; done.
  - destruct r; [done|by destruct Hr..|done].
  - destruct w as [rest rel|].
    + destruct Hw as (_ & -> & _). by left.
    + cbn in Hw. subst m. cbn [published family]. by rewrite family_of_nonzero.
  - destruct Hr as [-> ->]. cbn in Hw. subst m. split_and!; try done. cbn. lia.
  - destruct Hr as (-> & -> & -> & Hws & _). cbn in Hw. subst m. split_and!; try done.
    + rewrite length_app. cbn [length]. rewrite Nat.add_1_r.
      rewrite (take_S_r _ _ (ip_words (sa_ip a) !!! length ws)).
      * by rewrite <- Hws.
      * apply list_lookup_lookup_total_lt. rewrite length_ip_words.
        unfold words_of in Hl. case_match; lia.
    + rewrite length_app. cbn [length]. lia.
  - destruct Hr as (-> & -> & -> & Hws & _). right. f_equal.
    rewrite Hws, Hl, decode_take. by apply decode_words.
Qed.

(** The steps left. *)
Definition writer_left (w : writer) : nat :=
  match w with WRun rest _ => S (length rest) | WDone => 0 end.
Definition reader_left (r : reader) : nat :=
  match r with
  | RStart => 7
  | RPort _ => 6
  | RIp fam _ ws => S (words_of fam - length ws)
  | RDone _ => 0
  end.

Lemma step_decreases c c' : step c c' →
  (writer_left (wr c') + reader_left (rd c') < writer_left (wr c) + reader_left (rd c))%nat.
Proof.
  intros Hs. destruct Hs as [m w l1 l2 rel r|m rel r|m w|m w fam|m w fam p ws Hl|m w fam p ws Hl];
    cbn [wr rd writer_left reader_left]; rewrite ?length_app; cbn [length]; try lia.
  - case_match; cbn; lia.
  - unfold words_of. case_match; lia.
Qed.

Lemma nsteps_bound n c c' : nsteps step n c c' →
  (n + (writer_left (wr c') + reader_left (rd c')) ≤ writer_left (wr c) + reader_left (rd c))%nat.
Proof. induction 1 as [|n c1 c2 c3 Hs _ IH]; [lia|]. apply step_decreases in Hs. lia. Qed.

Lemma nsteps_inv n c c' : inv c → nsteps step n c c' → inv c'.
Proof. intros Hi H. induction H as [|n c1 c2 c3 Hs _ IH]; [done|]. by apply IH, (step_inv c1). Qed.

Lemma init_inv : inv init_conf.
Proof. split; [|done]. split_and!; try done. intros x Hx. by left. Qed.

Lemma inv_stuck c : inv c → (∀ c', ¬ step c c') →
  mem c = published a ∧ ∃ r, rd c = RDone r.
Proof.
  destruct c as [m w r]. intros [Hw Hr] Hstuck. cbn [mem wr rd] in *. split.
  - destruct w as [[|x rest] rel|]; [| |done].
    + by destruct (Hstuck _ (step_release m rel r)).
    + by destruct (Hstuck _ (step_relaxed m x [] rest rel r)).
  - destruct r as [|fam|fam p ws|res]; [| | |by eexists].
    + by destruct (Hstuck _ (step_family m w)).
    + by destruct (Hstuck _ (step_port m w fam)).
    + destruct Hr as (_ & _ & _ & _ & Hl). destruct (decide (length ws = words_of fam)) as [He|].
      * by destruct (Hstuck _ (step_return m w fam p ws He)).
      * destruct (Hstuck _ (step_ip m w fam p ws ltac:(lia))).
Qed.
End publication.

(** C26: while a thread stores the first address, a concurrent [load] never
    sees a half-written one: in every interleaving, whatever order the relaxed
    writes take effect in, it returns nothing or that address; every
    interleaving ends within thirteen steps, with the address published and
    the load returned. *)
Theorem shared_addr_publication a n c :
  addr_ok a → nsteps step n (init_conf a) c →
  (∀ r, rd c = RDone r → r = None ∨ r = Some a) ∧ (n ≤ 13)%nat ∧
  ((∀ c', ¬ step c c') → mem c = published a ∧ ∃ r, rd c = RDone r).
Proof.
  intros Ha Hn. assert (Hi : inv a c) by (eapply nsteps_inv; [done|apply init_inv|done]).
  split_and!.
  - intros r Hr. destruct Hi as [_ Hi]. by rewrite Hr in Hi.
  - apply nsteps_bound in Hn. unfold init_conf, start_store in Hn. cbn [wr rd] in Hn.
    assert (length (relaxed_writes a) = 5%nat)
      by (unfold relaxed_writes; by rewrite length_app, length_imap, length_ip_words).
    cbn [writer_left reader_left] in Hn. lia.
  - by apply inv_stuck.
Qed.

Lemma shared_addr_publication_witness :
  ∃ c, nsteps step 1 (init_conf sample_addr) c ∧
  ((∀ r, rd c = RDone r → r = None ∨ r = Some sample_addr) ∧ (1 ≤ 13)%nat ∧
  ((∀ c', ¬ step c c') → mem c = published sample_addr ∧ ∃ r, rd c = RDone r)).
Proof.
  assert (Hs : nsteps step 1 (init_conf sample_addr)
                 (mkConf new (start_store sample_addr) (RDone None))).
  { apply nsteps_once. apply (step_family new (start_store sample_addr)). }
  eexists. split; [exact Hs|].
  apply (shared_addr_publication sample_addr 1 _ sample_addr_ok Hs).
Defined.

(** Overwriting a published address is not atomic: a reader that acquired the
    old family reads the new port with the old address. *)
Example shared_addr_torn_overwrite :
  let b := mkAddr (V4 [198; 51; 100; 7]) 5555 in
  let c := mkAddr (V4 [203; 0; 113; 10]) 5555 in
  ∃ w m, rtc step (mkConf (published sample_addr) (start_store b) RStart)
    (mkConf m w (RDone (Some c))) ∧ c ≠ sample_addr ∧ c ≠ b.
Proof.
  intros b c. do 2 eexists. split; [|split; discriminate].
  eapply rtc_l; [apply step_family|]. change (family (published sample_addr)) with 4.
  eapply rtc_l; [apply (step_relaxed _ (CPort, 5555)
    [(CIp 0, from_be [198; 51; 100; 7]); (CIp 1, 0); (CIp 2, 0); (CIp 3, 0)] [])|].
  eapply rtc_l; [apply step_port|]. eapply rtc_l; [apply step_ip; vm_compute; lia|].
  eapply rtc_l; [apply step_return; reflexivity|]. apply rtc_refl.
Qed.
