(* ===== verification/Batch.v ===== *)
(** * userspace.rs: [BatchRecv], batched receive

    [recvmmsg] is a parameter: its reply is the list of datagrams and socket
    addresses it stored, or nothing on an error.  The packet memory is a list
    of [batch] slots of [pkt_buf] bytes; the slice a call returns is the slot
    itself, so what the caller writes to it stays there. *)

From S2P Require Import Prelude Words Slices Net.
Local Open Scope Z_scope.

(** One received message: its bytes and the [sockaddr_storage]. *)
Record dgram := mkDgram { d_bytes : list Z; d_addr : list Z }.

Record BatchRecv := mkBatch {
  slots : list (list Z);
  pkt_buf : nat;
  batch : nat;
  addrs : list (list Z);
  lens : list nat;
  count : nat;
  current : nat
}.

Definition SOCKADDR_STORAGE : nat := 128.

Definition pkt_buf_of (outer_mtu : Z) : nat := Nat.max (Z.to_nat outer_mtu + 548) 2048.
Definition batch_of (pkt_buf : nat) : nat := Nat.min 16 (Z.to_nat (65536 / Z.of_nat pkt_buf)).

Definition new (outer_mtu : Z) : BatchRecv :=
  let pkt_buf := pkt_buf_of outer_mtu in
  let batch := batch_of pkt_buf in
  mkBatch (replicate batch (replicate pkt_buf 0)) pkt_buf batch
    (replicate batch (replicate SOCKADDR_STORAGE 0)) (replicate batch 0%nat) 0 0.

Definition AF_INET : Z := 2.
Definition AF_INET6 : Z := 10.

(** [mmsg_sockaddr]: the family is in native (little-endian) order, the port
    and the address in network order. *)
Definition mmsg_sockaddr (storage : list Z) : option SocketAddr :=
  let ss_family := from_le (window 0 2 storage) in
  let port := from_be (window 2 2 storage) in
  if ss_family =? AF_INET then Some (mkAddr (V4 (window 4 4 storage)) port)
  else if ss_family =? AF_INET6 then Some (mkAddr (V6 (v6_segments (window 8 16 storage))) port)
  else None.

(** What the kernel stores for a reply: each datagram at the start of its
    slot (cut at the slot's end), its length and its address. *)
Definition fill (b : BatchRecv) (ds : list dgram) : BatchRecv :=
  let n := length ds in
  mkBatch
    (zip_with (λ d slot, list_inserts 0 (take (pkt_buf b) (d_bytes d)) slot) ds (slots b)
       ++ drop n (slots b))
    (pkt_buf b) (batch b) (list_inserts 0 (d_addr <$> ds) (addrs b))
    (list_inserts 0 ((λ d, Nat.min (pkt_buf b) (length (d_bytes d))) <$> ds) (lens b)) n 0.

(** [recv]: the slot index, the size and the source, or [None] for an [Err];
    [reply] is what [recvmmsg] answers if it is called. *)
Definition recv (b : BatchRecv) (reply : option (list dgram))
    : outcome (BatchRecv * option (nat * nat * SocketAddr)) :=
  let b' :=
    if (count b <=? current b)%nat then
      match reply with
      | Some (d :: ds) => Some (fill b (d :: ds))
      | _ => None
      end
    else Some b in
  match b' with
  | None => Done (b, None)
  | Some b =>
      let i := current b in
      let b := mkBatch (slots b) (pkt_buf b) (batch b) (addrs b) (lens b) (count b) (S i) in
      size ← unwrap (lens b !! i);
      storage ← unwrap (addrs b !! i);
      match mmsg_sockaddr storage with
      | None => Done (b, None)
      | Some src => _ ← unwrap (slots b !! i); Done (b, Some (i, size, src))
      end
  end.

(** The caller's changes to the slot it was given. *)
Definition write_back (b : BatchRecv) (i : nat) (slot : list Z) : BatchRecv :=
  mkBatch (<[i:=slot]> (slots b)) (pkt_buf b) (batch b) (addrs b) (lens b) (count b) (current b).

(** [n] rounds of receive and handle, the handler [h] rewriting its slot; the
    datagrams as the handler finds them. *)
Fixpoint pump (n : nat) (b : BatchRecv) (reply : option (list dgram)) (h : list Z → list Z)
    : outcome (BatchRecv * list (list Z * SocketAddr)) :=
  match n with
  | O => Done (b, [])
  | S n =>
      '(b, r) ← recv b reply;
      match r with
      | None => Done (b, [])
      | Some (i, size, src) =>
          slot ← unwrap (slots b !! i);
          '(b, rest) ← pump n (write_back b i (h slot)) reply h;
          Done (b, (take size slot, src) :: rest)
      end
  end.

(** ** Sizes *)



(** ** Order *)

Record batch_ok (b : BatchRecv) : Prop := {
  bk_slots : length (slots b) = batch b;
  bk_addrs : length (addrs b) = batch b;
  bk_lens : length (lens b) = batch b;
  bk_size : Forall (λ s, length s = pkt_buf b) (slots b);
  bk_count : (count b ≤ batch b)%nat
}.

Lemma new_ok outer_mtu : batch_ok (new outer_mtu).
Proof.
  split; cbn; rewrite ?length_replicate; try done; [|lia].
  apply Forall_replicate. by rewrite length_replicate.
Qed.

(** The message of a slot that has not been handed out. *)
Definition holds_dgram (b : BatchRecv) (i : nat) (d : dgram) : Prop :=
  ∃ slot, slots b !! i = Some slot ∧ take (length (d_bytes d)) slot = d_bytes d ∧
    lens b !! i = Some (length (d_bytes d)) ∧ addrs b !! i = Some (d_addr d).

Lemma fill_ok b ds : batch_ok b → (length ds ≤ batch b)%nat → batch_ok (fill b ds).
Proof.
  intros [Hs Ha Hl Hz _] Hn. split; cbn.
  - rewrite length_app, length_zip_with, length_drop. lia.
  - by rewrite length_inserts.
  - by rewrite length_inserts.
  - apply Forall_app_2; [|by apply Forall_drop].
    rewrite Forall_lookup. intros i s. rewrite lookup_zip_with.
    destruct (ds !! i); [|done]. cbn. destruct (slots b !! i) as [s'|] eqn:E; [|done].
    intros [= <-]. rewrite length_inserts. by apply (Forall_lookup_1 _ _ _ _ Hz E).
  - done.
Qed.

Lemma fill_holds b ds i d : batch_ok b → (length ds ≤ batch b)%nat → ds !! i = Some d →
  (length (d_bytes d) ≤ pkt_buf b)%nat → holds_dgram (fill b ds) i d.
Proof.
  intros [Hs Ha Hl Hz _] Hn Hi Hd. pose proof (lookup_lt_Some _ _ _ Hi) as Hlt.
  destruct (lookup_lt_is_Some_2 (slots b) i) as [s Hsi]; [lia|].
  pose proof (Forall_lookup_1 _ _ _ _ Hz Hsi) as Hlen. cbv beta in Hlen.
  exists (list_inserts 0 (take (pkt_buf b) (d_bytes d)) s). cbn. rewrite take_ge by done.
  split_and!.
  - rewrite lookup_app_l by (rewrite length_zip_with; lia).
    rewrite lookup_zip_with, Hi, Hsi. cbn. by rewrite take_ge by done.
  - rewrite list_inserts_app by lia. rewrite take_0. cbn [app]. by rewrite take_app_length.
  - rewrite lookup_list_inserts by (rewrite length_fmap; lia).
    rewrite length_fmap, decide_True by lia. rewrite Nat.sub_0_r, list_lookup_fmap, Hi. cbn.
    by rewrite Nat.min_r.
  - rewrite lookup_list_inserts by (rewrite length_fmap; lia).
    rewrite length_fmap, decide_True by lia. by rewrite Nat.sub_0_r, list_lookup_fmap, Hi.
Qed.

Lemma write_back_holds b i j slot d : i ≠ j → holds_dgram b j d →
  holds_dgram (write_back b i slot) j d.
Proof.
  intros Hne (s & H1 & H2 & H3 & H4). exists s. cbn. by rewrite list_lookup_insert_ne.
Qed.

(** Receiving from a batch that still has messages. *)
Lemma recv_next b reply d src : (current b < count b)%nat → holds_dgram b (current b) d →
  mmsg_sockaddr (d_addr d) = Some src →
  recv b reply
  = Done (mkBatch (slots b) (pkt_buf b) (batch b) (addrs b) (lens b) (count b) (S (current b)),
          Some (current b, length (d_bytes d), src)).
Proof.
  intros Hc (s & H1 & H2 & H3 & H4) Hsrc. unfold recv.
  destruct (Nat.leb_spec (count b) (current b)); [lia|]. cbn. rewrite H3, H4. cbn.
  rewrite Hsrc, H1. done.
Qed.

Lemma pump_rest h reply ds srcs b :
  (current b + length ds = count b)%nat → Forall2 (λ d s, mmsg_sockaddr (d_addr d) = Some s) ds srcs →
  (∀ k d, ds !! k = Some d → holds_dgram b (current b + k) d) →
  ∃ b', pump (length ds) b reply h = Done (b', zip (d_bytes <$> ds) srcs) ∧
    current b' = count b' ∧ count b' = count b.
Proof.
  intros Hc HF. revert b Hc. induction HF as [|d src ds srcs Hd HF IH]; intros b Hc Hall.
  { cbn [length] in Hc. exists b. cbn. split_and!; [done|lia|done]. }
  pose proof (Hall 0%nat d eq_refl) as Hd0. rewrite Nat.add_0_r in Hd0.
  cbn [length] in *. cbn [pump]. rewrite (recv_next b reply d src), bind_Done by (done || lia).
  destruct Hd0 as (s & H1 & H2 & _). cbn [slots]. rewrite H1. cbn [unwrap]. rewrite bind_Done.
  edestruct IH as (b' & -> & Hb' & Hcb).
  3: { rewrite bind_Done. exists b'. rewrite H2. split_and!; [done|done|done]. }
  - cbn. lia.
  - intros k d' Hk. apply write_back_holds; [cbn; lia|].
    destruct (Hall (S k) d' Hk) as (s' & H5). rewrite Nat.add_succ_r in H5. by exists s'.
Qed.

(** The datagrams one [recvmmsg] returned are handed out once each, in
    order, with their own bytes, length and source, even when the handler
    overwrites the slots it was given; only then is the kernel asked again. *)
Theorem batch_in_order b ds srcs h :
  batch_ok b → (count b ≤ current b)%nat → ds ≠ [] → (length ds ≤ batch b)%nat →
  Forall (λ d, (length (d_bytes d) ≤ pkt_buf b)%nat) ds →
  Forall2 (λ d s, mmsg_sockaddr (d_addr d) = Some s) ds srcs →
  ∃ b', pump (length ds) b (Some ds) h = Done (b', zip (d_bytes <$> ds) srcs) ∧
    current b' = count b'.
Proof.
  intros Hb Hc Hne Hn Hsz HF.
  assert (Hp : ∃ b', pump (length ds) (fill b ds) (Some ds) h = Done (b', zip (d_bytes <$> ds) srcs) ∧
    current b' = count b' ∧ count b' = count (fill b ds)).
  { apply pump_rest; [done..|]. intros k d Hk. apply fill_holds; [done..|].
    by apply (Forall_lookup_1 _ _ _ _ Hsz Hk). }
  destruct Hp as (b' & Hp & Hcur & _). exists b'. split; [|done]. rewrite <- Hp.
  destruct ds as [|d ds]; [done|]. cbn [length pump].
  replace (recv b (Some (d :: ds))) with (recv (fill b (d :: ds)) (Some (d :: ds))); [done|].
  unfold recv at 2. destruct (Nat.leb_spec (count b) (current b)); [|lia]. done.
Qed.

Definition sample_dgram (v : Z) : dgram :=
  mkDgram (replicate 40 v) ([2; 0; 0x12; 0x34; 10; 0; 0; v] ++ replicate 120 0).

Lemma batch_in_order_witness :
  ∃ b', pump 2 (new 1500) (Some [sample_dgram 7; sample_dgram 9]) reverse
    = Done (b', zip (d_bytes <$> [sample_dgram 7; sample_dgram 9])
                 [mkAddr (V4 [10; 0; 0; 7]) 0x1234; mkAddr (V4 [10; 0; 0; 9]) 0x1234]) ∧
    current b' = count b'.
Proof.
  apply (batch_in_order (new 1500) [sample_dgram 7; sample_dgram 9]).
  - apply new_ok.
  - reflexivity.
  - discriminate.
  - apply Nat.leb_le. reflexivity.
  - repeat (apply Forall_cons; split; [apply Nat.leb_le; vm_compute; reflexivity|]). constructor.
  - repeat (apply Forall2_cons; split; [reflexivity|]). constructor.
Defined.
