(* ===== verification/Proxy.v ===== *)
(** * userspace.rs: the proxy

    [run] sets up one egress thread (WireGuard to peer) and one ingress thread
    per port (peer to WireGuard).  One iteration of each loop is a function
    of the shared state, the thread's buffers and the received datagram; it
    returns the new state and the datagram it sends, if any.  The clock and
    the sockets are parameters.  An iteration is a function here, as if it ran
    alone; [Threads] takes it apart into its accesses to the shared state and
    lets the threads interleave, and [SharedAddr] does so for the cells of an
    address. *)

From stdpp Require Import gmap.
From S2P Require Import Prelude Words Slices Text ChaCha Base64 Obfs Syslog Sip Results StrOps.
From S2P Require Import Net Config SharedAddr.
Local Open Scope Z_scope.

(** ** Memory and buffer sizes *)

(** [total_ram_mb]: [meminfo] is the content of /proc/meminfo. *)
Definition strip_prefix (p l : list Z) : option (list Z) :=
  if starts_with l p then Some (drop (length p) l) else None.

(** [s.trim_end_matches(" kB")] *)
Definition trim_end_matches (p l : list Z) : list Z :=
  reverse (strip_any (length l) [reverse p] (reverse l)).

Fixpoint mem_total (ls : list (list Z)) : option Z :=
  match ls with
  | [] => None
  | l :: ls =>
      match strip_prefix (bs "MemTotal:") l with
      | Some rest =>
          let kb := default 0 (parse_uint (2 ^ 64 - 1)
                      (trim (trim_end_matches (bs " kB") (trim rest)))) in
          if 0 <? kb then Some (kb / 1024) else mem_total ls
      | None => mem_total ls
      end
  end.

Definition total_ram_mb (meminfo : option (list Z)) : Z :=
  default 256 (data ← meminfo; mem_total (lines data)).

Definition adaptive_socket_buf_size (total_mb : Z) : Z :=
  if total_mb <=? 32 then 256 * 1024
  else if total_mb <=? 64 then 512 * 1024
  else if total_mb <=? 128 then 1024 * 1024
  else if total_mb <=? 512 then 2 * 1024 * 1024
  else if total_mb <=? 2048 then 4 * 1024 * 1024
  else if total_mb <=? 4096 then 8 * 1024 * 1024
  else 16 * 1024 * 1024.

(** ** Setup *)

Inductive rerr := ENoPeersConfigured | EWgHost | EPeerAddr.

(** What the threads are given. *)
Record setup := mkSetup {
  s_peer : PeerConfig;
  s_key_init : list Z;
  s_rounds : Z;
  s_auth_key : list Z;
  s_is_server : bool;
  s_obfs : ObfsMode;
  s_wg_addr : SocketAddr;
  s_dynamic : bool;
  s_remote : option SocketAddr;
  s_ext_binds : list SocketAddr;
  s_local_bind : SocketAddr
}.

(** The mode from [GUTD_OBFS], [sip] and unknown values leaving the peer's. *)
Definition env_obfs (var : option (list Z)) (d : ObfsMode) : ObfsMode :=
  match var with
  | Some v =>
      if str_eqb v (bs "syslog") then Syslog
      else if str_eqb v (bs "quic") then Quic
      else if str_eqb v (bs "gut") || str_eqb v (bs "gost") || str_eqb v (bs "noise") then Gut
      else d
  | None => d
  end.

(** Where the external sockets are bound, one per port: a client that need
    not agree on the ports lets the system choose. *)
Definition ext_binds_of (peer : PeerConfig) : list SocketAddr :=
  let client_needs_fixed_port := responder peer || is_sip (obfs peer) in
  (λ port, mkAddr (bind_ip peer) (if client_needs_fixed_port then port else 0)) <$> ports peer.

(** Where the socket towards WireGuard is bound. *)
Definition local_bind_of (peer : PeerConfig) (wg_addr : SocketAddr) : SocketAddr :=
  if negb (responder peer) then wg_addr else mkAddr (bind_ip peer) (bind_port peer).

(** The setup of [run], up to the binding of its sockets. *)
Definition run_setup (var : list Z → option (list Z)) (c : Config) : res rerr setup :=
  match peers c with
  | [] => Err ENoPeersConfigured
  | peer :: _ =>
      let key_init := chacha_init (key peer) in
      let obfs' := env_obfs (var (bs "GUTD_OBFS")) (obfs peer) in
      wg_addr ← ok_or (parse_socket_addr (default (wg_host peer) (var (bs "GUTD_WG_HOST")))) EWgHost;
      let peer_ip_str := default (show_ip (peer_ip peer)) (var (bs "GUTD_PEER_IP")) in
      let dynamic := dynamic_peer peer || eq_ignore_ascii_case peer_ip_str (bs "dynamic")
                       || str_eqb peer_ip_str (bs "0.0.0.0") in
      let peer_port := default 41000 (head (peer_ports peer)) in
      remote ← (if dynamic then Ok None
                else a ← ok_or (parse_socket_addr (peer_ip_str ++ bs ":" ++ dec peer_port)) EPeerAddr;
                     Ok (Some a));
      Ok (mkSetup peer key_init 4 (window 4 4 key_init) (responder peer) obfs' wg_addr dynamic
            remote (ext_binds_of peer) (local_bind_of peer wg_addr))
  end.

(** ** Shared state *)

Record shared := mkShared {
  wg_peer : cells;
  peer_ext : cells;
  client_map : gmap Z SocketAddr;
  session_map : gmap Z Z;
  client_obfs : gmap SocketAddr ObfsMode
}.

Definition init_shared : shared := mkShared SharedAddr.new SharedAddr.new ∅ ∅ ∅.

Inductive socket := Ext (i : nat) | Local.

Record send := mkSend { via : socket; payload : list Z; dest : SocketAddr }.

(** The clock readings of one iteration. *)
Record clock := mkClock { t_ns : Z; t_secs : Z; t_us : Z }.

Section proxy.
  Context (st : setup).
  Abbreviation peer := (s_peer st).

(** ** Egress *)

Definition ka_pkt : list Z := [0x40] ++ replicate 15 0 ++ [0x01].

(** The receive timed out: a client keeps its mapping alive. *)
Definition egress_timeout : list send :=
  if s_is_server st then []
  else match s_remote st with
       | Some d => [mkSend (Ext 0) ka_pkt d]
       | None => []
       end.

(** A client tracks the address WireGuard sends from. *)
Definition track_wg_peer (s : shared) (src : SocketAddr) : shared :=
  if s_is_server st then s
  else if load_raw (wg_peer s) =? addr_fingerprint src then s
  else mkShared (store (wg_peer s) src) (peer_ext s) (client_map s) (session_map s) (client_obfs s).

(** Where a datagram from WireGuard goes. *)
Definition egress_route (s : shared) (buf : list Z) (size : nat)
    : outcome (shared * option SocketAddr) :=
  if negb (s_dynamic st) then
    Done (s, match load (peer_ext s) with Some a => Some a | None => s_remote st end)
  else if (4 <=? size)%nat then
    b0 ← get buf 0;
    let wg_type := Z.land b0 0x1F in
    if wg_type =? 1 then Done (s, None)
    else if (wg_type =? 2) && (12 <=? size)%nat then
      s_idx ← read_u32_le buf 4 8;
      c_idx ← read_u32_le buf 8 12;
      let s := mkShared (wg_peer s) (peer_ext s) (client_map s) (<[s_idx:=c_idx]> (session_map s))
                 (client_obfs s) in
      Done (s, client_map s !! c_idx)
    else if ((wg_type =? 3) || (wg_type =? 4)) && (8 <=? size)%nat then
      c_idx ← read_u32_le buf 4 8;
      Done (s, client_map s !! c_idx)
    else Done (s, None)
  else Done (s, None).

Definition sip_kind_of (wg_type : Z) (wg_size : nat) : Sip.SipKind :=
  if wg_type =? 1 then Sip.Register
  else if wg_type =? 2 then Sip.Response200
  else if wg_type =? 3 then Sip.Response401
  else if (wg_type =? 4) && (wg_size =? 32)%nat then Sip.Options
  else Sip.Message.

Definition set_port (a : SocketAddr) (p : Z) : SocketAddr := mkAddr (sa_ip a) p.

(** A syslog line around the datagram. *)
Definition wrap_syslog (t : clock) (out_buf buf : list Z) (new_size : nat)
    : outcome (list Z * list Z) :=
  '(out_buf, hlen) ← Syslog.write_header out_buf (sip_domain peer) (t_secs t);
  d ← slice buf 0 new_size;
  tail ← slice_from out_buf hlen;
  '(tail, b64_len) ← encode d tail;
  let out_buf := take hlen out_buf ++ tail in
  p ← slice out_buf 0 (hlen + b64_len);
  Done (out_buf, p).

(** An RTP packet: the datagram striped over the media ports. *)
Definition wrap_rtp (out_buf buf : list Z) (new_size : nat) (dcid : Z) (d : SocketAddr)
    : outcome (list Z * list Z * SocketAddr * nat) :=
  dg ← slice buf 0 new_size;
  ts ← wg_nonce32 dg;
  let seq := Z.land ts 0xFFFF in
  '(out_buf, _) ← Sip.write_rtp_header out_buf seq ts dcid;
  out_buf ← copy_from_slice out_buf Sip.RTP_HEADER_LEN (Sip.RTP_HEADER_LEN + new_size) dg;
  let n := length (peer_ports peer) in
  '(d, sock_idx) ←
    (if (1 <? n)%nat then
       let sock_idx := (1 + Z.to_nat (ts mod Z.of_nat (n - 1)))%nat in
       p ← get (peer_ports peer) sock_idx; Done (set_port d p, sock_idx)
     else Done (d, 0%nat));
  p ← slice out_buf 0 (Sip.RTP_HEADER_LEN + new_size);
  Done (out_buf, p, d, sock_idx).

(** A SIP message around the Base64 of the datagram. *)
Definition wrap_sip (t : clock) (out_buf buf : list Z) (new_size : nat) (wg_type : Z) (wg_size : nat)
    (src d : SocketAddr) : outcome (list Z * list Z * SocketAddr * nat) :=
  let kind := sip_kind_of wg_type wg_size in
  '(out_buf, b64_len) ←
    match kind with
    | Sip.Options => Done (out_buf, 0%nat)
    | _ =>
        dg ← slice buf 0 new_size;
        tail ← slice_from out_buf Sip.MAX_SIP_HEADER_LEN;
        '(tail, n) ← encode dg tail;
        Done (take Sip.MAX_SIP_HEADER_LEN out_buf ++ tail, n)
    end;
  let sip_buf := replicate Sip.MAX_SIP_HEADER_LEN 0 in
  let rtp_port := default 10000 (peer_ports peer !! 1%nat) in
  date_str ← Sip.format_sip_date_only (t_secs t);
  '(sip_buf, hlen) ←
    Sip.write_header sip_buf kind (sip_domain peer) (show_ip (sa_ip src)) (show_ip (sa_ip d))
      (sa_port src) (sa_port d) rtp_port b64_len (s_auth_key st) date_str (t_us t);
  out_buf ← copy_within out_buf Sip.MAX_SIP_HEADER_LEN (Sip.MAX_SIP_HEADER_LEN + b64_len) hlen;
  h ← slice sip_buf 0 hlen;
  out_buf ← copy_from_slice out_buf 0 hlen h;
  p0 ← get (peer_ports peer) 0;
  p ← slice out_buf 0 (hlen + b64_len);
  Done (out_buf, p, set_port d p0, 0%nat).

(** The envelope of the mode: the thread's output buffer, the datagram to
    send, its destination and the index of the socket. *)
Definition egress_wrap (t : clock) (m : ObfsMode) (out_buf buf : list Z) (new_size : nat) (dcid : Z)
    (wg_type : Z) (wg_size : nat) (src d : SocketAddr)
    : outcome (list Z * list Z * SocketAddr * nat) :=
  match m with
  | Syslog => '(out_buf, p) ← wrap_syslog t out_buf buf new_size; Done (out_buf, p, d, 0%nat)
  | Sip =>
      if (wg_type =? 4) && (32 <? wg_size)%nat
      then wrap_rtp out_buf buf new_size dcid d
      else wrap_sip t out_buf buf new_size wg_type wg_size src d
  | _ => p ← slice buf 0 new_size; Done (out_buf, p, d, 0%nat)
  end.

(** One datagram from WireGuard: the shared state, the thread's output
    buffer, the receive slot and what is sent. *)
Definition egress_packet (t : clock) (s : shared) (out_buf buf : list Z) (size : nat)
    (src : SocketAddr) : outcome (shared * list Z * list Z * option send) :=
  let s := track_wg_peer s src in
  '(s, egress_dest) ← egress_route s buf size;
  match egress_dest with
  | None => Done (s, out_buf, buf, None)
  | Some d =>
      let encap_obfs := if s_is_server st then default (s_obfs st) (client_obfs s !! d)
                        else s_obfs st in
      orig_wg_type ← get buf 0;
      '(buf, r) ← obfs_encap buf size (s_key_init st) (s_rounds st) (s_is_server st) (sa_port src)
                    (sa_port (s_wg_addr st)) encap_obfs (sip_domain peer) (t_ns t);
      match r with
      | None => Done (s, out_buf, buf, None)
      | Some (new_size, dcid) =>
          '(out_buf, p, d, sock_idx) ←
            egress_wrap t encap_obfs out_buf buf new_size dcid orig_wg_type size src d;
          _ ← unwrap (s_ext_binds st !! sock_idx);
          Done (s, out_buf, buf, Some (mkSend (Ext sock_idx) p d))
      end
  end.

(** ** Ingress *)

(** What the prepended envelope turned out to be. *)
Inductive unwrapped :=
| UDrop                                   (** [continue] *)
| UProbe (kind : Sip.SipKind)             (** a SIP request without a payload *)
| UData (prepend : option ObfsMode) (was_rtp : bool) (kind : Sip.SipKind).

Definition probe_kind (dg : list Z) : Sip.SipKind :=
  if starts_with dg (bs "OPTIONS ") then Sip.Response200
  else if starts_with dg (bs "REGISTER ") then Sip.Response401
  else Sip.Response403.

(** The payload replaces the start of the slot. *)
Definition copy_decoded (buf out_buf : list Z) (n : nat) : outcome (list Z) :=
  d ← slice out_buf 0 n; copy_from_slice buf 0 n d.

(** Decode the envelope: the output buffer, the slot, the size and the
    verdict. *)
Definition unwrap_envelope (out_buf buf : list Z) (size : nat)
    : outcome (list Z * list Z * nat * unwrapped) :=
  dg ← slice buf 0 size;
  sl ← Syslog.check_header dg;
  match sl with
  | Some hlen =>
      b64 ← slice buf hlen size;
      '(out_buf, r) ← decode b64 out_buf;
      match r with
      | Some n =>
          buf ← copy_decoded buf out_buf n;
          Done (out_buf, buf, n, UData (Some Syslog) false Sip.Response401)
      | None => Done (out_buf, buf, size, UDrop)
      end
  | None =>
      match Sip.check_header dg with
      | Some hlen =>
          let kind := probe_kind dg in
          b64 ← slice buf hlen size;
          '(out_buf, r) ← decode b64 out_buf;
          match r with
          | Some n =>
              if (0 <? n)%nat then
                buf ← copy_decoded buf out_buf n;
                Done (out_buf, buf, n, UData (Some Sip) false kind)
              else Done (out_buf, buf, size, UProbe kind)
          | None => Done (out_buf, buf, size, UProbe kind)
          end
      | None =>
          rtp ← Sip.check_rtp_header dg;
          if rtp : bool then
            buf ← copy_within buf Sip.RTP_HEADER_LEN size 0;
            Done (out_buf, buf, (size - Sip.RTP_HEADER_LEN)%nat,
                  UData (Some Sip) true Sip.Response401)
          else Done (out_buf, buf, size, UData None false Sip.Response401)
      end
  end.

(** A SIP answer to a probe, from [sport]. *)
Definition sip_response (t : clock) (kind : Sip.SipKind) (sport : Z) (src : SocketAddr)
    : outcome (list Z) :=
  let sip_resp := replicate Sip.MAX_SIP_HEADER_LEN 0 in
  date_str ← Sip.format_sip_date_only (t_secs t);
  '(sip_resp, hlen) ←
    Sip.write_header sip_resp kind (sip_domain peer) (show_ip (bind_ip peer)) (show_ip (sa_ip src))
      sport (sa_port src) 10000 0 (s_auth_key st) date_str (t_us t);
  slice sip_resp 0 hlen.

Definition verify (buf : list Z) (size : nat) (m : ObfsMode) : outcome bool :=
  obfs_verify buf size (s_key_init st) (s_rounds st) m.

(** [(fb & 0x40) == 0x40 || (fb & 0x80) == 0x80] of the first byte *)
Definition looks_quic (buf : list Z) : outcome bool :=
  fb ← get buf 0; Done ((Z.land fb 0x40 =? 0x40) || (Z.land fb 0x80 =? 0x80)).

Definition verify_quic (buf : list Z) (size : nat) : outcome bool :=
  q ← looks_quic buf; if q : bool then verify buf size Quic else Done false.

(** Is it tunnel traffic, and in which mode; a server tries QUIC first. *)
Definition detect (buf : list Z) (size : nat) (prepend : option ObfsMode)
    : outcome (list Z * bool * ObfsMode) :=
  if s_is_server st then
    original_start ← slice buf 0 6;
    q ← verify_quic buf size;
    if q : bool then Done (buf, true, Quic)
    else
      buf ← copy_from_slice buf 0 6 original_start;
      g ← verify buf size Gut;
      Done (if g : bool then (buf, true, default Gut prepend) else (buf, false, Quic))
  else if negb (is_quic (s_obfs st)) then
    ok ← (if (GUT_QUIC_SHORT_HEADER_SIZE + 16 <=? size)%nat then verify buf size Gut else Done false);
    Done (buf, ok, s_obfs st)
  else
    ok ← verify_quic buf size;
    Done (buf, ok, Quic).

(** The answer of a server to a datagram that is not tunnel traffic. *)
Definition reject (t : clock) (port_idx : nat) (buf : list Z) (size : nat) (src : SocketAddr)
    (prepend : option ObfsMode) (was_rtp : bool) (kind : Sip.SipKind) : outcome (option send) :=
  if negb (s_is_server st) then Done None
  else if bool_decide (prepend = Some Sip) && negb was_rtp then
    p ← sip_response t kind 4500 src; Done (Some (mkSend (Ext port_idx) p src))
  else if is_quic (s_obfs st) then
    '(vn, r) ← generate_quic_version_negotiation buf size (replicate 64 0);
    match r with
    | Some n => p ← slice vn 0 n; Done (Some (mkSend (Ext port_idx) p src))
    | None => Done None
    end
  else Done None.

(** Learn where the client of a session is. *)
Definition learn_client (s : shared) (buf : list Z) (new_size : nat) (src : SocketAddr)
    : outcome shared :=
  if negb (s_dynamic st && (8 <=? new_size)%nat) then Done s else
  b0 ← get buf 0;
  let wg_type := Z.land b0 0x1F in
  let with_client c :=
    mkShared (wg_peer s) (peer_ext s) (<[c:=src]> (client_map s)) (session_map s) (client_obfs s) in
  if wg_type =? 1 then
    c_idx ← read_u32_le buf 4 8;
    Done (if c_idx =? 0 then s else with_client c_idx)
  else if wg_type =? 4 then
    s_idx ← read_u32_le buf 4 8;
    Done (match session_map s !! s_idx with Some c_idx => with_client c_idx | None => s end)
  else Done s.

(** A verified datagram: remember the mode and the endpoint, decapsulate,
    forward. *)
Definition accept (s : shared) (buf : list Z) (size : nat) (src : SocketAddr) (m : ObfsMode)
    : outcome (shared * list Z * option send) :=
  let s := if s_is_server st
           then mkShared (wg_peer s) (peer_ext s) (client_map s) (session_map s)
                  (<[src:=m]> (client_obfs s))
           else s in
  '(buf, r) ← obfs_decap buf size (s_key_init st) (s_rounds st) m;
  match r with
  | None => Done (s, buf, None)
  | Some (new_size, _, _) =>
      let s := mkShared (wg_peer s) (store (peer_ext s) src) (client_map s) (session_map s)
                 (client_obfs s) in
      s ← learn_client s buf new_size src;
      match (if s_is_server st then Some (s_wg_addr st) else load (wg_peer s)) with
      | Some d => p ← slice buf 0 new_size; Done (s, buf, Some (mkSend Local p d))
      | None => Done (s, buf, None)
      end
  end.

(** One datagram on the ingress socket [port_idx]. *)
Definition ingress_packet (t : clock) (port_idx : nat) (s : shared) (out_buf buf : list Z)
    (size : nat) (src : SocketAddr) : outcome (shared * list Z * list Z * option send) :=
  '(out_buf, buf, size, u) ← unwrap_envelope out_buf buf size;
  match u with
  | UDrop => Done (s, out_buf, buf, None)
  | UProbe kind =>
      if s_is_server st then
        p ← sip_response t kind 5060 src;
        Done (s, out_buf, buf, Some (mkSend (Ext port_idx) p src))
      else Done (s, out_buf, buf, None)
  | UData prepend was_rtp kind =>
      '(buf, is_gut, m) ← detect buf size prepend;
      if negb is_gut then
        r ← reject t port_idx buf size src prepend was_rtp kind;
        Done (s, out_buf, buf, r)
      else
        '(s, buf, r) ← accept s buf size src m;
        Done (s, out_buf, buf, r)
  end.
End proxy.
