(* ===== verification/ProxyTotal.v ===== *)
(** * userspace.rs: no datagram can stop an ingress thread

    Every step of an ingress iteration returns, whatever arrives. *)

From stdpp Require Import gmap.
From S2P Require Import Prelude Words Slices Text CivilDate ChaCha Feistel Base64 Obfs.
From S2P Require Import ObfsRoundtrip Syslog Sip SipProofs SipDate Results StrOps Net Config SharedAddr Proxy.
Local Open Scope Z_scope.

(** ** The recognisers stay inside the datagram *)

Lemma scan_marker_total buf i n : (i + n + 7 ≤ length buf)%nat →
  ∃ r, Syslog.scan_marker buf i n = Done r ∧ ∀ h, r = Some h → (h ≤ length buf)%nat.
Proof.
  revert i. induction n as [|n IH]; intros i Hl; cbn [Syslog.scan_marker]; [by exists None|].
  rewrite slice_Done, bind_Done by lia. case_bool_decide; [|apply IH; lia].
  eexists. split; [done|]. intros h [= <-]. lia.
Qed.

Lemma syslog_check_total buf :
  ∃ r, Syslog.check_header buf = Done r ∧ ∀ h, r = Some h → (h ≤ length buf)%nat.
Proof.
  unfold Syslog.check_header, Syslog.SYSLOG_HDR_BASE.
  destruct (Nat.ltb_spec (length buf) 36); [by exists None|].
  rewrite slice_Done, bind_Done by lia. case_bool_decide; cbn [negb]; [|by exists None].
  apply scan_marker_total. lia.
Qed.

Lemma find_sub_le m l p : find_sub m l = Some p → (p + length m ≤ length l)%nat.
Proof.
  revert p. induction l as [|b l IH]; intros p; cbn [find_sub].
  - case_bool_decide as E; [|done]. intros [= <-]. by rewrite E.
  - unfold starts_with. case_bool_decide as E.
    + intros [= <-]. apply (f_equal length) in E. rewrite length_take in E. lia.
    + destruct (find_sub m l) as [q|]; [|done]. cbn. intros [= <-]. specialize (IH q eq_refl). lia.
Qed.

Lemma sip_check_le buf h : Sip.check_header buf = Some h → (h ≤ length buf)%nat.
Proof.
  unfold Sip.check_header. destruct (_ <? _)%nat; [done|]. destruct (negb _); [done|].
  unfold Sip.find_crlf_crlf. destruct (find_sub Sip.crlf_crlf buf) as [p|] eqn:E; [|done].
  apply find_sub_le in E. change (length Sip.crlf_crlf) with 4%nat in E.
  cbn [fmap option_fmap option_map mbind option_bind].
  destruct (find_sub Sip.fmtp (drop (p + 4) buf)) as [q|] eqn:E2.
  - apply find_sub_le in E2. rewrite length_drop in E2. change (length Sip.fmtp) with 9%nat in E2.
    intros [= <-]. lia.
  - intros [= <-]. lia.
Qed.

Lemma rtp_check_total buf : ∃ r, Sip.check_rtp_header buf = Done r ∧
  (r = true → (12 ≤ length buf)%nat).
Proof.
  unfold Sip.check_rtp_header, Sip.RTP_HEADER_LEN.
  destruct (Nat.ltb_spec (length buf) 12); [by exists false|].
  rewrite (get_total buf 0), bind_Done by lia. case_bool; [|by exists false].
  rewrite (get_total buf 1), bind_Done by lia. by eexists.
Qed.

(** ** The SIP answers fit their buffer *)

(** Clock readings a server sees: seconds and microseconds since the epoch. *)
Definition clock_wf (t : clock) : Prop := clock_ok (t_secs t) ∧ 0 ≤ t_us t.

Lemma date_text_length now : clock_ok now → (length (date_text now) ≤ 17)%nat.
Proof.
  intros Hn. unfold date_text. destruct (sip_civil_calendar now Hn) as [_ Hr].
  destruct (calendar (day_of now)) as [[y m] d]. rewrite !length_app.
  assert (Hd : length (day_name (weekday_of now)) = 3%nat).
  { pose proof (Z.mod_pos_bound (now / 86400 + 4) 7 eq_refl) as Hw. fold (weekday_of now) in Hw.
    revert Hw. generalize (weekday_of now). unfold day_name.
    apply (check_below_P (λ w, length (Sip.DAYS !!! Z.to_nat w) = 3%nat) 7). reflexivity. }
  assert (Hm : length (month_name m) = 3%nat).
  { assert (Hm' : 0 ≤ m - 1 < 12) by lia. revert Hm'. unfold month_name. generalize (m - 1).
    apply (check_below_P (λ w, length (Sip.MONTHS !!! Z.to_nat w) = 3%nat) 12). reflexivity. }
  rewrite Hd, Hm, length_dec2 by lia.
  pose proof (length_dec 5 y ltac:(lia) ltac:(change (10 ^ Z.of_nat 5) with 100000; lia)).
  change (length (bs ", ")) with 2%nat. change (length (bs " ")) with 1%nat. lia.
Qed.

Lemma length_hex8 v : length (hex8 v) = 8%nat.
Proof. done. Qed.

Lemma length_pad0 w t : length (pad0 w t) = Nat.max w (length t).
Proof. unfold pad0. rewrite length_app, length_replicate. lia. Qed.

(** Normalise the length of a text written with literals. *)
Ltac text_len :=
  rewrite ?concat_app, ?length_app; cbn [concat];
  rewrite ?length_app, ?length_hex8, ?length_pad0;
  repeat match goal with
  | |- context [length (bs ?x)] => let n := eval vm_compute in (length (bs x)) in
      change (length (bs x)) with n
  | |- context [length CRLF] => change (length CRLF) with 2%nat
  end; cbn [length].

Lemma length_dec_port p : 0 ≤ p < 65536 → (length (dec p) ≤ 5)%nat.
Proof. intros Hp. apply length_dec; [lia|]. change (10 ^ Z.of_nat 5) with 100000. lia. Qed.

(** The sequence number and the time of day in the texts. *)
Lemma tod_lengths us : 0 ≤ us →
  let tod := us mod 86400000000 in
  (length (dec ((us / 1000) mod 1000 + 1)) ≤ 4 ∧ length (dec (tod / 3600000000)) ≤ 2 ∧
   length (dec ((tod mod 3600000000) / 60000000)) ≤ 2 ∧
   length (dec ((tod mod 60000000) / 1000000)) ≤ 2 ∧ length (dec (tod mod 1000000)) ≤ 6)%nat.
Proof.
  intros Hus tod. assert (Htod : 0 ≤ tod < 86400000000) by by apply Z.mod_pos_bound.
  split_and!; apply length_dec; try lia;
    [change (10 ^ Z.of_nat 4) with 10000|change (10 ^ Z.of_nat 2) with 100..
    |change (10 ^ Z.of_nat 6) with 1000000]; dlia.
Qed.

(** The session description, up to the payload. *)
Lemma sdp_length us src_ip dst_ip rtp_port :
  (length src_ip ≤ 42)%nat → (length dst_ip ≤ 42)%nat → 0 ≤ rtp_port < 65536 → 0 ≤ us < 10 ^ 17 →
  (length (Sip.sdp_preamble (us / 1000) src_ip dst_ip rtp_port) ≤ 266)%nat.
Proof.
  intros Hsrc Hdst Hr Hus. pose proof (length_dec_port _ Hr).
  assert (length (dec (us / 1000)) ≤ 14)%nat.
  { apply length_dec; [lia|]. change (10 ^ Z.of_nat 14) with 100000000000000.
    change (10 ^ 17) with 100000000000000000 in Hus. dlia. }
  unfold Sip.sdp_preamble. text_len. lia.
Qed.

(** The length of a header, for every kind of message. *)
Lemma header_texts_length kind domain src_ip dst_ip sport dport rtp_port payload_len key date us :
  (length src_ip ≤ 42)%nat → (length dst_ip ≤ 42)%nat → (length date ≤ 17)%nat →
  0 ≤ sport < 65536 → 0 ≤ dport < 65536 → 0 ≤ rtp_port < 65536 → 0 ≤ us →
  payload_len = 0%nat ∨ us < 10 ^ 17 ∧ Z.of_nat payload_len ≤ 1000000 →
  (length (concat (Sip.header_texts kind domain src_ip dst_ip sport dport rtp_port payload_len key
                     date us))
   ≤ 4 * length domain + (if (0 <? payload_len)%nat then 800 else 500))%nat.
Proof.
  intros Hsrc Hdst Hdate Hs Hdp Hr Hus Hpl.
  pose proof (length_dec_port _ Hs). pose proof (length_dec_port _ Hdp).
  pose proof (tod_lengths us Hus) as (? & ? & ? & ? & ?).
  assert (Hc : (length (Sip.cseq_method kind) ≤ 8)%nat) by (destruct kind; vm_compute; lia).
  assert (Hst : (length (concat (Sip.start_texts kind domain dport us key)) ≤ 108 + length domain)%nat)
    by (destruct kind; cbn [Sip.start_texts]; text_len; lia).
  unfold Sip.header_texts. cbv zeta. set (tag := hex8 (sip_hash32 (as_u32 (Z.lxor _ dport)) _)).
  assert (Hto : (length (concat (if Sip.is_response kind then [bs ";tag="; tag; CRLF] else [CRLF]))
    ≤ 15)%nat) by (destruct (Sip.is_response kind); vm_compute; lia).
  destruct (Nat.ltb_spec 0 payload_len) as [Hp0|Hp0]; [|text_len; lia].
  destruct Hpl as [->|[Hus' Hpl]]; [lia|].
  pose proof (sdp_length us src_ip dst_ip rtp_port Hsrc Hdst Hr ltac:(lia)) as Hsdp.
  set (sdp := Sip.sdp_preamble (us / 1000) src_ip dst_ip rtp_port) in *.
  assert (Hcl : (length (dec (Z.of_nat (length sdp + payload_len))) ≤ 7)%nat).
  { apply length_dec; [lia|]. change (10 ^ Z.of_nat 7) with 10000000. lia. }
  text_len. lia.
Qed.

(** ** The steps of an iteration *)

(** A setup whose key is expanded and whose domain fits the answers. *)
Record setup_ok (st : setup) : Prop := {
  so_key : expanded_key (s_key_init st);
  so_domain : (length (sip_domain (s_peer st)) ≤ 128)%nat;
  so_bind : ip_ok (bind_ip (s_peer st))
}.

(** The buffers of an ingress thread. *)
Record ingress_bufs (out_buf buf : list Z) : Prop := {
  ib_out : bytes out_buf;
  ib_buf : bytes buf;
  ib_min : (64 ≤ length buf)%nat;
  ib_room : (3 * (length buf / 4) ≤ length out_buf)%nat
}.

Lemma copy_decoded_Done buf out_buf n : (n ≤ length buf)%nat → (n ≤ length out_buf)%nat →
  copy_decoded buf out_buf n = Done (take n out_buf ++ drop n buf).
Proof.
  intros Hb Ho. unfold copy_decoded. rewrite slice_Done, bind_Done by lia.
  rewrite Nat.sub_0_r, window_0, copy_from_slice_Done by len.
  rewrite list_inserts_app by len. by rewrite take_0, app_nil_l, length_take, Nat.min_l by lia.
Qed.

(** The Base64 payload of an envelope whose header ends at [h]. *)
Lemma decode_part out_buf buf h size : ingress_bufs out_buf buf → (h ≤ size ≤ length buf)%nat →
  ∃ ob r, (b64 ← slice buf h size; Base64.decode b64 out_buf) = Done (ob, r) ∧
    length ob = length out_buf ∧ bytes ob ∧ ∀ n, r = Some n → (n ≤ size ∧ n ≤ length out_buf)%nat.
Proof.
  intros [Hob Hbuf _ Hroom] Hh. rewrite slice_Done, bind_Done by lia.
  assert (Hw : length (window h (size - h) buf) = (size - h)%nat) by (apply length_window; lia).
  assert (Hq : (3 * ((size - h) / 4) ≤ size - h ∧ 3 * ((size - h) / 4) ≤ length out_buf)%nat).
  { pose proof (Nat.div_mod_eq (size - h) 4). split; [lia|].
    pose proof (Nat.Div0.div_le_mono (size - h) (length buf) 4 ltac:(lia)). lia. }
  destruct (decode_spec (window h (size - h) buf) out_buf) as (ob & r & Hd & Hl & _ & Hn);
    [auto with gutd|rewrite Hw; lia|].
  exists ob, r. rewrite Hd. split_and!; [done|done|by apply (decode_bytes _ _ _ _ Hob Hd)|].
  intros n Hr. specialize (Hn n Hr). rewrite Hw in Hn. lia.
Qed.

Lemma unwrap_total out_buf buf size : ingress_bufs out_buf buf → (size ≤ length buf)%nat →
  ∃ ob b n u, unwrap_envelope out_buf buf size = Done (ob, b, n, u) ∧
    length ob = length out_buf ∧ length b = length buf ∧ bytes b ∧ (n ≤ length buf)%nat.
Proof.
  intros Hib Hs. pose proof Hib as [Hob Hbuf _ _]. unfold unwrap_envelope.
  rewrite (slice_Done buf 0 size), bind_Done by lia. rewrite Nat.sub_0_r, window_0.
  set (dg := take size buf). assert (Hdg : length dg = size) by (subst dg; len).
  assert (Hcopy : ∀ ob n, bytes ob → (n ≤ size)%nat → (n ≤ length ob)%nat →
    copy_decoded buf ob n = Done (take n ob ++ drop n buf) ∧
    length (take n ob ++ drop n buf) = length buf ∧ bytes (take n ob ++ drop n buf)).
  { intros ob n Hb Hn Hn'. rewrite copy_decoded_Done by lia. split_and!; [done|len|auto with gutd]. }
  destruct (syslog_check_total dg) as ([h|] & -> & Hh); rewrite bind_Done.
  { destruct (decode_part out_buf buf h size) as (ob & r & Hd & Hl & Hb & Hn); [done| |].
    { specialize (Hh h eq_refl). lia. }
    apply bind_Done_inv in Hd as (w & -> & Hd). rewrite bind_Done, Hd, bind_Done.
    destruct r as [n|]; [|by eexists _, _, _, _].
    destruct (Hn n eq_refl). destruct (Hcopy ob n) as (-> & ? & ?); [done|lia|lia|].
    rewrite bind_Done. eexists _, _, _, _. split_and!; try done. lia. }
  destruct (Sip.check_header dg) as [h|] eqn:Esip.
  { apply sip_check_le in Esip.
    destruct (decode_part out_buf buf h size) as (ob & r & Hd & Hl & Hb & Hn); [done|lia|].
    apply bind_Done_inv in Hd as (w & -> & Hd). rewrite bind_Done, Hd, bind_Done.
    destruct r as [n|]; [|by eexists _, _, _, _]. destruct (Nat.ltb_spec 0 n); [|by eexists _, _, _, _].
    destruct (Hn n eq_refl). destruct (Hcopy ob n) as (-> & ? & ?); [done|lia|lia|].
    rewrite bind_Done. eexists _, _, _, _. split_and!; try done. lia. }
  destruct (rtp_check_total dg) as ([|] & -> & Hr); rewrite bind_Done; [|by eexists _, _, _, _].
  specialize (Hr eq_refl). unfold Sip.RTP_HEADER_LEN.
  rewrite copy_within_Done, bind_Done by lia. eexists _, _, _, _.
  split_and!; try done; [by rewrite length_inserts|auto with gutd|lia].
Qed.

Lemma unwrap_out_bytes out_buf buf size ob b n u : bytes out_buf →
  unwrap_envelope out_buf buf size = Done (ob, b, n, u) → bytes ob.
Proof.
  intros Ho H. unfold unwrap_envelope in H. apply bind_Done_inv in H as (dg & _ & H).
  apply bind_Done_inv in H as ([h|] & _ & H); [|destruct (Sip.check_header dg) as [h|]].
  1, 2: apply bind_Done_inv in H as (b64 & _ & ([ob' r] & Hd & H)%bind_Done_inv);
    apply decode_bytes in Hd; [|done]; repeat case_match; simplify_eq/=; try done;
    apply bind_Done_inv in H as (? & _ & H); by simplify_eq.
  apply bind_Done_inv in H as ([|] & _ & H); [|by simplify_eq].
  apply bind_Done_inv in H as (? & _ & H). by simplify_eq.
Qed.

Lemma length_vn_packet dcid scid :
  length (vn_packet dcid scid) = (15 + length dcid + length scid)%nat.
Proof. unfold vn_packet. rewrite !length_app. cbn [length]. lia. Qed.

Section steps.
  Context (st : setup) (Hst : setup_ok st) (t : clock) (Ht : clock_wf t).

Lemma sip_response_total kind sport src : 0 ≤ sport < 65536 →
  addr_ok src → ∃ p, sip_response st t kind sport src = Done p.
Proof.
  intros Hs [Hip Hp]. destruct Hst as [_ Hdom Hbind]. destruct Ht as [Hc Hus].
  unfold sip_response, Sip.MAX_SIP_HEADER_LEN.
  rewrite format_sip_date_only_Done, bind_Done by done.
  destruct (show_ip_text _ Hbind) as [_ Hl1]. unfold in_width in Hp. change (2 ^ 16) with 65536 in Hp.
  destruct (show_ip_text _ Hip) as [_ Hl2].
  pose proof (header_texts_length kind (sip_domain (s_peer st)) (show_ip (bind_ip (s_peer st)))
    (show_ip (sa_ip src)) sport (sa_port src) 10000 0 (s_auth_key st) (date_text (t_secs t)) (t_us t)
    Hl1 Hl2 (date_text_length _ Hc) Hs Hp ltac:(lia) Hus (or_introl eq_refl)) as Hlen.
  change (0 <? 0)%nat with false in Hlen. cbv iota in Hlen.
  rewrite sip_write_header_Done by (done || rewrite length_replicate; lia).
  rewrite bind_Done, slice_Done by (rewrite ?length_inserts, ?length_replicate; lia). by eexists.
Qed.

Lemma verify_total buf size m : bytes buf → (size ≤ length buf)%nat →
  ∃ r, verify st buf size m = Done r.
Proof. intros Hb Hs. destruct Hst as [Hk _ _]. by apply obfs_verify_Done. Qed.

Lemma verify_quic_total buf size : bytes buf → (size ≤ length buf)%nat → (0 < length buf)%nat →
  ∃ r, verify_quic st buf size = Done r.
Proof.
  intros Hb Hs H0. unfold verify_quic, looks_quic. rewrite get_total, !bind_Done by done.
  destruct (_ || _); [by apply verify_total|by eexists].
Qed.

Lemma copy_start_same buf : (6 ≤ length buf)%nat →
  copy_from_slice buf 0 6 (window 0 6 buf) = Done buf.
Proof.
  intros H. rewrite copy_from_slice_Done by (rewrite ?length_window; lia). f_equal.
  rewrite list_inserts_app by (rewrite length_window; lia).
  rewrite take_0, app_nil_l, length_window, window_0 by lia. apply take_drop.
Qed.

Lemma detect_total buf size prepend : bytes buf → (size ≤ length buf)%nat → (6 ≤ length buf)%nat →
  ∃ g m, detect st buf size prepend = Done (buf, g, m).
Proof.
  intros Hb Hs H6. destruct (verify_quic_total buf size) as [q Hq]; [done|done|lia|].
  destruct (verify_total buf size Gut Hb Hs) as [g Hg]. unfold detect. rewrite Hq.
  destruct (s_is_server st).
  - rewrite slice_Done, bind_Done by lia. rewrite Nat.sub_0_r, bind_Done.
    destruct q; [by eexists _, _|]. rewrite copy_start_same, bind_Done, Hg, bind_Done by done.
    destruct g; by eexists _, _.
  - destruct (negb _); [|by eexists _, _]. destruct (_ <=? _)%nat; [rewrite Hg|]; by eexists _, _.
Qed.

Lemma reject_total i buf size src prepend was_rtp kind :
  bytes buf → (size ≤ length buf)%nat → addr_ok src →
  ∃ r, reject st t i buf size src prepend was_rtp kind = Done r.
Proof.
  intros Hb Hs Hsrc. unfold reject. destruct (s_is_server st); cbn [negb]; [|by eexists].
  case_bool_decide as Hp; cbn [andb]; [destruct was_rtp; cbn [negb]|].
  2: { destruct (sip_response_total kind 4500 src) as [p ->]; [lia|done|]. by eexists. }
  all: destruct (is_quic _); [|by eexists].
  all: destruct (version_negotiation_spec buf size (replicate 64 0)) as (o & [n|] & -> & H);
    [done..| |rewrite bind_Done; by eexists].
  all: destruct H as (dl & sl & _ & _ & _ & _ & _ & Hfit & -> & _ & ->); rewrite bind_Done, slice_Done;
    [by eexists|lia|rewrite length_app, length_vn_packet, !length_window by lia; lia].
Qed.

Lemma accept_total s buf size src m : bytes buf → (size ≤ length buf)%nat → (8 ≤ length buf)%nat →
  ∃ s' b r, accept st s buf size src m = Done (s', b, r) ∧ length b = length buf.
Proof.
  intros Hb Hs H8. destruct Hst as [Hk _ _]. unfold accept.
  destruct (obfs_decap_Done buf size (s_key_init st) (s_rounds st) m Hk Hb Hs)
    as (back & [[[n sp] dp]|] & -> & Hl & Hn); rewrite bind_Done; [|by eexists _, _, _].
  specialize (Hn n sp dp eq_refl).
  set (s1 := mkShared _ _ _ _ _). destruct (learn_client st s1 back n src) as [s2|] eqn:El.
  2: { exfalso. revert El. unfold learn_client. destruct (negb _); [done|].
       rewrite get_total, bind_Done by lia. repeat case_match; try done;
         rewrite read_u32_le_Done by lia; done. }
  rewrite bind_Done. destruct (if s_is_server st then Some (s_wg_addr st) else load (wg_peer s2)) as [d|];
    [|by eexists _, _, _].
  rewrite slice_Done, bind_Done by lia. by eexists _, _, _.
Qed.
End steps.

(** C14: no datagram can stop an ingress thread: whatever bytes arrive, from
    whatever source and whatever the shared state, one iteration of the loop
    returns without panicking, and the buffers keep their sizes. *)
Theorem ingress_total st t i s out_buf buf size src :
  setup_ok st → clock_wf t → ingress_bufs out_buf buf → (size ≤ length buf)%nat → addr_ok src →
  ∃ s' ob b r, ingress_packet st t i s out_buf buf size src = Done (s', ob, b, r) ∧
    length ob = length out_buf ∧ length b = length buf.
Proof.
  intros Hst Ht Hib Hs Hsrc. pose proof (ib_min _ _ Hib) as Hmin. unfold ingress_packet.
  destruct (unwrap_total out_buf buf size Hib Hs) as (ob & b & n & u & -> & Ho & Hb & Hbb & Hn).
  rewrite bind_Done. destruct u as [|k|prepend rtp k].
  - by eexists _, _, _, _.
  - destruct (s_is_server st); [|by eexists _, _, _, _].
    destruct (sip_response_total st Hst t Ht k 5060 src) as [p ->]; [lia|done|].
    by eexists _, _, _, _.
  - destruct (detect_total st Hst b n prepend) as (g & m & ->); [done|lia|lia|].
    rewrite bind_Done. destruct g; cbn [negb].
    + destruct (accept_total st Hst s b n src m) as (s' & b' & r & -> & Hl); [done|lia|lia|].
      rewrite bind_Done. eexists _, _, _, _. split_and!; [done|done|lia].
    + destruct (reject_total st Hst t Ht i b n src prepend rtp k) as [r ->]; [done|lia|done|].
      rewrite bind_Done. by eexists _, _, _, _.
Qed.

(** ** A sample setup *)

Definition sample_peer_config (server : bool) (m : ObfsMode) : PeerConfig :=
  mkPeer (bs "gut0") 1420 None Allow (bs "10.0.0.1/30") ip_unspecified (V4 [203; 0; 113; 10]) false
    server [5060; 10000] [5060; 10000] (replicate 32 7) 30 1500 true (bs "127.0.0.1:51820")
    (bs "example.com") m 0.

Definition sample_setup (server : bool) (m : ObfsMode) : setup :=
  mkSetup (sample_peer_config server m) (chacha_init (replicate 32 7)) 4
    (window 4 4 (chacha_init (replicate 32 7))) server m (mkAddr (V4 [127; 0; 0; 1]) 51820) false
    (Some (mkAddr (V4 [203; 0; 113; 10]) 5060))
    [mkAddr ip_unspecified 5060; mkAddr ip_unspecified 10000] (mkAddr (V4 [127; 0; 0; 1]) 51820).

Definition sample_clock : clock := mkClock 123456789 1773756800 1773756800123456.

Lemma sample_setup_ok server m : setup_ok (sample_setup server m).
Proof.
  split.
  - apply chacha_init_wf; [|done]. by apply Forall_replicate.
  - apply Nat.leb_le. reflexivity.
  - split; [done|]. repeat (apply Forall_cons; split; [by split|]). constructor.
Qed.

Lemma sample_clock_wf : clock_wf sample_clock.
Proof. by split. Qed.

Lemma zero_bufs_ok n k : (64 ≤ k)%nat → (3 * (k / 4) ≤ n)%nat →
  ingress_bufs (replicate n 0) (replicate k 0).
Proof. intros Hk Hn. split; rewrite ?length_replicate; try done; by apply Forall_replicate. Qed.

Lemma ingress_total_witness :
  ∃ s' ob b r, ingress_packet (sample_setup true Quic) sample_clock 0 init_shared (replicate 100 0)
      (replicate 80 0) 77 sample_addr = Done (s', ob, b, r) ∧
    length ob = length (replicate 100 0) ∧ length b = length (replicate 80 0).
Proof.
  apply (ingress_total (sample_setup true Quic) sample_clock 0 init_shared (replicate 100 0)
           (replicate 80 0) 77 sample_addr).
  - apply sample_setup_ok.
  - apply sample_clock_wf.
  - apply zero_bufs_ok; apply Nat.leb_le; reflexivity.
  - apply Nat.leb_le. reflexivity.
  - apply sample_addr_ok.
Defined.

(** ** Only verified traffic gets through *)

Lemma detect_true st buf size prepend b m : detect st buf size prepend = Done (b, true, m) →
  ∃ q, obfs_verify buf size (s_key_init st) (s_rounds st) (if q : bool then Quic else Gut) = Done true
    ∨ ∃ start b', slice buf 0 6 = Done start ∧ copy_from_slice buf 0 6 start = Done b' ∧
        obfs_verify b' size (s_key_init st) (s_rounds st) Gut = Done true.
Proof.
  unfold detect, verify_quic, verify. intros H. destruct (s_is_server st).
  - apply bind_Done_inv in H as (start & Hs & (q & Hq & H)%bind_Done_inv).
    destruct q.
    + exists true. left. apply bind_Done_inv in Hq as ([|] & _ & Hq); [done|by injection Hq].
    + apply bind_Done_inv in H as (b' & Hb' & (g & Hg & H)%bind_Done_inv).
      exists false. right. exists start, b'. split_and!; [done..|]. by destruct g.
  - destruct (negb (is_quic _)).
    + apply bind_Done_inv in H as (g & Hg & H). injection H as <- -> <-.
      exists false. left. destruct (_ <=? _)%nat; [done|by injection Hg].
    + apply bind_Done_inv in H as (g & Hg & H). injection H as <- -> <-.
      exists true. left. apply bind_Done_inv in Hg as ([|] & _ & Hg); [done|by injection Hg].
Qed.

(** The datagram carries the tag of a holder of the key: as received, after
    its envelope has been removed. *)
Definition authenticated (st : setup) (out_buf buf : list Z) (size : nat) : Prop :=
  ∃ ob b n prepend rtp k q,
    unwrap_envelope out_buf buf size = Done (ob, b, n, UData prepend rtp k) ∧
    obfs_verify b n (s_key_init st) (s_rounds st) (if q : bool then Quic else Gut) = Done true.

Lemma detect_authenticated st out_buf buf size ob b n prepend rtp k b' m :
  unwrap_envelope out_buf buf size = Done (ob, b, n, UData prepend rtp k) →
  detect st b n prepend = Done (b', true, m) → authenticated st out_buf buf size.
Proof.
  intros Hu Hd. apply detect_true in Hd as (q & [Hv | (start & b2 & Hs & Hc & Hv)]).
  { by exists ob, b, n, prepend, rtp, k, q. }
  exists ob, b, n, prepend, rtp, k, false. split; [done|].
  assert (Hl : (6 ≤ length b)%nat).
  { unfold slice in Hs. destruct (_ && _) eqn:E; [|done].
    apply andb_true_iff in E as [_ E%Nat.leb_le]. done. }
  rewrite slice_Done in Hs by lia. injection Hs as <-.
  rewrite copy_start_same in Hc by done. by injection Hc as ->.
Qed.

(** A datagram that is refused is answered, if at all, by a server, to its
    source. *)
Lemma reject_answer st t i buf size src prepend rtp k r :
  reject st t i buf size src prepend rtp k = Done r →
  r = None ∨ s_is_server st = true ∧ ∃ p, r = Some (mkSend (Ext i) p src).
Proof.
  unfold reject. intros Hr. destruct (s_is_server st); cbn [negb] in Hr.
  2: { injection Hr as <-. by left. }
  destruct (_ && _).
  { apply bind_Done_inv in Hr as (p & _ & Hr). injection Hr as <-. right.
    split; [done|]. by exists p. }
  destruct (is_quic _); [|injection Hr as <-; by left].
  apply bind_Done_inv in Hr as ([vn [n'|]] & _ & Hr); [|injection Hr as <-; by left].
  apply bind_Done_inv in Hr as (p & _ & Hr). injection Hr as <-. right.
  split; [done|]. by exists p.
Qed.

(** C11: a datagram changes the shared state (the learned endpoint, the client
    and mode tables) or reaches WireGuard only if [obfs_verify] accepted it;
    everything else leaves the state as it was and is answered, if at all,
    only by a server, on the same socket and only to the source of the
    datagram. *)
Theorem ingress_authenticated st t i s out_buf buf size src s' ob b r :
  (6 ≤ length buf)%nat →
  ingress_packet st t i s out_buf buf size src = Done (s', ob, b, r) →
  authenticated st out_buf buf size ∨
  s' = s ∧ (r = None ∨ s_is_server st = true ∧ ∃ p, r = Some (mkSend (Ext i) p src)).
Proof.
  intros H6 H. unfold ingress_packet in H.
  apply bind_Done_inv in H as ([[[ob1 b1] n] u] & Hu & H).
  destruct u as [|k|prepend rtp k].
  - right. injection H as <- _ _ <-. by split; [|left].
  - right. destruct (s_is_server st) eqn:Es; [|injection H as <- _ _ <-; by split; [|left]].
    apply bind_Done_inv in H as (p & _ & H). injection H as <- _ _ <-.
    split; [done|]. right. split; [done|]. by exists p.
  - apply bind_Done_inv in H as ([[b2 g] m] & Hd & H). destruct g; cbn [negb] in H.
    + left. by eapply detect_authenticated.
    + right. apply bind_Done_inv in H as (r' & Hr & H). injection H as <- _ _ <-.
      split; [done|]. by eapply reject_answer.
Qed.

Lemma ingress_authenticated_witness :
  (6 ≤ length (replicate 64 0))%nat ∧
  ingress_packet (sample_setup false Gut) sample_clock 1 init_shared (replicate 48 0)
    (replicate 64 0) 20 sample_addr =
    Done (init_shared, replicate 48 0, replicate 64 0, None) ∧
  (authenticated (sample_setup false Gut) (replicate 48 0) (replicate 64 0) 20 ∨
   init_shared = init_shared ∧
     (@None send = None ∨ s_is_server (sample_setup false Gut) = true ∧
        ∃ p, @None send = Some (mkSend (Ext 1) p sample_addr))).
Proof.
  assert (H6 : (6 ≤ length (replicate 64 0))%nat) by (apply Nat.leb_le; reflexivity).
  assert (E : ingress_packet (sample_setup false Gut) sample_clock 1 init_shared (replicate 48 0)
    (replicate 64 0) 20 sample_addr =
    Done (init_shared, replicate 48 0, replicate 64 0, None)) by reflexivity.
  split; [exact H6|]. split; [exact E|].
  exact (ingress_authenticated (sample_setup false Gut) sample_clock 1 init_shared (replicate 48 0)
    (replicate 64 0) 20 sample_addr init_shared (replicate 48 0) (replicate 64 0) None H6 E).
Defined.
