(* ===== verification/ProxyTunnel.v ===== *)
(** * userspace.rs: the tunnel from end to end

    What the egress loop of one end sends, the ingress loop of the other end
    delivers: the envelopes are removed, the mode is recognised and WireGuard
    receives the datagram it was given. *)

From stdpp Require Import gmap.
From S2P Require Import Prelude Words Slices Text CivilDate ChaCha Feistel Base64 Obfs ObfsMask.
From S2P Require Import ObfsRoundtrip Syslog Sip SipProofs SipDate Results StrOps Net Config.
From S2P Require Import SharedAddr Proxy ProxyTotal.
Local Open Scope Z_scope.

(** ** What the recognisers leave alone *)

Lemma syslog_check_other b l : b ≠ 60 → Syslog.check_header (b :: l) = Done None.
Proof.
  intros Hb. unfold Syslog.check_header. destruct (Nat.ltb_spec (length (b :: l)) Syslog.SYSLOG_HDR_BASE)
    as [|Hl]; [done|]. unfold Syslog.SYSLOG_HDR_BASE in Hl.
  rewrite slice_Done, bind_Done by lia. rewrite bool_decide_eq_false_2; [done|].
  by intros [=].
Qed.

(** The initials of the SIP start lines. *)
Definition sip_initial (b : Z) : Prop := b = 73 ∨ b = 82 ∨ b = 77 ∨ b = 79 ∨ b = 83.

Lemma starts_with_other b l p : head p ≠ None → head p ≠ Some b → starts_with (b :: l) p = false.
Proof.
  intros Hn Hb. apply bool_decide_eq_false. destruct p as [|c p]; [done|]. intros [=]. by subst.
Qed.

Lemma sip_check_other b l : ¬ sip_initial b → Sip.check_header (b :: l) = None.
Proof.
  intros Hb. unfold Sip.check_header. destruct (_ <? _)%nat; [done|].
  unfold sip_initial in Hb. rewrite !starts_with_other; [done|..]; try done.
  all: intros [= <-]; tauto.
Qed.

Lemma rtp_check_other b l : Z.land b 0xC0 ≠ 0x80 → Sip.check_rtp_header (b :: l) = Done false.
Proof.
  intros Hb. unfold Sip.check_rtp_header. destruct (_ <? _)%nat; [done|].
  rewrite (get_total (b :: l) 0), bind_Done by (simpl; lia).
  change ((b :: l) !!! 0%nat) with b. by apply Z.eqb_neq in Hb as ->.
Qed.

(** ** Removing the envelopes *)

(** [p] is an envelope around [D]: whatever it is received with, the slot
    starts with [D] afterwards. *)
Definition carries (p D : list Z) (prepend : option ObfsMode) : Prop :=
  ∀ out_buf rest, (length D ≤ length out_buf)%nat →
    ∃ ob rest' rtp k,
      unwrap_envelope out_buf (p ++ rest) (length p)
      = Done (ob, D ++ rest', length D, UData prepend rtp k) ∧
      length (D ++ rest') = length (p ++ rest).

Lemma slice_whole (p rest : list Z) : slice (p ++ rest) 0 (length p) = Done p.
Proof.
  rewrite slice_Done by (rewrite ?length_app; lia). f_equal.
  by rewrite Nat.sub_0_r, window_0, take_app_length.
Qed.

Lemma slice_behind (h p rest : list Z) :
  slice ((h ++ p) ++ rest) (length h) (length (h ++ p)) = Done p.
Proof.
  rewrite slice_Done by (rewrite ?length_app; lia). f_equal.
  rewrite length_app, <- app_assoc, window_app_ge by lia.
  replace (length h + length p - length h)%nat with (length p) by lia.
  by rewrite Nat.sub_diag, window_0, take_app_length.
Qed.

(** A datagram without an envelope. *)
Lemma carries_plain p : Syslog.check_header p = Done None → Sip.check_header p = None →
  Sip.check_rtp_header p = Done false → carries p p None.
Proof.
  intros H1 H2 H3 out_buf rest _. exists out_buf, rest, false, Sip.Response401.
  unfold unwrap_envelope. by rewrite slice_whole, bind_Done, H1, bind_Done, H2, H3.
Qed.

Lemma b64_longer l : (length l ≤ length (b64 l))%nat.
Proof.
  rewrite length_b64. pose proof (Nat.div_mod_eq (length l + 2) 3).
  pose proof (Nat.mod_upper_bound (length l + 2) 3). lia.
Qed.

(** The decoded payload replaces the start of the slot. *)
Lemma decode_back out_buf h D rest : bytes D → (length D ≤ length out_buf)%nat →
  ∃ ob rest', Base64.decode (b64 D) out_buf = Done (ob, Some (length D)) ∧
    copy_decoded ((h ++ b64 D) ++ rest) ob (length D) = Done (D ++ rest') ∧
    length (D ++ rest') = length ((h ++ b64 D) ++ rest).
Proof.
  intros HD Hl. pose proof (b64_longer D) as Hb.
  rewrite decode_b64 by done. eexists _, _. split; [done|].
  rewrite copy_decoded_Done by (rewrite ?length_inserts, ?length_app; lia).
  rewrite list_inserts_app by (simpl; lia). rewrite take_0, app_nil_l, Nat.add_0_l, take_app_length.
  split; [done|]. rewrite length_app, length_drop, !length_app. lia.
Qed.

Lemma carries_syslog h D : bytes D → Syslog.check_header (h ++ b64 D) = Done (Some (length h)) →
  carries (h ++ b64 D) D (Some Syslog).
Proof.
  intros HD Hc out_buf rest Hl.
  destruct (decode_back out_buf h D rest HD Hl) as (ob & rest' & Hd & Hcp & Hlen).
  exists ob, rest', false, Sip.Response401. unfold unwrap_envelope.
  rewrite slice_whole, bind_Done, Hc, bind_Done, slice_behind, bind_Done, Hd, bind_Done.
  by rewrite Hcp, bind_Done.
Qed.

Lemma carries_sip h D : bytes D → (0 < length D)%nat →
  Syslog.check_header (h ++ b64 D) = Done None → Sip.check_header (h ++ b64 D) = Some (length h) →
  carries (h ++ b64 D) D (Some Sip).
Proof.
  intros HD H0 Hs Hc out_buf rest Hl.
  destruct (decode_back out_buf h D rest HD Hl) as (ob & rest' & Hd & Hcp & Hlen).
  eexists ob, rest', false, _. unfold unwrap_envelope.
  rewrite slice_whole, bind_Done, Hs, bind_Done, Hc. cbv zeta.
  rewrite slice_behind, bind_Done, Hd, bind_Done.
  apply Nat.ltb_lt in H0 as ->. by rewrite Hcp, bind_Done.
Qed.

Lemma carries_rtp h D : length h = Sip.RTP_HEADER_LEN → Syslog.check_header (h ++ D) = Done None →
  Sip.check_header (h ++ D) = None → Sip.check_rtp_header (h ++ D) = Done true →
  carries (h ++ D) D (Some Sip).
Proof.
  intros Hh H1 H2 H3 out_buf rest _. eexists out_buf, _, true, Sip.Response401.
  unfold unwrap_envelope. rewrite slice_whole, bind_Done, H1, bind_Done, H2, H3, bind_Done.
  rewrite copy_within_Done, bind_Done by (rewrite ?length_app, ?Hh; lia).
  rewrite <- Hh. replace (length (h ++ D) - length h)%nat with (length D) by len.
  rewrite <- (app_assoc h D rest), window_app_ge, Nat.sub_diag, window_0, take_app_length by lia.
  rewrite list_inserts_app by (rewrite !length_app; lia). rewrite take_0, app_nil_l, Nat.add_0_l.
  split; [done|]. rewrite length_app, length_drop, !length_app. lia.
Qed.

(** ** Putting them on *)

(** What the texts of an envelope are made of. *)
Lemma value_app a b : header_value a → header_value b → header_value (a ++ b).
Proof. intros [??] [??]. split; by apply Forall_app_2. Qed.

Lemma value_const l : bool_decide (header_value l) = true → header_value l.
Proof. apply bool_decide_eq_true. Qed.

Lemma pad0_value w n : 0 ≤ n → header_value (pad0 w (dec n)).
Proof. split; eauto with sip. Qed.

Lemma dec_value n : 0 ≤ n → header_value (dec n).
Proof. split; eauto with sip. Qed.

Lemma ip_value ip : ip_ok ip → header_value (show_ip ip).
Proof.
  intros Hip. destruct (show_ip_text ip Hip) as [HF _].
  split; (eapply Forall_impl; [exact HF|]); intros b Hb ->; by destruct Hb as [?|[?|?]].
Qed.

Lemma date_text_value now : clock_ok now → header_value (date_text now).
Proof.
  intros Hn. unfold date_text. destruct (sip_civil_calendar now Hn) as [_ Hr].
  destruct (calendar (day_of now)) as [[y m] d].
  assert (Hd : header_value (day_name (weekday_of now))).
  { pose proof (Z.mod_pos_bound (now / 86400 + 4) 7 eq_refl) as Hw. fold (weekday_of now) in Hw.
    revert Hw. generalize (weekday_of now). unfold day_name.
    apply (check_below_P (λ w, header_value (Sip.DAYS !!! Z.to_nat w)) 7). reflexivity. }
  assert (Hm : header_value (month_name m)).
  { assert (Hm' : 0 ≤ m - 1 < 12) by lia. revert Hm'. unfold month_name. generalize (m - 1).
    apply (check_below_P (λ w, header_value (Sip.MONTHS !!! Z.to_nat w)) 12). reflexivity. }
  repeat first [done | apply pad0_value; lia | apply dec_value; lia | by apply value_const
               | apply value_app].
Qed.

(** A prefix that was written is what is sent. *)
Lemma slice_inserts (k b : list Z) : (length k ≤ length b)%nat →
  slice (list_inserts 0 k b) 0 (length k) = Done k.
Proof.
  intros H. rewrite list_inserts_app by (simpl; lia). rewrite take_0, app_nil_l. apply slice_whole.
Qed.

Lemma inserts_behind (k1 k2 b : list Z) :
  list_inserts (length k1) k2 (list_inserts 0 k1 b) = list_inserts 0 (k1 ++ k2) b.
Proof. by rewrite list_inserts_app_r. Qed.

Lemma inserts_before (k1 k2 b : list Z) : (length k1 + length k2 ≤ length b)%nat →
  list_inserts 0 k1 (list_inserts (length k1) k2 b) = list_inserts 0 (k1 ++ k2) b.
Proof.
  intros H. rewrite (list_inserts_app (length k1)) by lia.
  rewrite !(list_inserts_app 0) by (rewrite ?length_app, ?length_take, ?length_drop; lia).
  rewrite !take_0, !app_nil_l, !Nat.add_0_l, <- app_assoc. f_equal.
  rewrite drop_app_length' by (rewrite length_take; lia). by rewrite length_app.
Qed.

(** Encoding behind the first [h] bytes. *)
Lemma encode_behind out_buf h D : bytes D → (h + length (b64 D) ≤ length out_buf)%nat →
  (tail ← slice_from out_buf h; '(tail, n) ← encode D tail; Done (take h out_buf ++ tail, n))
  = Done (list_inserts h (b64 D) out_buf, length (b64 D)).
Proof.
  intros HD Hl. unfold slice_from. rewrite slice_Done, bind_Done by lia.
  assert (Hw : window h (length out_buf - h) out_buf = drop h out_buf)
    by (unfold window; apply take_ge; rewrite length_drop; lia).
  rewrite Hw, encode_Done by (rewrite ?length_drop; done || lia). rewrite bind_Done.
  do 2 f_equal. rewrite list_inserts_app by (rewrite length_drop; lia).
  rewrite (list_inserts_app h) by lia. by rewrite take_0, app_nil_l, drop_drop.
Qed.

(** A sender whose texts can be told apart and whose ports are bound. *)
Record sender_ok (st : setup) : Prop := {
  sn_setup : setup_ok st;
  sn_value : header_value (sip_domain (s_peer st));
  sn_name : Forall (λ b, b ≠ SPACE) (sip_domain (s_peer st));
  sn_short : (length (sip_domain (s_peer st)) ≤ 32)%nat;
  sn_ports : Forall is_u16 (peer_ports (s_peer st));
  sn_binds : (1 ≤ length (peer_ports (s_peer st)) ≤ length (s_ext_binds st))%nat;
  sn_wg : is_u16 (sa_port (s_wg_addr st))
}.

(** Clock readings before the year 10000 (and before 10^17 microseconds). *)
Record clock_sane (t : clock) : Prop := {
  cs_wf : clock_wf t;
  cs_year : (calendar (day_of (t_secs t))).1.1 < 10000;
  cs_us : t_us t < 10 ^ 17
}.

Section egress.
  Context (st : setup) (Hst : sender_ok st) (t : clock) (Ht : clock_sane t).
  Context (D : list Z) (HD : bytes D) (Hlen : (32 ≤ length D)%nat).
  Context (out_buf : list Z) (Hout : (1024 + length (b64 D) ≤ length out_buf)%nat).

Lemma wrap_syslog_carries tail :
  ∃ ob p, wrap_syslog st t out_buf (D ++ tail) (length D) = Done (ob, p) ∧
    carries p D (Some Syslog).
Proof.
  destruct Hst as [_ _ Hname Hshort _ _ _]. destruct Ht as [[Hc _] Hy _]. unfold clock_ok in Hc.
  destruct (Syslog.header_spec out_buf (sip_domain (s_peer st)) (b64 D) (t_secs t))
    as (text & _ & Htl & Hw & Hck); [|done|done|done| |].
  { split; [apply Z.div_pos; lia|apply Z.div_lt_upper_bound; lia]. }
  { unfold Syslog.header_len, Syslog.SYSLOG_HDR_BASE. lia. }
  assert (Hh : (Syslog.header_len (sip_domain (s_peer st)) ≤ 68)%nat)
    by (unfold Syslog.header_len, Syslog.SYSLOG_HDR_BASE; lia).
  unfold wrap_syslog. rewrite Hw, bind_Done, slice_whole, bind_Done, <- Htl in *.
  pose proof (encode_behind (list_inserts 0 text out_buf) (length text) D HD
    ltac:(rewrite length_inserts; lia)) as He.
  apply bind_Done_inv in He as (tl & -> & He). rewrite bind_Done.
  apply bind_Done_inv in He as ([tl' n] & -> & He). rewrite bind_Done.
  injection He as -> ->. rewrite inserts_behind, <- length_app, slice_inserts, bind_Done
    by (rewrite length_app; lia).
  eexists _, _. split; [done|]. by apply carries_syslog.
Qed.

Lemma u32_low16 v : is_u32 v → is_u16 (Z.land v 0xFFFF).
Proof.
  intros _. change 0xFFFF with (Z.ones 16). rewrite Z.land_ones by lia.
  unfold in_width. apply Z.mod_pos_bound. lia.
Qed.

Lemma wrap_rtp_carries tail dcid d : is_u32 dcid →
  ∃ ob p d' i, wrap_rtp st out_buf (D ++ tail) (length D) dcid d = Done (ob, p, d', i) ∧
    carries p D (Some Sip) ∧ sa_ip d' = sa_ip d ∧ (i < length (s_ext_binds st))%nat.
Proof.
  intros Hdc. destruct Hst as [_ _ _ _ _ Hb _]. pose proof (b64_longer D).
  pose proof (nonce_of_range D HD) as Hts.
  destruct (rtp_spec out_buf (Z.land (nonce_of D) 0xFFFF) (nonce_of D) dcid D)
    as (h & Hw & Hh & Hck & _ & _ & _ & Hh0); [by apply u32_low16|done|done|lia|].
  assert (Hc : carries (h ++ D) D (Some Sip)).
  { apply carries_rtp; [done| | |done]; destruct h as [|b h]; simplify_eq/=;
      [by apply syslog_check_other|]. apply sip_check_other. unfold sip_initial. lia. }
  unfold wrap_rtp. rewrite slice_whole, bind_Done, wg_nonce32_Done, bind_Done. cbv zeta.
  rewrite Hw, bind_Done, copy_next, bind_Done by (rewrite ?Hh; unfold Sip.RTP_HEADER_LEN; lia).
  rewrite <- Hh, <- length_app, slice_inserts by (rewrite length_app, Hh; unfold Sip.RTP_HEADER_LEN; lia).
  destruct (Nat.ltb_spec 1 (length (peer_ports (s_peer st)))) as [H1|H1].
  - assert (Hi : (1 + Z.to_nat (nonce_of D mod Z.of_nat (length (peer_ports (s_peer st)) - 1))
                  < length (peer_ports (s_peer st)))%nat).
    { pose proof (Z.mod_pos_bound (nonce_of D) (Z.of_nat (length (peer_ports (s_peer st)) - 1))
        ltac:(lia)). lia. }
    rewrite get_total, !bind_Done by done. eexists _, _, _, _. split_and!; [done|done|done|lia].
  - rewrite !bind_Done. eexists _, _, _, _. split_and!; [done|done|done|lia].
Qed.

(** A SIP message does not start like a syslog line. *)
Lemma header_texts_first kind domain src_ip dst_ip sport dport rtp_port n key date us :
  ∃ b tl, concat (Sip.header_texts kind domain src_ip dst_ip sport dport rtp_port n key date us)
          = b :: tl ∧ b ≠ 60.
Proof. destruct kind; eexists _, _; (split; [reflexivity|done]). Qed.

Lemma u16_bounds p : is_u16 p → 0 ≤ p < 65536.
Proof. done. Qed.

Lemma rtp_port_u16 : is_u16 (default 10000 (peer_ports (s_peer st) !! 1%nat)).
Proof.
  destruct Hst as [_ _ _ _ Hp _ _]. destruct (_ !! _) as [p|] eqn:E; cbn [default].
  - by eapply Forall_lookup_1 in Hp.
  - unfold in_width. lia.
Qed.

(** The header of a message to [d] with a payload of the length of [D]. *)
Lemma sip_header_carries kind src d : addr_ok src → addr_ok d →
  Z.of_nat (length (b64 D)) ≤ 1000000 →
  let text := concat (Sip.header_texts kind (sip_domain (s_peer st)) (show_ip (sa_ip src))
    (show_ip (sa_ip d)) (sa_port src) (sa_port d) (default 10000 (peer_ports (s_peer st) !! 1%nat))
    (length (b64 D)) (s_auth_key st) (date_text (t_secs t)) (t_us t)) in
  (length text ≤ 1024)%nat ∧ carries (text ++ b64 D) D (Some Sip).
Proof.
  intros [Hsi Hsp] [Hdi Hdp] Hb text. pose proof rtp_port_u16 as Hrp.
  destruct Hst as [_ Hval _ Hshort _ _ _]. destruct Ht as [[Hc Hus0] _ Hus].
  assert (H0 : (0 < length (b64 D))%nat) by (pose proof (b64_longer D); lia).
  split.
  - pose proof (header_texts_length kind (sip_domain (s_peer st)) (show_ip (sa_ip src))
      (show_ip (sa_ip d)) (sa_port src) (sa_port d) _ (length (b64 D)) (s_auth_key st)
      (date_text (t_secs t)) (t_us t) (proj2 (show_ip_text _ Hsi)) (proj2 (show_ip_text _ Hdi))
      (date_text_length _ Hc) (u16_bounds _ Hsp) (u16_bounds _ Hdp) (u16_bounds _ Hrp) Hus0
      (or_intror (conj Hus Hb))) as Hl.
    fold text in Hl. apply Nat.ltb_lt in H0. rewrite H0 in Hl. lia.
  - destruct (header_texts_first kind (sip_domain (s_peer st)) (show_ip (sa_ip src))
      (show_ip (sa_ip d)) (sa_port src) (sa_port d) (default 10000 (peer_ports (s_peer st) !! 1%nat))
      (length (b64 D)) (s_auth_key st) (date_text (t_secs t)) (t_us t)) as (b & tl & Hf & Hb60).
    fold text in Hf. apply carries_sip; [done|lia| |].
    + rewrite Hf. by apply syslog_check_other.
    + unfold text. rewrite header_texts_flat. apply check_header_texts; try done.
      * by apply ip_value.
      * by apply ip_value.
      * by apply date_text_value.
      * apply (u16_bounds _ Hsp).
      * apply (u16_bounds _ Hdp).
      * apply (u16_bounds _ Hrp).
      * intros E. lia.
Qed.

Lemma wrap_sip_carries tail wg_type wg_size src d : addr_ok src → addr_ok d →
  Z.of_nat (length (b64 D)) ≤ 1000000 → sip_kind_of wg_type wg_size ≠ Sip.Options →
  ∃ ob p d', wrap_sip st t out_buf (D ++ tail) (length D) wg_type wg_size src d
             = Done (ob, p, d', 0%nat) ∧
    carries p D (Some Sip) ∧ sa_ip d' = sa_ip d.
Proof.
  intros Hsrc Hd Hb Hk. unfold wrap_sip. cbv zeta.
  set (kind := sip_kind_of wg_type wg_size) in *. clearbody kind.
  destruct (sip_header_carries kind src d Hsrc Hd Hb) as [Htl Hc].
  destruct Ht as [[Hck Hus] _ _]. destruct Hst as [_ _ _ _ _ Hbd _].
  assert (He : (match kind with
    | Sip.Options => Done (out_buf, 0%nat)
    | _ =>
        dg ← slice (D ++ tail) 0 (length D);
        tl ← slice_from out_buf Sip.MAX_SIP_HEADER_LEN;
        '(tl, n) ← encode dg tl;
        Done (take Sip.MAX_SIP_HEADER_LEN out_buf ++ tl, n)
    end) = Done (list_inserts Sip.MAX_SIP_HEADER_LEN (b64 D) out_buf, length (b64 D))).
  { destruct kind; try done; rewrite slice_whole, bind_Done; by apply encode_behind. }
  rewrite He, bind_Done, format_sip_date_only_Done, bind_Done by done.
  rewrite sip_write_header_Done, bind_Done
    by (rewrite ?length_replicate; unfold Sip.MAX_SIP_HEADER_LEN; done).
  set (text := concat _) in *. clearbody text. unfold Sip.MAX_SIP_HEADER_LEN.
  rewrite copy_within_Done, bind_Done by (rewrite ?length_inserts; lia).
  replace (1024 + length (b64 D) - 1024)%nat with (length (b64 D)) by lia.
  rewrite window_inserts_eq by (done || lia).
  rewrite slice_inserts, bind_Done by (rewrite length_replicate; lia).
  rewrite copy_from_slice_Done, bind_Done by (rewrite ?length_inserts; lia).
  rewrite get_total, bind_Done by lia.
  rewrite inserts_before by (rewrite ?length_inserts; lia).
  rewrite <- length_app, slice_inserts, bind_Done by (rewrite ?length_inserts, length_app; lia).
  eexists _, _, _. by split_and!.
Qed.
End egress.

(** ** The mode of a datagram *)

Definition prepend_of (m : ObfsMode) : option ObfsMode :=
  match m with Syslog => Some Syslog | Sip => Some Sip | _ => None end.

(** Nothing in front of the datagram would be taken for an envelope. *)
Definition plain (D : list Z) : Prop :=
  Syslog.check_header D = Done None ∧ Sip.check_header D = None ∧
  Sip.check_rtp_header D = Done false.

(** The datagrams a receiver takes for something else: random bytes without
    an envelope that start like one, and, at a server, which tries QUIC first,
    random bytes that pass for QUIC. *)
Definition unmistaken (rc : setup) (m : ObfsMode) (D : list Z) : Prop :=
  (m = Gut → plain D) ∧
  (is_quic m = false → s_is_server rc = true →
     ∀ rest, verify_quic rc (D ++ rest) (length D) = Done false).

Lemma quic_first b : b = 0x40 ∨ Z.land b 0xC0 = 0xC0 →
  Z.land b 0x40 = 0x40 ∧ b ≠ 60 ∧ ¬ sip_initial b ∧ Z.land b 0xC0 ≠ 0x80.
Proof.
  intros [-> | Hb]; [split_and!; try done; unfold sip_initial; lia|].
  assert (H6 : Z.land b 0x40 = 0x40).
  { change 0x40 with (Z.land 0xC0 0x40). by rewrite Z.land_assoc, Hb. }
  split_and!; [done| | |by rewrite Hb]; unfold sip_initial; intros Hx;
    repeat destruct Hx as [Hx|Hx]; subst b; discriminate.
Qed.

Lemma quic_plain D : (0 < length D)%nat → D !!! 0%nat = 0x40 ∨ Z.land (D !!! 0%nat) 0xC0 = 0xC0 →
  plain D.
Proof.
  destruct D as [|b D]; [simpl; lia|]. intros _ Hb. destruct (quic_first _ Hb) as (_ & ? & ? & ?).
  split_and!; [by apply syslog_check_other|by apply sip_check_other|by apply rtp_check_other].
Qed.

Lemma obfs_verify_mode buf n key rounds m m' : is_quic m = is_quic m' →
  obfs_verify buf n key rounds m = obfs_verify buf n key rounds m'.
Proof. intros H. unfold obfs_verify, verify_hdr_len. by rewrite H. Qed.

Lemma obfs_decap_mode buf n key rounds m m' : is_quic m = is_quic m' →
  obfs_decap buf n key rounds m = obfs_decap buf n key rounds m'.
Proof. intros H. unfold obfs_decap, decap_hdr_len. by rewrite H. Qed.

Lemma is_quic_true m : is_quic m = true ↔ m = Quic.
Proof. unfold is_quic. by rewrite bool_decide_eq_true. Qed.

Lemma default_prepend m : is_quic m = false → default Gut (prepend_of m) = m.
Proof. by destruct m. Qed.

Section ingress.
  Context (rc : setup) (m : ObfsMode) (D : list Z) (Hlen : (42 ≤ length D)%nat).
  Context (Hmode : s_is_server rc = true ∨ is_quic (s_obfs rc) = is_quic m).
  Context (Hfirst : is_quic m = true → D !!! 0%nat = 0x40 ∨ Z.land (D !!! 0%nat) 0xC0 = 0xC0).
  Context (Hver : ∀ rest, obfs_verify (D ++ rest) (length D) (s_key_init rc) (s_rounds rc) m
                          = Done true).

(** The mode the receiver settles on. *)
Definition seen_mode : ObfsMode := if s_is_server rc then m else s_obfs rc.

Lemma seen_mode_quic : is_quic seen_mode = is_quic m.
Proof. unfold seen_mode. destruct Hmode as [-> | H]; [done|]. by destruct (s_is_server rc). Qed.

Lemma verify_quic_true rest : is_quic m = true →
  verify_quic rc (D ++ rest) (length D) = Done true.
Proof.
  intros Hq. destruct (quic_first _ (Hfirst Hq)) as [H6 _]. unfold verify_quic, looks_quic.
  rewrite get_total, !bind_Done by (rewrite length_app; lia).
  rewrite lookup_total_app_l by lia. rewrite H6. cbn [Z.eqb Pos.eqb orb].
  unfold verify. rewrite <- (Hver rest). apply obfs_verify_mode. by rewrite Hq.
Qed.

Lemma detect_seen rest : unmistaken rc m D →
  detect rc (D ++ rest) (length D) (prepend_of m) = Done (D ++ rest, true, seen_mode).
Proof.
  intros [_ Hno]. unfold detect, seen_mode. pose proof (verify_quic_true rest) as Hvq.
  assert (Hl : (6 ≤ length (D ++ rest))%nat) by (rewrite length_app; lia).
  assert (Hg : is_quic m = false → verify rc (D ++ rest) (length D) Gut = Done true).
  { intros Hq. unfold verify. rewrite <- (Hver rest). apply obfs_verify_mode. by rewrite Hq. }
  destruct (s_is_server rc) eqn:Es.
  - rewrite slice_Done, bind_Done by lia. rewrite Nat.sub_0_r. destruct (is_quic m) eqn:Eq.
    + rewrite Hvq, bind_Done by done. apply is_quic_true in Eq as ->. done.
    + rewrite Hno, bind_Done, copy_start_same, bind_Done, Hg, bind_Done by done.
      by rewrite default_prepend.
  - destruct Hmode as [?|Hm]; [done|]. rewrite Hm. destruct (is_quic m) eqn:Eq; cbn [negb].
    + apply is_quic_true in Hm as ->. by rewrite Hvq, bind_Done.
    + unfold GUT_QUIC_SHORT_HEADER_SIZE. destruct (Nat.leb_spec (16 + 16) (length D)); [|lia].
      by rewrite Hg, bind_Done.
Qed.
End ingress.

(** ** Delivery *)

(** Where a receiver hands WireGuard's datagrams. *)
Definition wg_dest (st : setup) (s : shared) : option SocketAddr :=
  if s_is_server st then Some (s_wg_addr st) else load (wg_peer s).

Lemma learn_client_Done st s buf n src : (8 ≤ length buf)%nat →
  ∃ s', learn_client st s buf n src = Done s' ∧
    wg_peer s' = wg_peer s ∧ peer_ext s' = peer_ext s ∧ client_obfs s' = client_obfs s ∧
    session_map s' = session_map s.
Proof.
  intros Hl. unfold learn_client. destruct (negb _); [by eexists|].
  rewrite get_total, bind_Done by lia. cbv zeta.
  case_bool; [|case_bool; [|by eexists]]; rewrite read_u32_le_Done, bind_Done by lia.
  - case_bool; by eexists.
  - destruct (_ !! _); by eexists.
Qed.

Lemma accept_delivers st s buf size src m back n sp dp :
  cells_ok (peer_ext s) → addr_ok src → (8 ≤ n ≤ length back)%nat →
  obfs_decap buf size (s_key_init st) (s_rounds st) m = Done (back, Some (n, sp, dp)) →
  ∃ s', Proxy.accept st s buf size src m
        = Done (s', back, (λ w, mkSend Local (take n back) w) <$> wg_dest st s) ∧
    load (peer_ext s') = Some src ∧ (s_is_server st = true → client_obfs s' !! src = Some m).
Proof.
  intros Hc Ha Hn Hd. unfold Proxy.accept. rewrite Hd, bind_Done.
  set (s0 := if s_is_server st then _ else s).
  set (s1 := mkShared (wg_peer s0) (store (peer_ext s0) src) _ _ _).
  assert (H0 : wg_peer s0 = wg_peer s ∧ peer_ext s0 = peer_ext s ∧
    (s_is_server st = true → client_obfs s0 !! src = Some m)).
  { subst s0. destruct (s_is_server st); split_and!; try done. intros _. apply lookup_insert_eq. }
  destruct H0 as (Hw0 & Hp0 & Ho0).
  destruct (learn_client_Done st s1 back n src ltac:(lia)) as (s' & -> & Hw & Hp & Ho & _).
  rewrite bind_Done, Hw. change (wg_peer s1) with (wg_peer s0). rewrite Hw0.
  fold (wg_dest st s). exists s'. split; [|split].
  - rewrite slice_Done, Nat.sub_0_r, window_0 by lia. by destruct (wg_dest st s).
  - rewrite Hp. change (peer_ext s1) with (store (peer_ext s0) src).
    rewrite Hp0, store_published by done. by apply load_published.
  - intros Hs. rewrite Ho. by apply Ho0.
Qed.

(** The two ends of a tunnel: the same key, and a client that expects the
    family of modes it is sent. *)
Record tunnel (sc rc : setup) (m : ObfsMode) : Prop := {
  tn_sender : sender_ok sc;
  tn_key : s_key_init rc = s_key_init sc;
  tn_rounds : s_rounds rc = s_rounds sc;
  tn_mode : s_is_server rc = true ∨ is_quic (s_obfs rc) = is_quic m
}.

(** The mode a sender uses towards [d]. *)
Definition encap_mode (sc : setup) (s : shared) (d : SocketAddr) : ObfsMode :=
  if s_is_server sc then default (s_obfs sc) (client_obfs s !! d) else s_obfs sc.

Lemma sip_kind_of_payload wg_type wg_size : (wg_type, wg_size) ≠ (4, 32%nat) →
  sip_kind_of wg_type wg_size ≠ Sip.Options.
Proof.
  intros H. unfold sip_kind_of. repeat case_bool; subst; simpl; try done.
Qed.

Lemma egress_wrap_carries sc t m D out_buf tail dcid wg_type wg_size src d :
  sender_ok sc → clock_sane t → (32 ≤ length D)%nat → (is_quic m = false → bytes D) →
  (is_quic m = true → D !!! 0%nat = 0x40 ∨ Z.land (D !!! 0%nat) 0xC0 = 0xC0) →
  is_u32 dcid → addr_ok src → addr_ok d →
  (1024 + length (b64 D) ≤ length out_buf)%nat → Z.of_nat (length (b64 D)) ≤ 1000000 →
  (m = Sip → (wg_type, wg_size) ≠ (4, 32%nat)) →
  ∃ ob p d' i, egress_wrap sc t m out_buf (D ++ tail) (length D) dcid wg_type wg_size src d
               = Done (ob, p, d', i) ∧
    ((m = Gut → plain D) → carries p D (prepend_of m)) ∧ sa_ip d' = sa_ip d ∧
    (i < length (s_ext_binds sc))%nat.
Proof.
  intros Hs Ht Hl Hb Hf Hdc Hsrc Hd Ho Hz Hk. pose proof (sn_binds sc Hs) as Hbinds.
  assert (Hplain : plain D → carries D D None) by (intros (?&?&?); by apply carries_plain).
  destruct m; cbn [egress_wrap prepend_of].
  - rewrite slice_whole, bind_Done. eexists _, _, _, _. split_and!; [done| |done|lia].
    intros _. apply Hplain, quic_plain; [lia|by apply Hf].
  - rewrite slice_whole, bind_Done. eexists _, _, _, _. split_and!; [done| |done|lia].
    intros Hg. by apply Hplain, Hg.
  - edestruct (wrap_syslog_carries sc Hs t Ht D) as (ob & p & -> & Hc); [by apply Hb|done..|].
    rewrite bind_Done. eexists _, _, _, _. split_and!; [done|done|done|lia].
  - specialize (Hb eq_refl). destruct (_ && _); 
      [edestruct (wrap_rtp_carries sc Hs D) as (ob & p & d' & i & -> & Hc & Hip & Hi); [done..|];
       by eexists _, _, _, _|].
    edestruct (wrap_sip_carries sc Hs t Ht D Hb Hl out_buf Ho tail wg_type wg_size src d)
      as (ob & p & d' & -> & Hc & Hip); [done..| |eexists _, _, _, _; split_and!; [done..|lia]].
    apply sip_kind_of_payload, Hk, eq_refl.
Qed.

(** Room for the largest header and the padding in a slot, and for the
    envelope in the 64 KiB output buffer. *)
Record egress_room (sc : setup) (m : ObfsMode) (out_buf buf : list Z) (size : nat) : Prop := {
  er_bytes : bytes buf;
  er_size : (32 ≤ size)%nat;
  er_slot : (encap_hdr_len m (s_is_server sc) (Z.land (buf !!! 0%nat) 0x1F) + size + 64
             ≤ length buf)%nat;
  er_max : Z.of_nat (length buf) ≤ 48000;
  er_out : Z.of_nat (length out_buf) = 65536
}.

Lemma b64_room D n : (length D ≤ n)%nat → Z.of_nat n ≤ 48000 →
  Z.of_nat (length (b64 D)) ≤ 64012.
Proof.
  intros Hn Hz. rewrite length_b64. pose proof (Nat.div_mod_eq (length D + 2) 3). lia.
Qed.


Lemma sample_sender_ok server m : sender_ok (sample_setup server m).
Proof.
  split.
  - apply sample_setup_ok.
  - by apply value_const.
  - apply (bool_decide_eq_true _). reflexivity.
  - apply Nat.leb_le. reflexivity.
  - repeat (apply Forall_cons; split; [by split|]). constructor.
  - split; apply Nat.leb_le; reflexivity.
  - by split.
Qed.

Lemma sample_clock_sane : clock_sane sample_clock.
Proof. split; [apply sample_clock_wf|by vm_compute|done]. Qed.

