(* ===== verification/ProxyRouting.v ===== *)
(** * userspace.rs: where a dynamic server sends its answers

    With [peer_ip = dynamic] a server finds the address of a client in the
    tables that the ingress threads ([learn_client]) and the egress thread
    ([egress_route]) keep.  The tables are related to the history of the
    messages they were built from. *)

From stdpp Require Import gmap.
From S2P Require Import Prelude Words Slices Obfs Results Net Config SharedAddr Proxy ProxyTotal.
Local Open Scope Z_scope.

(** The type of a WireGuard message and the index at an offset. *)
Definition wg_type_of (b : list Z) : Z := Z.land (b !!! 0%nat) 0x1F.
Definition index_at (b : list Z) (o : nat) : Z := from_le (window o 4 b).

(** A decapsulated message from the peer at [src], or one from WireGuard. *)
Inductive event := Inbound (b : list Z) (n : nat) (src : SocketAddr) | Outbound (b : list Z) (n : nat).

Definition event_ok (e : event) : Prop :=
  match e with Inbound b _ _ | Outbound b _ => (12 ≤ length b)%nat end.

(** ** The history as the reference *)

(** The client index of session [i]: that of the last handshake response the
    server sent for it. *)
Fixpoint bound (h : list event) (i : Z) : option Z :=
  match h with
  | [] => None
  | Outbound b n :: h =>
      if (wg_type_of b =? 2) && (12 <=? n)%nat && (index_at b 4 =? i) then Some (index_at b 8)
      else bound h i
  | Inbound _ _ _ :: h => bound h i
  end.

(** The client a message from the peer belongs to. *)
Definition client_of (h : list event) (b : list Z) (n : nat) : option Z :=
  if negb (8 <=? n)%nat then None
  else if wg_type_of b =? 1 then (if index_at b 4 =? 0 then None else Some (index_at b 4))
  else if wg_type_of b =? 4 then bound h (index_at b 4)
  else None.

(** Where client [c] is: the source of its last message. *)
Fixpoint located (h : list event) (c : Z) : option SocketAddr :=
  match h with
  | [] => None
  | Inbound b n src :: h => if decide (client_of h b n = Some c) then Some src else located h c
  | Outbound _ _ :: h => located h c
  end.

(** Where a message from WireGuard has to go. *)
Definition destination (h : list event) (b : list Z) (n : nat) : option SocketAddr :=
  if (wg_type_of b =? 2) && (12 <=? n)%nat then located h (index_at b 8)
  else if ((wg_type_of b =? 3) || (wg_type_of b =? 4)) && (8 <=? n)%nat then located h (index_at b 4)
  else None.

(** ** The tables follow it *)

Section routing.
  Context (st : setup) (Hdyn : s_dynamic st = true).

(** One event, and a history (newest first) from the start. *)
Definition apply_event (s : shared) (e : event) : outcome shared :=
  match e with
  | Inbound b n src => learn_client st s b n src
  | Outbound b n => '(s, _) ← egress_route st s b n; Done s
  end.

Fixpoint replay (h : list event) : outcome shared :=
  match h with
  | [] => Done init_shared
  | e :: h => s ← replay h; apply_event s e
  end.

(** The tables agree with the history. *)
Definition tracks (s : shared) (h : list event) : Prop :=
  (∀ c, client_map s !! c = located h c) ∧ (∀ i, session_map s !! i = bound h i).

Lemma learn_client_tracks s h b n src : (12 ≤ length b)%nat → tracks s h →
  ∃ s', learn_client st s b n src = Done s' ∧ tracks s' (Inbound b n src :: h).
Proof.
  intros Hl [Hc Hs]. unfold tracks. cbn [located bound]. unfold learn_client, client_of.
  rewrite Hdyn. cbn [andb]. destruct (8 <=? n)%nat; cbn [negb]; [|by exists s].
  rewrite get_total, bind_Done by lia. cbv zeta. fold (wg_type_of b).
  destruct (Z.eqb_spec (wg_type_of b) 1); [|destruct (Z.eqb_spec (wg_type_of b) 4); [|by exists s]];
    rewrite read_u32_le_Done, bind_Done by lia; fold (index_at b 4).
  - destruct (Z.eqb_spec (index_at b 4) 0); [by exists s|]. eexists. split; [done|].
    split; [|done]. intros c. cbn [client_map]. destruct (decide _) as [[= ->]|Hne].
    + apply lookup_insert_eq.
    + rewrite lookup_insert_ne; [done|congruence].
  - rewrite Hs. destruct (bound h (index_at b 4)) as [c0|]; [|by exists s]. eexists. split; [done|].
    split; [|done]. intros c. cbn [client_map]. destruct (decide _) as [[= ->]|Hne].
    + apply lookup_insert_eq.
    + rewrite lookup_insert_ne; [done|congruence].
Qed.

Lemma egress_route_tracks s h b n : (12 ≤ length b)%nat → tracks s h →
  ∃ s', egress_route st s b n = Done (s', destination h b n) ∧ tracks s' (Outbound b n :: h).
Proof.
  intros Hl [Hc Hs]. unfold tracks. cbn [located bound]. unfold egress_route, destination.
  rewrite Hdyn. cbn [negb]. rewrite get_total, bind_Done by lia. cbv zeta. fold (wg_type_of b).
  destruct (Nat.leb_spec 4 n) as [H4|H4].
  2: { destruct (Nat.leb_spec 12 n); [lia|]. destruct (Nat.leb_spec 8 n); [lia|].
       rewrite !andb_false_r. by exists s. }
  destruct (Z.eqb_spec (wg_type_of b) 1) as [->|]; [by exists s|].
  destruct ((wg_type_of b =? 2) && (12 <=? n)%nat) eqn:E2; cbn [andb].
  - rewrite !read_u32_le_Done, !bind_Done by lia. fold (index_at b 4) (index_at b 8).
    cbn [client_map]. rewrite Hc. eexists. split; [done|]. split; [done|].
    intros i. cbn [session_map]. destruct (Z.eqb_spec (index_at b 4) i) as [<-|].
    + apply lookup_insert_eq.
    + by rewrite lookup_insert_ne.
  - destruct ((_ || _) && _); [|by exists s]. rewrite read_u32_le_Done, bind_Done by lia.
    fold (index_at b 4). rewrite Hc. by exists s.
Qed.

Lemma replay_tracks h : Forall event_ok h → ∃ s, replay h = Done s ∧ tracks s h.
Proof.
  induction h as [|e h IH]; intros HF.
  - exists init_shared. split; [done|]. by split.
  - apply Forall_cons in HF as [He HF]. destruct (IH HF) as (s & Hr & Ht). cbn [replay].
    rewrite Hr, bind_Done. destruct e as [b n src|b n]; cbn [apply_event].
    + by apply learn_client_tracks.
    + destruct (egress_route_tracks s h b n He Ht) as (s' & -> & Ht'). by exists s'.
Qed.
End routing.

(** A dynamic server sends every answer to the address from which the client it
    is meant for was last heard. After any sequence of messages the client
    table holds, for each client index, the source of the last message that
    belongs to it (a handshake initiation with this index, or a data message of
    a session that was last bound to it), and [egress_route] sends a response
    or a data message there; a client that moves is followed. *)
Theorem dynamic_routing st h :
  s_dynamic st = true → Forall event_ok h →
  ∃ s, replay st h = Done s ∧
    (∀ c, client_map s !! c = located h c) ∧ (∀ i, session_map s !! i = bound h i) ∧
    ∀ b n, (12 ≤ length b)%nat → ∃ s', egress_route st s b n = Done (s', destination h b n).
Proof.
  intros Hd HF. destruct (replay_tracks st Hd h HF) as (s & Hr & Ht). exists s.
  split_and!; [done|apply Ht..|]. intros b n Hl.
  destruct (egress_route_tracks st Hd s h b n Hl Ht) as (s' & He & _). by exists s'.
Qed.

(** A client that roams: a handshake from one address, then data from
    another. *)
Definition roaming_history : list event :=
  [Inbound ([4; 0; 0; 0; 9; 0; 0; 0] ++ replicate 24 0) 32 (mkAddr (V4 [198; 51; 100; 7]) 40000);
   Outbound ([2; 0; 0; 0; 9; 0; 0; 0; 5; 0; 0; 0] ++ replicate 80 0) 92;
   Inbound ([1; 0; 0; 0; 5; 0; 0; 0] ++ replicate 140 0) 148 (mkAddr (V4 [203; 0; 113; 10]) 41000)].

(** The setup for a peer whose address is not known. *)
Definition dynamic_setup (st : setup) : setup :=
  mkSetup (s_peer st) (s_key_init st) (s_rounds st) (s_auth_key st) (s_is_server st) (s_obfs st)
    (s_wg_addr st) true None (s_ext_binds st) (s_local_bind st).

Lemma dynamic_routing_witness :
  let st := dynamic_setup (sample_setup true Quic) in
  destination roaming_history ([4; 0; 0; 0; 5; 0; 0; 0] ++ replicate 24 0) 32
    = Some (mkAddr (V4 [198; 51; 100; 7]) 40000) ∧
  ∃ s, replay st roaming_history = Done s ∧
    (∀ c, client_map s !! c = located roaming_history c) ∧
    (∀ i, session_map s !! i = bound roaming_history i) ∧
    ∀ b n, (12 ≤ length b)%nat →
      ∃ s', egress_route st s b n = Done (s', destination roaming_history b n).
Proof.
  intros st. split; [reflexivity|].
  apply (dynamic_routing st roaming_history).
  - reflexivity.
  - repeat (apply Forall_cons; split; [apply Nat.leb_le; reflexivity|]). constructor.
Defined.
