(* ===== verification/ProxySetup.v ===== *)
(** * userspace.rs: the setup of [run]

    What [run] makes of a configured peer: its key, its addresses and its
    sockets, and the peers it refuses. *)

From stdpp Require Import gmap.
From S2P Require Import Prelude Words Slices Text ChaCha Obfs Results StrOps Net Config.
From S2P Require Import ConfigProofs ConfigPrint SharedAddr Proxy ProxyTotal.
Local Open Scope Z_scope.

(** ** The text of an IPv6 address *)

(** The first separator of an IPv6 address is a colon. *)
Definition colon_first (l : list Z) : Prop :=
  ∃ pre post, l = pre ++ COLON :: post ∧ Forall (λ b, is_alnum b = true) pre.

Lemma hex_u16_alnum v : Forall (λ b, is_alnum b = true) (hex_u16 v).
Proof.
  assert (H : ∀ k, is_alnum (hex_digit ((v / 16 ^ k) mod 16)) = true).
  { intros k. apply (check_below (λ n, is_alnum (hex_digit n)) 16); [reflexivity|].
    by apply Z.mod_pos_bound. }
  unfold hex_u16. repeat case_match;
    repeat (apply Forall_cons; split; [first [apply H|done]|]); constructor.
Qed.

Lemma groups_colon_first s rest : (2 ≤ length s)%nat ∨ head rest = Some COLON →
  colon_first (join [COLON] (hex_u16 <$> s) ++ rest).
Proof.
  intros H. destruct s as [|v s]; [|destruct s as [|w s]].
  - destruct rest as [|b rest]; destruct H as [H|H]; try (simpl in H; lia); try done.
    injection H as ->. exists [], rest. by split; [|constructor].
  - destruct rest as [|b rest]; destruct H as [H|H]; try (simpl in H; lia); try done.
    injection H as ->. exists (hex_u16 v), rest. split; [|apply hex_u16_alnum].
    cbn [fmap list_fmap join]. by rewrite app_nil_r.
  - eexists (hex_u16 v), _. split; [|apply hex_u16_alnum].
    rewrite !fmap_cons. cbn [join]. by rewrite <- app_assoc.
Qed.

Lemma show_ipv6_colon_first s rest : length s = 8%nat → colon_first (show_ipv6 s ++ rest).
Proof.
  intros Hl.
  assert (Hspan : ∀ a n, colon_first ((join [COLON] (hex_u16 <$> take a s) ++ bs "::"
             ++ join [COLON] (hex_u16 <$> drop (a + n) s)) ++ rest)).
  { intros a n. rewrite <- app_assoc. apply groups_colon_first. by right. }
  assert (Hplain : colon_first (join [COLON] (hex_u16 <$> s) ++ rest))
    by (apply groups_colon_first; left; lia).
  assert (Hmap : ∀ a b, colon_first ((bs "::ffff:" ++ show_ipv4 (u16_to_be_bytes a ++ u16_to_be_bytes b)) ++ rest)).
  { intros a b. eexists [], _. split; [reflexivity|constructor]. }
  unfold show_ipv6. destruct (zero_span 0 (0, 0)%nat (0, 0)%nat s) as [a n].
  repeat case_match; subst; auto.
Qed.

Lemma read_digits_colon_first l acc n v k rest : colon_first l →
  read_digits 10 acc n l = (v, k, rest) → head rest ≠ Some DOT.
Proof.
  intros (pre & post & -> & HF). revert acc n. induction HF as [|b pre Hb HF IH]; intros acc n.
  - by intros [= _ _ <-].
  - cbn [app read_digits]. destruct (to_digit 10 b); [apply IH|].
    intros [= _ _ <-] [= ->]. done.
Qed.

Lemma read_number_colon_first l v rest : colon_first l →
  read_number 10 255 3 false l = Some (v, rest) → head rest ≠ Some DOT.
Proof.
  intros Hc. unfold read_number. destruct (read_digits 10 0 0 l) as [[v' k] rest'] eqn:E.
  apply read_digits_colon_first in E; [|done]. repeat case_match; by intros [= _ <-].
Qed.

Lemma colon_first_not_v4 l : colon_first l → read_ipv4_addr l = None.
Proof.
  intros Hc. unfold read_ipv4_addr. cbn [read_octets]. unfold read_separator. cbn [Nat.eqb].
  destruct (read_number 10 255 3 false l) as [[v rest]|] eqn:E; [|done].
  apply read_number_colon_first in E; [|done]. cbn [mbind option_bind].
  destruct rest as [|b rest]; [done|]. cbn [read_given_char].
  destruct (Z.eqb_spec b DOT) as [->|]; [by destruct E|done].
Qed.

Lemma colon_first_not_addr l : colon_first l → parse_socket_addr l = None.
Proof.
  intros Hc. unfold parse_socket_addr, read_socket_addr_v4. rewrite colon_first_not_v4 by done.
  cbn [mbind option_bind]. destruct Hc as (pre & post & -> & HF). unfold read_socket_addr_v6.
  destruct HF as [|b pre Hb HF]; [done|]. cbn [app read_given_char].
  destruct (Z.eqb_spec b 91) as [->|]; done.
Qed.

(** A text with a colon is none of the words that stand for a dynamic peer. *)
Lemma colon_first_not_word l w : colon_first l → Forall (λ b, to_ascii_lowercase b ≠ COLON) w →
  eq_ignore_ascii_case l w = false ∧ str_eqb l w = false.
Proof.
  intros (pre & post & -> & _) Hw.
  split; apply bool_decide_eq_false; intros E.
  - assert (Hi : COLON ∈ (to_ascii_lowercase <$> w)).
    { rewrite <- E. apply list_elem_of_fmap. exists COLON. split; [done|]. set_solver. }
    apply list_elem_of_fmap in Hi as (b & Hb & Hi). rewrite Forall_forall in Hw. by apply (Hw b).
  - assert (Hi : COLON ∈ w) by (rewrite <- E; set_solver). rewrite Forall_forall in Hw.
    by apply (Hw COLON).
Qed.

(** ** Printed addresses *)

Lemma parse_show_v4_addr o port : length o = 4%nat → Forall (in_width 8) o → is_u16 port →
  parse_socket_addr (show_ipv4 o ++ bs ":" ++ dec port) = Some (mkAddr (V4 o) port).
Proof.
  intros Hl Ho [Hp0 Hp]. unfold parse_socket_addr, read_socket_addr_v4, read_ipv4_addr.
  pose proof (read_octets_show 4 0 o (bs ":" ++ dec port) Hl) as Hr. cbn [Nat.eqb app] in Hr.
  change (join [DOT] (dec <$> o)) with (show_ipv4 o) in Hr.
  change (COLON :: dec port) with (bs ":" ++ dec port) in Hr.
  rewrite Hr; [|done|by intros b [= <-]|done].
  cbn [mbind option_bind app bs read_given_char].
  change (bs ":" ++ dec port) with (COLON :: dec port). cbn [read_given_char].
  rewrite Z.eqb_refl. cbn [mbind option_bind]. unfold read_port.
  pose proof (read_digits_app 0 0 (dec port) [] (dec_digits port Hp0) ltac:(done)) as Hd.
  rewrite app_nil_r in Hd. rewrite Hd, digits_val_dec by lia.
  pose proof (dec_nonempty port) as Hn. destruct (Nat.eqb_spec (0 + length (dec port)) 0) as [E|_].
  { destruct (dec port); [done|simpl in E; lia]. }
  change (2 ^ 16) with 65536 in Hp. destruct (Z.ltb_spec 0xFFFF port); [lia|done].
Qed.

Lemma show_v4_unspecified o : length o = 4%nat → Forall (in_width 8) o →
  str_eqb (show_ipv4 o) (bs "0.0.0.0") = bool_decide (V4 o = ip_unspecified).
Proof.
  intros Hl Ho. unfold str_eqb. apply bool_decide_ext. split.
  - intros E. pose proof (parse_ip_show_ipv4 o Hl Ho) as Hp. rewrite E in Hp.
    vm_compute in Hp. by injection Hp as <-.
  - by intros [= ->].
Qed.

(** ** The setup *)

(** What [run] works with for a peer: the mode and the key of the peer, the
    first port of the peer as the remote port. *)
Definition setup_for (p : PeerConfig) (wg : SocketAddr) (dynamic : bool) : setup :=
  mkSetup p (chacha_init (key p)) 4 (window 4 4 (chacha_init (key p))) (responder p) (obfs p) wg
    dynamic
    (if dynamic then None else Some (mkAddr (peer_ip p) (default 41000 (head (peer_ports p)))))
    (ext_binds_of p) (local_bind_of p wg).

Lemma peer_port_u16 d p : peer_ok d p → is_u16 (default 41000 (head (peer_ports p))).
Proof.
  intros Hp. pose proof (ok_peer_ports d p Hp) as Hpp. destruct (peer_ports p) as [|q l]; [by split|].
  destruct Hpp as [_ [Hq _]%Forall_cons]. unfold in_width. cbn. lia.
Qed.


Lemma sample_peer_ok server m : peer_ok 100 (sample_peer_config server m).
Proof.
  split; cbn.
  - by split.
  - by split.
  - split; [done|]. repeat (apply Forall_cons; split; [by split|]). constructor.
  - split; [done|]. repeat (apply Forall_cons; split; [by split|]). constructor.
  - split; [done|]. apply (Forall_replicate (in_width 8) 32 7). by split.
  - lia.
  - intros _. lia.
  - split; [done|]. repeat (apply Forall_cons; split; [by split|]). constructor.
  - split; [done|]. repeat (apply Forall_cons; split; [by split|]). constructor.
  - done.
  - by split.
Qed.

