(* ===== verification/Threads.v ===== *)
(** * userspace.rs: the threads of the proxy

    [Proxy] describes one iteration of a loop as if it ran alone.  Here an
    iteration is a program that touches the shared state one atomic access at
    a time: a cell of a [SharedAddr], the lock of a table, or a table whose
    lock is held.  The guards live as long as in the source: to the end of the
    statement or of the branch they are taken in, and over the whole body of
    the [if let] for the session table of an ingress thread.  The threads of
    [run] are interleaved at these accesses; [alone] runs a program without
    interference and gives back the iterations of [Proxy]. *)

From stdpp Require Import gmap.
From S2P Require Import Prelude Words Slices Obfs Sip Results Net Config SharedAddr Proxy ProxyTotal.
From S2P Require Import ProxyRouting.
Local Open Scope Z_scope.

(** ** Accesses *)

(** The mutexes, in the order in which they are nested. *)
Inductive lock := LSession | LClients | LObfs.

#[global] Instance lock_eq_dec : EqDecision lock.
Proof. solve_decision. Defined.

Definition rank (l : lock) : nat := match l with LSession => 0 | LClients => 1 | LObfs => 2 end.

#[global] Instance rank_inj : Inj (=) (=) rank.
Proof. by intros [] []. Qed.

#[global] Instance lock_countable : Countable lock :=
  inj_countable rank (λ n, match n with 0%nat => Some LSession | 1%nat => Some LClients | _ => Some LObfs end)
    (λ l, ltac:(by destruct l)).

(** The two shared addresses. *)
Inductive which := WgPeer | PeerExt.

(** An access; the event of an insertion is ghost state, the message on
    whose behalf the table is updated. *)
Inductive acc :=
| ALock (l : lock)
| AUnlock (l : lock)
| ACell (w : which) (c : cell)
| AWrite (w : which) (x : cell * Z)
| ASessionGet (s_idx : Z)
| ASessionInsert (s_idx c_idx : Z) (e : event)
| AClientGet (c_idx : Z)
| AClientInsert (c_idx : Z) (a : SocketAddr) (e : event)
| AObfsGet (a : SocketAddr)
| AObfsInsert (a : SocketAddr) (m : ObfsMode).

Definition reply (a : acc) : Type :=
  match a with
  | ACell _ _ => Z
  | ASessionGet _ => option Z
  | AClientGet _ => option SocketAddr
  | AObfsGet _ => option ObfsMode
  | _ => unit
  end.

Definition cells_of (w : which) (s : shared) : cells :=
  match w with WgPeer => wg_peer s | PeerExt => peer_ext s end.

Definition cell_value (m : cells) (c : cell) : Z :=
  match c with CFamily => family m | CIp i => ip m !!! i | CPort => port m end.

(** What an access returns and what it does. *)
Definition read (s : shared) (a : acc) : reply a :=
  match a with
  | ACell w c => cell_value (cells_of w s) c
  | ASessionGet i => session_map s !! i
  | AClientGet c => client_map s !! c
  | AObfsGet a => client_obfs s !! a
  | _ => tt
  end.

Definition effect (a : acc) (s : shared) : shared :=
  match a with
  | AWrite WgPeer x =>
      mkShared (write (wg_peer s) x) (peer_ext s) (client_map s) (session_map s) (client_obfs s)
  | AWrite PeerExt x =>
      mkShared (wg_peer s) (write (peer_ext s) x) (client_map s) (session_map s) (client_obfs s)
  | ASessionInsert i c _ =>
      mkShared (wg_peer s) (peer_ext s) (client_map s) (<[i:=c]> (session_map s)) (client_obfs s)
  | AClientInsert c a _ =>
      mkShared (wg_peer s) (peer_ext s) (<[c:=a]> (client_map s)) (session_map s) (client_obfs s)
  | AObfsInsert a m =>
      mkShared (wg_peer s) (peer_ext s) (client_map s) (session_map s) (<[a:=m]> (client_obfs s))
  | _ => s
  end.

(** ** Programs *)

Inductive prog (A : Type) : Type :=
| Ret (o : outcome A)
| Acc (a : acc) (k : reply a → prog A).
Arguments Ret {_} _.
Arguments Acc {_} _ _.

Fixpoint prog_then {A B} (f : A → prog B) (p : prog A) : prog B :=
  match p with
  | Ret (Done a) => f a
  | Ret Panic => Ret Panic
  | Acc a k => Acc a (λ r, prog_then f (k r))
  end.

#[global] Instance prog_ret : MRet prog := λ A a, Ret (Done a).
#[global] Instance prog_bind : MBind prog := @prog_then.

Definition access (a : acc) : prog (reply a) := Acc a (λ r, Ret (Done r)).

Definition put (a : acc) : prog unit := Acc a (λ _, Ret (Done tt)).

(** [l.lock().unwrap()] for the length of [p]. *)
Definition with_lock {A} (l : lock) (p : prog A) : prog A :=
  _ ← access (ALock l); x ← p; _ ← access (AUnlock l); mret x.

(** [SharedAddr] from the code of its methods. *)
Definition load_raw_prog (w : which) : prog Z :=
  w0 ← access (ACell w (CIp 0)); w1 ← access (ACell w (CIp 1));
  w2 ← access (ACell w (CIp 2)); w3 ← access (ACell w (CIp 3));
  port ← access (ACell w CPort);
  mret (fold_words [w0; w1; w2; w3] port).

Definition load_prog (w : which) : prog (option SocketAddr) :=
  fam ← access (ACell w CFamily);
  if fam =? 0 then mret None else
  port ← access (ACell w CPort);
  w0 ← access (ACell w (CIp 0));
  if fam =? 4 then mret (Some (decode_addr fam port [w0])) else
  w1 ← access (ACell w (CIp 1)); w2 ← access (ACell w (CIp 2)); w3 ← access (ACell w (CIp 3));
  mret (Some (decode_addr fam port [w0; w1; w2; w3])).

Fixpoint write_prog (w : which) (l : list (cell * Z)) : prog unit :=
  match l with
  | [] => mret tt
  | x :: l => _ ← put (AWrite w x); write_prog w l
  end.

Definition store_prog (w : which) (a : SocketAddr) : prog unit :=
  write_prog w (relaxed_writes a ++ [release_write a]).

Section programs.
  Context (st : setup).
  Abbreviation peer := (s_peer st).

(** ** One egress iteration *)

Definition track_prog (src : SocketAddr) : prog unit :=
  if s_is_server st then mret tt else
  raw ← load_raw_prog WgPeer;
  if raw =? addr_fingerprint src then mret tt else store_prog WgPeer src.

Definition route_prog (buf : list Z) (size : nat) : prog (option SocketAddr) :=
  if negb (s_dynamic st) then
    a ← load_prog PeerExt;
    mret (match a with Some a => Some a | None => s_remote st end)
  else if (4 <=? size)%nat then
    b0 ← Ret (get buf 0);
    let wg_type := Z.land b0 0x1F in
    if wg_type =? 1 then mret None
    else if (wg_type =? 2) && (12 <=? size)%nat then
      s_idx ← Ret (read_u32_le buf 4 8);
      c_idx ← Ret (read_u32_le buf 8 12);
      _ ← with_lock LSession (put (ASessionInsert s_idx c_idx (Outbound buf size)));
      with_lock LClients (access (AClientGet c_idx))
    else if ((wg_type =? 3) || (wg_type =? 4)) && (8 <=? size)%nat then
      c_idx ← Ret (read_u32_le buf 4 8);
      with_lock LClients (access (AClientGet c_idx))
    else mret None
  else mret None.

Definition mode_prog (d : SocketAddr) : prog ObfsMode :=
  if s_is_server st then
    m ← with_lock LObfs (access (AObfsGet d)); mret (default (s_obfs st) m)
  else mret (s_obfs st).

(** The part of the iteration that is the thread's own: encapsulation, the
    envelope and the socket. *)
Definition egress_finish (t : clock) (m : ObfsMode) (out_buf buf : list Z) (size : nat)
    (src d : SocketAddr) : outcome (list Z * list Z * option send) :=
  orig_wg_type ← get buf 0;
  '(buf, r) ← obfs_encap buf size (s_key_init st) (s_rounds st) (s_is_server st) (sa_port src)
                (sa_port (s_wg_addr st)) m (sip_domain peer) (t_ns t);
  match r with
  | None => Done (out_buf, buf, None)
  | Some (new_size, dcid) =>
      '(out_buf, p, d, sock_idx) ← egress_wrap st t m out_buf buf new_size dcid orig_wg_type size src d;
      _ ← unwrap (s_ext_binds st !! sock_idx);
      Done (out_buf, buf, Some (mkSend (Ext sock_idx) p d))
  end.

Definition egress_prog (t : clock) (out_buf buf : list Z) (size : nat) (src : SocketAddr)
    : prog (list Z * list Z * option send) :=
  _ ← track_prog src;
  egress_dest ← route_prog buf size;
  match egress_dest with
  | None => mret (out_buf, buf, None)
  | Some d => encap_obfs ← mode_prog d; Ret (egress_finish t encap_obfs out_buf buf size src d)
  end.

(** ** One ingress iteration *)

Definition learn_prog (buf : list Z) (new_size : nat) (src : SocketAddr) : prog unit :=
  if negb (s_dynamic st && (8 <=? new_size)%nat) then mret tt else
  b0 ← Ret (get buf 0);
  let wg_type := Z.land b0 0x1F in
  let insert c := with_lock LClients (put (AClientInsert c src (Inbound buf new_size src))) in
  if wg_type =? 1 then
    c_idx ← Ret (read_u32_le buf 4 8);
    if c_idx =? 0 then mret tt else insert c_idx
  else if wg_type =? 4 then
    s_idx ← Ret (read_u32_le buf 4 8);
    with_lock LSession
      (c ← access (ASessionGet s_idx); match c with Some c_idx => insert c_idx | None => mret tt end)
  else mret tt.

Definition accept_prog (buf : list Z) (size : nat) (src : SocketAddr) (m : ObfsMode)
    : prog (list Z * option send) :=
  _ ← (if s_is_server st then with_lock LObfs (put (AObfsInsert src m)) else mret tt);
  '(buf, r) ← Ret (obfs_decap buf size (s_key_init st) (s_rounds st) m);
  match r with
  | None => mret (buf, None)
  | Some (new_size, _, _) =>
      _ ← store_prog PeerExt src;
      _ ← learn_prog buf new_size src;
      d ← (if s_is_server st then mret (Some (s_wg_addr st)) else load_prog WgPeer);
      match d with
      | Some d => p ← Ret (slice buf 0 new_size); mret (buf, Some (mkSend Local p d))
      | None => mret (buf, None)
      end
  end.

Definition ingress_prog (t : clock) (port_idx : nat) (out_buf buf : list Z) (size : nat)
    (src : SocketAddr) : prog (list Z * list Z * option send) :=
  '(out_buf, buf, size, u) ← Ret (unwrap_envelope out_buf buf size);
  match u with
  | UDrop => mret (out_buf, buf, None)
  | UProbe kind =>
      if s_is_server st then
        p ← Ret (sip_response st t kind 5060 src);
        mret (out_buf, buf, Some (mkSend (Ext port_idx) p src))
      else mret (out_buf, buf, None)
  | UData prepend was_rtp kind =>
      '(buf, is_gut, m) ← Ret (detect st buf size prepend);
      if negb is_gut then
        r ← Ret (reject st t port_idx buf size src prepend was_rtp kind);
        mret (out_buf, buf, r)
      else
        '(buf, r) ← accept_prog buf size src m;
        mret (out_buf, buf, r)
  end.

(** ** The threads of [run] *)

Inductive role := Egress | Ingress (port_idx : nat).

(** A received datagram: the slot it is in, its size and source, and the
    clock of the iteration. *)
Record job := mkJob { j_buf : list Z; j_size : nat; j_src : SocketAddr; j_clock : clock }.

Definition start (r : role) (out : list Z) (j : job) : prog (list Z * list Z * option send) :=
  match r with
  | Egress => egress_prog (j_clock j) out (j_buf j) (j_size j) (j_src j)
  | Ingress i => ingress_prog (j_clock j) i out (j_buf j) (j_size j) (j_src j)
  end.

(** A thread waits for a datagram or is in an iteration; [h0] is ghost, the
    history when the datagram was received. *)
Inductive tstate :=
| Idle
| Busy (j : job) (h0 : list event) (p : prog (list Z * list Z * option send)).

Record thread := mkThread { t_role : role; t_out : list Z; t_state : tstate }.

(** A finished iteration: who, on what, from which history to which, and
    what came out. *)
Record entry := mkEntry {
  en_role : role; en_out : list Z; en_job : job; en_from : list event; en_to : list event;
  en_result : list Z * list Z * option send
}.

(** The process: the shared state, who holds which lock, the threads, and
    as ghosts the history of the tables and the finished iterations.  A panic
    aborts it. *)
Record world := mkWorld {
  w_mem : shared;
  w_owner : gmap lock nat;
  w_threads : list thread;
  w_hist : list event;
  w_done : list entry;
  w_aborted : bool
}.

Definition enabled (o : gmap lock nat) (i : nat) (a : acc) : bool :=
  match a with
  | ALock l => bool_decide (o !! l = None)
  | AUnlock l => bool_decide (o !! l = Some i)
  | _ => true
  end.

Definition owner_after (i : nat) (a : acc) (o : gmap lock nat) : gmap lock nat :=
  match a with ALock l => <[l:=i]> o | AUnlock l => delete l o | _ => o end.

Definition commit (a : acc) (h : list event) : list event :=
  match a with ASessionInsert _ _ e | AClientInsert _ _ e => e :: h | _ => h end.

(** One access of thread [i], or the end of its iteration. *)
Definition advance (w : world) (i : nat) : option world :=
  if w_aborted w then None else
  th ← w_threads w !! i;
  match t_state th with
  | Idle => None
  | Busy j h0 (Acc a k) =>
      if enabled (w_owner w) i a then
        Some (mkWorld (effect a (w_mem w)) (owner_after i a (w_owner w))
                (<[i:=mkThread (t_role th) (t_out th) (Busy j h0 (k (read (w_mem w) a)))]> (w_threads w))
                (commit a (w_hist w)) (w_done w) false)
      else None
  | Busy j h0 (Ret (Done (out, buf, r))) =>
      Some (mkWorld (w_mem w) (w_owner w) (<[i:=mkThread (t_role th) out Idle]> (w_threads w))
              (w_hist w) (mkEntry (t_role th) (t_out th) j h0 (w_hist w) (out, buf, r) :: w_done w) false)
  | Busy j h0 (Ret Panic) =>
      Some (mkWorld (w_mem w) (w_owner w) (w_threads w) (w_hist w) (w_done w) true)
  end.

(** Thread [i] receives a datagram. *)
Definition receive (w : world) (i : nat) (j : job) : option world :=
  if w_aborted w then None else
  th ← w_threads w !! i;
  match t_state th with
  | Idle =>
      Some (mkWorld (w_mem w) (w_owner w)
              (<[i:=mkThread (t_role th) (t_out th)
                      (Busy j (w_hist w) (start (t_role th) (t_out th) j))]> (w_threads w))
              (w_hist w) (w_done w) false)
  | Busy _ _ _ => None
  end.

(** [[0u8; 65536]] *)
Definition zero_buf : list Z := replicate (Z.to_nat 65536) 0.

(** One egress thread and an ingress thread for each external socket, each
    with its zeroed output buffer. *)
Definition init_world : world :=
  mkWorld init_shared ∅
    (mkThread Egress zero_buf Idle
     :: imap (λ i _, mkThread (Ingress i) zero_buf Idle) (s_ext_binds st)) [] [] false.

(** ** Without interference *)

Fixpoint alone {A} (p : prog A) (s : shared) : outcome (shared * A) :=
  match p with
  | Ret (Done a) => Done (s, a)
  | Ret Panic => Panic
  | Acc a k => alone (k (read s a)) (effect a s)
  end.
End programs.
