(* ===== verification/ThreadsAlone.v ===== *)
(** * userspace.rs: an iteration without interference

    Run alone, the programs of [Threads] are the iterations of [Proxy]: the
    small accesses compose to the same changes of the shared state, the same
    datagram and the same panics. *)

From stdpp Require Import gmap.
From S2P Require Import Prelude Words Slices Obfs Sip Results Net Config SharedAddr Proxy ProxyTotal.
From S2P Require Import ProxyRouting Threads.
Local Open Scope Z_scope.

Lemma alone_bind {A B} (p : prog A) (f : A → prog B) s :
  alone (p ≫= f) s = ('(s, a) ← alone p s; alone (f a) s).
Proof. revert s. induction p as [[a|]|a k IH]; intros s; [done..|]. cbn. apply IH. Qed.

Lemma alone_lift {A B} (o : outcome A) (f : A → prog B) s :
  alone (Ret o ≫= f) s = (a ← o; alone (f a) s).
Proof. by destruct o. Qed.

Lemma alone_access {B} a (f : reply a → prog B) s :
  alone (access a ≫= f) s = alone (f (read s a)) (effect a s).
Proof. done. Qed.

Lemma alone_with_lock {A} l (p : prog A) s : alone (with_lock l p) s = alone p s.
Proof.
  unfold with_lock. rewrite alone_access. cbn [effect]. rewrite alone_bind.
  by destruct (alone p s) as [[s' a]|].
Qed.

(** ** The shared addresses *)

Definition set_cells (w : which) (m : cells) (s : shared) : shared :=
  match w with
  | WgPeer => mkShared m (peer_ext s) (client_map s) (session_map s) (client_obfs s)
  | PeerExt => mkShared (wg_peer s) m (client_map s) (session_map s) (client_obfs s)
  end.

Lemma set_cells_same w s : set_cells w (cells_of w s) s = s.
Proof. by destruct w, s. Qed.

Lemma alone_write_prog w l s :
  alone (write_prog w l) s = Done (set_cells w (foldl write (cells_of w s) l) s, tt).
Proof.
  revert s. induction l as [|x l IH]; intros s; [by cbn; rewrite set_cells_same|].
  cbn. rewrite IH. by destruct w.
Qed.

Lemma alone_store w a s : alone (store_prog w a) s = Done (set_cells w (store (cells_of w s) a) s, tt).
Proof. apply alone_write_prog. Qed.

Lemma alone_raw w s : alone (load_raw_prog w) s = Done (s, load_raw (cells_of w s)).
Proof. done. Qed.

Lemma alone_load w s : cells_ok (cells_of w s) →
  alone (load_prog w) s = Done (s, load (cells_of w s)).
Proof.
  intros Hc. unfold load_prog, load. cbn. destruct (family _ =? 0); [done|]. cbn.
  unfold cells_ok in Hc. destruct (ip (cells_of w s)) as [|w0 [|w1 [|w2 [|w3 [|]]]]] eqn:E; try done.
  destruct (family _ =? 4); [done|]. cbn. by rewrite E.
Qed.

(** ** Egress *)

Section alone.
  Context (st : setup).

Lemma alone_track src s : alone (track_prog st src) s = Done (track_wg_peer st s src, tt).
Proof.
  unfold track_prog, track_wg_peer. destruct (s_is_server st); [done|].
  rewrite alone_bind, alone_raw, bind_Done. cbn [cells_of].
  destruct (_ =? _); [done|]. by rewrite alone_store.
Qed.

Lemma alone_route buf size s : cells_ok (peer_ext s) →
  alone (route_prog st buf size) s = egress_route st s buf size.
Proof.
  intros Hc. unfold route_prog, egress_route. destruct (negb _).
  { by rewrite alone_bind, alone_load, bind_Done. }
  destruct (4 <=? size)%nat; [|done]. rewrite alone_lift. destruct (get buf 0) as [b0|]; [|done].
  rewrite !bind_Done. cbv zeta. destruct (_ =? 1); [done|]. destruct (_ && _).
  - rewrite alone_lift. destruct (read_u32_le buf 4 8) as [i|]; [|done]. rewrite !bind_Done, alone_lift.
    destruct (read_u32_le buf 8 12) as [c|]; [|done]. rewrite !bind_Done, alone_bind.
    by rewrite alone_with_lock.
  - destruct (_ && _); [|done]. rewrite alone_lift. by destruct (read_u32_le buf 4 8) as [c|].
Qed.

Lemma alone_mode d s : alone (mode_prog st d) s
  = Done (s, if s_is_server st then default (s_obfs st) (client_obfs s !! d) else s_obfs st).
Proof. unfold mode_prog. destruct (s_is_server st); [|done]. by rewrite alone_bind, alone_with_lock. Qed.

(** The iteration as its shared part and its own. *)
Lemma egress_packet_split t s out_buf buf size src :
  egress_packet st t s out_buf buf size src =
    ('(s, d) ← egress_route st (track_wg_peer st s src) buf size;
     match d with
     | None => Done (s, out_buf, buf, None)
     | Some d =>
         '(ob, b, r) ← egress_finish st t (if s_is_server st then default (s_obfs st) (client_obfs s !! d)
                                           else s_obfs st) out_buf buf size src d;
         Done (s, ob, b, r)
     end).
Proof.
  unfold egress_packet, egress_finish. cbv zeta.
  destruct (egress_route st _ buf size) as [[s' [d|]]|]; [|done|done]. rewrite !bind_Done.
  destruct (get buf 0); [|done]. rewrite !bind_Done.
  destruct (obfs_encap _ _ _ _ _ _ _ _ _ _) as [[b [[n dcid]|]]|]; [|done..]. rewrite !bind_Done.
  destruct (egress_wrap _ _ _ _ _ _ _ _ _ _ _) as [[[[? ?] ?] i]|]; [|done]. rewrite !bind_Done.
  by destruct (s_ext_binds st !! i).
Qed.

Lemma track_peer_ext s src : peer_ext (track_wg_peer st s src) = peer_ext s.
Proof. unfold track_wg_peer. by repeat case_match. Qed.

Lemma alone_egress t out_buf buf size src s : cells_ok (peer_ext s) →
  alone (egress_prog st t out_buf buf size src) s =
    ('(s', ob, b, r) ← egress_packet st t s out_buf buf size src; Done (s', (ob, b, r))).
Proof.
  intros Hc. rewrite egress_packet_split. unfold egress_prog.
  rewrite alone_bind, alone_track, bind_Done, alone_bind, alone_route by by rewrite track_peer_ext.
  destruct (egress_route _ _ _ _) as [[s' [d|]]|]; [|done|done]. rewrite !bind_Done, alone_bind.
  rewrite alone_mode, bind_Done. cbn [alone]. by destruct (egress_finish _ _ _ _ _ _ _ _) as [[[??]?]|].
Qed.

(** ** Ingress *)

Lemma alone_learn buf n src s :
  alone (learn_prog st buf n src) s = (s' ← learn_client st s buf n src; Done (s', tt)).
Proof.
  unfold learn_prog, learn_client. destruct (negb _); [done|]. rewrite alone_lift.
  destruct (get buf 0) as [b0|]; [|done]. rewrite !bind_Done. cbv zeta. destruct (_ =? 1).
  - rewrite alone_lift. destruct (read_u32_le buf 4 8) as [c|]; [|done]. rewrite !bind_Done.
    by destruct (c =? 0).
  - destruct (_ =? 4); [|done]. rewrite alone_lift. destruct (read_u32_le buf 4 8) as [i|]; [|done].
    rewrite !bind_Done, alone_with_lock. cbn. by destruct (session_map s !! i).
Qed.

Lemma learn_wg_peer s buf n src s' : learn_client st s buf n src = Done s' → wg_peer s' = wg_peer s.
Proof.
  unfold learn_client. destruct (negb _); [by intros [= <-]|]. destruct (get buf 0); [|done].
  rewrite bind_Done. repeat case_match; try (by intros [= <-]);
    (destruct (read_u32_le buf 4 8); [|done]); rewrite bind_Done; intros [= <-]; by case_match.
Qed.

Lemma alone_accept buf size src m s : cells_ok (wg_peer s) →
  alone (accept_prog st buf size src m) s =
    ('(s', b, r) ← accept st s buf size src m; Done (s', (b, r))).
Proof.
  intros Hc. unfold accept_prog, accept. rewrite alone_bind. cbv zeta.
  set (s0 := if s_is_server st then mkShared _ _ _ _ _ else s).
  assert (E : alone (if s_is_server st then with_lock LObfs (put (AObfsInsert src m)) else mret tt) s
              = Done (s0, tt)) by (subst s0; by destruct (s_is_server st)).
  assert (Hw : wg_peer s0 = wg_peer s) by (subst s0; by destruct (s_is_server st)).
  rewrite E, bind_Done, alone_lift.
  destruct (obfs_decap _ _ _ _ _) as [[b [[[n ?] ?]|]]|]; [|done|done]. rewrite !bind_Done.
  rewrite alone_bind, alone_store, bind_Done, alone_bind, alone_learn. cbn [set_cells cells_of].
  destruct (learn_client _ _ _ _ _) as [s1|] eqn:El; [|done]. rewrite !bind_Done, alone_bind.
  apply learn_wg_peer in El. cbn [wg_peer] in El.
  assert (Ed : alone (if s_is_server st then mret (Some (s_wg_addr st)) else load_prog WgPeer) s1
    = Done (s1, if s_is_server st then Some (s_wg_addr st) else load (wg_peer s1))).
  { destruct (s_is_server st); [done|]. rewrite alone_load; [done|]. cbn [cells_of]. congruence. }
  rewrite Ed, bind_Done. destruct (if s_is_server st then Some (s_wg_addr st) else load (wg_peer s1)); [|done].
  rewrite alone_lift. by destruct (slice b 0 n).
Qed.

Lemma alone_ingress t i out_buf buf size src s : cells_ok (wg_peer s) →
  alone (ingress_prog st t i out_buf buf size src) s =
    ('(s', ob, b, r) ← ingress_packet st t i s out_buf buf size src; Done (s', (ob, b, r))).
Proof.
  intros Hc. unfold ingress_prog, ingress_packet. rewrite alone_lift.
  destruct (unwrap_envelope _ _ _) as [[[[ob b] n] u]|]; [|done]. rewrite !bind_Done.
  destruct u as [|k|prepend rtp k]; [done| |].
  - destruct (s_is_server st); [|done]. rewrite alone_lift. by destruct (sip_response _ _ _ _ _).
  - rewrite alone_lift. destruct (detect _ _ _ _) as [[[b' g] m]|]; [|done]. rewrite !bind_Done.
    destruct g; cbn [negb].
    + rewrite alone_bind, alone_accept by done.
      by destruct (accept _ _ _ _ _ _) as [[[??]?]|].
    + rewrite alone_lift. by destruct (reject _ _ _ _ _ _ _ _ _).
Qed.
End alone.


