(* ===== verification/ThreadLogic.v ===== *)
(** * userspace.rs: reasoning about interleaved iterations

    A weakest precondition for the programs of [Threads], in which the other
    threads may extend the history of the tables between any two accesses,
    but not the session bindings while this thread holds the session lock.
    [IterSpec] states what an iteration promises; the world built from
    iterations that keep it satisfies the invariant [winv], never deadlocks
    and finishes every iteration. *)

From stdpp Require Import gmap relations.
From S2P Require Import Prelude Words Slices Obfs Sip Results Net Config SharedAddr Proxy ProxyTotal.
From S2P Require Import ProxyRouting Threads.
Local Open Scope Z_scope.

(** ** The logic *)

(** What the others may do while this thread holds [held]. *)
Definition others (held : gset lock) (h h' : list event) : Prop :=
  h `suffix_of` h' ∧ (LSession ∈ held → ∀ i, bound h' i = bound h i).

Definition held_after (a : acc) (held : gset lock) : gset lock :=
  match a with ALock l => {[l]} ∪ held | AUnlock l => held ∖ {[l]} | _ => held end.

(** The discipline of the locks: they are taken in the order of their ranks,
    a table is touched with its lock held, and an insertion belongs to a
    message that is [good]. *)
Definition allowed (good : event → Prop) (held : gset lock) (a : acc) : Prop :=
  match a with
  | ALock l => ∀ l', l' ∈ held → (rank l' < rank l)%nat
  | AUnlock l => l ∈ held
  | ACell _ _ | AWrite _ _ => True
  | ASessionGet _ => LSession ∈ held
  | ASessionInsert _ _ e => LSession ∈ held ∧ good e
  | AClientGet _ => LClients ∈ held
  | AClientInsert _ _ e => LClients ∈ held ∧ good e ∧ ∀ h i, bound (e :: h) i = bound h i
  | AObfsGet _ | AObfsInsert _ _ => LObfs ∈ held
  end.

(** The tables still follow the history. *)
Definition keeps_tracks (h : list event) (a : acc) : Prop :=
  ∀ s, tracks s h → tracks (effect a s) (commit a h).

(** What the tables answer when they follow the history. *)
Definition answers (h : list event) (a : acc) : reply a → Prop :=
  match a with
  | ASessionGet i => λ r, r = bound h i
  | AClientGet c => λ r, r = located h c
  | _ => λ _, True
  end.

Fixpoint wp {A} (good : event → Prop) (n : nat) (held : gset lock) (h : list event) (p : prog A)
    (Q : outcome A → gset lock → list event → Prop) {struct p} : Prop :=
  match p with
  | Ret o => ∀ h', others held h h' → Q o held h'
  | Acc a k =>
      match n with
      | O => False
      | S n => ∀ h', others held h h' →
          allowed good held a ∧ keeps_tracks h' a ∧
          ∀ r, answers h' a r → wp good n (held_after a held) (commit a h') (k r) Q
      end
  end.

#[global] Instance others_preorder held : PreOrder (others held).
Proof.
  split.
  - intros h. by split.
  - intros h1 h2 h3 [H1 E1] [H2 E2]. split; [by trans h2|]. intros Hl i. by rewrite E2, E1.
Qed.

Lemma others_nil h h' : h `suffix_of` h' → others ∅ h h'.
Proof. intros H. split; [done|set_solver]. Qed.

Lemma wp_mono {A} good n m held h (p : prog A) (Q R : outcome A → gset lock → list event → Prop) :
  (n ≤ m)%nat → wp good n held h p Q → (∀ o held h, Q o held h → R o held h) → wp good m held h p R.
Proof.
  intros Hnm Hp HQ. revert n m held h Hnm Hp. induction p as [o|a k IH]; intros n m held h Hnm Hp.
  - intros h' Hh. apply HQ, Hp, Hh.
  - destruct n as [|n]; [done|]. destruct m as [|m]; [lia|]. intros h' Hh.
    destruct (Hp h' Hh) as (Ha & Ht & Hk). split_and!; [done..|]. intros r Hr.
    apply (IH r n m); [lia|by apply Hk].
Qed.

Lemma wp_bind {A B} good n m held h (p : prog A) (f : A → prog B) Q :
  wp good n held h p (λ o held h, match o with
                                  | Done a => wp good m held h (f a) Q
                                  | Panic => Q Panic held h
                                  end) →
  wp good (n + m) held h (p ≫= f) Q.
Proof.
  revert n held h. induction p as [[a|]|a k IH]; intros n held h Hp.
  - apply (wp_mono good m _ _ _ _ Q); [lia| |done]. by apply (Hp h).
  - intros h' Hh. by apply Hp.
  - destruct n as [|n]; [done|]. intros h' Hh. destruct (Hp h' Hh) as (Ha & Ht & Hk).
    split_and!; [done..|]. intros r Hr. by apply IH, Hk.
Qed.

Lemma wp_others {A} good n held h h' (p : prog A) Q :
  others held h h' → wp good n held h p Q → wp good n held h' p Q.
Proof.
  intros Ho. destruct p as [o|a k].
  - intros Hp h2 Hh. apply Hp. by trans h'.
  - destruct n as [|n]; [done|]. intros Hp h2 Hh. apply Hp. by trans h'.
Qed.

(** An access of a cell, whatever it answers. *)
Definition is_cell (a : acc) : bool := match a with ACell _ _ | AWrite _ _ => true | _ => false end.

Lemma tracks_tables s s' h : client_map s' = client_map s → session_map s' = session_map s →
  tracks s h → tracks s' h.
Proof. unfold tracks. by intros -> ->. Qed.

Lemma cell_keeps a h : is_cell a = true → keeps_tracks h a ∧ commit a h = h.
Proof.
  intros Ha. split; [|by destruct a]. intros s. destruct a as [| |w c|[] x| | | | | |]; try done;
    by apply tracks_tables.
Qed.

(** A thread changes the bindings of no other that holds the session lock. *)
Lemma commit_others good held held' h a : allowed good held a → (LSession ∈ held → LSession ∉ held') →
  others held' h (commit a h).
Proof.
  intros Ha Hx. destruct a; cbn [commit]; try reflexivity; cbn in Ha.
  - split; [by apply suffix_cons_r|]. tauto.
  - split; [by apply suffix_cons_r|]. intros _ i. apply Ha.
Qed.

(** ** What iterations promise *)

Class IterSpec (st : setup) := {
  good : event → Prop;
  out_ok : role → list Z → Prop;
  job_ok : job → Prop;
  post : role → list Z → job → list event → outcome (list Z * list Z * option send) → list event → Prop;
  cost : nat;
  zero_ok r : out_ok r zero_buf;
  start_wp r out j h : out_ok r out → job_ok j →
    wp good cost ∅ h (start st r out j) (λ o held h', held = ∅ ∧ post r out j h o h');
  post_out r out j h out' buf s h' : out_ok r out →
    post r out j h (Done (out', buf, s)) h' → out_ok r out'
}.

#[local] Opaque zero_buf.

Section world.
  Context (st : setup) `{!IterSpec st}.

(** A step of the process, and one that is not a receive. *)
Definition internal (w w' : world) : Prop := ∃ i, advance w i = Some w'.
Definition world_step (w w' : world) : Prop :=
  internal w w' ∨ ∃ i j, job_ok j ∧ receive st w i j = Some w'.

Definition entry_ok (e : entry) : Prop :=
  post (en_role e) (en_out e) (en_job e) (en_from e) (Done (en_result e)) (en_to e).

Definition thread_ok (o : gmap lock nat) (hist : list event) (n i : nat) (th : thread) : Prop :=
  out_ok (t_role th) (t_out th) ∧
  match t_state th with
  | Idle => ∀ l, o !! l ≠ Some i
  | Busy j h0 p =>
      ∃ m held h, n = S m ∧ (∀ l, l ∈ held ↔ o !! l = Some i) ∧ others held h hist ∧
        wp good m held h p (λ r held h', held = ∅ ∧ post (t_role th) (t_out th) j h0 r h')
  end.

Record winv (ns : list nat) (w : world) : Prop := {
  wi_tracks : tracks (w_mem w) (w_hist w);
  wi_good : Forall good (w_hist w);
  wi_done : Forall entry_ok (w_done w);
  wi_owner l i : w_owner w !! l = Some i → is_Some (w_threads w !! i);
  wi_cost : Forall (λ n, n ≤ S cost)%nat ns;
  wi_len : length ns = length (w_threads w);
  wi_threads i th n : w_threads w !! i = Some th → ns !! i = Some n →
    thread_ok (w_owner w) (w_hist w) n i th
}.

Lemma wi_lookup ns w i th : winv ns w → w_threads w !! i = Some th →
  ∃ n, ns !! i = Some n ∧ thread_ok (w_owner w) (w_hist w) n i th.
Proof.
  intros Hw Hi. destruct (lookup_lt_is_Some_2 ns i) as [n Hn].
  { rewrite (wi_len _ _ Hw). by eapply lookup_lt_Some. }
  exists n. split; [done|]. by eapply wi_threads.
Qed.

(** The threads when thread [i] has made a step: [i] is as the step leaves
    it, the others as they were. *)
Lemma threads_insert (ns : list nat) (ths : list thread) i th' n' (P : nat → nat → thread → Prop) :
  P n' i th' → (∀ k th n, k ≠ i → ths !! k = Some th → ns !! k = Some n → P n k th) →
  ∀ k th n, <[i:=th']> ths !! k = Some th → <[i:=n']> ns !! k = Some n → P n k th.
Proof.
  intros Hi Hk k th n. rewrite !list_lookup_insert_Some.
  intros [(-> & -> & _)|[Hne Ht]] [(? & -> & _)|[Hne' Hn]]; subst; try done. by apply Hk.
Qed.

Lemma thread_ok_others o o' hist hist' n k th :
  (∀ l, o' !! l = Some k ↔ o !! l = Some k) →
  (∀ held, (∀ l, l ∈ held → o !! l = Some k) → others held hist hist') →
  thread_ok o hist n k th → thread_ok o' hist' n k th.
Proof.
  intros Ho Hh [Hout Ht]. split; [done|]. revert Ht. destruct (t_state th) as [|j h0 p].
  - intros H2 l. rewrite Ho. apply H2.
  - intros (m & held & h & -> & Hheld & Hoth & Hwp). exists m, held, h. split_and!; [done| | |done].
    + intros l. by rewrite Ho.
    + trans hist; [done|]. apply Hh. intros l. apply Hheld.
Qed.

(** The locks of the others do not change hands. *)
Lemma owner_after_others i k a o l : enabled o i a = true → k ≠ i →
  owner_after i a o !! l = Some k ↔ o !! l = Some k.
Proof.
  intros He Hk. destruct a as [l'|l'| | | | | | | |]; try done; cbn [owner_after enabled] in *;
    apply bool_decide_eq_true in He; destruct (decide (l = l')) as [->|Hne].
  - rewrite lookup_insert_eq, He. split; congruence.
  - by rewrite lookup_insert_ne.
  - rewrite lookup_delete_eq, He. split; congruence.
  - by rewrite lookup_delete_ne.
Qed.

Lemma owner_after_self i a o held l : enabled o i a = true → (∀ l, l ∈ held ↔ o !! l = Some i) →
  l ∈ held_after a held ↔ owner_after i a o !! l = Some i.
Proof.
  intros He Hh. destruct a as [l'|l'| | | | | | | |]; try apply Hh; cbn [owner_after held_after];
    destruct (decide (l = l')) as [->|Hne].
  - rewrite lookup_insert_eq. set_solver.
  - rewrite lookup_insert_ne by done. rewrite <- Hh. set_solver.
  - rewrite lookup_delete_eq. set_solver.
  - rewrite lookup_delete_ne by done. rewrite <- Hh. set_solver.
Qed.

Lemma answers_read s h a : tracks s h → answers h a (read s a).
Proof. intros [Hc Hs]. destruct a; cbn; auto. Qed.

Lemma commit_good held a h : allowed good held a → Forall good h → Forall good (commit a h).
Proof. intros Ha Hh. destruct a; cbn in *; [done..| |done| |done|done]; constructor; tauto. Qed.

(** An enabled access of a thread. *)
Lemma access_inv ns w i th j h0 a k :
  winv ns w → w_threads w !! i = Some th → t_state th = Busy j h0 (Acc a k) →
  enabled (w_owner w) i a = true →
  ∃ n, ns !! i = Some (S (S n)) ∧
    winv (<[i:=S n]> ns)
      (mkWorld (effect a (w_mem w)) (owner_after i a (w_owner w))
         (<[i:=mkThread (t_role th) (t_out th) (Busy j h0 (k (read (w_mem w) a)))]> (w_threads w))
         (commit a (w_hist w)) (w_done w) false).
Proof.
  intros Hw Hi Hs He. destruct (wi_lookup _ _ _ _ Hw Hi) as (n & Hn & Ht).
  unfold thread_ok in Ht. rewrite Hs in Ht. destruct Ht as (Hout & m & held & h & -> & Hheld & Hoth & Hwp).
  destruct m as [|m]; [done|]. destruct (Hwp _ Hoth) as (Ha & Hk & Hr). exists m. split; [done|].
  split; cbn [w_mem w_owner w_threads w_hist w_done].
  - apply Hk, Hw.
  - eapply commit_good; [done|apply Hw].
  - apply Hw.
  - intros l x Hl. destruct (decide (x = i)) as [->|Hne].
    + rewrite list_lookup_insert_eq; [by eexists|]. by eapply lookup_lt_Some.
    + rewrite list_lookup_insert_ne by done. apply (wi_owner _ _ Hw l).
      by apply (owner_after_others i x a).
  - apply Forall_insert; [apply Hw|]. pose proof (wi_cost _ _ Hw) as Hc.
    eapply Forall_lookup_1 in Hc; [|exact Hn]. lia.
  - rewrite !length_insert. apply Hw.
  - apply threads_insert.
    + split; [done|]. exists m, (held_after a held), (commit a (w_hist w)). split_and!; [done| |done|].
      * intros l. by apply owner_after_self.
      * apply Hr, answers_read, Hw.
    + intros x thx nx Hne Hx Hnx.
      apply (thread_ok_others (w_owner w) _ (w_hist w)); [|intros held' Hh'|by eapply wi_threads].
      * intros l. by apply owner_after_others.
      * eapply commit_others; [done|]. intros H1%Hheld H2%Hh'. congruence.
Qed.

Lemma finish_inv ns w i th j h0 out buf r :
  winv ns w → w_threads w !! i = Some th → t_state th = Busy j h0 (Ret (Done (out, buf, r))) →
  ∃ n, ns !! i = Some (S n) ∧
    winv (<[i:=n]> ns)
      (mkWorld (w_mem w) (w_owner w) (<[i:=mkThread (t_role th) out Idle]> (w_threads w)) (w_hist w)
         (mkEntry (t_role th) (t_out th) j h0 (w_hist w) (out, buf, r) :: w_done w) false).
Proof.
  intros Hw Hi Hs. destruct (wi_lookup _ _ _ _ Hw Hi) as (n & Hn & Ht).
  unfold thread_ok in Ht. rewrite Hs in Ht. destruct Ht as (Hout & m & held & h & -> & Hheld & Hoth & Hwp).
  destruct (Hwp _ Hoth) as [-> Hp]. exists m. split; [done|].
  split; cbn [w_mem w_owner w_threads w_hist w_done]; try apply Hw.
  - constructor; [done|apply Hw].
  - intros l x Hl. apply list_lookup_insert_is_Some, (wi_owner _ _ Hw l x Hl).
  - apply Forall_insert; [apply Hw|]. pose proof (wi_cost _ _ Hw) as Hc.
    eapply Forall_lookup_1 in Hc; [|exact Hn]. lia.
  - rewrite !length_insert. apply Hw.
  - apply threads_insert.
    + split; [by eapply post_out|]. intros l Hl%Hheld. set_solver.
    + intros x thx nx _ Hx Hnx. by eapply wi_threads.
Qed.

Lemma receive_inv ns w i j w' : winv ns w → job_ok j → receive st w i j = Some w' →
  winv (<[i:=S cost]> ns) w'.
Proof.
  intros Hw Hj. unfold receive. destruct (w_aborted w); [done|].
  destruct (w_threads w !! i) as [th|] eqn:Hi; [|done]. cbn.
  destruct (t_state th) eqn:Hs; [|done]. intros [= <-].
  destruct (wi_lookup _ _ _ _ Hw Hi) as (n & Hn & Ht). unfold thread_ok in Ht. rewrite Hs in Ht.
  destruct Ht as [Hout Hno]. split; cbn [w_mem w_owner w_threads w_hist w_done]; try apply Hw.
  - intros l x Hl. apply list_lookup_insert_is_Some, (wi_owner _ _ Hw l x Hl).
  - apply Forall_insert; [apply Hw|done].
  - rewrite !length_insert. apply Hw.
  - apply threads_insert.
    + split; [done|]. exists cost, ∅, (w_hist w). split_and!; [done| |done|by apply start_wp].
      intros l. split; [set_solver|]. intros Hl. by destruct (Hno l).
    + intros x thx nx _ Hx Hnx. by eapply wi_threads.
Qed.

(** ** No deadlock *)

Definition busy (w : world) (i : nat) : Prop :=
  ∃ th j h0 p, w_threads w !! i = Some th ∧ t_state th = Busy j h0 p.

(** A thread in an iteration can go on, or waits for a lock that is taken
    and follows all those it holds. *)
Lemma busy_moves ns w i : winv ns w → w_aborted w = false → busy w i →
  red internal w ∨
  ∃ l x, w_owner w !! l = Some x ∧ ∀ l', w_owner w !! l' = Some i → (rank l' < rank l)%nat.
Proof.
  intros Hw Hab (th & j & h0 & p & Hi & Hs). destruct (wi_lookup _ _ _ _ Hw Hi) as (n & Hn & Ht).
  unfold thread_ok in Ht. rewrite Hs in Ht. destruct Ht as (Hout & m & held & h & -> & Hheld & Hoth & Hwp).
  assert (Hadv : ∀ w', advance w i = Some w' → red internal w) by (intros w' E; by exists w', i).
  unfold advance in Hadv. rewrite Hab, Hi in Hadv. cbn [mbind option_bind] in Hadv. rewrite Hs in Hadv.
  destruct p as [[[[out buf] r]|]|a k]; [by left; eapply Hadv..|].
  destruct (enabled (w_owner w) i a) eqn:He; [by left; eapply Hadv|].
  destruct m as [|m]; [done|]. destruct (Hwp _ Hoth) as (Ha & _).
  destruct a as [l|l| | | | | | | |]; try done; cbn in Ha, He; apply bool_decide_eq_false in He.
  - right. destruct (w_owner w !! l) as [x|] eqn:Hl; [|done]. exists l, x. split; [done|].
    intros l' Hl'. by apply Ha, Hheld.
  - destruct He. by apply Hheld.
Qed.

Lemma owner_busy ns w l x : winv ns w → w_owner w !! l = Some x → busy w x.
Proof.
  intros Hw Hl. destruct (wi_owner _ _ Hw l x Hl) as [th Hx].
  destruct (wi_lookup _ _ _ _ Hw Hx) as (n & _ & Ht). unfold thread_ok in Ht.
  destruct (t_state th) as [|j h0 p] eqn:Hs; [by destruct (proj2 Ht l)|]. by exists th, j, h0, p.
Qed.

(** Whoever holds a lock can go on, or somebody with a later one can. *)
Lemma owner_progress ns w r l x : winv ns w → w_aborted w = false → w_owner w !! l = Some x →
  (3 - rank l ≤ r)%nat → red internal w.
Proof.
  intros Hw Hab. revert l x. induction r as [|r IH]; intros l x Hl Hr.
  { destruct l; cbn in Hr; lia. }
  destruct (busy_moves ns w x Hw Hab (owner_busy _ _ _ _ Hw Hl)) as [|(l' & y & Hl' & Ho)]; [done|].
  apply (IH l' y Hl'). specialize (Ho l Hl). lia.
Qed.

Lemma busy_progress ns w i : winv ns w → w_aborted w = false → busy w i → red internal w.
Proof.
  intros Hw Hab Hi. destruct (busy_moves ns w i Hw Hab Hi) as [|(l & x & Hl & _)]; [done|].
  by apply (owner_progress ns w (3 - rank l) l x Hw Hab Hl).
Qed.

(** ** Every iteration ends *)

Definition left_over (ns : list nat) (w : world) : nat :=
  if w_aborted w then 0 else S (sum_list ns).

Lemma sum_insert (ns : list nat) i n n' : ns !! i = Some n → (n' < n)%nat →
  (sum_list (<[i:=n']> ns) < sum_list ns)%nat.
Proof.
  revert i. induction ns as [|x ns IH]; intros [|i] Hi Hn; simplify_eq/=; [lia|].
  specialize (IH i Hi Hn). lia.
Qed.

Lemma internal_inv ns w w' : winv ns w → internal w w' →
  ∃ ns', winv ns' w' ∧ (left_over ns' w' < left_over ns w)%nat.
Proof.
  intros Hw [i Ha]. unfold advance in Ha. unfold left_over. destruct (w_aborted w); [done|].
  destruct (w_threads w !! i) as [th|] eqn:Hi; [|done]. cbn [mbind option_bind] in Ha.
  destruct (t_state th) as [|j h0 [[[[out buf] r]|]|a k]] eqn:Hs; [done| | |].
  - injection Ha as <-. destruct (finish_inv _ _ _ _ _ _ _ _ _ Hw Hi Hs) as (n & Hn & Hw').
    eexists. split; [exact Hw'|]. cbn. pose proof (sum_insert ns i _ n Hn). lia.
  - injection Ha as <-. exists ns. split; [|cbn; lia]. by destruct Hw.
  - destruct (enabled (w_owner w) i a) eqn:He; [|done]. injection Ha as <-.
    destruct (access_inv _ _ _ _ _ _ _ _ Hw Hi Hs He) as (n & Hn & Hw').
    eexists. split; [exact Hw'|]. cbn. pose proof (sum_insert ns i _ (S n) Hn). lia.
Qed.

Lemma internal_nsteps ns w k w' : winv ns w → nsteps internal k w w' →
  ∃ ns', winv ns' w' ∧ (k + left_over ns' w' ≤ left_over ns w)%nat.
Proof.
  intros Hw Hk. revert ns Hw. induction Hk as [w|k w1 w2 w3 H12 _ IH]; intros ns Hw.
  - by exists ns.
  - destruct (internal_inv _ _ _ Hw H12) as (ns2 & Hw2 & Hl2).
    destruct (IH _ Hw2) as (ns3 & Hw3 & Hl3). exists ns3. split; [done|]. lia.
Qed.

(** ** Reachable worlds *)

Definition reachable (w : world) : Prop := rtc world_step (init_world st) w.

Lemma init_winv : winv (replicate (S (length (s_ext_binds st))) 0%nat) (init_world st).
Proof.
  split; cbn [init_world w_mem w_hist w_done w_owner w_threads].
  - by split.
  - constructor.
  - constructor.
  - intros l i. by rewrite lookup_empty.
  - apply (Forall_replicate (λ n, n ≤ S cost)%nat). lia.
  - by rewrite length_replicate, length_cons, length_imap.
  - intros i th n Hi _. unfold thread_ok.
    assert (Ht : t_state th = Idle ∧ t_out th = zero_buf).
    { destruct i as [|i]; [by injection Hi as <-|]. cbn in Hi.
      by apply list_lookup_imap_Some in Hi as (? & _ & ->). }
    destruct Ht as [-> ->]. split; [apply zero_ok|]. intros l. by rewrite lookup_empty.
Qed.

Lemma step_length w w' : world_step w w' → length (w_threads w') = length (w_threads w).
Proof.
  intros [[i H]|(i & j & _ & H)]; revert H; unfold advance, receive; (destruct (w_aborted w); [done|]);
    (destruct (w_threads w !! i) as [th|]; [|done]); cbn [mbind option_bind].
  - destruct (t_state th) as [|j h0 [[[[out buf] r]|]|a k]]; [done| | |case_match; [|done]];
      intros [= <-]; cbn [w_threads]; by rewrite ?length_insert.
  - destruct (t_state th); [|done]. intros [= <-]. cbn [w_threads]. by rewrite length_insert.
Qed.

Lemma reachable_winv w : reachable w →
  (∃ ns, winv ns w) ∧ length (w_threads w) = S (length (s_ext_binds st)).
Proof.
  revert w. apply rtc_ind_r.
  - split; [eexists; apply init_winv|]. cbn. by rewrite length_imap.
  - intros w w' _ Hs [[ns Hw] Hl]. split; [|by rewrite (step_length w w')].
    destruct Hs as [Hs|(i & j & Hj & Hs)].
    + destruct (internal_inv _ _ _ Hw Hs) as (ns' & Hw' & _). by exists ns'.
    + eexists. by eapply receive_inv.
Qed.

Lemma sum_bound (ns : list nat) c : Forall (λ n, n ≤ c)%nat ns → (sum_list ns ≤ c * length ns)%nat.
Proof. induction 1 as [|n ns Hn _ IH]; simpl; lia. Qed.

Lemma left_over_bound ns w : winv ns w →
  (left_over ns w ≤ 1 + S cost * length (w_threads w))%nat.
Proof.
  intros Hw. rewrite <- (wi_len _ _ Hw). pose proof (sum_bound _ _ (wi_cost _ _ Hw)).
  unfold left_over. case_match; lia.
Qed.

(** From a reachable world, without new datagrams: within a bounded number of
    accesses every thread is waiting for a datagram and no lock is held, or
    the process has aborted. *)
Lemma threads_finish w k w' : reachable w → nsteps internal k w w' →
  (k ≤ 1 + S cost * S (length (s_ext_binds st)))%nat ∧
  (nf internal w' → w_aborted w' = false →
     (∀ i th, w_threads w' !! i = Some th → t_state th = Idle) ∧ w_owner w' = ∅).
Proof.
  intros Hr Hk. destruct (reachable_winv w Hr) as [[ns Hw] Hl].
  destruct (internal_nsteps _ _ _ _ Hw Hk) as (ns' & Hw' & Hb). split.
  { pose proof (left_over_bound ns w Hw). rewrite Hl in *. lia. }
  intros Hnf Hab.
  assert (Hidle : ∀ i, ¬ busy w' i) by (intros i Hi; by eapply Hnf, busy_progress).
  split.
  - intros i th Hi. destruct (t_state th) as [|j h0 p] eqn:Hs; [done|].
    destruct (Hidle i). by exists th, j, h0, p.
  - apply map_empty. intros l. destruct (w_owner w' !! l) as [x|] eqn:Hl'; [|done].
    destruct (Hidle x). by eapply owner_busy.
Qed.
End world.
