(* ===== verification/ThreadsProofs.v ===== *)
(** * userspace.rs: the proxy under every interleaving

    The iterations of the egress thread and of the ingress threads keep the
    promises of [IterSpec], so that what [ProxyRouting] shows of a sequence of
    whole iterations holds for the threads as they run: the tables follow the
    history in the order in which the locks were taken. *)

From stdpp Require Import gmap relations.
From S2P Require Import Prelude Words Slices ChaCha Obfs ObfsRoundtrip Sip Results Net Config.
From S2P Require Import SharedAddr Proxy ProxyTotal ProxyRouting Threads ThreadLogic.
Local Open Scope Z_scope.

#[local] Arguments wp : simpl never.

(** ** Cells *)

(** The program returns, keeps the locks it was given and leaves the history
    to the others. *)
Definition quiet {A} (held : gset lock) (h : list event) (o : outcome A) (held' : gset lock)
    (h' : list event) : Prop :=
  held' = held ∧ others held h h' ∧ ∃ a, o = Done a.

Lemma wp_cell {A} good n held h a (k : reply a → prog A) Q : is_cell a = true →
  (∀ r h', others held h h' → wp good n held h' (k r) Q) → wp good (S n) held h (Acc a k) Q.
Proof.
  intros Ha Hk h' Hh. destruct (cell_keeps a h' Ha) as [Ht Hc].
  split_and!; [by destruct a|done|]. intros r _. rewrite Hc.
  assert (Hheld : held_after a held = held) by by destruct a. rewrite Hheld. by apply Hk.
Qed.

Lemma wp_quiet {A} good n held h (a : A) h0 : others held h0 h →
  wp good n held h (Ret (Done a)) (quiet held h0).
Proof. intros Ho h' Hh. split_and!; [done|by trans h|by exists a]. Qed.

Lemma wp_load good w held h : wp good 6 held h (load_prog w) (quiet held h).
Proof.
  unfold load_prog. cbn. apply wp_cell; [done|]. intros fam h1 H1. cbn in fam |- *.
  destruct (fam =? 0); [by apply wp_quiet|]. cbn. apply wp_cell; [done|]. intros p h2 H2. cbn.
  apply wp_cell; [done|]. intros w0 h3 H3. cbn in w0 |- *.
  destruct (fam =? 4); [apply wp_quiet; by trans h1; [|trans h2]|]. cbn.
  apply wp_cell; [done|]. intros w1 h4 H4. apply wp_cell; [done|]. intros w2 h5 H5.
  apply wp_cell; [done|]. intros w3 h6 H6. apply wp_quiet.
  trans h1; [done|]. trans h2; [done|]. trans h3; [done|]. trans h4; [done|]. by trans h5.
Qed.

Lemma wp_raw good w held h : wp good 5 held h (load_raw_prog w) (quiet held h).
Proof.
  unfold load_raw_prog. cbn. apply wp_cell; [done|]. intros w0 h1 H1. apply wp_cell; [done|]. intros w1 h2 H2.
  apply wp_cell; [done|]. intros w2 h3 H3. apply wp_cell; [done|]. intros w3 h4 H4.
  apply wp_cell; [done|]. intros p h5 H5. apply wp_quiet.
  trans h1; [done|]. trans h2; [done|]. trans h3; [done|]. by trans h4.
Qed.

Lemma wp_write good w l held h h0 : others held h0 h →
  wp good (length l) held h (write_prog w l) (quiet held h0).
Proof.
  revert h. induction l as [|x l IH]; intros h Hh; [by apply wp_quiet|].
  apply wp_cell; [done|]. intros _ h' Hh'. apply IH. by trans h.
Qed.

Lemma wp_store good w a held h : wp good 6 held h (store_prog w a) (quiet held h).
Proof.
  apply (wp_mono good (length (relaxed_writes a ++ [release_write a])) _ _ _ _ (quiet held h));
    [|by apply wp_write|done].
  unfold relaxed_writes. rewrite !length_app, length_imap, length_ip_words. cbn. lia.
Qed.

(** Binding after a quiet program. *)
Lemma wp_after {A B} good n m held h (p : prog A) (f : A → prog B) Q :
  wp good n held h p (quiet held h) →
  (∀ a h', others held h h' → wp good m held h' (f a) Q) →
  wp good (n + m) held h (p ≫= f) Q.
Proof.
  intros Hp Hf. apply wp_bind. eapply wp_mono; [done|exact Hp|].
  intros o held' h' (-> & Hh & a & ->). by apply Hf.
Qed.

(** ** Tables *)

Lemma others_weaken held held' h h' : held ⊆ held' → others held' h h' → others held h h'.
Proof. intros Hs [H1 H2]. split; [done|]. intros Hin. apply H2. set_solver. Qed.

(** A program under a lock that follows those already held. *)
Lemma wp_with_lock {A} good n held h l (p : prog A) Q :
  (∀ l', l' ∈ held → (rank l' < rank l)%nat) →
  (∀ h1, others held h h1 →
     wp good n ({[l]} ∪ held) h1 p (λ o held' h', ∃ a, o = Done a ∧ held' = {[l]} ∪ held ∧
       ∀ h2, others held h' h2 → Q (Done a) held h2)) →
  wp good (S (n + 1)) held h (with_lock l p) Q.
Proof.
  intros Hr Hp h1 H1. split_and!; [exact Hr|by intros s|]. intros u _.
  refine (wp_bind good n 1 ({[l]} ∪ held) h1 p _ _ _). eapply wp_mono; [done|by apply Hp|].
  intros o held' h' (a & -> & -> & HQ) h2 H2. split_and!; [cbn; set_solver|by intros s|].
  intros u2 _ h3 H3. assert (Hl : l ∉ held) by (intros Hl; specialize (Hr l Hl); lia).
  assert (E : held_after (AUnlock l) ({[l]} ∪ held) = held) by (cbn; set_solver).
  rewrite E in *. apply HQ. trans h2; [|done]. eapply others_weaken; [|done]. set_solver.
Qed.

(** One access of a table. *)
Lemma wp_table {A} good held h a (f : reply a → A) Q :
  match a with ALock _ | AUnlock _ => False | _ => True end →
  (∀ h1, others held h h1 → allowed good held a ∧ keeps_tracks h1 a ∧
     ∀ r h2, answers h1 a r → others held (commit a h1) h2 → Q (Done (f r)) held h2) →
  wp good 1 held h (Acc a (λ r, Ret (Done (f r)))) Q.
Proof.
  intros Hna Ha h1 H1. destruct (Ha h1 H1) as (Hal & Hk & Hq). split_and!; [done..|].
  intros r Hr h2. assert (E : held_after a held = held) by by destruct a. rewrite E.
  by apply Hq.
Qed.

Lemma wp_locked {A} good h l a (f : reply a → A) Q :
  match a with ALock _ | AUnlock _ => False | _ => True end →
  (∀ h1, h `suffix_of` h1 → allowed good {[l]} a ∧ keeps_tracks h1 a ∧
     ∀ r h2, answers h1 a r → commit a h1 `suffix_of` h2 → Q (Done (f r)) ∅ h2) →
  wp good 3 ∅ h (with_lock l (Acc a (λ r, Ret (Done (f r))))) Q.
Proof.
  intros Hna Ha. apply (wp_with_lock good 1); [set_solver|]. intros h1 [H1 _].
  apply wp_table; [done|]. intros h2 [H2 _]. destruct (Ha h2) as (Hal & Hk & Hq); [by trans h1|].
  rewrite (right_id_L ∅ (∪)). split_and!; [done..|]. intros r h3 Hr [H3 _]. exists (f r).
  split_and!; [done..|]. intros h4 [H4 _]. apply (Hq r); [done|]. by trans h3.
Qed.

(** ** The history *)

Lemma bind_keeps h b n : (wg_type_of b =? 2) && (12 <=? n)%nat = true →
  keeps_tracks h (ASessionInsert (index_at b 4) (index_at b 8) (Outbound b n)).
Proof.
  intros Ht s [Hc Hs]. split; [done|]. intros i. cbn [effect session_map commit bound]. rewrite Ht.
  cbn [andb]. destruct (Z.eqb_spec (index_at b 4) i) as [<-|].
  - apply lookup_insert_eq.
  - by rewrite lookup_insert_ne.
Qed.

Lemma learn_keeps h b n src c : client_of h b n = Some c →
  keeps_tracks h (AClientInsert c src (Inbound b n src)).
Proof.
  intros Hc s [Hl Hs]. split; [|done]. intros c'. cbn [effect client_map commit located].
  rewrite Hc. destruct (decide (Some c = Some c')) as [[= ->]|Hne].
  - apply lookup_insert_eq.
  - rewrite lookup_insert_ne; [done|congruence].
Qed.

(** ** Egress *)

Section iterations.
  Context (st : setup) (good : event → Prop) (Hgood : ∀ b n, good (Outbound b n)).

Lemma wp_track src h : wp good 11 ∅ h (track_prog st src) (quiet ∅ h).
Proof.
  unfold track_prog. destruct (s_is_server st).
  { by apply wp_quiet. }
  apply (wp_after good 5 6); [apply wp_raw|]. intros raw h' Hh. destruct (raw =? _).
  - by apply wp_quiet.
  - eapply wp_mono; [done|apply wp_store|]. intros o held h2 (-> & H2 & Ha).
    split_and!; [done|by trans h'|done].
Qed.

Lemma wp_mode d h : wp good 3 ∅ h (mode_prog st d) (quiet ∅ h).
Proof.
  unfold mode_prog. destruct (s_is_server st); [|by apply wp_quiet].
  apply (wp_after good 3 0); [|intros a h' Hh; by apply wp_quiet].
  apply (wp_locked good h LObfs (AObfsGet d) id); [done|]. intros h1 H1.
  split_and!; [cbn; set_solver|by intros s|]. intros r h2 _ H2.
  split_and!; [done| |by eexists]. apply others_nil. by trans h1.
Qed.

(** The answer of the client table, at some moment of the iteration. *)
Definition routed (h : list event) (buf : list Z) (size : nat) (d : option SocketAddr)
    (h' : list event) : Prop :=
  ∃ h1, h `suffix_of` h1 ∧ h1 `suffix_of` h' ∧ d = destination h1 buf size ∧
    ((wg_type_of buf =? 2) && (12 <=? size)%nat = true →
       ∃ h2, h `suffix_of` h2 ∧ (Outbound buf size :: h2) `suffix_of` h1).

Lemma wp_client_get c h Q : (∀ h1 h2, h `suffix_of` h1 → h1 `suffix_of` h2 → Q (Done (located h1 c)) ∅ h2) →
  wp good 3 ∅ h (with_lock LClients (access (AClientGet c))) Q.
Proof.
  intros HQ. apply (wp_locked good h LClients (AClientGet c) id); [done|]. intros h1 H1.
  split_and!; [cbn; set_solver|by intros s|]. intros r h2 Hr H2. cbn in Hr. subst r. by apply HQ.
Qed.

Lemma wp_route buf size h : s_dynamic st = true → (12 ≤ length buf)%nat →
  wp good 6 ∅ h (route_prog st buf size)
    (λ o held h', held = ∅ ∧ ∃ d, o = Done d ∧ routed h buf size d h').
Proof.
  intros Hd Hl. unfold route_prog. rewrite Hd. cbn [negb].
  assert (Hnone : ∀ d, d = None → (wg_type_of buf =? 2) && (12 <=? size)%nat = false →
    destination h buf size = None →
    wp good 6 ∅ h (Ret (Done d)) (λ o held h', held = ∅ ∧ ∃ d, o = Done d ∧ routed h buf size d h')).
  { intros d -> Ht Hn h' [Hh _]. split; [done|]. eexists. split; [done|]. exists h.
    rewrite Ht. by split_and!. }
  destruct (Nat.leb_spec 4 size) as [H4|H4].
  2: { apply Hnone; [done|..]; unfold destination;
         (destruct (Nat.leb_spec 12 size); [lia|]); rewrite andb_false_r; [done|].
       destruct (Nat.leb_spec 8 size); [lia|]. by rewrite andb_false_r. }
  rewrite get_total by lia. cbn [mbind prog_bind prog_then]. fold (wg_type_of buf).
  destruct (Z.eqb_spec (wg_type_of buf) 1) as [E1|_].
  { apply Hnone; [done|..]; unfold destination; by rewrite E1. }
  destruct ((wg_type_of buf =? 2) && (12 <=? size)%nat) eqn:E2.
  - rewrite !read_u32_le_Done by lia. cbn [mbind prog_bind prog_then].
    fold (index_at buf 4) (index_at buf 8). apply (wp_bind good 3 3).
    apply (wp_locked good h LSession _ (λ _, tt)); [done|]. intros h1 H1.
    split_and!; [cbn; set_solver|by apply bind_keeps|]. intros _ h2 _ H2. cbn [commit] in H2.
    apply wp_client_get. intros h3 h4 H3 H4'. split; [done|]. eexists. split; [done|].
    exists h3. split_and!; [|done| |].
    + trans h2; [|done]. trans (Outbound buf size :: h1); [|done]. by apply suffix_cons_r.
    + unfold destination. by rewrite E2.
    + intros _. exists h1. split; [done|]. by trans h2.
  - destruct (((wg_type_of buf =? 3) || (wg_type_of buf =? 4)) && (8 <=? size)%nat) eqn:E3.
    + rewrite read_u32_le_Done by lia. cbn [mbind prog_bind prog_then]. fold (index_at buf 4).
      eapply (wp_mono good 3); [lia| |intros o held h' HQ; exact HQ]. apply wp_client_get. intros h1 h2 H1 H2.
      split; [done|]. eexists. split; [done|]. exists h1. rewrite E2. split_and!; [done..| |done].
      unfold destination. by rewrite E2, E3.
    + apply Hnone; [done|done|]. unfold destination. by rewrite E2, E3.
Qed.

Lemma wp_route_static buf size h : s_dynamic st = false →
  wp good 6 ∅ h (route_prog st buf size) (quiet ∅ h).
Proof.
  intros Hd. unfold route_prog. rewrite Hd. cbn [negb]. apply (wp_after good 6 0); [apply wp_load|].
  intros a h' Hh. by apply wp_quiet.
Qed.

(** What an egress iteration that started with history [h0] has done. *)
Definition egress_post (out : list Z) (j : job) (h0 : list event)
    (o : outcome (list Z * list Z * option send)) (h : list event) : Prop :=
  match o with
  | Panic => True
  | Done (out', buf', r) =>
      s_dynamic st = true →
      ∃ d, routed h0 (j_buf j) (j_size j) d h ∧
        match d with
        | None => r = None
        | Some d => ∃ m, egress_finish st (j_clock j) m out (j_buf j) (j_size j) (j_src j) d
                         = Done (out', buf', r)
        end
  end.

Lemma routed_later h buf size d h1 h2 : routed h buf size d h1 → h1 `suffix_of` h2 →
  routed h buf size d h2.
Proof. intros (h' & ? & ? & ? & ?) Hs. exists h'. split_and!; [done|by trans h1|done..]. Qed.

Lemma routed_earlier h h' buf size d h1 : h `suffix_of` h' → routed h' buf size d h1 →
  routed h buf size d h1.
Proof.
  intros Hs (h2 & H1 & ? & ? & Hb). exists h2. split_and!; [by trans h'|done..|].
  intros Ht. destruct (Hb Ht) as (h3 & ? & ?). exists h3. split; [by trans h'|done].
Qed.

Lemma wp_egress out j h : (12 ≤ length (j_buf j))%nat →
  wp good 20 ∅ h (egress_prog st (j_clock j) out (j_buf j) (j_size j) (j_src j))
    (λ o held h', held = ∅ ∧ egress_post out j h o h').
Proof.
  intros Hl. apply (wp_after good 11 9); [apply wp_track|]. intros _ h1 [H1 _].
  apply (wp_bind good 6 3).
  destruct (s_dynamic st) eqn:Hd.
  - eapply wp_mono; [done|by apply wp_route|]. intros o held h2 (-> & d & -> & Hr).
    apply (routed_earlier h) in Hr; [|done]. destruct d as [d|].
    + apply (wp_after good 3 0); [apply wp_mode|]. intros m h3 [H3 _] h4 [H4 _].
      split; [done|]. unfold egress_post.
      destruct (egress_finish _ _ _ _ _ _ _ _) as [[[out' b'] r]|] eqn:E; [|done]. intros _.
      exists (Some d). split; [|by exists m]. eapply routed_later; [done|]. by trans h3.
    + intros h3 [H3 _]. split; [done|]. intros _. exists None. split; [|done].
      by eapply routed_later.
  - eapply wp_mono; [done|by apply wp_route_static|]. intros o held h2 (-> & _ & d & ->).
    assert (Hp : ∀ o h', egress_post out j h o h').
    { intros [[[??]?]|] h'; [|done]. intros Hd'. congruence. }
    destruct d as [d|]; [|by intros h3 _].
    apply (wp_after good 3 0); [apply wp_mode|]. by intros m h3 _ h4 _.
Qed.

(** ** Ingress *)

(** The client table was updated if the message belonged to a client at some
    moment of the iteration. *)
Definition learnt (h : list event) (b : list Z) (n : nat) (src : SocketAddr) (h' : list event) : Prop :=
  ∃ h1, h `suffix_of` h1 ∧
    match client_of h1 b n with
    | Some _ => (Inbound b n src :: h1) `suffix_of` h'
    | None => h1 `suffix_of` h'
    end.

Lemma wp_insert n h0 h b k src c held :
  good (Inbound b k src) → (∀ l', l' ∈ held → l' = LSession) → h0 `suffix_of` h →
  (∀ h', others held h h' → client_of h' b k = Some c) → n = 3%nat →
  wp good n held h (with_lock LClients (put (AClientInsert c src (Inbound b k src))))
    (λ o held' h', o = Done tt ∧ held' = held ∧ learnt h0 b k src h').
Proof.
  intros Hg Hheld Hh0 Hc ->. apply (wp_with_lock good 1).
  { intros l' ->%Hheld. cbn. lia. }
  intros h1 H1. apply (wp_table good _ h1 _ (λ _, tt)); [done|]. intros h2 H2.
  assert (H12 : others held h h2).
  { trans h1; [done|]. eapply others_weaken; [|done]. set_solver. }
  split_and!; [cbn; set_solver|by apply learn_keeps, Hc|]. intros _ h3 _ [H3 _]. exists tt.
  split_and!; [done..|]. intros h4 [H4 _]. split_and!; [done..|]. exists h2.
  rewrite (Hc h2 H12). split; [|by trans h3]. trans h; [done|]. apply H12.
Qed.

Lemma client_of_long b k h : (8 <=? k)%nat = true →
  client_of h b k = (if wg_type_of b =? 1 then (if index_at b 4 =? 0 then None else Some (index_at b 4))
                     else if wg_type_of b =? 4 then bound h (index_at b 4) else None).
Proof. unfold client_of. by intros ->. Qed.

Lemma wp_learn b k src h : good (Inbound b k src) → (12 ≤ length b)%nat →
  wp good 6 ∅ h (learn_prog st b k src)
    (λ o held h', o = Done tt ∧ held = ∅ ∧ (s_dynamic st = true → learnt h b k src h')).
Proof.
  intros Hg Hl. unfold learn_prog.
  assert (Hnone : (s_dynamic st = true → client_of h b k = None) →
    wp good 6 ∅ h (Ret (Done tt))
      (λ o held h', o = Done tt ∧ held = ∅ ∧ (s_dynamic st = true → learnt h b k src h'))).
  { intros Hc h' [Hh _]. split_and!; [done..|]. intros Hd. exists h. by rewrite Hc. }
  destruct (s_dynamic st) eqn:Hd; cbn [andb negb]; [|by apply Hnone].
  destruct (8 <=? k)%nat eqn:H8; cbn [negb].
  2: { apply Hnone. intros _. unfold client_of. by rewrite H8. }
  rewrite get_total by lia. cbn [mbind prog_bind prog_then]. fold (wg_type_of b).
  pose proof (λ h, client_of_long b k h H8) as Hco.
  destruct (wg_type_of b =? 1).
  - rewrite read_u32_le_Done by lia. cbn [mbind prog_bind prog_then]. fold (index_at b 4).
    destruct (index_at b 4 =? 0); [by apply Hnone|].
    eapply (wp_mono good 3); [lia|apply (wp_insert 3 h); try done; set_solver|].
    intros o held h' (-> & -> & Hle). by split_and!.
  - destruct (wg_type_of b =? 4); [|by apply Hnone].
    rewrite read_u32_le_Done by lia. cbn [mbind prog_bind prog_then]. fold (index_at b 4).
    apply (wp_with_lock good 4); [set_solver|]. intros h1 [H1 _]. apply (wp_bind good 1 3).
    apply (wp_table good _ h1 _ id); [done|]. intros h2 [H2 _].
    split_and!; [cbn; set_solver|by intros s|]. intros r h3 Hr [H3 Hb]. cbn in Hr, H3, Hb. subst r.
    specialize (Hb ltac:(set_solver) (index_at b 4)). destruct (bound h2 (index_at b 4)) as [c|] eqn:Ec.
    + eapply wp_mono; [done|apply (wp_insert 3 h)|]; try done.
      * set_solver.
      * trans h1; [done|]. by trans h2.
      * intros h' [_ Hb']. rewrite Hco, Hb' by set_solver. by rewrite Hb.
      * intros o held h' (-> & -> & Hle). exists tt. split_and!; [done..|].
        intros h4 [H4 _]. split_and!; [done..|]. intros _. destruct Hle as (h5 & ? & Hm). exists h5.
        split; [done|]. destruct (client_of h5 b k); by trans h'.
    + intros h4 [H4 Hb4]. exists tt. split_and!; [done..|]. intros h5 [H5 _]. split_and!; [done..|].
      intros _. exists h3. rewrite Hco, Hb. split; [trans h1; [done|by trans h2]|]. by trans h4.
Qed.
End iterations.

(** The WireGuard message an ingress iteration takes out of a datagram. *)
Definition ingress_message (st : setup) (out buf : list Z) (size : nat) : option (list Z * nat) :=
  match unwrap_envelope out buf size with
  | Done (_, b, n, UData prepend _ _) =>
      match detect st b n prepend with
      | Done (b, true, m) =>
          match obfs_decap b n (s_key_init st) (s_rounds st) m with
          | Done (b, Some (k, _, _)) => Some (b, k)
          | _ => None
          end
      | _ => None
      end
  | _ => None
  end.

(** A message in the history is one that a holder of the key has sent. *)
Definition authentic (st : setup) (e : event) : Prop :=
  match e with
  | Inbound b n _ => ∃ out buf size,
      authenticated st out buf size ∧ ingress_message st out buf size = Some (b, n)
  | Outbound _ _ => True
  end.

(** The end of an iteration that took the message [b] of length [n] from
    [src]: the tables know it and WireGuard gets it. *)
Definition accepted (st : setup) (h0 : list event) (b : list Z) (n : nat) (src : SocketAddr)
    (r : option send) (h : list event) : Prop :=
  (s_dynamic st = true → learnt h0 b n src h) ∧
  (s_is_server st = true → r = Some (mkSend Local (take n b) (s_wg_addr st))) ∧
  (∀ s, r = Some s → via s = Local ∧ payload s = take n b).

(** What an ingress iteration that started with history [h0] has done. *)
Definition ingress_post (st : setup) (i : nat) (out : list Z) (j : job) (h0 : list event)
    (o : outcome (list Z * list Z * option send)) (h : list event) : Prop :=
  ∃ out' buf' r, o = Done (out', buf', r) ∧ length out' = length out ∧ bytes out' ∧
    match ingress_message st out (j_buf j) (j_size j) with
    | Some (b, n) => accepted st h0 b n (j_src j) r h
    | None => r = None ∨ s_is_server st = true ∧ ∃ p, r = Some (mkSend (Ext i) p (j_src j))
    end.

Record receivable (j : job) : Prop := {
  rj_bytes : bytes (j_buf j);
  rj_min : (64 ≤ length (j_buf j))%nat;
  rj_max : Z.of_nat (length (j_buf j)) ≤ 66083;
  rj_size : (j_size j ≤ length (j_buf j))%nat;
  rj_src : addr_ok (j_src j);
  rj_clock : clock_wf (j_clock j)
}.

Definition buffer_ok (r : role) (out : list Z) : Prop :=
  match r with Egress => True | Ingress _ => bytes out ∧ Z.of_nat (length out) = 65536 end.

Section ingress.
  Context (st : setup) (Hst : setup_ok st).

Lemma learnt_later h0 b k src h h' : learnt h0 b k src h → h `suffix_of` h' → learnt h0 b k src h'.
Proof.
  intros (h1 & H1 & Hm) Hs. exists h1. split; [done|]. destruct (client_of h1 b k); by trans h.
Qed.

Lemma learnt_earlier h0 h1 b k src h : h0 `suffix_of` h1 → learnt h1 b k src h → learnt h0 b k src h.
Proof. intros Hs (h2 & H2 & Hm). exists h2. split; [by trans h1|done]. Qed.

(** The payload goes to WireGuard. *)
Lemma wp_deliver b k src h0 h : (k ≤ length b)%nat → (s_dynamic st = true → learnt h0 b k src h) →
  wp (authentic st) 6 ∅ h
    (d ← (if s_is_server st then mret (Some (s_wg_addr st)) else load_prog WgPeer);
     match d with
     | Some d => p ← Ret (slice b 0 k); mret (b, Some (mkSend Local p d))
     | None => mret (b, None)
     end)
    (λ o held h', held = ∅ ∧ ∃ r, o = Done (b, r) ∧ accepted st h0 b k src r h').
Proof.
  intros Hk Hle. rewrite slice_Done, Nat.sub_0_r, window_0 by lia. destruct (s_is_server st) eqn:Es.
  - intros h1 [H1 _]. split; [done|]. eexists. split; [done|]. split_and!; [|done|].
    + intros Hd. by eapply learnt_later; [apply Hle|].
    + by intros s [= <-].
  - apply (wp_after _ 6 0); [apply wp_load|]. intros [d|] h1 [H1 _] h2 [H2 _];
      (split; [done|]); eexists; (split; [done|]); split_and!; try congruence.
    1, 3: intros Hd; eapply learnt_later; [by apply Hle|by trans h1].
    by intros s [= <-].
Qed.

Lemma wp_accept b n src m h : bytes b → (n ≤ length b)%nat → (12 ≤ length b)%nat →
  (∀ b' k sp dp, obfs_decap b n (s_key_init st) (s_rounds st) m = Done (b', Some (k, sp, dp)) →
     authentic st (Inbound b' k src)) →
  wp (authentic st) 21 ∅ h (accept_prog st b n src m)
    (λ o held h', held = ∅ ∧ ∃ b' r k, o = Done (b', r) ∧
       obfs_decap b n (s_key_init st) (s_rounds st) m = Done (b', k) ∧
       match k with None => r = None | Some (k, _, _) => accepted st h b' k src r h' end).
Proof.
  intros Hb Hn H12 Hau. destruct Hst as [Hk _ _]. apply (wp_after _ 3 18).
  { destruct (s_is_server st); [|by apply wp_quiet].
    apply (wp_locked _ h LObfs _ (λ _, tt)); [done|]. intros h1 H1. split_and!; [cbn; set_solver| |].
    - intros s. by apply tracks_tables.
    - intros r h2 _ H2. split_and!; [done| |by eexists]. apply others_nil. by trans h1. }
  intros _ h1 [H1 _].
  destruct (obfs_decap_Done b n (s_key_init st) (s_rounds st) m Hk Hb Hn)
    as (b' & [[[k sp] dp]|] & E & Hl & Hkn); rewrite E; cbn [mbind prog_bind prog_then].
  2: { intros h2 _. split; [done|]. by exists b', None, None. }
  specialize (Hkn k sp dp eq_refl).
  apply (wp_after _ 6 12); [apply wp_store|]. intros _ h2 [H2 _]. apply (wp_bind _ 6 6).
  eapply wp_mono; [done|apply (wp_learn st (authentic st) (λ _ _, I) b' k src h2); [by eapply Hau|lia]|]. intros o held h3 (-> & -> & Hle).
  eapply wp_mono; [done|apply (wp_deliver b' k src h)|].
  - lia.
  - intros Hd. eapply learnt_earlier; [|by apply Hle]. by trans h1.
  - intros o held h4 (-> & r & -> & Ha). split; [done|]. by eexists _, _, (Some (k, sp, dp)).
Qed.

Lemma wp_ingress i out j h : receivable j → buffer_ok (Ingress i) out →
  wp (authentic st) 21 ∅ h (ingress_prog st (j_clock j) i out (j_buf j) (j_size j) (j_src j))
    (λ o held h', held = ∅ ∧ ingress_post st i out j h o h').
Proof.
  intros [Hb Hmin Hmax Hs Hsrc Ht] [Hob Hol].
  assert (Hib : ingress_bufs out (j_buf j)).
  { split; [done..|]. pose proof (Nat.div_mod_eq (length (j_buf j)) 4). lia. }
  unfold ingress_prog, ingress_post, ingress_message.
  destruct (unwrap_total out (j_buf j) (j_size j) Hib Hs) as (ob & b & n & u & E & Ho & Hbl & Hbb & Hn).
  pose proof (unwrap_out_bytes _ _ _ _ _ _ _ Hob E) as Hobb. rewrite E. cbn [mbind prog_bind prog_then].
  destruct u as [|k|prepend rtp k].
  - intros h1 _. split; [done|]. eexists _, _, _. split_and!; [done..|]. by left.
  - destruct (s_is_server st) eqn:Es.
    + destruct (sip_response_total st Hst _ Ht k 5060 (j_src j)) as [p ->]; [lia|done|].
      intros h1 _. split; [done|]. eexists _, _, _. split_and!; [done..|]. right.
      split; [done|]. by exists p.
    + intros h1 _. split; [done|]. eexists _, _, _. split_and!; [done..|]. by left.
  - destruct (detect_total st Hst b n prepend) as (g & m & Ed); [done|lia|lia|]. rewrite Ed.
    cbn [mbind prog_bind prog_then]. destruct g; cbn [negb].
    + apply (wp_bind _ 21 0). eapply wp_mono; [done|apply wp_accept; [done|lia|lia|]|].
      * intros b' k' sp dp Hd. exists out, (j_buf j), (j_size j).
        split; [by eapply detect_authenticated|]. unfold ingress_message. by rewrite E, Ed, Hd.
      * intros o held h1 (-> & b' & r & k' & -> & Hd & Ha) h2 [H2 _]. rewrite Hd. split; [done|].
        eexists _, _, _. split_and!; [done..|]. destruct k' as [[[k' ?] ?]|]; [|by left].
        destruct Ha as (Hle & Ha). split; [|done]. intros Hdy. by eapply learnt_later; [apply Hle|].
    + destruct (reject_total st Hst _ Ht i b n (j_src j) prepend rtp k) as [r Er]; [done|lia|done|].
      rewrite Er. intros h1 _. split; [done|]. eexists _, _, _. split_and!; [done..|].
      by eapply reject_answer.
Qed.
End ingress.

(** ** The world *)

#[global] Program Instance proxy_iterations (st : setup) (Hst : setup_ok st) : IterSpec st := {|
  good := authentic st;
  out_ok := buffer_ok;
  job_ok := receivable;
  post r out j h o h' := match r with
                         | Egress => egress_post st out j h o h'
                         | Ingress i => ingress_post st i out j h o h'
                         end;
  cost := 21
|}.
Next Obligation.
  intros st Hst [|i]; [done|]. split; [by apply (Forall_replicate (in_width 8))|].
  unfold zero_buf. rewrite length_replicate. lia.
Qed.
Next Obligation.
  intros st Hst [|i] out j h Hout Hj.
  - eapply (wp_mono _ 20); [lia| |intros o held h' HQ; exact HQ].
    apply (wp_egress st (authentic st) (λ _ _, I)). pose proof (rj_min _ Hj). lia.
  - by apply wp_ingress.
Qed.
Next Obligation.
  intros st Hst [|i] out j h out' buf s h' Hout; [done|].
  intros (? & ? & ? & [= <- <- <-] & Hl & Hb & _). split; [done|]. rewrite Hl. apply Hout.
Qed.

(** The worlds the process can be in: its threads interleaved in any way, on
    any datagrams. *)
Definition proxy_step (st : setup) (w w' : world) : Prop :=
  internal w w' ∨ ∃ i j, receivable j ∧ receive st w i j = Some w'.

Definition runs (st : setup) (w : world) : Prop := rtc (proxy_step st) (init_world st) w.

(** What is true of a finished iteration. *)
Definition finished (st : setup) (e : entry) : Prop :=
  match en_role e with
  | Egress => egress_post st (en_out e) (en_job e) (en_from e) (Done (en_result e)) (en_to e)
  | Ingress i => ingress_post st i (en_out e) (en_job e) (en_from e) (Done (en_result e)) (en_to e)
  end.

Lemma runs_winv st (Hst : setup_ok st) w : runs st w →
  ∃ ns, @winv st (proxy_iterations st Hst) ns w.
Proof. intros Hr. by apply (@reachable_winv st (proxy_iterations st Hst)). Qed.

(** Only the egress thread can panic. *)
Lemma abort_egress st w i w' : setup_ok st → runs st w → advance w i = Some w' →
  w_aborted w' = true → ∃ th, w_threads w !! i = Some th ∧ t_role th = Egress.
Proof.
  intros Hst Hr Ha Hab. destruct (runs_winv st Hst w Hr) as [ns Hw]. unfold advance in Ha.
  destruct (w_aborted w); [done|]. destruct (w_threads w !! i) as [th|] eqn:Hi; [|done].
  exists th. split; [done|]. destruct (wi_lookup _ _ _ _ _ Hw Hi) as (n & _ & Hout & Ht).
  cbn [mbind option_bind] in Ha. destruct (t_state th) as [|j h0 [[[[out buf] r]|]|a k]]; try done.
  - by injection Ha as <-.
  - destruct Ht as (m & held & h & _ & _ & Hoth & Hwp). destruct (Hwp _ Hoth) as [_ Hp].
    destruct (t_role th) as [|x]; [done|]. by destruct Hp as (? & ? & ? & ? & _).
  - destruct (enabled _ _ _); [|done]. by injection Ha as <-.
Qed.


(** C9: the threads never wait for each other forever. Without new datagrams,
    any schedule comes to an end within 22 accesses per thread (and one for an
    abort); when no thread can go on, every thread is waiting for its next
    datagram and every lock is free, unless the process has aborted, which
    only the egress thread can cause. *)
Theorem threads_deadlock_free st w k w' :
  setup_ok st → runs st w → nsteps internal k w w' →
  (k ≤ 1 + 22 * S (length (s_ext_binds st)))%nat ∧
  (nf internal w' → w_aborted w' = false →
     (∀ i th, w_threads w' !! i = Some th → t_state th = Idle) ∧ w_owner w' = ∅) ∧
  (∀ i w2, advance w' i = Some w2 → w_aborted w2 = true →
     ∃ th, w_threads w' !! i = Some th ∧ t_role th = Egress).
Proof.
  intros Hst Hr Hk. destruct (@threads_finish st (proxy_iterations st Hst) w k w' Hr Hk) as [Hb Hf].
  split_and!; [exact Hb|done|]. intros i w2. apply (abort_egress st); [done|].
  unfold runs. trans w; [done|]. apply (rtc_subrel internal (proxy_step st)); [by left|].
  by eapply rtc_nsteps_2.
Qed.

(** ** userspace.rs: schedules of the proxy threads

    A schedule is the order in which the threads receive and go on; it is
    executed.  A dynamic server handles the handshake of a client while the
    answer of WireGuard is already on its way. *)

Inductive turn := Recv (i : nat) (j : job) | Go (i : nat).

Fixpoint run_schedule (st : setup) (w : world) (l : list turn) : option world :=
  match l with
  | [] => Some w
  | Recv i j :: l => w' ← receive st w i j; run_schedule st w' l
  | Go i :: l => w' ← advance w i; run_schedule st w' l
  end.

Definition turn_ok (t : turn) : Prop := match t with Recv _ j => receivable j | Go _ => True end.

Lemma run_schedule_steps st w l w' : Forall turn_ok l → run_schedule st w l = Some w' →
  rtc (proxy_step st) w w'.
Proof.
  intros HF. revert w. induction HF as [|t l Ht HF IH]; intros w; [by intros [= <-]|].
  destruct t as [i j|i]; cbn [run_schedule]; intros H; apply bind_Some in H as (w2 & H1 & H2).
  - apply rtc_l with w2; [right; by exists i, j|by apply IH].
  - apply rtc_l with w2; [left; by exists i|by apply IH].
Qed.

(** The client's handshake datagram, as its own egress iteration sends it. *)
Definition client_setup : setup := sample_setup false Gut.
Definition server_setup : setup := dynamic_setup (sample_setup true Gut).

Definition handshake : list Z := [1; 0; 0; 0; 5; 0; 0; 0] ++ replicate 140 7.
Definition handshake_response : list Z := [2; 0; 0; 0; 9; 0; 0; 0; 5; 0; 0; 0] ++ replicate 80 8.

Definition handshake_datagram : list Z :=
  match egress_packet client_setup sample_clock init_shared (replicate 2000 0)
          (handshake ++ replicate 1000 0) 148 sample_addr with
  | Done (_, _, _, Some s) => payload s
  | _ => []
  end.

Definition client_addr : SocketAddr := mkAddr (V4 [198; 51; 100; 7]) 40000.
Definition hs_job : job :=
  mkJob (handshake_datagram ++ replicate 200 0) (length handshake_datagram) client_addr sample_clock.
Definition resp_job : job := mkJob (handshake_response ++ replicate 2000 0) 92 sample_addr sample_clock.

(** The interleaving: both threads receive; the ingress thread notes the mode
    and the endpoint; the egress thread binds the session; the ingress thread
    learns the client; the egress thread finds it and answers. *)
Definition turns : list nat := replicate 9 1%nat ++ replicate 3 0%nat ++ replicate 4 1%nat ++ replicate 7 0%nat.
Definition arrivals : list turn := [Recv 1 hs_job; Recv 0 resp_job].

Definition destinations (w : world) : list (role * option SocketAddr) :=
  (λ e, (en_role e, dest <$> snd (en_result e))) <$> w_done w.

Lemma run_schedule_app st w l1 l2 :
  run_schedule st w (l1 ++ l2) = (w' ← run_schedule st w l1; run_schedule st w' l2).
Proof.
  revert w. induction l1 as [|[i j|i] l1 IH]; intros w; [done|..]; cbn [app run_schedule].
  - destruct (receive st w i j); [|done]. apply IH.
  - destruct (advance w i); [|done]. apply IH.
Qed.

Lemma go_steps st w l w' : run_schedule st w (Go <$> l) = Some w' → nsteps internal (length l) w w'.
Proof.
  revert w. induction l as [|i l IH]; intros w.
  - intros [= <-]. constructor.
  - cbn [fmap list_fmap run_schedule]. intros (w2 & H1 & H2)%bind_Some.
    apply nsteps_l with w2; [by exists i|by apply IH].
Qed.

Lemma server_setup_ok : setup_ok server_setup.
Proof. destruct (sample_setup_ok true Gut) as [H1 H2 H3]. by split. Qed.

Lemma client_addr_ok : addr_ok client_addr.
Proof.
  split; [split; [done|]|by split]. repeat (apply Forall_cons; split; [by split|]). constructor.
Qed.

Lemma hs_job_ok : receivable hs_job.
Proof.
  split.
  - apply (bool_decide_eq_true_1 (Forall (in_width 8) (j_buf hs_job))). vm_compute. reflexivity.
  - apply Nat.leb_le. vm_compute. reflexivity.
  - apply Z.leb_le. vm_compute. reflexivity.
  - apply Nat.leb_le. vm_compute. reflexivity.
  - apply client_addr_ok.
  - apply sample_clock_wf.
Qed.

Lemma resp_job_ok : receivable resp_job.
Proof.
  split.
  - apply (bool_decide_eq_true_1 (Forall (in_width 8) (j_buf resp_job))). vm_compute. reflexivity.
  - apply Nat.leb_le. vm_compute. reflexivity.
  - apply Z.leb_le. vm_compute. reflexivity.
  - apply Nat.leb_le. vm_compute. reflexivity.
  - apply sample_addr_ok.
  - apply sample_clock_wf.
Qed.

Lemma arrivals_ok : Forall turn_ok arrivals.
Proof. exact (Forall_cons_2 _ (Recv 1 hs_job) _ hs_job_ok
         (Forall_cons_2 _ (Recv 0 resp_job) _ resp_job_ok (Forall_nil_2 _))). Qed.

Lemma race_result :
  destinations <$> run_schedule server_setup (init_world server_setup) (arrivals ++ (Go <$> turns))
  = Some [(Egress, Some client_addr); (Ingress 0, Some (mkAddr (V4 [127; 0; 0; 1]) 51820))].
Proof. vm_compute. reflexivity. Qed.

Lemma race_runs : ∃ w w', runs server_setup w ∧ nsteps internal 23 w w' ∧ runs server_setup w' ∧
  destinations w' = [(Egress, Some client_addr); (Ingress 0, Some (mkAddr (V4 [127; 0; 0; 1]) 51820))].
Proof.
  pose proof race_result as Hr. apply fmap_Some in Hr as (w' & Hw' & Hd). symmetry in Hd.
  rewrite run_schedule_app in Hw'. apply bind_Some in Hw' as (w & Hw & Hgo).
  apply go_steps in Hgo.
  assert (Hruns : runs server_setup w).
  { exact (run_schedule_steps _ _ arrivals w arrivals_ok Hw). }
  exists w, w'. split; [exact Hruns|]. split; [exact Hgo|]. split; [|exact Hd]. unfold runs. trans w; [exact Hruns|].
  apply (rtc_subrel internal (proxy_step server_setup)); [by left|]. exact (rtc_nsteps_2 _ _ _ Hgo).
Qed.


Lemma threads_deadlock_free_witness :
  ∃ w w', nsteps internal 23 w w' ∧
    (23 ≤ 1 + 22 * S (length (s_ext_binds server_setup)))%nat ∧
    (nf internal w' → w_aborted w' = false →
       (∀ i th, w_threads w' !! i = Some th → t_state th = Idle) ∧ w_owner w' = ∅) ∧
    (∀ i w2, advance w' i = Some w2 → w_aborted w2 = true →
       ∃ th, w_threads w' !! i = Some th ∧ t_role th = Egress).
Proof.
  destruct race_runs as (w & w' & Hr & Hn & _ & _). exists w, w'. split; [exact Hn|].
  apply (threads_deadlock_free server_setup w 23 w').
  - apply server_setup_ok.
  - exact Hr.
  - exact Hn.
Defined.
