(* ===== verification/Netlink.v ===== *)
(** * netlink.rs: messages to the kernel

    The message builder [NlBuf] and the requests built with it, the check of
    the kernel's answer, and the values read from sysfs.  The kernel is a
    parameter: [if_nametoindex] and the reply to a request.  Integers are in
    native order, which is little-endian on every target. *)

From S2P Require Import Prelude Words Slices Text Results StrOps Net.
Local Open Scope Z_scope.

(** ** Constants of the kernel's interface *)

Definition IFLA_IFNAME : Z := 3.
Definition IFLA_LINKINFO : Z := 18.
Definition IFLA_INFO_KIND : Z := 1.
Definition IFLA_INFO_DATA : Z := 2.
Definition IFLA_GSO_MAX_SEGS : Z := 40.
Definition IFLA_GSO_MAX_SIZE : Z := 41.
Definition IFLA_GRO_MAX_SIZE : Z := 58.
Definition VETH_INFO_PEER : Z := 1.
Definition IFA_ADDRESS : Z := 1.
Definition IFA_LOCAL : Z := 2.
Definition NDA_DST : Z := 1.
Definition NDA_LLADDR : Z := 2.
Definition IFA_F_PERMANENT : Z := 0x80.
Definition RT_SCOPE_UNIVERSE : Z := 0.

Definition RTM_NEWLINK : Z := 16.
Definition RTM_DELLINK : Z := 17.
Definition RTM_NEWADDR : Z := 20.
Definition RTM_NEWROUTE : Z := 24.
Definition RTM_GETROUTE : Z := 26.
Definition RTM_NEWNEIGH : Z := 28.
Definition RTM_GETNEIGH : Z := 30.
Definition NLM_F_REQUEST : Z := 0x1.
Definition NLM_F_ACK : Z := 0x4.
Definition NLM_F_REPLACE : Z := 0x100.
Definition NLM_F_EXCL : Z := 0x200.
Definition NLM_F_DUMP : Z := 0x300.
Definition NLM_F_CREATE : Z := 0x400.
Definition NLMSG_ERROR : Z := 2.
Definition NLMSG_DONE : Z := 3.
Definition NUD_PERMANENT : Z := 0x80.
Definition RTN_UNICAST : Z := 1.
Definition AF_UNSPEC : Z := 0.
Definition AF_INET : Z := 2.
Definition AF_INET6 : Z := 10.
Definition NLMSGHDR : nat := 16.

(** ** [NlBuf] *)

Definition push_u16 (b : list Z) (v : Z) : list Z := b ++ u16_to_le_bytes v.
Definition push_u32 (b : list Z) (v : Z) : list Z := b ++ u32_to_le_bytes v.

(** [while len % 4 != 0 { push(0) }]: at most three bytes. *)
Fixpoint align4_fuel (fuel : nat) (b : list Z) : list Z :=
  match fuel with
  | O => b
  | S fuel => if (length b mod 4 =? 0)%nat then b else align4_fuel fuel (b ++ [0])
  end.
Definition align4 (b : list Z) : list Z := align4_fuel 4 b.

Definition patch_u16_at (b : list Z) (pos : nat) (v : Z) : outcome (list Z) :=
  copy_from_slice b pos (pos + 2) (u16_to_le_bytes v).
Definition patch_u32_at (b : list Z) (pos : nat) (v : Z) : outcome (list Z) :=
  copy_from_slice b pos (pos + 4) (u32_to_le_bytes v).

Definition rta_begin (b : list Z) (rta_type : Z) : list Z * nat :=
  (push_u16 (push_u16 b 0) rta_type, length b).

Definition rta_end (b : list Z) (start : nat) : outcome (list Z) :=
  let len := as_u16 (Z.of_nat (length b - start)) in
  b ← patch_u16_at b start len;
  Done (align4 b).

Definition attr (b : list Z) (rta_type : Z) (data : list Z) : outcome (list Z) :=
  let '(b, s) := rta_begin b rta_type in
  rta_end (b ++ data) s.

Definition attr_str (b : list Z) (rta_type : Z) (s : list Z) : outcome (list Z) :=
  let '(b, pos) := rta_begin b rta_type in
  rta_end (b ++ s ++ [0]) pos.

Definition finalize_nlmsg (b : list Z) : outcome (list Z) :=
  patch_u32_at b 0 (as_u32 (Z.of_nat (length b))).

Definition write_ifinfomsg (b : list Z) (family if_type index flags change : Z) : list Z :=
  push_u32 (push_u32 (push_u32 (push_u16 (b ++ [family; 0]) if_type) index) flags) change.

Definition write_ifaddrmsg (b : list Z) (family prefixlen flags scope index : Z) : list Z :=
  push_u32 (b ++ [family; prefixlen; flags; scope]) index.

Definition write_ndmsg (b : list Z) (family ifindex state flags ndm_type : Z) : list Z :=
  push_u16 (push_u32 (push_u16 (b ++ [family; 0]) 0) ifindex) state ++ [flags; ndm_type].

(** The message header with which every request starts. *)
Definition begin_nlmsg (msg_type flags : Z) : list Z :=
  push_u32 (push_u32 (push_u16 (push_u16 (push_u32 [] 0) msg_type) flags) 1) 0.

(** ** The requests *)

Definition link_delete_msg (idx : Z) : outcome (list Z) :=
  finalize_nlmsg
    (write_ifinfomsg (begin_nlmsg RTM_DELLINK (Z.lor NLM_F_REQUEST NLM_F_ACK)) AF_UNSPEC 0 idx 0 0).

Definition veth_create_msg (name peer : list Z) : outcome (list Z) :=
  let buf := begin_nlmsg RTM_NEWLINK
               (Z.lor (Z.lor (Z.lor NLM_F_REQUEST NLM_F_CREATE) NLM_F_EXCL) NLM_F_ACK) in
  let buf := write_ifinfomsg buf AF_UNSPEC 0 0 0 0 in
  buf ← attr_str buf IFLA_IFNAME name;
  let '(buf, li) := rta_begin buf IFLA_LINKINFO in
  buf ← attr_str buf IFLA_INFO_KIND (bs "veth");
  let '(buf, ld) := rta_begin buf IFLA_INFO_DATA in
  let '(buf, vp) := rta_begin buf VETH_INFO_PEER in
  let buf := write_ifinfomsg buf 0 0 0 0 0 in
  buf ← attr_str buf IFLA_IFNAME peer;
  buf ← rta_end buf vp;
  buf ← rta_end buf ld;
  buf ← rta_end buf li;
  finalize_nlmsg buf.

Definition nl_set_gso_msg (ifindex attr_type value : Z) : outcome (list Z) :=
  let buf := write_ifinfomsg (begin_nlmsg RTM_NEWLINK (Z.lor NLM_F_REQUEST NLM_F_ACK))
               AF_UNSPEC 0 ifindex 0 0 in
  buf ← attr buf attr_type (u32_to_le_bytes value);
  finalize_nlmsg buf.

Definition NEW_FLAGS : Z := Z.lor (Z.lor (Z.lor NLM_F_REQUEST NLM_F_CREATE) NLM_F_REPLACE) NLM_F_ACK.

Definition addr_add_msg (ifindex prefix : Z) (local peer : list Z) : outcome (list Z) :=
  let buf := write_ifaddrmsg (begin_nlmsg RTM_NEWADDR NEW_FLAGS) AF_INET prefix IFA_F_PERMANENT
               RT_SCOPE_UNIVERSE ifindex in
  buf ← attr buf IFA_LOCAL local;
  buf ← attr buf IFA_ADDRESS peer;
  finalize_nlmsg buf.

Definition neigh_add_msg (ifindex : Z) (addr mac : list Z) : outcome (list Z) :=
  let buf := write_ndmsg (begin_nlmsg RTM_NEWNEIGH NEW_FLAGS) AF_INET ifindex NUD_PERMANENT 0
               RTN_UNICAST in
  buf ← attr buf NDA_DST addr;
  buf ← attr buf NDA_LLADDR mac;
  finalize_nlmsg buf.

(** ** The kernel's answer *)

Inductive nerr :=
| ESocket | EBind | ESend | EShortReply | EKernel (code : Z)
| ENulInName | ENoInterface | ELocalIp | EPeerIp | ENeighborIp
| EMacFormat | EMacByte | ERead | EMtu | EGso | EIoctl.

(** What the calls of a transaction return: one fails, [recv] fails after
    the request was sent, or the kernel answers. *)
Inductive nl_reply := NoSocket | NoBind | NoSend | RecvError | Reply (msg : list Z).

(** The length [recv] returned, as a [usize], and the 4096-byte buffer. *)
Definition recv_result (r : nl_reply) : Z * list Z :=
  match r with
  | Reply msg => (Z.of_nat (Nat.min 4096 (length msg)), list_inserts 0 (take 4096 msg) (replicate 4096 0))
  | _ => (2 ^ 64 - 1, replicate 4096 0)
  end.

Definition as_i32 (z : Z) : Z := if z <? 2 ^ 31 then z else z - 2 ^ 32.

Definition nl_transact (r : nl_reply) : res nerr unit :=
  match r with
  | NoSocket => Err ESocket
  | NoBind => Err EBind
  | NoSend => Err ESend
  | _ =>
      let '(n, buf) := recv_result r in
      if n <? Z.of_nat NLMSGHDR then Err EShortReply else
      let nlmsg_type := from_le (window 4 2 buf) in
      if (nlmsg_type =? NLMSG_ERROR) && (Z.of_nat (NLMSGHDR + 4) <=? n) then
        code ← lift (read_u32_le buf NLMSGHDR (NLMSGHDR + 4));
        if as_i32 code =? 0 then Ok tt else Err (EKernel (as_i32 code))
      else Ok tt
  end.

(** ** Operations *)

(** The kernel as the operations see it. *)
Record kernel := mkKernel {
  if_nametoindex : list Z → Z;
  sysfs : list Z → option (list Z)
}.

Section operations.
  Context (k : kernel).

Definition get_ifindex (name : list Z) : res nerr Z :=
  if bool_decide (0 ∈ name) then Err ENulInName
  else let idx := if_nametoindex k name in
       if idx =? 0 then Err ENoInterface else Ok (as_i32 idx).

(** Values in sysfs. *)

Definition parse_mac (mac : list Z) : res nerr (list Z) :=
  let parts := split_byte 58 mac in
  if negb (length parts =? 6)%nat then Err EMacFormat
  else mapR (λ p, ok_or (from_str_radix 16 u8_max p) EMacByte) parts.

Definition read_mac (name : list Z) : res nerr (list Z) :=
  s ← ok_or (sysfs k (bs "/sys/class/net/" ++ name ++ bs "/address")) ERead;
  parse_mac (trim s).

Definition read_mtu (name : list Z) : res nerr Z :=
  s ← ok_or (sysfs k (bs "/sys/class/net/" ++ name ++ bs "/mtu")) ERead;
  ok_or (parse_uint u16_max (trim s)) EMtu.

Definition read_gso_max_size (name : list Z) : res nerr Z :=
  s ← ok_or (sysfs k (bs "/sys/class/net/" ++ name ++ bs "/gso_max_size")) ERead;
  ok_or (parse_uint u32_max (trim s)) EGso.
End operations.

(** [fill_ifname]: the name, cut to [IFNAMSIZ - 1] bytes, in a zeroed array. *)
Definition IFNAMSIZ : nat := 16.
Definition fill_ifname (dst name : list Z) : list Z :=
  list_inserts 0 (take (Nat.min (length name) (IFNAMSIZ - 1)) name) dst.

(** ** Attributes as the kernel reads them *)

(** A message is a header and a sequence of attributes, each a length, a type
    and data padded to four bytes. *)
Definition padding (n : nat) : nat := (3 - (n + 3) mod 4)%nat.
Definition enc_attr (ty : Z) (data : list Z) : list Z :=
  u16_to_le_bytes (Z.of_nat (4 + length data)) ++ u16_to_le_bytes ty ++ data
    ++ replicate (padding (length data)) 0.

(** The reader: the attributes of a sequence, or [None] when it is not one. *)
Fixpoint read_attrs (fuel : nat) (b : list Z) : option (list (Z * list Z)) :=
  match fuel, b with
  | _, [] => Some []
  | O, _ => None
  | S fuel, _ =>
      let len := Z.to_nat (from_le (window 0 2 b)) in
      if (len <? 4)%nat || (length b <? len)%nat then None
      else rest ← read_attrs fuel (drop (4 * ((len + 3) / 4)) b);
           Some ((from_le (window 2 2 b), window 4 (len - 4) b) :: rest)
  end.

Definition attrs_of (b : list Z) : option (list (Z * list Z)) := read_attrs (length b) b.

Record nlmsg := mkMsg { m_type : Z; m_flags : Z; m_body : list Z }.

(** The message in a datagram whose length field covers all of it. *)
Definition read_nlmsg (b : list Z) : option nlmsg :=
  if (from_le (window 0 4 b) =? Z.of_nat (length b)) && (NLMSGHDR <=? length b)%nat
  then Some (mkMsg (from_le (window 4 2 b)) (from_le (window 6 2 b)) (drop NLMSGHDR b))
  else None.

(** ** What is built is what is read *)

Lemma align4_fuel_spec fuel b : (padding (length b) < fuel)%nat →
  align4_fuel fuel b = b ++ replicate (padding (length b)) 0.
Proof.
  revert b. induction fuel as [|fuel IH]; intros b Hf; [lia|]. cbn [align4_fuel].
  unfold padding in *. pose proof (Nat.div_mod_eq (length b) 4) as Hd.
  pose proof (Nat.mod_upper_bound (length b) 4 ltac:(lia)) as Hu.
  assert (Hm : ((length b + 3) mod 4 = (length b mod 4 + 3) mod 4)%nat) by
    (rewrite Hd at 1; rewrite <- Nat.add_assoc, Nat.add_comm, Nat.mul_comm; apply Nat.Div0.mod_add).
  destruct (Nat.eqb_spec (length b mod 4) 0) as [E|E].
  - rewrite Hm, E. cbn. by rewrite app_nil_r.
  - assert (Hm' : ((length (b ++ [0%Z]) + 3) mod 4 = length b mod 4)%nat).
    { rewrite length_app. cbn [length]. replace (length b + 1 + 3)%nat with (length b + 1 * 4)%nat by lia.
      apply Nat.Div0.mod_add. }
    assert (Hs : ((length b + 3) mod 4 = length b mod 4 - 1)%nat).
    { rewrite Hm. destruct (length b mod 4)%nat as [|[|[|[|r]]]]; try lia; done. }
    rewrite IH; rewrite Hm'; [|lia]. rewrite Hs, <- app_assoc. f_equal.
    replace (3 - (length b mod 4 - 1))%nat with (S (3 - length b mod 4)) by lia. done.
Qed.

Lemma padding_lt n : (padding n < 4)%nat.
Proof. unfold padding. lia. Qed.

Lemma align4_spec b : align4 b = b ++ replicate (padding (length b)) 0.
Proof. apply align4_fuel_spec, padding_lt. Qed.

Lemma padding_add a n : (a mod 4 = 0)%nat → padding (a + n) = padding n.
Proof.
  intros Ha. unfold padding. pose proof (Nat.div_mod_eq a 4) as Hd. rewrite Ha in Hd.
  rewrite Hd. replace (4 * (a / 4) + 0 + n + 3)%nat with ((n + 3) + (a / 4) * 4)%nat by lia.
  by rewrite Nat.Div0.mod_add.
Qed.

Lemma enc_attr_aligned ty data : (length (enc_attr ty data) mod 4 = 0)%nat.
Proof.
  unfold enc_attr. rewrite !length_app, !length_le_bytes, length_replicate. unfold padding.
  pose proof (Nat.div_mod_eq (length data + 3) 4) as Hd.
  pose proof (Nat.mod_upper_bound (length data + 3) 4 ltac:(lia)).
  replace (2 + (2 + (length data + (3 - (length data + 3) mod 4))))%nat
    with (0 + (1 + (length data + 3) / 4) * 4)%nat by lia.
  by rewrite Nat.Div0.mod_add.
Qed.

(** Closing an attribute, whatever was written since it was opened. *)
Lemma rta_end_Done b ty data : (length b mod 4 = 0)%nat → Z.of_nat (4 + length data) < 65536 →
  rta_end (push_u16 (push_u16 b 0) ty ++ data) (length b) = Done (b ++ enc_attr ty data).
Proof.
  intros Hb Hl. unfold rta_end, patch_u16_at, push_u16. rewrite <- !app_assoc.
  rewrite copy_from_slice_Done, bind_Done by (rewrite ?length_app, !length_le_bytes; lia).
  f_equal. rewrite align4_spec, length_inserts.
  assert (Hlen : length (b ++ u16_to_le_bytes 0 ++ u16_to_le_bytes ty ++ data)
                 = (length b + (4 + length data))%nat) by (rewrite !length_app, !length_le_bytes; lia).
  rewrite Hlen, padding_add by done. rewrite Nat.add_comm, Nat.add_sub.
  rewrite (padding_add 4) by done. unfold enc_attr. rewrite wrap_small by (split; [lia|done]).
  rewrite list_inserts_app by (rewrite ?Hlen, length_le_bytes; lia).
  rewrite take_app_length, length_le_bytes. rewrite <- !app_assoc. do 2 f_equal.
  rewrite drop_app_ge by lia. replace (length b + 2 - length b)%nat with 2%nat by lia.
  by rewrite drop_app_length' by by rewrite length_le_bytes.
Qed.

Lemma attr_Done b ty data : (length b mod 4 = 0)%nat → Z.of_nat (4 + length data) < 65536 →
  attr b ty data = Done (b ++ enc_attr ty data).
Proof. intros Hb Hl. unfold attr, rta_begin. by apply rta_end_Done. Qed.

Lemma attr_str_Done b ty s : (length b mod 4 = 0)%nat → Z.of_nat (5 + length s) < 65536 →
  attr_str b ty s = Done (b ++ enc_attr ty (s ++ [0])).
Proof.
  intros Hb Hl. unfold attr_str, rta_begin. apply rta_end_Done; [done|].
  rewrite length_app. cbn [length]. lia.
Qed.

Definition attr_ok (a : Z * list Z) : Prop := is_u16 a.1 ∧ Z.of_nat (4 + length a.2) < 65536.

Lemma read_attrs_enc l fuel : Forall attr_ok l →
  (length (concat ((λ a, enc_attr a.1 a.2) <$> l)) ≤ fuel)%nat →
  read_attrs fuel (concat ((λ a, enc_attr a.1 a.2) <$> l)) = Some l.
Proof.
  intros HF. revert fuel. induction HF as [|[ty data] l [Ht Hd] HF IH]; intros fuel Hf.
  { by destruct fuel. }
  cbn [fst snd] in Ht, Hd. rewrite fmap_cons in Hf |- *. cbn [concat fst snd] in Hf |- *.
  set (rest := concat _) in *. pose proof (padding_lt (length data)) as Hp.
  assert (He : length (enc_attr ty data) = (4 + length data + padding (length data))%nat)
    by (unfold enc_attr; rewrite !length_app, !length_le_bytes, length_replicate; lia).
  rewrite length_app, He in Hf. destruct fuel as [|fuel]; [lia|].
  assert (Hlen : from_le (window 0 2 (enc_attr ty data ++ rest)) = Z.of_nat (4 + length data)).
  { rewrite window_app_l by lia. unfold enc_attr. rewrite window_app_l by (rewrite length_le_bytes; lia).
    rewrite window_whole by (by rewrite ?length_le_bytes). rewrite from_le_bytes.
    apply wrap_small. split; [lia|done]. }
  assert (Hty : from_le (window 2 2 (enc_attr ty data ++ rest)) = ty).
  { rewrite window_app_l by lia. unfold enc_attr. rewrite window_app_ge by (rewrite length_le_bytes; lia).
    rewrite length_le_bytes, window_app_l by (rewrite length_le_bytes; lia).
    rewrite window_whole by (by rewrite ?length_le_bytes). rewrite from_le_bytes. by apply wrap_small. }
  assert (Hdata : window 4 (length data) (enc_attr ty data ++ rest) = data).
  { rewrite window_app_l by lia. unfold enc_attr.
    do 2 rewrite window_app_ge by (rewrite !length_le_bytes; lia). rewrite !length_le_bytes.
    rewrite window_app_l by lia. by apply window_whole. }
  assert (Hdrop : drop (4 * ((4 + length data + 3) / 4)) (enc_attr ty data ++ rest) = rest).
  { apply drop_app_length'. rewrite He. unfold padding.
    pose proof (Nat.div_mod_eq (4 + length data + 3) 4) as Hdm.
    assert (Hm : ((4 + length data + 3) mod 4 = (length data + 3) mod 4)%nat).
    { replace (4 + length data + 3)%nat with (length data + 3 + 1 * 4)%nat by lia.
      apply Nat.Div0.mod_add. }
    pose proof (Nat.mod_upper_bound (length data + 3) 4 ltac:(lia)). lia. }
  cbn [read_attrs]. rewrite Hlen, Nat2Z.id, Hty, Hdrop.
  replace (4 + length data - 4)%nat with (length data) by lia. rewrite Hdata.
  destruct (Nat.ltb_spec (4 + length data) 4); [lia|].
  destruct (Nat.ltb_spec (length (enc_attr ty data ++ rest)) (4 + length data)) as [Hlt|_];
    [rewrite length_app in Hlt; lia|].
  rewrite IH by lia. cbn [orb mbind option_bind].
  destruct (enc_attr ty data ++ rest) eqn:E; [|done].
  apply (f_equal length) in E. rewrite length_app, He in E. simpl in E. lia.
Qed.

Lemma attrs_of_enc l : Forall attr_ok l →
  attrs_of (concat ((λ a, enc_attr a.1 a.2) <$> l)) = Some l.
Proof. intros HF. by apply read_attrs_enc. Qed.

(** A finished request carries its type, its flags and its body. *)
Lemma finalize_read ty fl body : is_u16 ty → is_u16 fl → Z.of_nat (16 + length body) < 2 ^ 32 →
  ∃ msg, finalize_nlmsg (begin_nlmsg ty fl ++ body) = Done msg ∧
    read_nlmsg msg = Some (mkMsg ty fl body).
Proof.
  intros Ht Hf Hl. set (n := u32_to_le_bytes (Z.of_nat (16 + length body))).
  assert (Hb : length (begin_nlmsg ty fl) = 16%nat) by done.
  exists (n ++ u16_to_le_bytes ty ++ u16_to_le_bytes fl ++ u32_to_le_bytes 1 ++ u32_to_le_bytes 0 ++ body).
  split.
  - unfold finalize_nlmsg, patch_u32_at. rewrite copy_from_slice_Done
      by (rewrite ?length_app, ?Hb, ?length_le_bytes; lia).
    f_equal. rewrite length_app, Hb, wrap_small by (split; [lia|done]). fold n.
    rewrite list_inserts_app by (rewrite ?length_app, ?Hb; subst n; rewrite length_le_bytes; lia).
    by rewrite take_0, app_nil_l.
  - assert (Hn : length n = 4%nat) by (subst n; apply length_le_bytes).
    assert (Hv : from_le n = Z.of_nat (16 + length body))
      by (subst n; rewrite from_le_bytes; apply wrap_small; split; [lia|done]).
    clearbody n. unfold read_nlmsg, NLMSGHDR. rewrite !length_app, !length_le_bytes, Hn.
    rewrite (window_app_l 0 4), (window_whole 0 n 4), Hv by (done || lia).
    replace (4 + (2 + (2 + (4 + (4 + length body)))))%nat with (16 + length body)%nat by lia.
    rewrite Z.eqb_refl. destruct (Nat.leb_spec 16 (16 + length body)); [|lia]. cbn [andb].
    do 2 f_equal.
    + rewrite window_app_ge, Hn, window_app_l by (rewrite ?length_le_bytes; lia).
      rewrite window_whole, from_le_bytes by (done || by rewrite length_le_bytes). by apply wrap_small.
    + rewrite window_app_ge, Hn, window_app_ge by (rewrite ?length_le_bytes; lia).
      rewrite length_le_bytes, window_app_l by (rewrite ?length_le_bytes; lia).
      rewrite window_whole, from_le_bytes by (done || by rewrite length_le_bytes). by apply wrap_small.
    + rewrite !app_assoc. apply drop_app_length'. rewrite !length_app, !length_le_bytes, Hn. lia.
Qed.

(** ** The requests are well-formed *)

(** An attribute that was opened, with what precedes it. *)
Lemma length_open b ty : length (push_u16 (push_u16 b 0) ty) = (length b + 4)%nat.
Proof. unfold push_u16. rewrite !length_app, !length_le_bytes. lia. Qed.

Lemma aligned_add a b : (a mod 4 = 0 → b mod 4 = 0 → (a + b) mod 4 = 0)%nat.
Proof. intros Ha Hb. by rewrite Nat.Div0.add_mod, Ha, Hb. Qed.

Lemma write_ifinfomsg_app b family if_type index flags change :
  write_ifinfomsg b family if_type index flags change
  = b ++ write_ifinfomsg [] family if_type index flags change.
Proof. unfold write_ifinfomsg, push_u32, push_u16. by rewrite <- !app_assoc. Qed.

Lemma write_ifaddrmsg_app b family prefixlen flags scope index :
  write_ifaddrmsg b family prefixlen flags scope index
  = b ++ write_ifaddrmsg [] family prefixlen flags scope index.
Proof. unfold write_ifaddrmsg, push_u32. by rewrite <- !app_assoc. Qed.

Lemma write_ndmsg_app b family ifindex state flags ndm_type :
  write_ndmsg b family ifindex state flags ndm_type
  = b ++ write_ndmsg [] family ifindex state flags ndm_type.
Proof. unfold write_ndmsg, push_u32, push_u16. by rewrite <- !app_assoc. Qed.

Lemma length_enc_attr ty data : (length (enc_attr ty data) ≤ length data + 8)%nat.
Proof.
  unfold enc_attr. rewrite !length_app, !length_le_bytes, length_replicate.
  pose proof (padding_lt (length data)). lia.
Qed.

(** The second end of the pair, and the link information around it. *)
Definition veth_peer (peer : list Z) : list Z :=
  write_ifinfomsg [] 0 0 0 0 0 ++ enc_attr IFLA_IFNAME (peer ++ [0]).
Definition veth_info (peer : list Z) : list Z :=
  enc_attr IFLA_INFO_KIND (bs "veth" ++ [0])
    ++ enc_attr IFLA_INFO_DATA (enc_attr VETH_INFO_PEER (veth_peer peer)).

Lemma length_veth peer : (length (veth_peer peer) ≤ 25 + length peer)%nat ∧
  (length (veth_info peer) ≤ 61 + length peer)%nat.
Proof.
  assert (Hp : (length (veth_peer peer) ≤ 25 + length peer)%nat).
  { unfold veth_peer. rewrite length_app. pose proof (length_enc_attr IFLA_IFNAME (peer ++ [0])) as H.
    rewrite length_app in H. cbn [length] in H.
    change (length (write_ifinfomsg [] 0 0 0 0 0)) with 16%nat. lia. }
  split; [done|]. unfold veth_info. rewrite length_app.
  pose proof (length_enc_attr VETH_INFO_PEER (veth_peer peer)).
  pose proof (length_enc_attr IFLA_INFO_DATA (enc_attr VETH_INFO_PEER (veth_peer peer))).
  change (length (enc_attr IFLA_INFO_KIND (bs "veth" ++ [0]))) with 12%nat. lia.
Qed.

Lemma veth_create_build name peer : Z.of_nat (length name) ≤ 60000 → Z.of_nat (length peer) ≤ 60000 →
  veth_create_msg name peer
  = finalize_nlmsg (begin_nlmsg RTM_NEWLINK
        (Z.lor (Z.lor (Z.lor NLM_F_REQUEST NLM_F_CREATE) NLM_F_EXCL) NLM_F_ACK)
      ++ write_ifinfomsg [] AF_UNSPEC 0 0 0 0 ++ enc_attr IFLA_IFNAME (name ++ [0])
      ++ enc_attr IFLA_LINKINFO (veth_info peer)).
Proof.
  intros Hn Hp. unfold veth_create_msg. set (fl := Z.lor _ NLM_F_ACK).
  rewrite write_ifinfomsg_app. set (b0 := begin_nlmsg _ _ ++ _).
  assert (H0 : (length b0 mod 4 = 0)%nat) by done.
  rewrite attr_str_Done, bind_Done by (done || lia). cbv zeta beta iota. unfold rta_begin.
  set (b1 := b0 ++ _).
  assert (H1 : (length b1 mod 4 = 0)%nat)
    by (unfold b1; rewrite length_app; apply aligned_add; [done|apply enc_attr_aligned]).
  set (b2 := push_u16 (push_u16 b1 0) IFLA_LINKINFO).
  assert (H2 : (length b2 mod 4 = 0)%nat) by (unfold b2; rewrite length_open; by apply aligned_add).
  rewrite attr_str_Done, bind_Done by (done || (change (length (bs "veth")) with 4%nat; lia)).
  set (b3 := b2 ++ _).
  assert (H3 : (length b3 mod 4 = 0)%nat)
    by (unfold b3; rewrite length_app; apply aligned_add; [done|apply enc_attr_aligned]).
  set (b4 := push_u16 (push_u16 b3 0) IFLA_INFO_DATA).
  assert (H4 : (length b4 mod 4 = 0)%nat) by (unfold b4; rewrite length_open; by apply aligned_add).
  rewrite write_ifinfomsg_app. set (b5 := push_u16 (push_u16 b4 0) VETH_INFO_PEER).
  assert (H5 : (length b5 mod 4 = 0)%nat) by (unfold b5; rewrite length_open; by apply aligned_add).
  rewrite attr_str_Done, bind_Done; [|rewrite length_app; by apply aligned_add|lia].
  destruct (length_veth peer) as [Hl1 Hl2]. rewrite <- app_assoc. fold (veth_peer peer).
  subst b5. rewrite rta_end_Done, bind_Done by (done || lia).
  pose proof (length_enc_attr VETH_INFO_PEER (veth_peer peer)).
  subst b4. rewrite rta_end_Done, bind_Done by (done || lia).
  subst b3. rewrite <- app_assoc. fold (veth_info peer).
  subst b2. rewrite rta_end_Done, bind_Done by (done || lia).
  subst b1 b0. by rewrite <- !app_assoc.
Qed.

(** The datagram is one message of the type and flags, whose body is a fixed
    header and the attributes. *)
Definition carries_request (msg : list Z) (ty fl : Z) (hdr : list Z) (l : list (Z * list Z)) : Prop :=
  ∃ attrs, read_nlmsg msg = Some (mkMsg ty fl (hdr ++ attrs)) ∧ attrs_of attrs = Some l.

Lemma finalize_carries ty fl hdr l : is_u16 ty → is_u16 fl → Forall attr_ok l →
  Z.of_nat (length hdr + length (concat ((λ a, enc_attr a.1 a.2) <$> l))) < 2 ^ 31 →
  ∃ msg, finalize_nlmsg (begin_nlmsg ty fl ++ hdr ++ concat ((λ a, enc_attr a.1 a.2) <$> l))
         = Done msg ∧ carries_request msg ty fl hdr l.
Proof.
  intros Ht Hf HF Hl. destruct (finalize_read ty fl (hdr ++ concat ((λ a, enc_attr a.1 a.2) <$> l)))
    as (msg & Hm & Hr); [done..|rewrite length_app; lia|].
  exists msg. split; [done|]. eexists. split; [done|]. by apply attrs_of_enc.
Qed.

(** [b] with two attributes behind it. *)
Lemma two_attrs b t1 d1 t2 d2 : (length b mod 4 = 0)%nat →
  (length d1 ≤ 1000)%nat → (length d2 ≤ 1000)%nat →
  (b ← attr b t1 d1; b ← attr b t2 d2; finalize_nlmsg b)
  = finalize_nlmsg (b ++ concat ((λ a, enc_attr a.1 a.2) <$> [(t1, d1); (t2, d2)])).
Proof.
  intros Hb H1 H2. rewrite attr_Done, bind_Done by (done || lia).
  rewrite attr_Done, bind_Done; [|rewrite length_app; apply aligned_add; [done|apply enc_attr_aligned]|lia].
  cbn [fmap list_fmap concat fst snd]. by rewrite app_nil_r, <- app_assoc.
Qed.

Lemma veth_create_carries name peer :
  Z.of_nat (length name) ≤ 60000 → Z.of_nat (length peer) ≤ 60000 →
  ∃ msg data link_peer,
    veth_create_msg name peer = Done msg ∧
    carries_request msg RTM_NEWLINK 0x605 (replicate 16 0)
      [(IFLA_IFNAME, name ++ [0]); (IFLA_LINKINFO, veth_info peer)] ∧
    attrs_of (veth_info peer)
    = Some [(IFLA_INFO_KIND, bs "veth" ++ [0]); (IFLA_INFO_DATA, data)] ∧
    attrs_of data = Some [(VETH_INFO_PEER, replicate 16 0 ++ link_peer)] ∧
    attrs_of link_peer = Some [(IFLA_IFNAME, peer ++ [0])].
Proof.
  intros Hn Hp. destruct (length_veth peer) as [Hl1 Hl2].
  pose proof (length_enc_attr VETH_INFO_PEER (veth_peer peer)).
  pose proof (length_enc_attr IFLA_IFNAME (name ++ [0])) as Ha1.
  pose proof (length_enc_attr IFLA_LINKINFO (veth_info peer)) as Ha2.
  rewrite length_app in Ha1. cbn [length] in Ha1. rewrite veth_create_build by done.
  destruct (finalize_carries RTM_NEWLINK 0x605 (replicate 16 0)
    [(IFLA_IFNAME, name ++ [0]); (IFLA_LINKINFO, veth_info peer)]) as (msg & Hf & Hc).
  { by split. }
  { by split. }
  { repeat (apply Forall_cons; split; [split; [by split|cbn [snd]; rewrite ?length_app; cbn [length]; lia]|]).
    constructor. }
  { cbn [fmap list_fmap concat fst snd]. rewrite !length_app. cbn [length replicate]. lia. }
  cbn [fmap list_fmap concat fst snd] in Hf. rewrite app_nil_r in Hf.
  exists msg, (enc_attr VETH_INFO_PEER (veth_peer peer)), (enc_attr IFLA_IFNAME (peer ++ [0])).
  assert (Hone : ∀ ty d, is_u16 ty → Z.of_nat (4 + length d) < 65536 →
    attrs_of (enc_attr ty d) = Some [(ty, d)]).
  { intros ty d Ht Hd. rewrite <- (app_nil_r (enc_attr ty d)).
    apply (attrs_of_enc [(ty, d)]). apply Forall_singleton. by split. }
  split_and!; [exact Hf|exact Hc| | |].
  + unfold veth_info. rewrite <- (app_nil_r (enc_attr IFLA_INFO_DATA _)).
    apply (attrs_of_enc [(IFLA_INFO_KIND, bs "veth" ++ [0]);
                         (IFLA_INFO_DATA, enc_attr VETH_INFO_PEER (veth_peer peer))]).
    repeat (apply Forall_cons; split; [split; [by split|cbn [snd]]|]); [done|lia|constructor].
  + apply (Hone VETH_INFO_PEER (veth_peer peer)); [by split|lia].
  + apply Hone; [by split|rewrite length_app; cbn [length]; lia].
Qed.

Lemma addr_add_carries ifindex prefix local remote : length local = 4%nat → length remote = 4%nat →
  ∃ msg, addr_add_msg ifindex prefix local remote = Done msg ∧
    carries_request msg RTM_NEWADDR 0x505
      ([AF_INET; prefix; IFA_F_PERMANENT; RT_SCOPE_UNIVERSE] ++ u32_to_le_bytes ifindex)
      [(IFA_LOCAL, local); (IFA_ADDRESS, remote)].
Proof.
  intros Hlo Hr. unfold addr_add_msg. rewrite two_attrs by (done || lia). rewrite write_ifaddrmsg_app, <- app_assoc.
  apply finalize_carries; [by split|by split| |].
  + repeat (apply Forall_cons; split; [split; [by split|cbn [snd]; lia]|]). constructor.
  + pose proof (length_enc_attr IFA_LOCAL local). pose proof (length_enc_attr IFA_ADDRESS remote).
    cbn [fmap list_fmap concat fst snd]. rewrite !length_app, ?length_le_bytes. cbn [length]. lia.
Qed.

Lemma neigh_add_carries ifindex remote mac : length remote = 4%nat → length mac = 6%nat →
  ∃ msg, neigh_add_msg ifindex remote mac = Done msg ∧
    carries_request msg RTM_NEWNEIGH 0x505
      ([AF_INET; 0; 0; 0] ++ u32_to_le_bytes ifindex ++ [NUD_PERMANENT; 0; 0; RTN_UNICAST])
      [(NDA_DST, remote); (NDA_LLADDR, mac)].
Proof.
  intros Hr Hm. unfold neigh_add_msg. rewrite two_attrs by (done || lia). rewrite write_ndmsg_app, <- app_assoc.
  apply finalize_carries; [by split|by split| |].
  + repeat (apply Forall_cons; split; [split; [by split|cbn [snd]; lia]|]). constructor.
  + pose proof (length_enc_attr NDA_DST remote). pose proof (length_enc_attr NDA_LLADDR mac).
    cbn [fmap list_fmap concat fst snd]. rewrite !length_app, ?length_le_bytes. cbn [length]. lia.
Qed.

Lemma link_header_app b idx :
  write_ifinfomsg b AF_UNSPEC 0 idx 0 0 = b ++ [0; 0; 0; 0] ++ u32_to_le_bytes idx ++ replicate 8 0.
Proof. unfold write_ifinfomsg, push_u32, push_u16. by rewrite <- !app_assoc. Qed.

Lemma length_link_header idx : length ([0; 0; 0; 0] ++ u32_to_le_bytes idx ++ replicate 8 0) = 16%nat.
Proof. done. Qed.

Lemma link_delete_carries idx :
  ∃ msg, link_delete_msg idx = Done msg ∧
    carries_request msg RTM_DELLINK 0x5 ([0; 0; 0; 0] ++ u32_to_le_bytes idx ++ replicate 8 0) [].
Proof.
  unfold link_delete_msg. rewrite link_header_app.
  destruct (finalize_carries RTM_DELLINK 0x5 ([0; 0; 0; 0] ++ u32_to_le_bytes idx ++ replicate 8 0) [])
    as (msg & Hf & Hc); [by split|by split|constructor|rewrite length_link_header; done|].
  exists msg. split; [|done]. rewrite <- Hf. by rewrite app_nil_r.
Qed.

Lemma nl_set_gso_carries ifindex ty value : is_u16 ty →
  ∃ msg, nl_set_gso_msg ifindex ty value = Done msg ∧
    carries_request msg RTM_NEWLINK 0x5 ([0; 0; 0; 0] ++ u32_to_le_bytes ifindex ++ replicate 8 0)
      [(ty, u32_to_le_bytes value)].
Proof.
  intros Ht. unfold nl_set_gso_msg. rewrite link_header_app.
  destruct (finalize_carries RTM_NEWLINK 0x5 ([0; 0; 0; 0] ++ u32_to_le_bytes ifindex ++ replicate 8 0)
    [(ty, u32_to_le_bytes value)]) as (msg & Hf & Hc); [by split|by split| | |].
  { apply Forall_singleton. by split. }
  { rewrite length_link_header. done. }
  exists msg. split; [|done]. rewrite attr_Done, bind_Done by done. rewrite <- Hf.
  cbn [fmap list_fmap concat fst snd]. by rewrite app_nil_r, <- app_assoc.
Qed.

(** C25: the requests say what they mean to the kernel. For names of up to 60000
    bytes, the request that creates a veth pair is one well-formed netlink
    message whose length field covers it, with the name of the first end and
    nested link information of kind veth whose peer end has the second name;
    the address and neighbour requests carry exactly the given addresses and
    hardware address. *)
Theorem netlink_requests name peer ifindex prefix local remote mac :
  Z.of_nat (length name) ≤ 60000 → Z.of_nat (length peer) ≤ 60000 →
  length local = 4%nat → length remote = 4%nat → length mac = 6%nat →
  (∃ msg data link_peer,
     veth_create_msg name peer = Done msg ∧
     carries_request msg RTM_NEWLINK 0x605 (replicate 16 0)
       [(IFLA_IFNAME, name ++ [0]); (IFLA_LINKINFO, veth_info peer)] ∧
     attrs_of (veth_info peer)
     = Some [(IFLA_INFO_KIND, bs "veth" ++ [0]); (IFLA_INFO_DATA, data)] ∧
     attrs_of data = Some [(VETH_INFO_PEER, replicate 16 0 ++ link_peer)] ∧
     attrs_of link_peer = Some [(IFLA_IFNAME, peer ++ [0])]) ∧
  (∃ msg, addr_add_msg ifindex prefix local remote = Done msg ∧
     carries_request msg RTM_NEWADDR 0x505
       ([AF_INET; prefix; IFA_F_PERMANENT; RT_SCOPE_UNIVERSE] ++ u32_to_le_bytes ifindex)
       [(IFA_LOCAL, local); (IFA_ADDRESS, remote)]) ∧
  (∃ msg, neigh_add_msg ifindex remote mac = Done msg ∧
     carries_request msg RTM_NEWNEIGH 0x505
       ([AF_INET; 0; 0; 0] ++ u32_to_le_bytes ifindex ++ [NUD_PERMANENT; 0; 0; RTN_UNICAST])
       [(NDA_DST, remote); (NDA_LLADDR, mac)]).
Proof.
  intros. split_and!; [by apply veth_create_carries|by apply addr_add_carries|by apply neigh_add_carries].
Qed.

Lemma netlink_requests_witness :
  let name := bs "gut0" in let peer := bs "gut0_xdp" in
  let local := [10; 0; 0; 1] in let remote := [10; 0; 0; 2] in let mac := [2; 71; 10; 0; 0; 2] in
  (∃ msg data link_peer,
     veth_create_msg name peer = Done msg ∧
     carries_request msg RTM_NEWLINK 0x605 (replicate 16 0)
       [(IFLA_IFNAME, name ++ [0]); (IFLA_LINKINFO, veth_info peer)] ∧
     attrs_of (veth_info peer)
     = Some [(IFLA_INFO_KIND, bs "veth" ++ [0]); (IFLA_INFO_DATA, data)] ∧
     attrs_of data = Some [(VETH_INFO_PEER, replicate 16 0 ++ link_peer)] ∧
     attrs_of link_peer = Some [(IFLA_IFNAME, peer ++ [0])]) ∧
  (∃ msg, addr_add_msg 7 30 local remote = Done msg ∧
     carries_request msg RTM_NEWADDR 0x505
       ([AF_INET; 30; IFA_F_PERMANENT; RT_SCOPE_UNIVERSE] ++ u32_to_le_bytes 7)
       [(IFA_LOCAL, local); (IFA_ADDRESS, remote)]) ∧
  (∃ msg, neigh_add_msg 7 remote mac = Done msg ∧
     carries_request msg RTM_NEWNEIGH 0x505
       ([AF_INET; 0; 0; 0] ++ u32_to_le_bytes 7 ++ [NUD_PERMANENT; 0; 0; RTN_UNICAST])
       [(NDA_DST, remote); (NDA_LLADDR, mac)]).
Proof.
  apply (netlink_requests (bs "gut0") (bs "gut0_xdp") 7 30 [10; 0; 0; 1] [10; 0; 0; 2]
           [2; 71; 10; 0; 0; 2]); done.
Defined.

(** ** The outcome of a transaction *)

(** The reply buffer starts with the message that was received. *)
Lemma recv_window msg lo n : (lo + n ≤ length msg)%nat → Z.of_nat (lo + n) ≤ 4096 →
  window lo n (recv_result (Reply msg)).2 = window lo n msg.
Proof.
  intros H1 H2. cbn [recv_result snd]. set (z := replicate _ _).
  assert (Hz : Z.of_nat (length z) = 4096) by (unfold z; rewrite length_replicate; lia).
  rewrite window_list_inserts_in; rewrite ?length_take; try lia.
  rewrite Nat.sub_0_r. apply window_ext. intros i Hi. apply lookup_take_lt. lia.
Qed.

(** The reply is checked as the message it is, whatever the buffer holds
    behind it. *)
Lemma nl_transact_reply msg : nl_transact (Reply msg) =
  if (length msg <? 16)%nat then Err EShortReply
  else if (length msg <? 20)%nat || negb (from_le (window 4 2 msg) =? NLMSG_ERROR) then Ok tt
  else let code := as_i32 (from_le (window 16 4 msg)) in
       if code =? 0 then Ok tt else Err (EKernel code).
Proof.
  unfold nl_transact.
  pose proof (recv_window msg) as Hw. cbn [recv_result snd] in Hw |- *.
  set (buf := list_inserts _ _ _) in *.
  assert (Hb : Z.of_nat (length buf) = 4096).
  { unfold buf. rewrite length_inserts, length_replicate. lia. }
  destruct (Nat.ltb_spec (length msg) 16).
  { destruct (Z.ltb_spec (Z.of_nat (Nat.min 4096 (length msg))) (Z.of_nat NLMSGHDR)); [done|].
    unfold NLMSGHDR in *. lia. }
  destruct (Z.ltb_spec (Z.of_nat (Nat.min 4096 (length msg))) (Z.of_nat NLMSGHDR));
    [unfold NLMSGHDR in *; lia|].
  rewrite (Hw 4%nat 2%nat) by lia. destruct (_ =? NLMSG_ERROR); [|by rewrite orb_true_r].
  rewrite orb_false_r. destruct (Nat.ltb_spec (length msg) 20);
    destruct (Z.leb_spec (Z.of_nat (NLMSGHDR + 4)) (Z.of_nat (Nat.min 4096 (length msg))));
    unfold NLMSGHDR in *; try lia; [done|]. cbn [andb].
  rewrite read_u32_le_Done by lia. cbn. by rewrite (Hw 16%nat 4%nat) by lia.
Qed.

(** A request succeeds exactly when the kernel acknowledges it.  With a
    socket on which the request could be sent, the result is an error for a
    reply shorter than a message header and for an error message with a
    non-zero code, which is reported; every other reply, and a failed receive
    too, counts as success.  Reading the reply never leaves its buffer. *)
Theorem transact_result r : nl_transact r =
  match r with
  | NoSocket => Err ESocket
  | NoBind => Err EBind
  | NoSend => Err ESend
  | RecvError => Ok tt
  | Reply msg =>
      if (length msg <? 16)%nat then Err EShortReply
      else if (length msg <? 20)%nat || negb (from_le (window 4 2 msg) =? NLMSG_ERROR) then Ok tt
      else let code := as_i32 (from_le (window 16 4 msg)) in
           if code =? 0 then Ok tt else Err (EKernel code)
  end.
Proof. destruct r; [done..|vm_compute; done|apply nl_transact_reply]. Qed.
