(* ===== verification/NetlinkParse.v ===== *)
(** * netlink.rs: what the kernel answers

    The neighbour and route dumps are walked with raw pointers.  A received
    datagram is a list of bytes and every read is checked against it, so that
    a read the pointers would make outside of the received bytes is a panic
    here; so is a loop that does not end.  The theorems show that neither
    happens, whatever the kernel sends. *)

From S2P Require Import Prelude Words Slices Text Results StrOps Net Netlink.
Local Open Scope Z_scope.

(** [(n + 3) & !3] *)
Definition align_up (n : nat) : nat := Z.to_nat (Z.land (Z.of_nat (n + 3)) (Z.lnot 3)).

(** Fields in native order. *)
Definition read_u16 (b : list Z) (off : nat) : outcome Z :=
  w ← slice b off (off + 2); Done (from_le w).
Definition read_u32 (b : list Z) (off : nat) : outcome Z := read_u32_le b off (off + 4).

Definition NDMSG : nat := 12.
Definition RTATTR : nat := 4.
Definition NUD_VALID : Z := Z.lor (Z.lor (Z.lor (Z.lor 0x02 0x04) 0x08) 0x10) 0x80.

(** ** Neighbours *)

(** The attribute loop of a neighbour entry at [base] in [b]: [target] is the
    address that is looked for. *)
Fixpoint neigh_attrs (fuel : nat) (b : list Z) (base msg_len off : nat) (target : list Z)
    (found_ip : bool) (mac : option (list Z)) : outcome (option (list Z)) :=
  match fuel with
  | O => Panic
  | S fuel =>
      if (off + RTATTR <=? msg_len)%nat then
        rta_len ← read_u16 b (base + off);
        rta_type ← read_u16 b (base + off + 2);
        let rlen := Z.to_nat rta_len in
        if (rlen <? RTATTR)%nat || (msg_len <? off + rlen)%nat
        then Done (if found_ip then mac else None)
        else
          let dlen := (rlen - RTATTR)%nat in
          '(found_ip, mac) ←
            (if (rta_type =? 1) && (dlen =? length target)%nat then
               a ← slice b (base + off + RTATTR) (base + off + RTATTR + length target);
               Done (found_ip || bool_decide (a = target), mac)
             else if (rta_type =? 2) && (dlen =? 6)%nat then
               m ← slice b (base + off + RTATTR) (base + off + RTATTR + 6);
               Done (found_ip, Some m)
             else Done (found_ip, mac));
          neigh_attrs fuel b base msg_len (off + align_up rlen) target found_ip mac
      else Done (if found_ip then mac else None)
  end.

(** [ifindex == 0] matches every interface. *)
Definition parse_neigh_nlmsg_v4 (b : list Z) (base msg_len : nat) (target : list Z) (ifindex : Z)
    : outcome (option (list Z)) :=
  if (msg_len <? NLMSGHDR + NDMSG)%nat then Done None else
  ndm_ifindex ← read_u32 b (base + NLMSGHDR + 4);
  ndm_state ← read_u16 b (base + NLMSGHDR + 8);
  if (negb (ifindex =? 0) && negb (ndm_ifindex =? ifindex)) || (Z.land ndm_state NUD_VALID =? 0)
  then Done None
  else neigh_attrs (S msg_len) b base msg_len (align_up (NLMSGHDR + NDMSG)) target false None.

Definition parse_neigh_nlmsg (b : list Z) (base msg_len : nat) (target : list Z) (ifindex : Z)
    : outcome (option (list Z)) :=
  if (msg_len <? NLMSGHDR + NDMSG)%nat then Done None else
  ndm_ifindex ← read_u32 b (base + NLMSGHDR + 4);
  ndm_state ← read_u16 b (base + NLMSGHDR + 8);
  if negb (ndm_ifindex =? ifindex) || (Z.land ndm_state NUD_VALID =? 0)
  then Done None
  else neigh_attrs (S msg_len) b base msg_len (align_up (NLMSGHDR + NDMSG)) target false None.

(** How the walk over one datagram ends. *)
Inductive walk := WReturn (r : option (list Z)) | WNext.

(** The messages of one datagram. *)
Fixpoint neigh_walk (fuel : nat) (parse : nat → nat → outcome (option (list Z))) (b : list Z)
    (offset : nat) : outcome walk :=
  match fuel with
  | O => Panic
  | S fuel =>
      if (offset + NLMSGHDR <=? length b)%nat then
        nlmsg_len ← read_u32 b offset;
        nlmsg_type ← read_u16 b (offset + 4);
        let msg_len := Z.to_nat nlmsg_len in
        if (msg_len <? NLMSGHDR)%nat || (length b <? offset + msg_len)%nat then Done WNext
        else if nlmsg_type =? NLMSG_DONE then Done (WReturn None)
        else
          r ← (if nlmsg_type =? RTM_NEWNEIGH then parse offset msg_len else Done None);
          match r with
          | Some mac => Done (WReturn (Some mac))
          | None => neigh_walk fuel parse b (offset + align_up msg_len)
          end
      else Done WNext
  end.

(** The datagrams received until [recv] returns nothing. *)
Fixpoint neigh_loop (parse : list Z → nat → nat → outcome (option (list Z)))
    (replies : list (list Z)) : outcome (option (list Z)) :=
  match replies with
  | [] => Done None
  | b :: replies =>
      if (length b =? 0)%nat then Done None else
      w ← neigh_walk (S (length b)) (parse b) b 0;
      match w with
      | WReturn r => Done r
      | WNext => neigh_loop parse replies
      end
  end.

(** [struct NlMsgNdmsg] *)
Definition neigh_request (family seq ifindex : Z) : list Z :=
  u32_to_le_bytes 28 ++ u16_to_le_bytes RTM_GETNEIGH ++ u16_to_le_bytes (Z.lor NLM_F_REQUEST NLM_F_DUMP)
    ++ u32_to_le_bytes seq ++ u32_to_le_bytes 0 ++ [family; 0] ++ u16_to_le_bytes 0
    ++ u32_to_le_bytes ifindex ++ u16_to_le_bytes 0 ++ [0; 0].

(** [dump] is what [recv] returns for a request (each datagram cut to the
    8192-byte buffer by the kernel), up to the end of the
    socket's data. *)
Definition nl_get_neigh_v4 (dump : list Z → list (list Z)) (ip : list Z) (ifindex : Z)
    : outcome (option (list Z)) :=
  neigh_loop (λ b base msg_len, parse_neigh_nlmsg_v4 b base msg_len ip ifindex)
    (dump (neigh_request AF_INET 2 ifindex)).

Definition nl_get_neigh_v6 (dump : list Z → list (list Z)) (ip : list Z) (ifindex : Z)
    : outcome (option (list Z)) :=
  neigh_loop (λ b base msg_len, parse_neigh_nlmsg b base msg_len ip ifindex)
    (dump (neigh_request AF_INET6 1 ifindex)).

(** [s.trim_start_matches(p)] *)
Definition trim_start_matches (p l : list Z) : list Z := strip_any (length l) [p] l.

(** The lines of /proc/net/arp behind its heading. *)
Fixpoint arp_lines (target ifname : list Z) (ls : list (list Z)) : option (list Z) :=
  match ls with
  | [] => None
  | l :: ls =>
      match split_whitespace l with
      | c0 :: c1 :: c2 :: c3 :: c4 :: c5 :: _ =>
          let flags := default 0 (from_str_radix 16 u32_max (trim_start_matches (bs "0x") c2)) in
          if str_eqb c0 target && str_eqb c5 ifname && negb (flags =? 0)
          then match parse_mac c3 with Ok m => Some m | _ => None end
          else arp_lines target ifname ls
      | _ => arp_lines target ifname ls
      end
  end.

Definition lookup_arp_cache (k : kernel) (dump : list Z → list (list Z)) (proc_arp : option (list Z))
    (ip : list Z) (ifname : list Z) : outcome (option (list Z)) :=
  r ← match get_ifindex k ifname with
      | Ok ifindex =>
          r ← nl_get_neigh_v4 dump ip (as_u32 ifindex);
          match r with Some mac => Done (Some mac) | None => nl_get_neigh_v4 dump ip 0 end
      | _ => Done None
      end;
  match r with
  | Some mac => Done (Some mac)
  | None =>
      Done (content ← proc_arp; arp_lines (show_ipv4 ip) ifname (drop 1 (lines content)))
  end.

Definition lookup_ndp_cache (k : kernel) (dump : list Z → list (list Z)) (ip : list Z)
    (ifname : list Z) : outcome (option (list Z)) :=
  match get_ifindex k ifname with
  | Ok ifindex => nl_get_neigh_v6 dump ip (as_u32 ifindex)
  | _ => Done None
  end.

(** ** Routes *)

Definition RTMSG : nat := 28.

(** [struct NlMsgRtMsg] and its one attribute. *)
Definition route_request (is_v4 : bool) (octets : list Z) : list Z :=
  let payload_len := if is_v4 then 4 else 16 in
  let rta_full_len := Z.land (4 + payload_len + 3) (Z.lnot 3) in
  u32_to_le_bytes (28 + rta_full_len) ++ u16_to_le_bytes RTM_GETROUTE ++ u16_to_le_bytes NLM_F_REQUEST
    ++ u32_to_le_bytes 1 ++ u32_to_le_bytes 0
    ++ [if is_v4 then AF_INET else AF_INET6; if is_v4 then 32 else 128; 0; 0; 0; 0; 0; 0]
    ++ u32_to_le_bytes 0
    ++ u16_to_le_bytes (4 + payload_len) ++ u16_to_le_bytes 1 ++ octets.

(** The interface and the gateway of a route. *)
Definition route : Type := option (list Z) * option IpAddr.

Fixpoint route_attrs (fuel : nat) (if_indextoname : Z → option (list Z)) (is_v4 : bool) (b : list Z)
    (stop attr_offset : nat) (r : route) : outcome route :=
  match fuel with
  | O => Panic
  | S fuel =>
      if (attr_offset + RTATTR <=? stop)%nat then
        len ← read_u16 b attr_offset;
        rta_type ← read_u16 b (attr_offset + 2);
        let rta_len := Z.to_nat len in
        if (rta_len <? RTATTR)%nat || (stop <? attr_offset + rta_len)%nat then Done r
        else
          let dlen := (rta_len - RTATTR)%nat in
          let data := (attr_offset + RTATTR)%nat in
          r ← (if (rta_type =? 4) && (dlen =? 4)%nat then
                 idx ← read_u32 b data;
                 Done (match if_indextoname idx with Some n => (Some n, r.2) | None => r end)
               else if (rta_type =? 5) && is_v4 && (dlen =? 4)%nat then
                 o ← slice b data (data + 4); Done (r.1, Some (V4 o))
               else if (rta_type =? 5) && negb is_v4 && (dlen =? 16)%nat then
                 o ← slice b data (data + 16); Done (r.1, Some (V6 (v6_segments o)))
               else Done r);
          route_attrs fuel if_indextoname is_v4 b stop (attr_offset + align_up rta_len) r
      else Done r
  end.

Fixpoint route_walk (fuel : nat) (if_indextoname : Z → option (list Z)) (is_v4 : bool) (b : list Z)
    (offset : nat) : outcome (option route) :=
  match fuel with
  | O => Panic
  | S fuel =>
      if (offset + NLMSGHDR <=? length b)%nat then
        nlmsg_len ← read_u32 b offset;
        nlmsg_type ← read_u16 b (offset + 4);
        let msg_len := Z.to_nat nlmsg_len in
        if (msg_len <? NLMSGHDR)%nat || (length b <? offset + msg_len)%nat then Done None
        else if (nlmsg_type =? NLMSG_DONE) || (nlmsg_type =? NLMSG_ERROR) then Done None
        else if nlmsg_type =? RTM_NEWROUTE then
          r ← route_attrs (S msg_len) if_indextoname is_v4 b (offset + msg_len) (offset + RTMSG)
                (None, None);
          Done (Some r)
        else route_walk fuel if_indextoname is_v4 b (offset + align_up msg_len)
      else Done None
  end.

(** [reply] is the datagram received for the request, at most 8192 bytes of
    it; nothing or an empty one is an error. *)
Definition nl_get_route (if_indextoname : Z → option (list Z)) (reply : list Z → option (list Z))
    (ip : IpAddr) : outcome (option route) :=
  let octets := match ip with V4 o => o | V6 s => v6_octets s end in
  match reply (route_request (is_v4 ip) octets) with
  | None | Some [] => Done None
  | Some b =>
      let b := take (Z.to_nat 8192) b in
      route_walk (S (length b)) if_indextoname (is_v4 ip) b 0
  end.

(** ** Hexadecimal addresses *)

(** [hex16]: 32 characters, two at a time; a slice inside a character panics. *)
Fixpoint hex16_from (n : nat) (s : list Z) (i : nat) : outcome (option (list Z)) :=
  match n with
  | O => Done (Some [])
  | S n =>
      t ← str_slice s (i * 2) (i * 2 + 2);
      match from_str_radix 16 u8_max t with
      | None => Done None
      | Some v => r ← hex16_from n s (S i); Done ((v ::.) <$> r)
      end
  end.

Definition hex16 (s : list Z) : outcome (option (list Z)) :=
  if negb (length s =? 32)%nat then Done None else hex16_from 16 s 0.

(** ** Every read is inside the datagram, and every loop ends *)

Lemma align_up_spec n : align_up n = (4 * ((n + 3) / 4))%nat.
Proof.
  unfold align_up. change (Z.lnot 3) with (Z.lnot (Z.ones 2)).
  rewrite <- Z.ldiff_land, Z.ldiff_ones_r, Z.shiftl_mul_pow2, Z.shiftr_div_pow2 by lia.
  change (2 ^ 2) with 4. rewrite <- (Nat2Z.id (4 * ((n + 3) / 4))). f_equal.
  rewrite Nat2Z.inj_mul, Nat2Z.inj_div. lia.
Qed.

Lemma align_up_ge n : (n ≤ align_up n)%nat.
Proof. rewrite align_up_spec. pose proof (Nat.div_mod_eq (n + 3) 4).
  pose proof (Nat.mod_upper_bound (n + 3) 4 ltac:(lia)). lia. Qed.

Lemma read_u16_Done b off : (off + 2 ≤ length b)%nat → read_u16 b off = Done (from_le (window off 2 b)).
Proof. intros H. unfold read_u16. by rewrite slice_window, bind_Done. Qed.

Lemma read_u32_Done b off : (off + 4 ≤ length b)%nat → read_u32 b off = Done (from_le (window off 4 b)).
Proof. intros H. unfold read_u32. by rewrite read_u32_le_Done by lia. Qed.

(** A hardware address, if there is one. *)
Definition mac_result (r : option (list Z)) : Prop := ∀ m, r = Some m → length m = 6%nat.

Lemma neigh_attrs_total fuel b base msg_len off target found mac :
  (base + msg_len ≤ length b)%nat → (msg_len < off + fuel)%nat → (0 < fuel)%nat → mac_result mac →
  ∃ r, neigh_attrs fuel b base msg_len off target found mac = Done r ∧ mac_result r.
Proof.
  revert off found mac. induction fuel as [|fuel IH]; intros off found mac Hb Hf H0 Hm; [lia|].
  cbn [neigh_attrs]. unfold RTATTR.
  assert (Hr : mac_result (if found then mac else None)) by (destruct found; by try done).
  destruct (Nat.leb_spec (off + 4) msg_len) as [Ho|Ho]; [|by eexists].
  rewrite !read_u16_Done, !bind_Done by lia. set (rlen := Z.to_nat _).
  destruct (Nat.ltb_spec rlen 4) as [H4|H4]; [by eexists|].
  destruct (Nat.ltb_spec msg_len (off + rlen)) as [Hl|Hl]; [by eexists|]. cbn [orb].
  pose proof (align_up_ge rlen) as Ha.
  assert (Hstep : ∀ found mac, mac_result mac →
    ∃ r, neigh_attrs fuel b base msg_len (off + align_up rlen) target found mac = Done r ∧ mac_result r).
  { intros found' mac' Hm'. apply IH; [done|lia|lia|done]. }
  destruct (_ && _) eqn:E1; [|destruct ((_ =? 2) && _) eqn:E2].
  - apply andb_true_iff in E1 as [_ E1%Nat.eqb_eq]. rewrite slice_window, !bind_Done by lia.
    by apply Hstep.
  - apply andb_true_iff in E2 as [_ E2%Nat.eqb_eq]. rewrite slice_window, !bind_Done by lia.
    apply Hstep. intros m [= <-]. apply length_window. lia.
  - rewrite bind_Done. by apply Hstep.
Qed.

Lemma parse_neigh_v4_total b base msg_len target ifindex : (base + msg_len ≤ length b)%nat →
  ∃ r, parse_neigh_nlmsg_v4 b base msg_len target ifindex = Done r ∧ mac_result r.
Proof.
  intros Hb. unfold parse_neigh_nlmsg_v4, NLMSGHDR, NDMSG.
  destruct (Nat.ltb_spec msg_len (16 + 12)); [by eexists|].
  rewrite read_u32_Done, bind_Done, read_u16_Done, bind_Done by lia.
  destruct (_ || _); [by eexists|]. apply neigh_attrs_total; [done|lia|lia|done].
Qed.

Lemma parse_neigh_v6_total b base msg_len target ifindex : (base + msg_len ≤ length b)%nat →
  ∃ r, parse_neigh_nlmsg b base msg_len target ifindex = Done r ∧ mac_result r.
Proof.
  intros Hb. unfold parse_neigh_nlmsg, NLMSGHDR, NDMSG.
  destruct (Nat.ltb_spec msg_len (16 + 12)); [by eexists|].
  rewrite read_u32_Done, bind_Done, read_u16_Done, bind_Done by lia.
  destruct (_ || _); [by eexists|]. apply neigh_attrs_total; [done|lia|lia|done].
Qed.

Lemma neigh_walk_total fuel parse b offset :
  (∀ base msg_len, (base + msg_len ≤ length b)%nat → ∃ r, parse base msg_len = Done r ∧ mac_result r) →
  (length b < offset + fuel)%nat → (0 < fuel)%nat →
  ∃ w, neigh_walk fuel parse b offset = Done w ∧
    match w with WReturn r => mac_result r | WNext => True end.
Proof.
  intros Hp. revert offset. induction fuel as [|fuel IH]; intros offset Hf H0; [lia|].
  cbn [neigh_walk]. unfold NLMSGHDR.
  destruct (Nat.leb_spec (offset + 16) (length b)) as [Ho|Ho]; [|by eexists].
  rewrite read_u32_Done, bind_Done, read_u16_Done, bind_Done by lia. set (n := Z.to_nat _).
  destruct (Nat.ltb_spec n 16); [by eexists|].
  destruct (Nat.ltb_spec (length b) (offset + n)); [by eexists|]. cbn [orb].
  destruct (_ =? NLMSG_DONE); [by eexists|].
  assert (Hr : ∃ r, (if from_le (window (offset + 4) 2 b) =? RTM_NEWNEIGH then parse offset n
                     else Done None) = Done r ∧ mac_result r).
  { destruct (_ =? RTM_NEWNEIGH); [by apply Hp|by eexists]. }
  destruct Hr as (r & -> & Hr). rewrite bind_Done. destruct r as [m|]; [by eexists|].
  pose proof (align_up_ge n). apply IH; lia.
Qed.

Lemma neigh_loop_total parse replies :
  (∀ b base msg_len, (base + msg_len ≤ length b)%nat →
     ∃ r, parse b base msg_len = Done r ∧ mac_result r) →
  ∃ r, neigh_loop parse replies = Done r ∧ mac_result r.
Proof.
  intros Hp. induction replies as [|b replies IH]; cbn [neigh_loop]; [by eexists|].
  destruct (_ =? 0)%nat; [by eexists|].
  destruct (neigh_walk_total (S (length b)) (parse b) b 0) as (w & -> & Hw); [apply Hp|lia|lia|].
  rewrite bind_Done. destruct w as [r|]; [by eexists|done].
Qed.

Lemma route_attrs_total fuel name v4 b stop off r :
  (stop ≤ length b)%nat → (stop < off + fuel)%nat → (0 < fuel)%nat →
  ∃ r', route_attrs fuel name v4 b stop off r = Done r'.
Proof.
  revert off r. induction fuel as [|fuel IH]; intros off r Hb Hf H0; [lia|].
  cbn [route_attrs]. unfold RTATTR.
  destruct (Nat.leb_spec (off + 4) stop) as [Ho|Ho]; [|by eexists].
  rewrite !read_u16_Done, !bind_Done by lia. set (n := Z.to_nat _).
  destruct (Nat.ltb_spec n 4); [by eexists|].
  destruct (Nat.ltb_spec stop (off + n)); [by eexists|]. cbn [orb].
  pose proof (align_up_ge n).
  assert (Hstep : ∀ r, ∃ r', route_attrs fuel name v4 b stop (off + align_up n) r = Done r')
    by (intros r1; apply IH; lia).
  destruct (_ && _) eqn:E1; [|destruct ((_ =? 5) && v4 && _) eqn:E2; [|destruct ((_ =? 5) && negb v4 && _) eqn:E3]].
  - apply andb_true_iff in E1 as [_ E1%Nat.eqb_eq]. rewrite read_u32_Done, !bind_Done by lia. apply Hstep.
  - apply andb_true_iff in E2 as [_ E2%Nat.eqb_eq]. rewrite slice_window, !bind_Done by lia. apply Hstep.
  - apply andb_true_iff in E3 as [_ E3%Nat.eqb_eq]. rewrite slice_window, !bind_Done by lia. apply Hstep.
  - rewrite bind_Done. apply Hstep.
Qed.

Lemma route_walk_total fuel name v4 b offset : (length b < offset + fuel)%nat → (0 < fuel)%nat →
  ∃ r, route_walk fuel name v4 b offset = Done r.
Proof.
  revert offset. induction fuel as [|fuel IH]; intros offset Hf H0; [lia|].
  cbn [route_walk]. unfold NLMSGHDR.
  destruct (Nat.leb_spec (offset + 16) (length b)) as [Ho|Ho]; [|by eexists].
  rewrite read_u32_Done, bind_Done, read_u16_Done, bind_Done by lia. set (n := Z.to_nat _).
  destruct (Nat.ltb_spec n 16); [by eexists|].
  destruct (Nat.ltb_spec (length b) (offset + n)); [by eexists|]. cbn [orb].
  destruct (_ || _); [by eexists|]. destruct (_ =? RTM_NEWROUTE).
  - unfold RTMSG. destruct (route_attrs_total (S n) name v4 b (offset + n) (offset + 28) (None, None))
      as [r ->]; [lia..|]. rewrite bind_Done. by eexists.
  - pose proof (align_up_ge n). apply IH; lia.
Qed.

Lemma nl_get_route_total name reply ip : ∃ r, nl_get_route name reply ip = Done r.
Proof.
  unfold nl_get_route. destruct (reply _) as [[|x b]|]; [by eexists| |by eexists].
  apply route_walk_total; lia.
Qed.

(** C24: no answer of the kernel makes the neighbour and route lookups read outside
    of the received bytes or loop for ever: for every sequence of datagrams the
    IPv4 and IPv6 neighbour lookups and the route lookup return, and an address
    they return has six bytes. *)
Theorem kernel_replies_safe dump name reply ip4 ip6 ip ifindex :
  (∃ r, nl_get_neigh_v4 dump ip4 ifindex = Done r ∧ mac_result r) ∧
  (∃ r, nl_get_neigh_v6 dump ip6 ifindex = Done r ∧ mac_result r) ∧
  (∃ r, nl_get_route name reply ip = Done r).
Proof.
  split_and!.
  - apply neigh_loop_total. intros. by apply parse_neigh_v4_total.
  - apply neigh_loop_total. intros. by apply parse_neigh_v6_total.
  - apply nl_get_route_total.
Qed.

(** ** The lookups find what the kernel reports *)

Lemma window_mid {A} lo n (pre x post : list A) : (lo + n ≤ length x)%nat →
  window (length pre + lo) n (pre ++ x ++ post) = window lo n x.
Proof.
  intros H. rewrite window_app_ge by lia. replace (length pre + lo - length pre)%nat with lo by lia.
  by apply window_app_l.
Qed.

(** The attributes of an entry, in order: is the address there, and the last
    hardware address. *)
Definition scan_attr (target : list Z) (acc : bool * option (list Z)) (a : Z * list Z)
    : bool * option (list Z) :=
  if (a.1 =? 1) && (length a.2 =? length target)%nat then (acc.1 || bool_decide (a.2 = target), acc.2)
  else if (a.1 =? 2) && (length a.2 =? 6)%nat then (acc.1, Some a.2)
  else acc.

Definition scan_result (acc : bool * option (list Z)) : option (list Z) :=
  if acc.1 then acc.2 else None.

Definition enc_attrs (l : list (Z * list Z)) : list Z := concat ((λ a, enc_attr a.1 a.2) <$> l).

Lemma enc_attr_fields ty data post pre : is_u16 ty → Z.of_nat (4 + length data) < 65536 →
  let b := pre ++ enc_attr ty data ++ post in
  from_le (window (length pre) 2 b) = Z.of_nat (4 + length data) ∧
  from_le (window (length pre + 2) 2 b) = ty ∧
  window (length pre + 4) (length data) b = data ∧
  length (enc_attr ty data) = align_up (4 + length data).
Proof.
  intros Ht Hd b. pose proof (padding_lt (length data)) as Hp.
  assert (He : length (enc_attr ty data) = (4 + length data + padding (length data))%nat)
    by (unfold enc_attr; rewrite !length_app, !length_le_bytes, length_replicate; lia).
  split_and!.
  - rewrite <- (Nat.add_0_r (length pre)) at 1. unfold b. rewrite window_mid by lia. unfold enc_attr.
    rewrite window_app_l by (rewrite length_le_bytes; lia).
    rewrite window_whole, from_le_bytes by (done || by rewrite length_le_bytes).
    apply wrap_small. split; [lia|done].
  - unfold b. rewrite window_mid by lia. unfold enc_attr.
    rewrite window_app_ge by (rewrite length_le_bytes; lia).
    rewrite length_le_bytes, window_app_l by (rewrite length_le_bytes; lia).
    rewrite window_whole, from_le_bytes by (done || by rewrite length_le_bytes). by apply wrap_small.
  - unfold b. rewrite window_mid by lia. unfold enc_attr.
    do 2 rewrite window_app_ge by (rewrite !length_le_bytes; lia). rewrite !length_le_bytes.
    rewrite window_app_l by lia. by apply window_whole.
  - rewrite He, align_up_spec. unfold padding.
    pose proof (Nat.div_mod_eq (4 + length data + 3) 4) as Hdm.
    assert (Hm : ((4 + length data + 3) mod 4 = (length data + 3) mod 4)%nat).
    { replace (4 + length data + 3)%nat with (length data + 3 + 1 * 4)%nat by lia.
      apply Nat.Div0.mod_add. }
    pose proof (Nat.mod_upper_bound (length data + 3) 4 ltac:(lia)). lia.
Qed.

Lemma neigh_attrs_enc fuel base pre post l off target acc : Forall attr_ok l →
  length pre = (base + off)%nat → (off + length (enc_attrs l) < off + fuel)%nat →
  neigh_attrs fuel (pre ++ enc_attrs l ++ post) base (off + length (enc_attrs l)) off target acc.1 acc.2
  = Done (scan_result (foldl (scan_attr target) acc l)).
Proof.
  intros HF. revert fuel pre off acc.
  induction HF as [|[ty data] l [Ht Hd] HF IH]; intros fuel pre off acc Hpre Hf.
  - destruct fuel as [|fuel]; [lia|]. cbn [neigh_attrs enc_attrs concat fmap list_fmap length foldl].
    unfold RTATTR. destruct (Nat.leb_spec (off + 4) (off + 0)); [lia|done].
  - cbn [fst snd] in Ht, Hd. unfold enc_attrs in *. rewrite fmap_cons in Hf |- *.
    cbn [concat fst snd] in Hf |- *. set (rest := concat _) in *. rewrite length_app in Hf |- *.
    destruct (enc_attr_fields ty data (rest ++ post) pre Ht Hd) as (H1 & H2 & H3 & H4).
    rewrite <- app_assoc. set (b := pre ++ _) in *.
    assert (Hb : (length pre + length (enc_attr ty data) + length rest + length post = length b)%nat)
      by (unfold b; rewrite !length_app; lia).
    pose proof (align_up_ge (4 + length data)) as Ha.
    destruct fuel as [|fuel]; [lia|]. cbn [neigh_attrs]. unfold RTATTR.
    destruct (Nat.leb_spec (off + 4) (off + (length (enc_attr ty data) + length rest))); [|lia].
    rewrite <- Hpre, !read_u16_Done, !bind_Done, H1, H2, Nat2Z.id by lia.
    destruct (Nat.ltb_spec (4 + length data) 4); [lia|].
    destruct (Nat.ltb_spec (off + (length (enc_attr ty data) + length rest)) (off + (4 + length data)));
      [lia|]. cbn [orb]. replace (4 + length data - 4)%nat with (length data) by lia.
    assert (Hstep : ∀ acc', neigh_attrs fuel b base (off + (length (enc_attr ty data) + length rest))
      (off + align_up (4 + length data)) target acc'.1 acc'.2
      = Done (scan_result (foldl (scan_attr target) acc' l))).
    { intros acc'. rewrite <- H4. specialize (IH fuel (pre ++ enc_attr ty data)
        (off + length (enc_attr ty data))%nat acc'). rewrite length_app, <- !app_assoc in IH.
      fold b in IH. rewrite <- IH by lia. f_equal. lia. }
    cbn [foldl]. unfold scan_attr at 2. cbn [fst snd].
    destruct (_ && _) eqn:E1; [|destruct ((_ =? 2) && _) eqn:E2].
    + apply andb_true_iff in E1 as [_ E1%Nat.eqb_eq]. rewrite <- E1, slice_window, !bind_Done by lia.
      rewrite H3. apply (Hstep (_, _)).
    + apply andb_true_iff in E2 as [_ E2%Nat.eqb_eq]. rewrite slice_window, !bind_Done by lia.
      rewrite <- E2, H3. apply (Hstep (_, _)).
    + rewrite bind_Done. apply Hstep.
Qed.

(** A neighbour entry as the kernel sends it; [e_hdr] is the rest of the
    message header (flags, sequence number and port). *)
Record entry := mkEntry { e_hdr : list Z; e_family : Z; e_index : Z; e_state : Z; e_attrs : list (Z * list Z) }.

Definition enc_entry (e : entry) : list Z :=
  let body := write_ndmsg [] (e_family e) (e_index e) (e_state e) 0 RTN_UNICAST ++ enc_attrs (e_attrs e) in
  u32_to_le_bytes (Z.of_nat (16 + length body)) ++ u16_to_le_bytes RTM_NEWNEIGH ++ e_hdr e ++ body.

Record entry_ok (e : entry) : Prop := {
  eo_hdr : length (e_hdr e) = 10%nat;
  eo_index : is_u32 (e_index e);
  eo_state : is_u16 (e_state e);
  eo_attrs : Forall attr_ok (e_attrs e);
  eo_len : Z.of_nat (28 + length (enc_attrs (e_attrs e))) < 2 ^ 32
}.

(** The address of an entry that is valid and for [target]; [any] is whether
    an interface index of 0 matches all of them. *)
Definition entry_mac (any : bool) (target : list Z) (ifindex : Z) (e : entry) : option (list Z) :=
  if negb (any && (ifindex =? 0)) && negb (e_index e =? ifindex) || (Z.land (e_state e) NUD_VALID =? 0)
  then None
  else scan_result (foldl (scan_attr target) (false, None) (e_attrs e)).

Lemma enc_entry_fields pre post e : entry_ok e →
  let b := pre ++ enc_entry e ++ post in
  length (enc_entry e) = (28 + length (enc_attrs (e_attrs e)))%nat ∧
  from_le (window (length pre) 4 b) = Z.of_nat (length (enc_entry e)) ∧
  from_le (window (length pre + 4) 2 b) = RTM_NEWNEIGH ∧
  from_le (window (length pre + 20) 4 b) = e_index e ∧
  from_le (window (length pre + 24) 2 b) = e_state e ∧
  ∃ pre', b = pre' ++ enc_attrs (e_attrs e) ++ post ∧ length pre' = (length pre + 28)%nat.
Proof.
  intros [Hh Hi Hs _ Hl] b.
  set (nd := write_ndmsg [] (e_family e) (e_index e) (e_state e) 0 RTN_UNICAST).
  assert (Hnd : nd = [e_family e; 0] ++ u16_to_le_bytes 0 ++ u32_to_le_bytes (e_index e)
                      ++ u16_to_le_bytes (e_state e) ++ [0; RTN_UNICAST])
    by (unfold nd, write_ndmsg, push_u32, push_u16; by rewrite <- !app_assoc).
  assert (Hln : length nd = 12%nat) by done.
  set (n := length (enc_attrs (e_attrs e))) in *.
  assert (He : enc_entry e = u32_to_le_bytes (Z.of_nat (28 + n)) ++ u16_to_le_bytes RTM_NEWNEIGH
    ++ e_hdr e ++ nd ++ enc_attrs (e_attrs e)).
  { unfold enc_entry. fold nd. rewrite length_app, Hln. fold n. done. }
  assert (Hlen : length (enc_entry e) = (28 + n)%nat)
    by (rewrite He, !length_app, !length_le_bytes, Hh, Hln; fold n; lia).
  assert (Hfield : ∀ lo k x y z, enc_entry e = x ++ y ++ z → length x = lo → length y = k →
    window (length pre + lo) k b = y).
  { intros lo k x y z Hxyz Hx Hy. unfold b.
    assert (Hle : (lo + k ≤ length (enc_entry e))%nat) by (rewrite Hxyz, !length_app; lia).
    rewrite window_mid by done. rewrite Hxyz, window_app_ge, window_app_l by lia.
    apply window_whole; lia. }
  split_and!; [done| | | | |].
  - rewrite Hlen, <- (Nat.add_0_r (length pre)).
    rewrite (Hfield 0%nat 4%nat [] (u32_to_le_bytes (Z.of_nat (28 + n))) _ He) by done.
    rewrite from_le_bytes. apply wrap_small. split; [lia|done].
  - by rewrite (Hfield 4%nat 2%nat _ (u16_to_le_bytes RTM_NEWNEIGH) _ He).
  - rewrite (Hfield 20%nat 4%nat (u32_to_le_bytes (Z.of_nat (28 + n)) ++ u16_to_le_bytes RTM_NEWNEIGH
      ++ e_hdr e ++ [e_family e; 0] ++ u16_to_le_bytes 0) (u32_to_le_bytes (e_index e))
      (u16_to_le_bytes (e_state e) ++ [0; RTN_UNICAST] ++ enc_attrs (e_attrs e)));
      [rewrite from_le_bytes; by apply wrap_small|by rewrite He, Hnd, <- !app_assoc
      |rewrite !length_app, !length_le_bytes, Hh; done|by rewrite length_le_bytes].
  - rewrite (Hfield 24%nat 2%nat (u32_to_le_bytes (Z.of_nat (28 + n)) ++ u16_to_le_bytes RTM_NEWNEIGH
      ++ e_hdr e ++ [e_family e; 0] ++ u16_to_le_bytes 0 ++ u32_to_le_bytes (e_index e))
      (u16_to_le_bytes (e_state e)) ([0; RTN_UNICAST] ++ enc_attrs (e_attrs e)));
      [rewrite from_le_bytes; by apply wrap_small|by rewrite He, Hnd, <- !app_assoc
      |rewrite !length_app, !length_le_bytes, Hh; done|by rewrite length_le_bytes].
  - exists (pre ++ u32_to_le_bytes (Z.of_nat (28 + n)) ++ u16_to_le_bytes RTM_NEWNEIGH ++ e_hdr e ++ nd).
    split; [unfold b; by rewrite He, <- !app_assoc|].
    rewrite !length_app, !length_le_bytes, Hh, Hln. lia.
Qed.

Lemma parse_neigh_v4_entry pre post e target ifindex : entry_ok e →
  parse_neigh_nlmsg_v4 (pre ++ enc_entry e ++ post) (length pre) (length (enc_entry e)) target ifindex
  = Done (entry_mac true target ifindex e).
Proof.
  intros He. destruct (enc_entry_fields pre post e He) as (Hl & _ & _ & Hi & Hs & pre' & Hb & Hp).
  set (b := pre ++ _) in *. assert (Hlb : (length pre + length (enc_entry e) ≤ length b)%nat)
    by (unfold b; rewrite !length_app; lia).
  unfold parse_neigh_nlmsg_v4, NLMSGHDR, NDMSG, entry_mac. cbn [andb].
  destruct (Nat.ltb_spec (length (enc_entry e)) (16 + 12)); [lia|].
  rewrite read_u32_Done, bind_Done, read_u16_Done, bind_Done by lia.
  rewrite <- !Nat.add_assoc. cbn [Nat.add]. rewrite Hi, Hs. destruct (_ || _); [done|].
  rewrite Hb, Hl. apply (neigh_attrs_enc _ _ _ _ _ _ _ (false, None));
    [apply He|done|lia].
Qed.

Lemma parse_neigh_v6_entry pre post e target ifindex : entry_ok e →
  parse_neigh_nlmsg (pre ++ enc_entry e ++ post) (length pre) (length (enc_entry e)) target ifindex
  = Done (entry_mac false target ifindex e).
Proof.
  intros He. destruct (enc_entry_fields pre post e He) as (Hl & _ & _ & Hi & Hs & pre' & Hb & Hp).
  set (b := pre ++ _) in *. assert (Hlb : (length pre + length (enc_entry e) ≤ length b)%nat)
    by (unfold b; rewrite !length_app; lia).
  unfold parse_neigh_nlmsg, NLMSGHDR, NDMSG, entry_mac. cbn [andb negb].
  destruct (Nat.ltb_spec (length (enc_entry e)) (16 + 12)); [lia|].
  rewrite read_u32_Done, bind_Done, read_u16_Done, bind_Done by lia.
  rewrite <- !Nat.add_assoc. cbn [Nat.add]. rewrite Hi, Hs. destruct (_ || _); [done|].
  rewrite Hb, Hl. apply (neigh_attrs_enc _ _ _ _ _ _ _ (false, None));
    [apply He|done|lia].
Qed.

(** The first address among the entries of a datagram. *)
Fixpoint first_mac {A} (f : A → option (list Z)) (l : list A) : option (list Z) :=
  match l with
  | [] => None
  | a :: l => match f a with Some m => Some m | None => first_mac f l end
  end.

Definition enc_entries (es : list entry) : list Z := concat (enc_entry <$> es).

Lemma enc_entry_aligned e : entry_ok e → align_up (length (enc_entry e)) = length (enc_entry e).
Proof.
  intros He. destruct (enc_entry_fields [] [] e He) as (Hl & _). rewrite Hl, align_up_spec.
  assert (Hm : (length (enc_attrs (e_attrs e)) mod 4 = 0)%nat).
  { clear Hl. unfold enc_attrs. induction (e_attrs e) as [|a l IH]; [done|]. rewrite fmap_cons. cbn [concat].
    rewrite length_app. apply aligned_add; [apply enc_attr_aligned|exact IH]. }
  pose proof (Nat.div_mod_eq (length (enc_attrs (e_attrs e))) 4) as Hd. rewrite Hm in Hd.
  rewrite Hd. set (q := (length _ / 4)%nat).
  replace (28 + (4 * q + 0) + 3)%nat with (3 + (7 + q) * 4)%nat by lia.
  rewrite Nat.div_add by lia. change (3 / 4)%nat with 0%nat. lia.
Qed.

(** The walk over a datagram of entries. *)
Lemma neigh_walk_entries any target ifindex (parse : list Z → nat → nat → outcome (option (list Z)))
    es pre fuel :
  (∀ pre post e, entry_ok e → parse (pre ++ enc_entry e ++ post) (length pre) (length (enc_entry e))
     = Done (entry_mac any target ifindex e)) →
  Forall entry_ok es → (length (enc_entries es) < fuel)%nat →
  let b := pre ++ enc_entries es in
  neigh_walk fuel (parse b) b (length pre)
  = Done (match first_mac (entry_mac any target ifindex) es with
          | Some m => WReturn (Some m) | None => WNext end).
Proof.
  intros Hp HF. revert pre fuel. induction HF as [|e es He HF IH]; intros pre fuel Hf b; subst b.
  - destruct fuel as [|fuel]; [lia|]. cbn [neigh_walk enc_entries fmap list_fmap concat first_mac].
    rewrite app_nil_r. unfold NLMSGHDR. destruct (Nat.leb_spec (length pre + 16) (length pre)); [lia|done].
  - unfold enc_entries in *. rewrite fmap_cons in Hf |- *. cbn [concat] in Hf |- *.
    set (rest := concat _) in *. rewrite length_app in Hf.
    destruct (enc_entry_fields pre rest e He) as (Hl & Hn & Ht & _).
    destruct fuel as [|fuel]; [lia|]. cbn [neigh_walk first_mac]. unfold NLMSGHDR.
    assert (Hb : length (pre ++ enc_entry e ++ rest)
                 = (length pre + (length (enc_entry e) + length rest))%nat) by (rewrite !length_app; lia).
    destruct (Nat.leb_spec (length pre + 16) (length (pre ++ enc_entry e ++ rest))); [|lia].
    rewrite read_u32_Done, bind_Done, read_u16_Done, bind_Done by lia. rewrite Hn, Ht, Nat2Z.id.
    destruct (Nat.ltb_spec (length (enc_entry e)) 16); [lia|].
    destruct (Nat.ltb_spec (length (pre ++ enc_entry e ++ rest)) (length pre + length (enc_entry e)));
      [lia|]. cbn [orb].
    change (RTM_NEWNEIGH =? NLMSG_DONE) with false. change (RTM_NEWNEIGH =? RTM_NEWNEIGH) with true.
    cbv iota. rewrite Hp, bind_Done by done. destruct (entry_mac any target ifindex e); [done|].
    rewrite enc_entry_aligned by done.
    specialize (IH (pre ++ enc_entry e) fuel). rewrite <- app_assoc, length_app in IH. apply IH. lia.
Qed.

Lemma neigh_loop_entries any target ifindex parse (dgs : list (list entry)) :
  (∀ pre post e, entry_ok e → parse (pre ++ enc_entry e ++ post) (length pre) (length (enc_entry e))
     = Done (entry_mac any target ifindex e)) →
  Forall (λ es, es ≠ [] ∧ Forall entry_ok es) dgs →
  neigh_loop parse (enc_entries <$> dgs) = Done (first_mac (entry_mac any target ifindex) (concat dgs)).
Proof.
  intros Hp HF. induction HF as [|es dgs [Hne Hes] HF IH]; [done|].
  rewrite fmap_cons. cbn [neigh_loop concat].
  assert (Hl : (length (enc_entries es) ≠ 0)%nat).
  { destruct es as [|e es]; [done|]. apply Forall_cons in Hes as [He _].
    destruct (enc_entry_fields [] [] e He) as (Hl & _). unfold enc_entries. rewrite fmap_cons.
    cbn [concat]. rewrite length_app. lia. }
  apply Nat.eqb_neq in Hl as ->.
  pose proof (neigh_walk_entries any target ifindex parse es [] (S (length (enc_entries es))) Hp Hes
    ltac:(lia)) as Hw. cbn [app length] in Hw. rewrite Hw, bind_Done.
  assert (Happ : ∀ l k, first_mac (entry_mac any target ifindex) (l ++ k)
    = match first_mac (entry_mac any target ifindex) l with
      | Some m => Some m | None => first_mac (entry_mac any target ifindex) k end).
  { intros l k. induction l as [|a l IHl]; [done|]. cbn. by destruct (entry_mac _ _ _ a). }
  rewrite Happ. by destruct (first_mac _ es).
Qed.


Definition sample_entry (idx last : Z) : entry :=
  mkEntry (replicate 10 0) AF_INET idx 0x02
    [(1, [192; 168; 1; last]); (2, [2; 71; 192; 168; 1; last]); (3, [0; 0; 0; 0])].

Lemma sample_entry_ok idx last : is_u32 idx → entry_ok (sample_entry idx last).
Proof.
  intros Hi. split; try done.
  repeat (apply Forall_cons; split; [split; [by split|done]|]). constructor.
Qed.

