(* ===== verification/Frames.v ===== *)
(** * netlink.rs: resolving hardware addresses on the wire

    The ARP request, the TTL-1 probe and the neighbour solicitation as byte
    arrays, their checksums, and the loops that wait for an answer.  The raw
    sockets are parameters: what the ioctls report about the interface, and
    the sequence of frames and timeouts that [recv] returns.  The last part has
    the echo requests of [src/src/tc/loader.rs]. *)

From S2P Require Import Prelude Words Slices Text Obfs Results StrOps Net Netlink NetlinkParse.
Local Open Scope Z_scope.

(** ** Internet checksums *)

(** [while sum >> 16 != 0 { sum = (sum & 0xffff) + (sum >> 16) }] *)
Fixpoint fold_csum (fuel : nat) (sum : Z) : Z :=
  match fuel with
  | O => sum
  | S fuel => if shr sum 16 =? 0 then sum else fold_csum fuel (Z.land sum 0xffff + shr sum 16)
  end.

(** [!(sum as u16)], folded first. *)
Definition inet_checksum (sum : Z) : Z := bnot 16 (as_u16 (fold_csum 4 sum)).

(** [sum += (b[i] << 8) | b[i + 1]] at an index. *)
Definition add_word (b : list Z) (sum : Z) (i : nat) : Z :=
  wrapping_add 32 sum (Z.lor (shl 32 (b !!! i) 8) (b !!! (i + 1)%nat)).

(** [sum += u32::from(u16::from_be_bytes([b[i], b[i + 1]]))] *)
Definition add_be16 (b : list Z) (sum : Z) (i : nat) : Z :=
  wrapping_add 32 sum (from_be [b !!! i; b !!! (i + 1)%nat]).

(** [(lo..hi).step_by(2)] with [n] steps. *)
Definition steps (lo n : nat) : list nat := (λ i, lo + 2 * i)%nat <$> seq 0 n.

(** ** ARP *)

Definition BROADCAST : list Z := replicate 6 0xff.

Definition arp_frame (src_mac sender_ip target : list Z) : outcome (list Z) :=
  let frame := replicate 42 0 in
  frame ← copy_from_slice frame 0 6 BROADCAST;
  frame ← copy_from_slice frame 6 12 src_mac;
  frame ← put_all frame 12 [0x08; 0x06; 0x00; 0x01; 0x08; 0x00; 6; 4; 0x00; 0x01];
  frame ← copy_from_slice frame 22 28 src_mac;
  frame ← copy_from_slice frame 28 32 sender_ip;
  copy_from_slice frame 38 42 target.

(** A reply to [target]'s request: the sender's hardware address. *)
Definition arp_accept (target : list Z) (buf : list Z) : option (list Z) :=
  if (length buf <? 42)%nat then None
  else if (buf !!! 12%nat =? 0x08) && (buf !!! 13%nat =? 0x06) && (buf !!! 20%nat =? 0x00)
          && (buf !!! 21%nat =? 0x02) && bool_decide (window 28 4 buf = target)
  then Some (window 22 6 buf) else None.

(** What one [recv] returns: a frame, or a timeout. *)
Abbreviation received := (option (list Z)).

(** The inner loop: an address, or the rest of the events after a timeout
    (nothing more arrives after the last event). *)
Fixpoint wait_reply (accept : list Z → option (list Z)) (evs : list received)
    : list Z + list received :=
  match evs with
  | [] => inr []
  | None :: evs => inr evs
  | Some f :: evs => match accept f with Some m => inl m | None => wait_reply accept evs end
  end.

(** [n] attempts: the number of requests that were sent, and the answer. *)
Fixpoint attempts (n : nat) (accept : list Z → option (list Z)) (evs : list received)
    : nat * option (list Z) :=
  match n with
  | O => (0%nat, None)
  | S n =>
      match wait_reply accept evs with
      | inl m => (1%nat, Some m)
      | inr evs => let '(sent, r) := attempts n accept evs in (S sent, r)
      end
  end.

(** What the system says about the interface. *)
Record iface := mkIface {
  raw_socket : bool;
  bind_ok : bool;
  inet_socket : bool;
  hwaddr : option (list Z);
  ifaddr : option (list Z)
}.

(** The frames that were sent, and the answer. *)
Definition arp_request_reply (k : kernel) (i : iface) (target ifname : list Z) (evs : list received)
    : outcome (list (list Z) * option (list Z)) :=
  if negb (raw_socket i) then Done ([], None) else
  match get_ifindex k ifname with
  | Ok _ =>
      if negb (bind_ok i) then Done ([], None) else
      match hwaddr i with
      | None => Done ([], None)
      | Some src_mac =>
          let sender_ip := if inet_socket i then default [0; 0; 0; 0] (ifaddr i) else [0; 0; 0; 0] in
          frame ← arp_frame src_mac sender_ip target;
          let '(sent, r) := attempts 4 (arp_accept target) evs in
          Done (replicate sent frame, r)
      end
  | _ => Done ([], None)
  end.

(** ** The TTL probe *)

(** The IP header in [frame[14..34]]. *)
Definition probe_ip (ip src_ip dst_ip : list Z) : outcome (list Z) :=
  ip ← put_all ip 0 [0x45; 0; 0; 28; 0; 1; 0; 0; 1; 17];
  ip ← copy_from_slice ip 12 16 src_ip;
  ip ← copy_from_slice ip 16 20 dst_ip;
  let csum := inet_checksum (foldl (add_word ip) 0 (steps 0 10)) in
  ip ← put ip 10 (as_u8 (shr csum 8));
  put ip 11 (as_u8 (Z.land csum 0xff)).

Definition probe_frame (src_mac src_ip dst_ip : list Z) : outcome (list Z) :=
  let frame := replicate 42 0 in
  frame ← copy_from_slice frame 0 6 BROADCAST;
  frame ← copy_from_slice frame 6 12 src_mac;
  frame ← put frame 12 0x08;
  frame ← put frame 13 0x00;
  ip ← slice frame 14 34;
  ip ← probe_ip ip src_ip dst_ip;
  frame ← copy_from_slice frame 14 34 ip;
  udp ← slice frame 34 42;
  udp ← put_all udp 0 [0x30; 0x39; 0x30; 0x39; 0; 8];
  copy_from_slice frame 34 42 udp.

(** An ICMP error (time exceeded or unreachable) from the gateway. *)
Definition probe_accept (gateway : list Z) (buf : list Z) : option (list Z) :=
  if (length buf <? 42)%nat then None
  else if negb (buf !!! 12%nat =? 0x08) || negb (buf !!! 13%nat =? 0x00) then None
  else if negb (buf !!! 23%nat =? 1) then None
  else if negb (bool_decide (window 26 4 buf = gateway)) then None
  else if (buf !!! 34%nat =? 11) || (buf !!! 34%nat =? 3) then Some (window 6 6 buf) else None.

Definition resolve_mac_via_ttl_probe (k : kernel) (i : iface) (gateway probe_dst ifname : list Z)
    (evs : list received) : outcome (list (list Z) * option (list Z)) :=
  if negb (raw_socket i) then Done ([], None) else
  match get_ifindex k ifname with
  | Ok _ =>
      if negb (bind_ok i && inet_socket i) then Done ([], None) else
      match hwaddr i with
      | None => Done ([], None)
      | Some src_mac =>
          frame ← probe_frame src_mac (default [0; 0; 0; 0] (ifaddr i)) probe_dst;
          let '(sent, r) := attempts 4 (probe_accept gateway) evs in
          Done (replicate sent frame, r)
      end
  | _ => Done ([], None)
  end.

(** ** Neighbour solicitation *)

Definition ndp_dst_mac (target : list Z) : list Z :=
  [0x33; 0x33; 0xff; target !!! 13%nat; target !!! 14%nat; target !!! 15%nat].
Definition ndp_dst_ip (target : list Z) : list Z :=
  [0xff; 0x02; 0; 0; 0; 0; 0; 0; 0; 0; 0; 0x01; 0xff; target !!! 13%nat; target !!! 14%nat;
   target !!! 15%nat].

(** The sum over the pseudo header and the ICMPv6 message. *)
Definition ndp_sum (sender_ip dst_ip frame : list Z) : Z :=
  let sum := foldl (add_be16 sender_ip) 0 (steps 0 8) in
  let sum := foldl (add_be16 dst_ip) sum (steps 0 8) in
  let sum := wrapping_add 32 sum 32 in
  let sum := wrapping_add 32 sum 58 in
  foldl (add_be16 frame) sum (steps 54 16).

Definition ndp_frame (src_mac sender_ip target : list Z) : outcome (list Z) :=
  let dst_ip := ndp_dst_ip target in
  let frame := replicate 86 0 in
  frame ← copy_from_slice frame 0 6 (ndp_dst_mac target);
  frame ← copy_from_slice frame 6 12 src_mac;
  frame ← copy_from_slice frame 12 14 [0x86; 0xdd];
  frame ← copy_from_slice frame 14 18 [0x60; 0x00; 0x00; 0x00];
  frame ← copy_from_slice frame 18 20 [0x00; 0x20];
  frame ← put frame 20 58;
  frame ← put frame 21 255;
  frame ← copy_from_slice frame 22 38 sender_ip;
  frame ← copy_from_slice frame 38 54 dst_ip;
  frame ← put frame 54 135;
  frame ← put frame 55 0;
  frame ← copy_from_slice frame 62 78 target;
  frame ← put frame 78 1;
  frame ← put frame 79 1;
  frame ← copy_from_slice frame 80 86 src_mac;
  let chk := u16_to_be_bytes (inet_checksum (ndp_sum sender_ip dst_ip frame)) in
  frame ← put frame 56 (chk !!! 0%nat);
  put frame 57 (chk !!! 1%nat).

(** The options of an advertisement, from [idx]. *)
Fixpoint ndp_options (fuel : nat) (buf : list Z) (idx : nat) : outcome (list Z) :=
  match fuel with
  | O => Panic
  | S fuel =>
      if (idx + 1 <? length buf)%nat then
        opt_type ← get buf idx;
        len ← get buf (idx + 1);
        let opt_len := (Z.to_nat len * 8)%nat in
        if (opt_len =? 0)%nat || (length buf <? idx + opt_len)%nat then slice buf 6 12
        else if (opt_type =? 2) && (8 <=? opt_len)%nat then slice buf (idx + 2) (idx + 8)
        else ndp_options fuel buf (idx + opt_len)
      else slice buf 6 12
  end.

(** One frame; [None] is [continue]. *)
Definition ndp_accept (target buf : list Z) : outcome (option (list Z)) :=
  if (length buf <? 86)%nat then Done None else
  b12 ← get buf 12;
  b13 ← get buf 13;
  if negb (from_be [b12; b13] =? 0x86dd) then Done None else
  b20 ← get buf 20;
  b54 ← get buf 54;
  if (b20 =? 58) && (b54 =? 136) then
    replied ← slice buf 62 78;
    if bool_decide (replied = target)
    then m ← ndp_options (S (length buf)) buf 78; Done (Some m)
    else Done None
  else Done None.

(** The frames that arrive before the deadline. *)
Fixpoint ndp_wait (target : list Z) (frames : list (list Z)) : outcome (option (list Z)) :=
  match frames with
  | [] => Done None
  | f :: frames =>
      r ← ndp_accept target f;
      match r with Some m => Done (Some m) | None => ndp_wait target frames end
  end.

(** [sender_ip] is the local address of a socket connected to the target, or
    zeros. *)
Definition ndp_request_reply (k : kernel) (i : iface) (sender_ip target ifname : list Z)
    (frames : list (list Z)) : outcome (list (list Z) * option (list Z)) :=
  match get_ifindex k ifname with
  | Ok _ =>
      if negb (raw_socket i && bind_ok i) then Done ([], None) else
      match hwaddr i with
      | None => Done ([], None)
      | Some src_mac =>
          frame ← ndp_frame src_mac sender_ip target;
          r ← ndp_wait target frames;
          Done ([frame], r)
      end
  | _ => Done ([], None)
  end.

(** ** Checksums verify *)

(** The sum of the big-endian words of an array of even length. *)
Fixpoint word_sum (l : list Z) : Z :=
  match l with
  | a :: b :: l => a * 256 + b + word_sum l
  | _ => 0
  end.

(** An array whose checksum field is right (RFC 1071): its words add up to a
    positive multiple of 65535. *)
Definition csum_ok (l : list Z) : Prop := word_sum l mod 65535 = 0 ∧ 0 < word_sum l.

Lemma fold_csum_S fuel sum : fold_csum (S fuel) sum
  = if shr sum 16 =? 0 then sum else fold_csum fuel (Z.land sum 0xffff + shr sum 16).
Proof. done. Qed.

Lemma fold_csum_spec fuel c : (3 ≤ fuel)%nat → 0 ≤ c < 2 ^ 32 →
  let r := fold_csum (S fuel) c in 0 ≤ r < 65536 ∧ r mod 65535 = c mod 65535 ∧ (0 < c → 0 < r).
Proof.
  intros Hf Hc. change (2 ^ 32) with 4294967296 in Hc.
  assert (Hstep : ∀ c, 0 ≤ c → shr c 16 = c / 65536 ∧ Z.land c 0xffff = c mod 65536).
  { intros x Hx. split; [unfold shr; by rewrite Z.shiftr_div_pow2 by lia|].
    change 0xffff with (Z.ones 16). by rewrite Z.land_ones by lia. }
  assert (Hgo : ∀ k c B, 0 ≤ c < B → (B ≤ 65536 ∨ B ≤ 65537 ∧ (1 ≤ k)%nat
      ∨ B ≤ 131072 ∧ (2 ≤ k)%nat ∨ B ≤ 4294967296 ∧ (3 ≤ k)%nat) →
    let r := fold_csum (S k) c in 0 ≤ r < 65536 ∧ r mod 65535 = c mod 65535 ∧ (0 < c → 0 < r)).
  { intros k. induction k as [|k IH]; intros x B Hx HB; cbv zeta; rewrite fold_csum_S;
      destruct (Hstep x ltac:(lia)) as [-> ->]; destruct (Z.eqb_spec (x / 65536) 0) as [E|E].
    - split_and!; [lia|dlia|done|lia].
    - exfalso. apply E. apply Z.div_small. lia.
    - split_and!; [lia|dlia|done|lia].
    - assert (Hx' : x = 65536 * (x / 65536) + x mod 65536) by (apply Z.div_mod; lia).
      pose proof (Z.mod_pos_bound x 65536 ltac:(lia)).
      assert (Hq : 0 < x / 65536) by (pose proof (Z.div_pos x 65536); lia).
      specialize (IH (x mod 65536 + x / 65536) (x mod 65536 + x / 65536 + 1) ltac:(lia)).
      destruct IH as (Hr1 & Hr2 & Hr3); [|split_and!; [apply Hr1|apply Hr1| |]].
      + destruct HB as [HB|[HB|[HB|HB]]]; [dlia| | |].
        * left. dlia.
        * right. left. split; [dlia|lia].
        * right. right. left. split; [dlia|lia].
      + rewrite Hr2. rewrite Hx' at 3.
        replace (65536 * (x / 65536) + x mod 65536)
          with (x mod 65536 + x / 65536 + (x / 65536) * 65535) by lia.
        by rewrite Z_mod_plus_full.
      + intros _. apply Hr3. lia. }
  apply (Hgo fuel c 4294967296); [lia|]. right. right. right. by split.
Qed.

Lemma inet_checksum_spec s : 0 < s < 2 ^ 32 →
  0 ≤ inet_checksum s < 65536 ∧ (s + inet_checksum s) mod 65535 = 0.
Proof.
  intros Hs. unfold inet_checksum. destruct (fold_csum_spec 3 s) as (Hr & Hm & Hp); [lia..|].
  set (r := fold_csum 4 s) in *. rewrite wrap_small by done. unfold bnot. change (2 ^ 16) with 65536.
  split; [lia|]. replace (s + (65536 - 1 - r)) with (s - r + 1 * 65535) by lia.
  rewrite Z_mod_plus_full, Zminus_mod, Hm, Z.sub_diag. done.
Qed.

Lemma word_sum_app l k : Nat.Even (length l) → word_sum (l ++ k) = word_sum l + word_sum k.
Proof.
  intros [n Hn]. revert l Hn. induction n as [|n IH]; intros l Hn.
  - destruct l; [done|simpl in Hn; lia].
  - destruct l as [|a [|b l]]; simpl in Hn; try lia. cbn [app word_sum]. rewrite IH by lia. lia.
Qed.

Lemma word_sum_bound l : bytes l → 0 ≤ word_sum l ≤ 65535 * Z.of_nat (length l).
Proof.
  intros HF. assert (H : ∀ n l, (length l ≤ n)%nat → bytes l → 0 ≤ word_sum l ≤ 65535 * Z.of_nat (length l)).
  { clear. intros n. induction n as [|n IH]; intros l Hn HF; [destruct l; simpl in *; lia|].
    destruct HF as [|a l Ha HF]; [simpl; lia|]. destruct HF as [|b l Hb HF]; [simpl; lia|].
    cbn [word_sum length] in *. specialize (IH l ltac:(lia) HF).
    unfold in_width in *. change (2 ^ 8) with 256 in *. lia. }
  by apply (H (length l)).
Qed.

Lemma be16_word a b : is_u8 a → is_u8 b →
  Z.lor (shl 32 a 8) b = a * 256 + b ∧ from_be [a; b] = a * 256 + b.
Proof.
  unfold in_width. change (2 ^ 8) with 256. intros Ha Hb. split; [|cbn; lia].
  apply (lor_shl_add 32 a b 8); lia.
Qed.

(** The loops add the words of a window up. *)
Lemma sum_words (add : list Z → Z → nat → Z) b lo n s :
  (∀ s i, is_u8 (b !!! i) → is_u8 (b !!! (i + 1)%nat) → 0 ≤ s → s + 65535 < 2 ^ 32 →
     add b s i = s + (b !!! i * 256 + b !!! (i + 1)%nat)) →
  bytes b → (lo + 2 * n ≤ length b)%nat → 0 ≤ s → s + 65535 * Z.of_nat n < 2 ^ 32 →
  foldl (add b) s (steps lo n) = s + word_sum (window lo (2 * n) b).
Proof.
  intros Hadd Hb. revert lo s. induction n as [|n IH]; intros lo s Hl H0 Hs; [unfold window; rewrite take_0; cbn; lia|].
  assert (Hsteps : steps lo (S n) = lo :: steps (lo + 2) n).
  { unfold steps. rewrite <- cons_seq, fmap_cons. f_equal; [lia|].
    rewrite <- fmap_S_seq, <- list_fmap_compose. apply list_fmap_ext. intros i x _. cbn. lia. }
  destruct (lookup_lt_is_Some_2 b lo) as [x Hx]; [lia|].
  destruct (lookup_lt_is_Some_2 b (lo + 1)) as [y Hy]; [lia|].
  assert (Hx8 : is_u8 x) by by eapply Forall_lookup_1 in Hx.
  assert (Hy8 : is_u8 y) by by eapply Forall_lookup_1 in Hy.
  assert (Hw : window lo (2 * S n) b = x :: y :: window (lo + 2) (2 * n) b).
  { unfold window. replace (2 * S n)%nat with (S (S (2 * n))) by lia.
    rewrite (drop_S b x lo Hx). cbn [firstn]. replace (S lo) with (lo + 1)%nat by lia.
    rewrite (drop_S b y (lo + 1) Hy). cbn [firstn]. do 4 f_equal. lia. }
  rewrite Hsteps, Hw. cbn [foldl word_sum].
  assert (Ex : b !!! lo = x) by by apply list_lookup_total_correct.
  assert (Ey : b !!! (lo + 1)%nat = y) by by apply list_lookup_total_correct.
  rewrite Hadd, Ex, Ey by (rewrite ?Ex, ?Ey; done || lia).
  unfold in_width in Hx8, Hy8. change (2 ^ 8) with 256 in *. rewrite IH by lia. lia.
Qed.

Lemma sum_add_word b lo n s : bytes b → (lo + 2 * n ≤ length b)%nat → 0 ≤ s →
  s + 65535 * Z.of_nat n < 2 ^ 32 →
  foldl (add_word b) s (steps lo n) = s + word_sum (window lo (2 * n) b).
Proof.
  apply (sum_words add_word). intros t i Ha Hb Ht Hm. unfold add_word.
  destruct (be16_word _ _ Ha Hb) as [-> _]. unfold in_width in *. change (2 ^ 8) with 256 in *.
  apply wrap_small. unfold in_width. lia.
Qed.

Lemma sum_add_be16 b lo n s : bytes b → (lo + 2 * n ≤ length b)%nat → 0 ≤ s →
  s + 65535 * Z.of_nat n < 2 ^ 32 →
  foldl (add_be16 b) s (steps lo n) = s + word_sum (window lo (2 * n) b).
Proof.
  apply (sum_words add_be16). intros t i Ha Hb Ht Hm. unfold add_be16.
  destruct (be16_word _ _ Ha Hb) as [_ ->]. unfold in_width in *. change (2 ^ 8) with 256 in *.
  apply wrap_small. unfold in_width. lia.
Qed.

(** ** The frames *)

(** Bounds of arrays whose length is known. *)
Ltac in_bounds := first [reflexivity | apply Nat.leb_le; reflexivity | apply Nat.ltb_lt; reflexivity].


Lemma bytes_hi_lo v : 0 ≤ v < 65536 →
  as_u8 (shr v 8) * 256 + as_u8 (Z.land v 0xff) = v ∧ is_u8 (as_u8 (shr v 8)) ∧
  is_u8 (as_u8 (Z.land v 0xff)).
Proof.
  intros Hv. change 0xff with (Z.ones 8). rewrite Z.land_ones by lia. unfold shr.
  rewrite Z.shiftr_div_pow2 by lia. change (2 ^ 8) with 256.
  rewrite !wrap_small by (unfold in_width; change (2 ^ 8) with 256; dlia).
  split; [|split]; unfold in_width; change (2 ^ 8) with 256; dlia.
Qed.

Lemma explode4 (l : list Z) : length l = 4%nat → ∃ a b c d, l = [a; b; c; d].
Proof. intros H. destruct l as [|a [|b [|c [|d [|]]]]]; try done. by exists a, b, c, d. Qed.

Lemma explode6 (l : list Z) : length l = 6%nat → ∃ a b c d e f, l = [a; b; c; d; e; f].
Proof.
  intros H. destruct l as [|a [|b [|c [|d [|e [|f [|]]]]]]]; try done. by exists a, b, c, d, e, f.
Qed.

(** The IP header with a checksum that verifies. *)
Lemma probe_ip_spec src_ip dst_ip : bytes src_ip → bytes dst_ip →
  length src_ip = 4%nat → length dst_ip = 4%nat →
  ∃ hi lo, probe_ip (replicate 20 0) src_ip dst_ip
    = Done ([0x45; 0; 0; 28; 0; 1; 0; 0; 1; 17; hi; lo] ++ src_ip ++ dst_ip) ∧
    csum_ok ([0x45; 0; 0; 28; 0; 1; 0; 0; 1; 17; hi; lo] ++ src_ip ++ dst_ip).
Proof.
  intros Hs Hd Hsl Hdl.
  set (z := [0x45; 0; 0; 28; 0; 1; 0; 0; 1; 17; 0; 0] ++ src_ip ++ dst_ip).
  assert (Hz : bytes z).
  { apply Forall_app_2; [|by apply Forall_app_2].
    repeat (apply Forall_cons; split; [by split|]). constructor. }
  assert (Hzl : length z = 20%nat) by (unfold z; rewrite !length_app; cbn [length]; lia).
  pose proof (sum_add_word z 0 10 0 Hz ltac:(lia) ltac:(lia) ltac:(done)) as Hsum.
  rewrite (window_whole 0 z (2 * 10)) in Hsum by (done || by rewrite Hzl).
  pose proof (word_sum_bound _ Hs) as Hbs. pose proof (word_sum_bound _ Hd) as Hbd.
  rewrite Hsl in Hbs. rewrite Hdl in Hbd.
  assert (Heven : ∀ k, Nat.Even (2 * k)) by (intros k; by exists k).
  assert (Hws : word_sum z = 17966 + word_sum src_ip + word_sum dst_ip).
  { unfold z. rewrite word_sum_app by (apply (Heven 6%nat)).
    rewrite word_sum_app by (rewrite Hsl; apply (Heven 2%nat)). cbn. lia. }
  destruct (inet_checksum_spec (word_sum z)) as [Hc Hm]; [change (2 ^ 32) with 4294967296; lia|].
  destruct (bytes_hi_lo _ Hc) as (Hhl & _ & _).
  set (c := inet_checksum (word_sum z)) in *.
  exists (as_u8 (shr c 8)), (as_u8 (Z.land c 0xff)). split.
  - destruct (explode4 _ Hsl) as (a1 & a2 & a3 & a4 & ->).
    destruct (explode4 _ Hdl) as (b1 & b2 & b3 & b4 & ->).
    unfold probe_ip.
    change (put_all (replicate 20 0) 0 [0x45; 0; 0; 28; 0; 1; 0; 0; 1; 17])
      with (Done (A:=list Z) ([0x45; 0; 0; 28; 0; 1; 0; 0; 1; 17] ++ replicate 10 0)).
    rewrite bind_Done, copy_from_slice_Done, bind_Done, copy_from_slice_Done, bind_Done by in_bounds.
    change (list_inserts 16 [b1; b2; b3; b4] _) with z. rewrite Hsum, Z.add_0_l.
    cbv zeta. fold c. rewrite put_Done, bind_Done, put_Done by in_bounds. done.
  - unfold csum_ok. rewrite word_sum_app by (apply (Heven 6%nat)).
    rewrite word_sum_app by (rewrite Hsl; apply (Heven 2%nat)).
    cbn [word_sum]. match goal with |- ?x mod _ = 0 ∧ _ =>
      replace x with (word_sum z + c) by lia end. split; [done|]. lia.
Qed.

(** A probe: broadcast, our address, IPv4 with TTL 1, UDP. *)
Lemma probe_frame_spec src_mac src_ip dst_ip : length src_mac = 6%nat → bytes src_ip → bytes dst_ip →
  length src_ip = 4%nat → length dst_ip = 4%nat →
  ∃ hi lo, let ip := [0x45; 0; 0; 28; 0; 1; 0; 0; 1; 17; hi; lo] ++ src_ip ++ dst_ip in
    probe_frame src_mac src_ip dst_ip
    = Done (BROADCAST ++ src_mac ++ [0x08; 0x00] ++ ip ++ [0x30; 0x39; 0x30; 0x39; 0; 8; 0; 0]) ∧
    csum_ok ip.
Proof.
  intros Hm Hs Hd Hsl Hdl. destruct (probe_ip_spec src_ip dst_ip) as (hi & lo & Hip & Hok); try done.
  exists hi, lo. split; [|done]. destruct (explode6 _ Hm) as (m1 & m2 & m3 & m4 & m5 & m6 & ->).
  destruct (explode4 _ Hsl) as (a1 & a2 & a3 & a4 & ->).
  destruct (explode4 _ Hdl) as (b1 & b2 & b3 & b4 & ->).
  unfold probe_frame. rewrite copy_from_slice_Done, bind_Done, copy_from_slice_Done, bind_Done by in_bounds.
  rewrite put_Done, bind_Done, put_Done, bind_Done, slice_Done, bind_Done by in_bounds.
  change (window 14 (34 - 14) _) with (replicate 20 0). rewrite Hip, bind_Done.
  rewrite copy_from_slice_Done, bind_Done by in_bounds.
  rewrite slice_Done, bind_Done by in_bounds. reflexivity.
Qed.

Lemma explode16 (l : list Z) : length l = 16%nat →
  ∃ a b c d e f g h i j k m n o p q, l = [a; b; c; d; e; f; g; h; i; j; k; m; n; o; p; q].
Proof.
  intros H. do 16 (destruct l as [|? l]; [done|]). destruct l; [|done]. repeat eexists.
Qed.

(** The ICMPv6 message of a solicitation with a checksum field. *)
Definition solicitation (src_mac target : list Z) (hi lo : Z) : list Z :=
  [135; 0; hi; lo; 0; 0; 0; 0] ++ target ++ [1; 1] ++ src_mac.

(** The pseudo header of RFC 8200. *)
Definition pseudo_header (src dst : list Z) : list Z := src ++ dst ++ [0; 0; 0; 32; 0; 0; 0; 58].

Definition solicitation_frame (src_mac sender_ip target : list Z) (hi lo : Z) : list Z :=
  ndp_dst_mac target ++ src_mac ++ [0x86; 0xdd; 0x60; 0; 0; 0; 0; 0x20; 58; 255] ++ sender_ip
    ++ ndp_dst_ip target ++ solicitation src_mac target hi lo.

(** Everything but the checksum, which is computed over zeros. *)
Lemma ndp_frame_build src_mac sender_ip target : length src_mac = 6%nat →
  length sender_ip = 16%nat → length target = 16%nat →
  ndp_frame src_mac sender_ip target
  = (let c := inet_checksum (ndp_sum sender_ip (ndp_dst_ip target)
                 (solicitation_frame src_mac sender_ip target 0 0)) in
     let chk := u16_to_be_bytes c in
     Done (solicitation_frame src_mac sender_ip target (chk !!! 0%nat) (chk !!! 1%nat))).
Proof.
  intros Hm Hs Ht. destruct (explode6 _ Hm) as (? & ? & ? & ? & ? & ? & ->).
  destruct (explode16 _ Hs) as (? & ? & ? & ? & ? & ? & ? & ? & ? & ? & ? & ? & ? & ? & ? & ? & ->).
  destruct (explode16 _ Ht) as (? & ? & ? & ? & ? & ? & ? & ? & ? & ? & ? & ? & ? & ? & ? & ? & ->).
  unfold ndp_frame. cbv zeta.
  repeat first [rewrite copy_from_slice_Done, bind_Done by in_bounds | rewrite put_Done, bind_Done by in_bounds].
  rewrite put_Done by in_bounds. reflexivity.
Qed.

Lemma ndp_dst_ip_ok target : bytes target → length target = 16%nat →
  bytes (ndp_dst_ip target) ∧ length (ndp_dst_ip target) = 16%nat ∧ bytes (ndp_dst_mac target).
Proof.
  intros Hb Hl. assert (H : ∀ i, (i < 16)%nat → is_u8 (target !!! i)).
  { intros i Hi. destruct (lookup_lt_is_Some_2 target i) as [x Hx]; [lia|].
    rewrite (list_lookup_total_correct _ _ _ Hx). by eapply Forall_lookup_1 in Hx. }
  split_and!; [|done|];
    repeat (apply Forall_cons; split; [first [by split | apply H; lia]|]); constructor.
Qed.

Lemma be_bytes_pair v : 0 ≤ v < 65536 → ∃ hi lo, u16_to_be_bytes v = [hi; lo] ∧ hi * 256 + lo = v.
Proof.
  intros Hv. pose proof (from_be_bytes 2 v) as Hf. pose proof (length_be_bytes 2 v) as Hl.
  pose proof (be_bytes_bytes 2 v) as Hb.
  destruct (u16_to_be_bytes v) as [|hi [|lo [|]]] eqn:E; try done. exists hi, lo. split; [done|].
  apply Forall_cons in Hb as [Hh [Hlo _]%Forall_cons]. rewrite (proj2 (be16_word hi lo Hh Hlo)) in Hf.
  rewrite Hf. by apply wrap_small.
Qed.

(** A solicitation whose ICMPv6 checksum verifies. *)
Lemma ndp_frame_spec src_mac sender_ip target : length src_mac = 6%nat → bytes src_mac →
  length sender_ip = 16%nat → bytes sender_ip → length target = 16%nat → bytes target →
  ∃ hi lo, ndp_frame src_mac sender_ip target
    = Done (solicitation_frame src_mac sender_ip target hi lo) ∧
    csum_ok (pseudo_header sender_ip (ndp_dst_ip target) ++ solicitation src_mac target hi lo).
Proof.
  intros Hm Hmb Hs Hsb Ht Htb. rewrite ndp_frame_build by done. cbv zeta.
  destruct (ndp_dst_ip_ok target Htb Ht) as (Hdb & Hd & Hdm).
  set (dst := ndp_dst_ip target) in *. set (f0 := solicitation_frame src_mac sender_ip target 0 0).
  assert (Hsol : ∀ hi lo, word_sum (solicitation src_mac target hi lo)
    = word_sum (solicitation src_mac target 0 0) + (hi * 256 + lo)) by (intros; cbn; lia).
  assert (Hsolb : bytes (solicitation src_mac target 0 0)).
  { repeat apply Forall_app_2; try done; repeat (apply Forall_cons; split; [by split|]); constructor. }
  assert (Hf0b : bytes f0).
  { apply Forall_app_2; [done|]. apply Forall_app_2; [done|]. apply Forall_app_2.
    - repeat (apply Forall_cons; split; [by split|]). constructor.
    - apply Forall_app_2; [done|]. by apply Forall_app_2. }
  assert (Hw : window 54 (2 * 16) f0 = solicitation src_mac target 0 0).
  { clear -Hm Hs Ht Hd. destruct (explode6 _ Hm) as (? & ? & ? & ? & ? & ? & ->).
    destruct (explode16 _ Hs) as (? & ? & ? & ? & ? & ? & ? & ? & ? & ? & ? & ? & ? & ? & ? & ? & ->).
    destruct (explode16 _ Ht) as (? & ? & ? & ? & ? & ? & ? & ? & ? & ? & ? & ? & ? & ? & ? & ? & ->).
    reflexivity. }
  assert (Hl0 : length f0 = 86%nat).
  { unfold f0, solicitation_frame, solicitation. fold dst. rewrite !length_app, Hm, Hs, Ht, Hd. done. }
  pose proof (word_sum_bound _ Hsb) as B1. pose proof (word_sum_bound _ Hdb) as B2.
  pose proof (word_sum_bound _ Hsolb) as B3. rewrite Hs in B1. rewrite Hd in B2.
  assert (Hsum : ndp_sum sender_ip dst f0
    = word_sum sender_ip + word_sum dst + 90 + word_sum (solicitation src_mac target 0 0)).
  { unfold ndp_sum. change (2 ^ 32) with 4294967296 in *.
    rewrite (sum_add_be16 sender_ip 0 8), (window_whole 0 sender_ip) by (done || lia).
    rewrite (sum_add_be16 dst 0 8), (window_whole 0 dst) by (done || lia).
    unfold wrapping_add. rewrite (wrap_small 32 (_ + 32)) by (split; [lia|change (2 ^ 32) with 4294967296; lia]).
    rewrite (wrap_small 32 (_ + 58)) by (split; [lia|change (2 ^ 32) with 4294967296; lia]).
    rewrite (sum_add_be16 f0 54 16) by (done || lia). rewrite Hw. lia. }
  rewrite Hsum. set (w := word_sum (solicitation src_mac target 0 0)) in *.
  assert (Hlsol : length (solicitation src_mac target 0 0) = 32%nat)
    by (unfold solicitation; rewrite !length_app, Hm, Ht; done).
  rewrite Hlsol in B3.
  destruct (inet_checksum_spec (word_sum sender_ip + word_sum dst + 90 + w)) as [Hc Hz];
    [change (2 ^ 32) with 4294967296; lia|].
  set (c := inet_checksum _) in *. destruct (be_bytes_pair c Hc) as (hi & lo & -> & Hhl).
  exists hi, lo. split; [done|]. unfold csum_ok, pseudo_header.
  assert (Heven : ∀ k, Nat.Even (2 * k)) by (intros k; by exists k).
  assert (Htot : word_sum ((sender_ip ++ dst ++ [0; 0; 0; 32; 0; 0; 0; 58]) ++ solicitation src_mac target hi lo)
    = word_sum sender_ip + word_sum dst + 90 + w + c).
  { rewrite <- !app_assoc, word_sum_app by (rewrite Hs; apply (Heven 8%nat)).
    rewrite word_sum_app by (rewrite Hd; apply (Heven 8%nat)).
    rewrite word_sum_app by apply (Heven 4%nat). rewrite Hsol. fold w. cbn [word_sum]. lia. }
  rewrite Htot. split; [done|]. lia.
Qed.

Lemma arp_frame_spec src_mac sender_ip target : length src_mac = 6%nat →
  length sender_ip = 4%nat → length target = 4%nat →
  arp_frame src_mac sender_ip target
  = Done (BROADCAST ++ src_mac ++ [0x08; 0x06; 0; 1; 0x08; 0; 6; 4; 0; 1] ++ src_mac ++ sender_ip
          ++ replicate 6 0 ++ target).
Proof.
  intros Hm Hs Ht. destruct (explode6 _ Hm) as (? & ? & ? & ? & ? & ? & ->).
  destruct (explode4 _ Hs) as (? & ? & ? & ? & ->). destruct (explode4 _ Ht) as (? & ? & ? & ? & ->).
  unfold arp_frame. rewrite copy_from_slice_Done, bind_Done, copy_from_slice_Done, bind_Done by in_bounds.
  reflexivity.
Qed.

(** The frames that are sent are well-formed: the ARP request is the one of
    RFC 826, the probe is a broadcast IPv4 datagram with TTL 1 whose header
    checksum verifies, and the neighbour solicitation goes to the
    solicited-node addresses and has an ICMPv6 checksum that verifies over the
    pseudo header. *)
Theorem resolution_frames src_mac ip4 dst4 ip6 target6 :
  length src_mac = 6%nat → bytes src_mac → length ip4 = 4%nat → bytes ip4 →
  length dst4 = 4%nat → bytes dst4 → length ip6 = 16%nat → bytes ip6 →
  length target6 = 16%nat → bytes target6 →
  arp_frame src_mac ip4 dst4
  = Done (BROADCAST ++ src_mac ++ [0x08; 0x06; 0; 1; 0x08; 0; 6; 4; 0; 1] ++ src_mac ++ ip4
          ++ replicate 6 0 ++ dst4) ∧
  (∃ hi lo, let ip := [0x45; 0; 0; 28; 0; 1; 0; 0; 1; 17; hi; lo] ++ ip4 ++ dst4 in
     probe_frame src_mac ip4 dst4
     = Done (BROADCAST ++ src_mac ++ [0x08; 0x00] ++ ip ++ [0x30; 0x39; 0x30; 0x39; 0; 8; 0; 0]) ∧
     csum_ok ip) ∧
  (∃ hi lo, ndp_frame src_mac ip6 target6 = Done (solicitation_frame src_mac ip6 target6 hi lo) ∧
     csum_ok (pseudo_header ip6 (ndp_dst_ip target6) ++ solicitation src_mac target6 hi lo)).
Proof.
  intros. split; [by apply arp_frame_spec|]. split; [by apply probe_frame_spec|by apply ndp_frame_spec].
Qed.

Lemma resolution_frames_witness :
  let m := [2; 71; 10; 0; 0; 1] in let a := [192; 168; 1; 5] in let b := [192; 168; 1; 1] in
  let s := replicate 16 1 in let t := replicate 16 7 in
  arp_frame m a b
  = Done (BROADCAST ++ m ++ [0x08; 0x06; 0; 1; 0x08; 0; 6; 4; 0; 1] ++ m ++ a ++ replicate 6 0 ++ b) ∧
  (∃ hi lo, let ip := [0x45; 0; 0; 28; 0; 1; 0; 0; 1; 17; hi; lo] ++ a ++ b in
     probe_frame m a b
     = Done (BROADCAST ++ m ++ [0x08; 0x00] ++ ip ++ [0x30; 0x39; 0x30; 0x39; 0; 8; 0; 0]) ∧
     csum_ok ip) ∧
  (∃ hi lo, ndp_frame m s t = Done (solicitation_frame m s t hi lo) ∧
     csum_ok (pseudo_header s (ndp_dst_ip t) ++ solicitation m t hi lo)).
Proof.
  assert (Hc : ∀ l, bool_decide (bytes l) = true → bytes l) by (intros l; apply bool_decide_eq_true).
  apply (resolution_frames [2; 71; 10; 0; 0; 1] [192; 168; 1; 5] [192; 168; 1; 1] (replicate 16 1)
    (replicate 16 7)); (reflexivity || (apply Hc; reflexivity)).
Defined.

(** ** Waiting for an answer *)

(** The frames that arrive before the [n]-th timeout. *)
Fixpoint heard (n : nat) (evs : list received) : list (list Z) :=
  match n, evs with
  | O, _ | _, [] => []
  | S n, None :: evs => heard n evs
  | S _, Some f :: evs => f :: heard n evs
  end.

Lemma wait_reply_heard accept evs n :
  match wait_reply accept evs with
  | inl m => first_mac accept (heard (S n) evs) = Some m
  | inr rest => first_mac accept (heard (S n) evs) = first_mac accept (heard n rest)
  end.
Proof.
  induction evs as [|[f|] evs IH]; cbn [wait_reply heard first_mac]; [by destruct n| |done].
  by destruct (accept f).
Qed.

Lemma attempts_heard n accept evs :
  (attempts n accept evs).2 = first_mac accept (heard n evs) ∧
  ((attempts n accept evs).1 ≤ n)%nat ∧ ((0 < n)%nat → (0 < (attempts n accept evs).1)%nat).
Proof.
  revert evs. induction n as [|n IH]; intros evs; [by destruct evs; cbn; repeat split; auto with arith|]. cbn [attempts].
  pose proof (wait_reply_heard accept evs n) as Hw. destruct (wait_reply accept evs) as [m|rest].
  - cbn. rewrite Hw. split; [done|]. lia.
  - specialize (IH rest). destruct (attempts n accept rest) as [sent r]. cbn in *.
    rewrite Hw. destruct IH as (-> & ? & _). split; [done|]. lia.
Qed.

(** The answers of a host with address [ip] and hardware address [m]. *)
Definition arp_reply (dst m ip dst_ip : list Z) : list Z :=
  dst ++ m ++ [0x08; 0x06; 0; 1; 0x08; 0; 6; 4; 0; 2] ++ m ++ ip ++ dst ++ dst_ip.

Definition advertisement (dst m src_ip dst_ip target chk : list Z) : list Z :=
  dst ++ m ++ [0x86; 0xdd; 0x60; 0; 0; 0; 0; 0x20; 58; 255] ++ src_ip ++ dst_ip
    ++ [136; 0] ++ chk ++ [0x60; 0; 0; 0] ++ target ++ [2; 1] ++ m.

Lemma arp_accept_reply dst m ip dst_ip rest : length dst = 6%nat → length m = 6%nat →
  length ip = 4%nat → length dst_ip = 4%nat →
  arp_accept ip (arp_reply dst m ip dst_ip ++ rest) = Some m.
Proof.
  intros Hd Hm Hi Hdi. destruct (explode6 _ Hd) as (? & ? & ? & ? & ? & ? & ->).
  destruct (explode6 _ Hm) as (? & ? & ? & ? & ? & ? & ->).
  destruct (explode4 _ Hi) as (? & ? & ? & ? & ->). destruct (explode4 _ Hdi) as (? & ? & ? & ? & ->).
  unfold arp_accept, arp_reply. cbn -[bool_decide]. by rewrite bool_decide_eq_true_2.
Qed.

Lemma ndp_accept_advertisement dst m src_ip dst_ip target chk : length dst = 6%nat →
  length m = 6%nat → length src_ip = 16%nat → length dst_ip = 16%nat → length target = 16%nat →
  length chk = 2%nat → ndp_accept target (advertisement dst m src_ip dst_ip target chk) = Done (Some m).
Proof.
  intros Hd Hm Hs Hdi Ht Hc. destruct (explode6 _ Hd) as (? & ? & ? & ? & ? & ? & ->).
  destruct (explode6 _ Hm) as (? & ? & ? & ? & ? & ? & ->).
  destruct (explode16 _ Hs) as (? & ? & ? & ? & ? & ? & ? & ? & ? & ? & ? & ? & ? & ? & ? & ? & ->).
  destruct (explode16 _ Hdi) as (? & ? & ? & ? & ? & ? & ? & ? & ? & ? & ? & ? & ? & ? & ? & ? & ->).
  destruct (explode16 _ Ht) as (? & ? & ? & ? & ? & ? & ? & ? & ? & ? & ? & ? & ? & ? & ? & ? & ->).
  destruct chk as [|c1 [|c2 [|]]]; try done.
  unfold ndp_accept, advertisement. lazy -[bool_decide]. by rewrite bool_decide_eq_true_2.
Qed.

(** Parsing the options terminates and stays inside the frame: each step
    advances by at least eight bytes. *)
Lemma ndp_options_total fuel buf idx : bytes buf → (12 ≤ length buf)%nat →
  (idx ≤ length buf < fuel + idx)%nat → ∃ m, ndp_options fuel buf idx = Done m ∧ length m = 6%nat.
Proof.
  intros HF Hl. assert (Hs : ∀ lo, (lo + 6 ≤ length buf)%nat →
    ∃ m, slice buf lo (lo + 6) = Done m ∧ length m = 6%nat).
  { intros lo Hlo. rewrite slice_Done by lia. eexists. split; [done|].
    rewrite length_window; lia. }
  revert idx. induction fuel as [|fuel IH]; intros idx Hf.
  - exfalso. lia.
  - cbn [ndp_options]. destruct (Nat.ltb_spec (idx + 1) (length buf)); [|by apply (Hs 6%nat)].
    rewrite (get_total buf idx), bind_Done, (get_total buf (idx + 1)), bind_Done by lia. cbv zeta.
    set (len := Z.to_nat (buf !!! (idx + 1)%nat)). destruct (Nat.eqb_spec (len * 8) 0); [by apply (Hs 6%nat)|].
    destruct (Nat.ltb_spec (length buf) (idx + len * 8)); [by apply (Hs 6%nat)|]. cbn [orb].
    destruct (_ && _) eqn:Ho; [|apply IH; lia].
    replace (idx + 8)%nat with (idx + 2 + 6)%nat by lia. apply Hs. lia.
Qed.

Lemma ndp_accept_total target buf : bytes buf →
  ∃ r, ndp_accept target buf = Done r ∧ (∀ m, r = Some m → length m = 6%nat).
Proof.
  intros HF. unfold ndp_accept. destruct (Nat.ltb_spec (length buf) 86); [by exists None|].
  rewrite (get_total buf 12), bind_Done, (get_total buf 13), bind_Done by lia.
  destruct (negb _); [by exists None|].
  rewrite (get_total buf 20), bind_Done, (get_total buf 54), bind_Done by lia.
  destruct (_ && _); [|by exists None]. rewrite (slice_Done buf 62 78), bind_Done by lia.
  case_bool_decide; [|by exists None].
  destruct (ndp_options_total (S (length buf)) buf 78) as (m & -> & Hm); [done|lia..|].
  exists (Some m). split; [done|]. by intros ? [= <-].
Qed.

(** The answer of a solicitation as a function of the frame. *)
Definition na_mac (target buf : list Z) : option (list Z) :=
  match ndp_accept target buf with Done r => r | Panic => None end.

Lemma ndp_wait_first target frames : Forall bytes frames →
  ndp_wait target frames = Done (first_mac (na_mac target) frames).
Proof.
  induction 1 as [|f frames Hf HF IH]; [done|]. cbn [ndp_wait first_mac]. unfold na_mac at 1.
  destruct (ndp_accept_total target f Hf) as ([m|] & -> & _); [done|]. by rewrite bind_Done.
Qed.

Section answers.
  Context (k : kernel) (i : iface) (ifname : list Z) (idx : Z) (m me : list Z).
  Context (Hidx : get_ifindex k ifname = Ok idx) (Hraw : raw_socket i = true).
  Context (Hbind : bind_ok i = true) (Hinet : inet_socket i = true).
  Context (Hhw : hwaddr i = Some m) (Hme : ifaddr i = Some me).
  Context (Hm : length m = 6%nat) (Hmb : bytes m) (Hmel : length me = 4%nat) (Hmeb : bytes me).

Lemma arp_request_reply_spec target evs : length target = 4%nat →
  ∃ n f, arp_frame m me target = Done f ∧ (1 ≤ n ≤ 4)%nat ∧
    arp_request_reply k i target ifname evs
    = Done (replicate n f, first_mac (arp_accept target) (heard 4 evs)).
Proof.
  intros Ht. unfold arp_request_reply. rewrite Hraw, Hidx, Hbind, Hhw, Hinet, Hme. cbn [negb default from_option id].
  rewrite arp_frame_spec, bind_Done by done.
  destruct (attempts_heard 4 (arp_accept target) evs) as (Hr & Hn & Hp).
  destruct (attempts _ _ _) as [n r]. cbn in Hr, Hn, Hp. subst r.
  eexists n, _. split; [done|]. split; [|done]. split; [apply Hp; lia|done].
Qed.

Lemma ttl_probe_spec gateway dst evs : length dst = 4%nat → bytes dst →
  ∃ n f, probe_frame m me dst = Done f ∧ (1 ≤ n ≤ 4)%nat ∧
    resolve_mac_via_ttl_probe k i gateway dst ifname evs
    = Done (replicate n f, first_mac (probe_accept gateway) (heard 4 evs)).
Proof.
  intros Hd Hdb. unfold resolve_mac_via_ttl_probe. rewrite Hraw, Hidx, Hbind, Hhw, Hinet, Hme.
  cbn [negb andb default from_option id].
  destruct (probe_frame_spec m me dst) as (hi & lo & -> & _); try done. rewrite bind_Done.
  destruct (attempts_heard 4 (probe_accept gateway) evs) as (Hr & Hn & Hp).
  destruct (attempts _ _ _) as [n r]. cbn in Hr, Hn, Hp. subst r.
  eexists n, _. split; [done|]. split; [|done]. split; [apply Hp; lia|done].
Qed.

Lemma ndp_request_reply_spec sender target frames : length sender = 16%nat → bytes sender →
  length target = 16%nat → bytes target → Forall bytes frames →
  ∃ f, ndp_frame m sender target = Done f ∧
    ndp_request_reply k i sender target ifname frames
    = Done ([f], first_mac (na_mac target) frames).
Proof.
  intros. unfold ndp_request_reply. rewrite Hidx, Hraw, Hbind, Hhw. cbn [negb andb].
  destruct (ndp_frame_spec m sender target) as (hi & lo & -> & _); try done. rewrite bind_Done.
  rewrite ndp_wait_first, bind_Done by done. by eexists.
Qed.
End answers.

(** C30: waiting for an answer.  On a working interface the ARP and TTL-probe
    resolvers send between one and four copies of their frame and return the
    first acceptable answer that arrives before the fourth timeout, whatever
    else is on the wire; the neighbour solicitation is sent once and the first
    matching advertisement wins, with option parsing that always ends inside
    the frame.  The reply of the host that owns the address is acceptable and
    gives its hardware address. *)
Theorem resolution_answers k i ifname idx m me target dst gateway sender6 target6 evs frames :
  get_ifindex k ifname = Ok idx → raw_socket i = true → bind_ok i = true → inet_socket i = true →
  hwaddr i = Some m → ifaddr i = Some me → length m = 6%nat → bytes m → length me = 4%nat →
  bytes me → length target = 4%nat → length dst = 4%nat → bytes dst →
  length sender6 = 16%nat → bytes sender6 → length target6 = 16%nat → bytes target6 →
  Forall bytes frames →
  (∃ n f, arp_frame m me target = Done f ∧ (1 ≤ n ≤ 4)%nat ∧
     arp_request_reply k i target ifname evs
     = Done (replicate n f, first_mac (arp_accept target) (heard 4 evs))) ∧
  (∃ n f, probe_frame m me dst = Done f ∧ (1 ≤ n ≤ 4)%nat ∧
     resolve_mac_via_ttl_probe k i gateway dst ifname evs
     = Done (replicate n f, first_mac (probe_accept gateway) (heard 4 evs))) ∧
  (∃ f, ndp_frame m sender6 target6 = Done f ∧
     ndp_request_reply k i sender6 target6 ifname frames
     = Done ([f], first_mac (na_mac target6) frames)) ∧
  (∀ hw rest, length hw = 6%nat → arp_accept target (arp_reply m hw target me ++ rest) = Some hw) ∧
  (∀ hw src chk, length hw = 6%nat → length src = 16%nat → length chk = 2%nat →
     ndp_accept target6 (advertisement m hw src sender6 target6 chk) = Done (Some hw)).
Proof.
  intros. split_and!; [by eapply arp_request_reply_spec|by eapply ttl_probe_spec
    |by eapply ndp_request_reply_spec|intros; by apply arp_accept_reply
    |intros; by apply ndp_accept_advertisement].
Qed.

(** An interface on which the owner of 10.0.0.2 answers the second request. *)
Definition sample_kernel : kernel := mkKernel (λ _, 7) (λ _, None).
Definition sample_iface : iface := mkIface true true true (Some [2; 0; 0; 0; 0; 1]) (Some [10; 0; 0; 1]).
Definition sample_events : list received :=
  [Some (replicate 60 0); None;
   Some (arp_reply [2; 0; 0; 0; 0; 1] [2; 0; 0; 0; 0; 9] [10; 0; 0; 2] [10; 0; 0; 1])].

Lemma resolution_answers_witness :
  ∃ n f, arp_frame [2; 0; 0; 0; 0; 1] [10; 0; 0; 1] [10; 0; 0; 2] = Done f ∧ (1 ≤ n ≤ 4)%nat ∧
    arp_request_reply sample_kernel sample_iface [10; 0; 0; 2] [101] sample_events
    = Done (replicate n f, Some [2; 0; 0; 0; 0; 9]).
Proof.
  assert (Hc : ∀ l, bool_decide (bytes l) = true → bytes l) by (intros l; apply bool_decide_eq_true).
  change (Some [2; 0; 0; 0; 0; 9])
    with (first_mac (arp_accept [10; 0; 0; 2]) (heard 4 sample_events)).
  apply (resolution_answers sample_kernel sample_iface [101] 7 [2; 0; 0; 0; 0; 1] [10; 0; 0; 1]
    [10; 0; 0; 2] [10; 0; 0; 2] [10; 0; 0; 2] (replicate 16 1) (replicate 16 2) sample_events []);
    (reflexivity || (apply Hc; reflexivity) || constructor).
Defined.

(** ** The echo requests of [src/src/tc/loader.rs]

    [try_probe_neighbor] makes the kernel resolve an address by sending an echo
    request to it, [probe_neighbor_udp] of [src/src/netlink.rs] by sending a
    byte.  A probe is the list of the calls it makes; [sock] is what the first
    one returns. *)

Inductive call :=
| CSocket (family type protocol : Z)
| CSetsockopt (fd level name : Z) (value : list Z)
| CSendto (fd : Z) (pkt : list Z) (flags : Z) (addr : list Z)
| CClose (fd : Z)
| CUdpBind (a : SocketAddr)
| CConnect (fd : Z) (a : SocketAddr)
| CSend (fd : Z) (data : list Z).

Definition SOCK_RAW : Z := 3.
Definition IPPROTO_ICMP : Z := 1.
Definition IPPROTO_ICMPV6 : Z := 58.
Definition SOL_SOCKET : Z := 1.
Definition SO_BINDTODEVICE : Z := 25.
Definition MSG_DONTWAIT : Z := 0x40.

(** The words of the data in 32 bits; a last odd byte is the high one. *)
Fixpoint icmp_sum (sum : Z) (data : list Z) : Z :=
  match data with
  | a :: b :: data => icmp_sum (wrapping_add 32 sum (from_be [a; b])) data
  | [a] => wrapping_add 32 sum (shl 32 a 8)
  | [] => sum
  end.
Definition icmp_checksum (data : list Z) : Z := inet_checksum (icmp_sum 0 data).

(** [CString::new]: a name with a zero byte is not bound to. *)
Definition bind_to_device (fd : Z) (ifname : list Z) : list call :=
  if bool_decide (0 ∈ ifname) then [] else [CSetsockopt fd SOL_SOCKET SO_BINDTODEVICE (ifname ++ [0])].

Definition echo_request : list Z :=
  let pkt := [8; 0; 0; 0; 0; 0; 0; 1] in
  let sum := icmp_checksum pkt in
  <[3%nat := Z.land sum 0xff]> (<[2%nat := as_u8 (shr sum 8)]> pkt).

Definition probe_icmp4 (sock : Z) (dst : list Z) (ifname : list Z) : list call :=
  CSocket AF_INET SOCK_RAW IPPROTO_ICMP ::
  if sock <? 0 then []
  else bind_to_device sock ifname ++
       [CSendto sock echo_request MSG_DONTWAIT
          (u16_to_le_bytes AF_INET ++ [0; 0] ++ u32_to_le_bytes (from_le dst) ++ replicate 8 0);
        CClose sock].

Definition probe_icmp6 (sock : Z) (dst : list Z) (ifname : list Z) : list call :=
  CSocket AF_INET6 SOCK_RAW IPPROTO_ICMPV6 ::
  if sock <? 0 then []
  else bind_to_device sock ifname ++
       [CSendto sock [128; 0; 0; 0; 0; 1; 0; 1] MSG_DONTWAIT
          (u16_to_le_bytes AF_INET6 ++ replicate 6 0 ++ v6_octets dst ++ replicate 4 0);
        CClose sock].

Definition try_probe_neighbor (sock : Z) (ip : IpAddr) (ifname : list Z) : list call :=
  match ip with
  | V4 o => probe_icmp4 sock o ifname
  | V6 s => probe_icmp6 sock s ifname
  end.

Definition IPPROTO_IP : Z := 0.
Definition IP_UNICAST_IF : Z := 50.

(** The unspecified address of a family. *)
Definition any_of (ip : IpAddr) : IpAddr :=
  match ip with V4 _ => V4 [0; 0; 0; 0] | V6 _ => V6 [0; 0; 0; 0; 0; 0; 0; 0] end.

(** [probe_neighbor_udp]: a byte to port 1, out of the interface; the socket
    is closed when it is dropped. *)
Definition probe_neighbor_udp (k : kernel) (sock : option Z) (ip : IpAddr) (ifname : list Z) : list call :=
  CUdpBind (mkAddr (any_of ip) 0) ::
  match sock with
  | None => []
  | Some fd =>
      match get_ifindex k ifname with
      | Ok ifindex => [CSetsockopt fd IPPROTO_IP IP_UNICAST_IF (u32_to_be_bytes (as_u32 ifindex))]
      | _ => []
      end
      ++ bind_to_device fd ifname
      ++ [CConnect fd (mkAddr ip 1); CSend fd [0]; CClose fd]
  end.

(** ** The checksum *)

(** Up to 65536 words the sum does not overflow. *)
Lemma icmp_sum_words n data sum : length data = (2 * n)%nat → bytes data → 0 ≤ sum →
  sum + Z.of_nat n * 65535 < 2 ^ 32 → icmp_sum sum data = sum + word_sum data.
Proof.
  revert data sum. induction n as [|n IH]; intros data sum Hl Hb Hs Hm.
  - destruct data; cbn in *; lia.
  - destruct data as [|a [|b data]]; [cbn in Hl; lia..|]. cbn [icmp_sum word_sum].
    apply Forall_cons in Hb as [Ha Hb]. apply Forall_cons in Hb as [Hbb Hb].
    assert (E : from_be [a; b] = a * 256 + b) by (unfold from_be; cbn; lia).
    unfold is_u8, in_width in *. change (2 ^ 8) with 256 in *. change (2 ^ 32) with 4294967296 in Hm.
    assert (W : wrapping_add 32 sum (from_be [a; b]) = sum + (a * 256 + b)).
    { rewrite E. unfold wrapping_add. apply wrap_small. unfold in_width. change (2 ^ 32) with 4294967296. lia. }
    rewrite W, IH; [lia|cbn in Hl; lia|done|lia|change (2 ^ 32) with 4294967296; lia].
Qed.

(** What a receiver checks: the words of the data with its checksum add up to
    a multiple of 65535 (RFC 1071). *)
Theorem icmp_checksum_verifies n data : length data = (2 * n)%nat → Z.of_nat n ≤ 65536 → bytes data →
  0 < word_sum data →
  0 ≤ icmp_checksum data < 65536 ∧ (word_sum data + icmp_checksum data) mod 65535 = 0.
Proof.
  intros Hl Hn Hb Hp. unfold icmp_checksum. rewrite (icmp_sum_words n); [|done..|change (2 ^ 32) with 4294967296; lia].
  apply inet_checksum_spec. split; [lia|].
  clear Hp. change (2 ^ 32) with 4294967296.
  assert (Hw : ∀ n data, length data = (2 * n)%nat → bytes data → word_sum data ≤ Z.of_nat n * 65535).
  { clear. induction n as [|n IH]; intros data Hl Hb; [destruct data; cbn in *; lia|].
    destruct data as [|a [|b data]]; [cbn in Hl; lia..|]. cbn [word_sum].
    apply Forall_cons in Hb as [Ha Hb]. apply Forall_cons in Hb as [Hbb Hb].
    unfold is_u8, in_width in *. change (2 ^ 8) with 256 in *.
    assert (length data = (2 * n)%nat) as Hd by (cbn in Hl; lia). specialize (IH data Hd Hb). lia. }
  specialize (Hw n data Hl Hb). lia.
Qed.

(** A socket that is opened is closed, and the request that is sent is an echo
    request whose checksum verifies. *)
Theorem probe_sends sock ip ifname : ip_ok ip → 0 ≤ sock →
  ∃ pre pkt addr, try_probe_neighbor sock ip ifname = pre ++ [CSendto sock pkt MSG_DONTWAIT addr; CClose sock] ∧
    length pkt = 8%nat ∧ match ip with V4 _ => csum_ok pkt | V6 _ => head pkt = Some 128 end ∧
    ∀ c, c ∈ pre → match c with CSocket _ _ _ | CSetsockopt _ _ _ _ => True | _ => False end.
Proof.
  intros Hip Hs. assert (Hn : sock <? 0 = false) by (apply Z.ltb_ge; lia).
  assert (Hb : ∀ f t p, ∀ c, c ∈ CSocket f t p :: bind_to_device sock ifname →
            match c with CSocket _ _ _ | CSetsockopt _ _ _ _ => True | _ => False end).
  { intros f t p c [->|Hc]%elem_of_cons; [done|]. unfold bind_to_device in Hc. case_bool_decide.
    - by apply not_elem_of_nil in Hc.
    - by apply list_elem_of_singleton in Hc as ->. }
  destruct ip as [o|s]; cbn [try_probe_neighbor]; unfold probe_icmp4, probe_icmp6; rewrite Hn.
  - eexists (_ :: bind_to_device sock ifname), _, _. split; [done|]. split; [done|]. split; [|by apply Hb].
    by split; vm_compute.
  - eexists (_ :: bind_to_device sock ifname), _, _. split; [done|]. split; [done|]. split; [done|by apply Hb].
Qed.

(** The probe of a neighbour sends one byte to its port 1 from a socket of its
    family, closes what it opened, and, when the interface exists, pins the
    socket to it before it connects. *)
Theorem udp_probe_sends k fd ip ifname : ∃ opts,
  probe_neighbor_udp k (Some fd) ip ifname
  = CUdpBind (mkAddr (any_of ip) 0) :: opts ++ [CConnect fd (mkAddr ip 1); CSend fd [0]; CClose fd] ∧
  is_v4 (any_of ip) = is_v4 ip ∧
  (∀ idx, get_ifindex k ifname = Ok idx →
     opts = [CSetsockopt fd IPPROTO_IP IP_UNICAST_IF (u32_to_be_bytes (as_u32 idx));
             CSetsockopt fd SOL_SOCKET SO_BINDTODEVICE (ifname ++ [0])]).
Proof.
  unfold probe_neighbor_udp. eexists. rewrite app_assoc. split_and!; [done|by destruct ip|].
  intros idx Hi. rewrite Hi. unfold bind_to_device.
  destruct (bool_decide (0 ∈ ifname)) eqn:E; [|done]. unfold get_ifindex in Hi. by rewrite E in Hi.
Qed.
