(* ===== verification/Links.v ===== *)
(** * netlink.rs: operations on network interfaces

    The kernel is an interface [NetKernel]: name lookup, one netlink
    transaction, the interface ioctls and writes to files.  The operations of
    netlink.rs that change interfaces are functions of the kernel's state;
    [NetKernelLaws] states what the kernel documents about them, with the
    requests read back from their bytes. *)

From stdpp Require Import gmap.
From S2P Require Import Prelude Words Slices Text Results StrOps Net Netlink.
Local Open Scope Z_scope.

(** ** State and errors *)

(** An operation on the state of the kernel that may fail; a panic is
    [Abort]. *)
Definition KM (K E A : Type) : Type := K → res E A * K.

#[global] Instance KM_ret K E : MRet (KM K E) := λ A a k, (Ok a, k).
#[global] Instance KM_bind K E : MBind (KM K E) := λ A B f m k,
  match m k with
  | (Ok a, k) => f a k
  | (Err e, k) => (Err e, k)
  | (Abort, k) => (Abort, k)
  end.

Definition of_res {K E A} (r : res E A) : KM K E A := λ k, (r, k).
Definition km_map_err {K E F A} (f : E → F) (m : KM K E A) : KM K F A := λ k,
  let '(r, k) := m k in (map_err f r, k).
(** [let _ = m] *)
Definition ignore {K E F A} (m : KM K E A) : KM K F unit := λ k,
  match m k with
  | (Abort, k) => (Abort, k)
  | (_, k) => (Ok tt, k)
  end.
(** [m.is_err()] *)
Definition is_err {K E F A} (m : KM K E A) : KM K F bool := λ k,
  match m k with
  | (Ok _, k) => (Ok false, k)
  | (Err _, k) => (Ok true, k)
  | (Abort, k) => (Abort, k)
  end.
Definition when {K E} (b : bool) (m : KM K E unit) : KM K E unit := if b then m else mret tt.

(** ** The kernel *)

(** [struct ifreq]: the union member that is in use. *)
Inductive ifru :=
| IfrZero
| IfrHwaddr (sa_family : Z) (sa_data : list Z)
| IfrMtu (mtu : Z)
| IfrFlags (flags : Z)
| IfrData (cmd data : Z).
Record ifreq := mkIfreq { ifr_name : list Z; ifr_ifru : ifru }.

Class NetKernel (K : Type) := {
  nk_index : K → list Z → Z;
  nk_sysfs : K → list Z → option (list Z);
  nk_request : K → list Z → nl_reply * K;
  nk_socket : K → bool;
  nk_ioctl : K → Z → ifreq → Z * ifreq * K;
  nk_write : K → list Z → list Z → bool * K
}.

Section operations.
  Context {K : Type} `{NetKernel K}.
  Local Abbreviation M := (KM K nerr).

Definition view (k : K) : kernel := mkKernel (nk_index k) (nk_sysfs k).
Definition ifindex_of (name : list Z) : M Z := λ k, (get_ifindex (view k) name, k).

(** [nl_transact(&buf)] *)
Definition request (msg : list Z) : M unit := λ k,
  let '(r, k) := nk_request k msg in (nl_transact r, k).
Definition transact (msg : outcome (list Z)) : M unit := of_res (lift msg) ≫= request.

Definition link_delete (name : list Z) : M unit := λ k,
  match get_ifindex (view k) name with
  | Ok idx => ignore (transact (link_delete_msg idx)) k
  | _ => (Ok tt, k)
  end.

Definition veth_create (name peer : list Z) : M unit := transact (veth_create_msg name peer).

(** *** ioctls *)

Definition SIOCGIFFLAGS : Z := 0x8913.
Definition SIOCSIFFLAGS : Z := 0x8914.
Definition SIOCSIFMTU : Z := 0x8922.
Definition SIOCSIFHWADDR : Z := 0x8924.
Definition SIOCETHTOOL : Z := 0x8946.
Definition ETHTOOL_STXCSUM : Z := 0xe.
Definition ETHTOOL_STSO : Z := 0x1e.
Definition IFF_UP : Z := 0x1.
Definition IFF_NOARP : Z := 0x80.

(** A zeroed structure with the interface's name. *)
Definition ifreq_for (name : list Z) (u : ifru) : ifreq :=
  mkIfreq (fill_ifname (replicate IFNAMSIZ 0) name) u.

(** An ioctl whose failure is an error. *)
Definition set_ioctl (req : Z) (ifr : ifreq) (e : nerr) : M unit := λ k,
  if negb (nk_socket k) then (Err ESocket, k)
  else let '(r, _, k) := nk_ioctl k req ifr in
       if negb (r =? 0) then (Err e, k) else (Ok tt, k).

Definition link_set_mac (name mac : list Z) : M unit :=
  set_ioctl SIOCSIFHWADDR (ifreq_for name (IfrHwaddr 1 (list_inserts 0 mac (replicate 14 0)))) EIoctl.

Definition link_set_mtu (name : list Z) (mtu : Z) : M unit :=
  set_ioctl SIOCSIFMTU (ifreq_for name (IfrMtu (as_i32 mtu))) EIoctl.

Definition get_iface_flags (name : list Z) (k : K) : Z * K :=
  let '(r, ifr, k) := nk_ioctl k SIOCGIFFLAGS (ifreq_for name IfrZero) in
  (if r =? 0 then match ifr_ifru ifr with IfrFlags f => f | _ => 0 end else 0, k).

Definition set_iface_flags (name : list Z) (flags : Z) (k : K) : K :=
  (nk_ioctl k SIOCSIFFLAGS (ifreq_for name (IfrFlags flags))).2.

(** Adds flags to the ones that are set. *)
Definition add_iface_flags (name : list Z) (bits : Z) : M unit := λ k,
  if negb (nk_socket k) then (Ok tt, k)
  else let '(flags, k) := get_iface_flags name k in
       (Ok tt, set_iface_flags name (Z.lor flags bits) k).

Definition link_set_up (name : list Z) : M unit := add_iface_flags name IFF_UP.
Definition link_set_noarp (name : list Z) : M unit := add_iface_flags name IFF_NOARP.

Definition link_disable_offloads (name : list Z) : M unit := λ k,
  if negb (nk_socket k) then (Ok tt, k)
  else (Ok tt, foldl (λ k cmd, (nk_ioctl k SIOCETHTOOL (ifreq_for name (IfrData cmd 0))).2) k
                     [ETHTOOL_STXCSUM; ETHTOOL_STSO]).

(** *** Segmentation limits *)

Definition nl_set_gso (name : list Z) (attr_type value : Z) : M unit :=
  ifindex ← ifindex_of name;
  transact (nl_set_gso_msg ifindex attr_type value).

Definition write_sys (name file content : list Z) : M unit := λ k,
  (Ok tt, (nk_write k (bs "/sys/class/net/" ++ name ++ [47] ++ file) content).2).

Definition set_gso (name file : list Z) (attr_type value : Z) : M unit :=
  failed ← is_err (nl_set_gso name attr_type value);
  when failed (write_sys name file (dec value)).

Definition link_set_gso_max_segs (name : list Z) (segs : Z) : M unit :=
  set_gso name (bs "gso_max_segs") IFLA_GSO_MAX_SEGS segs.

Definition link_set_gso_max_size (name : list Z) (size : Z) : M unit :=
  _ ← set_gso name (bs "gso_max_size") IFLA_GSO_MAX_SIZE size;
  set_gso name (bs "gro_max_size") IFLA_GRO_MAX_SIZE size.

(** *** Addresses and neighbours *)

Definition addr_add_p2p_v4 (name local_ip peer_ip : list Z) (prefix : Z) : M unit :=
  ifindex ← ifindex_of name;
  local ← of_res (ok_or (parse_ipv4 local_ip) ELocalIp);
  peer ← of_res (ok_or (parse_ipv4 peer_ip) EPeerIp);
  transact (addr_add_msg (as_u32 ifindex) prefix local peer).

Definition neigh_add_v4_permanent (name ip mac : list Z) : M unit :=
  ifindex ← ifindex_of name;
  addr ← of_res (ok_or (parse_ipv4 ip) ENeighborIp);
  transact (neigh_add_msg ifindex addr mac).
End operations.
