(* ===== verification/LinksSpec.v ===== *)
(** * What the kernel promises about network interfaces

    A request is read back from its bytes as an operation on a map of links;
    [NetKernelLaws] says that the kernel performs it, and the lemmas give the
    effect of each operation of Links.v on the map. *)

From stdpp Require Import gmap.
From S2P Require Import Prelude Words Slices Text Results StrOps Net Netlink Links.
Local Open Scope Z_scope.

(** ** Links *)

Record link := mkLink {
  l_index : Z;
  l_peer : option (list Z);
  l_mac : list Z;
  l_mtu : Z;
  l_up : bool;
  l_noarp : bool;
  l_addr : list (list Z * list Z * Z);
  l_neigh : list (list Z * list Z)
}.
#[global] Instance link_eq_dec : EqDecision link.
Proof. solve_decision. Defined.

Abbreviation links := (gmap (list Z) link).

Definition with_mac (m : list Z) (d : link) : link :=
  mkLink (l_index d) (l_peer d) m (l_mtu d) (l_up d) (l_noarp d) (l_addr d) (l_neigh d).
Definition with_mtu (m : Z) (d : link) : link :=
  mkLink (l_index d) (l_peer d) (l_mac d) m (l_up d) (l_noarp d) (l_addr d) (l_neigh d).
Definition with_flags (up noarp : bool) (d : link) : link :=
  mkLink (l_index d) (l_peer d) (l_mac d) (l_mtu d) up noarp (l_addr d) (l_neigh d).
Definition with_addrs (l : list (list Z * list Z * Z)) (d : link) : link :=
  mkLink (l_index d) (l_peer d) (l_mac d) (l_mtu d) (l_up d) (l_noarp d) l (l_neigh d).
Definition with_neighs (l : list (list Z * list Z)) (d : link) : link :=
  mkLink (l_index d) (l_peer d) (l_mac d) (l_mtu d) (l_up d) (l_noarp d) (l_addr d) l.

(** Names the kernel accepts for an interface. *)
Definition valid_name (n : list Z) : Prop :=
  (0 < length n < IFNAMSIZ)%nat ∧ 0 ∉ n ∧ 47 ∉ n.
#[global] Instance valid_name_dec n : Decision (valid_name n).
Proof. unfold valid_name. apply _. Defined.

(** ** Requests read back *)

Inductive nl_op :=
| NewVeth (name peer : list Z)
| DelLink (idx : Z)
| SetLink (idx attr_type value : Z)
| NewAddr (idx prefix : Z) (local peer : list Z)
| NewNeigh (idx : Z) (ip mac : list Z).

(** The text in front of the terminating zero. *)
Fixpoint c_str (l : list Z) : list Z :=
  match l with
  | [] => []
  | c :: l => if c =? 0 then [] else c :: c_str l
  end.

(** The body of a message: a fixed header of [n] bytes and attributes. *)
Definition body_attrs (n : nat) (m : nlmsg) : option (list (Z * list Z)) := attrs_of (drop n (m_body m)).

Definition decode_veth (info : list Z) : option (list Z) :=
  l ← attrs_of info;
  match l with
  | [(t1, kind); (t2, data)] =>
      if (t1 =? IFLA_INFO_KIND) && (t2 =? IFLA_INFO_DATA) && bool_decide (c_str kind = bs "veth") then
        l ← attrs_of data;
        match l with
        | [(t, peer)] =>
            if t =? VETH_INFO_PEER then
              l ← attrs_of (drop 16 peer);
              match l with
              | [(t, name)] => if t =? IFLA_IFNAME then Some (c_str name) else None
              | _ => None
              end
            else None
        | _ => None
        end
      else None
  | _ => None
  end.

Definition decode_request (msg : list Z) : option nl_op :=
  m ← read_nlmsg msg;
  let idx := from_le (window 4 4 (m_body m)) in
  if m_type m =? RTM_NEWLINK then
    l ← body_attrs 16 m;
    match l with
    | [(t1, name); (t2, info)] =>
        if (m_flags m =? 0x605) && (t1 =? IFLA_IFNAME) && (t2 =? IFLA_LINKINFO)
        then NewVeth (c_str name) <$> decode_veth info else None
    | [(t, v)] => Some (SetLink idx t (from_le v))
    | _ => None
    end
  else if m_type m =? RTM_DELLINK then Some (DelLink idx)
  else if m_type m =? RTM_NEWADDR then
    l ← body_attrs 8 m;
    match l with
    | [(t1, local); (t2, peer)] =>
        if (t1 =? IFA_LOCAL) && (t2 =? IFA_ADDRESS)
        then Some (NewAddr idx (m_body m !!! 1%nat) local peer) else None
    | _ => None
    end
  else if m_type m =? RTM_NEWNEIGH then
    l ← body_attrs 12 m;
    match l with
    | [(t1, ip); (t2, mac)] =>
        if (t1 =? NDA_DST) && (t2 =? NDA_LLADDR) then Some (NewNeigh idx ip mac) else None
    | _ => None
    end
  else None.

(** ** The effect of a request

    Deleting one end of a veth pair deletes the other; nothing is promised
    about addresses and neighbours that are added to ones that exist. *)

(** The end of a new pair. *)
Definition new_end (d : link) (peer : list Z) : Prop :=
  0 < l_index d < 2 ^ 31 ∧ l_peer d = Some peer ∧ l_up d = false ∧ l_noarp d = false ∧
  l_addr d = [] ∧ l_neigh d = [].
Definition unused (i : Z) (dm : links) : Prop := map_Forall (λ _ d, l_index d ≠ i) dm.

Inductive nl_effect (dm : links) : nl_op → Z → links → Prop :=
| eff_new_veth n p d e : n ≠ p → valid_name n → valid_name p → dm !! n = None → dm !! p = None →
    new_end d p → new_end e n → unused (l_index d) dm → unused (l_index e) dm →
    l_index d ≠ l_index e → nl_effect dm (NewVeth n p) 0 (<[n := d]> (<[p := e]> dm))
| eff_exists n p code : code ≠ 0 → is_Some (dm !! n) ∨ is_Some (dm !! p) →
    nl_effect dm (NewVeth n p) code dm
| eff_bad_names n p code : code ≠ 0 → n = p ∨ ¬ valid_name n ∨ ¬ valid_name p →
    nl_effect dm (NewVeth n p) code dm
| eff_no_index n p code x d : code ≠ 0 → dm !! x = Some d → 2 ^ 31 - 2 ≤ l_index d →
    nl_effect dm (NewVeth n p) code dm
| eff_delete n p d : dm !! n = Some d → l_peer d = Some p →
    nl_effect dm (DelLink (l_index d)) 0 (delete p (delete n dm))
| eff_keep idx code : code ≠ 0 → map_Forall (λ _ d, l_index d = idx → l_peer d = None) dm →
    nl_effect dm (DelLink idx) code dm
| eff_set_link idx t v code : nl_effect dm (SetLink idx t v) code dm
| eff_addr n d prefix local peer : dm !! n = Some d → prefix ≤ 32 → l_addr d = [] →
    length local = 4%nat → length peer = 4%nat →
    nl_effect dm (NewAddr (l_index d) prefix local peer) 0 (<[n := with_addrs [(local, peer, prefix)] d]> dm)
| eff_addr_more n d prefix local peer l code : dm !! n = Some d → l_addr d ≠ [] →
    nl_effect dm (NewAddr (l_index d) prefix local peer) code (<[n := with_addrs l d]> dm)
| eff_addr_bad idx prefix local peer code : code ≠ 0 →
    map_Forall (λ _ d, l_index d ≠ idx) dm ∨ 32 < prefix ∨ length local ≠ 4%nat ∨ length peer ≠ 4%nat →
    nl_effect dm (NewAddr idx prefix local peer) code dm
| eff_neigh n d ip mac : dm !! n = Some d → l_neigh d = [] → length ip = 4%nat → length mac = 6%nat →
    nl_effect dm (NewNeigh (l_index d) ip mac) 0 (<[n := with_neighs [(ip, mac)] d]> dm)
| eff_neigh_more n d ip mac l code : dm !! n = Some d → l_neigh d ≠ [] →
    nl_effect dm (NewNeigh (l_index d) ip mac) code (<[n := with_neighs l d]> dm)
| eff_neigh_bad idx ip mac code : code ≠ 0 →
    map_Forall (λ _ d, l_index d ≠ idx) dm ∨ length ip ≠ 4%nat ∨ length mac ≠ 6%nat →
    nl_effect dm (NewNeigh idx ip mac) code dm.

(** The acknowledgement with a code (zero or a negative errno). *)
Definition is_ack (r : nl_reply) (code : Z) : Prop :=
  ∃ msg, r = Reply msg ∧ (20 ≤ length msg)%nat ∧ from_le (window 4 2 msg) = NLMSG_ERROR ∧
         as_i32 (from_le (window 16 4 msg)) = code.

(** A hardware address is only changed while there are no neighbours, and ARP
    only switched on an interface that is down: both flush neighbours. *)
Class NetKernelLaws (K : Type) `{NetKernel K} := {
  devs : K → links;
  law_index k n : nk_index k n = from_option l_index 0 (devs k !! n);
  law_request k msg op : decode_request msg = Some op →
    ∃ code, is_ack (nk_request k msg).1 code ∧
            nl_effect (devs k) op code (devs (nk_request k msg).2);
  law_socket k : nk_socket k = true;
  law_set_mac k ifr n d mac : c_str (ifr_name ifr) = n → devs k !! n = Some d →
    l_neigh d = [] → length mac = 6%nat → Z.testbit (mac !!! 0%nat) 0 = false →
    ifr_ifru ifr = IfrHwaddr 1 (mac ++ replicate 8 0) →
    devs (nk_ioctl k SIOCSIFHWADDR ifr).2 = <[n := with_mac mac d]> (devs k);
  law_set_mtu k ifr n d mtu : c_str (ifr_name ifr) = n → devs k !! n = Some d →
    68 ≤ mtu ≤ 65535 → ifr_ifru ifr = IfrMtu mtu →
    devs (nk_ioctl k SIOCSIFMTU ifr).2 = <[n := with_mtu mtu d]> (devs k);
  law_get_flags k ifr n d : c_str (ifr_name ifr) = n → devs k !! n = Some d →
    ∃ f, (nk_ioctl k SIOCGIFFLAGS ifr).1 = (0, mkIfreq (ifr_name ifr) (IfrFlags f)) ∧
         devs (nk_ioctl k SIOCGIFFLAGS ifr).2 = devs k ∧
         Z.testbit f 0 = l_up d ∧ Z.testbit f 7 = l_noarp d;
  law_set_flags k ifr n d f : c_str (ifr_name ifr) = n → devs k !! n = Some d →
    l_up d = false ∨ Z.testbit f 7 = l_noarp d → ifr_ifru ifr = IfrFlags f →
    devs (nk_ioctl k SIOCSIFFLAGS ifr).2 = <[n := with_flags (Z.testbit f 0) (Z.testbit f 7) d]> (devs k);
  law_ethtool k ifr : devs (nk_ioctl k SIOCETHTOOL ifr).2 = devs k;
  law_write k path content : devs (nk_write k path content).2 = devs k
}.

(** Indices identify links, and the ends of a pair name each other. *)
Definition links_wf (dm : links) : Prop :=
  map_Forall (λ n d,
    0 < l_index d < 2 ^ 31 ∧
    map_Forall (λ n' d', l_index d' = l_index d → n' = n) dm ∧
    match l_peer d with
    | Some p => p ≠ n ∧ match dm !! p with Some e => l_peer e = Some n | None => False end
    | None => True
    end) dm.

(** There are two indices above the ones in use. *)
Definition room (dm : links) : Prop := map_Forall (λ _ d, l_index d < 2 ^ 31 - 2) dm.

(** ** Requests mean what was asked *)

Lemma c_str_app n rest : 0 ∉ n → c_str (n ++ 0 :: rest) = n.
Proof.
  induction n as [|c n IH]; intros H0; [done|]. cbn [app c_str]. apply not_elem_of_cons in H0 as [H0 Hn].
  destruct (Z.eqb_spec c 0); [by subst|]. by rewrite IH.
Qed.

Lemma c_str_fill n : valid_name n → c_str (fill_ifname (replicate IFNAMSIZ 0) n) = n.
Proof.
  intros (Hl & H0 & _). unfold fill_ifname. unfold IFNAMSIZ in *. rewrite take_ge by lia.
  rewrite list_inserts_app by (rewrite length_replicate; lia). cbn [take app Nat.add].
  rewrite drop_replicate. replace (16 - length n)%nat with (S (15 - length n)) by lia.
  by apply c_str_app.
Qed.

Lemma from_le_window_idx a idx b : 0 ≤ idx < 2 ^ 32 → length a = 4%nat →
  from_le (window 4 4 (a ++ u32_to_le_bytes idx ++ b)) = idx.
Proof.
  intros Hi Ha. rewrite window_app_ge by lia. rewrite Ha. cbn [Nat.sub].
  rewrite window_app_l by (rewrite length_le_bytes; lia).
  rewrite window_whole by (rewrite ?length_le_bytes; done).
  rewrite from_le_bytes. by apply wrap_small.
Qed.

Lemma decode_veth_msg n p msg : valid_name n → valid_name p → veth_create_msg n p = Done msg →
  decode_request msg = Some (NewVeth n p).
Proof.
  intros (Hn & Hn0 & _) (Hp & Hp0 & _) Hm. unfold IFNAMSIZ in *.
  destruct (veth_create_carries n p) as (msg' & data & lp & Hm' & (attrs & Hr & Ha) & Hi & Hd & Hl); [lia..|].
  rewrite Hm in Hm'. injection Hm' as <-. unfold decode_request. rewrite Hr. cbn [mbind option_bind m_type].
  unfold body_attrs. cbn [m_body]. rewrite (drop_app_length' (replicate 16 0)) by done. rewrite Ha.
  cbn -[c_str veth_info decode_veth]. rewrite c_str_app by done.
  assert (Hv : decode_veth (veth_info p) = Some p).
  { unfold decode_veth. rewrite Hi. cbn -[attrs_of c_str drop].
    rewrite (bool_decide_eq_true_2 (c_str _ = _)) by done. cbn [andb]. rewrite Hd. cbn -[attrs_of c_str drop].
    change (drop 16 _) with lp. rewrite Hl. cbn -[c_str].
    by rewrite c_str_app. }
  by rewrite Hv.
Qed.

Lemma decode_delete idx msg : 0 ≤ idx < 2 ^ 32 → link_delete_msg idx = Done msg →
  decode_request msg = Some (DelLink idx).
Proof.
  intros Hi Hm. destruct (link_delete_carries idx) as (msg' & Hm' & (attrs & Hr & Ha)).
  rewrite Hm in Hm'. injection Hm' as <-. unfold decode_request. rewrite Hr. cbn [mbind option_bind m_type m_body].
  rewrite <- !app_assoc, from_le_window_idx by done. done.
Qed.

Lemma decode_set_link idx ty v msg : 0 ≤ idx < 2 ^ 32 → is_u16 ty → nl_set_gso_msg idx ty v = Done msg →
  ∃ op, decode_request msg = Some op ∧ ∃ w, op = SetLink idx ty w.
Proof.
  intros Hi Ht Hm. destruct (nl_set_gso_carries idx ty v Ht) as (msg' & Hm' & (attrs & Hr & Ha)).
  rewrite Hm in Hm'. injection Hm' as <-. unfold decode_request. rewrite Hr. cbn [mbind option_bind m_type m_body].
  rewrite <- !app_assoc, from_le_window_idx by done.
  unfold body_attrs. cbn [m_body]. rewrite !app_assoc.
  rewrite (drop_app_length' _ attrs) by (by rewrite <- app_assoc, length_link_header). rewrite Ha.
  eexists. split; [done|]. by eexists.
Qed.

Lemma decode_new_addr idx prefix local peer msg : 0 ≤ idx < 2 ^ 32 → length local = 4%nat →
  length peer = 4%nat → addr_add_msg idx prefix local peer = Done msg →
  decode_request msg = Some (NewAddr idx prefix local peer).
Proof.
  intros Hi Hl Hp Hm. destruct (addr_add_carries idx prefix local peer Hl Hp) as (msg' & Hm' & (attrs & Hr & Ha)).
  rewrite Hm in Hm'. injection Hm' as <-. unfold decode_request. rewrite Hr. cbn [mbind option_bind m_type m_body].
  rewrite <- !app_assoc, from_le_window_idx by done.
  unfold body_attrs. cbn [m_body]. rewrite app_assoc.
  rewrite (drop_app_length' _ attrs 8) by (rewrite length_app, length_le_bytes; done). by rewrite Ha.
Qed.

Lemma decode_neigh idx ip mac msg : 0 ≤ idx < 2 ^ 32 → length ip = 4%nat →
  length mac = 6%nat → neigh_add_msg idx ip mac = Done msg → decode_request msg = Some (NewNeigh idx ip mac).
Proof.
  intros Hi Hl Hp Hm. destruct (neigh_add_carries idx ip mac Hl Hp) as (msg' & Hm' & (attrs & Hr & Ha)).
  rewrite Hm in Hm'. injection Hm' as <-. unfold decode_request. rewrite Hr. cbn [mbind option_bind m_type m_body].
  rewrite <- !app_assoc, from_le_window_idx by done.
  unfold body_attrs. cbn [m_body]. rewrite !app_assoc.
  rewrite (drop_app_length' _ attrs 12) by (rewrite !length_app, length_le_bytes; done). by rewrite Ha.
Qed.

(** ** Running operations *)

Section specs.
  Context {K : Type} {HK : NetKernel K} {HL : NetKernelLaws K}.

(** The operation succeeds with [a] and leaves the links [dm]. *)
Definition runs {E A} (m : KM K E A) (k : K) (a : A) (dm : links) : Prop :=
  ∃ k', m k = (Ok a, k') ∧ devs k' = dm.

Lemma runs_bind {E A B} (m : KM K E A) (f : A → KM K E B) k a b dm dm' :
  runs m k a dm → (∀ k', devs k' = dm → runs (f a) k' b dm') → runs (m ≫= f) k b dm'.
Proof.
  intros (k1 & Hm & Hk1) Hf. destruct (Hf k1 Hk1) as (k2 & Hk2 & Hd). exists k2. split; [|done].
  unfold mbind, KM_bind. by rewrite Hm.
Qed.

Lemma runs_ret {E A} (a : A) k : runs (E:=E) (mret a) k a (devs k).
Proof. by exists k. Qed.

Lemma runs_of_res {E A} (r : res E A) k a : r = Ok a → runs (of_res r) k a (devs k).
Proof. intros ->. by exists k. Qed.

Lemma runs_map_err {E F A} (f : E → F) (m : KM K E A) k a dm :
  runs m k a dm → runs (km_map_err f m) k a dm.
Proof. intros (k' & Hm & Hk). exists k'. unfold km_map_err. by rewrite Hm. Qed.

Lemma as_i32_small i : 0 ≤ i < 2 ^ 31 → as_i32 i = i.
Proof. intros Hi. unfold as_i32. destruct (Z.ltb_spec i (2 ^ 31)); [done|lia]. Qed.

Lemma get_ifindex_known k n d : devs k !! n = Some d → 0 ∉ n → 0 < l_index d < 2 ^ 31 →
  get_ifindex (view k) n = Ok (l_index d).
Proof.
  intros Hd H0 Hi. unfold get_ifindex, view. cbn [if_nametoindex]. rewrite bool_decide_eq_false_2 by done.
  rewrite law_index, Hd. cbn [from_option]. destruct (Z.eqb_spec (l_index d) 0); [lia|].
  by rewrite as_i32_small by lia.
Qed.

Lemma ifindex_of_spec k n d : devs k !! n = Some d → 0 ∉ n → 0 < l_index d < 2 ^ 31 →
  runs (ifindex_of n) k (l_index d) (devs k).
Proof. intros. exists k. unfold ifindex_of. by rewrite (get_ifindex_known k n d). Qed.

Lemma get_ifindex_unknown k n : devs k !! n = None → ∃ e, get_ifindex (view k) n = Err e.
Proof.
  intros Hd. unfold get_ifindex, view. cbn [if_nametoindex]. case_bool_decide; [by eexists|].
  rewrite law_index, Hd. by eexists.
Qed.

Lemma request_spec k msg op : decode_request msg = Some op →
  ∃ code k', request msg k = (if code =? 0 then Ok tt else Err (EKernel code), k') ∧
             nl_effect (devs k) op code (devs k').
Proof.
  intros Hop. destruct (law_request k msg op Hop) as (code & (r & Hr & Hl & Ht & Hc) & He).
  unfold request. destruct (nk_request k msg) as [rep k']. cbn [fst snd] in *. subst rep.
  exists code, k'. split; [|done]. rewrite nl_transact_reply, Ht, Hc.
  destruct (Nat.ltb_spec (length r) 16); [lia|]. destruct (Nat.ltb_spec (length r) 20); [lia|]. done.
Qed.

Lemma transact_Done msg k : transact (Done msg) k = request msg k.
Proof. done. Qed.

(** *** Creating and deleting *)

Lemma veth_create_fresh n p k : valid_name n → valid_name p → n ≠ p → room (devs k) →
  devs k !! n = None → devs k !! p = None →
  ∃ d e, new_end d p ∧ new_end e n ∧ unused (l_index d) (devs k) ∧ unused (l_index e) (devs k) ∧
    l_index d ≠ l_index e ∧ runs (veth_create n p) k tt (<[n := d]> (<[p := e]> (devs k))).
Proof.
  intros Hn Hp Hne Hwf Hdn Hdp. destruct (veth_create_carries n p) as (msg & _ & _ & Hm & _).
  { destruct Hn as [Hn _]. unfold IFNAMSIZ in *. lia. }
  { destruct Hp as [Hp _]. unfold IFNAMSIZ in *. lia. }
  destruct (request_spec k msg _ (decode_veth_msg n p msg Hn Hp Hm)) as (code & k' & Hr & He).
  inversion He as [? ? d e|? ? ? ? [[]|[]]|? ? ? ? [|[|]]|? ? ? x d ? Hx Hi| | | | | | | | | ]; simplify_eq.
  - exists d, e. split_and!; try done. exists k'. split; [|done].
    unfold veth_create. by rewrite Hm, transact_Done, Hr.
  - pose proof (Hwf x d Hx) as Hlt. cbn in Hlt. lia.
Qed.

Lemma veth_create_conflict n p k : valid_name n → valid_name p →
  is_Some (devs k !! n) ∨ is_Some (devs k !! p) →
  ∃ e k', veth_create n p k = (Err e, k') ∧ devs k' = devs k.
Proof.
  intros Hn Hp Hs. destruct (veth_create_carries n p) as (msg & _ & _ & Hm & _).
  { destruct Hn as [Hn _]. unfold IFNAMSIZ in *. lia. }
  { destruct Hp as [Hp _]. unfold IFNAMSIZ in *. lia. }
  destruct (request_spec k msg _ (decode_veth_msg n p msg Hn Hp Hm)) as (code & k' & Hr & He).
  unfold veth_create. rewrite Hm, transact_Done, Hr. exists (EKernel code), k'.
  assert (Hc : code ≠ 0 ∧ devs k' = devs k).
  { inversion He; simplify_eq; try done. destruct Hs as [[]|[]]; congruence. }
  destruct Hc as [Hc ->]. by destruct (Z.eqb_spec code 0).
Qed.

(** The links without the pair of which [n] is an end. *)
Definition drop_link (n : list Z) (dm : links) : links :=
  match dm !! n with
  | Some d => match l_peer d with Some p => delete p (delete n dm) | None => dm end
  | None => dm
  end.

Lemma link_delete_spec n k : valid_name n → links_wf (devs k) →
  runs (link_delete n) k tt (drop_link n (devs k)).
Proof.
  intros (_ & H0 & _) Hwf. unfold drop_link, link_delete. destruct (devs k !! n) as [d|] eqn:Hd.
  2:{ destruct (get_ifindex_unknown k n Hd) as [e He]. exists k. by rewrite He. }
  destruct (Hwf n d Hd) as (Hi & Hu & _). unfold runs. rewrite (get_ifindex_known k n d) by (done || lia).
  destruct (link_delete_carries (l_index d)) as (msg & Hm & _).
  destruct (request_spec k msg (DelLink (l_index d))) as (code & k' & Hr & He).
  { apply decode_delete; [lia|done]. }
  exists k'. unfold ignore. rewrite Hm, transact_Done, Hr. split; [by destruct (code =? 0)|].
  inversion He as [| | | |n' p d' Hd' Hp Hi'|? ? ? Hk| | | | | | | ]; simplify_eq.
  - apply (Hu n' d' Hd') in Hi' as ->. rewrite Hd in Hd'. injection Hd' as <-. by rewrite Hp.
  - by rewrite (Hk n d Hd eq_refl).
Qed.

Lemma drop_link_wf n dm : links_wf dm → links_wf (drop_link n dm).
Proof.
  intros Hwf. unfold drop_link. destruct (dm !! n) as [d|] eqn:Hd; [|done].
  destruct (l_peer d) as [p|] eqn:Hp; [|done]. intros x dx Hx.
  apply lookup_delete_Some in Hx as [Hxp Hx]. apply lookup_delete_Some in Hx as [Hxn Hx].
  destruct (Hwf x dx Hx) as (Hi & Hu & Hpx). split_and!; [lia|lia| |].
  - intros y dy Hy. apply lookup_delete_Some in Hy as [_ Hy]. apply lookup_delete_Some in Hy as [_ Hy].
    by apply Hu.
  - destruct (l_peer dx) as [q|]; [|done]. destruct Hpx as [Hqx Hq]. split; [done|].
    destruct (Hwf n d Hd) as (_ & _ & Hpd). rewrite Hp in Hpd. destruct Hpd as [Hpn Hpd].
    rewrite lookup_delete_ne; [rewrite lookup_delete_ne; [done|]|].
    + intros <-. rewrite Hd, Hp in Hq. congruence.
    + intros <-. destruct (dm !! p); [|done]. congruence.
Qed.

Lemma drop_link_Some n dm x d : drop_link n dm !! x = Some d → dm !! x = Some d.
Proof.
  unfold drop_link. destruct (dm !! n) as [e|]; [|done]. destruct (l_peer e); [|done].
  intros Hx. apply lookup_delete_Some in Hx as [_ Hx]. by apply lookup_delete_Some in Hx as [_ Hx].
Qed.

Lemma drop_link_room n dm : room dm → room (drop_link n dm).
Proof. intros Hr x d Hx. by apply (Hr x d), (drop_link_Some n). Qed.

(** A new pair keeps the links well-formed, as does changing a setting. *)
Lemma links_wf_new n p d e dm : links_wf dm → n ≠ p → dm !! n = None → dm !! p = None →
  new_end d p → new_end e n → unused (l_index d) dm → unused (l_index e) dm →
  l_index d ≠ l_index e → links_wf (<[n := d]> (<[p := e]> dm)).
Proof.
  intros Hwf Hnp Hn Hp (Hdi & Hdp & _) (Hei & Hep & _) Hud Hue Hde x dx Hx.
  assert (Hcase : (x = n ∧ dx = d) ∨ (x = p ∧ dx = e) ∨ (x ≠ n ∧ x ≠ p ∧ dm !! x = Some dx)).
  { apply lookup_insert_Some in Hx as [[<- <-]|[? Hx]]; [by left|].
    apply lookup_insert_Some in Hx as [[<- <-]|[? Hx]]; [by right; left|by right; right]. }
  assert (Hother : ∀ y dy, dm !! y = Some dy → l_index dy ≠ l_index d ∧ l_index dy ≠ l_index e).
  { intros y dy Hy. split; [by apply (Hud y)|by apply (Hue y)]. }
  destruct Hcase as [[-> ->]|[[-> ->]|(Hxn & Hxp & Hx')]].
  - split_and!; [lia|lia| |].
    + intros y dy Hy Hi. apply lookup_insert_Some in Hy as [[<- <-]|[? Hy]]; [done|].
      apply lookup_insert_Some in Hy as [[<- <-]|[? Hy]]; [lia|]. destruct (Hother y dy Hy). lia.
    + rewrite Hdp. split; [done|]. by rewrite lookup_insert_ne, lookup_insert_eq.
  - split_and!; [lia|lia| |].
    + intros y dy Hy Hi. apply lookup_insert_Some in Hy as [[<- <-]|[? Hy]]; [lia|].
      apply lookup_insert_Some in Hy as [[<- <-]|[? Hy]]; [done|]. destruct (Hother y dy Hy). lia.
    + rewrite Hep. split; [done|]. by rewrite lookup_insert_eq.
  - destruct (Hwf x dx Hx') as (Hi & Hu & Hpx). split_and!; [lia|lia| |].
    + intros y dy Hy Hiy. destruct (Hother x dx Hx'). apply lookup_insert_Some in Hy as [[<- <-]|[? Hy]]; [lia|].
      apply lookup_insert_Some in Hy as [[<- <-]|[? Hy]]; [lia|]. by apply (Hu y dy).
    + destruct (l_peer dx) as [q|]; [|done]. destruct Hpx as [Hqx Hq]. split; [done|].
      rewrite !lookup_insert_ne; [done| |]; intros <-; [by rewrite Hp in Hq|by rewrite Hn in Hq].
Qed.

Lemma links_wf_update n d d' dm : links_wf dm → dm !! n = Some d → l_index d' = l_index d →
  l_peer d' = l_peer d → links_wf (<[n := d']> dm).
Proof.
  intros Hwf Hd Hi Hp.
  assert (Hold : ∀ x dx, <[n := d']> dm !! x = Some dx →
    ∃ dx', dm !! x = Some dx' ∧ l_index dx = l_index dx' ∧ l_peer dx = l_peer dx').
  { intros x dx Hx. apply lookup_insert_Some in Hx as [[<- <-]|[? Hx]]; by eexists. }
  intros x dx Hx. destruct (Hold x dx Hx) as (dx' & Hx' & Hix & Hpx).
  destruct (Hwf x dx' Hx') as (Hr & Hu & Hq). split_and!; [lia|lia| |].
  - intros y dy Hy Hiy. destruct (Hold y dy Hy) as (dy' & Hy' & Hiy' & _). apply (Hu y dy' Hy'). lia.
  - rewrite Hpx. destruct (l_peer dx') as [q|]; [|done]. destruct Hq as [Hqx Hq]. split; [done|].
    destruct (decide (q = n)) as [->|Hqn].
    + rewrite lookup_insert_eq. rewrite Hd in Hq. by rewrite Hp.
    + by rewrite lookup_insert_ne.
Qed.

(** *** Settings *)

Lemma set_ioctl_links {F} req ifr e k : ∃ k', ignore (F:=F) (set_ioctl req ifr e) k = (Ok tt, k') ∧
  devs k' = devs (nk_ioctl k req ifr).2.
Proof.
  unfold ignore, set_ioctl. rewrite law_socket. cbn [negb].
  destruct (nk_ioctl k req ifr) as [[r ifr'] k']. exists k'. by destruct (negb _).
Qed.

Lemma link_set_mac_spec {E} n d mac k : valid_name n → devs k !! n = Some d → l_neigh d = [] →
  length mac = 6%nat → Z.testbit (mac !!! 0%nat) 0 = false →
  runs (E:=E) (ignore (link_set_mac n mac)) k tt (<[n := with_mac mac d]> (devs k)).
Proof.
  intros Hn Hd Hg Hm Ht. unfold link_set_mac. destruct (set_ioctl_links (F:=E) SIOCSIFHWADDR
    (ifreq_for n (IfrHwaddr 1 (list_inserts 0 mac (replicate 14 0)))) EIoctl k) as (k' & Hk & Hdk).
  exists k'. split; [exact Hk|]. rewrite Hdk. apply law_set_mac; try done; [by apply c_str_fill|].
  cbn [ifreq_for ifr_ifru]. rewrite list_inserts_app by (rewrite Hm; cbn; lia). by rewrite Hm.
Qed.

Lemma link_set_mtu_spec {E} n d mtu k : valid_name n → devs k !! n = Some d → 68 ≤ mtu ≤ 65535 →
  runs (E:=E) (ignore (link_set_mtu n mtu)) k tt (<[n := with_mtu mtu d]> (devs k)).
Proof.
  intros Hn Hd Hm. unfold link_set_mtu. destruct (set_ioctl_links (F:=E) SIOCSIFMTU
    (ifreq_for n (IfrMtu (as_i32 mtu))) EIoctl k) as (k' & Hk & Hdk).
  exists k'. split; [exact Hk|]. rewrite Hdk. apply law_set_mtu; try done; [by apply c_str_fill|].
  cbn [ifreq_for ifr_ifru]. by rewrite as_i32_small by lia.
Qed.

Lemma add_iface_flags_spec n d bits k : valid_name n → devs k !! n = Some d →
  l_up d = false ∨ Z.testbit bits 7 = false →
  runs (add_iface_flags n bits) k tt
    (<[n := with_flags (l_up d || Z.testbit bits 0) (l_noarp d || Z.testbit bits 7) d]> (devs k)).
Proof.
  intros Hn Hd Hb. unfold runs, add_iface_flags, get_iface_flags, set_iface_flags. rewrite law_socket.
  cbn [negb]. destruct (law_get_flags k (ifreq_for n IfrZero) n d) as (f & Hf & Hdf & Hf0 & Hf7);
    [by apply c_str_fill|done|].
  destruct (nk_ioctl k SIOCGIFFLAGS _) as [r k']. cbn [fst snd] in *. subst r. cbn [Z.eqb ifr_ifru].
  eexists. split; [done|]. rewrite <- Hdf in Hd |- *.
  rewrite (law_set_flags _ _ n d (Z.lor f bits)); [|by apply c_str_fill|done| |done].
  - by rewrite !Z.lor_spec, Hf0, Hf7.
  - rewrite Z.lor_spec, Hf7. destruct Hb as [|Hb]; [by left|right]. by rewrite Hb, orb_false_r.
Qed.

Lemma link_disable_offloads_spec n k : runs (link_disable_offloads n) k tt (devs k).
Proof.
  unfold runs, link_disable_offloads. rewrite law_socket. cbn [negb foldl]. eexists. split; [done|].
  by rewrite !law_ethtool.
Qed.

Lemma set_gso_spec n file ty v k : is_u16 ty → links_wf (devs k) → 0 ∉ n →
  runs (set_gso n file ty v) k tt (devs k).
Proof.
  intros Ht Hwf Hn. assert (Hg : ∃ b k', is_err (F:=nerr) (nl_set_gso n ty v) k = (Ok b, k') ∧ devs k' = devs k).
  { unfold is_err, nl_set_gso, mbind, KM_bind, ifindex_of. destruct (devs k !! n) as [d|] eqn:Hd.
    2:{ destruct (get_ifindex_unknown k n Hd) as [e ->]. by exists true, k. }
    destruct (Hwf n d Hd) as (Hi & _). rewrite (get_ifindex_known k n d) by (done || lia).
    destruct (nl_set_gso_carries (l_index d) ty v Ht) as (msg & Hm & _).
    destruct (decode_set_link (l_index d) ty v msg) as (op & Hop & w & ->); [lia|done..|].
    destruct (request_spec k msg _ Hop) as (code & k' & Hr & He). rewrite Hm, transact_Done, Hr.
    inversion He; subst. exists (negb (code =? 0)), k'. by destruct (code =? 0). }
  destruct Hg as (b & k' & Hb & Hk). unfold set_gso. eapply runs_bind; [exists k'; by split|].
  intros k2 Hk2. destruct b; [|by rewrite <- Hk2; apply runs_ret].
  unfold when, write_sys. eexists. split; [done|]. by rewrite law_write.
Qed.

(** *** Addresses and neighbours *)

Lemma index_unique dm n d n' d' : links_wf dm → dm !! n = Some d → dm !! n' = Some d' →
  l_index d' = l_index d → n' = n ∧ d' = d.
Proof.
  intros Hwf Hd Hd' Hi. destruct (Hwf n d Hd) as (_ & Hu & _). apply (Hu n' d' Hd') in Hi as ->.
  by simplify_eq.
Qed.

Lemma addr_add_spec n d local peer ls ps prefix k : valid_name n → links_wf (devs k) →
  devs k !! n = Some d → l_addr d = [] → prefix ≤ 32 → length local = 4%nat → length peer = 4%nat →
  parse_ipv4 ls = Some local → parse_ipv4 ps = Some peer →
  runs (addr_add_p2p_v4 n ls ps prefix) k tt (<[n := with_addrs [(local, peer, prefix)] d]> (devs k)).
Proof.
  intros (_ & Hn & _) Hwf Hd Ha Hp Hl Hpe Hls Hps. destruct (Hwf n d Hd) as (Hi & Hu & _).
  unfold addr_add_p2p_v4. rewrite Hls, Hps.
  eapply runs_bind; [by apply (ifindex_of_spec k n d)|].
  intros k1 Hk1. eapply runs_bind; [by apply runs_of_res|]. intros k2 Hk2.
  eapply runs_bind; [by apply runs_of_res|]. intros k3 Hk3. rewrite wrap_small by (unfold in_width; lia).
  destruct (addr_add_carries (l_index d) prefix local peer Hl Hpe) as (msg & Hm & _).
  destruct (request_spec k3 msg (NewAddr (l_index d) prefix local peer)) as (code & k' & Hr & He).
  { by apply decode_new_addr; [lia|..]. }
  rewrite Hk3, Hk2, Hk1 in He. exists k'. rewrite Hm, transact_Done, Hr.
  inversion He as [| | | | | | |n' d' ? ? ? Hd'|n' d' ? ? ? ? ? Hd'|? ? ? ? ? ? Hb| | | ]; subst.
  - by destruct (index_unique _ n d n' d' Hwf Hd Hd') as [-> ->].
  - by destruct (index_unique _ n d n' d' Hwf Hd Hd') as [-> ->].
  - destruct Hb as [Hb|[Hb|[Hb|Hb]]]; [by destruct (Hb n d)|lia|done..].
Qed.

Lemma neigh_add_spec n d ip mac ips k : valid_name n → links_wf (devs k) →
  devs k !! n = Some d → l_neigh d = [] → length ip = 4%nat → length mac = 6%nat →
  parse_ipv4 ips = Some ip →
  runs (neigh_add_v4_permanent n ips mac) k tt (<[n := with_neighs [(ip, mac)] d]> (devs k)).
Proof.
  intros (_ & Hn & _) Hwf Hd Ha Hl Hpe Hls. destruct (Hwf n d Hd) as (Hi & Hu & _).
  unfold neigh_add_v4_permanent. rewrite Hls.
  eapply runs_bind; [by apply (ifindex_of_spec k n d)|].
  intros k1 Hk1. eapply runs_bind; [by apply runs_of_res|]. intros k2 Hk2.
  destruct (neigh_add_carries (l_index d) ip mac Hl Hpe) as (msg & Hm & _).
  destruct (request_spec k2 msg (NewNeigh (l_index d) ip mac)) as (code & k' & Hr & He).
  { by apply decode_neigh; [lia|..]. }
  rewrite Hk2, Hk1 in He. exists k'. rewrite Hm, transact_Done, Hr.
  inversion He as [| | | | | | | | | |n' d' ? ? Hd'|n' d' ? ? ? ? Hd'|? ? ? ? ? Hb]; subst.
  - by destruct (index_unique _ n d n' d' Hwf Hd Hd') as [-> ->].
  - by destruct (index_unique _ n d n' d' Hwf Hd Hd') as [-> ->].
  - destruct Hb as [Hb|[Hb|Hb]]; [by destruct (Hb n d)|done..].
Qed.
End specs.
