(* ===== verification/SimKernel.v ===== *)
(** * A kernel that keeps the laws

    An executable map of links with the operations of [Links.NetKernel]; it
    shows that the laws of LinksSpec.v can hold, and is the kernel on which
    the theorems about them are evaluated. *)

From stdpp Require Import gmap.
From S2P Require Import Prelude Words Slices Text Results StrOps Net Netlink Links LinksSpec.
Local Open Scope Z_scope.

(** The acknowledgement of a request. *)
Definition ack (code : Z) : list Z :=
  u32_to_le_bytes 20 ++ u16_to_le_bytes NLMSG_ERROR ++ u16_to_le_bytes 0 ++ u32_to_le_bytes 1
    ++ u32_to_le_bytes 0 ++ u32_to_le_bytes code.

(** The largest index in use. *)
Definition top_index (dm : links) : Z := foldr Z.max 0 ((λ nd, l_index nd.2) <$> map_to_list dm).

Definition find_link (P : link → Prop) `{∀ d, Decision (P d)} (dm : links) : option (list Z * link) :=
  snd <$> list_find (λ nd, P nd.2) (map_to_list dm).

Definition sim_end (i : Z) (peer : list Z) : link :=
  mkLink i (Some peer) [2; 0; 0; 0; 0; 1] 1500 false false [] [].

Definition sim_effect (dm : links) (op : nl_op) : Z * links :=
  match op with
  | NewVeth n p =>
      if decide (n = p ∨ ¬ valid_name n ∨ ¬ valid_name p) then (-22, dm)
      else if decide (is_Some (dm !! n) ∨ is_Some (dm !! p)) then (-17, dm)
      else let m := top_index dm in
           if 2 ^ 31 - 2 <=? m then (-12, dm)
           else (0, <[n := sim_end (m + 1) p]> (<[p := sim_end (m + 2) n]> dm))
  | DelLink idx =>
      match find_link (λ d, l_index d = idx ∧ l_peer d ≠ None) dm with
      | Some (n, d) => (0, match l_peer d with Some p => delete p (delete n dm) | None => dm end)
      | None => (-19, dm)
      end
  | SetLink _ _ _ => (0, dm)
  | NewAddr idx prefix local peer =>
      match find_link (λ d, l_index d = idx) dm with
      | Some (n, d) =>
          if decide (l_addr d = []) then
            if decide (prefix ≤ 32 ∧ length local = 4%nat ∧ length peer = 4%nat)
            then (0, <[n := with_addrs [(local, peer, prefix)] d]> dm) else (-22, dm)
          else (0, <[n := with_addrs ((local, peer, prefix) :: l_addr d) d]> dm)
      | None => (-19, dm)
      end
  | NewNeigh idx ip mac =>
      match find_link (λ d, l_index d = idx) dm with
      | Some (n, d) =>
          if decide (l_neigh d = []) then
            if decide (length ip = 4%nat ∧ length mac = 6%nat)
            then (0, <[n := with_neighs [(ip, mac)] d]> dm) else (-22, dm)
          else (0, <[n := with_neighs ((ip, mac) :: l_neigh d) d]> dm)
      | None => (-19, dm)
      end
  end.

Definition sim_request (dm : links) (msg : list Z) : nl_reply * links :=
  match decode_request msg with
  | Some op => let '(code, dm) := sim_effect dm op in (Reply (ack code), dm)
  | None => (Reply (ack (-95)), dm)
  end.

Definition sim_flags (d : link) : Z := (if l_up d then 1 else 0) + (if l_noarp d then 128 else 0).

Definition sim_ioctl (dm : links) (req : Z) (ifr : ifreq) : Z * ifreq * links :=
  let n := c_str (ifr_name ifr) in
  match dm !! n with
  | None => (-1, ifr, dm)
  | Some d =>
      if req =? SIOCGIFFLAGS then (0, mkIfreq (ifr_name ifr) (IfrFlags (sim_flags d)), dm)
      else
        match ifr_ifru ifr with
        | IfrHwaddr _ data =>
            if req =? SIOCSIFHWADDR then (0, ifr, <[n := with_mac (take 6 data) d]> dm) else (-1, ifr, dm)
        | IfrMtu m => if req =? SIOCSIFMTU then (0, ifr, <[n := with_mtu m d]> dm) else (-1, ifr, dm)
        | IfrFlags f =>
            if req =? SIOCSIFFLAGS
            then (0, ifr, <[n := with_flags (Z.testbit f 0) (Z.testbit f 7) d]> dm) else (-1, ifr, dm)
        | _ => (-1, ifr, dm)
        end
  end.

#[global] Instance sim_kernel : NetKernel links := {|
  nk_index dm n := from_option l_index 0 (dm !! n);
  nk_sysfs _ _ := None;
  nk_request := sim_request;
  nk_socket _ := true;
  nk_ioctl := sim_ioctl;
  nk_write dm _ _ := (true, dm)
|}.

(** ** The laws *)

Lemma top_index_ge dm n d : dm !! n = Some d → l_index d ≤ top_index dm.
Proof.
  intros Hd. apply elem_of_map_to_list in Hd. unfold top_index. revert Hd.
  induction (map_to_list dm) as [|[n' d'] l IH]; [by intros ?%not_elem_of_nil|].
  intros [[= -> ->]|Hd]%elem_of_cons; cbn; [lia|]. specialize (IH Hd). cbn in IH. lia.
Qed.

Lemma top_index_reached dm : 0 < top_index dm → ∃ n d, dm !! n = Some d ∧ l_index d = top_index dm.
Proof.
  unfold top_index. assert (Hin : ∀ nd, nd ∈ map_to_list dm → dm !! nd.1 = Some nd.2)
    by (intros []; apply elem_of_map_to_list). revert Hin.
  induction (map_to_list dm) as [|[n' d'] l IH]; intros Hin Ht; cbn in *; [lia|].
  destruct (Z.max_spec (l_index d') (foldr Z.max 0 ((λ nd, l_index nd.2) <$> l))) as [[? E]|[? E]].
  - rewrite E in *. apply IH; [|done]. intros nd Hnd. apply Hin. by right.
  - exists n', d'. split; [|cbn in *; lia]. apply (Hin (n', d')). by left.
Qed.

Lemma top_index_nonneg dm : 0 ≤ top_index dm.
Proof. unfold top_index. induction (map_to_list dm) as [|nd l IH]; cbn in *; lia. Qed.

Section find.
  Context (P : link → Prop) `{∀ d, Decision (P d)}.

Lemma find_link_Some dm n d : find_link P dm = Some (n, d) → dm !! n = Some d ∧ P d.
Proof.
  unfold find_link. intros ([i [n' d']] & Hf & [= -> ->])%fmap_Some.
  apply list_find_Some in Hf as (Hl & HP & _). split; [|done].
  apply elem_of_map_to_list. by apply list_elem_of_lookup_2 in Hl.
Qed.

Lemma find_link_None dm : find_link P dm = None → map_Forall (λ _ d, ¬ P d) dm.
Proof.
  unfold find_link. intros Hf%fmap_None n d Hd. apply list_find_None in Hf.
  apply elem_of_map_to_list in Hd. by apply (proj1 (Forall_forall _ _) Hf) in Hd.
Qed.
End find.

Lemma sim_effect_spec dm op : nl_effect dm op (sim_effect dm op).1 (sim_effect dm op).2.
Proof.
  destruct op as [n p|idx|idx t v|idx prefix local peer|idx ip mac]; cbn [sim_effect].
  - case_decide as Hb; [by apply eff_bad_names|]. case_decide as He; [by apply eff_exists|]. cbv zeta.
    pose proof (top_index_nonneg dm) as H0.
    destruct (Z.leb_spec (2 ^ 31 - 2) (top_index dm)) as [Ht|Ht].
    + destruct (top_index_reached dm) as (y & d & Hd & Hi); [lia|]. eapply eff_no_index; [done|exact Hd|].
      by rewrite Hi.
    + assert (Hun : ∀ i, top_index dm < i → unused i dm).
      { intros i Hi y d Hd. pose proof (top_index_ge dm y d Hd). lia. }
      assert (dm !! n = None ∧ dm !! p = None) as [Hn Hp].
      { split; apply eq_None_not_Some; intros ?; apply He; [by left|by right]. }
      assert (n ≠ p ∧ valid_name n ∧ valid_name p) as (Hnp & Hvn & Hvp).
      { split; [naive_solver|]. destruct (decide (valid_name n)); [|naive_solver].
        destruct (decide (valid_name p)); naive_solver. }
      apply eff_new_veth; try done; [split; [cbn; lia|done]|split; [cbn; lia|done]|apply Hun; cbn; lia
        |apply Hun; cbn; lia|cbn; lia].
  - destruct (find_link _ dm) as [[n d]|] eqn:Hf.
    + apply find_link_Some in Hf as (Hd & <- & Hp). destruct (l_peer d) as [p|] eqn:Hpd; [|done].
      by eapply eff_delete.
    + apply eff_keep; [done|]. apply find_link_None in Hf. intros y d Hd <-. specialize (Hf y d Hd). cbn in Hf.
      destruct (l_peer d); [|done]. by destruct Hf.
  - apply eff_set_link.
  - destruct (find_link _ dm) as [[n d]|] eqn:Hf.
    + apply find_link_Some in Hf as (Hd & <-). case_decide; [|by apply eff_addr_more].
      case_decide as Hc; [destruct Hc as (? & ? & ?); by apply eff_addr|]. apply eff_addr_bad; [done|]. right.
      destruct (decide (prefix ≤ 32)); [right|left; lia].
      destruct (decide (length local = 4%nat)); [right|by left]. naive_solver.
    + apply eff_addr_bad; [done|]. left. apply find_link_None in Hf. exact Hf.
  - destruct (find_link _ dm) as [[n d]|] eqn:Hf.
    + apply find_link_Some in Hf as (Hd & <-). case_decide; [|by apply eff_neigh_more].
      case_decide as Hc; [destruct Hc as (? & ?); by apply eff_neigh|]. apply eff_neigh_bad; [done|]. right.
      destruct (decide (length ip = 4%nat)); [right|by left]. naive_solver.
    + apply eff_neigh_bad; [done|]. left. apply find_link_None in Hf. exact Hf.
Qed.

Lemma sim_effect_code dm op : (sim_effect dm op).1 ∈ [0; -12; -17; -19; -22; -95].
Proof.
  destruct op; cbn [sim_effect]; repeat first [case_decide|case_match]; cbn; set_solver.
Qed.

Lemma ack_is_ack code : code ∈ [0; -12; -17; -19; -22; -95] → is_ack (Reply (ack code)) code.
Proof.
  intros Hc. exists (ack code). repeat (apply elem_of_cons in Hc as [->|Hc]; [by split_and!; try lia|]).
  by apply not_elem_of_nil in Hc.
Qed.

Lemma sim_request_spec dm msg op : decode_request msg = Some op →
  ∃ code, is_ack (sim_request dm msg).1 code ∧ nl_effect dm op code (sim_request dm msg).2.
Proof.
  intros Hop. unfold sim_request. rewrite Hop. exists (sim_effect dm op).1.
  pose proof (sim_effect_spec dm op) as He. pose proof (sim_effect_code dm op) as Hc.
  destruct (sim_effect dm op) as [code dm']. cbn in *. split; [by apply ack_is_ack|done].
Qed.

Lemma sim_flags_bits d : Z.testbit (sim_flags d) 0 = l_up d ∧ Z.testbit (sim_flags d) 7 = l_noarp d.
Proof. unfold sim_flags. by destruct (l_up d), (l_noarp d). Qed.

#[global] Instance sim_kernel_laws : NetKernelLaws links.
Proof.
  refine {| devs := λ dm, dm |}; cbn [nk_index nk_request nk_socket nk_ioctl nk_write sim_kernel snd].
  - done.
  - intros dm msg op. apply sim_request_spec.
  - done.
  - intros dm ifr n d mac <- Hd _ Hm _ Hu. unfold sim_ioctl. rewrite Hd, Hu. cbn.
    by rewrite take_app_length'.
  - intros dm ifr n d mtu <- Hd _ Hu. unfold sim_ioctl. by rewrite Hd, Hu.
  - intros dm ifr n d <- Hd. exists (sim_flags d). unfold sim_ioctl. rewrite Hd.
    by destruct (sim_flags_bits d) as [-> ->].
  - intros dm ifr n d f <- Hd _ Hu. unfold sim_ioctl. by rewrite Hd, Hu.
  - intros dm ifr. unfold sim_ioctl. destruct (dm !! _) as [d|]; [|done]. by destruct (ifr_ifru ifr).
  - done.
Defined.
