(* ===== verification/Tun.v ===== *)
(** * tun.rs: the veth pair of the tunnel

    The point-to-point peer of an address, hardware addresses made from
    addresses, and the creation of the pair on a kernel ([Links.NetKernel]). *)

From stdpp Require Import gmap.
From S2P Require Import Prelude Words Slices Text Results StrOps Net Netlink Links.
Local Open Scope Z_scope.

Inductive terr :=
| ECidr | EPrefixLen | EIpv4 | ENetBroadcast | EAutoPeer
| ECreate (e : nerr) | EAssign (e : nerr) | ENeighbor (e : nerr).

(** [s.split_once(c)] *)
Definition split_once (c : Z) (s : list Z) : option (list Z * list Z) :=
  i ← find_byte c s; Some (take i s, drop (S i) s).

Definition parse_octets (ip_str : list Z) : res terr (list Z) :=
  octets ← mapR (λ s, ok_or (parse_uint u8_max s) EIpv4) (split_byte DOT ip_str);
  _ ← ensure (length octets =? 4)%nat EIpv4;
  Ok octets.

(** [!0u32 << (32 - prefix)]: the subtraction wraps in eight bits and the
    shift takes its amount modulo 32. *)
Definition mask_of (prefix : Z) : Z :=
  if prefix =? 0 then 0 else shl 32 (bnot 32 0) (Z.land (wrap 8 (32 - prefix)) 31).

Definition compute_p2p_peer (cidr : list Z) : res terr (list Z * list Z * Z) :=
  '(ip_str, prefix_str) ← ok_or (split_once 47 cidr) ECidr;
  prefix ← ok_or (parse_uint u8_max prefix_str) EPrefixLen;
  octets ← parse_octets ip_str;
  let ip := Z.lor (Z.lor (Z.lor (shl 32 (octets !!! 0%nat) 24) (shl 32 (octets !!! 1%nat) 16))
                         (shl 32 (octets !!! 2%nat) 8)) (octets !!! 3%nat) in
  let mask := mask_of prefix in
  let network := Z.land ip mask in
  let host_part := Z.land ip (bnot 32 mask) in
  let max_host := bnot 32 mask in
  peer ←
    (if prefix =? 31 then Ok (Z.lor network (Z.lxor host_part 1))
     else if 30 <=? prefix then
       if (host_part =? 0) || (host_part =? max_host) then Err ENetBroadcast
       else Ok (Z.lor network (if host_part =? 1 then 2 else 1))
     else Err EAutoPeer);
  let peer_str := join [DOT] [dec (Z.land (shr peer 24) 0xff); dec (Z.land (shr peer 16) 0xff);
                              dec (Z.land (shr peer 8) 0xff); dec (Z.land peer 0xff)] in
  Ok (ip_str, peer_str, prefix).

Definition mac_from_ipv4 (ip_str : list Z) : res terr (list Z) :=
  octets ← parse_octets ip_str;
  Ok [0x02; 0x47; octets !!! 0%nat; octets !!! 1%nat; octets !!! 2%nat; octets !!! 3%nat].

(** [{:02x}] *)
Definition hex_byte (b : Z) : list Z := [hex_digit (b / 16); hex_digit (b mod 16)].
Definition mac_to_string (mac : list Z) : list Z := join [COLON] (hex_byte <$> mac).

Section veth.
  Context {K : Type} `{NetKernel K}.
  Local Abbreviation M := (KM K terr).

Definition infallible (m : KM K nerr unit) : M unit := km_map_err ECreate m.

(** Creates the pair; when that fails and one of the names is taken, deletes
    the stale links and creates it again. *)
Definition create_or_replace (peer_name xdp_name : list Z) : M unit := λ k,
  match veth_create peer_name xdp_name k with
  | (Ok _, k) => (Ok tt, k)
  | (Abort, k) => (Abort, k)
  | (Err _, k) =>
      let is_ok (r : res nerr Z) := match r with Ok _ => true | _ => false end in
      let had_conflict := is_ok (get_ifindex (view k) peer_name) || is_ok (get_ifindex (view k) xdp_name) in
      (_ ← when had_conflict
             (_ ← infallible (link_delete xdp_name); infallible (link_delete peer_name));
       km_map_err ECreate (veth_create peer_name xdp_name)) k
  end.

Definition disable_rp_filter (ifname : list Z) : M unit := λ k,
  (Ok tt, (nk_write k (bs "/proc/sys/net/ipv4/conf/" ++ ifname ++ bs "/rp_filter") (bs "0")).2).

(** The hardware addresses and, with a tunnel address, the two addresses. *)
Definition tunnel_addresses (address : option (list Z))
    : res terr (list Z * list Z * option (list Z * list Z * Z)) :=
  match address with
  | Some addr =>
      '(local_ip, peer_ip, prefix) ← compute_p2p_peer addr;
      lmac ← mac_from_ipv4 local_ip;
      xmac ← mac_from_ipv4 peer_ip;
      Ok (lmac, xmac, Some (local_ip, peer_ip, prefix))
  | None => Ok ([0x02; 0x47; 0x55; 0x54; 0x31; 0x00], [0x02; 0x47; 0x55; 0x54; 0x32; 0x00], None)
  end.

Definition assign_addresses (peer_name xdp_name xdp_mac : list Z) (p2p : option (list Z * list Z * Z))
    : M unit :=
  match p2p with
  | Some (local_ip, peer_ip, prefix) =>
      _ ← km_map_err EAssign (addr_add_p2p_v4 peer_name local_ip peer_ip prefix);
      _ ← km_map_err ENeighbor (neigh_add_v4_permanent peer_name peer_ip xdp_mac);
      _ ← infallible (link_set_noarp peer_name);
      infallible (link_set_noarp xdp_name)
  | None => mret tt
  end.

Definition create_veth_pair (peer_name xdp_name : list Z) (mtu : Z) (address : option (list Z))
    : M (list Z * list Z) :=
  '(local_mac, xdp_mac, p2p_info) ← of_res (tunnel_addresses address);
  _ ← create_or_replace peer_name xdp_name;
  _ ← ignore (link_set_mac peer_name local_mac);
  _ ← ignore (link_set_mac xdp_name xdp_mac);
  _ ← ignore (link_set_mtu peer_name mtu);
  _ ← ignore (link_set_mtu xdp_name mtu);
  _ ← infallible (link_disable_offloads peer_name);
  _ ← infallible (link_disable_offloads xdp_name);
  _ ← infallible (link_set_gso_max_segs peer_name 1);
  _ ← infallible (link_set_gso_max_segs xdp_name 1);
  _ ← assign_addresses peer_name xdp_name xdp_mac p2p_info;
  _ ← disable_rp_filter peer_name;
  _ ← disable_rp_filter xdp_name;
  _ ← infallible (link_set_up xdp_name);
  _ ← infallible (link_set_up peer_name);
  mret (local_mac, xdp_mac).

Definition destroy_veth (xdp_name : list Z) : M unit := infallible (link_delete xdp_name).
End veth.
