(* ===== verification/TunProofs.v ===== *)
(** * The veth pair is set up as tun.rs means to

    The two ends of a /30 or /31 compute each other as the peer, hardware
    addresses survive printing and parsing, and on every kernel that keeps
    [LinksSpec.NetKernelLaws] the pair is created with its settings, whatever
    links were left over. *)

From stdpp Require Import gmap.
From S2P Require Import Prelude Words Slices Text Results StrOps Net Netlink Links LinksSpec SimKernel Tun.
Local Open Scope Z_scope.

(** ** The peer's address *)

Lemma dec_avoids c n : 0 ≤ n → is_digit c = false → Forall (λ b, b ≠ c) (dec n).
Proof.
  intros Hn Hc. eapply Forall_impl; [by apply dec_digits|]. intros b Hb ->. cbn in Hb. by rewrite Hc in Hb.
Qed.

Lemma four_octets {A} (l : list A) : length l = 4%nat → ∃ a b c d, l = [a; b; c; d].
Proof. destruct l as [|a [|b [|c [|d [|]]]]]; try done. intros _. by exists a, b, c, d. Qed.

Lemma parse_octets_show o : length o = 4%nat → bytes o → parse_octets (show_ipv4 o) = Ok o.
Proof.
  intros Hl Hb. unfold parse_octets, show_ipv4. rewrite split_byte_join.
  - rewrite (mapR_fmap_id _ dec). rewrite res_bind_Ok, Hl. done.
    + intros x Hx. destruct (proj1 (Forall_forall _ _) Hb x Hx) as [H0 H1].
      change (2 ^ 8) with 256 in H1. rewrite parse_uint_dec; [done|unfold u8_max; lia|done].
  - by destruct o.
  - apply Forall_fmap. eapply Forall_impl; [exact Hb|]. intros x [Hx _]. by apply dec_avoids.
Qed.

Lemma show_ipv4_no_slash o : bytes o → Forall (λ b, b ≠ 47) (show_ipv4 o).
Proof.
  intros Hb. apply Forall_join; [by apply Forall_singleton|]. apply Forall_fmap.
  eapply Forall_impl; [exact Hb|]. intros x [Hx _]. by apply dec_avoids.
Qed.

Lemma split_once_app c a b : Forall (λ x, x ≠ c) a → split_once c (a ++ c :: b) = Some (a, b).
Proof.
  intros Ha. unfold split_once. rewrite find_byte_app by done. cbn.
  by rewrite take_app_length, drop_app_ge, Nat.sub_succ_l, Nat.sub_diag by lia.
Qed.

(** The address as a number, and the bits below and above the mask. *)
Definition ip_num (a b c d : Z) : Z := ((a * 256 + b) * 256 + c) * 256 + d.

Lemma ip_lor a b c d : is_u8 a → is_u8 b → is_u8 c → is_u8 d →
  Z.lor (Z.lor (Z.lor (shl 32 a 24) (shl 32 b 16)) (shl 32 c 8)) d = ip_num a b c d.
Proof.
  unfold in_width, ip_num. change (2 ^ 8) with 256. intros Ha Hb Hc Hd.
  assert (Hs : ∀ x n, 0 ≤ n → 0 ≤ x * 2 ^ n < 2 ^ 32 → shl 32 x n = x * 2 ^ n).
  { intros x n Hn Hl. unfold shl. rewrite Z.shiftl_mul_pow2 by done. by apply wrap_small. }
  rewrite (Hs a 24), (Hs b 16), (Hs c 8) by lia.
  rewrite (lor_add a (b * 2 ^ 16) 24) by lia.
  replace (a * 2 ^ 24 + b * 2 ^ 16) with ((a * 256 + b) * 2 ^ 16) by lia.
  rewrite (lor_add _ (c * 2 ^ 8) 16) by lia.
  replace ((a * 256 + b) * 2 ^ 16 + c * 2 ^ 8) with (((a * 256 + b) * 256 + c) * 2 ^ 8) by lia.
  rewrite (lor_add _ d 8) by lia. lia.
Qed.

Lemma land_high x k : 0 ≤ k → 0 ≤ x < 2 ^ 32 →
  Z.land x (Z.ldiff (Z.ones 32) (Z.ones k)) = (x / 2 ^ k) * 2 ^ k.
Proof.
  intros Hk Hx. rewrite <- Z.shiftr_div_pow2, <- Z.shiftl_mul_pow2 by lia.
  rewrite <- Z.ldiff_ones_r by lia. rewrite !Z.ldiff_land, Z.land_assoc.
  rewrite (Z.land_ones x 32) by lia. by rewrite Z.mod_small.
Qed.

(** The last octet of the peer. *)
Definition peer_octet (prefix d : Z) : Z :=
  if prefix =? 31 then (if d mod 2 =? 0 then d + 1 else d - 1)
  else if d mod 4 =? 1 then d + 1 else d - 1.

Lemma octet_texts_of a b c d : is_u8 a → is_u8 b → is_u8 c → is_u8 d →
  join [DOT] [dec (Z.land (shr (ip_num a b c d) 24) 0xff); dec (Z.land (shr (ip_num a b c d) 16) 0xff);
              dec (Z.land (shr (ip_num a b c d) 8) 0xff); dec (Z.land (ip_num a b c d) 0xff)]
  = show_ipv4 [a; b; c; d].
Proof.
  unfold in_width. change (2 ^ 8) with 256. intros Ha Hb Hc Hd.
  assert (Hl : ∀ x, Z.land x 0xff = x mod 256) by (intros; by apply (Z.land_ones _ 8)).
  unfold shr. rewrite !Z.shiftr_div_pow2, !Hl by lia.
  change (2 ^ 24) with 16777216. change (2 ^ 16) with 65536. change (2 ^ 8) with 256.
  unfold show_ipv4. cbn [fmap list_fmap].
  replace (ip_num a b c d / 16777216 mod 256) with a by (unfold ip_num; dlia).
  replace (ip_num a b c d / 65536 mod 256) with b by (unfold ip_num; dlia).
  replace (ip_num a b c d / 256 mod 256) with c by (unfold ip_num; dlia).
  replace (ip_num a b c d mod 256) with d by (unfold ip_num; dlia). done.
Qed.

Lemma peer_octet_u8 prefix d : is_u8 d → prefix = 31 ∨ d mod 4 = 1 ∨ d mod 4 = 2 →
  is_u8 (peer_octet prefix d).
Proof.
  unfold in_width, peer_octet. change (2 ^ 8) with 256. intros Hd Hc.
  destruct (Z.eqb_spec prefix 31); destruct (Z.eqb_spec (d mod 2) 0); destruct (Z.eqb_spec (d mod 4) 1); dlia.
Qed.

Lemma peer_31 a b c d : let ip := ip_num a b c d in
  Z.lor (ip / 2 * 2) (Z.lxor (ip mod 2) 1) = ip_num a b c (peer_octet 31 d).
Proof.
  cbv zeta. assert (Hm : ip_num a b c d mod 2 = d mod 2) by (unfold ip_num; dlia).
  assert (Hq : ip_num a b c d = ip_num a b c d / 2 * 2 + d mod 2) by dlia. rewrite Hm.
  unfold peer_octet. cbn [Z.eqb Pos.eqb]. pose proof (Z.mod_pos_bound d 2 ltac:(lia)).
  destruct (Z.eqb_spec (d mod 2) 0) as [E|E].
  - rewrite E in *. change (Z.lxor 0 1) with 1. rewrite (lor_add _ 1 1) by lia.
    change (2 ^ 1) with 2. unfold ip_num in *. lia.
  - replace (d mod 2) with 1 in * by lia. change (Z.lxor 1 1) with 0. rewrite Z.lor_0_r.
    unfold ip_num in *. lia.
Qed.

Lemma peer_30 a b c d : let ip := ip_num a b c d in d mod 4 = 1 ∨ d mod 4 = 2 →
  Z.lor (ip / 4 * 4) (if ip mod 4 =? 1 then 2 else 1) = ip_num a b c (peer_octet 30 d).
Proof.
  cbv zeta. intros Hc. assert (Hm : ip_num a b c d mod 4 = d mod 4) by (unfold ip_num; dlia).
  assert (Hq : ip_num a b c d = ip_num a b c d / 4 * 4 + d mod 4) by dlia. rewrite Hm.
  unfold peer_octet. cbn [Z.eqb Pos.eqb].
  destruct (Z.eqb_spec (d mod 4) 1) as [E|E];
    [rewrite (lor_add _ 2 2) by lia|rewrite (lor_add _ 1 2) by lia];
    change (2 ^ 2) with 4; unfold ip_num in *; lia.
Qed.

(** The other octet is of the same network, and its other octet is this one. *)
Lemma peer_octet_other prefix d : prefix = 31 ∨ prefix = 30 ∧ (d mod 4 = 1 ∨ d mod 4 = 2) →
  peer_octet prefix d ≠ d ∧ peer_octet prefix (peer_octet prefix d) = d ∧
  (peer_octet prefix d) / 2 ^ (32 - prefix) = d / 2 ^ (32 - prefix) ∧
  (prefix = 31 ∨ prefix = 30 ∧ (peer_octet prefix d mod 4 = 1 ∨ peer_octet prefix d mod 4 = 2)).
Proof.
  unfold peer_octet. intros [->|[-> Hh]]; cbn [Z.eqb Pos.eqb].
  - change (2 ^ (32 - 31)) with 2. destruct (Z.eqb_spec (d mod 2) 0).
    + destruct (Z.eqb_spec ((d + 1) mod 2) 0); [dlia|]. split_and!; [dlia..|by left].
    + destruct (Z.eqb_spec ((d - 1) mod 2) 0); [|dlia]. split_and!; [dlia..|by left].
  - change (2 ^ (32 - 30)) with 4. destruct (Z.eqb_spec (d mod 4) 1).
    + destruct (Z.eqb_spec ((d + 1) mod 4) 1); [dlia|]. split_and!; [dlia..|right; split; [done|dlia]].
    + destruct (Z.eqb_spec ((d - 1) mod 4) 1); [|dlia]. split_and!; [dlia..|right; split; [done|dlia]].
Qed.

(** The result for a printed address. *)
Lemma compute_p2p_peer_show a b c d prefix : is_u8 a → is_u8 b → is_u8 c → is_u8 d → 0 ≤ prefix ≤ 32 →
  compute_p2p_peer (show_ipv4 [a; b; c; d] ++ 47 :: dec prefix)
  = if (prefix =? 31) || ((prefix =? 30) && ((d mod 4 =? 1) || (d mod 4 =? 2)))
    then Ok (show_ipv4 [a; b; c; d], show_ipv4 [a; b; c; peer_octet prefix d], prefix)
    else if 30 <=? prefix then Err ENetBroadcast else Err EAutoPeer.
Proof.
  intros Ha Hb Hc Hd Hp. assert (Ho : bytes [a; b; c; d]) by (repeat (apply Forall_cons; split; [done|]); constructor).
  unfold compute_p2p_peer. rewrite split_once_app by (by apply show_ipv4_no_slash). cbn [ok_or].
  rewrite res_bind_Ok, parse_uint_dec by (unfold u8_max; lia). cbn [ok_or]. rewrite res_bind_Ok.
  rewrite parse_octets_show, res_bind_Ok by done. cbn [lookup_total list_lookup_total]. cbv zeta.
  rewrite ip_lor by done.
  assert (Hip : 0 ≤ ip_num a b c d < 2 ^ 32)
    by (unfold ip_num, in_width in *; change (2 ^ 8) with 256 in *; lia).
  assert (Hm : ip_num a b c d mod 4 = d mod 4) by (unfold ip_num; dlia).
  destruct (Z.eqb_spec prefix 31) as [->|H31].
  { cbn [orb]. change (mask_of 31) with (Z.ldiff (Z.ones 32) (Z.ones 1)).
    change (bnot 32 _) with (Z.ones 1). rewrite land_high, Z.land_ones by lia. change (2 ^ 1) with 2.
    rewrite res_bind_Ok, peer_31, octet_texts_of; [done..|]. apply peer_octet_u8; [done|by left]. }
  destruct (Z.leb_spec 30 prefix) as [H30|H30]; [|by destruct (Z.eqb_spec prefix 30); [lia|]].
  destruct (Z.eqb_spec prefix 30) as [->|Hn30].
  { cbn [orb andb]. change (mask_of 30) with (Z.ldiff (Z.ones 32) (Z.ones 2)).
    change (bnot 32 _) with (Z.ones 2). rewrite land_high, Z.land_ones by lia. change (2 ^ 2) with 4.
    rewrite Hm. pose proof (Z.mod_pos_bound d 4 ltac:(lia)).
    destruct ((d mod 4 =? 0) || (d mod 4 =? Z.ones 2)) eqn:E; change (Z.ones 2) with 3 in E.
    - replace ((d mod 4 =? 1) || (d mod 4 =? 2)) with false; [done|]. lia.
    - assert (Hh : d mod 4 = 1 ∨ d mod 4 = 2) by lia.
      replace ((d mod 4 =? 1) || (d mod 4 =? 2)) with true by lia. rewrite res_bind_Ok.
      rewrite <- Hm, peer_30, octet_texts_of by done || (apply peer_octet_u8; [done|by right]). done. }
  assert (prefix = 32) as -> by lia. cbn [orb andb].
  change (Z.land (ip_num a b c d) (bnot 32 (mask_of 32))) with (Z.land (ip_num a b c d) 0).
  by rewrite Z.land_0_r.
Qed.

(** The peer of a tunnel address.  For a dotted address with prefix length 30
    or 31 the other host address of the same network is computed, and on the
    other side the same computation gives this address back, so the two ends
    agree; network and broadcast addresses of a /30, a /32 and shorter prefixes
    are errors. *)
Theorem p2p_peer_symmetric o prefix : length o = 4%nat → bytes o → 0 ≤ prefix ≤ 32 →
  match compute_p2p_peer (show_ipv4 o ++ 47 :: dec prefix) with
  | Ok (local, peer, q) =>
      ∃ o', local = show_ipv4 o ∧ peer = show_ipv4 o' ∧ q = prefix ∧ (prefix = 30 ∨ prefix = 31) ∧
        o' ≠ o ∧ bytes o' ∧ take 3 o' = take 3 o ∧
        (o' !!! 3%nat) / 2 ^ (32 - prefix) = (o !!! 3%nat) / 2 ^ (32 - prefix) ∧
        compute_p2p_peer (show_ipv4 o' ++ 47 :: dec prefix) = Ok (show_ipv4 o', show_ipv4 o, prefix)
  | Err e => e = EAutoPeer ∧ prefix < 30 ∨
             e = ENetBroadcast ∧ (prefix = 32 ∨ prefix = 30 ∧ ((o !!! 3%nat) mod 4 = 0 ∨ (o !!! 3%nat) mod 4 = 3))
  | Abort => False
  end.
Proof.
  intros Hl Hb Hp. destruct (four_octets o Hl) as (a & b & c & d & ->).
  assert (Hbs : is_u8 a ∧ is_u8 b ∧ is_u8 c ∧ is_u8 d).
  { by repeat match goal with H : bytes (_ :: _) |- _ => apply Forall_cons in H as [? H] end. }
  destruct Hbs as (Ha & Hb' & Hc & Hd). rewrite compute_p2p_peer_show by done.
  cbn [lookup_total list_lookup_total]. pose proof (Z.mod_pos_bound d 4 ltac:(lia)) as Hmod.
  destruct (_ || _) eqn:E.
  - assert (Hcase : prefix = 31 ∨ prefix = 30 ∧ (d mod 4 = 1 ∨ d mod 4 = 2)) by lia.
    assert (Hd' : is_u8 (peer_octet prefix d)).
    { apply peer_octet_u8; [done|]. destruct Hcase as [?|[_ ?]]; [by left|by right]. }
    pose proof (peer_octet_other prefix d Hcase) as Hfact.
    destruct Hfact as (Hne & Hinv & Hnet & Hcase'). exists [a; b; c; peer_octet prefix d].
    split_and!; try done; [lia|congruence|by repeat (apply Forall_cons; split; [done|])|].
    assert (Ht : (prefix =? 31) || ((prefix =? 30) && ((peer_octet prefix d mod 4 =? 1)
      || (peer_octet prefix d mod 4 =? 2))) = true) by lia.
    by rewrite compute_p2p_peer_show, Ht, Hinv by done.
  - destruct (Z.leb_spec 30 prefix); [right|by left]. split; [done|]. lia.
Qed.

Lemma p2p_peer_symmetric_witness :
  match compute_p2p_peer (show_ipv4 [10; 99; 0; 1] ++ 47 :: dec 30) with
  | Ok (local, peer, q) =>
      ∃ o', local = show_ipv4 [10; 99; 0; 1] ∧ peer = show_ipv4 o' ∧ q = 30 ∧ (30 = 30 ∨ 30 = 31) ∧
        o' ≠ [10; 99; 0; 1] ∧ bytes o' ∧ take 3 o' = [10; 99; 0] ∧
        (o' !!! 3%nat) / 2 ^ (32 - 30) = 1 / 2 ^ (32 - 30) ∧
        compute_p2p_peer (show_ipv4 o' ++ 47 :: dec 30) = Ok (show_ipv4 o', show_ipv4 [10; 99; 0; 1], 30)
  | _ => False
  end.
Proof.
  assert (Hb : bytes [10; 99; 0; 1]) by (apply (bool_decide_eq_true _); reflexivity).
  exact (p2p_peer_symmetric [10; 99; 0; 1] 30 eq_refl Hb (conj (Zle_bool_imp_le 0 30 eq_refl)
    (Zle_bool_imp_le 30 32 eq_refl))).
Defined.

(** ** Hardware addresses *)

Lemma mac_byte_parse b : is_u8 b → from_str_radix 16 u8_max (hex_byte b) = Some b.
Proof.
  intros [H0 H1]. change (2 ^ 8) with 256 in H1.
  assert (Hall : forallb (λ i, bool_decide (from_str_radix 16 u8_max (hex_byte (Z.of_nat i)) = Some (Z.of_nat i)))
    (seq 0 256) = true) by (vm_compute; done).
  rewrite forallb_forall in Hall. specialize (Hall (Z.to_nat b)). rewrite Z2Nat.id in Hall by done.
  apply bool_decide_eq_true in Hall; [done|]. apply in_seq. lia.
Qed.

Lemma hex_digit_plain n c : 0 ≤ n < 16 → is_alnum c = false → hex_digit n ≠ c.
Proof. intros Hn Hc <-. by rewrite hex_digit_alnum in Hc. Qed.

Lemma mac_text_roundtrip mac : length mac = 6%nat → bytes mac → parse_mac (mac_to_string mac) = Ok mac.
Proof.
  intros Hl Hb. unfold parse_mac, mac_to_string. change 58 with COLON. rewrite split_byte_join.
  - rewrite length_fmap, Hl. cbn [Nat.eqb negb]. apply mapR_fmap_id. intros b Hx.
    rewrite mac_byte_parse; [done|]. by apply (proj1 (Forall_forall _ _) Hb).
  - by destruct mac.
  - apply Forall_fmap. eapply Forall_impl; [exact Hb|]. intros b [H0 H1]. change (2 ^ 8) with 256 in H1.
    repeat (apply Forall_cons; split; [apply hex_digit_plain; [dlia|done]|]). constructor.
Qed.

(** ** Creating the pair *)

Section pair.
  Context {K : Type} {HK : NetKernel K} {HL : NetKernelLaws K}.
  Context (n x : list Z) (Hn : valid_name n) (Hx : valid_name x) (Hnx : n ≠ x).

Lemma drop_link_self y dm : links_wf dm → (∀ d, dm !! y = Some d → l_peer d ≠ None) →
  drop_link y dm !! y = None.
Proof.
  intros Hwf Hv. unfold drop_link. destruct (dm !! y) as [d|] eqn:Hd; [|done].
  destruct (l_peer d) as [p|] eqn:Hp; [|by destruct (Hv d)].
  destruct (Hwf y d Hd) as (_ & _ & Hpd). rewrite Hp in Hpd. destruct Hpd as [Hpy _].
  by rewrite lookup_delete_ne, lookup_delete_eq.
Qed.

Lemma drop_link_None y z dm : dm !! z = None → drop_link y dm !! z = None.
Proof. intros Hz. destruct (drop_link y dm !! z) as [d|] eqn:Hd; [|done]. apply drop_link_Some in Hd. congruence. Qed.

(** The links that stay. *)
Definition kept (dm : links) : links := drop_link n (drop_link x dm).

Definition pair_of (dm : links) (d e : link) : links := <[n := d]> (<[x := e]> dm).

Lemma create_or_replace_spec k : links_wf (devs k) → room (devs k) →
  (∀ y d, y = n ∨ y = x → devs k !! y = Some d → l_peer d ≠ None) →
  ∃ d e, new_end d x ∧ new_end e n ∧ links_wf (pair_of (kept (devs k)) d e) ∧
    runs (create_or_replace n x) k tt (pair_of (kept (devs k)) d e).
Proof.
  intros Hwf Hroom Hv. set (dm := devs k) in *. unfold runs, create_or_replace.
  assert (Hwf1 : links_wf (drop_link x dm)) by by apply drop_link_wf.
  assert (Hwf2 : links_wf (kept dm)) by by apply drop_link_wf.
  assert (Hkx : kept dm !! x = None).
  { apply drop_link_None, drop_link_self; [done|]. intros d. apply Hv. by right. }
  assert (Hkn : kept dm !! n = None).
  { apply drop_link_self; [done|]. intros d Hd. apply drop_link_Some in Hd. apply (Hv n d); [by left|done]. }
  assert (Hroom2 : room (kept dm)) by by apply drop_link_room, drop_link_room.
  assert (Hnew : ∀ k', devs k' = kept dm → ∃ d e, new_end d x ∧ new_end e n ∧
    links_wf (pair_of (kept dm) d e) ∧ runs (veth_create n x) k' tt (pair_of (kept dm) d e)).
  { intros k' Hk'. destruct (veth_create_fresh n x k') as (d & e & Hd & He & Hud & Hue & Hde & Hr);
      rewrite ?Hk'; try done. rewrite Hk' in *. exists d, e. split_and!; try done. by apply links_wf_new. }
  destruct (decide (is_Some (dm !! n) ∨ is_Some (dm !! x))) as [Hs|Hs].
  - destruct (veth_create_conflict n x k Hn Hx Hs) as (er & k1 & Hc & Hk1). fold dm in Hk1.
    destruct (link_delete_spec x k1 Hx) as (k2 & Hr2 & Hk2); [by rewrite Hk1|].
    destruct (link_delete_spec n k2 Hn) as (k3 & Hr3 & Hk3); [by rewrite Hk2, Hk1|].
    destruct (Hnew k3) as (d & e & Hd & He & Hwfp & k4 & Hr4 & Hk4); [by rewrite Hk3, Hk2, Hk1|].
    exists d, e. split_and!; try done. exists k4. split; [|done]. rewrite Hc.
    assert (Hconf : (match get_ifindex (view k1) n with Ok _ => true | _ => false end)
      || (match get_ifindex (view k1) x with Ok _ => true | _ => false end) = true).
    { destruct Hs as [[dn Hdn]|[dx Hdx]].
      - destruct (Hwf n dn Hdn) as (Hi & _). rewrite (get_ifindex_known k1 n dn); [done|by rewrite Hk1|apply Hn|done].
      - destruct (Hwf x dx Hdx) as (Hi & _). rewrite (get_ifindex_known k1 x dx), orb_true_r;
          [done|by rewrite Hk1|apply Hx|done]. }
    cbv zeta. rewrite Hconf. unfold when, infallible, km_map_err, mbind, KM_bind.
    by rewrite Hr2; cbn; rewrite Hr3; cbn; rewrite Hr4.
  - assert (Hkept : kept dm = dm).
    { unfold kept, drop_link. destruct (dm !! x) eqn:Ex; [by destruct Hs; right|].
      destruct (dm !! n) eqn:En; [by destruct Hs; left|done]. }
    destruct (Hnew k) as (d & e & Hd & He & Hwfp & k4 & Hr4 & Hk4); [by rewrite Hkept|].
    exists d, e. split_and!; try done. exists k4. by rewrite Hr4.
Qed.

(** Settings of one end leave the other alone. *)
Lemma pair_n dm d e : pair_of dm d e !! n = Some d.
Proof. apply lookup_insert_eq. Qed.
Lemma pair_x dm d e : pair_of dm d e !! x = Some e.
Proof. unfold pair_of. by rewrite lookup_insert_ne, lookup_insert_eq. Qed.
Lemma pair_set_n dm d e d' : <[n := d']> (pair_of dm d e) = pair_of dm d' e.
Proof. apply insert_insert_eq. Qed.
Lemma pair_set_x dm d e e' : <[x := e']> (pair_of dm d e) = pair_of dm d e'.
Proof. unfold pair_of. by rewrite insert_insert_ne, insert_insert_eq. Qed.

Lemma pair_wf dm d e d' e' : links_wf (pair_of dm d e) → l_index d' = l_index d → l_peer d' = l_peer d →
  l_index e' = l_index e → l_peer e' = l_peer e → links_wf (pair_of dm d' e').
Proof.
  intros Hwf ? ? ? ?. rewrite <- (pair_set_n dm d e'), <- (pair_set_x dm d e e').
  apply (links_wf_update n d); [apply (links_wf_update x e)|..]; rewrite ?pair_set_x, ?pair_n, ?pair_x; done.
Qed.

Lemma runs_eq {E A} (m : KM K E A) k a M M' : runs m k a M → M = M' → runs m k a M'.
Proof. by intros ? <-. Qed.

Lemma runs_infallible m k M : runs m k tt M → runs (infallible m) k tt M.
Proof. apply runs_map_err. Qed.

(** The settings that do not depend on the addresses. *)
Lemma basic_settings_spec {B} (f : unit → KM K terr B) dm d e lmac xmac mtu k b M :
  devs k = pair_of dm d e → links_wf (pair_of dm d e) → l_neigh d = [] → l_neigh e = [] →
  length lmac = 6%nat → length xmac = 6%nat → Z.testbit (lmac !!! 0%nat) 0 = false →
  Z.testbit (xmac !!! 0%nat) 0 = false → 68 ≤ mtu ≤ 65535 →
  (∀ k, devs k = pair_of dm (with_mtu mtu (with_mac lmac d)) (with_mtu mtu (with_mac xmac e)) → runs (f tt) k b M) →
  runs (_ ← ignore (link_set_mac n lmac);
        _ ← ignore (link_set_mac x xmac);
        _ ← ignore (link_set_mtu n mtu);
        _ ← ignore (link_set_mtu x mtu);
        _ ← infallible (link_disable_offloads n);
        _ ← infallible (link_disable_offloads x);
        _ ← infallible (link_set_gso_max_segs n 1);
        u ← infallible (link_set_gso_max_segs x 1);
        f u) k b M.
Proof.
  intros Hk Hwf Hgd Hge Hl Hxl Hlb Hxb Hmtu Hf.
  eapply runs_bind; [eapply runs_eq; [apply (link_set_mac_spec n d)|rewrite Hk; apply pair_set_n];
    try done; rewrite Hk; apply pair_n|]. intros k1 Hk1.
  eapply runs_bind; [eapply runs_eq; [apply (link_set_mac_spec x e)|rewrite Hk1; apply pair_set_x];
    try done; rewrite Hk1; apply pair_x|]. intros k2 Hk2.
  eapply runs_bind; [eapply runs_eq; [eapply link_set_mtu_spec|rewrite Hk2; apply pair_set_n];
    try done; rewrite Hk2; apply pair_n|]. intros k3 Hk3.
  eapply runs_bind; [eapply runs_eq; [eapply link_set_mtu_spec|rewrite Hk3; apply pair_set_x];
    try done; rewrite Hk3; apply pair_x|]. intros k4 Hk4.
  assert (Hwf4 : links_wf (devs k4)) by (rewrite Hk4; by eapply pair_wf).
  eapply runs_bind; [apply runs_infallible, link_disable_offloads_spec|]. intros k5 Hk5.
  eapply runs_bind; [apply runs_infallible, link_disable_offloads_spec|]. intros k6 Hk6.
  rewrite Hk5 in Hk6. rewrite <- Hk6 in Hwf4.
  eapply runs_bind; [apply runs_infallible, set_gso_spec; [by split|done|apply Hn]|]. intros k7 Hk7.
  rewrite <- Hk7 in Hwf4.
  eapply runs_bind; [apply runs_infallible, set_gso_spec; [by split|done|apply Hx]|]. intros k8 Hk8.
  apply Hf. by rewrite Hk8, Hk7, Hk6, Hk4.
Qed.

(** The last steps: reverse-path filtering off, both ends up. *)
Lemma bring_up_spec {B} (b : B) dm d e k : devs k = pair_of dm d e →
  runs (_ ← disable_rp_filter n;
        _ ← disable_rp_filter x;
        _ ← infallible (link_set_up x);
        _ ← infallible (link_set_up n);
        mret b) k b (pair_of dm (with_flags true (l_noarp d) d) (with_flags true (l_noarp e) e)).
Proof.
  intros Hk.
  assert (Hrp : ∀ y k, runs (disable_rp_filter y) k tt (devs k)).
  { intros y k0. eexists. split; [done|]. by rewrite law_write. }
  eapply runs_bind; [apply Hrp|]. intros k1 Hk1. eapply runs_bind; [apply Hrp|]. intros k2 Hk2.
  rewrite Hk1, Hk in Hk2.
  eapply runs_bind; [eapply runs_infallible, runs_eq;
    [apply (add_iface_flags_spec x e); [done|rewrite Hk2; apply pair_x|by right]
    |rewrite Hk2; apply pair_set_x]|].
  intros k3 Hk3.
  eapply runs_bind; [eapply runs_infallible, runs_eq;
    [apply (add_iface_flags_spec n d); [done|rewrite Hk3; apply pair_n|by right]
    |rewrite Hk3; apply pair_set_n]|].
  intros k4 Hk4. eapply runs_eq; [apply runs_ret|]. rewrite Hk4.
  change (Z.testbit IFF_UP 0) with true. change (Z.testbit IFF_UP 7) with false.
  by rewrite !orb_true_r, !orb_false_r.
Qed.

Lemma assign_addresses_spec dm d e o o' prefix mac k : devs k = pair_of dm d e → links_wf (pair_of dm d e) →
  l_addr d = [] → l_neigh d = [] → l_up d = false → l_up e = false → prefix ≤ 32 →
  length o = 4%nat → bytes o → length o' = 4%nat → bytes o' → length mac = 6%nat →
  runs (assign_addresses n x mac (Some (show_ipv4 o, show_ipv4 o', prefix))) k tt
    (pair_of dm (with_flags false true (with_neighs [(o', mac)] (with_addrs [(o, o', prefix)] d)))
             (with_flags false true e)).
Proof.
  intros Hk Hwf Had Hnd Hud Hue Hp Hol Hob Hol' Hob' Hm. unfold assign_addresses.
  assert (Hparse : ∀ a, length a = 4%nat → bytes a → parse_ipv4 (show_ipv4 a) = Some a).
  { intros a Ha Hb. by apply parse_ipv4_show. }
  eapply runs_bind; [eapply runs_map_err, runs_eq;
    [apply (addr_add_spec n d o o'); rewrite ?Hk; auto using pair_n|rewrite Hk; apply pair_set_n]|].
  intros k1 Hk1. assert (Hwf1 : links_wf (devs k1)) by (rewrite Hk1; by eapply pair_wf).
  eapply runs_bind; [eapply runs_map_err, runs_eq;
    [apply (neigh_add_spec n (with_addrs [(o, o', prefix)] d) o'); auto; rewrite Hk1; apply pair_n
    |rewrite Hk1; apply pair_set_n]|].
  intros k2 Hk2.
  eapply runs_bind; [eapply runs_infallible, runs_eq;
    [apply add_iface_flags_spec; [done|rewrite Hk2; apply pair_n|by left]
    |rewrite Hk2; apply pair_set_n]|].
  intros k3 Hk3.
  eapply runs_infallible, runs_eq;
    [apply add_iface_flags_spec; [done|rewrite Hk3; apply pair_x|by left]
    |rewrite Hk3, pair_set_x].
  change (Z.testbit IFF_NOARP 0) with false. change (Z.testbit IFF_NOARP 7) with true.
  cbn [l_up l_noarp with_neighs with_addrs]. by rewrite Hud, Hue, !orb_true_r, !orb_false_r.
Qed.

Lemma drop_link_keeps z y dy dm : links_wf dm → dm !! y = Some dy → y ≠ z → l_peer dy ≠ Some z →
  drop_link z dm !! y = Some dy.
Proof.
  intros Hwf Hy Hyz Hp. unfold drop_link. destruct (dm !! z) as [d|] eqn:Hd; [|done].
  destruct (l_peer d) as [p|] eqn:Hpd; [|done]. rewrite lookup_delete_ne; [by rewrite lookup_delete_ne|].
  intros ->. destruct (Hwf z d Hd) as (_ & _ & Hpp). rewrite Hpd, Hy in Hpp. by destruct Hpp.
Qed.

Lemma kept_keeps y dy dm : links_wf dm → dm !! y = Some dy → y ≠ n → y ≠ x → l_peer dy ≠ Some n →
  l_peer dy ≠ Some x → kept dm !! y = Some dy.
Proof.
  intros Hwf Hy Hyn Hyx Hpn Hpx. apply drop_link_keeps; [by apply drop_link_wf| |done..].
  by apply drop_link_keeps.
Qed.

(** What an end looks like after the setup. *)
Definition end_ready (dm : links) (name peer mac : list Z) (mtu : Z) (noarp : bool)
    (addrs : list (list Z * list Z * Z)) (neighs : list (list Z * list Z)) : Prop :=
  ∃ d, dm !! name = Some d ∧ l_peer d = Some peer ∧ l_mac d = mac ∧ l_mtu d = mtu ∧ l_up d = true ∧
       l_noarp d = noarp ∧ l_addr d = addrs ∧ l_neigh d = neighs.

(** Both ends are ready and the other links are as they were. *)
Definition pair_ready (before after : links) (mtu : Z) (lmac xmac : list Z) (noarp : bool)
    (addrs : list (list Z * list Z * Z)) (neighs : list (list Z * list Z)) : Prop :=
  end_ready after n x lmac mtu noarp addrs neighs ∧ end_ready after x n xmac mtu noarp [] [] ∧
  links_wf after ∧
  (∀ y d, before !! y = Some d → y ≠ n → y ≠ x → l_peer d ≠ Some n → l_peer d ≠ Some x →
          after !! y = Some d).

Lemma pair_readyI dm d e d' e' mtu lmac xmac noarp addrs neighs :
  links_wf dm → links_wf (pair_of (kept dm) d e) → new_end d x → new_end e n →
  d' = mkLink (l_index d) (Some x) lmac mtu true noarp addrs neighs →
  e' = mkLink (l_index e) (Some n) xmac mtu true noarp [] [] →
  pair_ready dm (pair_of (kept dm) d' e') mtu lmac xmac noarp addrs neighs.
Proof.
  intros Hwf Hwfp (_ & Hdp & _) (_ & Hep & _) -> ->. split_and!.
  - eexists. by split_and!; [apply pair_n|..].
  - eexists. by split_and!; [apply pair_x|..].
  - by eapply pair_wf.
  - intros y dy Hy Hyn Hyx Hpn Hpx. unfold pair_of. rewrite !lookup_insert_ne by done. by apply kept_keeps.
Qed.

Lemma tunnel_addresses_Some cidr o o' prefix :
  compute_p2p_peer cidr = Ok (show_ipv4 o, show_ipv4 o', prefix) → length o = 4%nat → bytes o →
  length o' = 4%nat → bytes o' →
  tunnel_addresses (Some cidr)
  = Ok (0x02 :: 0x47 :: o, 0x02 :: 0x47 :: o', Some (show_ipv4 o, show_ipv4 o', prefix)).
Proof.
  intros Hc Hl Hb Hl' Hb'. unfold tunnel_addresses, mac_from_ipv4. rewrite Hc, res_bind_Ok. cbv beta iota.
  rewrite !parse_octets_show, !res_bind_Ok by done.
  destruct (four_octets o Hl) as (? & ? & ? & ? & ->).
  by destruct (four_octets o' Hl') as (? & ? & ? & ? & ->).
Qed.

Lemma runs_of_res_bind {E A B} (r : res E A) (f : A → KM K E B) a k b M :
  r = Ok a → runs (f a) k b M → runs (of_res r ≫= f) k b M.
Proof. by intros ->. Qed.

Lemma create_with_address k mtu cidr o o' prefix : links_wf (devs k) → room (devs k) →
  (∀ y d, y = n ∨ y = x → devs k !! y = Some d → l_peer d ≠ None) → 68 ≤ mtu ≤ 65535 →
  compute_p2p_peer cidr = Ok (show_ipv4 o, show_ipv4 o', prefix) → prefix ≤ 32 → length o = 4%nat →
  bytes o → length o' = 4%nat → bytes o' →
  ∃ M, runs (create_veth_pair n x mtu (Some cidr)) k (0x02 :: 0x47 :: o, 0x02 :: 0x47 :: o') M ∧
    pair_ready (devs k) M mtu (0x02 :: 0x47 :: o) (0x02 :: 0x47 :: o') true [(o, o', prefix)]
      [(o', 0x02 :: 0x47 :: o')].
Proof.
  intros Hwf Hroom Hv Hmtu Hc Hp Hl Hb Hl' Hb'.
  destruct (create_or_replace_spec k) as (d & e & Hd & He & Hwfp & Hr); [done..|].
  pose proof Hd as (_ & Hdp & Hdu & Hdn & Hda & Hdg). pose proof He as (_ & Hep & Heu & Hen & Hea & Heg).
  eexists. split.
  - unfold create_veth_pair. eapply runs_of_res_bind; [by apply tunnel_addresses_Some|]. cbv beta iota.
    eapply runs_bind; [exact Hr|]. intros k1 Hk1.
    eapply basic_settings_spec; [exact Hk1|done|done|done|cbn; by rewrite Hl|cbn; by rewrite Hl'|done|done|done|].
    intros k2 Hk2.
    eapply runs_bind; [eapply assign_addresses_spec; [exact Hk2|by eapply pair_wf|done..|cbn; by rewrite Hl']|].
    intros k3 Hk3. apply bring_up_spec. exact Hk3.
  - eapply pair_readyI; try done; unfold with_flags, with_neighs, with_addrs, with_mtu, with_mac; cbn; by rewrite ?Hdp, ?Hep, ?Hea, ?Heg.
Qed.

Lemma create_without_address k mtu : links_wf (devs k) → room (devs k) →
  (∀ y d, y = n ∨ y = x → devs k !! y = Some d → l_peer d ≠ None) → 68 ≤ mtu ≤ 65535 →
  let lmac := [0x02; 0x47; 0x55; 0x54; 0x31; 0x00] in let xmac := [0x02; 0x47; 0x55; 0x54; 0x32; 0x00] in
  ∃ M, runs (create_veth_pair n x mtu None) k (lmac, xmac) M ∧
    pair_ready (devs k) M mtu lmac xmac false [] [].
Proof.
  intros Hwf Hroom Hv Hmtu.
  destruct (create_or_replace_spec k) as (d & e & Hd & He & Hwfp & Hr); [done..|].
  pose proof Hd as (_ & Hdp & Hdu & Hdn & Hda & Hdg). pose proof He as (_ & Hep & Heu & Hen & Hea & Heg).
  eexists. split.
  - unfold create_veth_pair. eapply runs_of_res_bind; [done|]. cbv beta iota.
    eapply runs_bind; [exact Hr|]. intros k1 Hk1.
    eapply basic_settings_spec; [exact Hk1|done..|]. intros k2 Hk2.
    eapply runs_bind; [apply runs_ret|]. intros k3 Hk3. apply bring_up_spec. by rewrite Hk3, Hk2.
  - eapply pair_readyI; try done; unfold with_flags, with_neighs, with_addrs, with_mtu, with_mac; cbn; by rewrite ?Hdp, ?Hep, ?Hdn, ?Hen, ?Hda, ?Hdg, ?Hea, ?Heg.
Qed.
End pair.


(** A kernel with an interface of its own and a pair left over from an earlier
    run. *)
Definition stale_links : links :=
  <[bs "eth0" := mkLink 2 None [2; 0; 0; 0; 0; 9] 1500 true false [] []]>
    (<[bs "gut0" := sim_end 5 (bs "gut0_xdp")]> (<[bs "gut0_xdp" := sim_end 6 (bs "gut0")]> ∅)).

#[global] Instance links_wf_dec dm : Decision (links_wf dm).
Proof.
  unfold links_wf. apply map_Forall_dec. intros n d. apply and_dec; [apply _|]. apply and_dec; [apply _|].
  destruct (l_peer d) as [p|]; [|apply _]. apply and_dec; [apply _|]. destruct (dm !! p); apply _.
Defined.

