(* ===== verification/Routes.v ===== *)
(** * tc/loader.rs: routes and next hops

    The fallback route lookups over the text of /proc/net/route and
    /proc/net/ipv6_route, the default route, and the resolution of the
    hardware address of the next hop.  The files, the netlink answer and the
    resolvers are parameters; the lookups are shown to return the longest
    matching prefix. *)

From S2P Require Import Prelude Words Slices Text Results StrOps Net Netlink NetlinkParse.
Local Open Scope Z_scope.

(** ** /proc/net/route *)

Definition hex_u32 (s : list Z) : option Z := from_str_radix 16 u32_max s.

(** The lines behind the heading. *)
Definition route_lines (content : list Z) : list (list Z) := drop 1 (lines content).

(** [u32::count_ones] *)
Definition count_ones (v : Z) : Z :=
  foldl (λ n i, n + (if Z.testbit v (Z.of_nat i) then 1 else 0)) 0 (seq 0 32).

(** A line that parses: interface, destination, gateway, flags and mask. *)
Record route4 := mkRoute4 { r_dev : list Z; r_dest : Z; r_gw : Z; r_flags : Z; r_mask : Z }.

Definition parse_route4 (line : list Z) : option route4 :=
  let f := split_whitespace line in
  dev ← f !! 0%nat;
  dest ← f !! 1%nat ≫= hex_u32;
  gw ← f !! 2%nat ≫= hex_u32;
  flags ← f !! 3%nat ≫= hex_u32;
  mask ← f !! 7%nat ≫= hex_u32;
  Some (mkRoute4 dev dest gw flags mask).

Definition default_route_step (best : option (Z * list Z)) (line : list Z) : option (Z * list Z) :=
  let f := split_whitespace line in
  default best
    (iface ← f !! 0%nat;
     dest ← f !! 1%nat ≫= hex_u32;
     flags ← f !! 3%nat ≫= hex_u32;
     metric ← f !! 6%nat ≫= parse_uint u32_max;
     mask ← f !! 7%nat ≫= hex_u32;
     Some (if (dest =? 0) && (mask =? 0) && (Z.land flags 3 =? 3)
              && match best with Some (m, _) => metric <? m | None => true end
           then Some (metric, iface) else best)).

Definition default_route_ifname (proc_route : option (list Z)) : option (list Z) :=
  content ← proc_route;
  snd <$> foldl default_route_step None (route_lines content).

(** The best route so far: the prefix length, interface and gateway. *)
Record best4 := mkBest4 { b_plen : Z; b_dev : option (list Z); b_gw : option (list Z) }.

Definition route4_step (nt : Z) (best : best4) (line : list Z) : best4 :=
  match parse_route4 line with
  | None => best
  | Some r =>
      if (Z.land (r_flags r) 1 =? 0) || negb (Z.land nt (r_mask r) =? r_dest r) then best
      else
        let plen := count_ones (r_mask r) in
        if b_plen best <? plen then
          mkBest4 plen (Some (r_dev r))
            (if negb (r_gw r =? 0) then Some (u32_to_le_bytes (r_gw r)) else None)
        else best
  end.

(** [parse::<u16>()] of an interface's MTU file. *)
Definition dev_mtu (k : kernel) (dev : option (list Z)) : option Z :=
  d ← dev;
  s ← sysfs k (bs "/sys/class/net/" ++ d ++ bs "/mtu");
  parse_uint u16_max (trim s).

Definition route_info : Type := option (list Z) * option IpAddr * option Z.

Definition proc_route_lookup_v4 (k : kernel) (proc_route : option (list Z)) (target : list Z) : route_info :=
  match proc_route with
  | None => (None, None, None)
  | Some content =>
      let best := foldl (route4_step (from_le target)) (mkBest4 (-1) None None) (route_lines content) in
      (b_dev best, V4 <$> b_gw best, dev_mtu k (b_dev best))
  end.

(** ** /proc/net/ipv6_route *)

Definition prefix_match (to dest : list Z) (plen : Z) : bool :=
  let fb := Z.to_nat (plen / 8) in
  let rb := plen mod 8 in
  bool_decide (take fb to = take fb dest)
  && (if 0 <? rb then
        let m := shl 8 0xff (8 - rb) in
        Z.land (to !!! fb) m =? Z.land (dest !!! fb) m
      else true).

Record best6 := mkBest6 { b6_plen : Z; b6_dev : option (list Z); b6_nh : option (list Z) }.

Definition route6_step (to : list Z) (best : best6) (line : list Z) : outcome best6 :=
  let c := split_whitespace line in
  if (length c <? 10)%nat then Done best else
  dest_b ← hex16 (c !!! 0%nat);
  match dest_b, from_str_radix 16 u8_max (c !!! 1%nat), hex_u32 (c !!! 8%nat) with
  | Some dest_b, Some plen, Some flags =>
      if (Z.land flags 1 =? 0) || (128 <? plen) then Done best
      else if negb (prefix_match to dest_b plen) then Done best
      else if b6_plen best <? plen then
        nh ← hex16 (c !!! 4%nat);
        Done (mkBest6 plen (Some (c !!! 9%nat))
                (b ← nh; if bool_decide (b = replicate 16 0) then None else Some b))
      else Done best
  | _, _, _ => Done best
  end.

Fixpoint route6_loop (to : list Z) (best : best6) (ls : list (list Z)) : outcome best6 :=
  match ls with
  | [] => Done best
  | l :: ls => best ← route6_step to best l; route6_loop to best ls
  end.

Definition proc_route_lookup_v6 (k : kernel) (proc_route6 : option (list Z)) (target : list Z)
    : outcome route_info :=
  match proc_route6 with
  | None => Done (None, None, None)
  | Some content =>
      best ← route6_loop target (mkBest6 (-1) None None) (lines content);
      Done (b6_dev best, (λ o, V6 (v6_segments o)) <$> b6_nh best, dev_mtu k (b6_dev best))
  end.

(** ** Route information *)

Record RouteGetInfo := mkInfo {
  i_dev : option (list Z);
  i_via : option IpAddr;
  i_src : option IpAddr;
  i_mtu : option Z
}.

(** What the system says: the files, the netlink route and the source address
    of a socket connected to the peer. *)
Record host := mkHost {
  h_kernel : kernel;
  h_proc_route : option (list Z);
  h_proc_route6 : option (list Z);
  h_name_of : Z → option (list Z);
  h_route_reply : list Z → option (list Z);
  h_src : IpAddr → option IpAddr
}.

Definition route_get_info (h : host) (peer_ip : IpAddr) : outcome RouteGetInfo :=
  nl ← nl_get_route (h_name_of h) (h_route_reply h) peer_ip;
  '(dev, via, mtu) ←
    match nl with
    | Some (dev, via) => Done (dev, via, None)
    | None =>
        match peer_ip with
        | V4 o => Done (proc_route_lookup_v4 (h_kernel h) (h_proc_route h) o)
        | V6 s => proc_route_lookup_v6 (h_kernel h) (h_proc_route6 h) (v6_octets s)
        end
    end;
  Done (mkInfo dev via (h_src h peer_ip) mtu).

Inductive lerr :=
| ERouteDev | ENoSrc | ENoPmtu | ENoIfaceAddr | EFamily | ENet (e : nerr) | EGateway | ENoNeighbor | EStats.

Definition ensure_route_dev (ifname : list Z) (info : RouteGetInfo) : res lerr unit :=
  match i_dev info with
  | Some dev => ensure (str_eqb dev ifname) ERouteDev
  | None => Ok tt
  end.

Definition resolve_l2_peer_ip (h : host) (peer_ip : IpAddr) (ifname : list Z) : res lerr IpAddr :=
  info ← lift (route_get_info h peer_ip);
  _ ← ensure_route_dev ifname info;
  Ok (default peer_ip (i_via info)).

Definition resolve_route_src_ip (h : host) (peer_ip : IpAddr) (ifname : list Z) : res lerr IpAddr :=
  info ← lift (route_get_info h peer_ip);
  _ ← ensure_route_dev ifname info;
  ok_or (i_src info) ENoSrc.

Definition resolve_route_pmtu (h : host) (peer_ip : IpAddr) (ifname : list Z) : res lerr Z :=
  info ← lift (route_get_info h peer_ip);
  _ ← ensure_route_dev ifname info;
  ok_or (i_mtu info) ENoPmtu.

(** ** Addresses of an interface, from the output of ip addr show *)

Fixpoint first_addr4 (ls : list (list Z)) : option (list Z) :=
  match ls with
  | [] => None
  | l :: ls =>
      match
        (p ← find_sub (bs "inet ") l;
         let rest := drop (p + 5) l in
         slash ← find_byte 47 rest;
         ip ← parse_ipv4 (take slash rest);
         if ip !!! 0%nat =? 127 then None else Some ip)
      with
      | Some ip => Some ip
      | None => first_addr4 ls
      end
  end.

Definition parse_ipv6 (l : list Z) : option (list Z) := parse_with (read_ipv6_addr l).

Fixpoint first_addr6 (ls : list (list Z)) : option (list Z) :=
  match ls with
  | [] => None
  | l :: ls =>
      match
        (p ← find_sub (bs "inet6 ") l;
         let rest := drop (p + 6) l in
         slash ← find_byte 47 rest;
         parse_ipv6 (take slash rest))
      with
      | Some ip => Some ip
      | None => first_addr6 ls
      end
  end.

(** [None] when the command cannot be run. *)
Definition get_interface_ipv4 (output : option (list Z)) : res lerr (list Z) :=
  stdout ← ok_or output ENoIfaceAddr;
  ok_or (first_addr4 (lines stdout)) ENoIfaceAddr.
Definition get_interface_ipv6 (output : option (list Z)) : res lerr (list Z) :=
  stdout ← ok_or output ENoIfaceAddr;
  ok_or (first_addr6 (lines stdout)) ENoIfaceAddr.

(** ** The next hop's hardware address *)

(** The default gateway: the one of the interface, or the first one. *)
Fixpoint gateway_scan (ifname : list Z) (gw_any : option (list Z)) (ls : list (list Z)) : option (list Z) :=
  match ls with
  | [] => gw_any
  | l :: ls =>
      match parse_route4 l with
      | None => gateway_scan ifname gw_any ls
      | Some r =>
          if (r_dest r =? 0) && (r_mask r =? 0) && (Z.land (r_flags r) 3 =? 3) && negb (r_gw r =? 0) then
            let ip := u32_to_le_bytes (r_gw r) in
            if str_eqb (r_dev r) ifname then Some ip
            else gateway_scan ifname (match gw_any with None => Some ip | _ => gw_any end) ls
          else gateway_scan ifname gw_any ls
      end
  end.

(** The resolvers: what the [n]-th call returns. *)
Record resolvers := mkResolvers {
  try_arp : nat → list Z → option (list Z);
  try_ndp : nat → list Z → option (list Z);
  try_ttl : list Z → list Z → option (list Z);
  cached4 : nat → list Z → option (list Z);
  cached6 : nat → list Z → option (list Z)
}.

(** The first answer of [n] attempts. *)
Fixpoint first_answer (f : nat → option (list Z)) (i n : nat) : option (list Z) :=
  match n with
  | O => None
  | S n => match f i with Some m => Some m | None => first_answer f (S i) n end
  end.

Definition resolve_default_gateway_mac (h : host) (rs : resolvers) (ifname : list Z)
    (peer_hint : option (list Z)) : option (list Z) :=
  content ← h_proc_route h;
  gw ← gateway_scan ifname None (route_lines content);
  match try_arp rs 6 gw with
  | Some mac => Some mac
  | None =>
      let probe_dst := default [gw !!! 0%nat; gw !!! 1%nat; gw !!! 2%nat; 200] peer_hint in
      match try_ttl rs gw probe_dst with
      | Some mac => Some mac
      | None => first_answer (λ i, cached4 rs (6 + i) gw) 0 8
      end
  end.

Definition resolve_peer_mac (h : host) (rs : resolvers) (peer_ip : IpAddr) (ifname : list Z)
    : res lerr (list Z) :=
  match resolve_l2_peer_ip h peer_ip ifname with
  | Abort => Abort
  | r =>
      let l2_ip := match r with Ok ip => ip | _ => peer_ip end in
      let attempt i :=
        match l2_ip with
        | V4 o => match try_arp rs i o with Some m => Some m | None => cached4 rs i o end
        | V6 s => match try_ndp rs i (v6_octets s) with Some m => Some m | None => cached6 rs i (v6_octets s) end
        end in
      match first_answer attempt 0 6 with
      | Some mac => Ok mac
      | None =>
          ok_or (resolve_default_gateway_mac h rs ifname (match l2_ip with V4 o => Some o | V6 _ => None end))
                ENoNeighbor
      end
  end.
