(* ===== verification/RoutesProofs.v ===== *)
(** * The route lookups return the longest matching prefix

    Both fallback lookups are shown to pick the first of the routes with the
    longest prefix among the lines that parse, are up and match the address;
    an IPv6 route matches exactly when the bits of its prefix agree. *)

From S2P Require Import Prelude Words Slices Text Results StrOps Net Netlink NetlinkParse Config ConfigProofs Routes.
Local Open Scope Z_scope.

(** ** The first of the longest *)

(** [r] is the first element of [l] with the largest measure. *)
Definition first_max {R} (f : R → Z) (l : list R) (r : R) : Prop :=
  ∃ l1 l2, l = l1 ++ r :: l2 ∧ Forall (λ x, f x < f r) l1 ∧ Forall (λ x, f x ≤ f r) l2.

(** The loop that keeps the best so far. *)
Definition best_step {R} (f : R → Z) (b : option R) (x : R) : option R :=
  match b with
  | Some r => if f r <? f x then Some x else b
  | None => Some x
  end.

Lemma first_max_snoc {R} (f : R → Z) l r x : first_max f l r →
  first_max f (l ++ [x]) (if f r <? f x then x else r).
Proof.
  intros (l1 & l2 & -> & H1 & H2). destruct (Z.ltb_spec (f r) (f x)) as [Hlt|Hge].
  - exists (l1 ++ r :: l2), []. split; [done|]. split; [|constructor]. apply Forall_app. split.
    + eapply Forall_impl; [exact H1|]. cbn. intros. lia.
    + constructor; [lia|]. eapply Forall_impl; [exact H2|]. cbn. intros. lia.
  - exists l1, (l2 ++ [x]). split; [by rewrite <- app_assoc|]. split; [done|]. apply Forall_app.
    split; [done|]. by apply Forall_singleton.
Qed.

Lemma best_step_first_max {R} (f : R → Z) l :
  match foldl (best_step f) None l with
  | Some r => first_max f l r
  | None => l = []
  end.
Proof.
  induction l as [|x l IH] using rev_ind; [done|]. rewrite foldl_snoc. unfold best_step at 1.
  destruct (foldl (best_step f) None l) as [r|].
  - apply (first_max_snoc f l r x) in IH. by destruct (f r <? f x).
  - subst l. exists [], []. split; [done|]. split; constructor.
Qed.

(** ** IPv4 *)

Definition matches4 (target : list Z) (r : route4) : bool :=
  negb (Z.land (r_flags r) 1 =? 0) && (Z.land (from_le target) (r_mask r) =? r_dest r).
Definition plen4 (r : route4) : Z := count_ones (r_mask r).
Definition gateway4 (r : route4) : option (list Z) :=
  if r_gw r =? 0 then None else Some (u32_to_le_bytes (r_gw r)).

(** The routes of a table that match an address. *)
Definition table4 (target content : list Z) : list route4 :=
  filter (λ r, matches4 target r = true) (omap parse_route4 (route_lines content)).

Lemma count_ones_nonneg v : 0 ≤ count_ones v.
Proof.
  unfold count_ones. assert (H : ∀ l n, 0 ≤ n →
    0 ≤ foldl (λ n i, n + (if Z.testbit v (Z.of_nat i) then 1 else 0)) n l).
  { intros l. induction l as [|i l IH]; intros n Hn; [done|]. cbn. apply IH. destruct (Z.testbit v _); lia. }
  by apply H.
Qed.

#[local] Opaque count_ones.

(** What the loop remembers of the best route. *)
Definition best_of4 (b : option route4) : best4 :=
  match b with
  | Some r => mkBest4 (plen4 r) (Some (r_dev r)) (gateway4 r)
  | None => mkBest4 (-1) None None
  end.

Lemma route4_step_spec target b l :
  route4_step (from_le target) (best_of4 b) l
  = best_of4 (match parse_route4 l with
              | Some r => if matches4 target r then best_step plen4 b r else b
              | None => b
              end).
Proof.
  unfold route4_step, matches4. destruct (parse_route4 l) as [r|]; [|done].
  destruct (Z.land (r_flags r) 1 =? 0); [done|]. destruct (_ =? r_dest r); [|done]. cbn [negb orb andb].
  change (count_ones (r_mask r)) with (plen4 r). cbv zeta.
  destruct b as [r'|]; cbn [best_step best_of4 b_plen].
  - destruct (plen4 r' <? plen4 r); [|done]. unfold best_of4, gateway4. by destruct (r_gw r =? 0).
  - destruct (Z.ltb_spec (-1) (plen4 r)); [|pose proof (count_ones_nonneg (r_mask r)); unfold plen4 in *; lia].
    unfold best_of4, gateway4. by destruct (r_gw r =? 0).
Qed.

Lemma route4_fold target ls b :
  foldl (route4_step (from_le target)) (best_of4 b) ls
  = best_of4 (foldl (best_step plen4) b (filter (λ r, matches4 target r = true) (omap parse_route4 ls))).
Proof.
  revert b. induction ls as [|l ls IH]; intros b; [done|]. cbn [foldl]. rewrite route4_step_spec, IH.
  cbn [omap list_omap]. destruct (parse_route4 l) as [r|]; [|done].
  destruct (matches4 target r) eqn:E.
  - rewrite filter_cons_True by done. done.
  - rewrite filter_cons_False by (by rewrite E). done.
Qed.

(** ** IPv6 prefixes *)

(** Bit [j] of an address, from the left. *)
Definition bit_at (l : list Z) (j : Z) : bool := Z.testbit (l !!! Z.to_nat (j / 8)) (7 - j mod 8).

Lemma byte_eq_bits a b : is_u8 a → is_u8 b → (∀ i, 0 ≤ i < 8 → Z.testbit a i = Z.testbit b i) → a = b.
Proof.
  intros Ha Hb H. apply Z.bits_inj'. intros i Hi. destruct (decide (i < 8)); [by apply H|].
  by rewrite !(testbit_above 8) by (done || lia).
Qed.

(** The mask of the remaining [rb] bits. *)
Lemma rest_mask_bits rb i : 1 ≤ rb < 8 → 0 ≤ i < 8 →
  Z.testbit (shl 8 0xff (8 - rb)) i = (8 - rb <=? i).
Proof.
  intros Hr Hi.
  assert (Hrb : rb = 1 ∨ rb = 2 ∨ rb = 3 ∨ rb = 4 ∨ rb = 5 ∨ rb = 6 ∨ rb = 7) by lia.
  assert (Hii : i = 0 ∨ i = 1 ∨ i = 2 ∨ i = 3 ∨ i = 4 ∨ i = 5 ∨ i = 6 ∨ i = 7) by lia.
  destruct_or! Hrb; destruct_or! Hii; subst; reflexivity.
Qed.

Lemma prefix_match_bits to dest plen : length to = 16%nat → length dest = 16%nat → bytes to → bytes dest →
  0 ≤ plen ≤ 128 →
  prefix_match to dest plen = true ↔ ∀ j, 0 ≤ j < plen → bit_at to j = bit_at dest j.
Proof.
  intros Hto Hde Hbt Hbd Hp. unfold prefix_match, bit_at. cbv zeta.
  assert (Hu : ∀ l i, length l = 16%nat → bytes l → (i < 16)%nat → is_u8 (l !!! i)).
  { intros l i Hl Hb Hi. apply (Forall_lookup_total _ _ _ Hb). by rewrite Hl. }
  pose proof (Z.mod_pos_bound plen 8 ltac:(lia)) as Hm. pose proof (Z.div_mod plen 8 ltac:(lia)) as Hd.
  set (fb := Z.to_nat (plen / 8)). assert (Hfb : Z.of_nat fb = plen / 8) by (unfold fb; dlia).
  rewrite andb_true_iff, bool_decide_eq_true. split.
  - intros [Ht Hr] j Hj. destruct (decide (j / 8 < plen / 8)) as [Hlt|Hge].
    + assert (Hl : to !! Z.to_nat (j / 8) = dest !! Z.to_nat (j / 8)).
      { rewrite <- (lookup_take_lt to fb) by dlia. rewrite Ht. apply lookup_take_lt. dlia. }
      by rewrite !list_lookup_total_alt, Hl.
    + assert (Hq : j / 8 = plen / 8) by dlia. assert (Hjm : j mod 8 < plen mod 8) by dlia.
      destruct (Z.ltb_spec 0 (plen mod 8)); [|dlia]. apply Z.eqb_eq in Hr.
      rewrite Hq. fold fb. apply (f_equal (λ z, Z.testbit z (7 - j mod 8))) in Hr. cbv beta in Hr.
      rewrite !Z.land_spec, !rest_mask_bits in Hr by dlia.
      destruct (Z.leb_spec (8 - plen mod 8) (7 - j mod 8)); [|dlia]. by rewrite !andb_true_r in Hr.
  - intros Hj. assert (Hbyte : ∀ i, (i < fb)%nat → to !!! i = dest !!! i).
    { intros i Hi. apply byte_eq_bits; [apply Hu; [done|done|dlia]..|]. intros b Hb.
      specialize (Hj (8 * Z.of_nat i + (7 - b)) ltac:(dlia)).
      replace ((8 * Z.of_nat i + (7 - b)) / 8) with (Z.of_nat i) in Hj by dlia.
      replace ((8 * Z.of_nat i + (7 - b)) mod 8) with (7 - b) in Hj by dlia.
      rewrite Nat2Z.id in Hj. by replace (7 - (7 - b)) with b in Hj by lia. }
    split.
    + apply list_eq. intros i. destruct (decide (i < fb)%nat) as [Hi|Hi].
      * rewrite !lookup_take_lt by done. rewrite !list_lookup_lookup_total_lt by (rewrite ?Hto, ?Hde; dlia).
        by rewrite Hbyte.
      * by rewrite !lookup_take_ge by lia.
    + destruct (Z.ltb_spec 0 (plen mod 8)); [|done]. apply Z.eqb_eq.
      assert (Hfb16 : (fb < 16)%nat) by dlia. apply Z.bits_inj'. intros i Hi. rewrite !Z.land_spec.
      destruct (decide (i < 8)) as [Hi8|Hi8].
      * rewrite !rest_mask_bits by lia. destruct (Z.leb_spec (8 - plen mod 8) i); [|by rewrite !andb_false_r].
        rewrite !andb_true_r. specialize (Hj (plen / 8 * 8 + (7 - i)) ltac:(dlia)).
        replace ((plen / 8 * 8 + (7 - i)) / 8) with (plen / 8) in Hj by dlia.
        replace ((plen / 8 * 8 + (7 - i)) mod 8) with (7 - i) in Hj by dlia. fold fb in Hj.
        by replace (7 - (7 - i)) with i in Hj by lia.
      * by rewrite (testbit_above 8 (shl 8 _ _)), !andb_false_r by (lia || by apply wrap_range).
Qed.

(** ** IPv6 *)

Lemma Forall_words (P : Z → Prop) fuel cur l : Forall P cur → Forall P l →
  Forall (Forall P) (words_fuel fuel cur l).
Proof.
  revert cur l. induction fuel as [|fuel IH]; intros cur l Hc Hl; [constructor|]. cbn [words_fuel].
  assert (Hcur : Forall (Forall P) (if bool_decide (cur = []) then [] else [reverse cur])).
  { case_bool_decide; [constructor|]. apply Forall_singleton. by apply Forall_reverse. }
  destruct l as [|b l]; [done|]. destruct (list_find _ _) as [[i p]|].
  - apply Forall_app. split; [done|]. apply IH; [constructor|]. by apply Forall_drop.
  - apply Forall_cons in Hl as [Hb Hl]. apply IH; [by constructor|done].
Qed.

Lemma Forall_split_whitespace (P : Z → Prop) l i : Forall P l → (i < length (split_whitespace l))%nat →
  Forall P (split_whitespace l !!! i).
Proof. intros Hl. by apply (Forall_lookup_total (Forall P)), Forall_words. Qed.

Lemma hex16_from_total n s i : is_ascii s → (2 * (i + n) ≤ length s)%nat →
  ∃ r, hex16_from n s i = Done r ∧ (∀ b, r = Some b → length b = n ∧ bytes b).
Proof.
  intros Hs. revert i. induction n as [|n IH]; intros i Hi.
  { exists (Some []). split; [done|]. intros b [= <-]. split; [done|constructor]. }
  cbn [hex16_from]. unfold str_slice. rewrite !ascii_boundary by (done || lia).
  destruct (Nat.leb_spec (i * 2) (i * 2 + 2)); [|lia]. cbn [andb]. rewrite bind_Done.
  destruct (from_str_radix 16 u8_max _) as [v|] eqn:Hv; [|by exists None].
  apply from_str_radix_range in Hv; [|done|done].
  destruct (IH (S i)) as (r & -> & Hr); [lia|]. rewrite bind_Done. eexists. split; [done|].
  intros b Hbeq. destruct r as [r|]; [|done]. injection Hbeq as <-. destruct (Hr r eq_refl) as [Hl Hbr].
  split; [cbn; by rewrite Hl|]. constructor; [|done]. unfold in_width, u8_max in *. change (2 ^ 8) with 256. lia.
Qed.

(** The value of [hex16] when it does not panic. *)
Definition hex16_val (s : list Z) : option (list Z) :=
  match hex16 s with Done r => r | Panic => None end.

Lemma hex16_ascii s : is_ascii s → hex16 s = Done (hex16_val s) ∧
  (∀ b, hex16_val s = Some b → length b = 16%nat ∧ bytes b).
Proof.
  intros Hs. unfold hex16_val, hex16. destruct (Nat.eqb_spec (length s) 32) as [Hl|]; [|done].
  cbn [negb]. destruct (hex16_from_total 16 s 0 Hs) as (r & -> & Hr); [lia|]. done.
Qed.

(** A line of the table that is up. *)
Record route6 := mkRoute6 { r6_dev : list Z; r6_dest : list Z; r6_plen : Z; r6_nexthop : option (list Z) }.

Definition nexthop (s : list Z) : option (list Z) :=
  b ← hex16_val s; if bool_decide (b = replicate 16 0) then None else Some b.

Definition parse_route6 (line : list Z) : option route6 :=
  let c := split_whitespace line in
  if (length c <? 10)%nat then None else
  dest ← hex16_val (c !!! 0%nat);
  plen ← from_str_radix 16 u8_max (c !!! 1%nat);
  flags ← hex_u32 (c !!! 8%nat);
  if (Z.land flags 1 =? 0) || (128 <? plen) then None
  else Some (mkRoute6 (c !!! 9%nat) dest plen (nexthop (c !!! 4%nat))).

(** The first bits of the address are the route's prefix. *)
Definition in_prefix (target : list Z) (r : route6) : Prop :=
  ∀ j, 0 ≤ j < r6_plen r → bit_at target j = bit_at (r6_dest r) j.

Definition best_of6 (b : option route6) : best6 :=
  match b with
  | Some r => mkBest6 (r6_plen r) (Some (r6_dev r)) (r6_nexthop r)
  | None => mkBest6 (-1) None None
  end.

Lemma parse_route6_ok l r : is_ascii l → parse_route6 l = Some r →
  length (r6_dest r) = 16%nat ∧ bytes (r6_dest r) ∧ 0 ≤ r6_plen r ≤ 128.
Proof.
  intros Hl. unfold parse_route6. destruct (Nat.ltb_spec (length (split_whitespace l)) 10); [done|].
  assert (Hc : is_ascii (split_whitespace l !!! 0%nat)).
  { apply Forall_split_whitespace; [done|lia]. }
  destruct (hex16_ascii _ Hc) as [_ Hok]. destruct (hex16_val _) as [dest|]; [|done].
  destruct (Hok dest eq_refl) as [Hdl Hdb]. cbn [mbind option_bind].
  destruct (from_str_radix 16 u8_max _) as [plen|] eqn:Hp; [|done].
  apply from_str_radix_range in Hp; [|done|done]. destruct (hex_u32 _); [|done]. cbn [mbind option_bind].
  destruct (_ =? 0); [done|]. destruct (Z.ltb_spec 128 plen); [done|]. cbn [orb]. intros [= <-]. cbn.
  split; [done|]. split; [done|]. lia.
Qed.

Lemma route6_step_spec to b l : is_ascii l →
  route6_step to (best_of6 b) l
  = Done (best_of6 (match parse_route6 l with
                    | Some r => if prefix_match to (r6_dest r) (r6_plen r) then best_step r6_plen b r else b
                    | None => b
                    end)).
Proof.
  intros Hl. unfold route6_step, parse_route6.
  destruct (Nat.ltb_spec (length (split_whitespace l)) 10); [done|].
  assert (Hc : ∀ i, (i < 10)%nat → is_ascii (split_whitespace l !!! i)).
  { intros i Hi. apply Forall_split_whitespace; [done|lia]. }
  destruct (hex16_ascii _ (Hc 0%nat ltac:(lia))) as [-> _]. rewrite bind_Done.
  destruct (hex16_ascii _ (Hc 4%nat ltac:(lia))) as [-> _].
  destruct (hex16_val (split_whitespace l !!! 0%nat)) as [dest|]; [|done]. cbn [mbind option_bind].
  destruct (from_str_radix 16 u8_max _) as [plen|] eqn:Hp; [|done].
  apply from_str_radix_range in Hp; [|done|done].
  destruct (hex_u32 _) as [flags|]; [|done]. cbn [mbind option_bind].
  destruct (_ || _); [done|]. cbn [r6_dest r6_plen].
  destruct (prefix_match to dest plen); [|done]. cbn [negb]. rewrite bind_Done.
  destruct b as [r'|]; cbn [best_step best_of6 b6_plen r6_plen].
  - by destruct (r6_plen r' <? plen).
  - by destruct (Z.ltb_spec (-1) plen); [|lia].
Qed.

Lemma route6_loop_spec to ls b : Forall is_ascii ls →
  route6_loop to (best_of6 b) ls
  = Done (best_of6 (foldl (best_step r6_plen) b
      (filter (λ r, prefix_match to (r6_dest r) (r6_plen r) = true) (omap parse_route6 ls)))).
Proof.
  intros Hls. revert b. induction Hls as [|l ls Hl Hls IH]; intros b; [done|]. cbn [route6_loop].
  rewrite route6_step_spec, bind_Done, IH by done. cbn [omap list_omap].
  destruct (parse_route6 l) as [r|]; [|done].
  destruct (prefix_match to (r6_dest r) (r6_plen r)) eqn:E.
  - by rewrite filter_cons_True.
  - by rewrite filter_cons_False by (by rewrite E).
Qed.

(** Over ASCII tables route information is always found without a panic. *)
Lemma route_get_info_total h peer_ip :
  match h_proc_route6 h with Some c => is_ascii c | None => True end →
  ∃ info, route_get_info h peer_ip = Done info.
Proof.
  intros Hc. unfold route_get_info. destruct (nl_get_route_total (h_name_of h) (h_route_reply h) peer_ip) as [nl ->].
  rewrite bind_Done. destruct nl as [[dev via]|]; [by eexists|]. destruct peer_ip as [o|sg].
  - destruct (proc_route_lookup_v4 _ _ _) as [[dev via] mtu]. by eexists.
  - unfold proc_route_lookup_v6. destruct (h_proc_route6 h) as [c|]; [|by eexists].
    change (mkBest6 (-1) None None) with (best_of6 None).
    rewrite route6_loop_spec, bind_Done by (by apply Forall_lines). by eexists.
Qed.

(** C22: the fallback route lookups.  Over any text of /proc/net/route the IPv4
    lookup returns the first route with the longest mask among the lines that
    parse, are up and match the address, with its gateway and the MTU of its
    interface, and nothing when no line matches.  Over any ASCII text of
    /proc/net/ipv6_route the IPv6 lookup does not panic and returns the first
    route with the longest prefix among those whose prefix bits are the
    address's. *)
Theorem route_lookup_longest_prefix k content4 content6 t4 t6 :
  is_ascii content6 → length t6 = 16%nat → bytes t6 →
  match proc_route_lookup_v4 k (Some content4) t4 with
  | (Some dev, via, mtu) =>
      ∃ r, first_max plen4 (table4 t4 content4) r ∧ dev = r_dev r ∧ via = V4 <$> gateway4 r ∧
           mtu = dev_mtu k (Some dev)
  | (None, via, mtu) => table4 t4 content4 = [] ∧ via = None ∧ mtu = None
  end ∧
  ∃ table info, (∀ r, r ∈ table ↔ r ∈ omap parse_route6 (lines content6) ∧ in_prefix t6 r) ∧
    table `sublist_of` omap parse_route6 (lines content6) ∧
    proc_route_lookup_v6 k (Some content6) t6 = Done info ∧
    match info with
    | (Some dev, via, mtu) =>
        ∃ r, first_max r6_plen table r ∧ dev = r6_dev r ∧
             via = (λ o, V6 (v6_segments o)) <$> r6_nexthop r ∧ mtu = dev_mtu k (Some dev)
    | (None, via, mtu) => table = [] ∧ via = None ∧ mtu = None
    end.
Proof.
  intros Ha Ht Htb. split.
  - unfold proc_route_lookup_v4, table4. change (mkBest4 (-1) None None) with (best_of4 None).
    rewrite route4_fold. pose proof (best_step_first_max plen4
      (filter (λ r, matches4 t4 r = true) (omap parse_route4 (route_lines content4)))) as Hm.
    destruct (foldl _ _ _) as [r|]; cbn [best_of4 b_dev b_gw]; [by exists r|done].
  - set (ps := omap parse_route6 (lines content6)).
    exists (filter (λ r, prefix_match t6 (r6_dest r) (r6_plen r) = true) ps). eexists. split_and!.
    + intros r. rewrite list_elem_of_filter.
      assert (Hiff : r ∈ ps → prefix_match t6 (r6_dest r) (r6_plen r) = true ↔ in_prefix t6 r).
      { intros (l & Hl & Hp)%list_elem_of_omap. destruct (parse_route6_ok l r) as (Hdl & Hdb & Hpl); [|done|].
        - by apply (proj1 (Forall_forall _ _) (Forall_lines _ _ Ha)).
        - by apply prefix_match_bits. }
      split; [intros [Hm Hr]; split; [done|by apply Hiff]|intros [Hr Hm]; split; [by apply Hiff|done]].
    + apply sublist_filter.
    + unfold proc_route_lookup_v6. change (mkBest6 (-1) None None) with (best_of6 None).
      rewrite route6_loop_spec, bind_Done by (by apply Forall_lines). done.
    + pose proof (best_step_first_max r6_plen
        (filter (λ r, prefix_match t6 (r6_dest r) (r6_plen r) = true) ps)) as Hm. fold ps.
      destruct (foldl _ _ _) as [r|]; cbn [best_of6 b6_dev b6_nh]; [by exists r|done].
Qed.

(** A table with a default route and a more specific one. *)
Definition sample_route : list Z :=
  bs "Iface Destination Gateway Flags RefCnt Use Metric Mask" ++ [LF]
  ++ bs "eth0 00000000 0101A8C0 0003 0 0 100 00000000 0 0 0" ++ [LF]
  ++ bs "wlan0 0000000A 00000000 0001 0 0 0 000000FF 0 0 0" ++ [LF].
Definition sample_route6 : list Z :=
  bs "20010db8000000000000000000000000 20 00000000000000000000000000000000 00 fe800000000000000000000000000001 00000400 0 0 00000003 eth0" ++ [LF].

Lemma route_lookup_longest_prefix_witness :
  ∃ r, first_max plen4 (table4 [10; 1; 2; 3] sample_route) r ∧ bs "wlan0" = r_dev r ∧
       None = V4 <$> gateway4 r ∧ None = dev_mtu (mkKernel (λ _, 0) (λ _, None)) (Some (bs "wlan0")).
Proof.
  assert (Ha : is_ascii sample_route6) by (apply (bool_decide_eq_true _); vm_compute; reflexivity).
  assert (Hb : bytes (replicate 16 1)) by (apply (bool_decide_eq_true _); vm_compute; reflexivity).
  destruct (route_lookup_longest_prefix (mkKernel (λ _, 0) (λ _, None)) sample_route sample_route6
    [10; 1; 2; 3] (replicate 16 1) Ha eq_refl Hb) as [H4 _].
  assert (Hv : proc_route_lookup_v4 (mkKernel (λ _, 0) (λ _, None)) (Some sample_route) [10; 1; 2; 3]
               = (Some (bs "wlan0"), None, None)) by (vm_compute; reflexivity).
  rewrite Hv in H4. exact H4.
Defined.
