(* ===== verification/Loader.v ===== *)
(** * tc/maps.rs and tc/loader.rs: what the packet programs are given

    The configuration record that is written into the map of the packet
    programs, built from a peer's configuration and what the host says, and
    the statistics that are read back.  The loading of the programs is not
    modelled. *)

From S2P Require Import Prelude Words Slices Text ChaCha Hkdf Aes Obfs Results StrOps Net Config Netlink.
From S2P Require Import NetlinkParse Tun Routes.
Local Open Scope Z_scope.

(** ** The configuration map *)

Definition MAX_PORTS : nat := 6.
Definition GUT_WIRE_HEADER_SIZE : Z := 14.
Definition PMTU_RESERVE_BYTES : Z := 20.
Definition OUTER_OVERHEAD_IPV4 : Z := GUT_WIRE_HEADER_SIZE + 8 + 20 + PMTU_RESERVE_BYTES.
Definition OUTER_OVERHEAD_IPV6 : Z := GUT_WIRE_HEADER_SIZE + 8 + 40 + PMTU_RESERVE_BYTES.
Definition DEFAULT_INNER_MTU : Z := 1492.
Definition CHACHA_ROUNDS : Z := 4.
Definition GUT_FLAG_NEED_L4_CSUM : Z := 1.

Record GutConfig := mkGut {
  gc_key : list Z;
  gc_ports : list Z;
  gc_num_ports : Z;
  gc_outer_mtu : Z;
  gc_inner_mtu_v4 : Z;
  gc_inner_mtu_v6 : Z;
  gc_peer_ip : Z;
  gc_bind_ip : Z;
  gc_egress_ifindex : Z;
  gc_tun_ifindex : Z;
  gc_src_mac : list Z;
  gc_dst_mac : list Z;
  gc_tun_mac : list Z;
  gc_offload_flags : Z;
  gc_chacha_init : list Z;
  gc_chacha_rounds : Z;
  gc_partial_ip_csum : Z;
  gc_default_xdp_action : Z;
  gc_keepalive_drop_percent : Z;
  gc_peer_ip6 : list Z;
  gc_bind_ip6 : list Z;
  gc_tun_local_ip4 : Z;
  gc_tun_peer_ip4 : Z;
  gc_own_http3 : Z;
  gc_dynamic_peer : Z;
  gc_obfs_gut : Z;
  gc_sni_domain : list Z;
  gc_sni_domain_len : Z;
  gc_quic_dcid : list Z;
  gc_quic_key_rk : list Z;
  gc_quic_hp_rk : list Z;
  gc_quic_iv : list Z
}.

Definition compute_chacha_init (key : list Z) : list Z :=
  list_inserts 4 ((λ i, from_le (window (i * 4) 4 key)) <$> seq 0 8)
    (list_inserts 0 [0x61707865; 0x3320646e; 0x79622d32; 0x6b206574] (replicate 12 0)).

Definition from_config (key ports : list Z) (peer_ip : IpAddr) (outer_mtu : Z) : GutConfig :=
  let '(peer_ip4, peer_ip6) :=
    match peer_ip with
    | V4 o => (from_le o, replicate 16 0)
    | V6 s => (0, v6_octets s)
    end in
  let stored_count := Nat.min (length ports) MAX_PORTS in
  mkGut key (list_inserts 0 (take MAX_PORTS ports) (replicate MAX_PORTS 0)) (Z.of_nat stored_count)
    outer_mtu DEFAULT_INNER_MTU DEFAULT_INNER_MTU peer_ip4 0 0 0 (replicate 6 0) (replicate 6 0)
    (replicate 6 0) 0 (compute_chacha_init key) CHACHA_ROUNDS 0 0 30 peer_ip6 (replicate 16 0) 0 0 1 0 0
    (replicate 32 0) 0 (replicate 8 0) (replicate 44 0) (replicate 44 0) (replicate 12 0).

(** [bytes[i] << 8 | bytes[i + 1]] *)
Definition be_word (b : list Z) (i : nat) : Z := Z.lor (shl 32 (b !!! i) 8) (b !!! (i + 1)%nat).

Definition compute_partial_ip_csum (bind_ip peer_ip : Z) : Z :=
  let bind_bytes := u32_to_le_bytes bind_ip in
  let peer_bytes := u32_to_le_bytes peer_ip in
  foldl (wrapping_add 32) 0x4500
    [0x4011; be_word bind_bytes 0; be_word bind_bytes 2; be_word peer_bytes 0; be_word peer_bytes 2].

(** ** Building it *)

Definition is_unspecified (ip : IpAddr) : bool :=
  match ip with
  | V4 o => bool_decide (o = replicate 4 0)
  | V6 s => bool_decide (s = replicate 8 0)
  end.

(** The outputs of ip addr show and the environment variable that are read. *)
Record local_env := mkLocal {
  e_addr4 : option (list Z);
  e_addr6 : option (list Z);
  e_force_l4_csum : option (list Z)
}.

Section build.
  Context (h : host) (rs : resolvers) (e : local_env).

(** The source address: the configured one, or the one of the route or of the
    interface. *)
Definition resolve_bind (p : PeerConfig) (ifname : list Z) : res lerr (Z * list Z) :=
  match bind_ip p with
  | V4 o =>
      if is_unspecified (V4 o) then
        src ← (if is_unspecified (peer_ip p) then get_interface_ipv4 (e_addr4 e)
               else r ← resolve_route_src_ip h (peer_ip p) ifname;
                    match r with V4 o => Ok o | V6 _ => Err EFamily end);
        Ok (from_le src, replicate 16 0)
      else Ok (from_le o, replicate 16 0)
  | V6 s =>
      if is_unspecified (V6 s) then
        src ← (if is_unspecified (peer_ip p) then get_interface_ipv6 (e_addr6 e)
               else r ← resolve_route_src_ip h (peer_ip p) ifname;
                    match r with V6 s => Ok s | V4 _ => Err EFamily end);
        Ok (0, v6_octets src)
      else Ok (0, v6_octets s)
  end.

Definition net {A} (r : res nerr A) : res lerr A := map_err ENet r.

(** [ok()] of a result: a panic stays a panic. *)
Definition ok_opt {A} (r : res lerr A) : res lerr (option A) :=
  match r with Ok a => Ok (Some a) | Err _ => Ok None | Abort => Abort end.

(** Drop on the interface of the default route is turned into pass. *)
Definition xdp_action (p : PeerConfig) (ifname : list Z) : Z :=
  match default_policy p with
  | Allow => 0
  | Drop =>
      match default_route_ifname (h_proc_route h) with
      | Some d => if str_eqb d ifname then 0 else 1
      | None => 1
      end
  end.

Definition inner_mtu (pmtu_base overhead : Z) : Z :=
  let computed := Z.max 0 (pmtu_base - overhead) in
  if computed =? 0 then DEFAULT_INNER_MTU else computed.

Definition probe_offload_flags : Z :=
  match e_force_l4_csum e with
  | Some v => if str_eqb v (bs "0") || str_eqb v (bs "false") || str_eqb v (bs "no") || str_eqb v (bs "off")
              then 0 else GUT_FLAG_NEED_L4_CSUM
  | None => GUT_FLAG_NEED_L4_CSUM
  end.

(** The tunnel addresses the programs rewrite to, zero when there are none. *)
Definition tun_addrs (address : list Z) : Z * Z :=
  match compute_p2p_peer address with
  | Ok (local_ip_str, peer_ip_str, _) =>
      match parse_ipv4 local_ip_str, parse_ipv4 peer_ip_str with
      | Some local, Some peer => (from_le local, from_le peer)
      | _, _ => (0, 0)
      end
  | _ => (0, 0)
  end.

(** The connection id and the keys of the long header. *)
Definition quic_material (chacha_init : list Z) (rounds : Z)
    : res lerr (list Z * list Z * list Z * list Z) :=
  let ks99 := chacha_block_fast chacha_init 99 0 rounds in
  let dcid := u32_to_le_bytes (ks99 !!! 0%nat) ++ u32_to_le_bytes (ks99 !!! 1%nat) in
  initial_secret ← lift (derive_quic_initial_secret dcid);
  client_secret ← lift (derive_client_initial_secret initial_secret);
  '(q_key, q_iv, q_hp) ← lift (derive_quic_keys client_secret);
  Ok (dcid, aes128_expand_key q_key, aes128_expand_key q_hp, q_iv).

(** The server name, padded with spaces to 32 bytes. *)
Definition sni_field (sip_domain : list Z) : list Z * Z :=
  let sni_len := Nat.min (length sip_domain) 31 in
  (take sni_len sip_domain ++ replicate (32 - sni_len) SPACE, Z.of_nat sni_len).

Definition build_gut_config (p : PeerConfig) (tun_ifname ingress_ifname : list Z) : res lerr GutConfig :=
  let g := from_config (key p) (ports p) (peer_ip p) (outer_mtu p) in
  '(bind_ip4, bind_ip6) ← resolve_bind p ingress_ifname;
  egress_ifindex ← net (get_ifindex (h_kernel h) ingress_ifname);
  tun_ifindex ← net (get_ifindex (h_kernel h) tun_ifname);
  src_mac ← net (read_mac (h_kernel h) ingress_ifname);
  dst_mac ← (if dynamic_peer p
             then ok_or (resolve_default_gateway_mac h rs ingress_ifname None) EGateway
             else resolve_peer_mac h rs (peer_ip p) ingress_ifname);
  let tun_mac := match read_mac (h_kernel h) tun_ifname with Ok m => m | _ => replicate 6 0 end in
  route_pmtu ← ok_opt (resolve_route_pmtu h (peer_ip p) ingress_ifname);
  ingress_mtu ← ok_opt (net (read_mtu (h_kernel h) ingress_ifname));
  let pmtu_base := default (default (outer_mtu p) ingress_mtu) route_pmtu in
  let '(tun_local, tun_peer) := tun_addrs (address p) in
  '(dcid, key_rk, hp_rk, iv) ← quic_material (gc_chacha_init g) (gc_chacha_rounds g);
  let '(sni, sni_len) := sni_field (sip_domain p) in
  Ok (mkGut (gc_key g) (gc_ports g) (gc_num_ports g) pmtu_base
        (inner_mtu pmtu_base OUTER_OVERHEAD_IPV4) (inner_mtu pmtu_base OUTER_OVERHEAD_IPV6)
        (gc_peer_ip g) bind_ip4 (as_u32 egress_ifindex) (as_u32 tun_ifindex) src_mac dst_mac tun_mac
        probe_offload_flags (gc_chacha_init g) (gc_chacha_rounds g)
        (if is_v4 (peer_ip p) then compute_partial_ip_csum bind_ip4 (gc_peer_ip g) else 0)
        (xdp_action p ingress_ifname) (keepalive_drop_percent p) (gc_peer_ip6 g) bind_ip6
        tun_local tun_peer (if own_http3 p then 1 else 0) (if dynamic_peer p then 1 else 0)
        (match obfs p with Gut => 1 | _ => 0 end) sni sni_len dcid key_rk hp_rk iv).
End build.

(** ** Statistics *)

Record GutStats := mkStats {
  packets_processed : Z;
  packets_dropped : Z;
  bytes_processed : Z;
  packets_oversized : Z;
  mask_count : Z;
  packets_fragmented : Z;
  inner_tcp_seen : Z;
  packets_egress : Z;
  packets_ingress : Z
}.
Definition stats_default : GutStats := mkStats 0 0 0 0 0 0 0 0 0.
Definition STATS_SIZE : nat := 72.

Definition stats_add (t s : GutStats) : GutStats :=
  mkStats (wrapping_add 64 (packets_processed t) (packets_processed s))
    (wrapping_add 64 (packets_dropped t) (packets_dropped s))
    (wrapping_add 64 (bytes_processed t) (bytes_processed s))
    (wrapping_add 64 (packets_oversized t) (packets_oversized s))
    (wrapping_add 64 (mask_count t) (mask_count s))
    (wrapping_add 64 (packets_fragmented t) (packets_fragmented s))
    (wrapping_add 64 (inner_tcp_seen t) (inner_tcp_seen s))
    (wrapping_add 64 (packets_egress t) (packets_egress s))
    (wrapping_add 64 (packets_ingress t) (packets_ingress s)).

Definition aggregate (per_cpu : list GutStats) : GutStats := foldl stats_add stats_default per_cpu.

(** The structure copied out of its bytes. *)
Definition read_stats (b : list Z) : GutStats :=
  let f i := from_le (window (8 * i) 8 b) in
  mkStats (f 0%nat) (f 1%nat) (f 2%nat) (f 3%nat) (f 4%nat) (f 5%nat) (f 6%nat) (f 7%nat) (f 8%nat).

Definition parse_percpu_stats (per_cpu_data : list (list Z)) (value_size : nat) : GutStats :=
  aggregate (read_stats <$> filter (λ d, (value_size ≤ length d)%nat) per_cpu_data).

(** [lookup] fills the buffer the kernel is given, or fails. *)
Definition lookup_percpu_raw (num_cpus : nat) (lookup : nat → option (list Z)) (value_size : nat)
    : outcome (option (list (list Z))) :=
  if (num_cpus =? 0)%nat then Done None else
  let aligned := Z.to_nat (Z.land (Z.of_nat (value_size + 7)) (Z.lnot 7)) in
  match lookup (num_cpus * aligned)%nat with
  | None => Done None
  | Some buf =>
      per_cpu ← mapM (λ i, slice buf (i * aligned) (i * aligned + value_size)) (seq 0 num_cpus);
      Done (Some per_cpu)
  end.

Record TcStats := mkTcStats { egress : GutStats; ingress : GutStats }.

(** [egress_data] is what the egress map returns for every CPU; its lookup can
    fail, and that ends the call. *)
Definition get_stats (egress_data : option (option (list (list Z)))) (num_cpus : nat)
    (lookup : nat → option (list Z)) : res lerr TcStats :=
  per_cpu ← ok_or egress_data EStats;
  let eg := match per_cpu with
            | Some per_cpu => parse_percpu_stats per_cpu STATS_SIZE
            | None => stats_default
            end in
  ing ← lift (lookup_percpu_raw num_cpus lookup STATS_SIZE);
  Ok (mkTcStats eg (match ing with
                    | Some per_cpu => parse_percpu_stats per_cpu STATS_SIZE
                    | None => stats_default
                    end)).
