(* ===== verification/LoaderProofs.v ===== *)
(** * The packet programs are given what the tunnel uses

    The configuration record holds the keys and the connection id that the
    userspace path derives, MTUs that fit, a partial checksum over the fixed
    header fields, and never a drop policy on the default route; the
    statistics are the sums over the processors. *)

From S2P Require Import Prelude Words Slices Text ChaCha Hkdf Aes Obfs Results StrOps Net Config ConfigProofs.
From S2P Require Import Netlink NetlinkParse Frames Tun Routes RoutesProofs Loader.
Local Open Scope Z_scope.

Lemma compute_chacha_init_spec key : compute_chacha_init key = chacha_init key.
Proof. reflexivity. Qed.

Lemma be_word_spec b i : bytes b → (i + 1 < length b)%nat →
  be_word b i = b !!! i * 256 + b !!! (i + 1)%nat ∧ 0 ≤ be_word b i < 65536.
Proof.
  intros Hb Hi. unfold be_word.
  assert (Hu : ∀ j, (j < length b)%nat → 0 ≤ b !!! j < 256).
  { intros j Hj. exact (Forall_lookup_total _ _ _ Hb Hj). }
  pose proof (Hu i ltac:(lia)). pose proof (Hu (i + 1)%nat ltac:(lia)).
  rewrite (lor_shl_add 32 (b !!! i) (b !!! (i + 1)%nat) 8) by lia. change (2 ^ 8) with 256. lia.
Qed.

(** The fixed part of the outer IPv4 header: no length, identification and
    checksum yet. *)
Definition outer_header (src dst : list Z) : list Z :=
  [0x45; 0; 0; 0; 0; 0; 0; 0; 64; 17; 0; 0] ++ src ++ dst.

Lemma partial_csum_spec bind peer :
  compute_partial_ip_csum bind peer = word_sum (outer_header (u32_to_le_bytes bind) (u32_to_le_bytes peer)).
Proof.
  unfold compute_partial_ip_csum, outer_header.
  assert (Hb : ∀ v, bytes (u32_to_le_bytes v) ∧ length (u32_to_le_bytes v) = 4%nat).
  { intros v. split; [apply le_bytes_bytes|apply length_le_bytes]. }
  destruct (Hb bind) as [Hb1 Hl1]. destruct (Hb peer) as [Hb2 Hl2].
  set (s := u32_to_le_bytes bind) in *. set (d := u32_to_le_bytes peer) in *.
  destruct (be_word_spec s 0 Hb1) as [E1 R1]; [lia|]. destruct (be_word_spec s 2 Hb1) as [E2 R2]; [lia|].
  destruct (be_word_spec d 0 Hb2) as [E3 R3]; [lia|]. destruct (be_word_spec d 2 Hb2) as [E4 R4]; [lia|].
  cbn [foldl]. unfold wrapping_add. change (2 ^ 32) with 4294967296 in *.
  rewrite (wrap_small 32 (0x4500 + 0x4011)) by by split.
  rewrite (wrap_small 32 (_ + be_word s 0)), (wrap_small 32 (_ + be_word s 2)),
    (wrap_small 32 (_ + be_word d 0)), (wrap_small 32 (_ + be_word d 2)) by (unfold in_width; lia).
  rewrite E1, E2, E3, E4. clear E1 E2 E3 E4 R1 R2 R3 R4. clearbody s d.
  destruct (explode4 s Hl1) as (? & ? & ? & ? & ->). destruct (explode4 d Hl2) as (? & ? & ? & ? & ->).
  cbn. lia.
Qed.

(** ** The inner MTU *)

Lemma inner_mtu_spec base overhead : 0 ≤ overhead →
  0 < inner_mtu base overhead ∧
  (overhead < base → inner_mtu base overhead + overhead = base) ∧
  (base ≤ overhead → inner_mtu base overhead = DEFAULT_INNER_MTU).
Proof.
  intros Ho. unfold inner_mtu, DEFAULT_INNER_MTU. destruct (Z.eqb_spec (Z.max 0 (base - overhead)) 0); lia.
Qed.

Lemma xdp_action_spec h p ifname :
  xdp_action h p ifname = 1 ↔ default_policy p = Drop ∧ default_route_ifname (h_proc_route h) ≠ Some ifname.
Proof.
  unfold xdp_action, str_eqb. destruct (default_policy p); [naive_solver|].
  destruct (default_route_ifname _) as [d|]; [|naive_solver]. case_bool_decide; naive_solver.
Qed.

Lemma xdp_action_range h p ifname : xdp_action h p ifname = 0 ∨ xdp_action h p ifname = 1.
Proof.
  unfold xdp_action. destruct (default_policy p); [by left|]. destruct (default_route_ifname _); [|by right].
  destruct (str_eqb _ _); [by left|by right].
Qed.

Lemma quic_material_spec init rounds : ∃ k iv hp, client_initial_keys (fixed_dcid init rounds) = Done (k, iv, hp) ∧
  quic_material init rounds = Ok (fixed_dcid init rounds, aes128_expand_key k, aes128_expand_key hp, iv).
Proof.
  unfold quic_material, client_initial_keys. fold (fixed_dcid init rounds). cbv zeta.
  unfold derive_quic_initial_secret, hkdf_extract. rewrite hmac_sha256_Done, bind_Done. cbn [lift].
  rewrite res_bind_Ok. unfold derive_client_initial_secret.
  rewrite hkdf_expand_label_Done by (rewrite ?length_replicate; (done || (cbn; lia))).
  rewrite bind_Done. cbn [lift]. rewrite res_bind_Ok, derive_quic_keys_Done. cbn [lift].
  eexists _, _, _. split; [done|]. by rewrite res_bind_Ok.
Qed.

(** ** No panic *)

Section nopanic.
  Context (h : host) (Hascii : match h_proc_route6 h with Some c => is_ascii c | None => True end).

Lemma resolve_no_abort {A} (f : RouteGetInfo → res lerr A) ip ifname : (∀ i, f i ≠ Abort) →
  (info ← lift (route_get_info h ip); _ ← ensure_route_dev ifname info; f info) ≠ Abort.
Proof.
  intros Hf. destruct (route_get_info_total h ip Hascii) as [info ->]. cbn [lift]. rewrite res_bind_Ok.
  apply bind_no_abort; [|intros; apply Hf]. unfold ensure_route_dev. destruct (i_dev info); [|done].
  apply ensure_no_abort.
Qed.

Lemma resolve_peer_mac_no_abort rs ip ifname : resolve_peer_mac h rs ip ifname ≠ Abort.
Proof.
  unfold resolve_peer_mac. destruct (resolve_l2_peer_ip h ip ifname) eqn:E.
  - destruct (first_answer _ _ _); [done|apply ok_or_no_abort].
  - destruct (first_answer _ _ _); [done|apply ok_or_no_abort].
  - exfalso. revert E. by apply resolve_no_abort.
Qed.

Lemma resolve_bind_no_abort e p ifname : resolve_bind h e p ifname ≠ Abort.
Proof.
  unfold resolve_bind. destruct (bind_ip p) as [o|s]; destruct (is_unspecified _); try done;
    (apply bind_no_abort; [|done]; destruct (is_unspecified _);
     [apply bind_no_abort; [apply ok_or_no_abort|intros; apply ok_or_no_abort]|]);
    (apply bind_no_abort; [apply resolve_no_abort; intros; apply ok_or_no_abort|by intros [|]]).
Qed.
End nopanic.

Lemma read_mac_no_abort k ifname : net (read_mac k ifname) ≠ Abort.
Proof.
  unfold net, read_mac. destruct (sysfs k _); [|done]. cbn [ok_or]. rewrite res_bind_Ok. unfold parse_mac.
  destruct (negb _); [done|]. assert (H : mapR (λ p, ok_or (from_str_radix 16 u8_max p) EMacByte)
    (split_byte 58 (trim l)) ≠ Abort) by (apply mapR_no_abort; intros; apply ok_or_no_abort).
  by destruct (mapR _ _).
Qed.

Lemma get_ifindex_no_abort k ifname : net (get_ifindex k ifname) ≠ Abort.
Proof. unfold net, get_ifindex. case_bool_decide; [done|]. by destruct (_ =? 0). Qed.

Lemma ok_opt_no_abort {A} (r : res lerr A) : r ≠ Abort → ok_opt r ≠ Abort.
Proof. by destruct r. Qed.

Lemma build_gut_config_no_abort h rs e p tun ing :
  match h_proc_route6 h with Some c => is_ascii c | None => True end →
  build_gut_config h rs e p tun ing ≠ Abort.
Proof.
  intros Ha. unfold build_gut_config. cbv zeta.
  apply bind_no_abort; [by apply resolve_bind_no_abort|]. intros [b4 b6] _.
  apply bind_no_abort; [apply get_ifindex_no_abort|]. intros ei _.
  apply bind_no_abort; [apply get_ifindex_no_abort|]. intros ti _.
  apply bind_no_abort; [apply read_mac_no_abort|]. intros sm _.
  apply bind_no_abort; [destruct (dynamic_peer p); [apply ok_or_no_abort|by apply resolve_peer_mac_no_abort]|].
  intros dmac _. apply bind_no_abort; [apply ok_opt_no_abort, resolve_no_abort; [done|intros; apply ok_or_no_abort]|].
  intros rp _. apply bind_no_abort; [apply ok_opt_no_abort|].
  { unfold net, read_mtu. destruct (sysfs _ _); [|done]. cbn [ok_or]. rewrite res_bind_Ok.
    by destruct (parse_uint _ _). }
  intros im _. destruct (tun_addrs (address p)) as [tl tp].
  destruct (quic_material_spec (gc_chacha_init (from_config (key p) (ports p) (peer_ip p) (outer_mtu p)))
    (gc_chacha_rounds (from_config (key p) (ports p) (peer_ip p) (outer_mtu p)))) as (k & iv & hp & _ & ->).
  rewrite res_bind_Ok. by destruct (sni_field _).
Qed.

Lemma from_config_fields key ports peer_ip outer_mtu :
  let g := from_config key ports peer_ip outer_mtu in
  gc_key g = key ∧ gc_chacha_init g = chacha_init key ∧ gc_chacha_rounds g = CHACHA_ROUNDS ∧
  gc_num_ports g = Z.of_nat (Nat.min (length ports) 6) ∧
  gc_ports g = list_inserts 0 (take 6 ports) (replicate 6 0).
Proof. unfold from_config. by destruct peer_ip. Qed.

Lemma sni_field_spec d : length (sni_field d).1 = 32%nat ∧
  take (Z.to_nat (sni_field d).2) (sni_field d).1 = take 31 d.
Proof.
  unfold sni_field. cbn [fst snd]. rewrite Nat2Z.id. split.
  - rewrite length_app, length_take, length_replicate. lia.
  - rewrite take_app_length' by (rewrite length_take; lia). destruct (decide (length d ≤ 31)%nat).
    + rewrite Nat.min_l, !take_ge by lia. done.
    + by rewrite Nat.min_r by lia.
Qed.

(** C16: the configuration of the packet programs.  Building it never panics over
    ASCII route tables, and a configuration that is built holds the ChaCha state
    of the peer's key, the connection id and the QUIC keys the userspace path
    derives from that key, the first six ports, inner MTUs that leave room for
    the outer headers whenever the outer MTU does, the sum over the fixed words
    of the outer IPv4 header, the padded server name, and a drop action exactly
    when the policy says so and the interface is not the one of the default
    route. *)
Theorem gut_config_correct h rs e p tun ing :
  match h_proc_route6 h with Some c => is_ascii c | None => True end →
  build_gut_config h rs e p tun ing ≠ Abort ∧
  ∀ g, build_gut_config h rs e p tun ing = Ok g →
    gc_key g = key p ∧ gc_chacha_init g = chacha_init (key p) ∧
    gc_quic_dcid g = fixed_dcid (chacha_init (key p)) CHACHA_ROUNDS ∧
    (∃ k iv hp, client_initial_keys (gc_quic_dcid g) = Done (k, iv, hp) ∧
       gc_quic_key_rk g = aes128_expand_key k ∧ gc_quic_hp_rk g = aes128_expand_key hp ∧ gc_quic_iv g = iv) ∧
    length (gc_ports g) = 6%nat ∧ take (Z.to_nat (gc_num_ports g)) (gc_ports g) = take 6 (ports p) ∧
    0 < gc_inner_mtu_v4 g ∧ 0 < gc_inner_mtu_v6 g ∧
    (62 < gc_outer_mtu g → gc_inner_mtu_v4 g + 62 = gc_outer_mtu g) ∧
    (82 < gc_outer_mtu g → gc_inner_mtu_v6 g + 82 = gc_outer_mtu g) ∧
    (is_v4 (peer_ip p) = true → gc_partial_ip_csum g
       = word_sum (outer_header (u32_to_le_bytes (gc_bind_ip g)) (u32_to_le_bytes (gc_peer_ip g)))) ∧
    length (gc_sni_domain g) = 32%nat ∧
    take (Z.to_nat (gc_sni_domain_len g)) (gc_sni_domain g) = take 31 (sip_domain p) ∧
    (gc_default_xdp_action g = 1 ↔
       default_policy p = Drop ∧ default_route_ifname (h_proc_route h) ≠ Some ing).
Proof.
  intros Ha. split; [by apply build_gut_config_no_abort|]. intros g Hg. unfold build_gut_config in Hg.
  cbv zeta in Hg. set (g0 := from_config _ _ _ _) in Hg.
  destruct (from_config_fields (key p) (ports p) (peer_ip p) (outer_mtu p)) as (Hk & Hc & Hr & Hn & Hp).
  fold g0 in Hk, Hc, Hr, Hn, Hp.
  destruct (quic_material_spec (gc_chacha_init g0) (gc_chacha_rounds g0)) as (k & iv & hp & Hkeys & Hq).
  rewrite Hq in Hg. clear Hq. destruct (sni_field_spec (sip_domain p)) as [Hs1 Hs2].
  destruct (tun_addrs (address p)) as [tl tp]. destruct (sni_field (sip_domain p)) as [sni sni_len].
  cbn [fst snd] in Hs1, Hs2.
  apply res_bind_inv in Hg as ([b4 b6] & _ & Hg). res_inv.
  cbn [gc_key gc_ports gc_num_ports gc_outer_mtu gc_inner_mtu_v4 gc_inner_mtu_v6 gc_peer_ip gc_bind_ip
       gc_chacha_init gc_partial_ip_csum gc_default_xdp_action gc_sni_domain gc_sni_domain_len
       gc_quic_dcid gc_quic_key_rk gc_quic_hp_rk gc_quic_iv].
  rewrite Hc, Hr in *. rewrite Hk, Hn, Hp, Nat2Z.id.
  match goal with |- context [inner_mtu ?b OUTER_OVERHEAD_IPV4] =>
    destruct (inner_mtu_spec b OUTER_OVERHEAD_IPV4) as (H1 & H2 & _); [done|];
    destruct (inner_mtu_spec b OUTER_OVERHEAD_IPV6) as (H3 & H4 & _); [done|] end.
  split; [reflexivity|]. split; [reflexivity|]. split; [reflexivity|].
  split; [eexists _, _, _; split; [exact Hkeys|repeat split]|].
  split; [by rewrite length_inserts|].
  split.
  { rewrite list_inserts_app by (rewrite length_take, length_replicate; lia).
    rewrite take_0. cbn [app]. by rewrite take_app_length' by (rewrite length_take; lia). }
  split; [exact H1|]. split; [exact H3|]. split; [exact H2|]. split; [exact H4|].
  split; [intros ->; apply partial_csum_spec|]. split; [exact Hs1|]. split; [exact Hs2|].
  apply xdp_action_spec.
Qed.

(** ** A host *)

Definition sample_sysfs (path : list Z) : option (list Z) :=
  if str_eqb path (bs "/sys/class/net/eth0/address") then Some (bs "02:00:00:00:00:05" ++ [LF])
  else if str_eqb path (bs "/sys/class/net/eth0/mtu") then Some (bs "1500" ++ [LF]) else None.

Definition sample_host : host :=
  mkHost (mkKernel (λ n, if str_eqb n (bs "eth0") then 2 else 7) sample_sysfs) (Some sample_route)
    (Some sample_route6) (λ _, None) (λ _, None) (λ _, Some (V4 [192; 168; 1; 5])).

Definition sample_resolvers : resolvers :=
  mkResolvers (λ _ _, Some [2; 0; 0; 0; 0; 1]) (λ _ _, None) (λ _ _, None) (λ _ _, None) (λ _ _, None).

Definition loader_peer : PeerConfig :=
  mkPeer (bs "gut0") 1420 None Drop (bs "10.99.0.1/30") (V4 [0; 0; 0; 0]) (V4 [203; 0; 113; 9]) false false
    [443; 8443] [] (replicate 32 7) 30 1500 true (bs "127.0.0.1:51820") (bs "example.com") Gut 51821.

Lemma gut_config_correct_witness :
  build_gut_config sample_host sample_resolvers (mkLocal None None None) loader_peer (bs "gut0") (bs "eth0") ≠ Abort ∧
  ∀ g, build_gut_config sample_host sample_resolvers (mkLocal None None None) loader_peer (bs "gut0") (bs "eth0")
       = Ok g → gc_key g = replicate 32 7.
Proof.
  assert (Ha : is_ascii sample_route6) by (apply (bool_decide_eq_true _); vm_compute; reflexivity).
  destruct (gut_config_correct sample_host sample_resolvers (mkLocal None None None) loader_peer
    (bs "gut0") (bs "eth0") Ha) as [H1 H2].
  split; [exact H1|]. intros g Hg. exact (proj1 (H2 g Hg)).
Defined.

(** The configuration is built for this host, and its drop policy is turned off
    on the interface of the default route. *)
Example sample_build_ok :
  (gc_default_xdp_action <$> build_gut_config sample_host sample_resolvers (mkLocal None None None)
     loader_peer (bs "gut0") (bs "eth0")) = Ok 0.
Proof. vm_compute. reflexivity. Qed.

(** ** Statistics *)

Definition stats_fields (s : GutStats) : list Z :=
  [packets_processed s; packets_dropped s; bytes_processed s; packets_oversized s; mask_count s;
   packets_fragmented s; inner_tcp_seen s; packets_egress s; packets_ingress s].

(** The structure as the packet programs keep it. *)
Definition enc_stats (s : GutStats) : list Z := stats_fields s ≫= le_bytes 8.
Definition stats_ok (s : GutStats) : Prop := Forall (in_width 64) (stats_fields s).

Lemma length_enc_stats s : length (enc_stats s) = 72%nat.
Proof. reflexivity. Qed.

Lemma read_enc_stats s : stats_ok s → read_stats (enc_stats s) = s.
Proof.
  intros Hs. unfold stats_ok, stats_fields in Hs.
  repeat match goal with H : Forall _ (_ :: _) |- _ => apply Forall_cons in H as [? H] end.
  assert (Hf : ∀ v, in_width 64 v → from_le (le_bytes 8 v) = v).
  { intros v Hv. rewrite from_le_bytes. by apply wrap_small. }
  destruct s as [a b c d e f g h i]. unfold read_stats, enc_stats, stats_fields.
  cbn [packets_processed packets_dropped bytes_processed packets_oversized mask_count packets_fragmented
       inner_tcp_seen packets_egress packets_ingress] in *.
  f_equal; [by rewrite <- (Hf a) at 2|by rewrite <- (Hf b) at 2|by rewrite <- (Hf c) at 2
    |by rewrite <- (Hf d) at 2|by rewrite <- (Hf e) at 2|by rewrite <- (Hf f) at 2
    |by rewrite <- (Hf g) at 2|by rewrite <- (Hf h) at 2|by rewrite <- (Hf i) at 2].
Qed.

Lemma outcome_mapM_cons {A B} (f : A → outcome B) x l :
  mapM f (x :: l) = (y ← f x; k ← mapM f l; mret (y :: k)).
Proof. done. Qed.

Lemma slices_concat n (pre : list Z) ls k : (0 < n)%nat → Forall (λ l, length l = n) ls → length pre = (k * n)%nat →
  mapM (λ i, slice (pre ++ concat ls) (i * n) (i * n + n)) (seq k (length ls)) = Done ls.
Proof.
  intros Hn Hls. revert pre k. induction Hls as [|l ls Hl Hls IH]; intros pre k Hp; [done|].
  cbn [length seq concat]. rewrite outcome_mapM_cons, slice_Done by (rewrite ?length_app, ?Hl; lia).
  rewrite bind_Done. specialize (IH (pre ++ l) (S k)). rewrite <- app_assoc in IH.
  rewrite IH by (rewrite length_app, Hl; lia). rewrite bind_Done.
  rewrite window_app_ge by lia. rewrite Hp, Nat.sub_diag.
  replace (k * n + n - k * n)%nat with n by lia. rewrite window_app_l by lia.
  by rewrite window_whole by lia.
Qed.

(** The sum of field [i] over the processors. *)
Definition field_sum (i : nat) (l : list GutStats) : Z := foldr (λ s acc, stats_fields s !!! i + acc) 0 l.

Lemma aggregate_sum i l t : stats_ok t → (i < 9)%nat →
  stats_fields (foldl stats_add t l) !!! i = wrap 64 (stats_fields t !!! i + field_sum i l).
Proof.
  revert t. induction l as [|s l IH]; intros t Ht Hi; cbn [foldl field_sum foldr].
  - rewrite Z.add_0_r. symmetry. apply wrap_small. exact (Forall_lookup_total _ _ _ Ht Hi).
  - assert (Ha : stats_ok (stats_add t s)).
    { unfold stats_ok, stats_fields, stats_add. cbn. repeat (constructor; [by apply wrap_range|]). constructor. }
    rewrite (IH _ Ha Hi). fold (field_sum i l).
    assert (Hi' : stats_fields (stats_add t s) !!! i = wrap 64 (stats_fields t !!! i + stats_fields s !!! i)).
    { do 9 (destruct i as [|i]; [reflexivity|]). lia. }
    rewrite Hi'. unfold wrap. rewrite Zplus_mod_idemp_l. f_equal. lia.
Qed.

(** Statistics.  From the per-processor records as the packet programs keep
    them, of any number of processors, reading the statistics gives in every
    field the sum over the processors in 64 bits, for both directions; no slice
    leaves the buffer. *)
Theorem stats_totals es ins : Forall stats_ok es → Forall stats_ok ins → ins ≠ [] →
  ∃ t, get_stats (Some (Some (enc_stats <$> es))) (length ins) (λ n, Some (take n (concat (enc_stats <$> ins))))
       = Ok t ∧
    ∀ i, (i < 9)%nat → stats_fields (egress t) !!! i = wrap 64 (field_sum i es) ∧
                       stats_fields (ingress t) !!! i = wrap 64 (field_sum i ins).
Proof.
  intros He Hi Hne. unfold get_stats, lookup_percpu_raw, STATS_SIZE.
  assert (Hread : ∀ l, Forall stats_ok l → parse_percpu_stats (enc_stats <$> l) 72 = aggregate l).
  { intros l Hl. unfold parse_percpu_stats. f_equal.
    induction Hl as [|s l Hs Hl IH]; [done|]. rewrite fmap_cons, filter_cons_True by (rewrite length_enc_stats; lia).
    rewrite fmap_cons, IH, read_enc_stats by done. done. }
  destruct (Nat.eqb_spec (length ins) 0); [by destruct ins|].
  change (Z.to_nat (Z.land (Z.of_nat (72 + 7)) (Z.lnot 7))) with 72%nat. cbv zeta.
  assert (Hlen : length (concat (enc_stats <$> ins)) = (length ins * 72)%nat).
  { clear. induction ins as [|s l IH]; [done|]. rewrite fmap_cons. cbn [concat length]. rewrite length_app, IH.
    rewrite length_enc_stats. lia. }
  rewrite take_ge by lia. pose proof (slices_concat 72 [] (enc_stats <$> ins) 0) as Hs.
  cbn [app] in Hs. rewrite length_fmap in Hs.
  rewrite Hs; [|lia| |done]. 2:{ apply Forall_fmap. apply Forall_true. intros s. apply length_enc_stats. }
  cbn [ok_or lift mbind res_bind outcome_bind]. rewrite !Hread by done. eexists. split; [done|]. intros i Hi9. cbn [egress ingress].
  assert (Hd : stats_ok stats_default).
  { unfold stats_ok. cbn. repeat (constructor; [by split|]). constructor. }
  unfold aggregate. rewrite !aggregate_sum by done.
  assert (Hz : stats_fields stats_default !!! i = 0).
  { do 9 (destruct i as [|i]; [reflexivity|]). lia. }
  by rewrite Hz.
Qed.

Lemma stats_totals_witness :
  let s := mkStats 5 1 900 0 5 0 2 3 2 in
  ∃ t, get_stats (Some (Some [enc_stats s; enc_stats s])) 2 (λ n, Some (take n (enc_stats s ++ enc_stats s ++ [])))
       = Ok t ∧
    ∀ i, (i < 9)%nat → stats_fields (egress t) !!! i = wrap 64 (field_sum i [s; s]) ∧
                       stats_fields (ingress t) !!! i = wrap 64 (field_sum i [s; s]).
Proof.
  assert (Hs : Forall stats_ok [mkStats 5 1 900 0 5 0 2 3 2; mkStats 5 1 900 0 5 0 2 3 2])
    by (apply (bool_decide_eq_true _); vm_compute; reflexivity).
  exact (stats_totals [mkStats 5 1 900 0 5 0 2 3 2; mkStats 5 1 900 0 5 0 2 3 2]
    [mkStats 5 1 900 0 5 0 2 3 2; mkStats 5 1 900 0 5 0 2 3 2] Hs Hs ltac:(done)).
Defined.
