(* ===== verification/TcLoad.v ===== *)
(** * tc/loader.rs: loading and attaching the packet programs

    One dispatcher per network interface sends a packet, by its UDP port, to
    the program of a peer.  libbpf and the kernel behind it are an interface
    [BpfKernel]: opening and loading a generated skeleton, updating a map,
    attaching a program.  [XdpDispatcher] and [TcBpfManager] are functions of
    that state, of the state of the network interfaces and of the
    dispatchers. *)

From stdpp Require Import gmap.
From S2P Require Import Prelude Words Slices Text Obfs Results StrOps Net Config Netlink Links Tun Routes Loader.
Local Open Scope Z_scope.

(** ** The library *)

(** A loaded skeleton: the descriptors of its maps and programs.  The fields
    of the generated structure are fixed by the object file; an access to a
    field it does not have, which the compiler excludes, is the error
    [EField]. *)
Record skel := mkSkel { sk_maps : list Z → option Z; sk_progs : list Z → option Z }.

(** [TcHookBuilder]: descriptor, interface, replace, handle, priority. *)
Record tc_hook := mkHook {
  hook_fd : Z; hook_ifindex : Z; hook_replace : bool; hook_handle : Z; hook_priority : Z
}.

Class BpfKernel (B : Type) := {
  bk_open : B → list Z → option Z * B;
  bk_reuse_fd : B → Z → list Z → Z → bool * B;
  bk_load : B → Z → option skel * B;
  bk_update : B → Z → list Z → list Z → bool * B;
  bk_attach_xdp : B → Z → Z → option Z * B;
  bk_link_drop : B → Z → B;
  bk_xdp_attach : B → Z → Z → Z → Z * B;
  bk_xdp_detach : B → Z → Z → B;
  bk_tc_create : B → tc_hook → bool * B;
  bk_tc_attach : B → tc_hook → bool * B
}.

Inductive merr :=
| ENoNic | EUname | EKernelTooOld (version : Z * Z * Z)
| EVeth (e : terr) | EIf (e : nerr) | EBuild (e : lerr)
| EOpen | EReuse | ELoad | EMapUpdate | EField | ETcHook
| ESkbAttach (errno : Z) | EXdpAttach (drv skb : Z).

Definition XDP_FLAGS_SKB_MODE : Z := 2.
Definition XDP_FLAGS_DRV_MODE : Z := 4.

Inductive XdpAttachment :=
| Link (link : Z)
| Legacy (ifindex flags : Z).

Record XdpDispatcher := mkDispatcher {
  xd_skel : skel;
  xd_attach : XdpAttachment;
  next_peer_idx : Z
}.

(** The skeletons of the egress program: one per mode and address family. *)
Module EgressSkel.
Inductive t :=
| V4 (s : skel) | V6 (s : skel)
| QuicV4 (s : skel) | QuicV6 (s : skel)
| SyslogV4 (s : skel) | SyslogV6 (s : skel)
| SipV4 (s : skel) | SipV6 (s : skel).
End EgressSkel.

(** The skeleton in every arm of a [match self]. *)
Definition inner (e : EgressSkel.t) : skel :=
  match e with
  | EgressSkel.V4 s | EgressSkel.V6 s | EgressSkel.QuicV4 s | EgressSkel.QuicV6 s
  | EgressSkel.SyslogV4 s | EgressSkel.SyslogV6 s | EgressSkel.SipV4 s | EgressSkel.SipV6 s => s
  end.

Definition is_v6 (e : EgressSkel.t) : bool :=
  match e with
  | EgressSkel.QuicV6 _ | EgressSkel.V6 _ | EgressSkel.SyslogV6 _ | EgressSkel.SipV6 _ => true
  | _ => false
  end.

Definition get_map_fd (e : EgressSkel.t) (n : list Z) : option Z :=
  if str_eqb n (bs "client_map") || str_eqb n (bs "session_map") || str_eqb n (bs "config_map")
     || str_eqb n (bs "counters_map") || str_eqb n (bs "stats_map") || str_eqb n (bs "scratch_map")
  then sk_maps (inner e) n else None.

(** The bytes of the packed structure; the fields the loader leaves at zero
    are written out. *)
Definition gut_config_bytes (g : GutConfig) : list Z :=
  gc_key g ++ (gc_ports g ≫= u16_to_le_bytes) ++ u32_to_le_bytes (gc_num_ports g)
  ++ u16_to_le_bytes (gc_outer_mtu g) ++ u16_to_le_bytes (gc_inner_mtu_v4 g)
  ++ u16_to_le_bytes (gc_inner_mtu_v6 g)
  ++ words_to_bytes [gc_peer_ip g; gc_bind_ip g; gc_egress_ifindex g; gc_tun_ifindex g]
  ++ gc_src_mac g ++ gc_dst_mac g ++ gc_tun_mac g ++ u16_to_le_bytes (gc_offload_flags g)
  ++ words_to_bytes (gc_chacha_init g) ++ [gc_chacha_rounds g] ++ u32_to_le_bytes (gc_partial_ip_csum g)
  ++ [gc_default_xdp_action g; gc_keepalive_drop_percent g] ++ gc_peer_ip6 g ++ gc_bind_ip6 g
  ++ words_to_bytes [gc_tun_local_ip4 g; gc_tun_peer_ip4 g] ++ replicate 16 0 ++ replicate 16 0
  ++ [gc_own_http3 g; gc_dynamic_peer g; gc_obfs_gut g]
  ++ gc_sni_domain g ++ [gc_sni_domain_len g] ++ replicate 3 0 ++ gc_quic_dcid g
  ++ words_to_bytes (gc_quic_key_rk g) ++ words_to_bytes (gc_quic_hp_rk g) ++ gc_quic_iv g.

(** Key 0 of an array map. *)
Definition key0 : list Z := u32_to_le_bytes 0.

Section bpf.
  Context {B : Type} `{BpfKernel B}.
  Local Abbreviation M := (KM B merr).

(** *** Calls of the library that end the function when they fail *)

Definition checked {A} (e : merr) (call : B → option A * B) : M A := λ b,
  let '(r, b) := call b in (ok_or r e, b).
Definition checked_bool (e : merr) (call : B → bool * B) : M unit := λ b,
  let '(r, b) := call b in (ensure r e, b).

Definition open_skel (obj : list Z) : M Z := checked EOpen (λ b, bk_open b obj).
Definition load_opened (o : Z) : M skel := checked ELoad (λ b, bk_load b o).
Definition load_skel (obj : list Z) : M skel := o ← open_skel obj; load_opened o.
Definition map_update (fd : Z) (key value : list Z) : M unit :=
  checked_bool EMapUpdate (λ b, bk_update b fd key value).
Definition map_of (s : skel) (n : string) : M Z := of_res (ok_or (sk_maps s (bs n)) EField).
Definition prog_of (s : skel) (n : string) : M Z := of_res (ok_or (sk_progs s (bs n)) EField).
Definition update_named (s : skel) (n : string) (key value : list Z) : M unit :=
  fd ← map_of s n; map_update fd key value.

(** *** EgressSkel *)

Definition update_config_map (e : EgressSkel.t) (g : GutConfig) : M unit :=
  update_named (inner e) "config_map" key0 (gut_config_bytes g).

Definition update_counters_map (e : EgressSkel.t) (initial_seq : Z) : M unit :=
  update_named (inner e) "counters_map" key0 (u32_to_le_bytes initial_seq).

Definition gut_egress_fd (e : EgressSkel.t) : M Z := prog_of (inner e) "gut_egress".

(** Element 0 of a program array. *)
Definition set_tail_call (s : skel) (array prog : string) : M unit :=
  fd ← prog_of s prog; update_named s array key0 (u32_to_le_bytes (as_u32 fd)).

Definition setup_tail_call (e : EgressSkel.t) : M unit :=
  match e with
  | EgressSkel.QuicV4 s | EgressSkel.QuicV6 s => set_tail_call s "tc_progs" "gut_egress_quic_long"
  | EgressSkel.SipV4 s | EgressSkel.SipV6 s => set_tail_call s "tc_progs" "gut_egress_sip_signal"
  | _ => mret tt
  end.

(** *** Attaching *)

(** [Drop for XdpAttachment]; a bpf_link detaches itself. *)
Definition drop_attachment (a : XdpAttachment) (b : B) : B :=
  match a with
  | Link l => bk_link_drop b l
  | Legacy ifindex flags => bk_xdp_detach b ifindex flags
  end.

(** SKB mode only. *)
Definition attach_skb (prog_fd ifindex : Z) : M XdpAttachment := λ b,
  let '(ret, b) := bk_xdp_attach b ifindex prog_fd XDP_FLAGS_SKB_MODE in
  if ret <? 0 then (Err (ESkbAttach (- ret)), b) else (Ok (Legacy ifindex XDP_FLAGS_SKB_MODE), b).

(** bpf_link, then native mode, then SKB mode. *)
Definition attach_native (prog_fd ifindex : Z) : M XdpAttachment := λ b,
  match bk_attach_xdp b prog_fd ifindex with
  | (Some link, b) => (Ok (Link link), b)
  | (None, b) =>
      let '(ret_drv, b) := bk_xdp_attach b ifindex prog_fd XDP_FLAGS_DRV_MODE in
      if 0 <=? ret_drv then (Ok (Legacy ifindex XDP_FLAGS_DRV_MODE), b)
      else let '(ret_skb, b) := bk_xdp_attach b ifindex prog_fd XDP_FLAGS_SKB_MODE in
           if ret_skb <? 0 then (Err (EXdpAttach (- ret_drv) (- ret_skb)), b)
           else (Ok (Legacy ifindex XDP_FLAGS_SKB_MODE), b)
  end.
End bpf.

(** ** The dispatcher *)

(** What the system says about itself, besides the state of the interfaces. *)
Record sysinfo := mkSys {
  s_release : option (list Z);
  s_netdir : option (list (list Z));
  s_readlink : list Z → option (list Z);
  s_proc_route : option (list Z);
  s_proc_route6 : option (list Z);
  s_name_of : Z → option (list Z);
  s_route_reply : list Z → option (list Z);
  s_src : IpAddr → option IpAddr;
  s_resolvers : resolvers;
  s_local : local_env
}.

(** [s.parse::<i32>()] *)
Definition parse_i32 (s : list Z) : option Z :=
  match s with
  | 45 :: 43 :: _ => None
  | 45 :: ds => Z.opp <$> parse_uint (2 ^ 31) ds
  | _ => parse_uint (2 ^ 31 - 1) s
  end.

(** [path.file_name()]: the last component, unless it is a dot or two. *)
Definition file_name (path : list Z) : option (list Z) :=
  let comps := filter (λ c, c ≠ []) (split_byte 47 path) in
  let normal := match comps with
                | c :: cs => c :: filter (λ c, c ≠ bs ".") cs
                | [] => []
                end in
  match last normal with
  | Some c => if str_eqb c (bs "..") || str_eqb c (bs ".") then None else Some c
  | None => None
  end.

Section manager.
  Context {K B : Type} `{NetKernel K} `{BpfKernel B}.

(** [/sys/class/net/<name>/<file>] *)
Definition net_path (n file : list Z) : list Z := bs "/sys/class/net/" ++ n ++ [47] ++ file.

Definition ifindex_to_name (sys : sysinfo) (k : K) (ifindex : Z) : option (list Z) :=
  entries ← s_netdir sys;
  snd <$> list_find (λ n, (c ← nk_sysfs k (net_path n (bs "ifindex")); parse_i32 (trim c)) = Some ifindex)
            entries.

Definition broken_driver (driver : list Z) : bool :=
  existsb (λ d, match find_sub d driver with Some _ => true | None => false end)
    [bs "vif"; bs "xen_netfront"; bs "xen-netfront"].

Definition should_force_skb (sys : sysinfo) (k : K) (ifindex : Z) : bool :=
  match ifindex_to_name sys k ifindex with
  | None => false
  | Some ifname =>
      match s_readlink sys (net_path ifname (bs "device/driver")) ≫= file_name with
      | Some driver => broken_driver driver
      | None => false
      end
      || match s_readlink sys (net_path ifname (bs "device/subsystem")) ≫= file_name with
         | Some subsystem => str_eqb subsystem (bs "xen")
         | None => false
         end
  end.

Definition dispatcher_new (sys : sysinfo) (k : K) (ingress_ifindex : Z) : KM B merr XdpDispatcher :=
  s ← load_skel (bs "xdp_dispatcher");
  prog_fd ← prog_of s "xdp_dispatch";
  a ← (if should_force_skb sys k ingress_ifindex then attach_skb prog_fd ingress_ifindex
       else attach_native prog_fd ingress_ifindex);
  mret (mkDispatcher s a 0).

(** The entries of the ports, in order. *)
Fixpoint register_ports (s : skel) (peer_idx : Z) (ports : list Z) : KM B merr unit :=
  match ports with
  | [] => mret tt
  | port :: ports =>
      _ ← update_named s "port_map" (u16_to_le_bytes port) (u32_to_le_bytes peer_idx);
      register_ports s peer_idx ports
  end.

(** The index is taken before the maps are written. *)
Definition register_peer (d : XdpDispatcher) (prog_raw_fd : Z) (ports : list Z) (b : B)
    : res merr Z * XdpDispatcher * B :=
  let peer_idx := next_peer_idx d in
  let d := mkDispatcher (xd_skel d) (xd_attach d) (wrapping_add 32 peer_idx 1) in
  let fd_val := as_u32 prog_raw_fd in
  let '(r, b) :=
    (_ ← update_named (xd_skel d) "xdp_peer_progs" (u32_to_le_bytes peer_idx) (u32_to_le_bytes fd_val);
     _ ← register_ports (xd_skel d) peer_idx ports;
     mret peer_idx) b in
  (r, d, b).

(** ** The manager of a peer *)

Record TcBpfManager := mkManager {
  m_interface : list Z;
  m_ingress_interface : list Z;
  m_egress_skel : EgressSkel.t;
  m_ingress_skel : skel;
  m_egress_hook : tc_hook;
  m_veth_pass_attach : XdpAttachment;
  m_veth_xdp_name : list Z;
  m_ingress_stats_fd : Z
}.

(** The interfaces, the packet programs and the dispatchers by interface. *)
Record world := mkWorld { w_net : K; w_bpf : B; w_disp : gmap (list Z) XdpDispatcher }.
Local Abbreviation W := (KM world merr).

Definition on_net {E A} (f : E → merr) (m : KM K E A) : W A := λ w,
  let '(r, k) := m (w_net w) in (map_err f r, mkWorld k (w_bpf w) (w_disp w)).
Definition on_bpf {A} (m : KM B merr A) : W A := λ w,
  let '(r, b) := m (w_bpf w) in (r, mkWorld (w_net w) b (w_disp w)).
Definition asks {A} (f : world → res merr A) : W A := λ w, (f w, w).

Definition host_at (sys : sysinfo) (k : K) : host :=
  mkHost (view k) (s_proc_route sys) (s_proc_route6 sys) (s_name_of sys) (s_route_reply sys) (s_src sys).

(** [release.split(&['.', '-'][..])] *)
Fixpoint split_release (cur l : list Z) : list (list Z) :=
  match l with
  | [] => [reverse cur]
  | b :: l => if (b =? 46) || (b =? 45) then reverse cur :: split_release [] l
              else split_release (b :: cur) l
  end.

Definition check_kernel_version (sys : sysinfo) : res merr (Z * Z * Z) :=
  release ← ok_or (s_release sys) EUname;
  let parts := split_release [] release in
  let num i := default 0 (parts !! i ≫= parse_uint u32_max) in
  Ok (num 0%nat, num 1%nat, num 2%nat).

(** The order of triples. *)
Definition version_lt (a b : Z * Z * Z) : bool :=
  let '(a0, a1, a2) := a in
  let '(b0, b1, b2) := b in
  (a0 <? b0) || ((a0 =? b0) && ((a1 <? b1) || ((a1 =? b1) && (a2 <? b2)))).

(** The interface the peer's packets arrive on. *)
Definition ingress_nic (h : host) (ifname : list Z) (p : PeerConfig) : res merr (list Z) :=
  match nonblank (nic p) with
  | Some nic => Ok nic
  | None =>
      if dynamic_peer p then ok_or (default_route_ifname (h_proc_route h)) ENoNic
      else
        info ← lift (route_get_info h (peer_ip p));
        match i_dev info with
        | Some dev => Ok dev
        | None => Ok (default ifname (default_route_ifname (h_proc_route h)))
        end
  end.

Definition load_as (f : skel → EgressSkel.t) (obj : list Z) : KM B merr EgressSkel.t :=
  s ← load_skel obj; mret (f s).

(** The skeleton of the egress program for a mode and an address family. *)
Definition load_egress (mode : ObfsMode) (v6 : bool) : KM B merr EgressSkel.t :=
  match mode, v6 with
  | Gut, true => load_as EgressSkel.V6 (bs "tc_gut_egress_v6")
  | Gut, false => load_as EgressSkel.V4 (bs "tc_gut_egress")
  | Syslog, true => load_as EgressSkel.SyslogV6 (bs "tc_gut_egress_syslog_v6")
  | Syslog, false => load_as EgressSkel.SyslogV4 (bs "tc_gut_egress_syslog")
  | Sip, true => load_as EgressSkel.SipV6 (bs "tc_gut_egress_sip_v6")
  | Sip, false => load_as EgressSkel.SipV4 (bs "tc_gut_egress_sip")
  | Quic, true => load_as EgressSkel.QuicV6 (bs "tc_gut_egress_quic_v6")
  | Quic, false => load_as EgressSkel.QuicV4 (bs "tc_gut_egress_quic")
  end.

Definition attach_egress (e : EgressSkel.t) (tun_ifindex : Z) : KM B merr tc_hook :=
  fd ← gut_egress_fd e;
  let hook := mkHook fd tun_ifindex true 1 1 in
  _ ← checked_bool ETcHook (λ b, bk_tc_create b hook);
  _ ← checked_bool ETcHook (λ b, bk_tc_attach b hook);
  mret hook.

(** *** load_ingress! *)

(** A map of the egress program takes the place of the one in the object. *)
Definition share_map (e : EgressSkel.t) (o : Z) (n : string) : KM B merr unit :=
  match get_map_fd e (bs n) with
  | Some fd => checked_bool EReuse (λ b, bk_reuse_fd b o (bs n) fd)
  | None => mret tt
  end.

Definition load_ingress_skel (obj : string) (e : EgressSkel.t) (veth_xdp_ifindex : Z) : KM B merr skel :=
  o ← open_skel (bs obj);
  _ ← share_map e o "client_map";
  _ ← share_map e o "session_map";
  _ ← share_map e o "config_map";
  _ ← share_map e o "counters_map";
  _ ← share_map e o "scratch_map";
  s ← load_opened o;
  _ ← update_named s "tx_devmap" key0 (u32_to_le_bytes veth_xdp_ifindex);
  mret s.

(** [m], and the attachment is dropped when it fails. *)
Definition guarded {A} (a : XdpAttachment) (m : W A) : W A := λ w,
  match m w with
  | (Err e, w) => (Err e, mkWorld (w_net w) (drop_attachment a (w_bpf w)) (w_disp w))
  | r => r
  end.

(** [dispatcher.register_peer(..)] on the dispatcher of an interface. *)
Definition register_on (nic : list Z) (prog_fd : Z) (ports : list Z) : W Z := λ w,
  match w_disp w !! nic with
  | None => (Abort, w)
  | Some d =>
      let '(r, d, b) := register_peer d prog_fd ports (w_bpf w) in
      (r, mkWorld (w_net w) b (<[nic := d]> (w_disp w)))
  end.

Definition load_ingress (obj : string) (e : EgressSkel.t) (veth_xdp_ifindex tun_ifindex : Z)
    (nic : list Z) (ports : list Z) : W (skel * XdpAttachment * Z) :=
  s ← on_bpf (load_ingress_skel obj e veth_xdp_ifindex);
  stats_fd ← on_bpf (map_of s "stats_map");
  prog_fd ← on_bpf (prog_of s "xdp_gut_ingress");
  vp_fd ← on_bpf (prog_of s "xdp_veth_pass");
  vpl ← on_bpf (attach_native vp_fd tun_ifindex);
  guarded vpl (_ ← register_on nic prog_fd ports; mret (s, vpl, stats_fd)).

(** The ingress program of a mode, with its second program for the modes that
    answer probes. *)
Definition load_ingress_mode (mode : ObfsMode) (e : EgressSkel.t) (veth_xdp_ifindex tun_ifindex : Z)
    (nic : list Z) (ports : list Z) : W (skel * XdpAttachment * Z) :=
  match mode with
  | Gut => load_ingress "xdp_gut_ingress" e veth_xdp_ifindex tun_ifindex nic ports
  | Syslog => load_ingress "xdp_gut_ingress_syslog" e veth_xdp_ifindex tun_ifindex nic ports
  | Sip =>
      '(s, vpl, stats_fd) ← load_ingress "xdp_gut_ingress_sip" e veth_xdp_ifindex tun_ifindex nic ports;
      guarded vpl (_ ← on_bpf (set_tail_call s "xdp_progs" "xdp_sip_probe"); mret (s, vpl, stats_fd))
  | Quic =>
      '(s, vpl, stats_fd) ← load_ingress "xdp_gut_ingress_quic" e veth_xdp_ifindex tun_ifindex nic ports;
      guarded vpl (_ ← on_bpf (set_tail_call s "xdp_progs" "xdp_quic_probe"); mret (s, vpl, stats_fd))
  end.

(** *** TcBpfManager *)

(** The dispatcher of the interface, made on first use. *)
Definition ensure_dispatcher (sys : sysinfo) (nic : list Z) (ingress_ifindex : Z) : W unit := λ w,
  match w_disp w !! nic with
  | Some _ => (Ok tt, w)
  | None =>
      match dispatcher_new sys (w_net w) ingress_ifindex (w_bpf w) with
      | (Ok d, b) => (Ok tt, mkWorld (w_net w) b (<[nic := d]> (w_disp w)))
      | (Err e, b) => (Err e, mkWorld (w_net w) b (w_disp w))
      | (Abort, b) => (Abort, mkWorld (w_net w) b (w_disp w))
      end
  end.

Definition build_for (sys : sysinfo) (p : PeerConfig) (tun nic : list Z) : W GutConfig :=
  asks (λ w, map_err EBuild (build_gut_config (host_at sys (w_net w)) (s_resolvers sys) (s_local sys) p tun nic)).

Definition tc_new (sys : sysinfo) (ifname : list Z) (config : Config) : W TcBpfManager :=
  p ← of_res (lift (peer config));
  nic ← asks (λ w, ingress_nic (host_at sys (w_net w)) ifname p);
  version ← of_res (check_kernel_version sys);
  _ ← of_res (ensure (negb (version_lt version (5, 2, 0))) (EKernelTooOld version));
  let veth_xdp_name := ifname ++ bs "_xdp" in
  _ ← on_net EVeth (create_veth_pair ifname veth_xdp_name (outer_mtu p) (Some (address p)));
  tun_ifindex ← on_net EIf (ifindex_of ifname);
  ingress_ifindex ← on_net EIf (ifindex_of nic);
  _ ← ensure_dispatcher sys nic ingress_ifindex;
  gut_config ← build_for sys p ifname nic;
  _ ← on_net EIf (link_set_gso_max_size ifname 9000);
  _ ← on_net EIf (link_set_gso_max_size veth_xdp_name 9000);
  eg ← on_bpf (load_egress (obfs p) (negb (is_v4 (peer_ip p))));
  _ ← on_bpf (update_config_map eg gut_config);
  _ ← on_bpf (update_counters_map eg 1);
  _ ← on_bpf (setup_tail_call eg);
  hook ← on_bpf (attach_egress eg tun_ifindex);
  veth_xdp_ifindex ← on_net EIf (ifindex_of veth_xdp_name);
  '(ing, vpl, stats_fd) ←
    load_ingress_mode (obfs p) eg (as_u32 veth_xdp_ifindex) tun_ifindex nic (ports p);
  mret (mkManager ifname nic eg ing hook vpl veth_xdp_name stats_fd).

Definition update_config (sys : sysinfo) (m : TcBpfManager) (config : Config) : W unit :=
  p ← of_res (lift (peer config));
  gut_config ← build_for sys p (m_interface m) (m_ingress_interface m);
  on_bpf (update_config_map (m_egress_skel m) gut_config).

(** [Drop for TcBpfManager], then the field with a destructor of its own. *)
Definition drop_manager (m : TcBpfManager) (w : world) : world :=
  let w := (on_net EVeth (destroy_veth (m_veth_xdp_name m)) w).2 in
  mkWorld (w_net w) (drop_attachment (m_veth_pass_attach m) (w_bpf w)) (w_disp w).
End manager.
Arguments world : clear implicits.
