(* ===== verification/TcLaws.v ===== *)
(** * What the library promises about maps and programs

    [BpfLaws] states the documented behaviour of libbpf that the loader relies
    on, for the maps that only the loader writes: an update is seen under its
    key in the map of the descriptor and nowhere else, a loaded object has
    maps of its own except for the ones that were replaced, and nothing else
    changes the contents of a map. *)

From stdpp Require Import gmap.
From S2P Require Import Prelude Words Slices Text Obfs Results StrOps Net Config Netlink Links Tun Routes Loader TcLoad.
Local Open Scope Z_scope.

(** ** Runs that succeed *)

Lemma KM_bind_inv {K E A A'} (m : KM K E A) (f : A → KM K E A') k b k' :
  (m ≫= f) k = (Ok b, k') → ∃ a k1, m k = (Ok a, k1) ∧ f a k1 = (Ok b, k').
Proof. unfold mbind, KM_bind. destruct (m k) as [[a|e|] k1]; [eauto|done..]. Qed.

Lemma of_res_inv {K E A} (r : res E A) (k : K) a k' : of_res r k = (Ok a, k') → r = Ok a ∧ k' = k.
Proof. unfold of_res. by intros [= -> ->]. Qed.

Lemma mret_inv {K E A} (a b : A) (k k' : K) : (mret a : KM K E A) k = (Ok b, k') → b = a ∧ k' = k.
Proof. by intros [= -> ->]. Qed.

(** Peel the steps of a run that returned [Ok]. *)
Ltac km_inv :=
  repeat match goal with
  | H : (_ ≫= _) _ = (Ok _, _) |- _ =>
      let x := fresh "x" in let k := fresh "b" in let E := fresh "E" in
      apply KM_bind_inv in H as (x & k & E & H);
      match type of x with unit => destruct x | _ => idtac end
  | H : of_res _ _ = (Ok _, _) |- _ =>
      let E := fresh "E" in apply of_res_inv in H as [E H]; subst
  | H : mret _ _ = (Ok _, _) |- _ =>
      let E := fresh "E" in apply mret_inv in H as [E H]; subst
  | H : ok_or _ _ = Ok _ |- _ => apply ok_or_inv in H
  end.

Section keeps.
  Context {B : Type} (bmap : B → Z → option Z) (cell : B → Z → list Z → option (list Z)).

(** Open descriptors stay open, and of the existing maps only those in [X]
    change. *)
Record evolves (X : gset Z) (b b' : B) : Prop := {
  ev_map : ∀ fd id, bmap b fd = Some id → bmap b' fd = Some id;
  ev_cell : ∀ fd id key, bmap b fd = Some id → id ∉ X → cell b' id key = cell b id key
}.
End keeps.

Class BpfLaws (B : Type) `{BpfKernel B} := {
  (** The map an open descriptor refers to. *)
  bl_map : B → Z → option Z;
  (** What a program reads from a map. *)
  bl_cell : B → Z → list Z → option (list Z);
  (** The map that takes the place of a map of an opened object. *)
  bl_shared : B → Z → list Z → option Z;

  law_open b obj o b' : bk_open b obj = (o, b') →
    evolves bl_map bl_cell ∅ b b' ∧ ∀ o', o = Some o' → ∀ n, bl_shared b' o' n = None;
  law_reuse b o n fd r b' : bk_reuse_fd b o n fd = (r, b') →
    evolves bl_map bl_cell ∅ b b' ∧
    (r = true → ∀ n', bl_shared b' o n' = if decide (n' = n) then bl_map b fd else bl_shared b o n');
  law_load_keeps b o r b' : bk_load b o = (r, b') → evolves bl_map bl_cell ∅ b b';
  law_load_shared b o s b' n fd id : bk_load b o = (Some s, b') →
    sk_maps s n = Some fd → bl_shared b o n = Some id → bl_map b' fd = Some id;
  law_load_own b o s b' n fd : bk_load b o = (Some s, b') →
    sk_maps s n = Some fd → bl_shared b o n = None →
    ∃ id, bl_map b' fd = Some id ∧ ∀ fd', bl_map b fd' ≠ Some id;
  law_load_distinct b o s b' n1 n2 fd1 fd2 id : bk_load b o = (Some s, b') →
    sk_maps s n1 = Some fd1 → sk_maps s n2 = Some fd2 →
    bl_shared b o n1 = None → bl_shared b o n2 = None →
    bl_map b' fd1 = Some id → bl_map b' fd2 = Some id → n1 = n2;
  law_update b fd key v b' : bk_update b fd key v = (true, b') →
    ∃ id, bl_map b fd = Some id ∧ (∀ fd', bl_map b' fd' = bl_map b fd') ∧
          ∀ id' key', bl_cell b' id' key' =
                      if decide (id' = id ∧ key' = key) then Some v else bl_cell b id' key';
  law_update_fail b fd key v b' : bk_update b fd key v = (false, b') → evolves bl_map bl_cell ∅ b b';
  law_attach_xdp b fd i r b' : bk_attach_xdp b fd i = (r, b') → evolves bl_map bl_cell ∅ b b';
  law_link_drop b l : evolves bl_map bl_cell ∅ b (bk_link_drop b l);
  law_xdp_attach b i fd flags r b' : bk_xdp_attach b i fd flags = (r, b') → evolves bl_map bl_cell ∅ b b';
  law_xdp_detach b i flags : evolves bl_map bl_cell ∅ b (bk_xdp_detach b i flags);
  law_tc_create b h r b' : bk_tc_create b h = (r, b') → evolves bl_map bl_cell ∅ b b';
  law_tc_attach b h r b' : bk_tc_attach b h = (r, b') → evolves bl_map bl_cell ∅ b b'
}.

Section specs.
  Context {B : Type} `{BpfLaws B}.
  Local Abbreviation changes := (evolves bl_map bl_cell).

(** ** Changes compose *)

#[global] Instance evolves_refl X : Reflexive (changes X).
Proof. intros b. by split. Qed.

Lemma evolves_trans X b1 b2 b3 : changes X b1 b2 → changes X b2 b3 → changes X b1 b3.
Proof.
  intros [M1 C1] [M2 C2]. split; [eauto|]. intros fd id key Hm Hid.
  rewrite (C2 fd) by eauto. by apply (C1 fd).
Qed.
#[global] Instance evolves_transitive X : Transitive (changes X).
Proof. exact (evolves_trans X). Qed.

Lemma evolves_mono X Y b b' : X ⊆ Y → changes X b b' → changes Y b b'.
Proof. intros HXY [M C]. split; [done|]. intros fd id key Hm Hid. apply (C fd); set_solver. Qed.

Definition fresh_id (b : B) (id : Z) : Prop := ∀ fd, bl_map b fd ≠ Some id.

(** A change to a map that did not exist is no change. *)
Lemma evolves_fresh X id b b' : fresh_id b id → changes ({[id]} ∪ X) b b' → changes X b b'.
Proof.
  intros Hf [M C]. split; [done|]. intros fd i key Hm Hi. apply (C fd); [done|].
  intros [->%elem_of_singleton|?]%elem_of_union; [by apply (Hf fd)|done].
Qed.

Lemma fresh_anti X b b' id : changes X b b' → fresh_id b' id → fresh_id b id.
Proof. intros [M _] Hf fd Hm. by apply (Hf fd), M. Qed.

(** ** The calls *)

Definition reads (b : B) (s : skel) (n : string) (key v : list Z) : Prop :=
  ∃ fd id, sk_maps s (bs n) = Some fd ∧ bl_map b fd = Some id ∧ bl_cell b id key = Some v.

(** The map behind a field. *)
Definition field_id (b : B) (s : skel) (n : string) (id : Z) : Prop :=
  ∃ fd, sk_maps s (bs n) = Some fd ∧ bl_map b fd = Some id.

Lemma field_id_evolves X b b' s n id : changes X b b' → field_id b s n id → field_id b' s n id.
Proof. intros [M _] (fd & ? & ?). exists fd. eauto. Qed.

Lemma field_id_fun b s n i j : field_id b s n i → field_id b s n j → i = j.
Proof. intros (fd & ? & ?) (fd' & ? & ?). congruence. Qed.

Lemma field_reads b s n id key v : field_id b s n id → bl_cell b id key = Some v → reads b s n key v.
Proof. intros (fd & ? & ?) ?. by exists fd, id. Qed.

Lemma reads_field b s n id key v : field_id b s n id → reads b s n key v → bl_cell b id key = Some v.
Proof. intros (fd & ? & ?) (fd' & id' & ? & ? & ?). congruence. Qed.

Lemma checked_inv {A} e (call : B → option A * B) b a b' :
  checked e call b = (Ok a, b') → call b = (Some a, b').
Proof. unfold checked. destruct (call b) as [[x|] b1]; [|done]. cbn. by intros [= -> ->]. Qed.

Lemma checked_bool_inv e (call : B → bool * B) b b' :
  checked_bool e call b = (Ok tt, b') → call b = (true, b').
Proof. unfold checked_bool. destruct (call b) as [[] b1]; [|done]. cbn. by intros [= ->]. Qed.

Lemma update_named_spec s n key v b b' : update_named s n key v b = (Ok tt, b') →
  ∃ id, field_id b s n id ∧ changes {[id]} b b' ∧
        ∀ key', bl_cell b' id key' = if decide (key' = key) then Some v else bl_cell b id key'.
Proof.
  unfold update_named, map_of, map_update. intros Hr. km_inv. rename E0 into Hfd.
  apply checked_bool_inv in Hr. rename Hr into Hu, x into fd.
  apply law_update in Hu as (id & Hm & HM & HC). exists id. split; [by exists fd|]. split.
  - split; [intros; by rewrite HM|]. intros fd' id' key' _ Hid. rewrite HC. case_decide as HD; [destruct HD; set_solver|done].
  - intros key'. rewrite HC. repeat case_decide; naive_solver.
Qed.

Lemma update_named_fail s n key v b r b' : update_named s n key v b = (r, b') → r ≠ Ok tt → changes ∅ b b'.
Proof.
  unfold update_named, map_of, of_res, map_update, checked_bool. unfold mbind, KM_bind.
  destruct (sk_maps s (bs n)) as [fd|]; cbn [ok_or]; [|intros [= <- <-] _; reflexivity].
  destruct (bk_update b fd key v) as [[] b1] eqn:Hu; cbn [ensure]; intros [= <- <-] Hr; [done|].
  by eapply law_update_fail.
Qed.

(** A skeleton whose maps are all its own: they are new and distinct. *)
Record own_maps (P : list Z → Prop) (b0 b : B) (s : skel) : Prop := {
  own_fresh : ∀ n fd, P n → sk_maps s n = Some fd → ∃ id, bl_map b fd = Some id ∧ fresh_id b0 id;
  own_distinct : ∀ n1 n2 fd1 fd2 id, P n1 → P n2 → sk_maps s n1 = Some fd1 → sk_maps s n2 = Some fd2 →
    bl_map b fd1 = Some id → bl_map b fd2 = Some id → n1 = n2
}.

Lemma load_opened_spec o s b b' : load_opened o b = (Ok s, b') →
  changes ∅ b b' ∧ own_maps (λ n, bl_shared b o n = None) b b' s ∧
  ∀ n fd id, sk_maps s n = Some fd → bl_shared b o n = Some id → bl_map b' fd = Some id.
Proof.
  unfold load_opened. intros Hl%checked_inv. split; [by eapply law_load_keeps|]. split; [split|].
  - intros n fd Hn Hfd. by eapply law_load_own.
  - intros n1 n2 fd1 fd2 id Hn1 Hn2 H1 H2. exact (law_load_distinct b o s b' n1 n2 fd1 fd2 id Hl H1 H2 Hn1 Hn2).
  - intros n fd id Hfd Hn. by eapply law_load_shared.
Qed.

Lemma load_skel_spec obj s b b' : load_skel obj b = (Ok s, b') →
  changes ∅ b b' ∧ own_maps (λ _, True) b b' s.
Proof.
  unfold load_skel, open_skel. intros Hl. km_inv. apply checked_inv, law_open in E as [Hk Hn].
  apply load_opened_spec in Hl as (Hk' & [Hf Hd] & _). split; [by etrans|].
  specialize (Hn x eq_refl). split.
  - intros n fd _ Hfd. destruct (Hf n fd (Hn n) Hfd) as (id & ? & ?). exists id. split; [done|].
    by eapply fresh_anti.
  - intros n1 n2 fd1 fd2 id _ _. apply Hd; apply Hn.
Qed.

(** Writing a map that is new since [b0]. *)
Lemma update_own_spec (P : list Z → Prop) b0 s n key v b b' : own_maps P b0 b s → P (bs n) →
  update_named s n key v b = (Ok tt, b') →
  ∃ id, field_id b s n id ∧ fresh_id b0 id ∧ changes {[id]} b b' ∧ bl_cell b' id key = Some v.
Proof.
  intros Ho HP Hu. apply update_named_spec in Hu as (id & (fd & Hfd & Hm) & Hk & Hc). exists id.
  destruct (own_fresh _ _ _ _ Ho _ _ HP Hfd) as (id' & Hm' & Hf). rewrite Hm in Hm'. injection Hm' as <-.
  split; [by exists fd|]. split; [done|]. split; [done|]. rewrite Hc. by case_decide.
Qed.

Lemma own_maps_evolves P X b0 b b' s : changes X b b' → own_maps P b0 b s → own_maps P b0 b' s.
Proof.
  intros [M C] [Hf Hd].
  assert (Hb : ∀ n fd id, P n → sk_maps s n = Some fd → bl_map b' fd = Some id → bl_map b fd = Some id).
  { intros n fd id HP Hfd Hm. destruct (Hf n fd HP Hfd) as (id' & Hm' & _).
    pose proof (M _ _ Hm'). congruence. }
  split.
  - intros n fd HP Hfd. destruct (Hf n fd HP Hfd) as (id & ? & ?). eauto.
  - intros n1 n2 fd1 fd2 id HP1 HP2 H1 H2 Hm1 Hm2. apply (Hd n1 n2 fd1 fd2 id); eauto.
Qed.

Lemma changes_since X b0 b b' id : changes X b0 b → fresh_id b0 id → changes {[id]} b b' → changes X b0 b'.
Proof.
  intros H1 Hf H2. apply (evolves_fresh X id); [done|]. 
  transitivity b; [apply (evolves_mono X)|apply (evolves_mono {[id]})]; (set_solver || done).
Qed.
End specs.
