(* ===== verification/TcProofs.v ===== *)
(** * Every port is dispatched to its peer

    After the managers of a configuration are set up, the dispatcher of an
    interface finds for each port of a peer that peer's ingress program, and
    both programs of the peer read the configuration record that was built for
    it.  Reloading a peer changes its own record only. *)

From stdpp Require Import gmap.
From S2P Require Import Prelude Words Slices Text Obfs Results StrOps Net Config Netlink Links Tun Routes Loader.
From S2P Require Import TcLoad TcLaws.
Local Open Scope Z_scope.

Section programs.
  Context {B : Type} `{BpfLaws B}.
  Local Abbreviation changes := (evolves bl_map bl_cell).

(** ** Attaching changes no map *)

Lemma attach_native_keeps fd i b r b' : attach_native fd i b = (r, b') → changes ∅ b b'.
Proof.
  unfold attach_native. destruct (bk_attach_xdp b fd i) as [[l|] b1] eqn:E1.
  { intros [= _ <-]. by eapply law_attach_xdp. }
  destruct (bk_xdp_attach b1 i fd _) as [r2 b2] eqn:E2.
  apply law_attach_xdp in E1. apply law_xdp_attach in E2.
  destruct (0 <=? r2); [intros [= _ <-]; by etrans|].
  destruct (bk_xdp_attach b2 i fd _) as [r3 b3] eqn:E3. apply law_xdp_attach in E3.
  destruct (r3 <? 0); intros [= _ <-]; (etrans; [|done]; by etrans).
Qed.

Lemma attach_skb_keeps fd i b r b' : attach_skb fd i b = (r, b') → changes ∅ b b'.
Proof.
  unfold attach_skb. destruct (bk_xdp_attach b i fd _) as [r2 b2] eqn:E2. apply law_xdp_attach in E2.
  destruct (r2 <? 0); by intros [= _ <-].
Qed.

Lemma attach_egress_spec e i h b b' : attach_egress e i b = (Ok h, b') → changes ∅ b b'.
Proof.
  unfold attach_egress, gut_egress_fd, prog_of. intros Hr. km_inv.
  apply checked_bool_inv, law_tc_create in E0. apply checked_bool_inv, law_tc_attach in E1. by etrans.
Qed.

(** ** The egress program *)

Lemma load_egress_spec mode v6 e b b' : load_egress mode v6 b = (Ok e, b') →
  changes ∅ b b' ∧ own_maps (λ _, True) b b' (inner e).
Proof.
  unfold load_egress, load_as. intros Hr.
  destruct mode, v6; km_inv; by eapply load_skel_spec.
Qed.

Lemma own_neq (P : list Z → Prop) b0 b s n1 n2 i j : own_maps P b0 b s → P (bs n1) → P (bs n2) →
  field_id b s n1 i → field_id b s n2 j → bs n1 ≠ bs n2 → i ≠ j.
Proof.
  intros Ho HP1 HP2 (f1 & H1 & M1) (f2 & H2 & M2) Hn ->. apply Hn.
  by apply (own_distinct _ _ _ _ Ho (bs n1) (bs n2) f1 f2 j).
Qed.

(** Writing another map of the same skeleton keeps a cell. *)
Lemma update_sibling (P : list Z → Prop) b0 s n n' id key v b b' :
  own_maps P b0 b s → P (bs n) → P (bs n') → bs n ≠ bs n' → changes ∅ b0 b →
  field_id b s n id → update_named s n' key v b = (Ok tt, b') →
  changes ∅ b0 b' ∧ own_maps P b0 b' s ∧ field_id b' s n id ∧ ∀ k, bl_cell b' id k = bl_cell b id k.
Proof.
  intros Ho HP HP' Hn Hk0 Hf Hu.
  destruct (update_own_spec P b0 s n' key v b b' Ho HP' Hu) as (j & Hj & Hfr & Hk & _).
  split; [by eapply changes_since|]. split; [by eapply own_maps_evolves|].
  split; [by eapply field_id_evolves|]. intros k. destruct Hf as (fd & Hfd & Hm).
  apply (ev_cell _ _ _ _ _ Hk fd); [done|]. apply not_elem_of_singleton.
  eapply (own_neq P b0 b s n n'); [done..|by exists fd|done|done].
Qed.

Lemma set_tail_call_inv s array prog b b' : set_tail_call s array prog b = (Ok tt, b') →
  ∃ fd, update_named s array key0 (u32_to_le_bytes (as_u32 fd)) b = (Ok tt, b').
Proof. unfold set_tail_call, prog_of. intros Hr. km_inv. by exists x. Qed.

(** The record is in the configuration map when the program is attached. *)
Lemma egress_spec mode v6 e g i h b0 b1 b2 b3 b4 b5 :
  load_egress mode v6 b0 = (Ok e, b1) →
  update_config_map e g b1 = (Ok tt, b2) →
  update_counters_map e 1 b2 = (Ok tt, b3) →
  setup_tail_call e b3 = (Ok tt, b4) →
  attach_egress e i b4 = (Ok h, b5) →
  changes ∅ b0 b5 ∧ ∃ id, field_id b5 (inner e) "config_map" id ∧ fresh_id b0 id ∧
    bl_cell b5 id key0 = Some (gut_config_bytes g).
Proof.
  intros Hl Hc Hn Ht Ha. apply load_egress_spec in Hl as [K1 O1].
  apply (update_own_spec _ _ _ _ _ _ _ _ O1 I) in Hc as (id & F1 & Hfr & K2 & C2).
  pose proof (changes_since _ _ _ _ _ K1 Hfr K2) as K02.
  pose proof (own_maps_evolves _ _ _ _ _ _ K2 O1) as O2.
  pose proof (field_id_evolves _ _ _ _ _ _ K2 F1) as F2.
  apply (update_sibling _ _ _ "config_map" _ id _ _ _ _ O2 I I) in Hn as (K03 & O3 & F3 & C3); [|done..].
  assert (changes ∅ b0 b4 ∧ field_id b4 (inner e) "config_map" id ∧ ∀ k, bl_cell b4 id k = bl_cell b3 id k)
    as (K04 & F4 & C4).
  { unfold setup_tail_call in Ht.
    destruct e; try (by apply mret_inv in Ht as [_ ->]);
      apply set_tail_call_inv in Ht as [fd Ht];
      apply (update_sibling _ _ _ "config_map" _ id _ _ _ _ O3 I I) in Ht as (? & ? & ? & ?); done. }
  apply attach_egress_spec in Ha. split; [by etrans|]. exists id.
  pose proof F4 as (fd & Hfd & Hm). split; [by eapply field_id_evolves|]. split; [done|].
  rewrite (ev_cell _ _ _ _ _ Ha fd), C4, C3; done.
Qed.

(** ** The ingress program *)

Lemma share_map_spec e o n b b' : share_map e o n b = (Ok tt, b') →
  changes ∅ b b' ∧ (∀ n', n' ≠ bs n → bl_shared b' o n' = bl_shared b o n') ∧
  (∀ fd, get_map_fd e (bs n) = Some fd → bl_shared b' o (bs n) = bl_map b fd).
Proof.
  unfold share_map. destruct (get_map_fd e (bs n)) as [fd|].
  - intros Hr%checked_bool_inv. apply law_reuse in Hr as [Hk Hs]. specialize (Hs eq_refl).
    split; [done|]. split.
    + intros n' Hn. rewrite Hs. by case_decide.
    + intros fd' [= <-]. rewrite Hs. by case_decide.
  - intros [_ ->]%mret_inv. split; [reflexivity|]. done.
Qed.

Definition shared_names : list (list Z) :=
  [bs "client_map"; bs "session_map"; bs "config_map"; bs "counters_map"; bs "scratch_map"].

Lemma load_ingress_skel_spec obj e x s b0 b : load_ingress_skel obj e x b0 = (Ok s, b) →
  changes ∅ b0 b ∧ own_maps (λ n, n ∉ shared_names) b0 b s ∧
  (∃ id, field_id b s "tx_devmap" id ∧ fresh_id b0 id ∧ bl_cell b id key0 = Some (u32_to_le_bytes x)) ∧
  (∀ id fd, field_id b0 (inner e) "config_map" id → sk_maps s (bs "config_map") = Some fd →
     bl_map b fd = Some id).
Proof.
  unfold load_ingress_skel, open_skel. intros Hr. km_inv. rename x0 into o, x1 into s.
  apply checked_inv, law_open in E as [K0 S0]. specialize (S0 o eq_refl).
  apply share_map_spec in E0 as (K1 & S1 & _), E1 as (K2 & S2 & _), E2 as (K3 & S3 & S3'),
    E3 as (K4 & S4 & _), E4 as (K5 & S5 & _).
  assert (K03 : changes ∅ b0 b3) by (by do 2 (etrans; [|done])).
  assert (K05 : changes ∅ b0 b6) by (by do 3 (etrans; [|done])).
  apply load_opened_spec in E5 as (K6 & [O1 O2] & HS).
  assert (Hnone : ∀ n, n ∉ shared_names → bl_shared b6 o n = None).
  { intros n Hn. unfold shared_names in Hn. repeat (apply not_elem_of_cons in Hn as [? Hn]).
    rewrite S5, S4, S3, S2, S1 by done. apply S0. }
  assert (O : own_maps (λ n, n ∉ shared_names) b0 b7 s).
  { split.
    - intros n fd Hn Hfd. destruct (O1 n fd (Hnone n Hn) Hfd) as (id & ? & Hf). exists id. split; [done|].
      by eapply fresh_anti.
    - intros n1 n2 fd1 fd2 id Hn1 Hn2. by apply O2; apply Hnone. }
  assert (Hdev : bs "tx_devmap" ∉ shared_names) by (apply (bool_decide_unpack _); vm_compute; exact I).
  destruct (update_own_spec _ _ _ _ _ _ _ _ O Hdev E6) as (id & F & Hfr & K7 & C).
  split; [|split; [|split]].
  - eapply changes_since; [|exact Hfr|exact K7]. by etrans.
  - by eapply own_maps_evolves.
  - exists id. split; [by eapply field_id_evolves|done].
  - intros idc fd (fdc & Hfdc & Hmc) Hfd. apply (ev_map _ _ _ _ _ K7).
    apply (HS (bs "config_map")); [done|]. rewrite S5, S4 by done.
    rewrite (S3' fdc); [|exact Hfdc]. by apply (ev_map _ _ _ _ _ K03).
Qed.

(** ** Registration *)

Lemma register_ports_spec s idx ports id b b' : field_id b s "port_map" id →
  register_ports s idx ports b = (Ok tt, b') →
  changes {[id]} b b' ∧
  ∀ key, bl_cell b' id key = if decide (key ∈ u16_to_le_bytes <$> ports) then Some (u32_to_le_bytes idx)
                             else bl_cell b id key.
Proof.
  revert b. induction ports as [|port ports IH]; intros b Hf Hr.
  { apply mret_inv in Hr as [_ ->]. split; [reflexivity|done]. }
  cbn [register_ports] in Hr. km_inv. apply update_named_spec in E as (id' & F & K & C).
  rewrite (field_id_fun _ _ _ _ _ F Hf) in *. apply (field_id_evolves _ _ _ _ _ _ K) in Hf.
  destruct (IH _ Hf Hr) as [K' C']. split; [by etrans|]. intros key. rewrite C', C, fmap_cons.
  destruct (decide (key ∈ _)) as [Hin|Hin]; [by rewrite decide_True by (by right)|].
  destruct (decide (key = _)) as [->|Hne]; [by rewrite decide_True by left|].
  rewrite decide_False; [done|]. by apply not_elem_of_cons.
Qed.

Lemma register_peer_spec d fd ports ip ig b r d' b' :
  field_id b (xd_skel d) "port_map" ip → field_id b (xd_skel d) "xdp_peer_progs" ig → ip ≠ ig →
  register_peer d fd ports b = (Ok r, d', b') →
  d' = mkDispatcher (xd_skel d) (xd_attach d) (wrapping_add 32 (next_peer_idx d) 1) ∧
  changes {[ip; ig]} b b' ∧
  (∀ key, bl_cell b' ip key = if decide (key ∈ u16_to_le_bytes <$> ports)
                              then Some (u32_to_le_bytes (next_peer_idx d)) else bl_cell b ip key) ∧
  (∀ key, bl_cell b' ig key = if decide (key = u32_to_le_bytes (next_peer_idx d))
                              then Some (u32_to_le_bytes (as_u32 fd)) else bl_cell b ig key).
Proof.
  intros Fp Fg Hne. unfold register_peer.
  destruct ((update_named _ _ _ _ ≫= _) b) as [r1 b1] eqn:Hr. intros [= -> <- ->]. split; [done|].
  cbn [xd_skel] in Hr. km_inv. apply update_named_spec in E as (ig' & Fg' & K1 & C1).
  rewrite (field_id_fun _ _ _ _ _ Fg' Fg) in *.
  pose proof (field_id_evolves _ _ _ _ _ _ K1 Fp) as Fp1.
  pose proof Fp as (fp & Hfp & Hmp). pose proof Fg as (fg & Hfg & Hmg).
  pose proof (ev_map _ _ _ _ _ K1 _ _ Hmg) as Hmg1.
  destruct (register_ports_spec _ _ _ _ _ _ Fp1 E0) as [K2 C2].
  split; [transitivity b0; eapply evolves_mono; [|exact K1| |exact K2]; set_solver|]. split.
  - intros key. rewrite C2. case_decide; [done|]. apply (ev_cell _ _ _ _ _ K1 fp); set_solver.
  - intros key. rewrite (ev_cell _ _ _ _ _ K2 fg) by set_solver. apply C1.
Qed.
End programs.
