(* ===== verification/TcServe.v ===== *)
(** * The invariant of the managers

    Each map that the loader writes after it is loaded has a role: the ports
    or the programs of a dispatcher, the configuration or the output device of
    a peer.  The roles keep the maps apart, so that setting up or reloading a
    peer leaves the others as they are. *)

From stdpp Require Import gmap.
From S2P Require Import Prelude Words Slices Text Obfs Results StrOps Net Config Netlink Links Tun Routes Loader.
From S2P Require Import TcLoad TcLaws TcProofs.
Local Open Scope Z_scope.

Inductive role :=
| RPorts (nic : list Z) | RProgs (nic : list Z)
| RConfig (i : nat) | RDev (i : nat).

#[global] Instance role_eq_dec : EqDecision role.
Proof. solve_decision. Defined.

(** A peer that is set up: its configuration, its manager, the record in its
    configuration map and the interface its packets are sent to. *)
Record entry := mkEntry { en_peer : PeerConfig; en_mgr : TcBpfManager; en_gut : GutConfig; en_dev : Z }.

Section invariant.
  Context {K B : Type} `{NetKernel K} `{BpfLaws B}.
  Local Abbreviation changes := (evolves bl_map bl_cell).
  Local Abbreviation world := (world K B).

(** A field of a skeleton, if it has it, is a map with the given role. *)
Definition has_role (roles : gmap Z role) (b : B) (s : skel) (n : string) (r : role) : Prop :=
  ∀ fd, sk_maps s (bs n) = Some fd → ∃ id, bl_map b fd = Some id ∧ roles !! id = Some r.

(** The dispatcher of the peer's interface leads from each of its ports to
    its program. *)
Definition dispatches (w : world) (p : PeerConfig) (m : TcBpfManager) : Prop :=
  ∃ d idx fd, w_disp w !! m_ingress_interface m = Some d ∧ 0 ≤ idx < next_peer_idx d ∧
    sk_progs (m_ingress_skel m) (bs "xdp_gut_ingress") = Some fd ∧
    reads (w_bpf w) (xd_skel d) "xdp_peer_progs" (u32_to_le_bytes idx) (u32_to_le_bytes (as_u32 fd)) ∧
    ∀ port, port ∈ ports p →
      reads (w_bpf w) (xd_skel d) "port_map" (u16_to_le_bytes port) (u32_to_le_bytes idx).

(** Both programs of a peer read its record from one map. *)
Definition configured (roles : gmap Z role) (b : B) (i : nat) (m : TcBpfManager) (g : GutConfig) : Prop :=
  ∃ id, field_id b (inner (m_egress_skel m)) "config_map" id ∧ roles !! id = Some (RConfig i) ∧
    bl_cell b id key0 = Some (gut_config_bytes g) ∧
    ∀ fd, sk_maps (m_ingress_skel m) (bs "config_map") = Some fd → bl_map b fd = Some id.

Definition redirects (roles : gmap Z role) (b : B) (i : nat) (m : TcBpfManager) (x : Z) : Prop :=
  ∃ id, field_id b (m_ingress_skel m) "tx_devmap" id ∧ roles !! id = Some (RDev i) ∧
    bl_cell b id key0 = Some (u32_to_le_bytes x).

(** [n] bounds the indices that were given out. *)
Record inv (roles : gmap Z role) (n : Z) (w : world) (es : list entry) : Prop := {
  inv_live : ∀ id r, roles !! id = Some r → ∃ fd, bl_map (w_bpf w) fd = Some id;
  inv_disp : ∀ nic d, w_disp w !! nic = Some d →
    has_role roles (w_bpf w) (xd_skel d) "port_map" (RPorts nic) ∧
    has_role roles (w_bpf w) (xd_skel d) "xdp_peer_progs" (RProgs nic) ∧
    0 ≤ next_peer_idx d ≤ n;
  inv_served : ∀ i e, es !! i = Some e →
    dispatches w (en_peer e) (en_mgr e) ∧ configured roles (w_bpf w) i (en_mgr e) (en_gut e) ∧
    redirects roles (w_bpf w) i (en_mgr e) (en_dev e)
}.

(** ** Preservation *)

Lemma has_role_field roles b s n r id : has_role roles b s n r → field_id b s n id → roles !! id = Some r.
Proof. intros Hr (fd & Hfd & Hm). destruct (Hr fd Hfd) as (id' & Hm' & ?). congruence. Qed.

Lemma has_role_evolves X roles roles' b b' s n r : roles ⊆ roles' → changes X b b' →
  has_role roles b s n r → has_role roles' b' s n r.
Proof.
  intros Hsub [M _] Hr fd Hfd. destruct (Hr fd Hfd) as (id & Hm & Hi). exists id. split; [by apply M|].
  by eapply lookup_weaken.
Qed.

Lemma reads_evolves X b b' s n key v : changes X b b' → (∀ id, field_id b s n id → id ∉ X) →
  reads b s n key v → reads b' s n key v.
Proof.
  intros [M C] Hx (fd & id & Hfd & Hm & Hc). exists fd, id. split; [done|]. split; [by apply M|].
  rewrite (C fd); [done..|]. apply Hx. by exists fd.
Qed.

Lemma configured_evolves X roles roles' b b' i m g : changes X b b' → roles ⊆ roles' →
  (∀ id, roles !! id = Some (RConfig i) → id ∉ X) → configured roles b i m g → configured roles' b' i m g.
Proof.
  intros Hk Hsub Hx (id & F & Hi & Hc & Hsh). exists id. pose proof F as (f & Hf & Hm).
  split; [by eapply field_id_evolves|]. split; [by eapply lookup_weaken|]. split.
  - rewrite (ev_cell _ _ _ _ _ Hk f); [done..|by apply Hx].
  - intros fd Hfd. by apply (ev_map _ _ _ _ _ Hk), Hsh.
Qed.

Lemma redirects_evolves X roles roles' b b' i m x : changes X b b' → roles ⊆ roles' →
  (∀ id, roles !! id = Some (RDev i) → id ∉ X) → redirects roles b i m x → redirects roles' b' i m x.
Proof.
  intros Hk Hsub Hx (id & F & Hi & Hc). exists id. pose proof F as (f & Hf & Hm).
  split; [by eapply field_id_evolves|]. split; [by eapply lookup_weaken|].
  rewrite (ev_cell _ _ _ _ _ Hk f); [done..|by apply Hx].
Qed.

(** The maps of a dispatcher that stays are not among the changed ones. *)
Lemma dispatches_evolves X roles n k k' b b' disp disp' es p m :
  inv roles n (mkWorld k b disp) es → changes X b b' →
  disp' !! m_ingress_interface m = disp !! m_ingress_interface m →
  (∀ id, roles !! id = Some (RPorts (m_ingress_interface m)) ∨
         roles !! id = Some (RProgs (m_ingress_interface m)) → id ∉ X) →
  dispatches (mkWorld k b disp) p m → dispatches (mkWorld k' b' disp') p m.
Proof.
  intros Hi Hk Hdisp Hx (d & idx & fd & Hd & Hidx & Hfd & Hg & Hp). cbn [w_bpf w_disp] in *.
  destruct (inv_disp _ _ _ _ Hi _ _ Hd) as (Rp & Rg & _). cbn [w_bpf] in *.
  exists d, idx, fd. cbn [w_bpf w_disp]. rewrite Hdisp. split_and!; [done|lia|lia|done| |].
  - eapply reads_evolves; [done| |done]. intros id F. apply Hx. right. exact (has_role_field _ _ _ _ _ _ Rg F).
  - intros port Hport. eapply reads_evolves; [done| |by apply Hp].
    intros id F. apply Hx. left. exact (has_role_field _ _ _ _ _ _ Rp F).
Qed.

(** Maps outside of the roles may change, and roles may be added. *)
Lemma inv_evolves X roles roles' n k k' b b' disp es :
  changes X b b' → (∀ id, id ∈ X → roles !! id = None) → roles ⊆ roles' →
  (∀ id r, roles' !! id = Some r → ∃ fd, bl_map b' fd = Some id) →
  inv roles n (mkWorld k b disp) es → inv roles' n (mkWorld k' b' disp) es.
Proof.
  intros Hk HX Hsub Hlive Hi.
  assert (Hno : ∀ id r, roles !! id = Some r → id ∉ X).
  { intros id r Hr Hin. specialize (HX id Hin). congruence. }
  split; cbn [w_bpf w_disp]; [done| |].
  - intros nic d Hd. destruct (inv_disp _ _ _ _ Hi nic d Hd) as (? & ? & ?).
    split_and!; [by eapply has_role_evolves..|lia|lia].
  - intros i e He. destruct (inv_served _ _ _ _ Hi i e He) as (Hd & Hc & Hr). split; [|split].
    + eapply dispatches_evolves; [done..| |done]. intros id [?|?]; by eapply Hno.
    + eapply configured_evolves; [done..| |done]. intros id ?. by eapply Hno.
    + eapply redirects_evolves; [done..| |done]. intros id ?. by eapply Hno.
Qed.

(** What changes no map keeps the invariant. *)
Lemma inv_keeps roles n k k' b b' disp es : changes ∅ b b' →
  inv roles n (mkWorld k b disp) es → inv roles n (mkWorld k' b' disp) es.
Proof.
  intros Hk Hi. eapply (inv_evolves ∅ roles roles); [done|set_solver|done| |done].
  intros id r Hr. destruct (inv_live _ _ _ _ Hi id r Hr) as [fd Hm]. exists fd. by apply (ev_map _ _ _ _ _ Hk).
Qed.

(** ** Dispatchers *)

Lemma dispatcher_new_spec sys k i d b b' : dispatcher_new sys k i b = (Ok d, b') →
  changes ∅ b b' ∧ own_maps (λ _, True) b b' (xd_skel d) ∧ next_peer_idx d = 0.
Proof.
  unfold dispatcher_new, prog_of. intros Hr. km_inv.
  apply load_skel_spec in E as [K1 O]. cbn [xd_skel next_peer_idx].
  split; [|split; [|done]].
  - etrans; [exact K1|]. destruct (should_force_skb sys k i); [by eapply attach_skb_keeps|by eapply attach_native_keeps].
  - eapply own_maps_evolves; [|exact O].
    destruct (should_force_skb sys k i); [by eapply attach_skb_keeps|by eapply attach_native_keeps].
Qed.

(** Give a role to a new map, if the skeleton has it. *)
Lemma add_role (roles : gmap Z role) b0 b s n r : own_maps (λ _, True) b0 b s →
  ∃ roles' : gmap Z role, has_role roles' b s n r ∧
    (∀ id r', roles' !! id = Some r' → roles !! id = Some r' ∨ field_id b s n id) ∧
    (∀ id, ¬ field_id b s n id → roles' !! id = roles !! id).
Proof.
  intros Ho. destruct (sk_maps s (bs n)) as [fd|] eqn:Hfd.
  - destruct (own_fresh _ _ _ _ Ho _ _ I Hfd) as (id & Hm & Hf). exists (<[id := r]> roles). split_and!.
    + intros fd' Hfd'. exists id. rewrite lookup_insert_eq. split; congruence.
    + intros id' r'. destruct (decide (id' = id)) as [->|Hne]; [right; by exists fd|].
      rewrite lookup_insert_ne by done. by left.
    + intros id' Hid'. rewrite lookup_insert_ne; [done|]. intros <-. apply Hid'. by exists fd.
  - exists roles. split_and!; [|by left|done]. intros fd' ?. congruence.
Qed.

Lemma ensure_dispatcher_spec sys nic i roles n k b disp es w' :
  0 ≤ n → inv roles n (mkWorld k b disp) es →
  ensure_dispatcher sys nic i (mkWorld k b disp) = (Ok tt, w') →
  ∃ roles' b' disp', w' = mkWorld k b' disp' ∧ inv roles' n w' es ∧ changes ∅ b b' ∧
    ∃ d, disp' !! nic = Some d.
Proof.
  intros Hn Hi. unfold ensure_dispatcher. cbn [w_disp w_net w_bpf].
  destruct (disp !! nic) as [d|] eqn:Hd.
  { intros [= <-]. exists roles, b, disp. split_and!; [done|done|reflexivity|by exists d]. }
  destruct (dispatcher_new sys k i b) as [[d| |] b'] eqn:Hnew; [|done..]. intros [= <-].
  apply dispatcher_new_spec in Hnew as (Hk & Ho & Hnext).
  destruct (add_role roles b b' (xd_skel d) "port_map" (RPorts nic) Ho) as (r1 & R1 & D1 & U1).
  destruct (add_role r1 b b' (xd_skel d) "xdp_peer_progs" (RProgs nic) Ho) as (r2 & R2 & D2 & U2).
  assert (Hlive : ∀ id r, roles !! id = Some r → ¬ fresh_id b id).
  { intros id r Hr Hf. destruct (inv_live _ _ _ _ Hi id r Hr) as [fd Hm]. by apply (Hf fd). }
  assert (Hfield : ∀ s id, field_id b' (xd_skel d) s id → fresh_id b id).
  { intros s id (fd & Hfd & Hm). destruct (own_fresh _ _ _ _ Ho _ _ I Hfd) as (id' & ? & ?). congruence. }
  assert (Hsub : roles ⊆ r2).
  { apply map_subseteq_spec. intros id r Hr. rewrite U2, U1; [done|..]; intros F; by eapply Hlive, Hfield. }
  assert (R1' : has_role r2 b' (xd_skel d) "port_map" (RPorts nic)).
  { intros fd Hfd. destruct (R1 fd Hfd) as (id & Hm & Hr). exists id. split; [done|]. rewrite U2; [done|].
    intros F. eapply (own_neq _ _ _ _ "port_map" "xdp_peer_progs" id id Ho I I); [by exists fd|done..]. }
  assert (Hl2 : ∀ id r, r2 !! id = Some r → ∃ fd, bl_map b' fd = Some id).
  { intros id r [Hr|(fd & _ & ?)]%D2; [|eauto]. apply D1 in Hr as [Hr|(fd & _ & ?)]; [|eauto].
    destruct (inv_live _ _ _ _ Hi id r Hr) as [fd Hm]. exists fd. by apply (ev_map _ _ _ _ _ Hk). }
  exists r2, b', (<[nic := d]> disp). split; [done|].
  split; [|split; [done|exists d; apply lookup_insert_eq]].
  apply (inv_evolves ∅ roles r2 n k k b b' disp es Hk) in Hi as [IL ID IS]; [|set_solver|done|done].
  cbn [w_bpf w_disp] in *. split; cbn [w_bpf w_disp]; [done| |].
  - intros nic' d'. destruct (decide (nic' = nic)) as [->|Hne].
    + rewrite lookup_insert_eq. intros [= <-]. split_and!; [done|done|lia|lia].
    + rewrite lookup_insert_ne by done. apply ID.
  - intros j e He. destruct (IS j e He) as ((d0 & idx & fd & Hd0 & Hrest) & Hc & Hr). split; [|by split].
    exists d0, idx, fd. split; [|done]. cbn [w_disp] in *. rewrite lookup_insert_ne; [done|].
    intros Heq. rewrite Heq in Hd. congruence.
Qed.

(** ** Registration *)

Lemma register_peer_fields d fd ps b r d' b' : register_peer d fd ps b = (Ok r, d', b') → ps ≠ [] →
  (∃ f, sk_maps (xd_skel d) (bs "port_map") = Some f) ∧
  (∃ f, sk_maps (xd_skel d) (bs "xdp_peer_progs") = Some f).
Proof.
  unfold register_peer. destruct ((update_named _ _ _ _ ≫= _) b) as [r1 b1] eqn:Hr. intros [= -> _ _] Hps.
  cbn [xd_skel] in Hr. km_inv. destruct ps as [|port ps]; [done|]. cbn [register_ports] in E0. km_inv.
  apply update_named_spec in E as (? & (f & ? & _) & _), E1 as (? & (f' & ? & _) & _). eauto.
Qed.

(** The ports of a peer belong to no other. *)
Definition ports_apart (es : list entry) (ps : list Z) : Prop :=
  Forall is_u16 ps ∧
  ∀ e, e ∈ es → Forall is_u16 (ports (en_peer e)) ∧ ∀ port, port ∈ ports (en_peer e) → port ∉ ps.

(** A peer of the same dispatcher keeps its entries. *)
Lemma dispatches_register d d' fd ps ip ig k b b' disp nic p m :
  xd_skel d' = xd_skel d → next_peer_idx d' = next_peer_idx d + 1 → 0 ≤ next_peer_idx d < 2 ^ 32 →
  disp !! nic = Some d → field_id b (xd_skel d) "port_map" ip → field_id b (xd_skel d) "xdp_peer_progs" ig →
  changes {[ip; ig]} b b' →
  (∀ key, bl_cell b' ip key = if decide (key ∈ u16_to_le_bytes <$> ps)
                              then Some (u32_to_le_bytes (next_peer_idx d)) else bl_cell b ip key) →
  (∀ key, bl_cell b' ig key = if decide (key = u32_to_le_bytes (next_peer_idx d))
                              then Some (u32_to_le_bytes (as_u32 fd)) else bl_cell b ig key) →
  Forall is_u16 ps → Forall is_u16 (ports p) → (∀ port, port ∈ ports p → port ∉ ps) →
  m_ingress_interface m = nic →
  dispatches (mkWorld k b disp) p m → dispatches (mkWorld k b' (<[nic := d']> disp)) p m.
Proof.
  intros Hs Hnext Hrange Hd Fp Fg Hk Cp Cg Hps Hpp Hap Hm (d0 & idx & f & Hd0 & Hidx & Hf & Rg & Rp).
  cbn [w_disp w_bpf] in *. rewrite Hm, Hd in Hd0. injection Hd0 as <-.
  exists d', idx, f. cbn [w_disp w_bpf]. rewrite Hm, lookup_insert_eq, Hs, Hnext.
  split_and!; [done|lia|lia|done| |].
  - apply (field_reads _ _ _ ig); [by eapply field_id_evolves|]. rewrite Cg. case_decide as He.
    + apply le_bytes_inj in He; [lia|split; cbn; lia..].
    + by apply (reads_field _ _ _ _ _ _ Fg).
  - intros port Hport. apply (field_reads _ _ _ ip); [by eapply field_id_evolves|]. rewrite Cp.
    case_decide as He.
    + exfalso. apply list_elem_of_fmap in He as (port' & He & Hin). apply le_bytes_inj in He as <-.
      * by apply (Hap port).
      * by eapply Forall_forall in Hpp.
      * by eapply Forall_forall in Hps.
    + apply (reads_field _ _ _ _ _ _ Fp). by apply Rp.
Qed.

Lemma inv_register roles n k b disp es nic d fd ps r d' b' :
  inv roles n (mkWorld k b disp) es → n + 1 < 2 ^ 32 → disp !! nic = Some d → ps ≠ [] → ports_apart es ps →
  register_peer d fd ps b = (Ok r, d', b') →
  inv roles (n + 1) (mkWorld k b' (<[nic := d']> disp)) es ∧
  (∃ ip ig, roles !! ip = Some (RPorts nic) ∧ roles !! ig = Some (RProgs nic) ∧ changes {[ip; ig]} b b') ∧
  0 ≤ next_peer_idx d < next_peer_idx d' ∧ 
  reads b' (xd_skel d') "xdp_peer_progs" (u32_to_le_bytes (next_peer_idx d)) (u32_to_le_bytes (as_u32 fd)) ∧
  ∀ port, port ∈ ps → reads b' (xd_skel d') "port_map" (u16_to_le_bytes port) (u32_to_le_bytes (next_peer_idx d)).
Proof.
  intros Hi Hn Hd Hne [Hps Hap] Hreg. destruct (register_peer_fields _ _ _ _ _ _ _ Hreg Hne) as [[fp Hfp] [fg Hfg]].
  destruct (inv_disp _ _ _ _ Hi nic d Hd) as (Rp & Rg & Hidx). cbn [w_bpf] in *.
  destruct (Rp fp Hfp) as (ip & Mp & Ip), (Rg fg Hfg) as (ig & Mg & Ig).
  assert (Hpg : ip ≠ ig) by congruence.
  assert (Fp : field_id b (xd_skel d) "port_map" ip) by (by exists fp).
  assert (Fg : field_id b (xd_skel d) "xdp_peer_progs" ig) by (by exists fg).
  destruct (register_peer_spec _ _ _ _ _ _ _ _ _ Fp Fg Hpg Hreg) as (-> & Hk & Cp & Cg).
  cbn [xd_skel next_peer_idx].
  assert (Hw : wrapping_add 32 (next_peer_idx d) 1 = next_peer_idx d + 1).
  { apply wrap_small. split; [lia|]. change (2 ^ 32) with 4294967296 in *. lia. }
  rewrite Hw. split; [|split; [by exists ip, ig|split; [lia|split]]].
  2:{ apply (field_reads _ _ _ ig); [by eapply field_id_evolves|]. rewrite Cg. by case_decide. }
  2:{ intros port Hport. apply (field_reads _ _ _ ip); [by eapply field_id_evolves|]. rewrite Cp.
      rewrite decide_True; [done|]. apply list_elem_of_fmap. by exists port. }
  assert (Hout : ∀ id r0, roles !! id = Some r0 → r0 ≠ RPorts nic → r0 ≠ RProgs nic → id ∉ ({[ip; ig]} : gset Z)).
  { intros id r0 Hr0 N1 N2. set_solver. }
  pose proof Hi as [IL ID IS]. cbn [w_bpf w_disp] in *. split; cbn [w_bpf w_disp].
  - intros id r0 Hr0. destruct (IL id r0 Hr0) as [f Hm]. exists f. by apply (ev_map _ _ _ _ _ Hk).
  - intros nic' d'. destruct (decide (nic' = nic)) as [->|Hnn].
    + rewrite lookup_insert_eq. intros [= <-]. cbn [xd_skel next_peer_idx].
      split_and!; [by eapply has_role_evolves..|lia|lia].
    + rewrite lookup_insert_ne by done. intros Hd'. destruct (ID nic' d' Hd') as (? & ? & ?).
      split_and!; [by eapply has_role_evolves..|lia|lia].
  - intros i e He. destruct (IS i e He) as (Hdis & Hc & Hr). split; [|split].
    + destruct (decide (m_ingress_interface (en_mgr e) = nic)) as [Hm|Hm].
      * eapply (dispatches_register d _ fd ps ip ig); try done; try (cbn; lia);
          eapply Hap; by eapply list_elem_of_lookup_2.
      * eapply dispatches_evolves; [exact Hi|exact Hk|by rewrite lookup_insert_ne| |exact Hdis].
        intros id [Hid|Hid]; (eapply Hout; [exact Hid|..]); congruence.
    + eapply configured_evolves; [exact Hk|done| |exact Hc]. intros id Hid. by eapply Hout.
    + eapply redirects_evolves; [exact Hk|done| |exact Hr]. intros id Hid. by eapply Hout.
Qed.
End invariant.
