(* ===== verification/TcManager.v ===== *)
(** * Setting up and reloading a peer keeps the invariant *)

From stdpp Require Import gmap.
From S2P Require Import Prelude Words Slices Text Obfs Results StrOps Net Config Netlink Links Tun Routes Loader.
From S2P Require Import TcLoad TcLaws TcProofs TcServe.
Local Open Scope Z_scope.

Section manager.
  Context {K B : Type} `{NetKernel K} `{BpfLaws B}.
  Local Abbreviation changes := (evolves bl_map bl_cell).
  Local Abbreviation world := (world K B).

(** ** Runs that succeed *)

Lemma on_net_inv {E A} (f : E → merr) (m : KM K E A) (w w' : world) a : on_net f m w = (Ok a, w') →
  ∃ k, m (w_net w) = (Ok a, k) ∧ w' = mkWorld k (w_bpf w) (w_disp w).
Proof.
  unfold on_net. destruct (m (w_net w)) as [[x|e|] k]; cbn; [|done..]. intros [= -> <-]. by exists k.
Qed.

Lemma on_bpf_inv {A} (m : KM B merr A) (w w' : world) a : on_bpf m w = (Ok a, w') →
  ∃ b, m (w_bpf w) = (Ok a, b) ∧ w' = mkWorld (w_net w) b (w_disp w).
Proof. unfold on_bpf. destruct (m (w_bpf w)) as [r b]. intros [= -> <-]. by exists b. Qed.

Lemma asks_inv {A} (f : world → res merr A) (w w' : world) a : asks f w = (Ok a, w') → f w = Ok a ∧ w' = w.
Proof. unfold asks. by intros [= -> ->]. Qed.

Lemma guarded_inv {A} v (m : KM world merr A) (w w' : world) a :
  guarded v m w = (Ok a, w') → m w = (Ok a, w').
Proof. unfold guarded. by destruct (m w) as [[x|e|] w1]. Qed.

Lemma register_on_inv nic fd ps (w w' : world) r : register_on nic fd ps w = (Ok r, w') →
  ∃ d d' b, w_disp w !! nic = Some d ∧ register_peer d fd ps (w_bpf w) = (Ok r, d', b) ∧
            w' = mkWorld (w_net w) b (<[nic := d']> (w_disp w)).
Proof.
  unfold register_on. destruct (w_disp w !! nic) as [d|]; [|done].
  destruct (register_peer d fd ps (w_bpf w)) as [[r' d'] b] eqn:Hr. intros [= -> <-]. by exists d, d', b.
Qed.

(** Peel the steps of a run on the world. *)
Ltac w_inv :=
  repeat (km_inv; match goal with
  | Hx : on_net _ _ _ = (Ok _, _) |- _ =>
      let k := fresh "k" in let E := fresh "N" in
      apply on_net_inv in Hx as (k & E & ->); cbn [w_net w_bpf w_disp] in *
  | Hx : on_bpf _ _ = (Ok _, _) |- _ =>
      let b := fresh "b" in let E := fresh "P" in
      apply on_bpf_inv in Hx as (b & E & ->); cbn [w_net w_bpf w_disp] in *
  | Hx : asks _ _ = (Ok _, _) |- _ =>
      let E := fresh "Q" in apply asks_inv in Hx as [E ->]; cbn [w_net w_bpf w_disp] in *
  | Hx : register_on _ _ _ _ = (Ok _, _) |- _ =>
      let d := fresh "d" in let d' := fresh "d" in let b := fresh "b" in
      let Hd := fresh "Hd" in let E := fresh "Hreg" in
      apply register_on_inv in Hx as (d & d' & b & Hd & E & ->); cbn [w_net w_bpf w_disp] in *
  end); km_inv.

(** ** The ingress program of a peer *)

(** What loading the ingress program leaves: the peer is dispatched to it. *)
Record ingress_ready (b0 : B) (w : world) (nic : list Z) (ps : list Z) (s : skel) (x : Z) : Prop := {
  ir_disp : ∃ d idx fd, w_disp w !! nic = Some d ∧ 0 ≤ idx < next_peer_idx d ∧
    sk_progs s (bs "xdp_gut_ingress") = Some fd ∧
    reads (w_bpf w) (xd_skel d) "xdp_peer_progs" (u32_to_le_bytes idx) (u32_to_le_bytes (as_u32 fd)) ∧
    ∀ port, port ∈ ps → reads (w_bpf w) (xd_skel d) "port_map" (u16_to_le_bytes port) (u32_to_le_bytes idx);
  ir_own : own_maps (λ n, n ∉ shared_names) b0 (w_bpf w) s;
  ir_dev : ∃ id, field_id (w_bpf w) s "tx_devmap" id ∧ fresh_id b0 id ∧
    bl_cell (w_bpf w) id key0 = Some (u32_to_le_bytes x)
}.

(** A map that exists, has no role and is not touched. *)
Definition spared (roles : gmap Z role) (b : B) (id : Z) : Prop :=
  roles !! id = None ∧ ∃ fd, bl_map b fd = Some id.

Lemma spared_cell roles b b' id key ip ig n1 n2 : spared roles b id → changes {[ip; ig]} b b' →
  roles !! ip = Some n1 → roles !! ig = Some n2 → bl_cell b' id key = bl_cell b id key.
Proof. intros [Hn [fd Hm]] Hk Hp Hg. apply (ev_cell _ _ _ _ _ Hk fd); [done|]. set_solver. Qed.

Lemma load_ingress_spec obj e x ti nic ps roles n k b0 disp es s v st w' idc :
  inv roles n (mkWorld k b0 disp) es → n + 1 < 2 ^ 32 → ps ≠ [] → ports_apart es ps →
  field_id b0 (inner e) "config_map" idc → spared roles b0 idc →
  load_ingress obj e x ti nic ps (mkWorld k b0 disp) = (Ok (s, v, st), w') →
  inv roles (n + 1) w' es ∧ ingress_ready b0 w' nic ps s x ∧
  field_id (w_bpf w') (inner e) "config_map" idc ∧
  (∀ key, bl_cell (w_bpf w') idc key = bl_cell b0 idc key) ∧
  (∀ fd, sk_maps s (bs "config_map") = Some fd → bl_map (w_bpf w') fd = Some idc).
Proof.
  intros Hi Hn Hps Hap Hc Hsp Hr. unfold load_ingress in Hr. w_inv. apply guarded_inv in Hr. w_inv.
  injection E0 as -> -> ->. rename x0 into s, x2 into fd.
  unfold map_of, prog_of in P2, P1, P0. km_inv.
  apply load_ingress_skel_spec in P3 as (K1 & O & (idd & F & Hfr & C) & Sh). apply attach_native_keeps in P.
  assert (K2 : changes ∅ b0 b5) by (by etrans).
  pose proof (inv_keeps _ _ k k _ _ _ _ K2 Hi) as Hi2.
  destruct (inv_register _ _ _ _ _ _ _ _ _ _ _ _ _ Hi2 Hn Hd Hps Hap Hreg)
    as (Hi3 & (ip & ig & Rp & Rg & K3) & Hidx & Hprog & Hport).
  destruct Hsp as [Hs0 [fc Hfc]].
  assert (Hnot : ∀ id, fresh_id b0 id → roles !! id = None).
  { intros id Hf. destruct (roles !! id) as [r|] eqn:Hr; [|done].
    destruct (inv_live _ _ _ _ Hi id r Hr) as [f Hm]. by destruct (Hf f). }
  assert (Hcell : ∀ id key f, bl_map b5 f = Some id → roles !! id = None → bl_cell b6 id key = bl_cell b5 id key).
  { intros id key f Hm Hr. apply (ev_cell _ _ _ _ _ K3 f); [done|]. set_solver. }
  split; [done|]. split; [split; cbn [w_disp w_bpf]|split; [|split]].
  - exists d0, (next_peer_idx d), fd. rewrite lookup_insert_eq. split_and!; (done || lia).
  - eapply own_maps_evolves; [exact K3|]. exact (own_maps_evolves _ _ _ _ _ _ P O).
  - pose proof (field_id_evolves _ _ _ _ _ _ P F) as F5. pose proof F as (f & Hf & Hm). exists idd.
    split; [by eapply field_id_evolves|]. split; [done|].
    rewrite (Hcell _ _ f (ev_map _ _ _ _ _ P _ _ Hm) (Hnot _ Hfr)).
    by rewrite (ev_cell _ _ _ _ _ P f).
  - eapply field_id_evolves; [exact K3|]. by eapply field_id_evolves.
  - intros key. rewrite (Hcell _ _ fc (ev_map _ _ _ _ _ K2 _ _ Hfc) Hs0).
    by apply (ev_cell _ _ _ _ _ K2 fc).
  - intros f Hf. apply (ev_map _ _ _ _ _ K3), (ev_map _ _ _ _ _ P). by apply Sh.
Qed.

(** The tail call of the modes that answer probes. *)
Lemma probe_tail_call_spec prog roles n k b0 b b' disp es nic ps s x idc e :
  inv roles n (mkWorld k b disp) es → ingress_ready b0 (mkWorld k b disp) nic ps s x →
  (∀ id r, roles !! id = Some r → ∃ fd, bl_map b0 fd = Some id) →
  (∃ fd, bl_map b0 fd = Some idc) → field_id b (inner e) "config_map" idc →
  set_tail_call s "xdp_progs" prog b = (Ok tt, b') →
  inv roles n (mkWorld k b' disp) es ∧ ingress_ready b0 (mkWorld k b' disp) nic ps s x ∧
  field_id b' (inner e) "config_map" idc ∧ (∀ key, bl_cell b' idc key = bl_cell b idc key) ∧
  (∀ fd id, bl_map b fd = Some id → bl_map b' fd = Some id).
Proof.
  intros Hi [ID IO IV] Hl [fc Hfc] Fc Ht. apply set_tail_call_inv in Ht as [fd Ht]. cbn [w_bpf w_disp] in *.
  assert (Hx : bs "xdp_progs" ∉ shared_names) by (apply (bool_decide_unpack _); vm_compute; exact I).
  assert (Hy : bs "tx_devmap" ∉ shared_names) by (apply (bool_decide_unpack _); vm_compute; exact I).
  destruct (update_own_spec _ _ _ _ _ _ _ _ IO Hx Ht) as (j & Fj & Hfr & Hk & _).
  assert (Hnone : ∀ id r, roles !! id = Some r → id ∉ ({[j]} : gset Z)).
  { intros id r Hr ->%elem_of_singleton. destruct (Hl _ _ Hr) as [f Hm]. by apply (Hfr f). }
  assert (Hjc : idc ≠ j) by (intros ->; by apply (Hfr fc)).
  split; [|split; [split; cbn [w_bpf w_disp]|split; [|split]]].
  - eapply (inv_evolves {[j]} roles roles); [exact Hk| |done| |exact Hi].
    + intros id Hid. destruct (roles !! id) eqn:Hr; [|done]. by apply Hnone in Hr.
    + intros id r Hr. destruct (inv_live _ _ _ _ Hi id r Hr) as [f Hm]. exists f. by apply (ev_map _ _ _ _ _ Hk).
  - destruct ID as (d & idx & f & Hd & Hidx & Hf & Rg & Rp).
    destruct (inv_disp _ _ _ _ Hi nic d Hd) as (Op & Og & _). cbn [w_bpf] in *.
    exists d, idx, f. split_and!; [done|lia|lia|done| |].
    + eapply reads_evolves; [exact Hk| |exact Rg]. intros id Fi. exact (Hnone _ _ (has_role_field _ _ _ _ _ _ Og Fi)).
    + intros port Hport. eapply reads_evolves; [exact Hk| |by apply Rp].
      intros id Fi. exact (Hnone _ _ (has_role_field _ _ _ _ _ _ Op Fi)).
  - by eapply own_maps_evolves.
  - destruct IV as (idd & F & Hf & C). exists idd. pose proof F as (f & Hfd & Hm).
    split; [by eapply field_id_evolves|]. split; [done|]. rewrite (ev_cell _ _ _ _ _ Hk f); [done..|].
    apply not_elem_of_singleton. by apply (own_neq _ _ _ _ "tx_devmap" "xdp_progs" idd j IO Hy Hx F Fj).
  - by eapply field_id_evolves.
  - intros key. pose proof Fc as (f & Hfd & Hm). apply (ev_cell _ _ _ _ _ Hk f); [done|].
    by apply not_elem_of_singleton.
  - apply (ev_map _ _ _ _ _ Hk).
Qed.

(** The conclusion of [load_ingress_spec], for every mode. *)
Lemma load_ingress_mode_spec mode e x ti nic ps roles n k b0 disp es s v st w' idc :
  inv roles n (mkWorld k b0 disp) es → n + 1 < 2 ^ 32 → ps ≠ [] → ports_apart es ps →
  field_id b0 (inner e) "config_map" idc → spared roles b0 idc →
  load_ingress_mode mode e x ti nic ps (mkWorld k b0 disp) = (Ok (s, v, st), w') →
  inv roles (n + 1) w' es ∧ ingress_ready b0 w' nic ps s x ∧
  field_id (w_bpf w') (inner e) "config_map" idc ∧
  (∀ key, bl_cell (w_bpf w') idc key = bl_cell b0 idc key) ∧
  (∀ fd, sk_maps s (bs "config_map") = Some fd → bl_map (w_bpf w') fd = Some idc).
Proof.
  intros Hi Hn Hps Hap Hc Hsp Hr.
  assert (Hl : ∀ id r, roles !! id = Some r → ∃ fd, bl_map b0 fd = Some id) by apply (inv_live _ _ _ _ Hi).
  assert (Hprobe : ∀ obj prog,
    ('(s, v, st) ← load_ingress obj e x ti nic ps;
     guarded v (_ ← on_bpf (set_tail_call s "xdp_progs" prog); mret (s, v, st))) (mkWorld k b0 disp)
      = (Ok (s, v, st), w') →
    inv roles (n + 1) w' es ∧ ingress_ready b0 w' nic ps s x ∧
    field_id (w_bpf w') (inner e) "config_map" idc ∧
    (∀ key, bl_cell (w_bpf w') idc key = bl_cell b0 idc key) ∧
    (∀ fd, sk_maps s (bs "config_map") = Some fd → bl_map (w_bpf w') fd = Some idc)).
  { intros obj prog Hp. km_inv. destruct x0 as [[s0 v0] st0]. apply guarded_inv in Hp. w_inv.
    injection E1 as -> -> ->. destruct b as [k1 b1 disp1]. cbn [w_net w_bpf w_disp] in *.
    destruct (load_ingress_spec _ _ _ _ _ _ _ _ _ _ _ _ _ _ _ _ _ Hi Hn Hps Hap Hc Hsp E)
      as (Hi1 & R1 & F1 & C1 & S1). cbn [w_bpf] in *.
    destruct (probe_tail_call_spec _ _ _ _ _ _ _ _ _ _ _ _ _ _ _ Hi1 R1 Hl (proj2 Hsp) F1 P)
      as (Hi2 & R2 & F2 & C2 & M2).
    split_and!; [done..| |eauto]. intros key. by rewrite C2, C1. }
  destruct mode; cbn [load_ingress_mode] in Hr; [by eapply Hprobe|by eapply load_ingress_spec..|by eapply Hprobe].
Qed.

(** ** A new peer *)

Lemma inv_add_entry roles n (k : K) b disp es e idc idd :
  inv roles n (mkWorld k b disp) es → roles !! idc = None → roles !! idd = None → idc ≠ idd →
  field_id b (inner (m_egress_skel (en_mgr e))) "config_map" idc →
  bl_cell b idc key0 = Some (gut_config_bytes (en_gut e)) →
  (∀ fd, sk_maps (m_ingress_skel (en_mgr e)) (bs "config_map") = Some fd → bl_map b fd = Some idc) →
  field_id b (m_ingress_skel (en_mgr e)) "tx_devmap" idd →
  bl_cell b idd key0 = Some (u32_to_le_bytes (en_dev e)) →
  dispatches (mkWorld k b disp) (en_peer e) (en_mgr e) →
  inv (<[idc := RConfig (length es)]> (<[idd := RDev (length es)]> roles)) n (mkWorld k b disp) (es ++ [e]).
Proof.
  intros Hi Hc Hd Hne Fc Cc Sh Fd Cd Hdis. set (roles' := <[idc := _]> _).
  assert (Hsub : roles ⊆ roles').
  { etrans; [apply (insert_subseteq _ idd)|apply insert_subseteq]; [done|by rewrite lookup_insert_ne]. }
  assert (Hl : ∀ id r, roles' !! id = Some r → ∃ fd, bl_map b fd = Some id).
  { intros id r [[<- _]|[_ Hr]]%lookup_insert_Some; [destruct Fc as (f & _ & ?); eauto|].
    apply lookup_insert_Some in Hr as [[<- _]|[_ Hr]]; [destruct Fd as (f & _ & ?); eauto|].
    by eapply (inv_live _ _ _ _ Hi). }
  assert (Hi' : inv roles' n (mkWorld k b disp) es).
  { eapply (inv_evolves ∅ roles roles'); [reflexivity|set_solver|done..]. }
  destruct Hi' as [IL ID IS]. split; [done|done|]. intros i e' [He|[Hge He]]%lookup_app_Some; [by apply IS|].
  apply list_lookup_singleton_Some in He as [Hi0 <-]. assert (i = length es) as -> by lia.
  split; [done|]. split.
  - exists idc. split_and!; [done| |done|done]. apply lookup_insert_eq.
  - exists idd. split_and!; [done| |done]. unfold roles'. rewrite lookup_insert_ne by done. apply lookup_insert_eq.
Qed.

(** What a manager was made from: its interfaces, its record and the
    interface its packets are sent to, as the system said at the time. *)
Record made_for (sys : sysinfo) (nm : list Z) (e : entry) : Prop := {
  mf_interface : m_interface (en_mgr e) = nm;
  mf_veth : m_veth_xdp_name (en_mgr e) = nm ++ bs "_xdp";
  mf_nic : ∃ k : K, ingress_nic (host_at sys k) nm (en_peer e) = Ok (m_ingress_interface (en_mgr e));
  mf_gut : ∃ k : K, build_gut_config (host_at sys k) (s_resolvers sys) (s_local sys) (en_peer e) nm
                      (m_ingress_interface (en_mgr e)) = Ok (en_gut e);
  mf_dev : ∃ (k : K) i, get_ifindex (view k) (nm ++ bs "_xdp") = Ok i ∧ en_dev e = as_u32 i
}.

Lemma build_for_inv sys p tun nic (w w' : world) g : build_for sys p tun nic w = (Ok g, w') →
  build_gut_config (host_at sys (w_net w)) (s_resolvers sys) (s_local sys) p tun nic = Ok g ∧ w' = w.
Proof.
  unfold build_for. intros [Hg ->]%asks_inv. split; [|done].
  destruct (build_gut_config _ _ _ _ _ _); cbn in Hg; congruence.
Qed.

Lemma tc_new_spec sys nm config p roles (w w' : world) es m :
  peer config = Done p → inv roles (Z.of_nat (length es)) w es →
  Z.of_nat (length es) + 1 < 2 ^ 32 → ports p ≠ [] → ports_apart es (ports p) →
  tc_new sys nm config w = (Ok m, w') →
  ∃ roles' g x, let e := mkEntry p m g x in
    inv roles' (Z.of_nat (length es) + 1) w' (es ++ [e]) ∧ made_for sys nm e.
Proof.
  intros Hp Hi Hn Hps Hap Hr. unfold tc_new in Hr. w_inv.
  rewrite Hp in E1. injection E1 as <-. destruct x9 as [[s v] st]. apply mret_inv in Hr as [-> ->].
  destruct w as [k5 b5 disp]. cbn [w_net w_bpf w_disp] in *.
  apply (inv_keeps _ _ _ k2 b5 b5 _ _ (evolves_refl ∅ b5)) in Hi.
  apply (ensure_dispatcher_spec _ _ _ _ _ _ _ _ _ _ (Nat2Z.is_nonneg (length es)) Hi) in E6
    as (roles1 & b8 & disp1 & -> & Hi1 & K1 & _).
  apply build_for_inv in E7 as [Hg ->]. cbn [w_net w_bpf w_disp] in *.
  destruct (egress_spec _ _ _ _ _ _ _ _ _ _ _ _ P3 P2 P1 P0 P) as (K2 & idc & Fc & Hfr & Cc).
  apply (inv_keeps _ _ _ k _ b _ _ K2) in Hi1 as Hi2.
  assert (Hnone : ∀ b' id, fresh_id b' id → changes ∅ b8 b' → roles1 !! id = None).
  { intros b' id Hf Hk. destruct (roles1 !! id) as [r|] eqn:Hr; [|done].
    destruct (inv_live _ _ _ _ Hi1 id r Hr) as [f Hm]. by destruct (Hf f (ev_map _ _ _ _ _ Hk _ _ Hm)). }
  assert (Hsp : spared roles1 b idc).
  { split; [by eapply Hnone|]. destruct Fc as (f & _ & Hm). by exists f. }
  destruct (load_ingress_mode_spec _ _ _ _ _ _ _ _ _ _ _ _ _ _ _ _ _ Hi2 Hn Hps Hap Fc Hsp E16)
    as (Hi3 & [ID _ (idd & Fd & Hfd & Cd)] & Fc3 & Cc3 & Sh). destruct b16 as [k6 b6 disp2].
  cbn [w_net w_bpf w_disp] in *. eexists _, x5, (as_u32 x8). split.
  - eapply (inv_add_entry _ _ _ _ _ _ _ idc idd Hi3); cbn [en_mgr en_gut en_peer en_dev m_egress_skel m_ingress_skel].
    + apply Hsp.
    + by eapply (Hnone b).
    + intros ->. destruct Hsp as [_ [f Hm]]. by apply (Hfd f).
    + done.
    + by rewrite Cc3.
    + done.
    + done.
    + done.
    + exact ID.
  - unfold ifindex_of in N. injection N as N _.
    split; cbn [en_peer en_mgr en_gut en_dev m_interface m_veth_xdp_name m_ingress_interface];
      [done|done|by exists k5|by exists k2|by exists k0, x8].
Qed.

(** ** Reloading *)

Definition with_gut (e : entry) (g : GutConfig) : entry := mkEntry (en_peer e) (en_mgr e) g (en_dev e).

(** A new record is written to the configuration map of the peer only. *)
Lemma inv_reconfigure roles n (k : K) b b' disp es i e g :
  inv roles n (mkWorld k b disp) es → es !! i = Some e →
  update_config_map (m_egress_skel (en_mgr e)) g b = (Ok tt, b') →
  inv roles n (mkWorld k b' disp) (<[i := with_gut e g]> es).
Proof.
  intros Hi He Hu. apply update_named_spec in Hu as (id & F & Hk & C).
  destruct (inv_served _ _ _ _ Hi i e He) as (_ & (id' & F' & Ri & _ & Sh) & _). cbn [w_bpf] in *.
  rewrite (field_id_fun _ _ _ _ _ F' F) in *.
  assert (Hout : ∀ j r, roles !! j = Some r → r ≠ RConfig i → j ∉ ({[id]} : gset Z)) by set_solver.
  assert (Hkeep : ∀ j e', es !! j = Some e' →
    dispatches (mkWorld k b' disp) (en_peer e') (en_mgr e') ∧ redirects roles b' j (en_mgr e') (en_dev e')).
  { intros j e' He'. destruct (inv_served _ _ _ _ Hi j e' He') as (Hd & _ & Hr). split.
    - eapply dispatches_evolves; [exact Hi|exact Hk|done| |exact Hd]. intros x [Hx|Hx]; by eapply Hout.
    - eapply redirects_evolves; [exact Hk|done| |exact Hr]. intros x Hx. by eapply Hout. }
  split; cbn [w_bpf w_disp].
  - intros x r Hr. destruct (inv_live _ _ _ _ Hi x r Hr) as [f Hm]. exists f. by apply (ev_map _ _ _ _ _ Hk).
  - intros nic d Hd. destruct (inv_disp _ _ _ _ Hi nic d Hd) as (? & ? & ?).
    split_and!; [by eapply has_role_evolves..|lia|lia].
  - intros j e' [(<- & <- & _)|[Hne He']]%list_lookup_insert_Some; [|destruct (Hkeep j e' He') as [? ?]].
    + destruct (Hkeep i e He) as [? ?]. split; [done|split; [|done]]. exists id.
      split; [by eapply field_id_evolves|]. split; [done|]. split; [rewrite C; by case_decide|].
      intros f Hf. by apply (ev_map _ _ _ _ _ Hk), Sh.
    + split; [done|split; [|done]]. destruct (inv_served _ _ _ _ Hi j e' He') as (_ & Hc & _).
      eapply configured_evolves; [exact Hk|done| |exact Hc]. intros x Hx. eapply Hout; [exact Hx|congruence].
Qed.

Lemma update_config_spec sys config p roles n (w w' : world) es i e r :
  peer config = Done p → inv roles n w es → es !! i = Some e →
  update_config sys (en_mgr e) config w = (r, w') →
  match r with
  | Ok _ => ∃ g, build_gut_config (host_at sys (w_net w)) (s_resolvers sys) (s_local sys) p
                   (m_interface (en_mgr e)) (m_ingress_interface (en_mgr e)) = Ok g ∧
                 inv roles n w' (<[i := with_gut e g]> es)
  | _ => inv roles n w' es
  end ∧ w_net w' = w_net w ∧ w_disp w' = w_disp w.
Proof.
  intros Hp Hi He. unfold update_config, build_for, asks, of_res, mbind, KM_bind. rewrite Hp. cbn [lift].
  destruct (build_gut_config _ _ _ p _ _) as [g|err|] eqn:Hg; cbn [map_err]; [|by intros [= <- <-]..].
  unfold on_bpf. destruct (update_config_map _ g (w_bpf w)) as [r' b'] eqn:Hu. intros [= <- <-].
  destruct w as [k b disp]. cbn [w_net w_bpf w_disp] in *. split; [|done].
  destruct r' as [[]|err|]; [exists g; split; [done|by eapply inv_reconfigure]| |];
    (eapply inv_keeps; [eapply (update_named_fail _ _ _ _ _ _ _ Hu); done|exact Hi]).
Qed.
End manager.
