(* ===== verification/Daemon.v ===== *)
(** * main.rs and reload.rs: the daemon

    The managers of all peers are set up, then a loop runs every half second:
    it answers signals, writes the counters, rebuilds the configuration
    records and reloads the configuration.  Signals arrive at any of the
    points between the loop's accesses to the flags.  What the system answers
    during a turn of the loop is a parameter of that turn; what the daemon
    does is kept in a log. *)

From stdpp Require Import gmap.
From S2P Require Import Prelude Words Slices Text Obfs Results StrOps Net Config Netlink Links Tun Routes Loader.
From S2P Require Import TcLoad.
Local Open Scope Z_scope.

(** ** Signals *)

Inductive signal := SIGHUP | SIGUSR1 | SIGINT | SIGTERM.

#[global] Instance signal_eq_dec : EqDecision signal.
Proof. solve_decision. Defined.

Record flags := mkFlags { RELOAD_FLAG : bool; EXIT_FLAG : bool; PRINT_STATS : bool }.

Definition sighup_handler (f : flags) : flags := mkFlags true (EXIT_FLAG f) (PRINT_STATS f).
Definition handle_sigusr1 (f : flags) : flags := mkFlags (RELOAD_FLAG f) (EXIT_FLAG f) true.
Definition handle_exit (f : flags) : flags := mkFlags (RELOAD_FLAG f) true (PRINT_STATS f).

(** The handlers as they are installed. *)
Definition deliver (f : flags) (s : signal) : flags :=
  match s with
  | SIGHUP => sighup_handler f
  | SIGUSR1 => handle_sigusr1 f
  | SIGINT | SIGTERM => handle_exit f
  end.

Definition should_reload (f : flags) : bool := RELOAD_FLAG f.
Definition clear_reload_flag (f : flags) : flags := mkFlags false (EXIT_FLAG f) (PRINT_STATS f).
(** [PRINT_STATS.swap(false)] *)
Definition swap_print (f : flags) : bool * flags :=
  (PRINT_STATS f, mkFlags (RELOAD_FLAG f) (EXIT_FLAG f) false).

(** ** Texts *)

Section texts.
  (** The version, and how an error is displayed. *)
  Context (version : list Z) (show_err : lerr → list Z).

Definition line (parts : list (list Z)) : list Z := concat parts ++ [LF].

(** What [eprintln!] writes for one peer. *)
Definition print_peer_stats (interface : list Z) (r : res lerr TcStats) : list Z :=
  match r with
  | Ok stats =>
      let e := egress stats in
      line [bs "  ["; interface; bs "]"] ++
      line [bs "    Egress:  pkts="; dec (packets_egress e); bs " drop(cp1)="; dec (packets_dropped e);
            bs " bytes(cp4)="; dec (bytes_processed e); bs " mask(cp5)="; dec (mask_count e);
            bs " frag(cp2)="; dec (packets_fragmented e); bs " oversz(cp3)="; dec (packets_oversized e);
            bs " xdp_decoded_fail="; dec (inner_tcp_seen e); bs " "] ++
      line [bs "    Ingress: pkts="; dec (packets_ingress e); bs " drop="; dec (packets_dropped e);
            bs " bytes="; dec (bytes_processed e); bs " mask="; dec (mask_count e);
            bs " frag="; dec (packets_fragmented e); bs " oversized="; dec (packets_oversized e)]
  | Err err => line [bs "  ["; interface; bs "] Failed to read BPF stats: "; show_err err]
  | Abort => []
  end.

(** [{peer}_{name}={value}] *)
Definition counter_line (peer : list Z) (name : string) (v : Z) : list Z :=
  line [peer; bs name; bs "="; dec v].

(** The counters of one peer in the counters file. *)
Definition counters_of (peer : list Z) (r : res lerr TcStats) : list Z :=
  match r with
  | Ok stats =>
      let e := egress stats in
      let i := ingress stats in
      counter_line peer "_egress_packets" (packets_egress e) ++
      counter_line peer "_egress_dropped" (packets_dropped e) ++
      counter_line peer "_egress_bytes" (bytes_processed e) ++
      counter_line peer "_egress_mask_ops" (mask_count e) ++
      counter_line peer "_egress_fragmented" (packets_fragmented e) ++
      counter_line peer "_egress_inner_tcp_seen" (inner_tcp_seen e) ++
      counter_line peer "_egress_oversized" (packets_oversized e) ++
      counter_line peer "_ingress_packets" (packets_ingress i) ++
      counter_line peer "_ingress_dropped" (packets_dropped i) ++
      counter_line peer "_ingress_bytes" (bytes_processed i) ++
      counter_line peer "_ingress_mask_ops" (mask_count i) ++
      counter_line peer "_ingress_fragmented" (packets_fragmented i) ++
      counter_line peer "_ingress_inner_tcp_seen" (inner_tcp_seen i) ++
      counter_line peer "_ingress_oversized" (packets_oversized i)
  | Err err => line [peer; bs "_bpf_stats_error="; show_err err]
  | Abort => []
  end.

(** [uptime] is the number of seconds as it is printed. *)
Definition counters_text (uptime : list Z) (overrides : Z) (stats : list (list Z * res lerr TcStats))
    : list Z :=
  line [bs "# gutd counters"] ++ line [bs "version="; version] ++ line [bs "uptime_secs="; uptime] ++
  line [bs "drop_policy_safety_overrides_total="; dec overrides] ++
  concat ((λ ps, counters_of ps.1 ps.2) <$> stats).
End texts.

(** ** The state of the loop *)

Inductive event :=
| EvSignal (s : signal)
| EvNotify (msg : list Z)
| EvPrint (text : list Z)
| EvDump (text : list Z) (written : bool)
| EvLoad (r : res cerr Config)
| EvUpdate (interface : list Z) (c : Config) (r : res merr unit).

(** What the system does during one turn: the signals that arrive at each
    point, what it says about itself to the periodic refresh and to a reload,
    the configuration file, the environment, the statistics, the uptime as it
    is printed, and how the counters file is written; [t_partial] is what a
    failed write leaves. *)
Record turn := mkTurn {
  t_signals : nat → list signal;
  t_refresh : sysinfo;
  t_reload : sysinfo;
  t_file : option (list Z);
  t_var : list Z → option (list Z);
  t_stats : TcBpfManager → res lerr TcStats;
  t_uptime : list Z;
  t_overrides : Z;
  t_write : bool;
  t_partial : option (list Z);
  t_rename : bool
}.

(** The loop ends by a [break]. *)
Inductive stop := Break.

Definition NET_REFRESH_TICKS : Z := 120.

Definition make_single (cfg : Config) (p : PeerConfig) : Config := mkConfig (global cfg) (runtime cfg) [p].

(** [cfg.peers.iter().find(|p| p.name == interface)] *)
Definition find_peer (cfg : Config) (interface : list Z) : option PeerConfig :=
  snd <$> list_find (λ p, name p = interface) (peers cfg).

Definition stats_ticks_target (cfg : Config) : Z :=
  if 0 <? stats_interval (runtime cfg) then wrapping_mul 32 (stats_interval (runtime cfg)) 2 else 0.

Section loop.
  Context {K B : Type} `{NetKernel K} `{BpfKernel B}.
  (** The version, how an error is displayed, and whether systemd listens. *)
  Context (version : list Z) (show_err : lerr → list Z) (notify_socket : bool).

Record daemon := mkDaemon {
  d_world : world K B;
  d_managers : list TcBpfManager;
  d_flags : flags;
  d_stats_tick : Z;
  d_net_refresh_tick : Z;
  d_files : gmap (list Z) (list Z);
  d_log : list event
}.
Local Abbreviation M := (KM daemon stop).

Definition set_world (d : daemon) (w : world K B) : daemon :=
  mkDaemon w (d_managers d) (d_flags d) (d_stats_tick d) (d_net_refresh_tick d) (d_files d) (d_log d).
Definition set_flags (d : daemon) (f : flags) : daemon :=
  mkDaemon (d_world d) (d_managers d) f (d_stats_tick d) (d_net_refresh_tick d) (d_files d) (d_log d).
Definition set_ticks (d : daemon) (s n : Z) : daemon :=
  mkDaemon (d_world d) (d_managers d) (d_flags d) s n (d_files d) (d_log d).
Definition set_files (d : daemon) (fs : gmap (list Z) (list Z)) : daemon :=
  mkDaemon (d_world d) (d_managers d) (d_flags d) (d_stats_tick d) (d_net_refresh_tick d) fs (d_log d).
Definition add_log (d : daemon) (e : event) : daemon :=
  mkDaemon (d_world d) (d_managers d) (d_flags d) (d_stats_tick d) (d_net_refresh_tick d) (d_files d)
    (d_log d ++ [e]).

Definition modify (f : daemon → daemon) : M unit := λ d, (Ok tt, f d).
Definition gets {A} (f : daemon → A) : M A := λ d, (Ok (f d), d).
Definition emit (e : event) : M unit := modify (λ d, add_log d e).

Definition sd_notify (msg : string) : M unit := when notify_socket (emit (EvNotify (bs msg))).

(** The signals that arrive at a point of the turn. *)
Definition receive (d : daemon) (s : signal) : daemon :=
  add_log (set_flags d (deliver (d_flags d) s)) (EvSignal s).
Definition interrupts (t : turn) (i : nat) : M unit := modify (λ d, foldl receive d (t_signals t i)).

(** [manager.get_stats()] of every manager; a panic ends the process. *)
Definition collect_stats (t : turn) : M (list (list Z * res lerr TcStats)) := λ d,
  let stats := (λ m, (m_interface m, t_stats t m)) <$> d_managers d in
  if existsb (λ ps, match ps.2 with Abort => true | _ => false end) stats then (Abort, d) else (Ok stats, d).

Definition print_bpf_stats (t : turn) : M unit :=
  stats ← collect_stats t;
  emit (EvPrint (line [bs "=== gutd BPF Statistics ==="]
                 ++ concat ((λ ps, print_peer_stats show_err ps.1 ps.2) <$> stats))).

(** The counters are written beside the file, which is then replaced. *)
Definition dump_counters_file (t : turn) (path : list Z) : M unit :=
  stats ← collect_stats t;
  let buf := counters_text version show_err (t_uptime t) (t_overrides t) stats in
  let tmp := path ++ bs ".tmp" in
  if t_write t then
    _ ← modify (λ d, set_files d (<[tmp := buf]> (d_files d)));
    if t_rename t then
      _ ← modify (λ d, set_files d (<[path := buf]> (delete tmp (d_files d))));
      emit (EvDump buf true)
    else emit (EvDump buf false)
  else
    _ ← modify (λ d, set_files d (match t_partial t with
                                  | Some c => <[tmp := c]> (d_files d)
                                  | None => d_files d
                                  end));
    emit (EvDump buf false).

(** [for mgr in &mut managers]: each manager whose interface is a peer of the
    configuration is given that peer's settings. *)
Definition update_manager (sys : sysinfo) (cfg : Config) (m : TcBpfManager) : M unit := λ d,
  match find_peer cfg (m_interface m) with
  | None => (Ok tt, d)
  | Some p =>
      let '(r, w) := update_config sys m (make_single cfg p) (d_world d) in
      let d := add_log (set_world d w) (EvUpdate (m_interface m) (make_single cfg p) r) in
      match r with Abort => (Abort, d) | _ => (Ok tt, d) end
  end.

Fixpoint update_managers (sys : sysinfo) (cfg : Config) (ms : list TcBpfManager) : M unit :=
  match ms with
  | [] => mret tt
  | m :: ms => _ ← update_manager sys cfg m; update_managers sys cfg ms
  end.

(** *** The parts of a turn *)

Definition check_exit : M unit :=
  f ← gets d_flags;
  if EXIT_FLAG f then _ ← sd_notify "STOPPING=1"; of_res (Err Break) else mret tt.

Definition check_print (t : turn) : M unit :=
  f ← gets d_flags;
  let '(p, f) := swap_print f in
  _ ← modify (λ d, set_flags d f);
  when p (print_bpf_stats t).

Definition periodic_dump (cfg : Config) (t : turn) : M unit :=
  if 0 <? stats_ticks_target cfg then
    _ ← modify (λ d, set_ticks d (wrapping_add 32 (d_stats_tick d) 1) (d_net_refresh_tick d));
    n ← gets d_stats_tick;
    if stats_ticks_target cfg <=? n then
      _ ← modify (λ d, set_ticks d 0 (d_net_refresh_tick d));
      dump_counters_file t (stat_file (runtime cfg))
    else mret tt
  else mret tt.

(** The refresh takes the configuration the daemon was started with. *)
Definition periodic_refresh (cfg : Config) (t : turn) : M unit :=
  _ ← modify (λ d, set_ticks d (d_stats_tick d) (wrapping_add 32 (d_net_refresh_tick d) 1));
  n ← gets d_net_refresh_tick;
  if NET_REFRESH_TICKS <=? n then
    _ ← modify (λ d, set_ticks d (d_stats_tick d) 0);
    ms ← gets d_managers;
    update_managers (t_refresh t) cfg ms
  else mret tt.

Definition load_source (t : turn) (reload_source : option (list Z)) : res cerr Config :=
  match reload_source with
  | Some _ => load_config (t_file t)
  | None => load_config_from_env (t_var t)
  end.

Definition check_reload (t : turn) (reload_source : option (list Z)) : M unit :=
  f ← gets d_flags;
  if should_reload f then
    _ ← interrupts t 4;
    _ ← modify (λ d, set_flags d (clear_reload_flag (d_flags d)));
    _ ← interrupts t 5;
    _ ← sd_notify "RELOADING=1";
    let r := load_source t reload_source in
    _ ← emit (EvLoad r);
    _ ← interrupts t 6;
    _ ← match r with
        | Ok new_config => ms ← gets d_managers; update_managers (t_reload t) new_config ms
        | Err _ => mret tt
        | Abort => of_res Abort
        end;
    sd_notify "READY=1"
  else mret tt.

(** One turn of the loop. *)
Definition tick (cfg : Config) (reload_source : option (list Z)) (t : turn) : M unit :=
  _ ← interrupts t 0;
  _ ← sd_notify "WATCHDOG=1";
  _ ← check_exit;
  _ ← interrupts t 1;
  _ ← check_print t;
  _ ← interrupts t 2;
  _ ← periodic_dump cfg t;
  _ ← periodic_refresh cfg t;
  _ ← interrupts t 3;
  check_reload t reload_source.

Fixpoint run_ticks (cfg : Config) (reload_source : option (list Z)) (ts : list turn) : M unit :=
  match ts with
  | [] => mret tt
  | t :: ts => _ ← tick cfg reload_source t; run_ticks cfg reload_source ts
  end.

(** ** Starting and ending *)

Definition drop_dispatchers (w : world K B) : world K B :=
  mkWorld (w_net w)
    (foldl (λ b nd, drop_attachment (xd_attach nd.2) b) (w_bpf w) (map_to_list (w_disp w))) ∅.

(** The managers are dropped before the dispatchers. *)
Definition drop_all (ms : list TcBpfManager) (w : world K B) : world K B :=
  drop_dispatchers (foldl (λ w m, drop_manager m w) w ms).

(** The managers of the peers, in order; [sys i] is what the system says
    when the [i]-th is made.  When one fails the ones before are dropped. *)
Fixpoint setup_managers (sys : nat → sysinfo) (cfg : Config) (ms : list TcBpfManager)
    (ps : list PeerConfig) : KM (world K B) merr (list TcBpfManager) :=
  match ps with
  | [] => mret ms
  | p :: ps => λ w,
      match tc_new (sys (length ms)) (name p) (make_single cfg p) w with
      | (Ok m, w) => setup_managers sys cfg (ms ++ [m]) ps w
      | (Err e, w) => (Err e, drop_all ms w)
      | (Abort, w) => (Abort, w)
      end
  end.

Inductive daemon_end :=
| RunsUserspace
| HandlerFailed
| SetupFailed (e : merr) (w : world K B)
| Running (d : daemon)
| Finished (d : daemon)
| Crashed.

Definition final_stats (cfg : Config) (t : turn) : M unit :=
  _ ← (if 0 <? stats_ticks_target cfg then dump_counters_file t (stat_file (runtime cfg)) else mret tt);
  print_bpf_stats t.

(** [ts] are the turns so far, [last] is what the system says at the end.
    The log starts with the two notifications, the first of which is sent
    before anything is set up. *)
Definition run_daemon (sys : nat → sysinfo) (gutd_userspace handler_ok : bool) (cfg : Config)
    (reload_source : option (list Z)) (ts : list turn) (last : turn) (fs : gmap (list Z) (list Z))
    (k : K) (b : B) : daemon_end :=
  if userspace_only (global cfg) || gutd_userspace then RunsUserspace
  else if negb handler_ok then HandlerFailed
  else
    match setup_managers sys cfg [] (peers cfg) (mkWorld k b ∅) with
    | (Err e, w) => SetupFailed e w
    | (Abort, _) => Crashed
    | (Ok ms, w) =>
        let d := mkDaemon w ms (mkFlags false false false) 0 0 fs [] in
        match (_ ← sd_notify "READY=1"; _ ← sd_notify "READY=1"; run_ticks cfg reload_source ts) d with
        | (Ok _, d) => Running d
        | (Abort, _) => Crashed
        | (Err Break, d) =>
            match final_stats cfg last d with
            | (Ok _, d) => Finished (set_world d (drop_all (d_managers d) (d_world d)))
            | _ => Crashed
            end
        end
    end.
End loop.
Arguments daemon : clear implicits.
