(* ===== verification/DaemonLogic.v ===== *)
(** * Reasoning about the loop of the daemon

    Triples for the operations of [Daemon]: what holds when an operation
    returns and when it leaves the loop.  The log only grows. *)

From stdpp Require Import gmap.
From S2P Require Import Prelude Words Slices Text Obfs Results StrOps Net Config Netlink Links Tun Routes Loader.
From S2P Require Import TcLoad TcLaws Daemon.
Local Open Scope Z_scope.

Section logic.
  Context {K B : Type} `{NetKernel K} `{BpfKernel B}.
  Context (version : list Z) (show_err : lerr → list Z) (notify_socket : bool).
  Local Abbreviation daemon := (daemon K B).
  Local Abbreviation M := (KM daemon stop).

(** From a state in [P] the operation returns in [Q] or breaks in [R]; a panic
    ends the process. *)
Definition triple {A} (P : daemon → Prop) (m : M A) (Q : A → daemon → Prop) (R : daemon → Prop) : Prop :=
  ∀ d, P d → match m d with
             | (Ok a, d') => Q a d'
             | (Err _, d') => R d'
             | (Abort, _) => True
             end.

Lemma triple_bind {A A'} P (m : M A) (f : A → M A') Q1 Q R :
  triple P m Q1 R → (∀ a, triple (Q1 a) (f a) Q R) → triple P (m ≫= f) Q R.
Proof.
  intros Hm Hf d Hd. specialize (Hm d Hd). unfold mbind, KM_bind.
  destruct (m d) as [[a|e|] d']; [by apply Hf|done..].
Qed.

Lemma triple_ret {A} (P : daemon → Prop) (a : A) (Q : A → daemon → Prop) R :
  (∀ d, P d → Q a d) → triple P (mret a) Q R.
Proof. intros HQ d Hd. by apply HQ. Qed.

Lemma triple_modify P f (Q : daemon → Prop) R : (∀ d, P d → Q (f d)) → triple P (modify f) (λ _, Q) R.
Proof. intros HQ d Hd. by apply HQ. Qed.

Lemma triple_gets {A} P (f : daemon → A) R : triple P (gets f) (λ a d, P d ∧ a = f d) R.
Proof. intros d Hd. by split. Qed.

Lemma triple_conseq {A} (P P' : daemon → Prop) (m : M A) (Q Q' : A → daemon → Prop) (R R' : daemon → Prop) :
  triple P' m Q' R' → (∀ d, P d → P' d) → (∀ a d, Q' a d → Q a d) → (∀ d, R' d → R d) → triple P m Q R.
Proof.
  intros Hm HP HQ HR d Hd. specialize (Hm d (HP d Hd)). destruct (m d) as [[a|e|] d']; auto.
Qed.

(** An invariant of an operation. *)
Definition keeps {A} (I : daemon → Prop) (m : M A) : Prop := triple I m (λ _, I) I.

Lemma keeps_bind {A A'} I (m : M A) (f : A → M A') : keeps I m → (∀ a, keeps I (f a)) → keeps I (m ≫= f).
Proof. intros Hm Hf. by eapply triple_bind. Qed.

Lemma keeps_ret {A} I (a : A) : keeps I (mret a).
Proof. by apply triple_ret. Qed.

Lemma keeps_modify (I : daemon → Prop) f : (∀ d, I d → I (f d)) → keeps I (modify f).
Proof. intros Hf. by apply triple_modify. Qed.

Lemma keeps_gets {A} I (f : daemon → A) : keeps I (gets f).
Proof. eapply triple_conseq; [apply triple_gets|done|by intros a d [? _]|done]. Qed.

Lemma keeps_when I b (m : M unit) : keeps I m → keeps I (when b m).
Proof. destruct b; [done|]. intros _. apply keeps_ret. Qed.

Lemma keeps_of_res {A} I (r : res stop A) : keeps I (of_res r).
Proof. intros d Hd. unfold of_res. by destruct r. Qed.

Lemma keeps_collect I t : keeps I (collect_stats t).
Proof. intros d Hd. unfold collect_stats. by destruct (existsb _ _). Qed.
End logic.

Create HintDb daemon.
#[export] Hint Resolve keeps_ret keeps_gets keeps_when keeps_of_res keeps_collect : daemon.

(** Go through the steps of an operation that keeps an invariant. *)
Ltac keeps_steps :=
  repeat match goal with
  | |- keeps _ (_ ≫= _) => apply keeps_bind; [|intros ?]
  | |- keeps _ (when _ _) => apply keeps_when
  | |- keeps _ (if ?b then _ else _) => destruct b
  | |- keeps _ (let '(_, _) := ?p in _) => destruct p
  | |- keeps _ (match ?r with _ => _ end) => destruct r
  end; auto with daemon.

Section turns.
  Context {K B : Type} `{NetKernel K} `{BpfKernel B}.
  Context (version : list Z) (show_err : lerr → list Z) (notify_socket : bool).
  Local Abbreviation daemon := (daemon K B).

(** ** Properties that the parts of a turn cannot break

    They do not depend on the files, and survive signals, updates of the
    managers and what is logged besides; [unclocked] ones do not depend on the
    counters and the dumps either. *)
Record robust (I : daemon → Prop) : Prop := {
  rb_ext : ∀ d d', d_world d' = d_world d → d_managers d' = d_managers d →
    d_flags d' = d_flags d → d_log d' = d_log d →
    d_stats_tick d' = d_stats_tick d → d_net_refresh_tick d' = d_net_refresh_tick d → I d → I d';
  rb_notify : ∀ d msg, I d → I (add_log d (EvNotify msg));
  rb_printed : ∀ d text, I d → I (add_log d (EvPrint text));
  rb_signal : ∀ d s, I d → I (receive d s);
  rb_print : ∀ d, I d → I (set_flags d (mkFlags (RELOAD_FLAG (d_flags d)) (EXIT_FLAG (d_flags d)) false));
  rb_update : ∀ sys cfg m d, I d → m ∈ d_managers d →
    match update_manager sys cfg m d with (Abort, _) => True | (_, d') => I d' end
}.

Record unclocked (I : daemon → Prop) : Prop := {
  uc_ticks : ∀ d s n, I d → I (set_ticks d s n);
  uc_dump : ∀ d text ok, I d → I (add_log d (EvDump text ok))
}.

Section robust.
  Context (I : daemon → Prop) (HI : robust I).

Lemma keeps_ext f : (∀ d, d_world (f d) = d_world d ∧ d_managers (f d) = d_managers d ∧
                          d_flags (f d) = d_flags d ∧ d_log (f d) = d_log d ∧
                          d_stats_tick (f d) = d_stats_tick d ∧
                          d_net_refresh_tick (f d) = d_net_refresh_tick d) → keeps I (modify f).
Proof. intros Hf. apply keeps_modify. intros d Hd. by eapply (rb_ext I HI), Hd; apply Hf. Qed.

Lemma keeps_notify msg : keeps I (sd_notify notify_socket msg).
Proof. apply keeps_when, keeps_modify. intros d. apply (rb_notify I HI). Qed.

Lemma keeps_interrupts t i : keeps I (interrupts t i).
Proof.
  apply keeps_modify. intros d Hd. revert d Hd. induction (t_signals t i) as [|s l IH]; intros d Hd; [done|].
  cbn [foldl]. apply IH. by apply (rb_signal I HI).
Qed.

Lemma keeps_print t : keeps I (print_bpf_stats show_err t).
Proof. unfold print_bpf_stats. keeps_steps. apply keeps_modify. intros d. apply (rb_printed I HI). Qed.

Lemma update_manager_managers sys cfg m (d : daemon) :
  d_managers (update_manager sys cfg m d).2 = d_managers d.
Proof.
  unfold update_manager. destruct (find_peer cfg (m_interface m)); [|done].
  destruct (update_config _ _ _ _) as [r w]. by destruct r.
Qed.

Lemma update_managers_spec sys cfg ms :
  triple (λ d, I d ∧ ∀ m, m ∈ ms → m ∈ d_managers d) (update_managers sys cfg ms) (λ _, I) I.
Proof.
  induction ms as [|m ms IH]; cbn [update_managers]; [apply triple_ret; by intros d [? _]|].
  eapply (triple_bind _ _ _ (λ _ d, I d ∧ ∀ m, m ∈ ms → m ∈ d_managers d)); [|done].
  intros d [Hd Hm]. pose proof (rb_update I HI sys cfg m d Hd (Hm m ltac:(left))) as Hu.
  pose proof (update_manager_managers sys cfg m d) as He.
  destruct (update_manager sys cfg m d) as [[[]|e|] d']; [|done..]. cbn in He. split; [done|].
  intros m' Hm'. rewrite He. apply Hm. by right.
Qed.

Lemma keeps_update_managers sys cfg : keeps I (ms ← gets d_managers; update_managers sys cfg ms).
Proof.
  eapply triple_bind; [apply triple_gets|]. intros ms. eapply triple_conseq; [apply update_managers_spec| |done..].
  by intros d [Hd ->].
Qed.

Lemma keeps_check_print t : keeps I (check_print show_err t).
Proof.
  unfold check_print. eapply triple_bind; [apply triple_gets|]. intros f. cbn [swap_print].
  apply (triple_bind _ _ _ (λ _, I)); [|intros []; apply keeps_when, keeps_print].
  apply triple_modify. intros d [Hd ->]. by apply (rb_print I HI).
Qed.

Lemma keeps_check_exit : keeps I (check_exit notify_socket).
Proof. unfold check_exit. keeps_steps. apply keeps_notify. Qed.

(** For a property that does not look at the flags and the loads. *)
Lemma keeps_check_reload_any t src : (∀ d f, I d → I (set_flags d f)) →
  (∀ d r, I d → I (add_log d (EvLoad r))) → keeps I (check_reload notify_socket t src).
Proof.
  intros Hf Hl. unfold check_reload. apply keeps_bind; [apply keeps_gets|intros f].
  destruct (should_reload f); [|apply keeps_ret].
  apply keeps_bind; [apply keeps_interrupts|intros _].
  apply keeps_bind; [apply keeps_modify; intros d; apply Hf|intros _].
  apply keeps_bind; [apply keeps_interrupts|intros _].
  apply keeps_bind; [apply keeps_notify|intros _].
  apply keeps_bind; [apply keeps_modify; intros d; apply Hl|intros _].
  apply keeps_bind; [apply keeps_interrupts|intros _].
  apply keeps_bind; [|intros _; apply keeps_notify].
  destruct (load_source t src); [apply keeps_update_managers|apply keeps_ret|apply keeps_of_res].
Qed.

Section clock.
  Context (HC : unclocked I).

Lemma keeps_dump t path : keeps I (dump_counters_file version show_err t path).
Proof.
  unfold dump_counters_file. keeps_steps; first [by apply keeps_ext|idtac].
  all: apply keeps_modify; intros d; apply (uc_dump I HC).
Qed.

Lemma keeps_set_ticks f g : keeps I (modify (λ d, set_ticks d (f d) (g d))).
Proof. apply keeps_modify. intros d. apply (uc_ticks I HC). Qed.

Lemma keeps_periodic_dump cfg t : keeps I (periodic_dump version show_err cfg t).
Proof. unfold periodic_dump. keeps_steps; first [by apply keeps_set_ticks|apply keeps_dump]. Qed.

Lemma keeps_periodic_refresh cfg t : keeps I (periodic_refresh cfg t).
Proof.
  unfold periodic_refresh. apply keeps_bind; [apply keeps_set_ticks|intros _].
  apply keeps_bind; [apply keeps_gets|intros n]. destruct (_ <=? n); [|apply keeps_ret].
  apply keeps_bind; [apply keeps_set_ticks|intros _]. apply keeps_update_managers.
Qed.
End clock.
End robust.

Lemma keeps_run_ticks (I : daemon → Prop) cfg src ts :
  (∀ t, keeps I (tick version show_err notify_socket cfg src t)) →
  keeps I (run_ticks version show_err notify_socket cfg src ts).
Proof.
  intros Ht. induction ts as [|t ts IH]; cbn [run_ticks]; [apply keeps_ret|].
  apply keeps_bind; [apply Ht|done].
Qed.
End turns.
