(* ===== verification/DaemonSignals.v ===== *)
(** * No signal is lost

    A reload request is answered by reading the configuration after it
    arrived, and a request to exit ends the loop at its next turn, before
    anything else is done. *)

From stdpp Require Import gmap.
From S2P Require Import Prelude Words Slices Text Obfs Results StrOps Net Config Netlink Links Tun.
From S2P Require Import Routes Loader TcLoad TcLaws Daemon DaemonLogic.
Local Open Scope Z_scope.

(** Whether a reload request of the log was not yet followed by a load. *)
Definition unanswered_step (p : bool) (e : event) : bool :=
  match e with
  | EvSignal SIGHUP => true
  | EvLoad _ => false
  | _ => p
  end.
Definition unanswered (l : list event) : bool := foldl unanswered_step false l.

Lemma unanswered_snoc l e : unanswered (l ++ [e]) = unanswered_step (unanswered l) e.
Proof. unfold unanswered. by rewrite foldl_app. Qed.

(** A request that is answered has a load behind it. *)
Lemma answered_load l pre post : unanswered l = false → l = pre ++ EvSignal SIGHUP :: post →
  ∃ r, EvLoad r ∈ post.
Proof.
  intros Hu ->. unfold unanswered in Hu. rewrite foldl_app in Hu. cbn [foldl unanswered_step] in Hu.
  assert (Hg : ∀ l, foldl unanswered_step true l = false → ∃ r, EvLoad r ∈ l).
  { clear. induction l as [|e l IH]; [done|]. cbn [foldl]. destruct e as [[]| | | |r|]; cbn [unanswered_step];
      try (intros [r' Hr']%IH; exists r'; by right). intros _. exists r. left. }
  by apply Hg.
Qed.

Section signals.
  Context {K B : Type} `{NetKernel K} `{BpfKernel B}.
  Context (version : list Z) (show_err : lerr → list Z) (notify_socket : bool).
  Local Abbreviation daemon := (daemon K B).
  Local Abbreviation M := (KM daemon stop).

(** Properties of the flags and the log only. *)
Lemma robust_log (I : daemon → Prop) :
  (∀ d d', d_flags d' = d_flags d → d_log d' = d_log d → I d → I d') →
  (∀ d e, (∀ s, e ≠ EvSignal s) → (∀ r, e ≠ EvLoad r) → I d → I (add_log d e)) →
  (∀ d s, I d → I (receive d s)) →
  (∀ d, I d → I (set_flags d (mkFlags (RELOAD_FLAG (d_flags d)) (EXIT_FLAG (d_flags d)) false))) →
  robust I ∧ unclocked I.
Proof.
  intros He Hl Hs Hp. split; [split; [|by auto|by auto|done|done|]|split].
  - intros d d' _ _ Hf Hg _ _. by apply He.
  - intros sys cfg m d Hd _. unfold update_manager. destruct (find_peer cfg (m_interface m)) as [p|]; [|done].
    destruct (update_config _ _ _ _) as [r w].
    assert (Hi : I (add_log (set_world d w) (EvUpdate (m_interface m) (make_single cfg p) r))).
    { apply Hl; [done..|]. by eapply He, Hd. }
    by destruct r.
  - intros d s n. by apply He.
  - intros d text ok. by apply Hl.
Qed.

(** ** Reload requests *)

Definition flagged (d : daemon) : Prop := unanswered (d_log d) = true → RELOAD_FLAG (d_flags d) = true.

Lemma flagged_robust : robust flagged ∧ unclocked flagged.
Proof.
  apply robust_log; unfold flagged.
  - by intros d d' -> ->.
  - intros d e Hs Hl Hd. cbn [add_log d_log d_flags]. rewrite unanswered_snoc.
    destruct e as [s| | | |r|]; first [done|by destruct (Hs s)|by destruct (Hl r)].
  - intros d s Hd. cbn. rewrite unanswered_snoc. by destruct s.
  - done.
Qed.

(** After the log has shown a load there is nothing unanswered. *)
Lemma load_answers r d : flagged (add_log d (EvLoad r)).
Proof. intros Hu. cbn [add_log d_log] in Hu. by rewrite unanswered_snoc in Hu. Qed.

Lemma notify_returns msg (d : daemon) : ∃ a d', sd_notify notify_socket msg d = (Ok a, d').
Proof. unfold sd_notify. destruct notify_socket; by eexists _, _. Qed.

Lemma keeps_check_reload t src : keeps flagged (check_reload notify_socket t src).
Proof.
  pose proof flagged_robust as [HR HC]. unfold check_reload. apply keeps_bind; [apply keeps_gets|]. intros f.
  destruct (should_reload f); [|apply keeps_ret].
  apply keeps_bind; [by apply keeps_interrupts|]. intros ?.
  eapply (triple_bind _ _ _ (λ _ _, True)); [by apply triple_modify|intros []].
  eapply (triple_bind _ _ _ (λ _ _, True)); [by apply triple_modify|intros []].
  eapply (triple_bind _ _ _ (λ _ _, True)); [|intros []].
  { intros d _. by destruct (notify_returns "RELOADING=1" d) as (? & ? & ->). }
  eapply (triple_bind _ _ _ (λ _, flagged)); [apply triple_modify; intros d _; apply load_answers|intros ?].
  apply keeps_bind; [by apply keeps_interrupts|intros ?].
  apply keeps_bind; [|intros ?; by apply keeps_notify].
  destruct (load_source t src); [by apply keeps_update_managers|apply keeps_ret|apply keeps_of_res].
Qed.

Lemma keeps_tick cfg src t : keeps flagged (tick version show_err notify_socket cfg src t).
Proof.
  pose proof flagged_robust as [HR HC]. unfold tick.
  keeps_steps; first [by apply keeps_interrupts|by apply keeps_notify|by apply keeps_check_exit
    |by apply keeps_check_print|by apply keeps_periodic_dump|by apply keeps_periodic_refresh
    |apply keeps_check_reload].
Qed.

(** *** A request that is flagged when a turn starts is answered in it *)

Definition still_flagged (l0 : list event) (d : daemon) : Prop :=
  RELOAD_FLAG (d_flags d) = true ∧ ∃ l, d_log d = l0 ++ l.

Lemma still_flagged_robust l0 : robust (still_flagged l0) ∧ unclocked (still_flagged l0).
Proof.
  apply robust_log; unfold still_flagged.
  - by intros d d' -> ->.
  - intros d e _ _ [Hf [l Hl]]. split; [done|]. exists (l ++ [e]). cbn. by rewrite Hl, app_assoc.
  - intros d s [Hf [l Hl]]. split; [by destruct s|]. exists (l ++ [EvSignal s]). cbn. by rewrite Hl, app_assoc.
  - done.
Qed.

Definition loaded_since (l0 : list event) (d : daemon) : Prop :=
  ∃ l r, d_log d = l0 ++ l ∧ EvLoad r ∈ l.

Lemma loaded_since_robust l0 : robust (loaded_since l0) ∧ unclocked (loaded_since l0).
Proof.
  assert (Hs : ∀ d e, loaded_since l0 d → loaded_since l0 (add_log d e)).
  { intros d e (l & r & Hl & Hr). exists (l ++ [e]), r. cbn. rewrite Hl, app_assoc. split; [done|]. set_solver. }
  apply robust_log; [|by auto|intros d s Hd; unfold receive; by apply Hs|done].
  unfold loaded_since. by intros d d' _ ->.
Qed.

Definition extends (l0 : list event) (d : daemon) : Prop := ∃ l, d_log d = l0 ++ l.

Lemma extends_robust l0 : robust (extends l0) ∧ unclocked (extends l0).
Proof.
  assert (Hs : ∀ d e, extends l0 d → extends l0 (add_log d e)).
  { intros d e (l & Hl). exists (l ++ [e]). cbn. by rewrite Hl, app_assoc. }
  apply robust_log; [|by auto|intros d s Hd; unfold receive; by apply Hs|done].
  unfold extends. by intros d d' _ ->.
Qed.

Lemma check_reload_loads t src l0 :
  triple (still_flagged l0) (check_reload notify_socket t src) (λ _, loaded_since l0) (λ _, True).
Proof.
  pose proof (loaded_since_robust l0) as [HL _]. pose proof (extends_robust l0) as [HE _].
  unfold check_reload. eapply triple_bind; [apply triple_gets|]. intros f d [[Hf Hl] ->].
  unfold should_reload. rewrite Hf.
  refine ((_ : triple (extends l0) _ (λ _, loaded_since l0) (λ _, True)) d Hl).
  assert (HT : ∀ A P (m : M A) Q, keeps Q m → (∀ d, P d → Q d) → triple P m (λ _, Q) (λ _, True)).
  { intros A P m Q Hm HPQ. by eapply triple_conseq. }
  eapply triple_bind; [apply HT with (Q := extends l0); [by apply keeps_interrupts|done]|intros ?].
  eapply (triple_bind _ _ _ (λ _, extends l0)); [by apply triple_modify|intros ?].
  eapply triple_bind; [apply HT with (Q := extends l0); [by apply keeps_interrupts|done]|intros ?].
  eapply triple_bind; [apply HT with (Q := extends l0); [by apply keeps_notify|done]|intros ?].
  eapply (triple_bind _ _ _ (λ _, loaded_since l0)).
  { apply triple_modify. intros d0 [l Hl0]. exists (l ++ [EvLoad (load_source t src)]), (load_source t src).
    cbn. rewrite Hl0, app_assoc. split; [done|]. set_solver. }
  intros ?. apply HT; [|done]. apply keeps_bind; [by apply keeps_interrupts|intros ?].
  apply keeps_bind; [|intros ?; by apply keeps_notify].
  destruct (load_source t src); [by apply keeps_update_managers|apply keeps_ret|apply keeps_of_res].
Qed.

Lemma tick_loads cfg src t d d' : RELOAD_FLAG (d_flags d) = true →
  tick version show_err notify_socket cfg src t d = (Ok tt, d') →
  ∃ l r, d_log d' = d_log d ++ l ∧ EvLoad r ∈ l.
Proof.
  intros Hf Ht.
  assert (HT : triple (still_flagged (d_log d)) (tick version show_err notify_socket cfg src t)
                 (λ _, loaded_since (d_log d)) (λ _, True)).
  { pose proof (still_flagged_robust (d_log d)) as [HR HC]. unfold tick.
    repeat match goal with |- triple _ (_ ≫= _) _ _ =>
      eapply (triple_bind _ _ _ (λ _, still_flagged (d_log d)));
        [eapply (triple_conseq _ (still_flagged (d_log d)) _ _ (λ _, still_flagged (d_log d))); [|done..]|intros ?]
    end; first [by apply keeps_interrupts|by apply keeps_notify|by apply keeps_check_exit
      |by apply keeps_check_print|by apply keeps_periodic_dump|by apply keeps_periodic_refresh
      |apply check_reload_loads]. }
  specialize (HT d). rewrite Ht in HT. apply HT. split; [done|]. exists []. by rewrite app_nil_r.
Qed.

(** ** Requests to exit *)

Definition exits (s : signal) : bool := match s with SIGINT | SIGTERM => true | _ => false end.

Lemma receive_all_exit (d : daemon) l : EXIT_FLAG (d_flags d) = true ∨ (∃ s, s ∈ l ∧ exits s = true) →
  EXIT_FLAG (d_flags (foldl receive d l)) = true.
Proof.
  revert d. induction l as [|s l IH]; intros d; cbn [foldl]; [by intros [?|(s & ?%not_elem_of_nil & _)]|].
  intros [Hf|(s' & [->|Hs]%elem_of_cons & He)]; apply IH.
  - left. by destruct s.
  - left. by destruct s.
  - right. by exists s'.
Qed.

Lemma receive_all_rest (d : daemon) l : d_world (foldl receive d l) = d_world d ∧ d_files (foldl receive d l) = d_files d.
Proof. revert d. induction l as [|s l IH]; intros d; [done|]. cbn [foldl]. by destruct (IH (receive d s)) as [-> ->]. Qed.

Lemma tick_exits cfg src t (d : daemon) :
  EXIT_FLAG (d_flags d) = true ∨ (∃ s, s ∈ t_signals t 0 ∧ exits s = true) →
  ∃ d', tick version show_err notify_socket cfg src t d = (Err Break, d') ∧
        d_world d' = d_world d ∧ d_files d' = d_files d.
Proof.
  intros Hx. apply receive_all_exit in Hx. destruct (receive_all_rest d (t_signals t 0)) as [Hw Hf].
  assert (Hi : interrupts t 0 d = (Ok tt, foldl receive d (t_signals t 0))) by done.
  remember (foldl receive d (t_signals t 0)) as d1.
  unfold tick, check_exit, sd_notify, gets, emit, of_res, modify, when, mbind, KM_bind. rewrite Hi.
  destruct notify_socket; cbn [mret KM_ret d_flags add_log]; rewrite Hx; by eexists.
Qed.

(** C8: signals.  Whatever arrives while the loop runs, every request to
    reload in the log has a load of the configuration behind it or is still
    flagged; a request that is flagged when a turn starts is answered by a load
    in that turn; and a request to exit that has arrived when a turn looks at
    the flags ends the loop in that turn, with no interface, map or file
    touched. *)
Theorem signals_answered cfg src ts (d0 d : daemon) :
  d_log d0 = [] → run_ticks version show_err notify_socket cfg src ts d0 = (Ok tt, d) →
  (∀ pre post, d_log d = pre ++ EvSignal SIGHUP :: post →
     (∃ r, EvLoad r ∈ post) ∨ RELOAD_FLAG (d_flags d) = true) ∧
  (∀ t d', RELOAD_FLAG (d_flags d) = true → tick version show_err notify_socket cfg src t d = (Ok tt, d') →
     ∃ l r, d_log d' = d_log d ++ l ∧ EvLoad r ∈ l) ∧
  (∀ t, EXIT_FLAG (d_flags d) = true ∨ (∃ s, s ∈ t_signals t 0 ∧ exits s = true) →
     ∃ d', tick version show_err notify_socket cfg src t d = (Err Break, d') ∧
           d_world d' = d_world d ∧ d_files d' = d_files d).
Proof.
  intros Hl Hr. split; [|split; [intros t d'; apply tick_loads|intros t; apply tick_exits]].
  intros pre post Hlog. pose proof (keeps_run_ticks version show_err notify_socket flagged cfg src ts (keeps_tick cfg src) d0) as Hk.
  rewrite Hr in Hk. assert (Hf : flagged d) by (apply Hk; unfold flagged; by rewrite Hl).
  destruct (unanswered (d_log d)) eqn:Hu; [right; by apply Hf|left; by eapply answered_load].
Qed.
End signals.

(** ** reload.rs and main.rs: installing the signal handlers

    [Daemon] lets signals act on the flags through the handlers.  Here the
    handlers are installed: what the process does with a signal is a table of
    dispositions, [sigaction] may refuse, and on Windows a console event calls
    one handler. *)

Definition signo (s : signal) : Z :=
  match s with SIGHUP => 1 | SIGUSR1 => 10 | SIGINT => 2 | SIGTERM => 15 end.

(** The handlers of the process, by signal number. *)
Abbreviation dispositions := (gmap Z (flags → flags)).

(** [sigaction]: [accepts] tells whether the system takes the handler. *)
Definition sigaction (accepts : Z → bool) (n : Z) (h : flags → flags) (d : dispositions)
    : bool * dispositions :=
  if accepts n then (true, <[n := h]> d) else (false, d).

Definition setup_signal_handler (accepts : Z → bool) (d : dispositions) : bool * dispositions :=
  sigaction accepts (signo SIGHUP) sighup_handler d.

(** The handlers of [run_daemon]; only the first one is required. *)
Definition install_handlers (accepts : Z → bool) (d : dispositions) : bool * dispositions :=
  let '(ok, d) := setup_signal_handler accepts d in
  if negb ok then (false, d)
  else
    let '(_, d) := sigaction accepts (signo SIGUSR1) handle_sigusr1 d in
    let '(_, d) := sigaction accepts (signo SIGINT) handle_exit d in
    let '(_, d) := sigaction accepts (signo SIGTERM) handle_exit d in
    (true, d).

(** A signal runs its handler; without one its default action ends the
    process. *)
Definition raise (d : dispositions) (s : signal) (f : flags) : option flags :=
  h ← d !! signo s; Some (h f).

Lemma signo_inj : Inj (=) (=) signo.
Proof. by intros [] []. Qed.

Lemma lookup_sigaction accepts n h d m :
  (sigaction accepts n h d).2 !! m = if accepts n && (n =? m) then Some h else d !! m.
Proof.
  unfold sigaction. destruct (accepts n); [|done]. cbn [snd andb].
  destruct (Z.eqb_spec n m) as [->|]; [apply lookup_insert_eq|by rewrite lookup_insert_ne].
Qed.

(** From the default dispositions: when the daemon goes on, each signal whose
    handler the system accepted acts on the flags as in [deliver], and the
    others still end the process; it goes on exactly when the reload handler
    was accepted. *)
Theorem handlers_deliver accepts ok d : install_handlers accepts ∅ = (ok, d) →
  ok = accepts (signo SIGHUP) ∧
  (ok = true → ∀ s f, raise d s f = if accepts (signo s) then Some (deliver f s) else None).
Proof.
  unfold install_handlers, setup_signal_handler.
  pose proof (lookup_sigaction accepts (signo SIGHUP) sighup_handler ∅) as H1.
  destruct (sigaction accepts (signo SIGHUP) sighup_handler ∅) as [ok1 d1] eqn:E1. cbn [snd] in H1.
  assert (Hok : ok1 = accepts (signo SIGHUP)).
  { unfold sigaction in E1. by destruct (accepts (signo SIGHUP)); injection E1 as <- _. }
  destruct ok1; cbn [negb]; [|intros [= <- <-]; by split].
  pose proof (lookup_sigaction accepts (signo SIGUSR1) handle_sigusr1 d1) as H2.
  destruct (sigaction accepts (signo SIGUSR1) handle_sigusr1 d1) as [ok2 d2]. cbn [snd] in H2.
  pose proof (lookup_sigaction accepts (signo SIGINT) handle_exit d2) as H3.
  destruct (sigaction accepts (signo SIGINT) handle_exit d2) as [ok3 d3]. cbn [snd] in H3.
  pose proof (lookup_sigaction accepts (signo SIGTERM) handle_exit d3) as H4.
  destruct (sigaction accepts (signo SIGTERM) handle_exit d3) as [ok4 d4]. cbn [snd] in H4.
  intros [= <- <-]. split; [done|]. intros _ s f. unfold raise. rewrite H4, H3, H2, H1, lookup_empty.
  destruct s; cbn [signo Z.eqb Pos.eqb]; rewrite ?andb_false_r, ?andb_true_r; cbn [signo] in *.
  - by rewrite <- Hok.
  - by destruct (accepts 10).
  - by destruct (accepts 2).
  - by destruct (accepts 15).
Qed.

(** ** Windows *)

(** The console handler: the answer tells whether the event was handled. *)
Definition ctrl_handler (ctrl_type : Z) (f : flags) : Z * flags :=
  if ctrl_type <=? 2 then (1, mkFlags (RELOAD_FLAG f) true (PRINT_STATS f)) else (0, f).

(** [SetConsoleCtrlHandler] answers 0 when it fails. *)
Definition setup_console_handler (answer : Z) : bool := negb (answer =? 0).

(** Ctrl+C, Ctrl+Break and the closing of the console ask the daemon to exit,
    as the exit signals do; other events are passed on and change nothing. *)
Lemma ctrl_handler_exits t f : 0 ≤ t →
  ctrl_handler t f = if bool_decide (t ∈ [0; 1; 2]) then (1, handle_exit f) else (0, f).
Proof.
  intros Ht. unfold ctrl_handler. destruct (Z.leb_spec t 2) as [H|H].
  - rewrite bool_decide_true; [done|]. rewrite !elem_of_cons. lia.
  - rewrite bool_decide_false; [done|]. rewrite !elem_of_cons, elem_of_nil. lia.
Qed.
