(* ===== verification/DaemonProofs.v ===== *)
(** * What the packet programs run with while the daemon lives

    From the setup on, whatever is reloaded and refreshed, the dispatchers
    lead from every configured port to the program of its peer, and the
    configuration map of a peer holds the record of the configuration that was
    last applied to it. *)

From stdpp Require Import gmap.
From S2P Require Import Prelude Words Slices Text Obfs Results StrOps Net Config ConfigProofs Netlink Links Tun Routes Loader.
From S2P Require Import TcLoad TcLaws TcProofs TcServe TcManager Daemon DaemonLogic.
Local Open Scope Z_scope.

(** The configuration that was last applied to an interface, by the log. *)
Definition applied_step (interface : list Z) (c : Config) (e : event) : Config :=
  match e with
  | EvUpdate i c' (Ok _) => if decide (i = interface) then c' else c
  | _ => c
  end.
Definition applied (start : Config) (interface : list Z) (l : list event) : Config :=
  foldl (applied_step interface) start l.

Lemma applied_snoc start i l e : applied start i (l ++ [e]) = applied_step i (applied start i l) e.
Proof. unfold applied. by rewrite foldl_app. Qed.

Lemma applied_other start i l e : (∀ c r, e ≠ EvUpdate i c r) → applied start i (l ++ [e]) = applied start i l.
Proof.
  intros He. rewrite applied_snoc. destruct e as [| | | | |j c [r| |]]; try done. cbn.
  case_decide as Hj; [subst; by destruct (He c (Ok r))|done].
Qed.

(** What the peers of a configuration have to satisfy. *)
Definition valid_peers (ps : list PeerConfig) : Prop :=
  Forall (peer_ok 255) ps ∧ NoDup (name <$> ps) ∧ ports_disjoint ps.

Lemma port_list_u16 p : peer_ok 255 p → ports p ≠ [] ∧ Forall is_u16 (ports p).
Proof.
  intros [_ _ [Hne Hp] _ _ _ _ _ _ _ _]. split; [done|]. eapply Forall_impl; [done|]. intros x [Hx1 Hx2].
  split; [lia|]. change (2 ^ 16) with 65536. lia.
Qed.

Section serving.
  Context {K B : Type} `{NetKernel K} `{BpfLaws B}.
  Context (version : list Z) (show_err : lerr → list Z) (notify_socket : bool).
  Local Abbreviation daemon := (daemon K B).
  Local Abbreviation world := (world K B).

(** The record was built from the settings in [c]. *)
Definition built_from (c : Config) (e : entry) : Prop :=
  ∃ p (h : host) (rs : resolvers) (l : local_env), peer c = Done p ∧
    build_gut_config h rs l p (m_interface (en_mgr e)) (m_ingress_interface (en_mgr e)) = Ok (en_gut e).

Record serving (cfg : Config) (l : list event) (ms : list TcBpfManager) (w : world) (es : list entry) : Prop := {
  sv_inv : ∃ roles, inv roles (Z.of_nat (length es)) w es;
  sv_mgrs : en_mgr <$> es = ms;
  sv_names : Forall (λ e, m_interface (en_mgr e) = name (en_peer e)) es;
  sv_built : Forall (λ e, built_from (applied (make_single cfg (en_peer e)) (name (en_peer e)) l) e) es
}.

(** ** The setup *)

Lemma setup_managers_spec sys cfg ps es (w w' : world) ms :
  serving cfg [] (en_mgr <$> es) w es → valid_peers ((en_peer <$> es) ++ ps) →
  Z.of_nat (length es + length ps) < 2 ^ 32 →
  setup_managers sys cfg (en_mgr <$> es) ps w = (Ok ms, w') →
  ∃ es', serving cfg [] ms w' es' ∧ en_peer <$> es' = (en_peer <$> es) ++ ps.
Proof.
  revert es w. induction ps as [|p ps IH]; intros es w Hs Hv Hn; cbn [setup_managers].
  { intros [-> ->]%mret_inv. exists es. by rewrite app_nil_r. }
  destruct (tc_new _ _ _ w) as [[m|e|] w1] eqn:Hnew; [|done..]. intros Hr.
  destruct Hs as [[roles Hi] _ Hnames Hbuilt]. destruct Hv as (Hok & Hnd & Hdisj).
  assert (Hp : peer_ok 255 p) by (apply Forall_app in Hok as [_ Hok]; by inversion Hok).
  destruct (port_list_u16 p Hp) as [Hne Hu].
  assert (Hap : ports_apart es (ports p)).
  { split; [done|]. intros e He. apply list_elem_of_lookup in He as [i He].
    assert (Hi' : (en_peer <$> es) !! i = Some (en_peer e)) by (by rewrite list_lookup_fmap, He).
    split.
    - apply Forall_app in Hok as [Hok _]. apply (port_list_u16 (en_peer e)). by eapply Forall_lookup_1.
    - intros port Hport Hin. pose proof (lookup_lt_Some _ _ _ Hi') as Hlt. rewrite length_fmap in Hlt.
      assert (i = length (en_peer <$> es)); [|rewrite length_fmap in *; lia].
      eapply (Hdisj i (length (en_peer <$> es))); [by apply lookup_app_l_Some|by apply list_lookup_middle|done..]. }
  cbn [length] in Hn.
  destruct (tc_new_spec _ _ _ p _ _ _ _ _ (eq_refl : peer (make_single cfg p) = Done p) Hi ltac:(lia) Hne Hap Hnew) as (roles' & g & x & Hi' & Hf).
  destruct Hf as [Fi _ _ [k Fg] _]. cbn [en_mgr en_peer en_gut] in *.
  specialize (IH (es ++ [mkEntry p m g x]) w1). rewrite !fmap_app, <- app_assoc in IH.
  apply IH; [| |rewrite length_app; cbn; lia|exact Hr].
  - split.
    + exists roles'. rewrite length_app, Nat2Z.inj_add. exact Hi'.
    + by rewrite fmap_app.
    + apply Forall_app. split; [done|]. by constructor.
    + apply Forall_app. split; [done|]. constructor; [|done].
      exists p. eexists _, _, _. split; [done|]. cbn [en_mgr en_gut]. rewrite Fi. exact Fg.
  - done.
Qed.

Lemma serving_start cfg k b : serving cfg [] [] (mkWorld k b ∅) [].
Proof.
  split; [|done|constructor|constructor]. exists ∅. split; [by intros ??|by intros ??|by intros ??].
Qed.

(** ** The loop *)

(** The peers are served while the daemon is in state [d]. *)
Definition served (cfg : Config) (ps : list PeerConfig) (d : daemon) : Prop :=
  ∃ es, serving cfg (d_log d) (d_managers d) (d_world d) es ∧ en_peer <$> es = ps.

(** Only the updates of a manager count. *)
Lemma serving_log cfg l ms (w : world) es e : (∀ i c r, e ≠ EvUpdate i c r) →
  serving cfg l ms w es → serving cfg (l ++ [e]) ms w es.
Proof.
  intros He [Hi Hm Hn Hb]. split; [done..|]. eapply Forall_impl; [exact Hb|]. intros x Hx.
  by rewrite applied_other.
Qed.

Lemma served_update cfg ps sys c m (d : daemon) : NoDup (name <$> ps) →
  served cfg ps d → m ∈ d_managers d →
  match update_manager sys c m d with (Abort, _) => True | (_, d') => served cfg ps d' end.
Proof.
  intros Hnd (es & [[roles Hi] Hm Hn Hb] & Hp) Hin. unfold update_manager.
  destruct (find_peer c (m_interface m)) as [p|] eqn:Hf; [|exists es; split; [split; eauto|done]].
  rewrite <- Hm in Hin. apply list_elem_of_fmap in Hin as (e & -> & Hin).
  apply list_elem_of_lookup in Hin as [i He].
  destruct (update_config sys (en_mgr e) (make_single c p) (d_world d)) as [r w] eqn:Hu.
  destruct (update_config_spec sys _ p _ _ _ _ _ _ _ _ (eq_refl : peer (make_single c p) = Done p) Hi He Hu)
    as [Hr _].
  assert (Hfail : ∀ err, r = Err err → served cfg ps (add_log (set_world d w)
    (EvUpdate (m_interface (en_mgr e)) (make_single c p) r))).
  { intros err ->. exists es. split; [|done]. split; [by exists roles|done|done|].
    eapply Forall_impl; [exact Hb|]. intros x Hx. cbn [add_log set_world d_log]. by rewrite applied_snoc. }
  destruct r as [[]|err|]; [|by eapply Hfail|done]. destruct Hr as (g & Hg & Hi').
  exists (<[i := with_gut e g]> es). split.
  2:{ rewrite list_fmap_insert. cbn [with_gut en_peer]. rewrite list_insert_id; [done|].
      by rewrite list_lookup_fmap, He. }
  cbn [add_log set_world d_log d_world d_managers].
  assert (Hne : m_interface (en_mgr e) = name (en_peer e)) by (by apply (Forall_lookup_1 _ _ _ _ Hn He)).
  split.
  - exists roles. by rewrite length_insert.
  - rewrite list_fmap_insert. cbn [with_gut en_mgr]. rewrite list_insert_id; [done|].
    by rewrite list_lookup_fmap, He.
  - by apply Forall_insert.
  - apply Forall_lookup_2. intros j e' [(<- & <- & _)|[Hji He']]%list_lookup_insert_Some.
    + cbn [with_gut en_peer en_mgr]. rewrite applied_snoc. cbn [applied_step].
      rewrite decide_True by done. exists p. by eexists _, _, _.
    + rewrite applied_other; [by apply (Forall_lookup_1 _ _ _ _ Hb He')|]. intros c' r' [= Heq _ _].
      apply Hji. eapply (NoDup_lookup (name <$> ps)); [done| |].
      * by rewrite <- Hp, !list_lookup_fmap, He.
      * rewrite <- Hp, !list_lookup_fmap, He'. cbn. congruence.
Qed.

Lemma served_robust cfg ps : NoDup (name <$> ps) → robust (served cfg ps) ∧ unclocked (served cfg ps).
Proof.
  intros Hnd.
  assert (Hlog : ∀ d e, (∀ i c r, e ≠ EvUpdate i c r) → served cfg ps d → served cfg ps (add_log d e)).
  { intros d e He (es & Hs & Hp). exists es. split; [by apply serving_log|done]. }
  split; [split|split]; try (by auto).
  - unfold served. by intros d d' -> -> _ -> _ _.
  - intros d s Hd. unfold receive. by apply Hlog.
  - intros sys c m d Hd Hm. by apply served_update.
Qed.

Lemma served_check_reload cfg ps t src : NoDup (name <$> ps) →
  keeps (served cfg ps) (check_reload notify_socket t src).
Proof.
  intros Hnd. apply keeps_check_reload_any; [by apply served_robust|done|].
  intros d r (es & Hs & Hp). exists es. split; [by apply serving_log|done].
Qed.

Lemma served_tick cfg cfg' ps src t : NoDup (name <$> ps) →
  keeps (served cfg ps) (tick version show_err notify_socket cfg' src t).
Proof.
  intros Hnd. pose proof (served_robust cfg ps Hnd) as [HR HC]. unfold tick.
  keeps_steps; first [by apply keeps_interrupts|by apply keeps_notify|by apply keeps_check_exit
    |by apply keeps_check_print|by apply keeps_periodic_dump|by apply keeps_periodic_refresh
    |by apply served_check_reload].
Qed.

(** C3: the packet programs.  For a valid configuration, from the setup on and
    after any turns of the loop, with any signals, reloads and refreshes, valid
    or failing: every peer has its manager; the dispatcher of the peer's
    interface leads from each of its ports to its ingress program, whose
    redirect entry is set; and both programs of the peer read the record that
    was built from the configuration last applied to the peer. *)
Theorem daemon_serves sys userspace handler cfg src ts last fs k b (d : daemon) :
  valid_peers (peers cfg) → Z.of_nat (length (peers cfg)) < 2 ^ 32 →
  run_daemon version show_err notify_socket sys userspace handler cfg src ts last fs k b = Running d →
  ∀ i p, peers cfg !! i = Some p → ∃ m g x,
    d_managers d !! i = Some m ∧ m_interface m = name p ∧ dispatches (d_world d) p m ∧
    reads (w_bpf (d_world d)) (m_ingress_skel m) "tx_devmap" key0 x ∧
    reads (w_bpf (d_world d)) (inner (m_egress_skel m)) "config_map" key0 (gut_config_bytes g) ∧
    (∀ fd, sk_maps (m_ingress_skel m) (bs "config_map") = Some fd →
       reads (w_bpf (d_world d)) (m_ingress_skel m) "config_map" key0 (gut_config_bytes g)) ∧
    ∃ p' h rs l, peer (applied (make_single cfg p) (name p) (d_log d)) = Done p' ∧
      build_gut_config h rs l p' (name p) (m_ingress_interface m) = Ok g.
Proof.
  intros Hv Hn Hrun i p Hp.
  assert (Hs : served cfg (peers cfg) d).
  { unfold run_daemon in Hrun. destruct (userspace_only (global cfg) || userspace); [done|].
    destruct handler; cbn [negb] in Hrun; [|done].
    destruct (setup_managers sys cfg [] (peers cfg) (mkWorld k b ∅)) as [[ms|e|] w] eqn:Hset; [|done..].
    destruct (setup_managers_spec sys cfg (peers cfg) [] _ _ _ (serving_start cfg k b) Hv Hn Hset)
      as (es & Hes & Hpe). destruct Hv as (_ & Hnd & _).
    assert (Hk : keeps (served cfg (peers cfg)) (_ ← sd_notify (K:=K) (B:=B) notify_socket "READY=1";
               _ ← sd_notify notify_socket "READY=1"; run_ticks version show_err notify_socket cfg src ts)).
    { do 2 (apply keeps_bind; [apply keeps_notify, served_robust, Hnd|intros _]).
      apply keeps_run_ticks. intros t. by apply served_tick. }
    specialize (Hk (mkDaemon w ms (mkFlags false false false) 0 0 fs [])).
    match type of Hk with _ → match ?x with _ => _ end => destruct x as [[[]|[]|] d'] end;
      [|by destruct (final_stats _ _ _ _ _) as [[] ?]|done].
    injection Hrun as <-. apply Hk. by exists es. }
  destruct Hs as (es & [[roles Hi] Hm Hna Hb] & Hpe).
  assert (∃ e, es !! i = Some e ∧ en_peer e = p) as (e & He & <-).
  { rewrite <- Hpe, list_lookup_fmap in Hp. destruct (es !! i) as [e|]; [|done]. injection Hp as <-. by exists e. }
  destruct (inv_served _ _ _ _ Hi i e He) as (Hd & (idc & Fc & _ & Cc & Sh) & (idd & Fd & _ & Cd)).
  pose proof (Forall_lookup_1 _ _ _ _ Hna He) as Hname. cbn in Hname.
  destruct (Forall_lookup_1 _ _ _ _ Hb He) as (p' & h & rs & l & Hp' & Hg). rewrite Hname in Hg.
  exists (en_mgr e), (en_gut e), (u32_to_le_bytes (en_dev e)).
  split_and!; [by rewrite <- Hm, list_lookup_fmap, He|done|done|by eapply field_reads|by eapply field_reads| |].
  - intros fd Hfd. exists fd, idc. split_and!; [done|by apply Sh|done].
  - by exists p', h, rs, l.
Qed.
End serving.
