(* ===== verification/DaemonClock.v ===== *)
(** * When the daemon does what

    The turns of the loop are counted: the counters file is written every
    [stats_interval] seconds and the configuration records are rebuilt every
    minute.  The rebuild takes the configuration of the start. *)

From stdpp Require Import gmap.
From S2P Require Import Prelude Words Slices Text Obfs Results StrOps Net Config Netlink Links Tun Routes Loader.
From S2P Require Import TcLoad TcLaws Daemon DaemonLogic DaemonProofs.
Local Open Scope Z_scope.

Definition is_dump (e : event) : bool := match e with EvDump _ _ => true | _ => false end.
Definition dumps (l : list event) : Z := Z.of_nat (length (filter (λ e, is_dump e = true) l)).

Lemma dumps_snoc l e : dumps (l ++ [e]) = dumps l + (if is_dump e then 1 else 0).
Proof.
  unfold dumps. rewrite filter_app, length_app, Nat2Z.inj_add. destruct (is_dump e) eqn:He.
  - by rewrite filter_cons_True.
  - rewrite filter_cons_False by congruence. done.
Qed.

(** Counting to [n] and starting again. *)
Definition next_of (n a : Z) : Z := if n <=? a + 1 then 0 else a + 1.

Lemma next_of_mod n a : 0 < n → 0 ≤ a → next_of n (a mod n) = (a + 1) mod n.
Proof.
  intros Hn Ha. unfold next_of. pose proof (Z.mod_pos_bound a n Hn) as Hb.
  destruct (Z.leb_spec n (a mod n + 1)) as [Hl|Hl].
  - rewrite <- Zplus_mod_idemp_l. replace (a mod n + 1) with n by lia. symmetry. by apply Z_mod_same_full.
  - rewrite <- (Zplus_mod_idemp_l a 1 n). symmetry. apply Z.mod_small. lia.
Qed.

Lemma next_of_div n a : 0 < n → 0 ≤ a →
  (a + 1) / n = a / n + (if n <=? a mod n + 1 then 1 else 0).
Proof.
  intros Hn Ha. pose proof (Z.mod_pos_bound a n Hn) as Hb. pose proof (Z.div_mod a n ltac:(lia)) as Hd.
  destruct (Z.leb_spec n (a mod n + 1)) as [Hl|Hl]; symmetry.
  - apply (Z.div_unique_pos _ _ _ 0); lia.
  - apply (Z.div_unique_pos _ _ _ (a mod n + 1)); lia.
Qed.

Section clock.
  Context {K B : Type} `{NetKernel K} `{BpfKernel B}.
  Context (version : list Z) (show_err : lerr → list Z) (notify_socket : bool).
  Local Abbreviation daemon := (daemon K B).

Definition clock (s r k : Z) (d : daemon) : Prop :=
  d_stats_tick d = s ∧ d_net_refresh_tick d = r ∧ dumps (d_log d) = k.

Lemma clock_log s r k (d : daemon) e : is_dump e = false → clock s r k d → clock s r k (add_log d e).
Proof. intros He (Hs & Hr & Hk). split_and!; [done|done|]. cbn. rewrite dumps_snoc, He. lia. Qed.

Lemma clock_robust s r k : robust (clock s r k).
Proof.
  split.
  - unfold clock. by intros d d' _ _ _ -> -> ->.
  - intros d msg. by apply clock_log.
  - intros d text. by apply clock_log.
  - intros d sg Hd. unfold receive. by apply clock_log.
  - done.
  - intros sys cfg m d Hd _. unfold update_manager. destruct (find_peer cfg (m_interface m)) as [p|]; [|done].
    destruct (update_config _ _ _ _) as [x w].
    assert (Hi : clock s r k (add_log (set_world d w) (EvUpdate (m_interface m) (make_single cfg p) x)))
      by (by apply clock_log).
    by destruct x.
Qed.

(** Writing the counters counts as one dump. *)
Lemma dump_clock s r k t path :
  triple (clock s r k) (dump_counters_file version show_err t path) (λ _, clock s r (k + 1)) (λ _, True).
Proof.
  assert (Hd : ∀ text ok, triple (clock s r k) (emit (EvDump text ok)) (λ _, clock s r (k + 1)) (λ _, True)).
  { intros text ok. apply triple_modify. intros d (Hs & Hr & Hk). split_and!; [done|done|]. cbn.
    rewrite dumps_snoc. cbn. lia. }
  unfold dump_counters_file.
  eapply (triple_bind _ _ _ (λ _, clock s r k)); [eapply triple_conseq; [apply (keeps_collect (clock s r k))|done..]|].
  intros stats. destruct (t_write t); [|eapply (triple_bind _ _ _ (λ _, clock s r k)); [by apply triple_modify|intros ?]].
  - eapply (triple_bind _ _ _ (λ _, clock s r k)); [by apply triple_modify|intros ?]. destruct (t_rename t); [|done].
    eapply (triple_bind _ _ _ (λ _, clock s r k)); [by apply triple_modify|intros ?]. done.
  - done.
Qed.

Lemma periodic_dump_clock cfg t s r k : 0 < stats_ticks_target cfg < 2 ^ 32 → 0 ≤ s < stats_ticks_target cfg →
  triple (clock s r k) (periodic_dump version show_err cfg t)
    (λ _, clock (next_of (stats_ticks_target cfg) s) r
                (k + if stats_ticks_target cfg <=? s + 1 then 1 else 0)) (λ _, True).
Proof.
  intros Ht Hs. unfold periodic_dump. destruct (Z.ltb_spec 0 (stats_ticks_target cfg)); [|lia].
  eapply (triple_bind _ _ _ (λ _, clock (s + 1) r k)).
  { apply triple_modify. intros d (<- & Hr & Hk). split_and!; [|done|done]. cbn [set_ticks d_stats_tick].
    apply wrap_small. split; lia. }
  intros ?. eapply triple_bind; [apply triple_gets|]. intros n d [Hc ->]. destruct Hc as (Hs1 & Hr & Hk). rewrite Hs1.
  unfold next_of. destruct (Z.leb_spec (stats_ticks_target cfg) (s + 1)).
  - refine ((_ : triple (clock (s + 1) r k) _ (λ _, clock 0 r (k + 1)) (λ _, True)) d _); [|by split_and!].
    eapply (triple_bind _ _ _ (λ _, clock 0 r k)); [|intros ?; apply dump_clock].
    apply triple_modify. by intros d' (_ & ? & ?).
  - cbn. rewrite Z.add_0_r. by split_and!.
Qed.

Lemma periodic_refresh_clock cfg t s r k : 0 ≤ r < NET_REFRESH_TICKS →
  triple (clock s r k) (periodic_refresh cfg t) (λ _, clock s (next_of NET_REFRESH_TICKS r) k) (λ _, True).
Proof.
  intros Hr. unfold NET_REFRESH_TICKS in Hr. unfold periodic_refresh. eapply (triple_bind _ _ _ (λ _, clock s (r + 1) k)).
  { apply triple_modify. intros d (Hs & <- & Hk). split_and!; [done| |done]. cbn [set_ticks d_net_refresh_tick].
    apply wrap_small. split; [lia|]. change (2 ^ 32) with 4294967296. lia. }
  intros ?. eapply triple_bind; [apply triple_gets|]. intros n d [Hc ->]. destruct Hc as (Hs1 & Hr1 & Hk). rewrite Hr1.
  unfold next_of. destruct (Z.leb_spec NET_REFRESH_TICKS (r + 1)); [|by split_and!].
  refine ((_ : triple (clock s (r + 1) k) _ (λ _, clock s 0 k) (λ _, True)) d _); [|by split_and!].
  eapply (triple_bind _ _ _ (λ _, clock s 0 k)); [apply triple_modify; by intros d' (? & _ & ?)|intros ?].
  eapply triple_conseq; [apply (keeps_update_managers (clock s 0 k)), clock_robust|done..].
Qed.

(** ** The schedule *)

Lemma target_range cfg : 0 ≤ stats_ticks_target cfg < 2 ^ 32.
Proof. unfold stats_ticks_target. destruct (0 <? _); [apply wrap_range; lia|lia]. Qed.

(** The counters after [n] turns. *)
Definition at_turn (cfg : Config) (n : Z) : daemon → Prop :=
  let target := stats_ticks_target cfg in
  clock (if 0 <? target then n mod target else 0) (n mod NET_REFRESH_TICKS)
        (if 0 <? target then n / target else 0).

Lemma dump_at_turn cfg t n r : 0 ≤ n → let target := stats_ticks_target cfg in
  triple (clock (if 0 <? target then n mod target else 0) r (if 0 <? target then n / target else 0))
    (periodic_dump version show_err cfg t)
    (λ _, clock (if 0 <? target then (n + 1) mod target else 0) r (if 0 <? target then (n + 1) / target else 0))
    (λ _, True).
Proof.
  intros Hn target. pose proof (target_range cfg) as Ht. fold target in Ht.
  destruct (Z.ltb_spec 0 target) as [Hp|Hp].
  - pose proof (Z.mod_pos_bound n target Hp) as Hb.
    rewrite <- next_of_mod, next_of_div by done.
    eapply periodic_dump_clock; fold target; lia.
  - unfold periodic_dump. fold target. destruct (Z.ltb_spec 0 target); [lia|]. by apply triple_ret.
Qed.

Lemma tick_clock cfg src t n : 0 ≤ n →
  triple (at_turn cfg n) (tick version show_err notify_socket cfg src t) (λ _, at_turn cfg (n + 1)) (λ _, True).
Proof.
  intros Hn. unfold at_turn. set (target := stats_ticks_target cfg).
  assert (HT : ∀ A (m : KM daemon stop A) I, keeps I m → triple I m (λ _, I) (λ _, True)).
  { intros A m I Hm. by eapply triple_conseq. }
  unfold tick.
  eapply triple_bind; [apply HT, keeps_interrupts, clock_robust|intros ?].
  eapply triple_bind; [apply HT, keeps_notify, clock_robust|intros ?].
  eapply triple_bind; [apply HT, keeps_check_exit, clock_robust|intros ?].
  eapply triple_bind; [apply HT, keeps_interrupts, clock_robust|intros ?].
  eapply triple_bind; [apply HT, keeps_check_print, clock_robust|intros ?].
  eapply triple_bind; [apply HT, keeps_interrupts, clock_robust|intros ?].
  eapply triple_bind; [by apply dump_at_turn|intros ?]. fold target.
  eapply triple_bind; [apply periodic_refresh_clock, Z.mod_pos_bound; done|intros ?].
  rewrite next_of_mod by done.
  eapply triple_bind; [apply HT, keeps_interrupts, clock_robust|intros ?].
  apply HT, keeps_check_reload_any; [apply clock_robust|done|intros d r; by apply clock_log].
Qed.

Lemma run_ticks_clock cfg src ts n : 0 ≤ n →
  triple (at_turn cfg n) (run_ticks version show_err notify_socket cfg src ts)
    (λ _, at_turn cfg (n + Z.of_nat (length ts))) (λ _, True).
Proof.
  revert n. induction ts as [|t ts IH]; intros n Hn; cbn [run_ticks length].
  { apply triple_ret. intros d. by rewrite Z.add_0_r. }
  eapply triple_bind; [by apply tick_clock|intros ?].
  replace (n + Z.of_nat (S (length ts))) with (n + 1 + Z.of_nat (length ts)) by lia. apply IH. lia.
Qed.


(** ** The refresh *)

Definition extended (l0 : list event) (i : list Z) (c : Config) (d : daemon) : Prop :=
  ∃ l, d_log d = l0 ++ l ∧
    ((∃ e, EvUpdate i c (Err e) ∈ l) ∨ ∀ start, applied start i (d_log d) = c).

Definition grown (l0 : list event) (d : daemon) : Prop := ∃ l, d_log d = l0 ++ l.

(** One manager is given its peer's settings, or refuses them. *)
Lemma update_manager_applies sys cfg m p l0 : find_peer cfg (m_interface m) = Some p →
  triple (grown l0) (update_manager sys cfg m)
    (λ _, extended l0 (m_interface m) (make_single cfg p)) (λ _, True).
Proof.
  intros Hf d [l Hl]. unfold update_manager. rewrite Hf. destruct (update_config _ _ _ _) as [[[]|e|] w]; [| |done].
  - exists (l ++ [EvUpdate (m_interface m) (make_single cfg p) (Ok tt)]). cbn [add_log set_world d_log].
    split; [by rewrite Hl, app_assoc|].
    right. intros start. rewrite applied_snoc. cbn [applied_step]. by rewrite decide_True.
  - exists (l ++ [EvUpdate (m_interface m) (make_single cfg p) (Err e)]). cbn [add_log set_world d_log].
    split; [by rewrite Hl, app_assoc|].
    left. exists e. set_solver.
Qed.

Lemma update_manager_grown sys cfg m l0 : triple (grown l0) (update_manager sys cfg m) (λ _, grown l0) (λ _, True).
Proof.
  intros d [l Hl]. unfold update_manager. destruct (find_peer cfg (m_interface m)); [|by exists l].
  destruct (update_config _ _ _ _) as [[[]|e|] w]; [| |done]; eexists;
    cbn [add_log set_world d_log]; by rewrite Hl, <- app_assoc.
Qed.

Lemma update_manager_keeps sys cfg m i p l0 : find_peer cfg i = Some p →
  triple (extended l0 i (make_single cfg p)) (update_manager sys cfg m)
    (λ _, extended l0 i (make_single cfg p)) (λ _, True).
Proof.
  intros Hf d Hd. destruct (decide (m_interface m = i)) as [<-|Hne].
  { apply update_manager_applies; [done|]. by destruct Hd as (l & Hl & _); exists l. }
  destruct Hd as (l & Hl & Hor). unfold update_manager.
  destruct (find_peer cfg (m_interface m)) as [q|]; [|by exists l].
  assert (Hx : ∀ w r, extended l0 i (make_single cfg p)
    (add_log (set_world d w) (EvUpdate (m_interface m) (make_single cfg q) r))).
  { intros w r. eexists. cbn [add_log set_world d_log]. rewrite Hl, <- app_assoc. split; [done|]. destruct Hor as [[e He]|Ha].
    - left. exists e. set_solver.
    - right. intros start. rewrite app_assoc, <- Hl, applied_other; [done|]. by intros c r' [= ? _ _]. }
  destruct (update_config _ _ _ _) as [[[]|e|] w]; [apply Hx|apply Hx|done].
Qed.

Lemma update_managers_applies sys cfg ms m p l0 : find_peer cfg (m_interface m) = Some p → m ∈ ms →
  triple (grown l0) (update_managers sys cfg ms)
    (λ _, extended l0 (m_interface m) (make_single cfg p)) (λ _, True).
Proof.
  intros Hf. induction ms as [|m' ms IH]; [by intros ?%not_elem_of_nil|].
  cbn [update_managers]. intros [<-|Hin]%elem_of_cons.
  - eapply triple_bind; [by apply update_manager_applies|intros ?]. clear IH.
    induction ms as [|m' ms IH]; cbn [update_managers]; [by apply triple_ret|].
    eapply triple_bind; [by apply update_manager_keeps|intros ?; exact IH].
  - eapply triple_bind; [apply update_manager_grown|intros ?; by apply IH].
Qed.

(** The periodic refresh.  When its minute has passed, the refresh gives
    each manager the settings that its peer had in the configuration the daemon
    was started with, whatever was loaded since, or logs that building or
    writing the record failed. *)
Theorem refresh_applies_start cfg t (d d' : daemon) m p :
  d_net_refresh_tick d = NET_REFRESH_TICKS - 1 → m ∈ d_managers d →
  find_peer cfg (m_interface m) = Some p → periodic_refresh cfg t d = (Ok tt, d') →
  ∃ l, d_log d' = d_log d ++ l ∧
    ((∃ e, EvUpdate (m_interface m) (make_single cfg p) (Err e) ∈ l) ∨
     ∀ start, applied start (m_interface m) (d_log d') = make_single cfg p).
Proof.
  intros Hr Hm Hf Hp. unfold periodic_refresh, modify, gets, mbind, KM_bind in Hp.
  cbn [set_ticks d_net_refresh_tick d_managers] in Hp. rewrite Hr in Hp.
  change (NET_REFRESH_TICKS <=? wrapping_add 32 (NET_REFRESH_TICKS - 1) 1) with true in Hp.
  pose proof (update_managers_applies (t_refresh t) cfg (d_managers d) m p (d_log d) Hf Hm) as Hu.
  specialize (Hu (set_ticks (set_ticks d (d_stats_tick d) (wrapping_add 32 (NET_REFRESH_TICKS - 1) 1)) (d_stats_tick d) 0)).
  cbn [set_ticks d_stats_tick d_managers d_world d_flags d_files d_log d_net_refresh_tick] in Hu, Hp.
  rewrite Hp in Hu. apply Hu. exists []. by rewrite app_nil_r.
Qed.
End clock.
