(* ===== verification/SimBpf.v ===== *)
(** * A library that keeps the laws

    An executable store of maps with the operations of [TcLoad.BpfKernel]; it
    shows that the laws of TcLaws.v can hold. *)

From stdpp Require Import gmap.
From S2P Require Import Prelude Words Slices Text Results StrOps TcLoad TcLaws.
Local Open Scope Z_scope.

(** Open descriptors with their maps, the contents, and the maps that replace
    those of the opened object. *)
Record sim_bpf := mkSim {
  sb_fds : gmap Z Z;
  sb_cells : gmap (Z * list Z) (list Z);
  sb_shared : gmap (list Z) Z
}.

(** Every object has every map and program. *)
Definition sim_maps : list (list Z) :=
  bs <$> ["config_map"; "counters_map"; "client_map"; "session_map"; "scratch_map"; "stats_map"; "tc_progs";
          "xdp_progs"; "tx_devmap"; "port_map"; "xdp_peer_progs"]%string.

Definition sim_top (b : sim_bpf) : Z :=
  foldr (λ fi m, Z.max (Z.max fi.1 fi.2) m) 0 (map_to_list (sb_fds b)).

Fixpoint index_of (n : list Z) (l : list (list Z)) : option nat :=
  match l with
  | [] => None
  | x :: l => if decide (x = n) then Some 0%nat else S <$> index_of n l
  end.

(** The descriptors of a loaded object are the next ones. *)
Fixpoint sim_new (shared : gmap (list Z) Z) (next : Z) (ns : list (list Z)) : gmap Z Z :=
  match ns with
  | [] => ∅
  | n :: ns => <[next := default next (shared !! n)]> (sim_new shared (next + 1) ns)
  end.

Definition sim_load (b : sim_bpf) : sim_bpf :=
  mkSim (sim_new (sb_shared b) (sim_top b + 1) sim_maps ∪ sb_fds b) (sb_cells b) (sb_shared b).
Definition sim_skel (b : sim_bpf) : skel :=
  mkSkel (λ n, (λ k, sim_top b + 1 + Z.of_nat k) <$> index_of n sim_maps)
         (λ n, Some (sim_top b + 100 + Z.of_nat (length n))).

Definition sim_update (b : sim_bpf) (fd : Z) (key v : list Z) : bool * sim_bpf :=
  match sb_fds b !! fd with
  | Some id => (true, mkSim (sb_fds b) (<[(id, key) := v]> (sb_cells b)) (sb_shared b))
  | None => (false, b)
  end.

#[global] Instance sim_bpf_kernel : BpfKernel sim_bpf := {|
  bk_open b _ := (Some 0, mkSim (sb_fds b) (sb_cells b) ∅);
  bk_reuse_fd b _ n fd :=
    match sb_fds b !! fd with
    | Some id => (true, mkSim (sb_fds b) (sb_cells b) (<[n := id]> (sb_shared b)))
    | None => (false, b)
    end;
  bk_load b _ := (Some (sim_skel b), sim_load b);
  bk_update := sim_update;
  bk_attach_xdp b _ _ := (Some 1, b);
  bk_link_drop b _ := b;
  bk_xdp_attach b _ _ _ := (0, b);
  bk_xdp_detach b _ _ := b;
  bk_tc_create b _ := (true, b);
  bk_tc_attach b _ := (true, b)
|}.

(** ** The laws *)

Lemma sim_top_ge b fd id : sb_fds b !! fd = Some id → fd ≤ sim_top b ∧ id ≤ sim_top b.
Proof.
  intros Hm. apply elem_of_map_to_list in Hm. unfold sim_top. revert Hm.
  induction (map_to_list (sb_fds b)) as [|[f i] l IH]; [by intros ?%not_elem_of_nil|].
  intros [[= -> ->]|Hin]%elem_of_cons; cbn; [lia|]. specialize (IH Hin). lia.
Qed.

Lemma sim_new_below shared next ns fd : fd < next → sim_new shared next ns !! fd = None.
Proof.
  revert next. induction ns as [|n ns IH]; intros next Hlt; cbn [sim_new]; [done|].
  rewrite lookup_insert_ne by lia. apply IH. lia.
Qed.

Lemma sim_new_lookup shared next ns n k : index_of n ns = Some k →
  sim_new shared next ns !! (next + Z.of_nat k) = Some (default (next + Z.of_nat k) (shared !! n)).
Proof.
  revert next k. induction ns as [|x ns IH]; intros next k; cbn [index_of sim_new]; [done|].
  case_decide as Hx.
  - intros [= <-]. subst. rewrite Z.add_0_r. apply lookup_insert_eq.
  - destruct (index_of n ns) as [j|] eqn:Hj; [|done]. intros [= <-]. rewrite lookup_insert_ne by lia.
    replace (next + Z.of_nat (S j)) with (next + 1 + Z.of_nat j) by lia. by apply IH.
Qed.

Lemma index_of_inj n1 n2 ns k : index_of n1 ns = Some k → index_of n2 ns = Some k → n1 = n2.
Proof.
  revert k. induction ns as [|x ns IH]; intros k; cbn [index_of]; [done|].
  repeat case_decide; [congruence|..].
  - intros [= <-]. by destruct (index_of n2 ns).
  - destruct (index_of n1 ns); [|done]. by intros [= <-] [=].
  - destruct (index_of n1 ns) as [i|], (index_of n2 ns) as [j|]; [|done..]. intros [= <-] [= ->].
    by apply (IH i).
Qed.

Lemma sim_load_lookup b n fd : sk_maps (sim_skel b) n = Some fd →
  ∃ k, index_of n sim_maps = Some k ∧ fd = sim_top b + 1 + Z.of_nat k ∧
       sb_fds (sim_load b) !! fd = Some (default fd (sb_shared b !! n)).
Proof.
  cbn [sim_skel sk_maps]. destruct (index_of n sim_maps) as [k|] eqn:Hk; [|done]. intros [= <-].
  exists k. split; [done|]. split; [done|]. cbn [sim_load sb_fds]. apply lookup_union_Some_l.
  by apply sim_new_lookup.
Qed.

#[global] Instance sim_bpf_laws : BpfLaws sim_bpf.
Proof.
  refine {| bl_map b fd := sb_fds b !! fd; bl_cell b id key := sb_cells b !! (id, key);
            bl_shared b _ n := sb_shared b !! n |};
    cbn [bk_open bk_reuse_fd bk_load bk_update bk_attach_xdp bk_link_drop bk_xdp_attach bk_xdp_detach
         bk_tc_create bk_tc_attach sim_bpf_kernel].
  - intros b obj o b' [= <- <-]. split; [by split|done].
  - intros b o n fd r b'. destruct (sb_fds b !! fd) as [id|] eqn:Hfd; intros [= <- <-]; [|by split; [split|]].
    split; [by split|]. intros _ n'. cbn [sb_shared]. case_decide as Hn.
    + subst. apply lookup_insert_eq.
    + by rewrite lookup_insert_ne.
  - intros b o r b' [= _ <-]. split; [|done]. intros fd id Hm. cbn [sim_load sb_fds].
    apply lookup_union_Some_raw. right. split; [|done]. apply sim_new_below.
    apply sim_top_ge in Hm. lia.
  - intros b o s b' n fd id [= <- <-] Hfd Hs. apply sim_load_lookup in Hfd as (k & _ & _ & ->). by rewrite Hs.
  - intros b o s b' n fd [= <- <-] Hfd Hs. apply sim_load_lookup in Hfd as (k & _ & -> & ->). rewrite Hs.
    eexists. split; [done|]. intros fd' Hm%sim_top_ge. cbn in Hm. lia.
  - intros b o s b' n1 n2 fd1 fd2 id [= <- <-] H1 H2 S1 S2.
    apply sim_load_lookup in H1 as (k1 & I1 & -> & ->), H2 as (k2 & I2 & -> & ->). rewrite S1, S2.
    cbn [default]. intros [= <-] [= Heq]. apply (index_of_inj n1 n2 sim_maps k1); [done|].
    rewrite I2. f_equal. unfold id in Heq. lia.
  - intros b fd key v b'. unfold sim_update. destruct (sb_fds b !! fd) as [id|] eqn:Hfd; [|done].
    intros [= <-]. exists id. split; [done|]. split; [done|]. intros id' key'. cbn [sb_cells].
    case_decide as Hc; [destruct Hc as [-> ->]; apply lookup_insert_eq|].
    apply lookup_insert_ne. intros [= -> ->]. by apply Hc.
  - intros b fd key v b'. unfold sim_update. destruct (sb_fds b !! fd); [done|]. intros [= <-]. by split.
  - intros b fd i r b' [= _ <-]. by split.
  - intros b l. by split.
  - intros b i fd fl r b' [= _ <-]. by split.
  - intros b i fl. by split.
  - intros b h r b' [= _ <-]. by split.
  - intros b h r b' [= _ <-]. by split.
Defined.
