(* ===== verification/Build.v ===== *)
(** * build.rs: the version and the objects of the packet programs

    The build script chooses the version text and compiles the C sources once
    for every mode and outer address family.  Its effects are the lines it
    prints to cargo and the skeletons it generates, in order; running git and
    generating a skeleton are parameters.  [load_egress], [load_ingress_mode]
    and [dispatcher_new] find the objects by the names chosen here. *)

From stdpp Require Import sets.
From S2P Require Import Prelude Words Slices Text StrOps Obfs Results Net Config Links TcLoad LinksSpec SimKernel SimBpf.
Local Open Scope Z_scope.

(** ** Text *)

(** [l.replace(from, to)], the matches found from left to right. *)
Fixpoint replace_fuel (fuel : nat) (from to l : list Z) : list Z :=
  match fuel, find_sub from l with
  | S fuel, Some p => take p l ++ to ++ replace_fuel fuel from to (drop (p + length from) l)
  | _, _ => l
  end.
Definition str_replace (from to l : list Z) : list Z := replace_fuel (S (length l)) from to l.

(** [String::from_utf8]: well-formed UTF-8 as in the Unicode standard. *)
Definition in_range (lo hi b : Z) : bool := (lo <=? b) && (b <=? hi).
Definition is_cont : Z → bool := in_range 0x80 0xBF.

Fixpoint valid_utf8 (fuel : nat) (l : list Z) : bool :=
  match fuel, l with
  | _, [] => true
  | O, _ => false
  | S n, a :: l =>
      if in_range 0 0x7F a then valid_utf8 n l
      else match l with
      | b :: l =>
          if in_range 0xC2 0xDF a then is_cont b && valid_utf8 n l
          else match l with
          | c :: l =>
              if in_range 0xE0 0xEF a then
                in_range (if a =? 0xE0 then 0xA0 else 0x80) (if a =? 0xED then 0x9F else 0xBF) b
                && is_cont c && valid_utf8 n l
              else match l with
              | d :: l =>
                  in_range 0xF0 0xF4 a
                  && in_range (if a =? 0xF0 then 0x90 else 0x80) (if a =? 0xF4 then 0x8F else 0xBF) b
                  && is_cont c && is_cont d && valid_utf8 n l
              | [] => false
              end
          | [] => false
          end
      | [] => false
      end
  end.

Definition from_utf8 (l : list Z) : option (list Z) := if valid_utf8 (length l) l then Some l else None.

(** ** The version *)

(** [Command::output] of git with the given arguments: whether it succeeded
    and what it printed, or nothing when it could not be run. *)
Definition git_output := list (list Z) → option (bool * list Z).

Definition get_git_version (git : git_output) : option (list Z) :=
  '(ok, stdout) ← git [bs "describe"; bs "--tags"; bs "--exact-match"];
  if ok : bool then tag ← from_utf8 stdout; Some (trim tag) else
  '(ok, stdout) ← git [bs "describe"; bs "--tags"; bs "--always"; bs "--dirty"];
  if ok : bool then version ← from_utf8 stdout; Some (trim version) else
  '(ok, stdout) ← git [bs "rev-parse"; bs "--short"; bs "HEAD"];
  if ok : bool then commit ← from_utf8 stdout; Some (bs "git-" ++ trim commit) else None.

Definition nonempty (l : list Z) : option (list Z) := match l with [] => None | _ => Some l end.

Definition version (var : list Z → option (list Z)) (git : git_output) (pkg_version : list Z) : list Z :=
  match var (bs "GUT_VERSION") ≫= nonempty with
  | Some v => v
  | None => default pkg_version (get_git_version git)
  end.

(** ** The objects *)

(** One call of the skeleton builder. *)
Record skeleton := mkSkeleton { sk_out : list Z; sk_source : list Z; sk_args : list (list Z) }.

Inductive output := Line (l : list Z) | Generated (s : skeleton).

Section compile.
  Context (var : list Z → option (list Z)) (arch : list Z) (generate : skeleton → bool).

Definition chacha_rounds : list Z := default (bs "4") (var (bs "CHACHA_ROUNDS")).
Definition chacha_define : list Z := bs "-DCHACHA_ROUNDS=" ++ chacha_rounds.
Definition arch_include : list Z :=
  bs "-I/usr/include/" ++ str_replace (bs "x86_64") (bs "x86_64-linux-gnu") arch.

Definition egress (name : string) (defines : list (list Z)) : skeleton :=
  mkSkeleton (bs name ++ bs ".skel.rs") (bs "src/bpf/tc_gut_egress.bpf.c")
    ([bs "-I"; bs "src/bpf"; chacha_define] ++ defines ++ [arch_include]).

Definition ingress (name : string) (defines : list (list Z)) : skeleton :=
  mkSkeleton (bs name ++ bs ".skel.rs") (bs "src/bpf/xdp_gut_ingress.bpf.c")
    ([bs "-I"; bs "src/bpf"; chacha_define] ++ defines ++ [bs "-mcpu=v3"; arch_include]).

Definition V6 : list Z := bs "-DGUT_OUTER_IPV6".

(** The calls, in the order of the script. *)
Definition mode_skeletons : list skeleton :=
  [egress "tc_gut_egress" [bs "-DGUT_MODE_GUT"];
   egress "tc_gut_egress_v6" [bs "-DGUT_MODE_GUT"; V6];
   ingress "xdp_gut_ingress" [bs "-DGUT_MODE_GUT"];
   egress "tc_gut_egress_quic" [];
   egress "tc_gut_egress_quic_v6" [V6];
   ingress "xdp_gut_ingress_quic" [];
   egress "tc_gut_egress_syslog" [bs "-DGUT_MODE_SYSLOG"];
   egress "tc_gut_egress_syslog_v6" [bs "-DGUT_MODE_SYSLOG"; V6];
   ingress "xdp_gut_ingress_syslog" [bs "-DGUT_MODE_SYSLOG"];
   egress "tc_gut_egress_sip" [bs "-DGUT_MODE_SIP"];
   egress "tc_gut_egress_sip_v6" [bs "-DGUT_MODE_SIP"; V6];
   ingress "xdp_gut_ingress_sip" [bs "-DGUT_MODE_SIP"]].

Definition dispatcher_skeleton : skeleton :=
  mkSkeleton (bs "xdp_dispatcher.skel.rs") (bs "src/bpf/xdp_dispatcher.bpf.c")
    [bs "-I"; bs "src/bpf"; arch_include].

(** [build_and_generate(..).expect(..)] *)
Definition build_and_generate (s : skeleton) : outcome output :=
  if generate s then Done (Generated s) else Panic.

Fixpoint generate_all (l : list skeleton) : outcome (list output) :=
  match l with
  | [] => Done []
  | s :: l => e ← build_and_generate s; es ← generate_all l; Done (e :: es)
  end.

Definition compile_tc_ebpf : outcome (list output) :=
  _ ← unwrap (var (bs "OUT_DIR"));
  es ← generate_all mode_skeletons;
  d ← build_and_generate dispatcher_skeleton;
  Done ((Line <$> [bs "cargo:rerun-if-changed=src/bpf/";
                   bs "cargo:rerun-if-changed=src/bpf/tc_gut_egress.bpf.c";
                   bs "cargo:rerun-if-changed=src/bpf/xdp_gut_ingress.bpf.c";
                   bs "cargo:rerun-if-changed=src/bpf/xdp_dispatcher.bpf.c";
                   bs "cargo:rerun-if-changed=src/bpf/gut_common.h";
                   bs "cargo:warning=BPF CHACHA_ROUNDS=" ++ chacha_rounds])
        ++ es
        ++ [Line (bs "cargo:warning=TC eBPF skeletons generated successfully (GUT + QUIC + Syslog + SIP)");
            d]).

(** [main]; [tc_ebpf] is the condition of compilation. *)
Definition build_script (git : git_output) (pkg_version : list Z) (tc_ebpf : bool) : outcome (list output) :=
  let head := Line <$> [bs "cargo:rustc-env=GUT_VERSION=" ++ version var git pkg_version;
                        bs "cargo:rerun-if-changed=.git/HEAD";
                        bs "cargo:rerun-if-changed=.git/refs/tags"] in
  if tc_ebpf then es ← compile_tc_ebpf; Done (head ++ es) else Done head.
End compile.

(** The modes a translation unit is compiled for: those given with [-D], or
    QUIC when none is (gut_common.h). *)
Definition mode_define (m : ObfsMode) : list Z :=
  match m with
  | Gut => bs "-DGUT_MODE_GUT"
  | Quic => bs "-DGUT_MODE_QUIC"
  | Syslog => bs "-DGUT_MODE_SYSLOG"
  | Sip => bs "-DGUT_MODE_SIP"
  end.

Definition compiled_modes (args : list (list Z)) : list ObfsMode :=
  match filter (λ m, mode_define m ∈ args) [Quic; Gut; Syslog; Sip] with
  | [] => [Quic]
  | ms => ms
  end.

Definition generated (es : list output) : list skeleton :=
  omap (λ e, match e with Generated s => Some s | Line _ => None end) es.

(** The skeletons for an object. *)
Definition object_of (es : list output) (obj : list Z) : list skeleton :=
  filter (λ s, sk_out s = obj ++ bs ".skel.rs") (generated es).

(** ** The objects the loader asks for *)

Lemma generate_all_Done gen l es : generate_all gen l = Done es →
  es = Generated <$> l ∧ Forall (λ s, gen s = true) l.
Proof.
  revert es. induction l as [|s l IH]; intros es; [intros [= <-]; by repeat constructor|].
  cbn [generate_all]. unfold build_and_generate. destruct (gen s) eqn:Hs; [|done].
  rewrite bind_Done. intros (es' & [-> HF]%IH & H)%bind_Done_inv. injection H as <-.
  split; [done|]. by constructor.
Qed.

Definition egress_object (m : ObfsMode) (v6 : bool) : string :=
  match m, v6 with
  | Gut, false => "tc_gut_egress"
  | Gut, true => "tc_gut_egress_v6"
  | Quic, false => "tc_gut_egress_quic"
  | Quic, true => "tc_gut_egress_quic_v6"
  | Syslog, false => "tc_gut_egress_syslog"
  | Syslog, true => "tc_gut_egress_syslog_v6"
  | Sip, false => "tc_gut_egress_sip"
  | Sip, true => "tc_gut_egress_sip_v6"
  end.

Definition ingress_object (m : ObfsMode) : string :=
  match m with
  | Gut => "xdp_gut_ingress"
  | Quic => "xdp_gut_ingress_quic"
  | Syslog => "xdp_gut_ingress_syslog"
  | Sip => "xdp_gut_ingress_sip"
  end.

(** The defines of a mode; QUIC is what the sources take without one. *)
Definition mode_args (m : ObfsMode) : list (list Z) :=
  match m with Quic => [] | _ => [mode_define m] end.

Section objects.
  Context (var : list Z → option (list Z)) (arch : list Z) (gen : skeleton → bool).
  Context (git : git_output) (pkg : list Z).

Lemma generated_app es1 es2 : generated (es1 ++ es2) = generated es1 ++ generated es2.
Proof. apply omap_app. Qed.

Lemma generated_skeletons l : generated (Generated <$> l) = l.
Proof. induction l as [|s l IH]; [done|]. cbn. f_equal. apply IH. Qed.

(** What a build that succeeds has generated. *)
Lemma build_generated es : build_script var arch gen git pkg true = Done es →
  generated es = mode_skeletons var arch ++ [dispatcher_skeleton arch].
Proof.
  unfold build_script, compile_tc_ebpf. intros (es1 & (dir & _ & H1)%bind_Done_inv & H)%bind_Done_inv.
  apply (inj Done) in H as <-. apply bind_Done_inv in H1 as (es2 & [-> _]%generate_all_Done & H1).
  unfold build_and_generate in H1. destruct (gen _); [|done]. rewrite bind_Done in H1.
  apply (inj Done) in H1 as <-. by rewrite !generated_app, generated_skeletons.
Qed.

(** A build with all its tools succeeds. *)
Lemma build_succeeds dir : var (bs "OUT_DIR") = Some dir → (∀ s, gen s = true) →
  ∃ es, build_script var arch gen git pkg true = Done es.
Proof.
  intros Hd Hg. unfold build_script, compile_tc_ebpf. rewrite Hd. cbn [unwrap]. rewrite bind_Done.
  assert (Hall : ∀ l, ∃ es, generate_all gen l = Done es).
  { induction l as [|s l [es IH]]; [by eexists|]. cbn [generate_all]. unfold build_and_generate.
    rewrite Hg, bind_Done, IH, bind_Done. by eexists. }
  destruct (Hall (mode_skeletons var arch)) as [es ->]. rewrite bind_Done. unfold build_and_generate.
  rewrite Hg, !bind_Done. by eexists.
Qed.

Lemma object_of_build es obj : build_script var arch gen git pkg true = Done es →
  object_of es obj = filter (λ s, sk_out s = obj ++ bs ".skel.rs")
                       (mode_skeletons var arch ++ [dispatcher_skeleton arch]).
Proof. intros H. unfold object_of. by rewrite (build_generated es H). Qed.

Lemma egress_built es m v6 : build_script var arch gen git pkg true = Done es →
  object_of es (bs (egress_object m v6))
  = [egress var arch (egress_object m v6) (mode_args m ++ (if v6 then [V6] else []))].
Proof. intros H. rewrite (object_of_build es _ H). by destruct m, v6. Qed.

Lemma ingress_built es m : build_script var arch gen git pkg true = Done es →
  object_of es (bs (ingress_object m)) = [ingress var arch (ingress_object m) (mode_args m)].
Proof. intros H. rewrite (object_of_build es _ H). by destruct m. Qed.

End objects.

Section modes.
  Context (var : list Z → option (list Z)) (arch : list Z).

(** The sources see one mode: the defines of the others are not among the
    arguments. *)
Lemma compiled_mode m flags : Forall (λ a, ∀ m', mode_define m' ≠ a) flags →
  compiled_modes ([bs "-I"; bs "src/bpf"; chacha_define var] ++ (mode_args m ++ flags)) = [m].
Proof.
  intros HF.
  assert (Hin : ∀ m', mode_define m' ∈ [bs "-I"; bs "src/bpf"; chacha_define var] ++ (mode_args m ++ flags)
                      ↔ m' = m ∧ m ≠ Quic).
  { intros m'. rewrite !elem_of_app, !elem_of_cons, elem_of_nil. split.
    - intros [[H|[H|[H|H]]]|[H|H]]; [by destruct m'..| |].
      + destruct m, m'; cbn in H; rewrite ?elem_of_cons, ?elem_of_nil in H; naive_solver.
      + rewrite Forall_forall in HF. by destruct (HF _ H m').
    - intros [-> Hm]. right. left. destruct m; [done|..]; cbn; set_solver. }
  unfold compiled_modes. rewrite !filter_cons, filter_nil.
  destruct m; repeat case_decide; rewrite ?Hin in *; naive_solver.
Qed.

Lemma egress_modes m v6 :
  compiled_modes (sk_args (egress var arch (egress_object m v6) (mode_args m ++ (if v6 then [V6] else []))))
  = [m] ∧
  (V6 ∈ sk_args (egress var arch (egress_object m v6) (mode_args m ++ (if v6 then [V6] else []))) ↔ v6 = true).
Proof.
  cbn [sk_args egress]. split.
  - rewrite <- app_assoc. apply compiled_mode. apply Forall_app_2; [destruct v6|];
      repeat (apply Forall_cons; split; [intros m'; by destruct m'|]); constructor.
  - rewrite !elem_of_app, !elem_of_cons, elem_of_nil. split; [|intros ->; set_solver].
    intros [[H|[H|[H|H]]]|[[H|H]|[H|H]]]; try done; try (by apply elem_of_nil in H).
    + destruct m; cbn in H; rewrite ?elem_of_cons, ?elem_of_nil in H; by destruct H.
    + destruct v6; [done|]. by apply elem_of_nil in H.
Qed.

Lemma ingress_modes m :
  compiled_modes (sk_args (ingress var arch (ingress_object m) (mode_args m))) = [m].
Proof.
  cbn [sk_args ingress]. apply compiled_mode.
  repeat (apply Forall_cons; split; [intros m'; by destruct m'|]); constructor.
Qed.
End modes.

Lemma KM_right_id {K E A} (m : Links.KM K E A) w : (m ≫= mret) w = m w.
Proof. unfold mbind, Links.KM_bind. by destruct (m w) as [[| |] ?]. Qed.

(** C40: the objects the daemon loads are the ones the build makes. When the
    build succeeds, the name [load_egress] opens for a mode and an address
    family was generated exactly once, from the egress source, for this mode
    alone, with the family's define and the round count; the name
    [load_ingress_mode] opens for a mode exactly once from the ingress source
    for this mode alone; and the dispatcher's object exactly once. *)
Theorem objects_for_loader {K B} `{!Links.NetKernel K} `{!BpfKernel B} var arch gen git pkg es :
  build_script var arch gen git pkg true = Done es →
  (∀ m v6, ∃ c obj s,
     load_egress (B:=B) m v6 = load_as c obj ∧ (∀ sk, is_v6 (c sk) = v6) ∧ object_of es obj = [s] ∧
     sk_source s = bs "src/bpf/tc_gut_egress.bpf.c" ∧ compiled_modes (sk_args s) = [m] ∧
     (V6 ∈ sk_args s ↔ v6 = true) ∧ chacha_define var ∈ sk_args s) ∧
  (∀ m e vi ti nic ports, ∃ obj f s,
     (∀ w, load_ingress_mode (K:=K) (B:=B) m e vi ti nic ports w
           = (load_ingress obj e vi ti nic ports ≫= f) w) ∧
     object_of es (bs obj) = [s] ∧ sk_source s = bs "src/bpf/xdp_gut_ingress.bpf.c" ∧
     compiled_modes (sk_args s) = [m] ∧ chacha_define var ∈ sk_args s) ∧
  (∀ sys k i, ∃ obj f s,
     dispatcher_new (B:=B) sys (k : K) i = (load_skel obj ≫= f) ∧ object_of es obj = [s] ∧
     sk_source s = bs "src/bpf/xdp_dispatcher.bpf.c").
Proof.
  intros Hm. split_and!.
  - intros m v6. destruct (egress_modes var arch m v6) as [Hmode Hv].
    pose proof (egress_built _ _ _ _ _ es m v6 Hm) as Hb.
    assert (Hl : ∃ c, load_egress (B:=B) m v6 = load_as c (bs (egress_object m v6)) ∧
                      ∀ sk, is_v6 (c sk) = v6) by (destruct m, v6; by eexists).
    destruct Hl as (c & Hl & Hc). eexists c, _, _. split_and!; [exact Hl|exact Hc|exact Hb|done|done|done|].
    cbn [sk_args egress]. set_solver.
  - intros m e vi ti nic ports. pose proof (ingress_built _ _ _ _ _ es m Hm) as Hb.
    assert (Hl : ∃ f, ∀ w, load_ingress_mode (K:=K) (B:=B) m e vi ti nic ports w
              = (load_ingress (ingress_object m) e vi ti nic ports ≫= f) w).
    { destruct m; [by eexists|exists mret|exists mret|by eexists]; intros w; symmetry; apply KM_right_id. }
    destruct Hl as (f & Hl). eexists _, f, _. split_and!; [exact Hl|exact Hb|done|apply ingress_modes|].
    cbn [sk_args ingress]. set_solver.
  - intros sys k i. eexists (bs "xdp_dispatcher"), _, (dispatcher_skeleton arch). split_and!; [done| |done].
    by rewrite (object_of_build _ _ _ _ _ es _ Hm).
Qed.

Definition sample_var (n : list Z) : option (list Z) :=
  if str_eqb n (bs "OUT_DIR") then Some (bs "/out") else None.

Lemma objects_for_loader_witness :
  ∃ es, build_script sample_var (bs "x86_64") (λ _, true) (λ _, None) (bs "2.0.0") true = Done es ∧
    (∀ m v6, ∃ c obj s,
       load_egress (B:=sim_bpf) m v6 = load_as c obj ∧ (∀ sk, is_v6 (c sk) = v6) ∧
       object_of es obj = [s] ∧ sk_source s = bs "src/bpf/tc_gut_egress.bpf.c" ∧
       compiled_modes (sk_args s) = [m] ∧ (V6 ∈ sk_args s ↔ v6 = true) ∧
       chacha_define sample_var ∈ sk_args s) ∧
    sample_var (bs "CHACHA_ROUNDS") = None ∧ chacha_define sample_var = bs "-DCHACHA_ROUNDS=4".
Proof.
  destruct (build_succeeds sample_var (bs "x86_64") (λ _, true) (λ _, None) (bs "2.0.0") (bs "/out"))
    as [es Hes]; [reflexivity|reflexivity|].
  exists es. split; [exact Hes|]. split; [|split; reflexivity].
  exact (proj1 (objects_for_loader (K:=links) (B:=sim_bpf) sample_var (bs "x86_64") (λ _, true)
                  (λ _, None) (bs "2.0.0") es Hes)).
Defined.

(** ** The version on every branch *)

(** A git repository: the answers to the three questions. *)
Definition git_of (tag describe commit : option (list Z)) : git_output := λ args,
  let answer o := Some (match o with Some t => (true, t ++ [LF]) | None => (false, []) end) in
  if bool_decide (bs "--exact-match" ∈ args) then answer tag
  else if bool_decide (bs "--always" ∈ args) then answer describe
  else answer commit.

(** The variable wins unless it is empty, then a tag of the commit, then its
    description, then its hash, then the version of the package. *)
Example version_examples :
  let v env tag d c := version (λ _, env) (git_of tag d c) (bs "2.0.0") in
  let t := Some (bs "v2.1") in
  v (Some (bs "9.9")) t t t = bs "9.9" ∧
  v (Some []) t (Some (bs "x")) None = bs "v2.1" ∧
  v None None (Some (bs "v2.1-3-gabc-dirty")) None = bs "v2.1-3-gabc-dirty" ∧
  v None None None (Some (bs "abc1234")) = bs "git-abc1234" ∧
  v None None None None = bs "2.0.0" ∧
  version (λ _, None) (λ _, None) (bs "2.0.0") = bs "2.0.0".
Proof. vm_compute. repeat split. Qed.

Example arch_examples :
  arch_include (bs "x86_64") = bs "-I/usr/include/x86_64-linux-gnu" ∧
  arch_include (bs "aarch64") = bs "-I/usr/include/aarch64".
Proof. split; reflexivity. Qed.

Example utf8_examples :
  from_utf8 [0x76; 0xC3; 0xA9; 0xE2; 0x82; 0xAC; 0xF0; 0x9F; 0x98; 0x80]
    = Some [0x76; 0xC3; 0xA9; 0xE2; 0x82; 0xAC; 0xF0; 0x9F; 0x98; 0x80] ∧
  from_utf8 [0xC0; 0x80] = None ∧ from_utf8 [0xED; 0xA0; 0x80] = None ∧ from_utf8 [0x80] = None.
Proof. repeat split. Qed.
