(* ===== verification/DaemonExamples.v ===== *)
(** * The daemon on a sample system

    Two peers on one interface of a system with the links of [SimKernel] and
    the maps of [SimBpf], on which the theorems about the daemon are
    evaluated. *)

From stdpp Require Import gmap.
From S2P Require Import Prelude Words Slices Text Obfs Results StrOps Net Config ConfigProofs Netlink Links LinksSpec.
From S2P Require Import SimKernel Tun Routes Loader TcLoad TcLaws TcServe SimBpf.
From S2P Require Import Daemon DaemonLogic DaemonSignals DaemonProofs DaemonClock.
Local Open Scope Z_scope.

(** ** The system *)

(** The links, and files that say the same of each interface. *)
Record sim_host := mkSimHost { sh_links : links }.

Definition sim_file (path : list Z) : option (list Z) :=
  if str_eqb (drop (length path - 8) path) (bs "/address") then Some (bs "02:47:00:00:00:01")
  else if str_eqb (drop (length path - 4) path) (bs "/mtu") then Some (bs "1500") else None.

#[global] Instance sim_host_kernel : NetKernel sim_host := {|
  nk_index h n := nk_index (sh_links h) n;
  nk_sysfs _ path := sim_file path;
  nk_request h msg := let '(r, l) := nk_request (sh_links h) msg in (r, mkSimHost l);
  nk_socket _ := true;
  nk_ioctl h req ifr := let '(r, i, l) := nk_ioctl (sh_links h) req ifr in (r, i, mkSimHost l);
  nk_write h _ _ := (true, h)
|}.

Definition eth0 : link := mkLink 2 None [2; 0; 0; 0; 0; 9] 1500 true false [] [].
Definition start_net : sim_host := mkSimHost {[ bs "eth0" := eth0 ]}.
Definition start_bpf : sim_bpf := mkSim ∅ ∅ ∅.

Definition gateway_mac : list Z := [2; 1; 2; 3; 4; 5].
Definition sample_sys : sysinfo :=
  mkSys (Some (bs "6.1.0-18-amd64")) None (λ _, None) None None (λ _, None) (λ _, None) (λ _, None)
    (mkResolvers (λ _ _, Some gateway_mac) (λ _ _, None) (λ _ _, None) (λ _ _, None) (λ _ _, None))
    (mkLocal None None None).

Definition peer_lines (nm ports address key : string) : list (list Z) :=
  [bs "[peer]"; bs "name = " ++ bs nm; bs "nic = eth0"; bs "bind_ip = 192.0.2.1"; bs "peer_ip = 203.0.113.10";
   bs "address = " ++ bs address; bs "ports = " ++ bs ports; bs "key = " ++ bs key].

Definition key_a : string := "00112233445566778899aabbccddeeff00112233445566778899aabbccddeeff".
Definition start_file : list Z :=
  join [LF] (peer_lines "gut0" "41000, 41001" "10.47.0.1/30" key_a ++ peer_lines "gut1" "41002" "10.47.1.1/30" key_a).
Definition config_of (file : list Z) : Config :=
  match parse_config file with Ok c => c | _ => mkConfig (mkGlobal 0 false) (mkRuntime 0 []) [] end.
Definition start_config : Config := Eval vm_compute in config_of start_file.

(** A turn, with the signals at its start. *)
Definition sample_turn (sigs : list signal) : turn :=
  mkTurn (λ i, if (i =? 0)%nat then sigs else []) sample_sys sample_sys (Some start_file) (λ _, None)
    (λ _, Ok (mkTcStats stats_default stats_default)) (bs "0.5") 0 true None true.

Definition sample_run : daemon_end :=
  run_daemon (K:=sim_host) (B:=sim_bpf) (bs "1.0") (λ _, []) true (λ _, sample_sys) false true start_config
    (Some (bs "/etc/gutd.conf")) [sample_turn [SIGUSR1]; sample_turn []] (sample_turn []) ∅ start_net start_bpf.

Definition is_running {K B} (r : @daemon_end K B) : bool := match r with Running _ => true | _ => false end.

Lemma start_valid : valid_peers (peers start_config).
Proof.
  destruct (parse_config_peers start_file start_config) as (_ & Hp & Hn & Hd & _ & _).
  { vm_compute. reflexivity. }
  split; [|by split]. eapply Forall_impl; [exact Hp|]. intros p []. split; try done. lia.
Qed.

Lemma daemon_serves_witness : ∃ d : daemon sim_host sim_bpf, sample_run = Running d ∧
  ∀ i p, peers start_config !! i = Some p → ∃ m g x,
    d_managers d !! i = Some m ∧ m_interface m = name p ∧ dispatches (d_world d) p m ∧
    reads (w_bpf (d_world d)) (m_ingress_skel m) "tx_devmap" key0 x ∧
    reads (w_bpf (d_world d)) (inner (m_egress_skel m)) "config_map" key0 (gut_config_bytes g) ∧
    (∀ fd, sk_maps (m_ingress_skel m) (bs "config_map") = Some fd →
       reads (w_bpf (d_world d)) (m_ingress_skel m) "config_map" key0 (gut_config_bytes g)) ∧
    ∃ p' h rs l, peer (applied (make_single start_config p) (name p) (d_log d)) = Done p' ∧
      build_gut_config h rs l p' (name p) (m_ingress_interface m) = Ok g.
Proof.
  assert (Hr : is_running sample_run = true) by (vm_compute; reflexivity).
  destruct sample_run as [| | |d| |] eqn:E; try discriminate Hr. exists d. split; [reflexivity|].
  apply (daemon_serves (bs "1.0") (λ _, []) true (λ _, sample_sys) false true start_config
    (Some (bs "/etc/gutd.conf")) [sample_turn [SIGUSR1]; sample_turn []] (sample_turn []) ∅ start_net start_bpf).
  - exact start_valid.
  - vm_compute. reflexivity.
  - exact E.
Defined.

(** ** A daemon without peers *)

Definition idle : daemon sim_host sim_bpf :=
  mkDaemon (mkWorld start_net start_bpf ∅) [] (mkFlags false false false) 0 0 ∅ [].
Definition idle_after (ts : list turn) : daemon sim_host sim_bpf :=
  (run_ticks (bs "1.0") (λ _, []) true start_config (Some []) ts idle).2.

(** A request arrives while the configuration is being loaded. *)
Definition late_turn : turn :=
  mkTurn (λ i, if (i =? 5)%nat || (i =? 0)%nat then [SIGHUP] else []) sample_sys sample_sys None (λ _, None)
    (λ _, Err EStats) [] 0 true None true.

Lemma signals_answered_witness : let d := idle_after [late_turn] in
  RELOAD_FLAG (d_flags d) = true ∧
  (∀ pre post, d_log d = pre ++ EvSignal SIGHUP :: post →
     (∃ r, EvLoad r ∈ post) ∨ RELOAD_FLAG (d_flags d) = true).
Proof.
  cbv zeta. split; [reflexivity|].
  apply (signals_answered (bs "1.0") (λ _, []) true start_config (Some []) [late_turn] idle); reflexivity.
Defined.


(** ** A minute later *)

Definition sample_daemon : daemon sim_host sim_bpf := match sample_run with Running d => d | _ => idle end.
Definition before_refresh : daemon sim_host sim_bpf := set_ticks sample_daemon 0 119.
Definition refreshed : res stop unit * daemon sim_host sim_bpf :=
  periodic_refresh start_config (sample_turn []) before_refresh.

Lemma refresh_applies_start_witness :
  refreshed.1 = Ok tt ∧ length (d_managers before_refresh) = 2%nat ∧
  ∀ m p, m ∈ d_managers before_refresh → find_peer start_config (m_interface m) = Some p →
  ∃ l, d_log refreshed.2 = d_log before_refresh ++ l ∧
    ((∃ e, EvUpdate (m_interface m) (make_single start_config p) (Err e) ∈ l) ∨
     ∀ start, applied start (m_interface m) (d_log refreshed.2) = make_single start_config p).
Proof.
  assert (Hr : refreshed.1 = Ok tt) by (vm_compute; reflexivity).
  split; [exact Hr|]. split; [vm_compute; reflexivity|]. intros m p Hm Hp.
  apply (refresh_applies_start start_config (sample_turn []) before_refresh refreshed.2 m p);
    [reflexivity|exact Hm|exact Hp|].
  revert Hr. unfold refreshed. destruct (periodic_refresh _ _ _) as [r d']. cbn. by intros ->.
Defined.
