(* ===== verification/Cli.v ===== *)
(** * main.rs: the command line

    The arguments decide between a subcommand, a text to print and the daemon
    with its configuration.  Files, environment and random bytes are
    parameters.  The last part has what the program tells its user. *)

From stdpp Require Import gmap.
From S2P Require Import Prelude Words Slices Text Hkdf Obfs Results StrOps Net Config Routes Loader.
From S2P Require Import LoaderProofs.
Local Open Scope Z_scope.

Definition DEFAULT_CONFIG : list Z := bs "/etc/gutd.conf".
Definition DEFAULT_STAT_FILE : list Z := bs "/run/gutd.stat".

(** What the command line is run with. *)
Record cli_env := mkCli {
  c_exists : list Z → bool;
  c_file : list Z → option (list Z);
  c_var : list Z → option (list Z);
  c_random : option (list Z)
}.

Inductive cli_err :=
| EConfigArg | EPassphraseArg | ERandom | EEnvConfig (e : cerr).

(** How the process goes on or ends. *)
Inductive action :=
| RunInstall | RunUninstall
| PrintVersion | PrintUsage
| PrintKey (hex : list Z)
| PrintStatus (file content : list Z)
| RunDaemon (c : Config) (reload_source : option (list Z))
| Fails (e : cli_err)
| Exits (code : Z)
| Panics.

Definition starts_dash (a : list Z) : bool := match a with b :: _ => b =? 45 | [] => false end.
Definition is_arg (a : list Z) (short long : string) : bool := str_eqb a (bs short) || str_eqb a (bs long).

(** ** Subcommands *)

(** The last passphrase among the arguments from the third on. *)
Fixpoint genkey_args (passphrase : option (list Z)) (args : list (list Z)) : res cli_err (option (list Z)) :=
  match args with
  | [] => Ok passphrase
  | a :: args =>
      if is_arg a "--passphrase" "-p" then
        match args with
        | v :: args => genkey_args (Some v) args
        | [] => Err EPassphraseArg
        end
      else genkey_args passphrase args
  end.

Definition cmd_genkey (e : cli_env) (args : list (list Z)) : action :=
  match genkey_args None (drop 2 args) with
  | Ok (Some phrase) =>
      match derive_key phrase with
      | Done key => PrintKey (key_to_hex key)
      | Panic => Panics
      end
  | Ok None =>
      match c_random e with
      | Some key => PrintKey (key_to_hex key)
      | None => Fails ERandom
      end
  | Err err => Fails err
  | Abort => Panics
  end.

Definition cmd_status (e : cli_env) (args : list (list Z)) : action :=
  let stat_file := default DEFAULT_STAT_FILE (args !! 2%nat) in
  match c_file e stat_file with
  | Some content => PrintStatus stat_file content
  | None => Exits 1
  end.

(** ** Flags *)

(** The loop over the flags ends the process or gives the configuration
    path. *)
Fixpoint parse_flags (config_path : option (list Z)) (args : list (list Z)) : action + option (list Z) :=
  match args with
  | [] => inr config_path
  | a :: args =>
      if is_arg a "-v" "--version" then inl PrintVersion
      else if is_arg a "-h" "--help" then inl PrintUsage
      else if is_arg a "-c" "--config" then
        match args with
        | p :: args => parse_flags (Some p) args
        | [] => inl (Fails EConfigArg)
        end
      else if negb (starts_dash a) && match config_path with None => true | Some _ => false end
           then parse_flags (Some a) args
           else inl (Exits 1)
  end.

Definition start_from_file (e : cli_env) (path : list Z) : action :=
  match load_config (c_file e path) with
  | Ok c => RunDaemon c (Some path)
  | Err _ => Exits 1
  | Abort => Panics
  end.

Definition start_from_env (e : cli_env) : action :=
  match load_config_from_env (c_var e) with
  | Ok c => RunDaemon c None
  | Err err => Fails (EEnvConfig err)
  | Abort => Panics
  end.

Definition run_flags (e : cli_env) (args : list (list Z)) : action :=
  match parse_flags None (drop 1 args) with
  | inl a => a
  | inr (Some p) => start_from_file e p
  | inr None =>
      match c_var e (bs "GUTD_PEER_IP") with
      | Some _ => start_from_env e
      | None =>
          if c_exists e DEFAULT_CONFIG then start_from_file e DEFAULT_CONFIG
          else if c_exists e (bs "gutd.conf") then start_from_file e (bs "gutd.conf")
          else Exits 1
      end
  end.

Definition main (e : cli_env) (args : list (list Z)) : action :=
  match args !! 1%nat with
  | Some subcmd =>
      if negb (starts_dash subcmd) then
        if str_eqb subcmd (bs "install") then RunInstall
        else if str_eqb subcmd (bs "uninstall") then RunUninstall
        else if str_eqb subcmd (bs "genkey") then cmd_genkey e args
        else if str_eqb subcmd (bs "status") then cmd_status e args
        else if str_eqb subcmd (bs "version") then PrintVersion
        else if str_eqb subcmd (bs "help") then PrintUsage
        else run_flags e args
      else run_flags e args
  | None => run_flags e args
  end.

(** ** loader.rs and main.rs: what the program tells its user

    The counter of overridden drop policies, the mode an XDP program runs in,
    and the help text. *)

(** ** CounterU64 *)

(** [fetch_add] with 64-bit atomics and with a mutex: the old value and the
    new one. *)
Definition fetch_add_atomic (c value : Z) : Z * Z := (c, wrapping_add 64 c value).
Definition fetch_add_mutex (c value : Z) : Z * Z := (c, Z.min (c + value) (2 ^ 64 - 1)).

Definition counter_new (value : Z) : Z := value.
Definition counter_load (c : Z) : Z := c.

(** Whether [build_gut_config] overrides the policy of a peer. *)
Definition overridden (h : host) (p : PeerConfig) (ifname : list Z) : bool :=
  match default_policy p with
  | Allow => false
  | Drop => match default_route_ifname (h_proc_route h) with Some d => str_eqb d ifname | None => false end
  end.

(** The counter after one configuration was built. *)
Definition count_override (fetch_add : Z → Z → Z * Z) (c : Z) (b : host * PeerConfig * list Z) : Z :=
  let '(h, p, ifname) := b in if overridden h p ifname then (fetch_add c 1).2 else c.

(** [drop_policy_safety_overrides] after a sequence of builds. *)
Definition drop_policy_safety_overrides (fetch_add : Z → Z → Z * Z)
    (bs : list (host * PeerConfig * list Z)) : Z :=
  counter_load (foldl (count_override fetch_add) (counter_new 0) bs).

Lemma overridden_passes h p ifname :
  overridden h p ifname = true ↔ default_policy p = Drop ∧ xdp_action h p ifname = 0.
Proof.
  unfold overridden, xdp_action. destruct (default_policy p); [by split; [|intros [? _]]|].
  destruct (default_route_ifname _) as [d|]; [destruct (str_eqb d ifname)|]; by split; [|intros [_ ?]].
Qed.

Definition was_overridden (b : host * PeerConfig * list Z) : Prop :=
  let '(h, p, ifname) := b in default_policy p = Drop ∧ xdp_action h p ifname = 0.

#[global] Instance policy_eq_dec : EqDecision XdpDefaultPolicy.
Proof. solve_decision. Defined.

#[global] Instance was_overridden_dec b : Decision (was_overridden b).
Proof. destruct b as [[h p] ifname]. unfold was_overridden. apply _. Defined.

(** On every platform the counter is the number of configurations in which a
    drop policy was turned into pass, as long as there are fewer than 2^64. *)
Theorem overrides_counted bs f : f = fetch_add_atomic ∨ f = fetch_add_mutex →
  Z.of_nat (length bs) < 2 ^ 64 →
  drop_policy_safety_overrides f bs = Z.of_nat (length (filter was_overridden bs)).
Proof.
  intros Hf Hl. unfold drop_policy_safety_overrides, counter_load, counter_new.
  assert (H : ∀ c, 0 ≤ c → c + Z.of_nat (length bs) < 2 ^ 64 →
    foldl (count_override f) c bs = c + Z.of_nat (length (filter was_overridden bs))).
  { clear Hl. induction bs as [|[[h p] ifname] bs IH]; intros c Hc Hb; [cbn; lia|].
    cbn [foldl length] in *. rewrite filter_cons.
    assert (E : count_override f c (h, p, ifname) =
      if decide (was_overridden (h, p, ifname)) then c + 1 else c).
    { unfold count_override. pose proof (overridden_passes h p ifname) as Ho. case_decide as D.
      - unfold was_overridden in D. apply Ho in D as ->. destruct Hf as [-> | ->]; cbn [snd fetch_add_atomic fetch_add_mutex].
        + unfold wrapping_add. apply wrap_small. unfold in_width. lia.
        + lia.
      - unfold was_overridden in D. destruct (overridden h p ifname); [|done]. by destruct D; apply Ho. }
    rewrite E. case_decide; rewrite IH by lia; cbn [length]; lia. }
  rewrite H; lia.
Qed.

(** ** detect_xdp_mode *)

Inductive xdp_mode := NativeDrv | GenericSkb | UnknownMode.

(** [exists_ path] and [read path] are the sysfs. *)
Definition detect_xdp_mode (exists_ : list Z → bool) (read : list Z → option (list Z)) (ifname : list Z)
    : xdp_mode :=
  let path := bs "/sys/class/net/" ++ ifname ++ bs "/xdp" in
  let attached file := match read (path ++ bs file) with
                       | Some id => let id := trim id in
                                    negb (str_eqb id []) && negb (str_eqb id (bs "0"))
                       | None => false
                       end in
  if exists_ path then
    if attached "/drv_prog_id" then NativeDrv
    else if attached "/skb_prog_id" then GenericSkb
    else UnknownMode
  else UnknownMode.

(** ** Texts *)

(** An em dash. *)
Definition DASH : list Z := [0xE2; 0x80; 0x94].

Definition env_hint : list (list Z) :=
  bs <$> ["  export GUTD_PEER_IP=<remote-ip>";
          "  export GUTD_BIND_IP=0.0.0.0";
          "  export GUTD_ADDRESS=10.0.0.1/30";
          "  export GUTD_PORTS=41000,41001,41002,41003";
          "  export GUTD_KEY=<64-char-hex>   # or GUTD_PASSPHRASE=<phrase>";
          "  gutd"; ""].

Definition usage (windows : bool) (version : list Z) : list (list Z) :=
  [bs "gutd " ++ version ++ bs " " ++ DASH ++ bs " Low-overhead IP-over-UDP obfuscation tunnel"]
  ++ (bs <$> ["";
              "USAGE:";
              "    gutd [OPTIONS] [CONFIG_FILE]";
              "    gutd <SUBCOMMAND>";
              "";
              "OPTIONS:"])
  ++ [bs "    -c, --config <FILE>  Path to configuration file [default: " ++ DEFAULT_CONFIG ++ bs "]"]
  ++ (bs <$> ["    -v, --version        Print version information";
              "    -h, --help           Print this help message";
              "";
              "SUBCOMMANDS:"])
  ++ [if windows then bs "    install              Install binary, config, and Windows Service"
      else bs "    install              Install binary, config, and systemd/OpenRC service"]
  ++ (bs <$> ["    uninstall            Remove binary and service (config preserved)";
              "    genkey               Generate random 256-bit key";
              "    genkey -p <TEXT>     Derive key from passphrase (HKDF-SHA256)"])
  ++ [bs "    status [STAT_FILE]   Show counters from stat file [default: " ++ DEFAULT_STAT_FILE ++ bs "]"]
  ++ (bs <$> ["    version              Print version";
              "    help                 Print this help"])
  ++ (if windows then []
      else bs <$> ["";
                   "SIGNALS:";
                   "    SIGHUP               Reload configuration";
                   "    SIGUSR1              Print BPF statistics";
                   "    SIGINT/SIGTERM       Graceful shutdown"])
  ++ (bs <$> ["";
              "SYSTEMD:";
              "    Type=notify with WatchdogSec=30";
              "    gutd sends READY=1, WATCHDOG=1, RELOADING=1, STOPPING=1";
              "";
              "CONFIG:";
              "    Key can be specified as:";
              "      key = <64 hex chars>           Raw 32-byte key";
              "      passphrase = <text>            Derived via HKDF-SHA256";
              ""])
  ++ [bs "    gutd install creates " ++ DEFAULT_CONFIG ++ bs " with example config."].

(** The words of the help text at the start of its lines. *)
Definition first_words (ls : list (list Z)) : list (list Z) := omap (λ l, head (split_whitespace l)) ls.

(** Is a word one that [main] takes for a subcommand? It then does not depend
    on a configuration. *)
Definition is_subcommand (w : list Z) : bool :=
  bool_decide (w ∈ (bs <$> ["install"; "uninstall"; "genkey"; "status"; "version"; "help"])).

(** The help text names every subcommand: an argument that [main] does not
    hand to the flags starts a line of it. *)
Theorem usage_complete windows version e w rest :
  starts_dash w = false → main e (bs "gutd" :: w :: rest) ≠ run_flags e (bs "gutd" :: w :: rest) →
  w ∈ first_words (usage windows version).
Proof.
  intros Hd Hm.
  assert (Hs : is_subcommand w = true).
  { apply not_false_is_true. intros Hw. apply Hm. unfold main. cbn [lookup list_lookup].
    rewrite Hd. cbn [negb]. unfold is_subcommand in Hw. apply bool_decide_eq_false in Hw.
    assert (H : ∀ s, bs s ∈ (bs <$> ["install"; "uninstall"; "genkey"; "status"; "version"; "help"]) →
                str_eqb w (bs s) = false).
    { intros s Hin. apply bool_decide_eq_false. by intros ->. }
    rewrite !H; [done|..]; apply list_elem_of_fmap; eexists; (split; [reflexivity|]); set_solver. }
  unfold is_subcommand in Hs. apply bool_decide_eq_true in Hs.
  assert (Hall : ∀ s, s ∈ ["install"; "uninstall"; "genkey"; "status"; "version"; "help"] →
            bs s ∈ first_words (drop 1 (usage windows version))).
  { intros s Hin. apply (bool_decide_eq_true_1 _).
    repeat (apply elem_of_cons in Hin as [->|Hin]; [by destruct windows|]). by apply elem_of_nil in Hin. }
  apply list_elem_of_fmap in Hs as (s & -> & Hin). specialize (Hall s Hin).
  unfold first_words in *. apply list_elem_of_omap in Hall as (l & Hl & Hw). apply list_elem_of_omap.
  exists l. split; [|done]. rewrite <- (take_drop 1 (usage windows version)). apply elem_of_app. by right.
Qed.
