(* ===== verification/Installer.v ===== *)
(** * installer.rs: install and uninstall on Linux

    The files are a map from paths to contents and modes; commands are kept in
    a log.  What the system answers (the user, the init system, whether an
    operation succeeds) is a parameter.  [std::process::exit] is an error with
    its code; a failed [expect] is a panic.  The printed summary is left
    out. *)

From stdpp Require Import gmap.
From S2P Require Import Prelude Words Slices Text Obfs Results StrOps Net Config Netlink Links.
Local Open Scope Z_scope.

Definition BIN_PATH : list Z := bs "/usr/local/bin/gutd".
Definition CONFIG_PATH : list Z := bs "/etc/gutd.conf".
Definition SYSTEMD_UNIT : list Z := bs "/etc/systemd/system/gutd.service".
Definition OPENRC_INIT : list Z := bs "/etc/init.d/gutd".

Inductive InitSystem := Systemd | OpenRC | Unknown.

Record file := mkFile { f_content : list Z; f_mode : Z }.

Record istate := mkIstate {
  i_files : gmap (list Z) file;
  i_dirs : gset (list Z);
  i_commands : list (list Z * list (list Z))
}.

(** What the system answers. *)
Record isys := mkIsys {
  is_root : bool;
  rc_service : bool;
  comm : option (list Z);
  current_exe : option (list Z);
  may_write : list Z → bool;
  may_remove : list Z → bool;
  create_mode : Z;
  cmd_ok : list Z → list (list Z) → bool
}.

Inductive iexit := IExit (code : Z).

(** ** Templates *)

Definition QUOTED (s : list Z) : list Z := [34] ++ s ++ [34].

Definition text_of (ls : list (list Z)) : list Z := ls ≫= λ l, l ++ [LF].

Definition exec_start : list Z := bs "ExecStart=" ++ BIN_PATH ++ bs " -c " ++ CONFIG_PATH.

Definition systemd_unit : list Z := text_of [
  bs "[Unit]";
  bs "Description=GUT IP-over-UDP Obfuscation Tunnel";
  bs "Documentation=https://github.com/sh0rch/gutd";
  bs "After=network-online.target";
  bs "Wants=network-online.target";
  [];
  bs "[Service]";
  bs "Type=notify";
  exec_start;
  bs "ExecReload=/bin/kill -HUP $MAINPID";
  bs "Restart=on-failure";
  bs "RestartSec=5";
  bs "RestartPreventExitStatus=78";
  bs "WatchdogSec=30";
  [];
  bs "# Hardening";
  bs "ProtectSystem=strict";
  bs "ReadWritePaths=/run /sys/fs/bpf /sys/kernel/debug /sys/class/net";
  bs "ProtectHome=true";
  bs "NoNewPrivileges=true";
  bs "CapabilityBoundingSet=CAP_SYS_ADMIN CAP_NET_ADMIN CAP_NET_RAW CAP_BPF CAP_PERFMON";
  bs "AmbientCapabilities=CAP_SYS_ADMIN CAP_NET_ADMIN CAP_NET_RAW CAP_BPF CAP_PERFMON";
  [];
  bs "StandardOutput=journal";
  bs "StandardError=journal";
  bs "SyslogIdentifier=gutd";
  [];
  bs "[Install]";
  bs "WantedBy=multi-user.target"].

Definition openrc_init_script : list Z := text_of [
  bs "#!/sbin/openrc-run";
  [];
  bs "description=" ++ QUOTED (bs "GUT IP-over-UDP Obfuscation Tunnel");
  bs "command=" ++ QUOTED BIN_PATH;
  bs "command_args=" ++ QUOTED (bs "-c " ++ CONFIG_PATH);
  bs "command_background=true";
  bs "pidfile=" ++ QUOTED (bs "/run/${RC_SVCNAME}.pid");
  bs "output_log=" ++ QUOTED (bs "/var/log/${RC_SVCNAME}.log");
  bs "error_log=" ++ QUOTED (bs "/var/log/${RC_SVCNAME}.log");
  [];
  bs "depend() {";
  bs "    need net";
  bs "    after firewall";
  bs "}";
  [];
  bs "reload() {";
  bs "    ebegin " ++ QUOTED (bs "Reloading ${RC_SVCNAME}");
  bs "    start-stop-daemon --signal HUP --pidfile " ++ QUOTED (bs "$pidfile");
  bs "    eend $?";
  bs "}"].

(** The example for the three values that depend on the platform. *)
Definition example_config_for (path stat_file userspace : list Z) : list Z := text_of [
  bs "# " ++ path ++ bs " — gutd tunnel configuration";
  bs "#";
  bs "# Generate key:    gutd genkey";
  bs "# From passphrase: gutd genkey --passphrase " ++ QUOTED (bs "my secret");
  [];
  bs "[global]";
  bs "# outer_mtu = 1500          # Managed automatically";
  bs "# stats_interval = 5        # stats dump interval, seconds (0 = off)";
  bs "# stat_file = " ++ stat_file;
  bs "userspace_only = " ++ userspace;
  [];
  bs "[peer]";
  bs "name = gut0";
  bs "# mtu = 1492                # Managed automatically";
  bs "# nic = eth0                # physical NIC for XDP (auto-detected if omitted)";
  bs "# responder = true           # QUIC server role; auto from dynamic_peer if not set";
  bs "# bind_ip = 0.0.0.0         # default: 0.0.0.0 (auto)";
  bs "peer_ip = 203.0.113.10";
  bs "ports = 41000";
  bs "keepalive_drop_percent = 30";
  [];
  bs "# own_http3 = true";
  [];
  bs "# Key — choose ONE:";
  bs "# passphrase = change-me-to-a-strong-passphrase";
  bs "key = 00112233445566778899aabbccddeeff00112233445566778899aabbccddeeff"].

Definition example_config : list Z := example_config_for CONFIG_PATH (bs "/run/gutd.stat") (bs "false").

(** ** Operations *)

(** [0o755], [0o644] and [0o600] *)
Definition MODE_755 : Z := 7 * 64 + 5 * 8 + 5.
Definition MODE_644 : Z := 6 * 64 + 4 * 8 + 4.
Definition MODE_600 : Z := 6 * 64.

Section operations.
  Context (y : isys).
  Local Abbreviation M := (KM istate iexit).

(** [Path::new(path).exists()] *)
Definition exists_path (path : list Z) (s : istate) : bool :=
  bool_decide (path ∈ i_dirs s) || bool_decide (is_Some (i_files s !! path)).

Definition detect_init (s : istate) : InitSystem :=
  if exists_path (bs "/run/systemd/system") s then Systemd
  else if rc_service y then OpenRC
  else match comm y with
       | Some c =>
           let c := trim c in
           if str_eqb c (bs "systemd") then Systemd
           else if str_eqb c (bs "init") && exists_path (bs "/sbin/openrc") s then OpenRC
           else Unknown
       | None => Unknown
       end.

(** [fs::write]: an existing file keeps its mode. *)
Definition write_file (path content : list Z) : M unit := λ s,
  if may_write y path then
    let mode := match i_files s !! path with Some f => f_mode f | None => create_mode y end in
    (Ok tt, mkIstate (<[path := mkFile content mode]> (i_files s)) (i_dirs s) (i_commands s))
  else (Abort, s).

(** [fs::copy]: contents and mode. *)
Definition copy_file (src dst : list Z) : M unit := λ s,
  match i_files s !! src with
  | Some f => if may_write y dst
              then (Ok tt, mkIstate (<[dst := f]> (i_files s)) (i_dirs s) (i_commands s))
              else (Abort, s)
  | None => (Abort, s)
  end.

Definition set_mode (path : list Z) (mode : Z) : M unit := λ s,
  (Ok tt, mkIstate (alter (λ f, mkFile (f_content f) mode) path (i_files s)) (i_dirs s) (i_commands s)).

Definition exit_with {A} (code : Z) : M A := λ s, (Err (IExit code), s).

Definition remove_file (path : list Z) : M bool := λ s,
  if negb (exists_path path s) then (Ok false, s)
  else if may_remove y path
       then (Ok true, mkIstate (delete path (i_files s)) (i_dirs s) (i_commands s))
       else exit_with 1 s.

Definition run_cmd_ignore (prog : string) (args : list string) : M unit := λ s,
  (Ok tt, mkIstate (i_files s) (i_dirs s) (i_commands s ++ [(bs prog, bs <$> args)])).

Definition run_cmd (prog : string) (args : list string) : M unit :=
  _ ← run_cmd_ignore prog args;
  if cmd_ok y (bs prog) (bs <$> args) then mret tt else exit_with 1.

(** ** Install and uninstall *)

Definition install_binary : M unit :=
  self_exe ← of_res (match current_exe y with Some p => Ok p | None => Abort end);
  if str_eqb self_exe BIN_PATH then mret tt
  else _ ← copy_file self_exe BIN_PATH; set_mode BIN_PATH MODE_755.

Definition install_config : M unit := λ s,
  if exists_path CONFIG_PATH s then (Ok tt, s)
  else (_ ← write_file CONFIG_PATH example_config; set_mode CONFIG_PATH MODE_600) s.

Definition install_service (init : InitSystem) : M unit :=
  match init with
  | Systemd =>
      _ ← write_file SYSTEMD_UNIT systemd_unit;
      _ ← set_mode SYSTEMD_UNIT MODE_644;
      run_cmd "systemctl" ["daemon-reload"%string]
  | OpenRC =>
      _ ← write_file OPENRC_INIT openrc_init_script;
      set_mode OPENRC_INIT MODE_755
  | Unknown => mret tt
  end.

Definition run_install : M unit := λ s,
  if negb (is_root y) then exit_with 1 s
  else
    let init := detect_init s in
    (_ ← install_binary;
     _ ← install_config;
     _ ← install_service init;
     exit_with 0) s.

Definition uninstall_service (init : InitSystem) : M unit :=
  match init with
  | Systemd =>
      _ ← run_cmd_ignore "systemctl" ["stop"; "gutd"]%string;
      _ ← run_cmd_ignore "systemctl" ["disable"; "gutd"]%string;
      removed ← remove_file SYSTEMD_UNIT;
      if removed : bool then run_cmd "systemctl" ["daemon-reload"%string] else mret tt
  | OpenRC =>
      _ ← run_cmd_ignore "rc-service" ["gutd"; "stop"]%string;
      _ ← run_cmd_ignore "rc-update" ["del"; "gutd"]%string;
      _ ← remove_file OPENRC_INIT;
      mret tt
  | Unknown => mret tt
  end.

Definition run_uninstall : M unit := λ s,
  if negb (is_root y) then exit_with 1 s
  else
    let init := detect_init s in
    (_ ← uninstall_service init;
     _ ← remove_file BIN_PATH;
     exit_with 0) s.
End operations.
