(* ===== verification/InstallerProofs.v ===== *)
(** * What the command line and the installer leave behind

    A generated key is the key a configuration reads; the installed service
    starts the daemon with the installed configuration; uninstalling removes
    what installing added, except for the configuration. *)

From stdpp Require Import gmap.
From S2P Require Import Prelude Words Slices Text Hkdf Obfs Results StrOps Net Config ConfigProofs ConfigPrint Netlink.
From S2P Require Import Links TcLaws Installer Cli.
Local Open Scope Z_scope.

(** ** Keys *)

Lemma printed_key k : key_ok k → parse_hex_key (trim (key_to_hex k)) = Ok k.
Proof. intros Hk. rewrite trim_tight by apply (text_ok_key k Hk). by apply parse_hex_key_show. Qed.

(** An environment with one key variable. *)
Definition with_var (n : string) (v : list Z) (n' : list Z) : option (list Z) :=
  if decide (n' = bs n) then Some v else None.

(** C34: generated keys.  [genkey] prints the 64 digits of the random key it
    drew, and with a passphrase those of the key that is derived from it; a
    configuration that is given the digits has the same key as one that is
    given the passphrase.  It always prints a key when there are random bytes. *)
Theorem genkey_usable prog phrase e r : c_random e = Some r → key_ok r →
  (∃ hex, main e [prog; bs "genkey"] = PrintKey hex ∧ parse_hex_key (trim hex) = Ok r) ∧
  (∃ hex key, main e [prog; bs "genkey"; bs "-p"; phrase] = PrintKey hex ∧ length hex = 64%nat ∧
     env_key (with_var "GUTD_PASSPHRASE" phrase) = Ok key ∧ env_key (with_var "GUTD_KEY" hex) = Ok key).
Proof.
  intros Hr Hk. split.
  - exists (key_to_hex r). split; [|by apply printed_key]. cbn. by rewrite Hr.
  - destruct (derive_key_wf phrase) as (key & Hd & Hb & Hl). exists (key_to_hex key), key.
    assert (Hko : key_ok key) by (by split).
    split; [|split; [|split]].
    + change (main e _) with (cmd_genkey e [prog; bs "genkey"; bs "-p"; phrase]).
      unfold cmd_genkey. cbn [drop]. change (genkey_args None _) with (Ok (E:=cli_err) (Some phrase)).
      cbv iota beta. by rewrite Hd.
    + unfold key_to_hex. clear Hd Hko Hb. assert (Hg : ∀ l : list Z, length (l ≫= λ b, [hex_digit (shr b 4); hex_digit (Z.land b 0xF)]) = (2 * length l)%nat).
      { induction l as [|b l IH]; [done|]. rewrite bind_cons, length_app, IH. cbn. lia. }
      rewrite Hg, Hl. done.
    + unfold env_key. change (first_of (with_var "GUTD_PASSPHRASE" phrase (bs "GUTD_KEY")) _) with (@None (list Z)).
      change (first_of (with_var "GUTD_PASSPHRASE" phrase (bs "GUTD_PASSPHRASE")) _) with (Some phrase).
      cbv iota beta. by rewrite Hd.
    + unfold env_key. change (first_of (with_var "GUTD_KEY" (key_to_hex key) (bs "GUTD_KEY")) _) with (Some (key_to_hex key)).
      by apply printed_key.
Qed.

Lemma genkey_usable_witness : let e := mkCli (λ _, false) (λ _, None) (λ _, None) (Some (replicate 32 171)) in
  (∃ hex, main e [bs "gutd"; bs "genkey"] = PrintKey hex ∧ parse_hex_key (trim hex) = Ok (replicate 32 171)) ∧
  (∃ hex key, main e [bs "gutd"; bs "genkey"; bs "-p"; bs "secret"] = PrintKey hex ∧ length hex = 64%nat ∧
     env_key (with_var "GUTD_PASSPHRASE" (bs "secret")) = Ok key ∧ env_key (with_var "GUTD_KEY" hex) = Ok key).
Proof.
  cbv zeta. apply genkey_usable; [reflexivity|]. split; [reflexivity|].
  apply (bool_decide_unpack _). vm_compute. exact I.
Defined.

(** ** The installed files *)

Definition service_path (init : InitSystem) : option (list Z * (list Z * Z)) :=
  match init with
  | Systemd => Some (SYSTEMD_UNIT, (systemd_unit, MODE_644))
  | OpenRC => Some (OPENRC_INIT, (openrc_init_script, MODE_755))
  | Unknown => None
  end.

(** The command lines the two service managers run. *)
Definition after_prefix (n : string) (text : list Z) : option (list Z) :=
  (λ il, drop (length (bs n)) il.2) <$> list_find (λ l, starts_with l (bs n) = true) (lines text).
Definition unquote (l : list Z) : list Z := trim_matches 34 l.
Definition systemd_command (unit : list Z) : list (list Z) :=
  from_option split_whitespace [] (after_prefix "ExecStart=" unit).
Definition openrc_command (script : list Z) : list (list Z) :=
  from_option split_whitespace [] (unquote <$> after_prefix "command=" script) ++
  from_option split_whitespace [] (unquote <$> after_prefix "command_args=" script).

Example commands_agree :
  systemd_command systemd_unit = [BIN_PATH; bs "-c"; CONFIG_PATH] ∧
  openrc_command openrc_init_script = [BIN_PATH; bs "-c"; CONFIG_PATH].
Proof. vm_compute. by split. Qed.

Definition example : Config := Eval vm_compute in
  match parse_config example_config with Ok c => c | _ => mkConfig (mkGlobal 0 false) (mkRuntime 0 []) [] end.
Lemma example_parses : parse_config example_config = Ok example.
Proof. vm_compute. reflexivity. Qed.

(** Only the files in [X] may differ. *)
Record same_but (X : list (list Z)) (s s' : istate) : Prop := {
  sb_dirs : i_dirs s' = i_dirs s;
  sb_files : ∀ p, p ∉ X → i_files s' !! p = i_files s !! p
}.

Lemma same_but_refl X s : same_but X s s.
Proof. done. Qed.

Lemma same_but_trans X s1 s2 s3 : same_but X s1 s2 → same_but X s2 s3 → same_but X s1 s3.
Proof.
  intros [D1 F1] [D2 F2]. split; [congruence|]. intros p Hp. by rewrite F2, F1.
Qed.

Lemma same_but_mono X Y s s' : X ⊆ Y → same_but X s s' → same_but Y s s'.
Proof. intros HX [D F]. split; [done|]. intros p Hp. apply F. set_solver. Qed.

Section installing.
  Context (y : isys).

(** A file that is written and given its mode. *)
Lemma write_set_spec path c m s r s' :
  (_ ← write_file y path c; set_mode path m) s = (r, s') →
  same_but [path] s s' ∧ (r = Ok tt → i_files s' !! path = Some (mkFile c m)) ∧ (r = Ok tt ∨ r = Abort).
Proof.
  unfold write_file, set_mode, mbind, KM_bind. destruct (may_write y path); intros [= <- <-].
  - split; [split; [done|]|split; [|by left]].
    + intros p Hp. cbn [i_files]. rewrite lookup_alter_ne, lookup_insert_ne by set_solver. done.
    + intros _. cbn [i_files]. by rewrite lookup_alter_eq, lookup_insert_eq.
  - split; [apply same_but_refl|]. split; [done|by right].
Qed.

Lemma install_binary_spec s r s' : install_binary y s = (r, s') →
  same_but [BIN_PATH] s s' ∧ (r = Ok tt ∨ r = Abort) ∧
  (r = Ok tt → (current_exe y = Some BIN_PATH ∧ s' = s) ∨
     ∃ exe f, current_exe y = Some exe ∧ i_files s !! exe = Some f ∧
              i_files s' !! BIN_PATH = Some (mkFile (f_content f) MODE_755)).
Proof.
  unfold install_binary, of_res, mbind, KM_bind. destruct (current_exe y) as [exe|]; [|intros [= <- <-]].
  2:{ split; [apply same_but_refl|]. split; [by right|done]. }
  unfold str_eqb. case_bool_decide as He.
  { intros [= <- <-]. split; [apply same_but_refl|]. split; [by left|]. intros _. left. by subst. }
  unfold copy_file, set_mode. destruct (i_files s !! exe) as [f|] eqn:Hf;
    [destruct (may_write y BIN_PATH)|]; intros [= <- <-].
  - split; [|split; [by left|]].
    + split; [done|]. intros p Hp. cbn [i_files]. rewrite lookup_alter_ne, lookup_insert_ne by set_solver. done.
    + intros _. right. exists exe, f. cbn [i_files]. by rewrite lookup_alter_eq, lookup_insert_eq.
  - split; [apply same_but_refl|]. split; [by right|done].
  - split; [apply same_but_refl|]. split; [by right|done].
Qed.

Lemma install_config_spec s r s' : install_config y s = (r, s') →
  same_but [CONFIG_PATH] s s' ∧ (r = Ok tt ∨ r = Abort) ∧
  (exists_path CONFIG_PATH s = true → s' = s) ∧
  (r = Ok tt → exists_path CONFIG_PATH s = false →
     i_files s' !! CONFIG_PATH = Some (mkFile example_config MODE_600)).
Proof.
  unfold install_config. destruct (exists_path CONFIG_PATH s).
  { intros [= <- <-]. split; [apply same_but_refl|]. split; [by left|]. by split. }
  intros Hw. apply write_set_spec in Hw as (? & Hc & ?). split; [done|]. split; [done|].
  split; [done|]. intros ? _. by apply Hc.
Qed.

Lemma install_service_spec init s r s' : install_service y init s = (r, s') →
  same_but (from_option (λ x, [x.1]) [] (service_path init)) s s' ∧ r ≠ Err (IExit 0) ∧
  (r = Ok tt → ∀ p c m, service_path init = Some (p, (c, m)) → i_files s' !! p = Some (mkFile c m)).
Proof.
  destruct init; cbn [install_service service_path from_option].
  - unfold run_cmd, run_cmd_ignore. intros Hr.
    assert (Hs : ∃ r1 s1, (_ ← write_file y SYSTEMD_UNIT systemd_unit; set_mode SYSTEMD_UNIT MODE_644) s = (r1, s1) ∧
      i_files s' = i_files s1 ∧ i_dirs s' = i_dirs s1 ∧ r ≠ Err (IExit 0) ∧ (r = Ok tt → r1 = Ok tt)).
    { unfold write_file, set_mode, exit_with, mbind, KM_bind, mret, KM_ret in *.
      destruct (may_write y SYSTEMD_UNIT); [destruct (cmd_ok y _ _)|]; injection Hr as <- <-; eexists _, _; by split_and!. }
    destruct Hs as (r1 & s1 & Hw & Hf & Hd & He & Hok). apply write_set_spec in Hw as ([D F] & Hc & _).
    split; [split; [congruence|]|split; [done|]].
    + intros p Hp. rewrite Hf. by apply F.
    + intros ->%Hok p c m [= <- <- <-]. rewrite Hf. by apply Hc.
  - intros Hw. apply write_set_spec in Hw as (? & Hc & Hr). split; [done|]. split; [by destruct Hr as [->| ->]|].
    intros -> p c m [= <- <- <-]. by apply Hc.
  - intros [= <- <-]. split; [apply same_but_refl|]. by split.
Qed.

(** *** Installing *)

Definition installed_paths : list (list Z) := [BIN_PATH; CONFIG_PATH; SYSTEMD_UNIT; OPENRC_INIT].

(** What a run of the installer leaves. *)
Record install_spec (s : istate) (r : res iexit unit) (s' : istate) : Prop := {
  ins_others : same_but installed_paths s s';
  ins_config_kept : exists_path CONFIG_PATH s = true → i_files s' !! CONFIG_PATH = i_files s !! CONFIG_PATH;
  ins_config_new : r = Err (IExit 0) → exists_path CONFIG_PATH s = false →
    i_files s' !! CONFIG_PATH = Some (mkFile example_config MODE_600);
  ins_service : r = Err (IExit 0) → ∀ p c m, service_path (detect_init y s) = Some (p, (c, m)) →
    i_files s' !! p = Some (mkFile c m);
  ins_binary : r = Err (IExit 0) → current_exe y ≠ Some BIN_PATH → ∃ exe f,
    current_exe y = Some exe ∧ i_files s !! exe = Some f ∧
    i_files s' !! BIN_PATH = Some (mkFile (f_content f) MODE_755)
}.

Lemma service_path_installed init :
  from_option (λ x, [x.1]) [] (service_path init) ⊆ installed_paths ∧
  BIN_PATH ∉ from_option (λ x, [x.1]) [] (service_path init) ∧
  CONFIG_PATH ∉ from_option (λ x, [x.1]) [] (service_path init).
Proof.
  destruct init; cbn [service_path from_option fst]; split_and!;
    try (apply not_elem_of_cons; split; [done|apply not_elem_of_nil]); unfold installed_paths; set_solver.
Qed.

Lemma run_install_spec s r s' : is_root y = true → run_install y s = (r, s') → install_spec s r s'.
Proof.
  intros Hroot. unfold run_install. rewrite Hroot. cbn [negb]. unfold exit_with.
  destruct (install_binary y s) as [r1 s1] eqn:E1. unfold mbind at 1, KM_bind at 1. rewrite E1.
  apply install_binary_spec in E1 as (F1 & Hr1 & B1).
  assert (BC : BIN_PATH ∉ [CONFIG_PATH]) by (apply not_elem_of_cons; split; [done|apply not_elem_of_nil]).
  assert (CB : CONFIG_PATH ∉ [BIN_PATH]) by (apply not_elem_of_cons; split; [done|apply not_elem_of_nil]).
  assert (I1 : same_but installed_paths s s1) by (eapply same_but_mono; [|done]; unfold installed_paths; set_solver).
  destruct Hr1 as [->| ->].
  2:{ intros [= <- <-]. split; [done|intros _; by apply F1|done..]. }
  destruct (install_config y s1) as [r2 s2] eqn:E2. unfold mbind at 1, KM_bind at 1. rewrite E2.
  apply install_config_spec in E2 as (F2 & Hr2 & K2 & C2).
  assert (Hex : exists_path CONFIG_PATH s1 = exists_path CONFIG_PATH s).
  { unfold exists_path. by rewrite (sb_dirs _ _ _ F1), (sb_files _ _ _ F1). }
  rewrite Hex in *.
  assert (I2 : same_but installed_paths s s2).
  { eapply same_but_trans; [done|]. eapply same_but_mono; [|done]. unfold installed_paths. set_solver. }
  assert (KC : exists_path CONFIG_PATH s = true → i_files s2 !! CONFIG_PATH = i_files s !! CONFIG_PATH).
  { intros Hc. rewrite (K2 Hc). by apply F1. }
  destruct Hr2 as [->| ->].
  2:{ intros [= <- <-]. by split. }
  destruct (install_service y (detect_init y s) s2) as [r3 s3] eqn:E3. unfold mbind at 1, KM_bind at 1. rewrite E3.
  apply install_service_spec in E3 as (F3 & N3 & C3).
  destruct (service_path_installed (detect_init y s)) as (P1 & P2 & P3).
  assert (I3 : same_but installed_paths s s3) by (eapply same_but_trans; [done|]; by eapply same_but_mono).
  assert (KC3 : exists_path CONFIG_PATH s = true → i_files s3 !! CONFIG_PATH = i_files s !! CONFIG_PATH).
  { intros Hc. rewrite <- (KC Hc). by apply F3. }
  destruct r3 as [[]|e|]; intros [= <- <-]; [|by split|by split].
  split; [done|done| | |].
  - intros _ Hc. rewrite (sb_files _ _ _ F3) by done. by apply C2.
  - intros _. by apply C3.
  - intros _ Hne. destruct (B1 eq_refl) as [[? _]|(exe & f & ? & ? & Hb)]; [done|]. exists exe, f. split_and!; [done|done|].
    by rewrite (sb_files _ _ _ F3), (sb_files _ _ _ F2).
Qed.
End installing.

(** The command line in the file of a service. *)
Definition service_command (init : InitSystem) (content : list Z) : list (list Z) :=
  match init with
  | Systemd => systemd_command content
  | OpenRC => openrc_command content
  | Unknown => []
  end.

Lemma service_command_starts e init p c m : service_path init = Some (p, (c, m)) →
  main e (service_command init c) = start_from_file e CONFIG_PATH.
Proof.
  destruct commands_agree as [Hs Ho].
  destruct init; intros [= <- <- <-]; cbn [service_command]; rewrite ?Hs, ?Ho; reflexivity.
Qed.


(** *** Uninstalling *)

Lemma remove_file_spec y path s r s' : remove_file y path s = (r, s') →
  same_but [path] s s' ∧ (∀ b, r = Ok b → path ∉ i_dirs s → i_files s' !! path = None) ∧
  (∀ e, r = Err e → e = IExit 1) ∧ r ≠ Abort.
Proof.
  unfold remove_file. destruct (exists_path path s) eqn:He; cbn [negb].
  - destruct (may_remove y path); intros [= <- <-].
    + split; [split; [done|]|].
      * intros p Hp. cbn [i_files]. by rewrite lookup_delete_ne by set_solver.
      * split; [|done]. intros b _ _. apply lookup_delete_eq.
    + split; [apply same_but_refl|]. split; [done|]. split; [by intros e [= <-]|done].
  - intros [= <- <-]. split; [apply same_but_refl|]. split; [|done]. intros b _ Hd.
    unfold exists_path in He. apply orb_false_iff in He as [_ He]. apply bool_decide_eq_false in He.
    by apply eq_None_not_Some.
Qed.

Lemma uninstall_service_spec y init s r s' : uninstall_service y init s = (r, s') →
  (∀ e, r = Err e → e = IExit 1) ∧ r ≠ Abort ∧
  (r = Ok tt → same_but (from_option (λ x, [x.1]) [] (service_path init)) s s' ∧
     ∀ p x, service_path init = Some (p, x) → p ∉ i_dirs s → i_files s' !! p = None).
Proof.
  destruct init; cbn [uninstall_service service_path from_option].
  - unfold run_cmd, run_cmd_ignore. unfold mbind, KM_bind. cbn [i_files i_dirs i_commands].
    set (s0 := mkIstate _ _ _). destruct (remove_file y SYSTEMD_UNIT s0) as [r1 s1] eqn:E.
    apply remove_file_spec in E as (F & N & X & A).
    destruct r1 as [b|e|]; [|intros [= <- <-]; split; [by intros ? [= <-]; apply X|by split]|done].
    assert (Hg : ∀ s2, i_files s2 = i_files s1 → i_dirs s2 = i_dirs s1 → same_but [SYSTEMD_UNIT] s s2 ∧
      ∀ p x, Some (SYSTEMD_UNIT, (systemd_unit, MODE_644)) = Some (p, x) → p ∉ i_dirs s → i_files s2 !! p = None).
    { intros s2 Hf Hd. destruct F as [D F]. split; [split; [by rewrite Hd, D|]|].
      - intros p Hp. rewrite Hf. by apply F.
      - intros p x [= <- _] Hp. rewrite Hf. by eapply N. }
    destruct b; [unfold mret, KM_ret, exit_with; destruct (cmd_ok y _ _)|]; intros [= <- <-];
      (split; [by intros ? [= <-]|split; [done|intros ?; by try apply Hg]]).
  - unfold run_cmd_ignore. unfold mbind, KM_bind. cbn [i_files i_dirs i_commands].
    set (s0 := mkIstate _ _ _). destruct (remove_file y OPENRC_INIT s0) as [r1 s1] eqn:E.
    apply remove_file_spec in E as ([D F] & N & X & A).
    destruct r1 as [b|e|]; [|intros [= <- <-]; split; [by intros ? [= <-]; apply X|by split]|done].
    intros [= <- <-]. split; [done|]. split; [done|]. intros _. split; [done|].
    intros p x [= <- _] Hp. by eapply N.
  - intros [= <- <-]. split; [done|]. split; [done|]. intros _. split; [apply same_but_refl|done].
Qed.

(** Uninstalling.  What a successful installation and then a successful
    removal by root leave: the binary and the service file are gone, the
    configuration is as the installation left it, and every other file is as it
    was before. *)
Theorem install_uninstall y s s1 s2 : is_root y = true →
  run_install y s = (Err (IExit 0), s1) → run_uninstall y s1 = (Err (IExit 0), s2) →
  BIN_PATH ∉ i_dirs s → SYSTEMD_UNIT ∉ i_dirs s → OPENRC_INIT ∉ i_dirs s →
  i_files s2 !! BIN_PATH = None ∧
  (∀ p c m, service_path (detect_init y s) = Some (p, (c, m)) → i_files s2 !! p = None) ∧
  i_files s2 !! CONFIG_PATH = i_files s1 !! CONFIG_PATH ∧
  (∀ path, path ∉ installed_paths → i_files s2 !! path = i_files s !! path).
Proof.
  intros Hroot Hi Hun HB HS HO. apply run_install_spec in Hi as [[D O] _ _ _ _]; [|done].
  assert (Hinit : detect_init y s1 = detect_init y s).
  { unfold detect_init, exists_path. rewrite D.
    rewrite !O; [done|..]; (apply (bool_decide_unpack _); vm_compute; exact I). }
  unfold run_uninstall in Hun. rewrite Hroot in Hun. cbn [negb] in Hun. rewrite Hinit in Hun.
  unfold mbind, KM_bind, exit_with in Hun.
  destruct (uninstall_service y (detect_init y s) s1) as [r2 s3] eqn:E2.
  apply uninstall_service_spec in E2 as (X2 & A2 & G2).
  destruct r2 as [[]|e|]; [|injection Hun as -> _; by specialize (X2 _ eq_refl)|done].
  destruct (G2 eq_refl) as [F2 N2].
  destruct (remove_file y BIN_PATH s3) as [r4 s4] eqn:E4. apply remove_file_spec in E4 as (F4 & N4 & X4 & A4).
  destruct r4 as [b|e|]; [|injection Hun as -> _; by specialize (X4 _ eq_refl)|done]. injection Hun as <-.
  destruct (service_path_installed (detect_init y s)) as (P1 & P2 & P3).
  split_and!.
  - eapply N4; [done|]. by rewrite (sb_dirs _ _ _ F2), D.
  - intros p c m Hp. rewrite (sb_files _ _ _ F4).
    + eapply N2; [done|]. rewrite D. destruct (detect_init y s); [by injection Hp as <- <- <-..|done].
    + apply not_elem_of_cons. split; [|apply not_elem_of_nil]. rewrite Hp in P2. set_solver.
  - rewrite (sb_files _ _ _ F4), (sb_files _ _ _ F2); [done..|].
    apply not_elem_of_cons. split; [done|apply not_elem_of_nil].
  - intros path Hp. rewrite (sb_files _ _ _ F4), (sb_files _ _ _ F2); [by apply O|set_solver|].
    unfold installed_paths in Hp. set_solver.
Qed.

(** A machine with systemd and the program in a download directory. *)
Definition fresh_machine : istate :=
  mkIstate {[ bs "/tmp/gutd" := mkFile (bs "ELF") MODE_644; bs "/etc/hosts" := mkFile (bs "localhost") MODE_644 ]}
    {[ bs "/run/systemd/system" ]} [].
Definition root_user : isys :=
  mkIsys true false None (Some (bs "/tmp/gutd")) (λ _, true) (λ _, true) MODE_644 (λ _ _, true).


Lemma install_uninstall_witness :
  let s1 := (run_install root_user fresh_machine).2 in
  let s2 := (run_uninstall root_user s1).2 in
  i_files s2 !! BIN_PATH = None ∧ i_files s2 !! CONFIG_PATH = Some (mkFile example_config MODE_600) ∧
  (∀ path, path ∉ installed_paths → i_files s2 !! path = i_files fresh_machine !! path).
Proof.
  cbv zeta. destruct (install_uninstall root_user fresh_machine (run_install root_user fresh_machine).2
    (run_uninstall root_user (run_install root_user fresh_machine).2).2) as (H1 & _ & H2 & H3);
    [reflexivity|vm_compute; reflexivity|vm_compute; reflexivity
    |apply (bool_decide_unpack _); vm_compute; exact I..|].
  split; [exact H1|]. split; [|exact H3]. rewrite H2. vm_compute. reflexivity.
Defined.
