(* ===== verification/WinRoute.v ===== *)
(** * The pinned route on Windows: [src/src/windows_route.rs]

    The calls of the IP Helper library are the methods of [WinNet]; their
    answers and the routing table are its state.  Structures are records of
    the fields the source uses, with [f_rest] for the others. *)

From S2P Require Import Prelude Words Slices Text Results StrOps Net.
Local Open Scope Z_scope.

(** ** Structures of the library *)

(** [MIB_IF_ROW2] *)
Record if_row := mkIf {
  r_luid : Z;
  r_index : Z;
  r_type : Z;
  r_oper_status : Z;
  r_flags : Z;
  r_connection : Z;
  r_description : list Z;
  r_alias : list Z
}.

(** [MIB_IPFORWARD_ROW2] *)
Record fwd_row := mkFwd {
  f_luid : Z;
  f_prefix : list Z;
  f_prefix_len : Z;
  f_next_hop : list Z;
  f_metric : Z;
  f_valid_lifetime : Z;
  f_preferred_lifetime : Z;
  f_immortal : Z;
  f_publish : Z;
  f_rest : list Z
}.

(** Return codes come first; a null table is [None]. *)
Class WinNet (N : Type) := {
  wn_if_table : N → Z * option (list if_row);
  wn_best_route : N → Z → list Z → Z * fwd_row * list Z;
  wn_create : N → fwd_row → Z * N;
  wn_delete : N → fwd_row → Z * N;
  wn_best_interface : N → list Z → Z * Z;
  wn_if_entry : N → Z → Z * if_row
}.

Definition NO_ERROR : Z := 0.
Definition AF_INET : Z := 2.
Definition AF_INET6 : Z := 23.
Definition IfOperStatusUp : Z := 1.
Definition IF_TYPE_ETHERNET_CSMACD : Z := 6.
Definition IF_TYPE_PPP : Z := 23.
Definition IF_TYPE_SOFTWARE_LOOPBACK : Z := 24.
Definition IF_TYPE_PROP_VIRTUAL : Z := 53.
Definition IF_TYPE_IEEE80211 : Z := 71.
Definition IF_TYPE_TUNNEL : Z := 131.
Definition IF_CONNECTION_DEDICATED : Z := 1.
Definition ERROR_OBJECT_ALREADY_EXISTS : Z := 5010.

Definition VPN_BLACKLIST : list (list Z) := bs <$>
  ["wintun"; "tap-windows"; "tap0901"; "openvpn"; "wireguard"; "tailscale"; "zerotier"; "anyconnect";
   "cisco secure"; "globalprotect"; "palo alto"; "fortinet"; "forticlient"; "pulse secure"; "sonicwall";
   "hamachi"; "nordlynx"; "expressvpn"; "protonvpn"; "mullvad"; "wsl"; "hyper-v virtual"; "vmware"; "vbox";
   "virtualbox"; "teredo"; "isatap"; "6to4"]%string.

Inductive rerr :=
| EIfTable (rc : Z)
| ENoUplink
| ENoRoute
| ECreate (rc : Z)
| ECreateStale (rc : Z)
| EOverridden
| EBestInterface (rc : Z)
| EIfEntry (rc : Z)
| EBestRoute (rc : Z)
| ESourceFamily.

(** ** Helpers *)

(** The characters of UTF-16 units; a surrogate without its pair is U+FFFD. *)
Fixpoint decode_utf16 (l : list Z) : list Z :=
  match l with
  | [] => []
  | u :: l =>
      if negb ((0xD800 <=? u) && (u <=? 0xDFFF)) then u :: decode_utf16 l
      else if 0xDC00 <=? u then 0xFFFD :: decode_utf16 l
      else match l with
           | v :: l' =>
               if (0xDC00 <=? v) && (v <=? 0xDFFF)
               then 0x10000 + (u - 0xD800) * 1024 + (v - 0xDC00) :: decode_utf16 l'
               else 0xFFFD :: decode_utf16 l
           | [] => [0xFFFD]
           end
  end.

(** The UTF-8 bytes of a character. *)
Definition encode_utf8 (c : Z) : list Z :=
  if c <? 0x80 then [c]
  else if c <? 0x800 then [0xC0 + c / 64; 0x80 + c mod 64]
  else if c <? 0x10000 then [0xE0 + c / 4096; 0x80 + c / 64 mod 64; 0x80 + c mod 64]
  else [0xF0 + c / 262144; 0x80 + c / 4096 mod 64; 0x80 + c / 64 mod 64; 0x80 + c mod 64].

Definition utf16_to_string (buf : list Z) : list Z :=
  let end_ := default (length buf) (find_byte 0 buf) in
  decode_utf16 (take end_ buf) ≫= encode_utf8.

(** The bytes of a [SOCKADDR_INET]: the family, then the address at offset 4
    or 8. *)
Definition ip_to_sockaddr_inet (ip : IpAddr) : list Z :=
  let sa := replicate 28 0 in
  match ip with
  | V4 o => list_inserts 4 (u32_to_le_bytes (from_le o)) (list_inserts 0 (u16_to_le_bytes AF_INET) sa)
  | V6 s => list_inserts 8 (v6_octets s) (list_inserts 0 (u16_to_le_bytes AF_INET6) sa)
  end.

Definition sockaddr_inet_to_ip (sa : list Z) : option IpAddr :=
  let family := from_le (window 0 2 sa) in
  if family =? AF_INET then Some (V4 (u32_to_le_bytes (from_le (window 4 4 sa))))
  else if family =? AF_INET6 then Some (V6 (v6_segments (window 8 16 sa)))
  else None.

Definition set_host_prefix (row : fwd_row) (peer_ip : IpAddr) : fwd_row :=
  mkFwd (f_luid row) (ip_to_sockaddr_inet peer_ip) (if is_v4 peer_ip then 32 else 128) (f_next_hop row)
    (f_metric row) (f_valid_lifetime row) (f_preferred_lifetime row) (f_immortal row) (f_publish row)
    (f_rest row).

(** The metric, the host prefix and the lifetimes of the row that is pinned. *)
Definition pinned_row (row : fwd_row) (peer_ip : IpAddr) : fwd_row :=
  let row := mkFwd (f_luid row) (f_prefix row) (f_prefix_len row) (f_next_hop row) 1 (f_valid_lifetime row)
               (f_preferred_lifetime row) (f_immortal row) (f_publish row) (f_rest row) in
  let row := set_host_prefix row peer_ip in
  mkFwd (f_luid row) (f_prefix row) (f_prefix_len row) (f_next_hop row) (f_metric row) u32_max u32_max 1 0
    (f_rest row).

Definition contains (l m : list Z) : bool := match find_sub m l with Some _ => true | None => false end.

Definition is_viable_uplink (row : if_row) : bool :=
  if negb (r_oper_status row =? IfOperStatusUp) then false
  else if existsb (Z.eqb (r_type row)) [IF_TYPE_SOFTWARE_LOOPBACK; IF_TYPE_TUNNEL; IF_TYPE_PROP_VIRTUAL]
  then false
  else if negb (existsb (Z.eqb (r_type row)) [IF_TYPE_ETHERNET_CSMACD; IF_TYPE_IEEE80211; IF_TYPE_PPP])
  then false
  else if Z.land (r_flags row) 1 =? 0 then false
  else if negb (r_connection row =? IF_CONNECTION_DEDICATED) then false
  else
    let desc_l := to_ascii_lowercase <$> utf16_to_string (r_description row) in
    negb (existsb (contains desc_l) VPN_BLACKLIST).

Section calls.
  Context {N : Type} `{WinNet N}.

Definition enumerate_viable_uplinks (n : N) : res rerr (list (Z * list Z)) :=
  match wn_if_table n with
  | (rc, Some rows) =>
      if negb (rc =? NO_ERROR) then Err (EIfTable rc)
      else Ok ((λ row, (r_luid row, utf16_to_string (r_alias row))) <$> filter is_viable_uplink rows)
  | (rc, None) => Err (EIfTable rc)
  end.

Definition best_route_via (n : N) (luid : Z) (peer_ip : IpAddr) : res rerr (fwd_row * IpAddr) :=
  let '(rc, row, src) := wn_best_route n luid (ip_to_sockaddr_inet peer_ip) in
  _ ← ensure (rc =? NO_ERROR) (EBestRoute rc);
  src_ip ← ok_or (sockaddr_inet_to_ip src) ESourceFamily;
  Ok (row, src_ip).

Definition verify_best_interface_luid (n : N) (peer_ip : IpAddr) : res rerr Z :=
  let '(rc, idx) := wn_best_interface n (ip_to_sockaddr_inet peer_ip) in
  _ ← ensure (rc =? NO_ERROR) (EBestInterface rc);
  let '(rc2, row) := wn_if_entry n idx in
  _ ← ensure (rc2 =? NO_ERROR) (EIfEntry rc2);
  Ok (r_luid row).

(** ** Pinning *)

Record PinnedRoute := mkPinned { pr_row : fwd_row; pr_source : IpAddr; pr_if_alias : list Z }.

(** [Drop for PinnedRoute] *)
Definition drop_pinned (pr : PinnedRoute) (n : N) : N := snd (wn_delete n (pr_row pr)).

Record candidate := mkBest { b_metric : Z; b_alias : list Z; b_luid : Z; b_row : fwd_row; b_src : IpAddr }.

(** One candidate of the loop. *)
Definition consider (n : N) (peer_ip : IpAddr) (best : option candidate) (c : Z * list Z)
    : option candidate :=
  match best_route_via n c.1 peer_ip with
  | Ok (row, src) =>
      if negb (eqb (is_v4 src) (is_v4 peer_ip)) then best
      else
        let better := match best with None => true | Some b => f_metric row <? b_metric b end in
        if better then Some (mkBest (f_metric row) c.2 c.1 row src) else best
  | _ => best
  end.

(** [CreateIpForwardEntry2], over a stale entry. *)
Definition create_route (row : fwd_row) (n : N) : res rerr unit * N :=
  let '(rc, n) := wn_create n row in
  if rc =? NO_ERROR then (Ok tt, n)
  else if rc =? ERROR_OBJECT_ALREADY_EXISTS then
    let '(_, n) := wn_delete n row in
    let '(rc2, n) := wn_create n row in
    if rc2 =? NO_ERROR then (Ok tt, n) else (Err (ECreateStale rc2), n)
  else (Err (ECreate rc), n).

Definition pin_route_to_peer (peer_ip : IpAddr) (n : N) : res rerr PinnedRoute * N :=
  match enumerate_viable_uplinks n with
  | Err e => (Err e, n)
  | Abort => (Abort, n)
  | Ok [] => (Err ENoUplink, n)
  | Ok candidates =>
      match foldl (consider n peer_ip) None candidates with
      | None => (Err ENoRoute, n)
      | Some b =>
          let row := pinned_row (b_row b) peer_ip in
          match create_route row n with
          | (Err e, n) => (Err e, n)
          | (Abort, n) => (Abort, n)
          | (Ok _, n) =>
              match verify_best_interface_luid n peer_ip with
              | Ok winner_luid =>
                  if winner_luid =? b_luid b then (Ok (mkPinned row (b_src b) (b_alias b)), n)
                  else let '(_, n) := wn_delete n row in (Err EOverridden, n)
              | Err e => let '(_, n) := wn_delete n row in (Err e, n)
              | Abort => (Abort, n)
              end
          end
      end
  end.
End calls.
