(* ===== verification/WinRouteProofs.v ===== *)
(** * Theory of the pinned route *)

From stdpp Require Import gmap.
From S2P Require Import Prelude Words Slices Text Results StrOps Net SharedAddr WinRoute.
Local Open Scope Z_scope.

(** ** The routing table *)

(** What identifies an entry, and what it says. *)
Definition route_key (row : fwd_row) : list Z * Z * Z * list Z :=
  (f_prefix row, f_prefix_len row, f_luid row, f_next_hop row).
Definition route_val (row : fwd_row) : Z * Z * Z * Z :=
  (f_metric row, f_valid_lifetime row, f_preferred_lifetime row, f_immortal row).

(** What is documented: an entry is created when there is none with its key,
    and deleted by its key; both need rights, with which an existing entry can
    be deleted. *)
Class WinNetLaws (N : Type) `{WinNet N} := {
  wl_routes : N → gmap (list Z * Z * Z * list Z) (Z * Z * Z * Z);
  wl_rights : N → Prop;
  law_create n row rc n' : wn_create n row = (rc, n') →
    (rc = NO_ERROR → wl_routes n' = <[route_key row := route_val row]> (wl_routes n) ∧ wl_rights n') ∧
    (rc ≠ NO_ERROR → wl_routes n' = wl_routes n);
  law_delete n row rc n' : wn_delete n row = (rc, n') →
    (rc = NO_ERROR → wl_routes n' = delete (route_key row) (wl_routes n)) ∧
    (rc ≠ NO_ERROR → wl_routes n' = wl_routes n) ∧
    (wl_rights n → is_Some (wl_routes n !! route_key row) → rc = NO_ERROR)
}.

(** ** Addresses *)

Lemma sockaddr_roundtrip ip : ip_ok ip → sockaddr_inet_to_ip (ip_to_sockaddr_inet ip) = Some ip.
Proof.
  unfold sockaddr_inet_to_ip. destruct ip as [o|s]; cbn [ip_ok ip_to_sockaddr_inet]; intros [Hl Hb].
  - assert (Ho : u32_to_le_bytes (from_le o) = o) by (rewrite <- Hl at 1; by apply le_bytes_from_le).
    rewrite Ho, (window_list_inserts_ne 0), (window_inserts_eq 0), (window_inserts_eq 4) by (len; lia).
    change (from_le (u16_to_le_bytes AF_INET)) with AF_INET. rewrite Z.eqb_refl. by rewrite Ho.
  - assert (Ho : length (v6_octets s) = 16%nat) by (rewrite length_v6_octets; lia).
    rewrite (window_list_inserts_ne 0), (window_inserts_eq 0), (window_inserts_eq 8) by (len; lia).
    change (from_le (u16_to_le_bytes AF_INET6)) with AF_INET6. cbn [Z.eqb AF_INET AF_INET6 Pos.eqb].
    by rewrite (v6_segments_octets s Hb).
Qed.

(** ** Uplinks *)

(** An interface that is up, of a physical type, backed by hardware,
    dedicated, and not named like the driver of a tunnel. *)
Record uplink (row : if_row) : Prop := {
  up_status : r_oper_status row = IfOperStatusUp;
  up_type : r_type row ∈ [IF_TYPE_ETHERNET_CSMACD; IF_TYPE_IEEE80211; IF_TYPE_PPP];
  up_hardware : Z.testbit (r_flags row) 0 = true;
  up_dedicated : r_connection row = IF_CONNECTION_DEDICATED;
  up_name : ∀ bad, bad ∈ VPN_BLACKLIST →
    find_sub bad (to_ascii_lowercase <$> utf16_to_string (r_description row)) = None
}.

Lemma existsb_eqb_elem x l : existsb (Z.eqb x) l = true ↔ x ∈ l.
Proof.
  rewrite existsb_exists. setoid_rewrite <- list_elem_of_In. setoid_rewrite Z.eqb_eq.
  split; [by intros (y & ? & ->)|by exists x].
Qed.

Lemma is_viable_uplink_spec row : is_viable_uplink row = true ↔ uplink row.
Proof.
  unfold is_viable_uplink.
  assert (Hhw : (Z.land (r_flags row) 1 =? 0) = negb (Z.testbit (r_flags row) 0)).
  { rewrite Z.bit0_odd. change 1 with (Z.ones 1). rewrite Z.land_ones by done. change (2 ^ 1) with 2.
    rewrite Zmod_odd. by destruct (Z.odd (r_flags row)). }
  rewrite Hhw. clear Hhw. split.
  - destruct (Z.eqb_spec (r_oper_status row) IfOperStatusUp) as [Hs|]; [|done]. cbn [negb].
    destruct (existsb (Z.eqb (r_type row)) [IF_TYPE_SOFTWARE_LOOPBACK; _; _]); [done|].
    destruct (existsb (Z.eqb (r_type row)) _) eqn:Ht; [|done]. apply existsb_eqb_elem in Ht.
    destruct (Z.testbit (r_flags row) 0) eqn:Hb; [|done]. cbn [negb].
    destruct (Z.eqb_spec (r_connection row) IF_CONNECTION_DEDICATED) as [Hc|]; [|done]. cbn [negb].
    intros Hn%negb_true_iff. split; [done..|]. intros bad Hbad.
    destruct (find_sub bad _) eqn:Hf; [|done]. exfalso.
    apply not_true_iff_false in Hn. apply Hn, existsb_exists. exists bad. unfold contains. rewrite Hf.
    split; [by apply list_elem_of_In|done].
  - intros [-> Ht Hb -> Hn]. rewrite Hb. cbn [negb Z.eqb].
    replace (existsb (Z.eqb (r_type row)) [IF_TYPE_SOFTWARE_LOOPBACK; IF_TYPE_TUNNEL; IF_TYPE_PROP_VIRTUAL])
      with false.
    2:{ symmetry. apply not_true_iff_false. rewrite existsb_eqb_elem. intros Ht'.
        rewrite !elem_of_cons, elem_of_nil in Ht, Ht'.
        unfold IF_TYPE_SOFTWARE_LOOPBACK, IF_TYPE_TUNNEL, IF_TYPE_PROP_VIRTUAL, IF_TYPE_ETHERNET_CSMACD,
          IF_TYPE_IEEE80211, IF_TYPE_PPP in *. lia. }
    apply existsb_eqb_elem in Ht. rewrite Ht. cbn [negb]. apply negb_true_iff, not_true_iff_false.
    intros (bad & Hbad%list_elem_of_In & Hc)%existsb_exists. unfold contains in Hc. by rewrite Hn in Hc.
Qed.

Section specs.
  Context {N : Type} `{WinNetLaws N}.

(** A candidate with a route of the family of the peer. *)
Definition reaches (n : N) (peer_ip : IpAddr) (c : Z * list Z) (row : fwd_row) (src : IpAddr) : Prop :=
  best_route_via n c.1 peer_ip = Ok (row, src) ∧ is_v4 src = is_v4 peer_ip.

(** The result of the loop. *)
Definition chosen (n : N) (peer_ip : IpAddr) (cs : list (Z * list Z)) (b : option candidate) : Prop :=
  match b with
  | None => ∀ c row src, c ∈ cs → ~ reaches n peer_ip c row src
  | Some b =>
      (b_luid b, b_alias b) ∈ cs ∧ reaches n peer_ip (b_luid b, b_alias b) (b_row b) (b_src b) ∧
      b_metric b = f_metric (b_row b) ∧
      ∀ c row src, c ∈ cs → reaches n peer_ip c row src → b_metric b ≤ f_metric row
  end.

Lemma consider_chosen n peer_ip cs b c :
  chosen n peer_ip cs b → chosen n peer_ip (cs ++ [c]) (consider n peer_ip b c).
Proof.
  unfold consider. intros Hb.
  assert (Hskip : (∀ row src, ~ reaches n peer_ip c row src) → chosen n peer_ip (cs ++ [c]) b).
  { intros Hc. destruct b as [b|]; cbn in *.
    - destruct Hb as (Hin & Hr & Hm & Hmin). split_and!; [set_solver|done..|].
      intros c' row src [?| ->%list_elem_of_singleton]%elem_of_app Hr'; [by eapply Hmin|by apply Hc in Hr'].
    - intros c' row src [?| ->%list_elem_of_singleton]%elem_of_app; [by apply Hb|apply Hc]. }
  destruct (best_route_via n c.1 peer_ip) as [[row src]|e|] eqn:Hv;
    [|apply Hskip; by intros row src [Hv' _]; rewrite Hv in Hv'..].
  destruct (eqb (is_v4 src) (is_v4 peer_ip)) eqn:Hf; cbn [negb].
  2:{ apply Hskip. intros row' src' [Hv' Hf']. rewrite Hv in Hv'. injection Hv' as <- <-.
      by rewrite Hf', eqb_reflx in Hf. }
  apply eqb_prop in Hf.
  assert (Hc : ∀ row' src', reaches n peer_ip c row' src' → row' = row ∧ src' = src).
  { intros row' src' [Hv' _]. rewrite Hv in Hv'. by injection Hv' as <- <-. }
  destruct b as [b|].
  - destruct Hb as (Hin & Hr & Hm & Hmin). destruct (Z.ltb_spec (f_metric row) (b_metric b)) as [Hlt|Hge].
    + cbn. rewrite <- surjective_pairing. split_and!; [set_solver|done..|].
      intros c' row' src' [Hc'| ->%list_elem_of_singleton]%elem_of_app Hr';
        [specialize (Hmin _ _ _ Hc' Hr'); lia|by apply Hc in Hr' as [-> _]].
    + split_and!; [set_solver|done..|].
      intros c' row' src' [Hc'| ->%list_elem_of_singleton]%elem_of_app Hr';
        [by eapply Hmin|by apply Hc in Hr' as [-> _]].
  - cbn. rewrite <- surjective_pairing. split_and!; [set_solver|done..|].
    intros c' row' src' [Hc'| ->%list_elem_of_singleton]%elem_of_app Hr';
      [by apply Hb in Hr'|by apply Hc in Hr' as [-> _]].
Qed.

Lemma fold_chosen n peer_ip cs : chosen n peer_ip cs (foldl (consider n peer_ip) None cs).
Proof.
  induction cs as [|c cs IH] using rev_ind; [by intros c row src ?%not_elem_of_nil|].
  rewrite foldl_snoc. by apply consider_chosen.
Qed.

(** ** The table *)

(** Failures after an uplink was chosen. *)
Definition late (e : rerr) : bool := match e with ENoUplink | ENoRoute => false | _ => true end.

Lemma create_route_spec row n r n' : create_route row n = (r, n') →
  (r = Ok tt → wl_routes n' = <[route_key row := route_val row]> (wl_routes n) ∧ wl_rights n') ∧
  (∀ e, r = Err e → late e = true ∧
     (wl_routes n' = wl_routes n ∨ wl_routes n' = delete (route_key row) (wl_routes n))) ∧
  r ≠ Abort.
Proof.
  unfold create_route. destruct (wn_create n row) as [rc n1] eqn:E1. apply law_create in E1 as [C1 F1].
  destruct (Z.eqb_spec rc NO_ERROR) as [->|Hrc].
  { intros [= <- <-]. split_and!; [intros _; by apply C1|done..]. }
  specialize (F1 Hrc). destruct (rc =? ERROR_OBJECT_ALREADY_EXISTS).
  2:{ intros [= <- <-]. split_and!; [done|intros ? [= <-]; auto|done]. }
  destruct (wn_delete n1 row) as [rd n2] eqn:E2. apply law_delete in E2 as (D2 & S2 & _).
  destruct (wn_create n2 row) as [rc2 n3] eqn:E3. apply law_create in E3 as [C3 F3].
  assert (H2 : wl_routes n2 = wl_routes n ∨ wl_routes n2 = delete (route_key row) (wl_routes n)).
  { rewrite <- F1. destruct (decide (rd = NO_ERROR)); auto. }
  destruct (Z.eqb_spec rc2 NO_ERROR) as [->|Hrc2]; intros [= <- <-].
  - split_and!; [intros _|done..]. destruct C3 as [-> ?]; [done|]. split; [|done].
    destruct H2 as [->| ->]; [done|]. apply insert_delete_eq.
  - split_and!; [done| |done]. intros ? [= <-]. by rewrite F3.
Qed.

(** Rolling back what was created. *)
Lemma delete_created row n n1 rc n2 : wl_rights n1 →
  wl_routes n1 = <[route_key row := route_val row]> (wl_routes n) → wn_delete n1 row = (rc, n2) →
  wl_routes n2 = delete (route_key row) (wl_routes n).
Proof.
  intros Hr H1 (D & _ & R)%law_delete. rewrite D, H1; [apply delete_insert_eq|].
  apply R; [done|]. rewrite H1, lookup_insert_eq. by eexists.
Qed.

(** The key of a host route to an address. *)
Definition host_route (peer_ip : IpAddr) (key : list Z * Z * Z * list Z) : Prop :=
  key.1.1.1 = ip_to_sockaddr_inet peer_ip ∧ key.1.1.2 = if is_v4 peer_ip then 32 else 128.

Lemma pinned_row_host row peer_ip : host_route peer_ip (route_key (pinned_row row peer_ip)).
Proof. done. Qed.

(** Nothing but host routes to the address is missing. *)
Definition spared_by (peer_ip : IpAddr) (n n' : N) : Prop :=
  wl_routes n' ⊆ wl_routes n ∧ ∀ k, ~ host_route peer_ip k → wl_routes n' !! k = wl_routes n !! k.

Lemma spared_same peer_ip n n' : wl_routes n' = wl_routes n → spared_by peer_ip n n'.
Proof. intros E. unfold spared_by. by rewrite E. Qed.

Lemma spared_delete peer_ip row n n' :
  wl_routes n' = delete (route_key (pinned_row row peer_ip)) (wl_routes n) → spared_by peer_ip n n'.
Proof.
  intros E. unfold spared_by. rewrite E. split; [apply delete_subseteq|]. intros k Hk.
  apply lookup_delete_ne. intros <-. apply Hk, pinned_row_host.
Qed.

Lemma verify_late (n : N) peer_ip :
  match verify_best_interface_luid n peer_ip with Ok _ => True | Err e => late e = true | Abort => False end.
Proof.
  unfold verify_best_interface_luid. destruct (wn_best_interface n _) as [rc idx]. destruct (rc =? NO_ERROR); [|done].
  cbn. destruct (wn_if_entry n idx) as [rc2 row]. by destruct (rc2 =? NO_ERROR).
Qed.

Lemma enumerate_spec (n : N) :
  match enumerate_viable_uplinks n with
  | Ok cs => ∃ ifs, wn_if_table n = (NO_ERROR, Some ifs) ∧
      ∀ c, c ∈ cs ↔ ∃ nic, nic ∈ ifs ∧ uplink nic ∧ c = (r_luid nic, utf16_to_string (r_alias nic))
  | Err e => ∀ ifs, wn_if_table n ≠ (NO_ERROR, Some ifs)
  | Abort => False
  end.
Proof.
  unfold enumerate_viable_uplinks. destruct (wn_if_table n) as [rc [rows|]]; [|done].
  destruct (Z.eqb_spec rc NO_ERROR) as [->|Hrc]; cbn [negb]; [|by intros ifs [= -> _]].
  exists rows. split; [done|]. intros c. rewrite list_elem_of_fmap. split.
  - intros (nic & -> & [Hv Hin]%list_elem_of_filter). exists nic. split_and!; [done| |done].
    apply is_viable_uplink_spec. by apply Is_true_true.
  - intros (nic & Hin & Hv & ->). exists nic. split; [done|]. apply list_elem_of_filter. split; [|done].
    apply Is_true_true. by apply is_viable_uplink_spec.
Qed.

(** The route to the peer is pinned to an interface. *)
Record pinned (n : N) (peer_ip : IpAddr) (pr : PinnedRoute) (n' : N) (ifs : list if_row) (nic : if_row)
    (row : fwd_row) : Prop := {
  (** It is a physical uplink with a route to the peer, *)
  p_table : wn_if_table n = (NO_ERROR, Some ifs);
  p_nic : nic ∈ ifs;
  p_uplink : uplink nic;
  p_route : best_route_via n (r_luid nic) peer_ip = Ok (row, pr_source pr);
  p_family : is_v4 (pr_source pr) = is_v4 peer_ip;
  (** the least metric of those, *)
  p_least nic' row' src' : nic' ∈ ifs → uplink nic' → best_route_via n (r_luid nic') peer_ip = Ok (row', src') →
    is_v4 src' = is_v4 peer_ip → f_metric row ≤ f_metric row';
  (** and the system chooses it; *)
  p_wins : verify_best_interface_luid n' peer_ip = Ok (r_luid nic);
  (** the table has the host route, until it is dropped. *)
  p_routes : wl_routes n' =
    <[(ip_to_sockaddr_inet peer_ip, if is_v4 peer_ip then 32 else 128, f_luid row, f_next_hop row) :=
      (1, u32_max, u32_max, 1)]> (wl_routes n);
  p_dropped : wl_routes (drop_pinned pr n') =
    delete (ip_to_sockaddr_inet peer_ip, if is_v4 peer_ip then 32 else 128, f_luid row, f_next_hop row) (wl_routes n)
}.

Lemma pin_route_full n peer_ip r n' : pin_route_to_peer peer_ip n = (r, n') →
  (∀ pr, r = Ok pr → ∃ ifs nic row, pinned n peer_ip pr n' ifs nic row) ∧
  (∀ e, r = Err e → spared_by peer_ip n n') ∧
  (∀ ifs nic row src, wn_if_table n = (NO_ERROR, Some ifs) → nic ∈ ifs → uplink nic →
     best_route_via n (r_luid nic) peer_ip = Ok (row, src) → is_v4 src = is_v4 peer_ip →
     r ≠ Err ENoUplink ∧ r ≠ Err ENoRoute) ∧
  r ≠ Abort.
Proof.
  unfold pin_route_to_peer. pose proof (enumerate_spec n) as He.
  destruct (enumerate_viable_uplinks n) as [cs|e|]; [|intros [= <- <-]|done].
  2:{ split_and!; [done|by intros ? _; apply spared_same| |done]. intros ifs nic row src Hi.
      by apply He in Hi. }
  destruct He as (ifs & Hifs & Hcs).
  destruct cs as [|c0 cs0].
  { intros [= <- <-]. split_and!; [done|by intros ? _; apply spared_same| |done].
    intros ifs' nic row src Hi Hin Hup. rewrite Hifs in Hi. injection Hi as <-.
    exfalso. eapply not_elem_of_nil, Hcs. by exists nic. }
  set (cs := c0 :: cs0) in *. pose proof (fold_chosen n peer_ip cs) as Hch.
  destruct (foldl (consider n peer_ip) None cs) as [b|].
  2:{ intros [= <- <-]. split_and!; [done|by intros ? _; apply spared_same| |done].
      intros ifs' nic row src Hi Hin Hup Hr Hf. rewrite Hifs in Hi. injection Hi as <-.
      destruct (Hch (r_luid nic, utf16_to_string (r_alias nic)) row src); [|done]. apply Hcs. by exists nic. }
  destruct (create_route (pinned_row (b_row b) peer_ip) n) as [rc n1] eqn:Hc.
  apply create_route_spec in Hc as (C & F & A). destruct rc as [[]|e|]; [|intros [= <- <-]|done].
  2:{ destruct (F e eq_refl) as [L E]. split_and!; [done| |by destruct e|done].
      intros ? _. destruct E; [by apply spared_same|by eapply spared_delete]. }
  destruct (C eq_refl) as [R1 G1]. pose proof (verify_late n1 peer_ip) as Hv.
  assert (Hroll : ∀ rd n2, wn_delete n1 (pinned_row (b_row b) peer_ip) = (rd, n2) → spared_by peer_ip n n2).
  { intros rd n2 Hd. apply (spared_delete peer_ip (b_row b)).
    exact (delete_created _ n n1 rd n2 G1 R1 Hd). }
  destruct (verify_best_interface_luid n1 peer_ip) as [w|e|] eqn:Hw; [|destruct (wn_delete n1 _) as [rd n2] eqn:Hd|done].
  2:{ intros [= <- <-]. split_and!; [done|intros _ _; by eapply Hroll|by destruct e|done]. }
  destruct (Z.eqb_spec w (b_luid b)) as [->|Hne].
  2:{ destruct (wn_delete n1 _) as [rd n2] eqn:Hd. intros [= <- <-].
      split_and!; [done|intros _ _; by eapply Hroll|done..]. }
  intros [= <- <-]. split_and!; [|done..]. intros pr [= <-].
  destruct Hch as (Hin & [Hr Hf] & Hm & Hmin). apply Hcs in Hin as (nic & Hnic & Hup & [= Hl Ha]).
  exists ifs, nic, (b_row b). split; rewrite <- ?Hl; [done..| |done|done|].
  - intros nic' row' src' Hin' Hup' Hr' Hf'. rewrite <- Hm.
    apply (Hmin (r_luid nic', utf16_to_string (r_alias nic')) row' src'); [apply Hcs; by exists nic'|done].
  - unfold drop_pinned. destruct (wn_delete n1 _) as [rd n2] eqn:Hd. exact (delete_created _ n n1 rd n2 G1 R1 Hd).
Qed.

(** What the caller of [pin_route_to_peer] needs. *)
Lemma pin_route_spec n peer_ip r n' : pin_route_to_peer peer_ip n = (r, n') →
  (∀ pr, r = Ok pr → is_v4 (pr_source pr) = is_v4 peer_ip ∧ spared_by peer_ip n (drop_pinned pr n')) ∧
  (∀ e, r = Err e → spared_by peer_ip n n') ∧ r ≠ Abort.
Proof.
  intros (Hok & He & _ & Ha)%pin_route_full. split_and!; [|done..]. intros pr Hr.
  destruct (Hok pr Hr) as (ifs & nic & row & Hp). split; [by destruct Hp|].
  apply (spared_delete _ row). exact (p_dropped _ _ _ _ _ _ _ Hp).
Qed.

(** C37: pinning the route to the peer.  On success the route goes over an
    interface that is a physical uplink and has the least metric among those
    with a route to the peer; the table has gained exactly the host route to
    the peer through that interface, with metric 1 and no expiry, the system
    chooses that interface, and dropping the result takes the route out again.
    On failure no route is added, and none is lost but a stale host route to
    the peer.  When an uplink has a route one is chosen. *)
Theorem pin_route_correct n peer_ip r n' : pin_route_to_peer peer_ip n = (r, n') →
  (∀ pr, r = Ok pr → ∃ ifs nic row, pinned n peer_ip pr n' ifs nic row) ∧
  (∀ e, r = Err e → spared_by peer_ip n n') ∧
  (∀ ifs nic row src, wn_if_table n = (NO_ERROR, Some ifs) → nic ∈ ifs → uplink nic →
     best_route_via n (r_luid nic) peer_ip = Ok (row, src) → is_v4 src = is_v4 peer_ip →
     r ≠ Err ENoUplink ∧ r ≠ Err ENoRoute) ∧
  r ≠ Abort.
Proof. apply pin_route_full. Qed.
End specs.

(** ** A routing table that keeps the laws *)

Record sim_net := mkSimNet {
  sn_ifs : list if_row;
  sn_via : list (Z * fwd_row);
  sn_src : list Z;
  sn_routes : gmap (list Z * Z * Z * list Z) (Z * Z * Z * Z);
  sn_winner : Z
}.
Definition sn_set (n : sim_net) (t : gmap (list Z * Z * Z * list Z) (Z * Z * Z * Z)) : sim_net :=
  mkSimNet (sn_ifs n) (sn_via n) (sn_src n) t (sn_winner n).
Definition no_row : fwd_row := mkFwd 0 [] 0 [] 0 0 0 0 0 [].
Definition no_if : if_row := mkIf 0 0 0 0 0 0 [] [].

#[global] Instance sim_win_net : WinNet sim_net := {|
  wn_if_table n := (NO_ERROR, Some (sn_ifs n));
  wn_best_route n luid _ :=
    match list_find (λ p, p.1 = luid) (sn_via n) with
    | Some (_, (_, row)) => (NO_ERROR, row, sn_src n)
    | None => (1, no_row, [])
    end;
  wn_create n row :=
    match sn_routes n !! route_key row with
    | Some _ => (ERROR_OBJECT_ALREADY_EXISTS, n)
    | None => (NO_ERROR, sn_set n (<[route_key row := route_val row]> (sn_routes n)))
    end;
  wn_delete n row :=
    match sn_routes n !! route_key row with
    | Some _ => (NO_ERROR, sn_set n (delete (route_key row) (sn_routes n)))
    | None => (1168, n)
    end;
  wn_best_interface n _ := (NO_ERROR, sn_winner n);
  wn_if_entry n idx :=
    match list_find (λ r, r_index r = idx) (sn_ifs n) with
    | Some (_, r) => (NO_ERROR, r)
    | None => (2, no_if)
    end
|}.

#[global] Instance sim_win_laws : WinNetLaws sim_net.
Proof.
  refine {| wl_routes := sn_routes; wl_rights _ := True |}; intros n row rc n'; cbn [wn_create wn_delete sim_win_net];
    destruct (sn_routes n !! route_key row) as [v|] eqn:E; intros [= <- <-]; by split.
Defined.

(** A host with an Ethernet card, a slower wireless one and a tunnel, and a
    stale route of an earlier run. *)
Definition some_net : sim_net :=
  let via luid metric := (luid, mkFwd luid [] 0 [2; 0; 0; 0; 192; 168; 1; 1] metric 0 0 0 0 []) in
  let row luid metric := pinned_row (via luid metric).2 (V4 [203; 0; 113; 9]) in
  mkSimNet
    [mkIf 7 3 IF_TYPE_PROP_VIRTUAL 1 1 1 (bs "Wintun Userspace Tunnel") (bs "wg0");
     mkIf 8 4 IF_TYPE_IEEE80211 1 1 1 (bs "Wireless") (bs "Wi-Fi");
     mkIf 9 5 IF_TYPE_ETHERNET_CSMACD 1 5 1 (bs "Ethernet Controller") (bs "Ethernet");
     mkIf 10 6 IF_TYPE_ETHERNET_CSMACD 1 1 1 (bs "TAP-Windows Adapter V9") (bs "tap")]
    [via 7 0; via 8 25; via 9 10; via 10 1] (ip_to_sockaddr_inet (V4 [192; 168; 1; 17]))
    {[route_key (row 9 10) := (1, 0, 0, 0)]} 5.

Lemma pin_route_correct_witness : ∃ pr n',
  pin_route_to_peer (V4 [203; 0; 113; 9]) some_net = (Ok pr, n') ∧ pr_if_alias pr = bs "Ethernet" ∧
  pr_source pr = V4 [192; 168; 1; 17] ∧ sn_routes (drop_pinned pr n') = ∅ ∧
  spared_by (V4 [203; 0; 113; 9]) some_net (drop_pinned pr n').
Proof.
  assert (Hr : match pin_route_to_peer (V4 [203; 0; 113; 9]) some_net with
               | (Ok pr, n') => (pr_if_alias pr, pr_source pr, sn_routes (drop_pinned pr n'))
               | _ => ([], ip_unspecified, ∅)
               end = (bs "Ethernet", V4 [192; 168; 1; 17], ∅)) by (vm_compute; reflexivity).
  destruct (pin_route_to_peer (V4 [203; 0; 113; 9]) some_net) as [[pr|e|] n'] eqn:E; [|discriminate Hr..].
  injection Hr as H1 H2 H3. exists pr, n'. split_and!; [reflexivity|exact H1|exact H2|exact H3|].
  destruct (pin_route_correct some_net (V4 [203; 0; 113; 9]) (Ok pr) n' E) as (Hok & _).
  destruct (Hok pr eq_refl) as (ifs & nic & row & Hp). apply (spared_delete _ row).
  exact (p_dropped _ _ _ _ _ _ _ Hp).
Defined.
