(* ===== verification/WinWfp.v ===== *)
(** * The firewall bypass on Windows: [src/src/windows_wfp.rs]

    The filtering platform is the state of [WfpEngine], its calls are the
    methods.  Handles are integers; pointers that may be null are options.
    The watchdog thread is a loop over turns: what other programs do to the
    platform while it sleeps, and whether it was told to stop. *)

From S2P Require Import Prelude Words Slices Text Results StrOps Links.
Local Open Scope Z_scope.

(** ** Structures *)

Record guid := mkGuid { data1 : Z; data2 : Z; data3 : Z; data4 : list Z }.

#[global] Instance guid_eq_dec : EqDecision guid.
Proof. solve_decision. Defined.

Definition guid_eq (a b : guid) : bool :=
  (data1 a =? data1 b) && (data2 a =? data2 b) && (data3 a =? data3 b) && bool_decide (data4 a = data4 b).

Definition FWPM_LAYER_ALE_AUTH_CONNECT_V4 : guid :=
  mkGuid 0xc38d57d1 0x05a7 0x4c33 [0x90; 0x4f; 0x7f; 0xbc; 0xee; 0xe6; 0x0e; 0x82].
Definition FWPM_LAYER_ALE_AUTH_CONNECT_V6 : guid :=
  mkGuid 0x4a72393b 0x319f 0x44bc [0x84; 0xc3; 0xba; 0x54; 0xdc; 0xb3; 0xb6; 0xb4].
Definition FWPM_LAYER_ALE_RESOURCE_ASSIGNMENT_V4 : guid :=
  mkGuid 0x1247d66d 0x0b60 0x4a15 [0x8d; 0x44; 0x71; 0x55; 0xd0; 0xf5; 0x3a; 0x0c].
Definition FWPM_LAYER_ALE_RESOURCE_ASSIGNMENT_V6 : guid :=
  mkGuid 0x55a650e1 0x5f0a 0x4eca [0xa6; 0x53; 0x88; 0xf5; 0x3b; 0x26; 0xaa; 0x8c].
Definition FWPM_LAYER_ALE_AUTH_RECV_ACCEPT_V4 : guid :=
  mkGuid 0xe1cd9fe7 0xf4b5 0x4273 [0x96; 0xc0; 0x59; 0x2e; 0x48; 0x7b; 0x86; 0x50].
Definition FWPM_LAYER_ALE_AUTH_RECV_ACCEPT_V6 : guid :=
  mkGuid 0xa3b42c97 0x9f04 0x4672 [0xb8; 0x7e; 0xce; 0xe9; 0xc4; 0x83; 0x25; 0x7f].
Definition FWPM_CONDITION_ALE_APP_ID : guid :=
  mkGuid 0xd78e1e87 0x8644 0x4ea5 [0x94; 0x37; 0xd8; 0x09; 0xec; 0xef; 0xc9; 0x71].
Definition GUTD_SUBLAYER_KEY : guid :=
  mkGuid 0x4a8f3c2e 0x1b91 0x4e21 [0xa7; 0x3d; 0x62; 0xf4; 0x9c; 0x05; 0x8b; 0x11].

Definition ERROR_SUCCESS : Z := 0.
Definition FWP_ACTION_PERMIT : Z := 0x00001002.
Definition FWP_MATCH_EQUAL : Z := 0.
Definition FWP_BYTE_BLOB_TYPE : Z := 12.
Definition FWPM_FILTER_FLAG_CLEAR_ACTION_RIGHT : Z := 0x00000008.
Definition RPC_C_AUTHN_WINNT : Z := 10.
Definition NULL : Z := 0.
Definition INVALID_HANDLE_VALUE : Z := -1.
Definition BATCH : Z := 128.
Definition MAX_CONSECUTIVE_FAILURES : Z := 20.

(** [FWPM_SUBLAYER0] *)
Record sublayer := mkSub {
  sl_key : guid; sl_name : list Z; sl_description : list Z; sl_flags : Z; sl_weight : Z
}.

(** [FWP_VALUE0]: [FWP_EMPTY] or [FWP_UINT64]. *)
Inductive weight := WEmpty | WUint64 (v : Z).

(** [FWPM_FILTER_CONDITION0] with a byte blob. *)
Record condition := mkCond { c_field : guid; c_match : Z; c_type : Z; c_blob : list Z }.

(** [FWPM_FILTER0] *)
Record wfilter := mkFilter {
  fl_name : list Z;
  fl_layer : guid;
  fl_sublayer : guid;
  fl_weight : weight;
  fl_conditions : list condition;
  fl_action : Z;
  fl_flags : Z
}.

(** Return codes come first. *)
Class WfpEngine (W : Type) := {
  we_file_name : W → Z → Z * list Z;
  we_last_error : W → Z;
  we_open : W → Z → Z * Z * W;
  we_close : W → Z → W;
  we_app_id : W → list Z → Z * option (list Z);
  we_sub_add : W → Z → sublayer → Z * W;
  we_sub_delete : W → Z → guid → Z * W;
  we_enum_create : W → Z → Z * Z * W;
  we_enum : W → Z → Z → Z → Z * option (list (option sublayer)) * W;
  we_enum_destroy : W → Z → Z → W;
  we_add : W → Z → wfilter → Z * Z * W;
  we_get : W → Z → Z → Z;
  we_delete : W → Z → Z → W;
  we_open_token : W → option Z;
  we_token_elevation : W → Z → Z * Z
}.

Inductive werr :=
| EModuleName (err : Z)
| EPathTooLong
| EEngineOpen (rc : Z)
| ESubLayerAdd (rc : Z)
| EAppId (rc : Z)
| EFilterAdd (rc : Z)
| ENoFilter
| ESpawn.

Record InstallState := mkInstall { engine : Z; filter_ids : list Z }.

(** The text of an ASCII string as UTF-16 with its terminator. *)
Definition wide (s : list Z) : list Z := s ++ [0].

Definition layers : list (list Z * guid) :=
  [(bs "ALE_AUTH_CONNECT_V4", FWPM_LAYER_ALE_AUTH_CONNECT_V4);
   (bs "ALE_AUTH_CONNECT_V6", FWPM_LAYER_ALE_AUTH_CONNECT_V6);
   (bs "ALE_AUTH_RECV_ACCEPT_V4", FWPM_LAYER_ALE_AUTH_RECV_ACCEPT_V4);
   (bs "ALE_AUTH_RECV_ACCEPT_V6", FWPM_LAYER_ALE_AUTH_RECV_ACCEPT_V6);
   (bs "ALE_RESOURCE_ASSIGNMENT_V4", FWPM_LAYER_ALE_RESOURCE_ASSIGNMENT_V4);
   (bs "ALE_RESOURCE_ASSIGNMENT_V6", FWPM_LAYER_ALE_RESOURCE_ASSIGNMENT_V6)].

Definition app_condition (app_id : list Z) : condition :=
  mkCond FWPM_CONDITION_ALE_APP_ID FWP_MATCH_EQUAL FWP_BYTE_BLOB_TYPE app_id.

(** The filter for a layer in the own sublayer. *)
Definition permit_filter (layer : guid) (app_id layer_name : list Z) (sublayer_key : guid) : wfilter :=
  mkFilter (wide (bs "gutd permit " ++ layer_name)) layer sublayer_key WEmpty [app_condition app_id]
    FWP_ACTION_PERMIT FWPM_FILTER_FLAG_CLEAR_ACTION_RIGHT.

(** The filter for a layer in a sublayer of another program. *)
Definition foreign_filter (layer : guid) (app_id layer_name : list Z) (key : guid) : wfilter :=
  mkFilter (wide (bs "gutd permit " ++ layer_name ++ bs " (foreign)")) layer key (WUint64 (2 ^ 64 - 1))
    [app_condition app_id] FWP_ACTION_PERMIT FWPM_FILTER_FLAG_CLEAR_ACTION_RIGHT.

Section calls.
  Context {W : Type} `{WfpEngine W}.
  Local Abbreviation M := (KM W werr).

(** ** Helpers *)

(** The buffer doubles from 1024 units; [fuel] bounds the doublings. *)
Fixpoint exe_path_loop (fuel : nat) (len : Z) (w : W) : res werr (list Z) :=
  match fuel with
  | O => Abort
  | S fuel =>
      let '(n, buf) := we_file_name w len in
      if n =? 0 then Err (EModuleName (we_last_error w))
      else if n <? len then Ok (take (Z.to_nat n + 1) buf)
      else if 32 * 1024 <=? len then Err EPathTooLong
      else exe_path_loop fuel (len * 2) w
  end.
Definition current_exe_path_w (w : W) : res werr (list Z) := exe_path_loop 6 1024 w.

Definition is_elevated (w : W) : bool :=
  match we_open_token w with
  | None => false
  | Some token =>
      let '(ok, elevated) := we_token_elevation w token in
      negb (ok =? 0) && negb (elevated =? 0)
  end.

(** The exit code of a process that is not elevated. *)
Definition ensure_admin (w : W) : option Z := if is_elevated w then None else Some 1.

Definition open_engine : M Z := λ w,
  let '(rc, engine, w) := we_open w RPC_C_AUTHN_WINNT in
  if rc =? ERROR_SUCCESS then (Ok engine, w) else (Err (EEngineOpen rc), w).

Definition add_sublayer (engine : Z) : M unit := λ w,
  let '(_, w) := we_sub_delete w engine GUTD_SUBLAYER_KEY in
  let sub := mkSub GUTD_SUBLAYER_KEY (wide (bs "gutd bypass")) (wide (bs "gutd WFP permit for self")) 0 0xFFFF in
  let '(rc, w) := we_sub_add w engine sub in
  if rc =? ERROR_SUCCESS then (Ok tt, w) else (Err (ESubLayerAdd rc), w).

Definition add_filter (engine : Z) (f : wfilter) : M Z := λ w,
  let '(rc, fid, w) := we_add w engine f in
  if rc =? ERROR_SUCCESS then (Ok fid, w) else (Err (EFilterAdd rc), w).

Definition add_permit_filter (engine : Z) (layer : guid) (app_id layer_name : list Z) (sublayer_key : guid)
    : M Z :=
  add_filter engine (permit_filter layer app_id layer_name sublayer_key).

(** The filters of a list, one after the other; a failing one is skipped. *)
Fixpoint add_each (ms : list (M Z)) (w : W) : list Z * W :=
  match ms with
  | [] => ([], w)
  | m :: ms =>
      match m w with
      | (Ok id, w) => let '(ids, w) := add_each ms w in (id :: ids, w)
      | (_, w) => add_each ms w
      end
  end.

Definition add_own (engine : Z) (app_id : list Z) : W → list Z * W :=
  add_each ((λ nl, add_permit_filter engine nl.2 app_id nl.1 GUTD_SUBLAYER_KEY) <$> layers).

(** The filters of the enumerated sublayers: null entries and the own
    sublayer are skipped. *)
Definition foreign_adds (engine : Z) (app_id : list Z) (entries : list (option sublayer)) : list (M Z) :=
  entries ≫= λ e,
    match e with
    | None => []
    | Some s =>
        if guid_eq (sl_key s) GUTD_SUBLAYER_KEY then []
        else (λ nl, add_filter engine (foreign_filter nl.2 app_id nl.1 (sl_key s))) <$> layers
    end.

Definition add_permit_to_all_sublayers (engine : Z) (app_id : list Z) (w : W) : list Z * W :=
  let '(rc, enum_handle, w) := we_enum_create w engine in
  if negb (rc =? ERROR_SUCCESS) then ([], w)
  else
    let '(rc, entries, w) := we_enum w engine enum_handle BATCH in
    let '(ids, w) :=
      match entries with
      | Some entries => if rc =? ERROR_SUCCESS then add_each (foreign_adds engine app_id entries) w else ([], w)
      | None => ([], w)
      end in
    (ids, we_enum_destroy w engine enum_handle).

(** ** Installing, checking and removing *)

Definition has_engine (s : InstallState) : bool :=
  negb (engine s =? NULL) && negb (engine s =? INVALID_HANDLE_VALUE).

Definition verify (s : InstallState) (w : W) : res Z bool :=
  if negb (has_engine s) then Ok false
  else Ok (forallb (λ fid, we_get w (engine s) fid =? ERROR_SUCCESS) (filter_ids s)).

Definition teardown (s : InstallState) (w : W) : InstallState * W :=
  let w :=
    if has_engine s then
      let w := foldl (λ w fid, we_delete w (engine s) fid) w (filter_ids s) in
      let '(_, w) := we_sub_delete w (engine s) GUTD_SUBLAYER_KEY in
      we_close w (engine s)
    else w in
  (mkInstall NULL [], w).

(** The part of [install_once] after which the engine is closed on failure. *)
Definition install_filters (engine : Z) (exe_path_w : list Z) : M (list Z) := λ w,
  match add_sublayer engine w with
  | (Err e, w) => (Err e, w)
  | (Abort, w) => (Abort, w)
  | (Ok _, w) =>
      match we_app_id w exe_path_w with
      | (rc, None) => (Err (EAppId rc), w)
      | (rc, Some app_id) =>
          if negb (rc =? ERROR_SUCCESS) then (Err (EAppId rc), w)
          else
            let '(own, w) := add_own engine app_id w in
            let '(extra, w) := add_permit_to_all_sublayers engine app_id w in
            match own ++ extra with
            | [] => (Err ENoFilter, w)
            | ids => (Ok ids, w)
            end
      end
  end.

Definition install_once : M InstallState := λ w,
  match current_exe_path_w w with
  | Err e => (Err e, w)
  | Abort => (Abort, w)
  | Ok exe_path_w =>
      match open_engine w with
      | (Err e, w) => (Err e, w)
      | (Abort, w) => (Abort, w)
      | (Ok engine, w) =>
          match install_filters engine exe_path_w w with
          | (Ok ids, w) => (Ok (mkInstall engine ids), w)
          | (Err e, w) => (Err e, (teardown (mkInstall engine []) w).2)
          | (Abort, w) => (Abort, w)
          end
      end
  end.

(** ** The watchdog *)

Record watch := mkWatch { wd_state : InstallState; wd_failures : Z }.

(** What happens around one sleep: whether the loop's condition sees the stop
    flag, what others do to the platform meanwhile, and whether the flag is
    set afterwards. *)
Record wturn := mkWturn { wt_stop_before : bool; wt_others : W → W; wt_stop_after : bool }.

Inductive wend := Watching (s : watch) (w : W) | Stopped (w : W) | Exited (code : Z) (w : W) | Died.

(** What is done after the sleep; [None] when the process exits. *)
Definition check_filters (s : watch) (w : W) : res Z watch * W :=
  match verify (wd_state s) w with
  | Ok true => (Ok (mkWatch (wd_state s) 0), w)
  | Abort => (Abort, w)
  | _ =>
      let '(st, w) := teardown (wd_state s) w in
      match install_once w with
      | (Ok new_state, w) => (Ok (mkWatch new_state 0), w)
      | (Err _, w) =>
          let failures := wrapping_add 32 (wd_failures s) 1 in
          if MAX_CONSECUTIVE_FAILURES <=? failures then (Err 2, w) else (Ok (mkWatch st failures), w)
      | (Abort, w) => (Abort, w)
      end
  end.

Fixpoint watchdog_loop (s : watch) (ts : list wturn) (w : W) : wend :=
  match ts with
  | [] => Watching s w
  | t :: ts =>
      if wt_stop_before t then Stopped (teardown (wd_state s) w).2
      else
        let w := wt_others t w in
        if wt_stop_after t then Stopped (teardown (wd_state s) w).2
        else
          match check_filters s w with
          | (Ok s, w) => watchdog_loop s ts w
          | (Err code, w) => Exited code w
          | (Abort, w) => Died
          end
  end.

(** The state the watchdog starts with; [spawned] tells whether its thread
    could be made. *)
Definition install_for_self (spawned : bool) : M watch := λ w,
  let '(initial, w) :=
    match install_once w with
    | (Ok s, w) => (Ok s, w)
    | (Err _, w) => (Ok (mkInstall INVALID_HANDLE_VALUE []), w)
    | (Abort, w) => (Abort, w)
    end in
  match initial with
  | Ok s => if spawned then (Ok (mkWatch s 0), w) else (Err ESpawn, w)
  | Err e => (Err e, w)
  | Abort => (Abort, w)
  end.
End calls.
Arguments wturn : clear implicits.
Arguments wend : clear implicits.
