(* ===== verification/WinWfpProofs.v ===== *)
(** * Theory of the firewall bypass *)

From stdpp Require Import gmap.
From S2P Require Import Prelude Words Slices Text Results StrOps Links WinWfp.
Local Open Scope Z_scope.

(** ** What the filtering platform promises *)

Section platform.
  Context {W : Type} (filters logged : W → gmap Z wfilter) (handles : W → gset Z).

(** Neither filters nor handles change. *)
Record quiet (w w' : W) : Prop := {
  q_filters : filters w' = filters w;
  q_logged : logged w' = logged w;
  q_handles : handles w' = handles w
}.

(** Filters disappear, none but those of the sublayer. *)
Record cleared (key : guid) (w w' : W) : Prop := {
  cl_sub : filters w' ⊆ filters w;
  cl_keeps : ∀ id f, filters w !! id = Some f → fl_sublayer f ≠ key → filters w' !! id = Some f;
  cl_logged : logged w ⊆ logged w'
}.
End platform.

Class WfpLaws (W : Type) `{WfpEngine W} := {
  (** The filters in place, every filter there ever was by its identifier, the
      open handles, the path of the executable, and the identifier of a file. *)
  wl_filters : W → gmap Z wfilter;
  wl_logged : W → gmap Z wfilter;
  wl_handles : W → gset Z;
  wl_exe : list Z;
  wl_app : list Z → list Z;

  law_logged w : wl_filters w ⊆ wl_logged w;
  law_file_name w len : ∃ n buf, we_file_name w len = (n, buf) ∧
    (n = 0 ∨ if Z.of_nat (length wl_exe) <? len
             then n = Z.of_nat (length wl_exe) ∧ take (length wl_exe + 1) buf = wl_exe ++ [0]
             else n = len);
  law_app_id w path blob : we_app_id w path = (ERROR_SUCCESS, Some blob) → blob = wl_app path;
  law_we_open w a rc h w' : we_open w a = (rc, h, w') →
    wl_filters w' = wl_filters w ∧ wl_logged w' = wl_logged w ∧
    (rc = ERROR_SUCCESS → h ≠ NULL ∧ h ≠ INVALID_HANDLE_VALUE ∧ h ∉ wl_handles w ∧
       wl_handles w' = {[h]} ∪ wl_handles w) ∧
    (rc ≠ ERROR_SUCCESS → wl_handles w' = wl_handles w);
  law_we_close w h : wl_filters (we_close w h) = wl_filters w ∧ wl_logged (we_close w h) = wl_logged w ∧
    wl_handles (we_close w h) = wl_handles w ∖ {[h]};
  law_sub_add w h s rc w' : we_sub_add w h s = (rc, w') → quiet wl_filters wl_logged wl_handles w w';
  law_sub_delete w h key rc w' : we_sub_delete w h key = (rc, w') →
    cleared wl_filters wl_logged key w w' ∧ wl_handles w' = wl_handles w;
  law_enum_create w h rc eh w' : we_enum_create w h = (rc, eh, w') → quiet wl_filters wl_logged wl_handles w w';
  law_enum w h eh n rc es w' : we_enum w h eh n = (rc, es, w') → quiet wl_filters wl_logged wl_handles w w';
  law_enum_destroy w h eh : quiet wl_filters wl_logged wl_handles w (we_enum_destroy w h eh);
  law_add w h f rc id w' : we_add w h f = (rc, id, w') →
    (rc = ERROR_SUCCESS → wl_logged w !! id = None ∧ wl_filters w' = <[id := f]> (wl_filters w) ∧
       wl_logged w' = <[id := f]> (wl_logged w) ∧ wl_handles w' = wl_handles w) ∧
    (rc ≠ ERROR_SUCCESS → quiet wl_filters wl_logged wl_handles w w');
  law_get w h id : we_get w h id = ERROR_SUCCESS → is_Some (wl_filters w !! id);
  law_we_delete w h id : wl_logged (we_delete w h id) = wl_logged w ∧
    wl_handles (we_delete w h id) = wl_handles w ∧
    wl_filters (we_delete w h id) = if decide (h ∈ wl_handles w) then delete id (wl_filters w) else wl_filters w
}.

Section specs.
  Context {W : Type} `{WfpLaws W}.
  Local Abbreviation still := (quiet wl_filters wl_logged wl_handles).

#[global] Instance still_refl : Reflexive still.
Proof. by split. Qed.
#[global] Instance still_trans : Transitive still.
Proof. intros w1 w2 w3 [? ? ?] [? ? ?]. split; congruence. Qed.

(** ** The path of the executable *)

Lemma exe_path_loop_spec fuel len w : 0 < len → 32768 ≤ len * 2 ^ (Z.of_nat fuel - 1) → (0 < fuel)%nat →
  match exe_path_loop fuel len w with
  | Ok p => p = wl_exe ++ [0]
  | Err EPathTooLong => 32768 ≤ Z.of_nat (length wl_exe)
  | Err _ => True
  | Abort => False
  end.
Proof.
  revert len. induction fuel as [|fuel IH]; intros len Hlen Hf Hpos; [lia|]. cbn [exe_path_loop].
  destruct (law_file_name w len) as (n & buf & -> & Hn).
  destruct (Z.eqb_spec n 0) as [->|Hn0]; [done|]. destruct Hn as [|Hn]; [done|].
  destruct (Z.ltb_spec (Z.of_nat (length wl_exe)) len) as [Hlt|Hge].
  - destruct Hn as [-> Hb]. rewrite (proj2 (Z.ltb_lt _ _) Hlt), Nat2Z.id. done.
  - subst n. rewrite Z.ltb_irrefl. destruct (Z.leb_spec (32 * 1024) len) as [Hle|Hgt]; [lia|].
    destruct fuel as [|fuel]; [cbn in Hf; lia|]. apply IH; [lia| |lia].
    replace (Z.of_nat (S (S fuel)) - 1) with (1 + (Z.of_nat (S fuel) - 1)) in Hf by lia.
    rewrite Z.pow_add_r in Hf by lia. lia.
Qed.

Lemma current_exe_path_spec (w : W) :
  match current_exe_path_w w with
  | Ok p => p = wl_exe ++ [0]
  | Err EPathTooLong => 32768 ≤ Z.of_nat (length wl_exe)
  | Err _ => True
  | Abort => False
  end.
Proof. apply exe_path_loop_spec; [lia|cbn; lia|lia]. Qed.

(** ** Adding filters *)

(** A permit for the program in its own sublayer or, above every other
    filter, in the sublayer of another program. *)
Record permit (f : wfilter) : Prop := {
  pm_action : fl_action f = FWP_ACTION_PERMIT;
  pm_flags : fl_flags f = FWPM_FILTER_FLAG_CLEAR_ACTION_RIGHT;
  pm_app : fl_conditions f = [app_condition (wl_app (wl_exe ++ [0]))];
  pm_layer : fl_layer f ∈ layers.*2;
  pm_weight : fl_sublayer f = GUTD_SUBLAYER_KEY ∨ fl_weight f = WUint64 (2 ^ 64 - 1)
}.

(** The filters [ids] are new and satisfy [P]; nothing else changes. *)
Record gained (P : wfilter → Prop) (ids : list Z) (w w' : W) : Prop := {
  g_nodup : NoDup ids;
  g_new : ∀ id, id ∈ ids → wl_logged w !! id = None ∧ ∃ f, wl_filters w' !! id = Some f ∧ P f;
  g_rest : ∀ id, id ∉ ids → wl_filters w' !! id = wl_filters w !! id;
  g_logged : wl_logged w ⊆ wl_logged w';
  g_handles : wl_handles w' = wl_handles w
}.

Lemma still_gained P w w' : still w w' → gained P [] w w'.
Proof.
  intros [F L O]. split; [by apply NoDup_nil|by intros id ?%not_elem_of_nil| |by rewrite L|done].
  by rewrite F.
Qed.

Lemma gained_app P i j w1 w2 w3 : gained P i w1 w2 → gained P j w2 w3 → gained P (i ++ j) w1 w3.
Proof.
  intros [D1 N1 R1 L1 O1] [D2 N2 R2 L2 O2].
  assert (Hij : ∀ id, id ∈ i → id ∉ j).
  { intros id (_ & f & Hf & _)%N1 (Hn & _)%N2.
    by rewrite (lookup_weaken _ _ _ _ Hf (law_logged w2)) in Hn. }
  split; [by apply NoDup_app| | |by transitivity (wl_logged w2)|congruence].
  - intros id [Hi|Hj]%elem_of_app.
    + destruct (N1 id Hi) as (Hn & f & Hf & HP). split; [done|]. exists f. rewrite R2 by auto. done.
    + destruct (N2 id Hj) as (Hn & f & Hf & HP). split; [by eapply lookup_weaken_None|eauto].
  - intros id [Hi Hj]%not_elem_of_app. by rewrite R2, R1.
Qed.

(** One call that returns an identifier, or fails and changes nothing. *)
Definition adds (P : wfilter → Prop) (m : KM W werr Z) : Prop := ∀ w,
  match m w with
  | (Ok id, w') => gained P [id] w w'
  | (_, w') => still w w'
  end.

Lemma add_filter_adds (P : wfilter → Prop) h f : P f → adds P (add_filter h f).
Proof.
  intros HP w. unfold add_filter. destruct (we_add w h f) as [[rc id] w'] eqn:E.
  apply law_add in E as [A F]. destruct (Z.eqb_spec rc ERROR_SUCCESS) as [Hrc|Hrc]; [|by apply F].
  destruct (A Hrc) as (Hn & Ef & El & Eh). split; [by apply NoDup_singleton| | | |done].
  - intros id' ->%list_elem_of_singleton. split; [done|]. exists f. by rewrite Ef, lookup_insert_eq.
  - intros id' Hid. rewrite Ef. apply lookup_insert_ne. intros ->. apply Hid. by apply list_elem_of_singleton.
  - rewrite El. by apply insert_subseteq.
Qed.

Lemma add_each_gained P ms w ids w' : Forall (adds P) ms → add_each ms w = (ids, w') → gained P ids w w'.
Proof.
  intros Hm. revert w ids. induction Hm as [|m ms Hm Hms IH]; intros w ids; cbn [add_each].
  { intros [= <- <-]. by apply still_gained. }
  specialize (Hm w). destruct (m w) as [[id|e|] w1].
  - destruct (add_each ms w1) as [ids1 w2] eqn:E. intros [= <- <-].
    apply (gained_app P [id] ids1 w w1 w2); [done|by apply IH].
  - intros E. apply (gained_app P [] ids w w1 w'); [by apply still_gained|by apply IH].
  - intros E. apply (gained_app P [] ids w w1 w'); [by apply still_gained|by apply IH].
Qed.

(** ** Installing *)

Local Abbreviation clears := (cleared wl_filters wl_logged GUTD_SUBLAYER_KEY).

#[global] Instance clears_trans : Transitive clears.
Proof.
  intros w1 w2 w3 [S1 K1 L1] [S2 K2 L2]. split; [by transitivity (wl_filters w2)| |by transitivity (wl_logged w2)].
  intros id f Hf Hk. by apply K2; [apply K1|].
Qed.

Lemma same_clears w w' : wl_filters w' = wl_filters w → wl_logged w' = wl_logged w → clears w w'.
Proof. intros F L. split; by rewrite ?F, ?L. Qed.

Lemma permit_filter_permit nl : nl ∈ layers →
  permit (permit_filter nl.2 (wl_app (wl_exe ++ [0])) nl.1 GUTD_SUBLAYER_KEY).
Proof. intros Hl. split; [done..| |by left]. apply (list_elem_of_fmap_2 snd layers nl Hl). Qed.

Lemma foreign_filter_permit nl key : nl ∈ layers →
  permit (foreign_filter nl.2 (wl_app (wl_exe ++ [0])) nl.1 key).
Proof. intros Hl. split; [done..| |by right]. apply (list_elem_of_fmap_2 snd layers nl Hl). Qed.

Lemma add_own_gained h w ids w' : add_own h (wl_app (wl_exe ++ [0])) w = (ids, w') → gained permit ids w w'.
Proof.
  apply add_each_gained, Forall_fmap, Forall_forall. intros nl Hl.
  by apply add_filter_adds, permit_filter_permit.
Qed.

Lemma add_foreign_gained h w ids w' :
  add_permit_to_all_sublayers h (wl_app (wl_exe ++ [0])) w = (ids, w') → gained permit ids w w'.
Proof.
  unfold add_permit_to_all_sublayers. destruct (we_enum_create w h) as [[rc eh] w1] eqn:E1.
  apply law_enum_create in E1. destruct (rc =? ERROR_SUCCESS); cbn [negb]; [|by intros [= <- <-]; apply still_gained].
  destruct (we_enum w1 h eh BATCH) as [[rc2 es] w2] eqn:E2. apply law_enum in E2.
  assert (S2 : still w w2) by by transitivity w1.
  assert (Hskip : gained permit [] w w2) by by apply still_gained.
  assert (Hend : ∀ ids w3, gained permit ids w2 w3 → gained permit ids w (we_enum_destroy w3 h eh)).
  { intros ids' w3 Hg. rewrite <- (app_nil_r ids'). eapply gained_app; [|apply still_gained, law_enum_destroy].
    apply (gained_app permit [] ids' w w2 w3 Hskip Hg). }
  destruct es as [es|]; [destruct (rc2 =? ERROR_SUCCESS)|];
    [|by intros [= <- <-]; apply Hend, still_gained..].
  destruct (add_each _ w2) as [ids' w3] eqn:E3. intros [= <- <-]. apply Hend.
  eapply add_each_gained, E3. apply Forall_forall. intros m (e & Hm & _)%list_elem_of_bind.
  destruct e as [s|]; [|by apply not_elem_of_nil in Hm].
  destruct (guid_eq _ _); [by apply not_elem_of_nil in Hm|].
  apply list_elem_of_fmap in Hm as (nl & -> & Hl). by apply add_filter_adds, foreign_filter_permit.
Qed.

Lemma add_sublayer_clears h w r w' : add_sublayer h w = (r, w') →
  clears w w' ∧ wl_handles w' = wl_handles w ∧ r ≠ Abort.
Proof.
  unfold add_sublayer. destruct (we_sub_delete w h _) as [rd w1] eqn:E1. apply law_sub_delete in E1 as [C1 H1].
  destruct (we_sub_add w1 h _) as [rc w2] eqn:E2. apply law_sub_add in E2 as [F2 L2 O2].
  assert (clears w w2) by (transitivity w1; [done|by apply same_clears]).
  destruct (rc =? ERROR_SUCCESS); intros [= <- <-]; split_and!; congruence.
Qed.

Lemma install_filters_spec h w r w' : install_filters h (wl_exe ++ [0]) w = (r, w') →
  wl_handles w' = wl_handles w ∧ r ≠ Abort ∧
  match r with
  | Ok ids => ids ≠ [] ∧ ∃ w1, clears w w1 ∧ gained permit ids w1 w'
  | _ => clears w w'
  end.
Proof.
  unfold install_filters. destruct (add_sublayer h w) as [rs w1] eqn:E1.
  apply add_sublayer_clears in E1 as (C1 & O1 & A1).
  destruct rs as [[]|e|]; [|by intros [= <- <-]|done].
  destruct (we_app_id w1 (wl_exe ++ [0])) as [rc [app|]] eqn:Ea; [|by intros [= <- <-]].
  destruct (Z.eqb_spec rc ERROR_SUCCESS) as [->|]; cbn [negb]; [|by intros [= <- <-]].
  apply law_app_id in Ea as ->. destruct (add_own h _ w1) as [own w2] eqn:E2. apply add_own_gained in E2.
  destruct (add_permit_to_all_sublayers h _ w2) as [extra w3] eqn:E3. apply add_foreign_gained in E3.
  pose proof (gained_app _ _ _ _ _ _ E2 E3) as Hg.
  destruct (own ++ extra) as [|id ids] eqn:El; intros [= <- <-].
  - destruct Hg as [_ _ R L O]. split_and!; [congruence|done|]. transitivity w1; [done|].
    assert (F : wl_filters w3 = wl_filters w1) by (apply map_eq; intros i; apply R, not_elem_of_nil).
    split; by rewrite ?F.
  - split_and!; [by destruct Hg as [_ _ _ _ ->]; rewrite O1|done..|]. by exists w1.
Qed.

(** ** Removing *)

Lemma delete_all w h ids : ∃ w', foldl (λ w fid, we_delete w h fid) w ids = w' ∧
  wl_logged w' = wl_logged w ∧ wl_handles w' = wl_handles w ∧
  (∀ id, id ∉ ids → wl_filters w' !! id = wl_filters w !! id) ∧
  (∀ id, id ∈ ids → h ∈ wl_handles w → wl_filters w' !! id = None) ∧ wl_filters w' ⊆ wl_filters w.
Proof.
  eexists. split; [done|]. induction ids as [|id ids IH] using rev_ind; cbn.
  { split_and!; [done..| |done]. by intros id ?%not_elem_of_nil. }
  rewrite foldl_snoc. destruct IH as (L & O & K & G & S).
  destruct (law_we_delete (foldl (λ w fid, we_delete w h fid) w ids) h id) as (Ld & Od & Fd).
  rewrite O in Fd. split_and!; [congruence..| | |].
  - intros i [Hi Hn]%not_elem_of_app. rewrite <- (K i Hi), Fd. case_decide; [|done].
    apply lookup_delete_ne. intros ->. apply Hn. by apply list_elem_of_singleton.
  - intros i Hi Hh. rewrite Fd, decide_True by done.
    apply elem_of_app in Hi as [Hi| ->%list_elem_of_singleton]; [|apply lookup_delete_eq].
    destruct (decide (i = id)) as [->|]; [apply lookup_delete_eq|]. rewrite lookup_delete_ne by done. auto.
  - rewrite Fd. case_decide; [|done]. transitivity (wl_filters (foldl (λ w fid, we_delete w h fid) w ids)); [|done].
    apply delete_subseteq.
Qed.

Lemma teardown_spec s w : ∃ w', teardown s w = (mkInstall NULL [], w') ∧
  wl_logged w ⊆ wl_logged w' ∧ wl_filters w' ⊆ wl_filters w ∧
  wl_handles w' = (if has_engine s then wl_handles w ∖ {[engine s]} else wl_handles w) ∧
  (∀ id f, wl_filters w !! id = Some f → id ∉ filter_ids s → fl_sublayer f ≠ GUTD_SUBLAYER_KEY →
     wl_filters w' !! id = Some f) ∧
  (∀ id, id ∈ filter_ids s → has_engine s = true → engine s ∈ wl_handles w → wl_filters w' !! id = None).
Proof.
  unfold teardown. destruct (has_engine s); [|by eexists].
  destruct (delete_all w (engine s) (filter_ids s)) as (w1 & -> & L1 & O1 & K1 & G1 & S1).
  destruct (we_sub_delete w1 (engine s) GUTD_SUBLAYER_KEY) as [rd w2] eqn:E2.
  apply law_sub_delete in E2 as [[S2 K2 L2] O2]. destruct (law_we_close w2 (engine s)) as (F3 & L3 & O3).
  eexists. split; [done|]. rewrite F3, L3, O3, O2, O1. split_and!.
  - by rewrite <- L1.
  - by transitivity (wl_filters w1).
  - done.
  - intros id f Hf Hid Hk. apply K2; [by rewrite K1|done].
  - intros id Hid _ Hh. destruct (wl_filters w2 !! id) as [f|] eqn:Hf; [|done].
    pose proof (lookup_weaken _ _ _ _ Hf S2) as Hf1. by rewrite (G1 id Hid Hh) in Hf1.
Qed.

(** ** The whole installation *)

Definition holds (s : InstallState) (w : W) : Prop :=
  has_engine s = true ∧ filter_ids s ≠ [] ∧ ∀ id, id ∈ filter_ids s → ∃ f, wl_filters w !! id = Some f ∧ permit f.

Lemma install_once_spec w r w' : install_once w = (r, w') →
  (∀ s, r = Ok s → holds s w' ∧ NoDup (filter_ids s) ∧ engine s ∉ wl_handles w ∧
     wl_handles w' = {[engine s]} ∪ wl_handles w ∧
     (∀ id, id ∈ filter_ids s → wl_logged w !! id = None) ∧
     (∀ id f, wl_filters w' !! id = Some f → id ∈ filter_ids s ∨ wl_filters w !! id = Some f)) ∧
  (∀ e, r = Err e → wl_handles w' = wl_handles w ∧ wl_filters w' ⊆ wl_filters w) ∧
  (∀ id f, wl_filters w !! id = Some f → fl_sublayer f ≠ GUTD_SUBLAYER_KEY → wl_filters w' !! id = Some f) ∧
  wl_logged w ⊆ wl_logged w' ∧ r ≠ Abort.
Proof.
  unfold install_once. pose proof (current_exe_path_spec w) as He.
  destruct (current_exe_path_w w) as [exe|e|]; [|by intros [= <- <-]|done]. subst exe.
  unfold open_engine. destruct (we_open w RPC_C_AUTHN_WINNT) as [[rc h] w1] eqn:E1.
  apply law_we_open in E1 as (F1 & L1 & G1 & B1).
  destruct (Z.eqb_spec rc ERROR_SUCCESS) as [Hrc|Hrc].
  2:{ intros [= <- <-]. rewrite F1, L1. split_and!; [done| |done..].
      intros ? _. split; [by apply B1|done]. }
  destruct (G1 Hrc) as (Hn & Hi & Hf & O1). clear G1 B1.
  assert (He : ∀ ids, has_engine (mkInstall h ids) = true).
  { intros ids. unfold has_engine. cbn [engine]. by rewrite (proj2 (Z.eqb_neq _ _) Hn), (proj2 (Z.eqb_neq _ _) Hi). }
  destruct (install_filters h (wl_exe ++ [0]) w1) as [ri w2] eqn:E2.
  apply install_filters_spec in E2 as (O2 & A2 & R2). destruct ri as [ids|e|]; [| |done].
  - destruct R2 as (Hne & wc & [Sc Kc Lc] & [Dg Ng Rg Lg Og]). intros [= <- <-].
    split_and!; [|done| | |done].
    + intros s [= <-]. cbn [engine filter_ids]. split_and!; [split_and!; [done..|]|done..| | |].
      * intros id Hid. by destruct (Ng id Hid) as [_ ?].
      * congruence.
      * intros id Hid. destruct (Ng id Hid) as [Hl _]. rewrite <- L1. by eapply lookup_weaken_None.
      * intros id f Hid. destruct (decide (id ∈ ids)) as [|Hni]; [by left|right].
        rewrite Rg in Hid by done. rewrite <- F1. by eapply lookup_weaken.
    + intros id f Hid Hk. rewrite <- F1 in Hid. pose proof (Kc id f Hid Hk) as Hc.
      rewrite Rg; [done|]. intros Hin. destruct (Ng id Hin) as [Hl _].
      by rewrite (lookup_weaken _ _ _ _ Hc (law_logged wc)) in Hl.
    + rewrite <- L1. by transitivity (wl_logged wc).
  - destruct R2 as [Sc Kc Lc]. destruct (teardown_spec (mkInstall h []) w2) as (w3 & -> & L3 & S3 & O3 & K3 & _).
    intros [= <- <-]. cbn [snd]. split_and!; [done| | | |done].
    + intros ? _. rewrite O3, He, O2, O1, <- F1. cbn [engine].
      split; [set_solver|by transitivity (wl_filters w2)].
    + intros id f Hid Hk. apply K3; [|by apply not_elem_of_nil|done]. apply Kc; [by rewrite F1|done].
    + rewrite <- L1. by transitivity (wl_logged w2).
Qed.

(** C36: installing the bypass.  A successful installation has opened one
    handle and holds at least one filter; its filters are new, permit the
    program and nothing else, and in the sublayers of other programs they have
    the greatest weight there is.  A failed one has closed its handle and left
    no filter.  Neither removes a filter of another program, and removing an
    installation gives back the handles and, outside the own sublayer, the
    filters there were before. *)
Theorem bypass_installed w r w' : install_once w = (r, w') →
  (∀ s, r = Ok s → holds s w' ∧ NoDup (filter_ids s) ∧ wl_handles w' = {[engine s]} ∪ wl_handles w ∧
     (∀ id f, wl_filters w' !! id = Some f → id ∈ filter_ids s ∨ wl_filters w !! id = Some f)) ∧
  (∀ e, r = Err e → wl_handles w' = wl_handles w ∧ wl_filters w' ⊆ wl_filters w) ∧
  (∀ id f, wl_filters w !! id = Some f → fl_sublayer f ≠ GUTD_SUBLAYER_KEY → wl_filters w' !! id = Some f) ∧
  (∀ s, r = Ok s → let w2 := (teardown s w').2 in
     wl_handles w2 = wl_handles w ∧ wl_filters w2 ⊆ wl_filters w ∧
     (∀ id f, wl_filters w !! id = Some f → fl_sublayer f ≠ GUTD_SUBLAYER_KEY → wl_filters w2 !! id = Some f)) ∧
  r ≠ Abort.
Proof.
  intros (Hok & Herr & Hkeep & HL & Ha)%install_once_spec. split_and!; [|done..| |done].
  { intros s Hs. by destruct (Hok s Hs) as (? & ? & _ & ? & _ & ?). }
  intros s Hs w2. destruct (Hok s Hs) as (Hh & Hd & Hf & Ho & Hnew & Hsub). subst w2.
  destruct (teardown_spec s w') as (w2 & -> & _ & S2 & O2 & K2 & G2). cbn [snd].
  destruct Hh as (He & _ & _). rewrite O2, He, Ho. split_and!; [set_solver| |].
  - apply map_subseteq_spec. intros id f Hid. destruct (Hsub id f) as [Hin|]; [by eapply lookup_weaken| |done].
    rewrite G2 in Hid; [done|done|done|set_solver].
  - intros id f Hid Hk. apply K2; [by apply Hkeep| |done]. intros Hin.
    pose proof (Hnew id Hin) as Hl. by rewrite (lookup_weaken _ _ _ _ Hid (law_logged w)) in Hl.
Qed.

(** ** The watchdog *)

(** Identifiers are not reused. *)
Definition later (w w' : W) : Prop := wl_logged w ⊆ wl_logged w'.

(** The filters of the state were permits when they were added. *)
Definition recorded (s : InstallState) (w : W) : Prop :=
  (has_engine s = true → filter_ids s ≠ []) ∧ (has_engine s = false → filter_ids s = []) ∧
  ∀ id, id ∈ filter_ids s → ∃ f, wl_logged w !! id = Some f ∧ permit f.

Definition watching (s : watch) (w : W) : Prop :=
  recorded (wd_state s) w ∧ 0 ≤ wd_failures s < MAX_CONSECUTIVE_FAILURES.

Lemma recorded_later s w w' : later w w' → recorded s w → recorded s w'.
Proof.
  intros Hl (E & N & R). split_and!; [done..|]. intros id (f & Hf & Hp)%R. exists f. split; [|done].
  by eapply lookup_weaken.
Qed.

Lemma holds_recorded s w : holds s w → recorded s w.
Proof.
  intros (He & Hn & Hf). split_and!; [done|by rewrite He|]. intros id (f & ? & ?)%Hf. exists f.
  split; [|done]. eapply lookup_weaken; [done|apply law_logged].
Qed.

Lemma recorded_none w h : has_engine (mkInstall h []) = false → recorded (mkInstall h []) w.
Proof. intros He. split_and!; [by rewrite He|done|]. by intros id ?%not_elem_of_nil. Qed.

Lemma verify_holds s w : recorded s w → verify s w = Ok true → holds s w.
Proof.
  unfold verify. intros (E & _ & R). destruct (has_engine s) eqn:He; cbn [negb]; [|done].
  intros [= Hg]. split_and!; [done|by apply E|]. intros id Hid. destruct (R id Hid) as (f & Hf & Hp).
  rewrite forallb_forall in Hg. specialize (Hg id). rewrite Z.eqb_eq in Hg.
  destruct (law_get w (engine s) id) as [f' Hf']; [by apply Hg, list_elem_of_In|].
  exists f'. split; [done|]. pose proof (lookup_weaken _ _ _ _ Hf' (law_logged w)). congruence.
Qed.

Lemma verify_ok s w : ∃ b, verify (W:=W) s w = Ok b.
Proof. unfold verify. destruct (has_engine s); by eexists. Qed.

Lemma check_filters_spec s w r w' : watching s w → check_filters s w = (r, w') → later w w' ∧
  match r with
  | Ok s' => watching s' w' ∧
      (holds (wd_state s') w' ∧ wd_failures s' = 0 ∨
       (∃ e, (install_once (teardown (wd_state s) w).2).1 = Err e) ∧ wd_failures s' = wd_failures s + 1)
  | Err code => code = 2 ∧ wd_failures s = MAX_CONSECUTIVE_FAILURES - 1
  | Abort => False
  end.
Proof.
  intros [R F]. unfold check_filters. destruct (verify_ok (wd_state s) w) as [[] Hv]; rewrite Hv.
  { intros [= <- <-]. pose proof (verify_holds _ _ R Hv). split; [by unfold later|].
    split; [split; [done|by unfold MAX_CONSECUTIVE_FAILURES]|by left]. }
  destruct (teardown_spec (wd_state s) w) as (w1 & -> & L1 & _). cbn [snd].
  destruct (install_once w1) as [ri w2] eqn:E2. apply install_once_spec in E2 as (Hok & _ & _ & L2 & Ha).
  assert (Hl : later w w2) by (unfold later; by transitivity (wl_logged w1)).
  destruct ri as [s2|e|]; [| |done].
  - intros [= <- <-]. destruct (Hok s2 eq_refl) as (Hh & _). split; [done|].
    split; [split; [by apply holds_recorded|by unfold MAX_CONSECUTIVE_FAILURES]|by left].
  - assert (Hw : wrapping_add 32 (wd_failures s) 1 = wd_failures s + 1).
    { unfold wrapping_add. apply wrap_small. unfold MAX_CONSECUTIVE_FAILURES in F. width. }
    rewrite Hw. destruct (Z.leb_spec MAX_CONSECUTIVE_FAILURES (wd_failures s + 1)) as [Hm|Hm]; intros [= <- <-].
    + split; [done|]. split; [done|lia].
    + split; [done|]. split; [split; [by apply recorded_none|cbn; lia]|]. right. split; [by exists e|done].
Qed.

Lemma watchdog_loop_spec s ts w : watching s w → Forall (λ t, ∀ w, later w (wt_others t w)) ts →
  match watchdog_loop s ts w with
  | Watching s' w' => watching s' w' ∧ wd_failures s' ≤ wd_failures s + Z.of_nat (length ts)
  | Stopped w' => ∃ st w1, recorded st w1 ∧ w' = (teardown st w1).2
  | Exited code _ => code = 2 ∧ MAX_CONSECUTIVE_FAILURES ≤ wd_failures s + Z.of_nat (length ts)
  | Died => False
  end.
Proof.
  intros Hs Hts. revert s w Hs. induction Hts as [|t ts Ht Hts IH]; intros s w Hs; cbn [watchdog_loop length].
  { split; [done|lia]. }
  destruct Hs as [R F]. destruct (wt_stop_before t); [by exists (wd_state s), w|].
  specialize (Ht w). apply (recorded_later _ _ _ Ht) in R.
  destruct (wt_stop_after t); [by exists (wd_state s), (wt_others t w)|].
  destruct (check_filters s (wt_others t w)) as [r w2] eqn:E.
  destruct (check_filters_spec s _ r w2 (conj R F) E) as [_ Hr]. destruct r as [s2|code|]; [| |done].
  - destruct Hr as [Hw Hf]. specialize (IH s2 w2 Hw).
    assert (wd_failures s2 ≤ wd_failures s + 1) by (destruct Hf as [[_ ->]|[_ ->]]; lia).
    destruct (watchdog_loop s2 ts w2); [|done| |done]; destruct IH; split; try done; lia.
  - destruct Hr as [-> Hf]. split; [done|lia].
Qed.

End specs.

(** ** A platform that keeps the laws *)

(** Every filter there ever was, the ones in place, the handles, and the
    sublayers. *)
Record sim_wfp := mkSimWfp {
  sw_logged : gmap Z wfilter;
  sw_live : gset Z;
  sw_handles : gset Z;
  sw_subs : list sublayer;
  sw_opens : bool
}.
Definition sw_filters (w : sim_wfp) : gmap Z wfilter := filter (λ kv, kv.1 ∈ sw_live w) (sw_logged w).
Definition sim_exe : list Z := bs "C:\gutd\gutd.exe".

Lemma sw_lookup w id : sw_filters w !! id = if decide (id ∈ sw_live w) then sw_logged w !! id else None.
Proof.
  unfold sw_filters. apply option_eq. intros f. rewrite map_lookup_filter_Some. cbn.
  case_decide; naive_solver.
Qed.

Definition sim_kept (w : sim_wfp) (key : guid) : gset Z :=
  filter (λ id, match sw_logged w !! id with
                | Some f => bool_decide (fl_sublayer f ≠ key)
                | None => true
                end = true) (sw_live w).

#[global] Instance sim_wfp_engine : WfpEngine sim_wfp := {|
  we_file_name _ len :=
    let n := Z.of_nat (length sim_exe) in
    if n <? len then (n, sim_exe ++ [0]) else (len, take (Z.to_nat len) sim_exe);
  we_last_error _ := 0;
  we_open w _ :=
    if sw_opens w then
      let h := fresh ({[NULL; INVALID_HANDLE_VALUE]} ∪ sw_handles w) in
      (ERROR_SUCCESS, h, mkSimWfp (sw_logged w) (sw_live w) ({[h]} ∪ sw_handles w) (sw_subs w) true)
    else (1753, NULL, w);
  we_close w h := mkSimWfp (sw_logged w) (sw_live w) (sw_handles w ∖ {[h]}) (sw_subs w) (sw_opens w);
  we_app_id _ path := (ERROR_SUCCESS, Some path);
  we_sub_add w _ s := (ERROR_SUCCESS, mkSimWfp (sw_logged w) (sw_live w) (sw_handles w) (sw_subs w ++ [s]) (sw_opens w));
  we_sub_delete w _ key :=
    (ERROR_SUCCESS, mkSimWfp (sw_logged w) (sim_kept w key) (sw_handles w)
                      (filter (λ s, sl_key s ≠ key) (sw_subs w)) (sw_opens w));
  we_enum_create w _ := (ERROR_SUCCESS, 1, w);
  we_enum w _ _ n := (ERROR_SUCCESS, Some (Some <$> take (Z.to_nat n) (sw_subs w)), w);
  we_enum_destroy w _ _ := w;
  we_add w _ f :=
    let id := fresh (dom (sw_logged w)) in
    (ERROR_SUCCESS, id, mkSimWfp (<[id := f]> (sw_logged w)) ({[id]} ∪ sw_live w) (sw_handles w) (sw_subs w) (sw_opens w));
  we_get w _ id := if decide (is_Some (sw_filters w !! id)) then ERROR_SUCCESS else 2;
  we_delete w h id :=
    if decide (h ∈ sw_handles w)
    then mkSimWfp (sw_logged w) (sw_live w ∖ {[id]}) (sw_handles w) (sw_subs w) (sw_opens w) else w;
  we_open_token _ := Some 1;
  we_token_elevation _ _ := (1, 1)
|}.

Lemma sim_add_filters w id f live : sw_logged w !! id = None → 
  sw_filters (mkSimWfp (<[id := f]> (sw_logged w)) ({[id]} ∪ sw_live w) live (sw_subs w) (sw_opens w))
  = <[id := f]> (sw_filters w).
Proof.
  intros Hn. apply map_eq. intros i. rewrite sw_lookup. cbn [sw_live sw_logged].
  destruct (decide (i = id)) as [->|Hi].
  - rewrite !lookup_insert_eq, decide_True by set_solver. done.
  - rewrite !lookup_insert_ne, sw_lookup by done. by apply decide_ext; set_solver.
Qed.

#[global] Instance sim_wfp_laws : WfpLaws sim_wfp.
Proof.
  refine {| wl_filters := sw_filters; wl_logged := sw_logged; wl_handles := sw_handles;
            wl_exe := sim_exe; wl_app path := path |};
    cbn [we_file_name we_open we_close we_app_id we_sub_add we_sub_delete we_enum_create we_enum
         we_enum_destroy we_add we_get we_delete sim_wfp_engine].
  - intros w. apply map_filter_subseteq.
  - intros _ len. destruct (Z.ltb_spec (Z.of_nat (length sim_exe)) len); eexists _, _; split; try done; by right.
  - by intros _ path blob [= ->].
  - intros w _ rc h w'. destruct (sw_opens w); intros [= <- <- <-]; [|done].
    pose proof (is_fresh ({[NULL; INVALID_HANDLE_VALUE]} ∪ sw_handles w)) as Hf.
    split_and!; [done..| |done]. intros _. set_solver.
  - done.
  - intros w h s rc w' [= _ <-]. by split.
  - intros w h key rc w' [= _ <-]. split; [|done]. split; [| |done].
    + apply map_subseteq_spec. intros id f. rewrite !sw_lookup. cbn [sw_live sw_logged]. unfold sim_kept.
      case_decide as Hd; [|done]. intros ?. rewrite decide_True; [done|]. set_solver.
    + intros id f. rewrite !sw_lookup. cbn [sw_live sw_logged]. case_decide as Hd; [|done]. intros Hf Hk.
      rewrite decide_True; [done|]. unfold sim_kept. apply elem_of_filter. rewrite Hf.
      split; [by apply bool_decide_true|done].
  - by intros w h rc eh w' [= _ _ <-].
  - by intros w h eh n rc es w' [= _ _ <-].
  - done.
  - intros w h f rc id w' [= <- <- <-]. split; [intros _|done].
    assert (Hn : sw_logged w !! fresh (dom (sw_logged w)) = None) by apply not_elem_of_dom, is_fresh.
    split_and!; [done| |done..]. by apply sim_add_filters.
  - intros w h id. case_decide; [done|]. done.
  - intros w h id. destruct (decide (h ∈ sw_handles w)) as [Hh|Hh]; [|done].
    split_and!; [done..|]. cbn [sw_handles]. apply map_eq. intros i. rewrite sw_lookup. cbn [sw_live sw_logged].
    destruct (decide (i = id)) as [->|Hi].
    + rewrite lookup_delete_eq, decide_False by set_solver. done.
    + rewrite lookup_delete_ne, sw_lookup by done. by apply decide_ext; set_solver.
Defined.

(** ** Witnesses *)

(** A platform where a tunnel client has a sublayer with a filter that blocks
    everything. *)
Definition tunnel_sub : sublayer := mkSub (mkGuid 1 2 3 []) (bs "WireGuard") [] 0 0xFFFF.
Definition block_all : wfilter :=
  mkFilter (bs "block all") FWPM_LAYER_ALE_AUTH_CONNECT_V4 (sl_key tunnel_sub) (WUint64 0) [] 0x1001 0.
Definition tunnel_up : sim_wfp := mkSimWfp {[5 := block_all]} {[5]} ∅ [tunnel_sub] true.

Lemma bypass_installed_witness : ∃ s w',
  install_once tunnel_up = (Ok s, w') ∧ length (filter_ids s) = 12%nat ∧ holds s w' ∧
  sw_filters w' !! 5 = Some block_all ∧ sw_handles (teardown s w').2 = ∅.
Proof.
  destruct (install_once tunnel_up) as [r w'] eqn:E.
  destruct (bypass_installed tunnel_up r w' E) as (Hok & _ & Hk & Ht & _).
  assert (Hr : match r with Ok s => length (filter_ids s) = 12%nat | _ => False end).
  { revert E. vm_compute. by intros [= <- <-]. }
  destruct r as [s|e|]; [|destruct Hr..]. exists s, w'. split; [reflexivity|]. split; [exact Hr|]. split; [|split].
  - exact (proj1 (Hok s eq_refl)).
  - apply (Hk 5 block_all); [by vm_compute|discriminate].
  - exact (proj1 (Ht s eq_refl)).
Defined.

(** The filters are deleted by another program and put back in the next
    turn. *)
Definition all_gone (w : sim_wfp) : sim_wfp := mkSimWfp (sw_logged w) ∅ (sw_handles w) (sw_subs w) (sw_opens w).

