(* ===== verification/Sockets.v ===== *)
(** * userspace.rs: the sockets and threads of [run]

    [run] after its setup: the external sockets, one per port, the socket
    towards WireGuard, their options, and the threads that use them.  The
    calls to the system are recorded in order; what [bind] and [spawn] answer
    is a parameter that may depend on all earlier calls.  The results of the
    other calls are ignored by the code.  What [run] does on Windows before,
    which chooses the address to bind to, comes first. *)

From stdpp Require Import gmap.
From S2P Require Import Prelude Words Slices Text ChaCha Obfs Results StrOps Net Config.
From S2P Require Import ConfigProofs SharedAddr Proxy ProxyTotal ProxySetup Threads Links Routes.
From S2P Require Import Loader WinRoute WinRouteProofs WinWfp WinWfpProofs.
Local Open Scope Z_scope.

(** ** The start of the proxy on Windows: [run] of [src/src/userspace.rs]

    What [run] does between the addresses and the sockets: pinning the route
    ([WinRoute]) and starting the bypass ([WinWfp]), for a client with a static
    peer. *)

Section setup.
  Context {N W : Type} `{WinNetLaws N} `{WfpLaws W}.

(** The process exits, [run] returns an error, or it goes on with the route,
    the watchdog and the address to bind to. *)
Inductive wsetup :=
| SetupExit (code : Z)
| SetupErr (e : werr)
| SetupReady (pinned : option PinnedRoute) (bypass : option watch) (bind : IpAddr).

Definition effective_bind_ip (bind_ip : IpAddr) (pinned : option PinnedRoute) : IpAddr :=
  if is_unspecified bind_ip then
    match pinned with
    | Some pr => pr_source pr
    | None => bind_ip
    end
  else bind_ip.

(** [ensure_admin] ends the process; a failed pin is only reported. *)
Definition pin_route (is_server dynamic_peer : bool) (remote_peer_addr : option SocketAddr) (n : N) (w : W)
    : (Z + option PinnedRoute) * N :=
  if negb is_server && negb dynamic_peer then
    match remote_peer_addr with
    | Some addr =>
        match ensure_admin w with
        | Some code => (inl code, n)
        | None =>
            match pin_route_to_peer (sa_ip addr) n with
            | (Ok pr, n) => (inr (Some pr), n)
            | (_, n) => (inr None, n)
            end
        end
    | None => (inr None, n)
    end
  else (inr None, n).

(** When the watchdog cannot be started, [run] returns and the route is
    dropped. *)
Definition windows_setup (is_server dynamic_peer : bool) (remote_peer_addr : option SocketAddr)
    (bind_ip : IpAddr) (spawned : bool) (n : N) (w : W) : wsetup * N * W :=
  match pin_route is_server dynamic_peer remote_peer_addr n w with
  | (inl code, n) => (SetupExit code, n, w)
  | (inr pinned, n) =>
      if negb is_server && negb dynamic_peer && bool_decide (is_Some remote_peer_addr) then
        match install_for_self spawned w with
        | (Ok b, w) => (SetupReady pinned (Some b) (effective_bind_ip bind_ip pinned), n, w)
        | (Err e, w) => (SetupErr e, match pinned with Some pr => drop_pinned pr n | None => n end, w)
        | (Abort, w) => (SetupExit 134, n, w)
        end
      else (SetupReady pinned None (effective_bind_ip bind_ip pinned), n, w)
  end.

Lemma install_for_self_ok spawned w : ∃ r w', install_for_self (W:=W) spawned w = (r, w') ∧
  (spawned = true → ∃ s, r = Ok s) ∧ (spawned = false → r = Err ESpawn).
Proof.
  unfold install_for_self. destruct (install_once w) as [r w'] eqn:E. apply install_once_spec in E as (_ & _ & _ & _ & Ha).
  destruct r as [s|e|]; [| |done]; destruct spawned; eexists _, _; (split; [done|]); split; eauto; done.
Qed.

(** The setup on Windows.  A server, or a client whose peer is dynamic,
    touches neither routes nor filters and binds to the configured address.  A
    client with a static peer exits when it is not elevated, without touching
    anything; otherwise it goes on unless the watchdog's thread cannot be made,
    in which case no route is left behind.  It binds to the configured address,
    or to the source of the pinned route, which has the family of the peer. *)
Theorem windows_setup_correct is_server dynamic_peer remote bind spawned (n : N) (w : W) r n' w' :
  windows_setup is_server dynamic_peer remote bind spawned n w = (r, n', w') →
  (is_server = true ∨ dynamic_peer = true ∨ remote = None → r = SetupReady None None bind ∧ n' = n ∧ w' = w) ∧
  (∀ addr, is_server = false → dynamic_peer = false → remote = Some addr →
     match r with
     | SetupExit code => code = 1 ∧ is_elevated w = false ∧ n' = n ∧ w' = w
     | SetupErr e => e = ESpawn ∧ spawned = false ∧ is_elevated w = true ∧ spared_by (sa_ip addr) n n'
     | SetupReady pinned bypass b =>
         spawned = true ∧ is_elevated w = true ∧
         (∃ s, bypass = Some s ∧ install_for_self true w = (Ok s, w')) ∧
         (∀ pr, pinned = Some pr → is_unspecified bind = true →
            b = pr_source pr ∧ is_v4 b = is_v4 (sa_ip addr)) ∧
         (pinned = None ∨ is_unspecified bind = false → b = bind)
     end).
Proof.
  assert (Heff : effective_bind_ip bind None = bind) by (unfold effective_bind_ip; by destruct (is_unspecified bind)).
  intros Hs. split.
  { intros Hno. revert Hs. unfold windows_setup, pin_route.
    destruct is_server, dynamic_peer, remote; cbn; rewrite ?Heff; try (by intros [= <- <- <-]);
      by destruct Hno as [|[|]]. }
  intros addr -> -> ->. revert Hs. unfold windows_setup, pin_route, ensure_admin. cbn [negb andb].
  destruct (is_elevated w) eqn:He; [|by intros [= <- <- <-]].
  destruct (pin_route_to_peer (sa_ip addr) n) as [rp n1] eqn:Ep.
  destruct (pin_route_spec n (sa_ip addr) rp n1 Ep) as (Hok & Herr & Ha).
  rewrite (bool_decide_true (is_Some (Some addr))) by by eexists.
  destruct (install_for_self_ok spawned w) as (ri & w1 & Ei & Hsp & Hns).
  destruct rp as [pr|e|]; [| |done]; rewrite Ei; destruct spawned.
  1,3: destruct (Hsp eq_refl) as [b ->]; intros [= <- <- <-]; split_and!; [done..|by exists b| |].
  - intros pr' [= <-] Hu. unfold effective_bind_ip. rewrite Hu. split; [done|]. by apply Hok.
  - intros [|Hu]; [done|]. unfold effective_bind_ip. by rewrite Hu.
  - done.
  - by intros _.
  - rewrite (Hns eq_refl). intros [= <- <- <-]. split_and!; [done..|]. by apply Hok.
  - rewrite (Hns eq_refl). intros [= <- <- <-]. split_and!; [done..|]. by apply (Herr e).
Qed.
End setup.

(** ** Memory *)

(** [struct MemoryStatusEx] is two [u32] and seven [u64]. *)
Definition MEMORY_STATUS_LEN : Z := 2 * 4 + 7 * 8.

(** [total_ram_mb] on Windows; [status len] is [GlobalMemoryStatusEx] on a
    structure with [length = len]: the total of physical memory, or nothing
    when the call fails. *)
Definition total_ram_mb_windows (status : Z → option Z) : Z :=
  match status MEMORY_STATUS_LEN with
  | Some total_phys => total_phys / (1024 * 1024)
  | None => 256
  end.

(** Elsewhere. *)
Definition total_ram_mb_other : Z := 256.

(** ** Calls *)

Inductive platform := Linux | Windows.

#[global] Instance platform_eq_dec : EqDecision platform.
Proof. solve_decision. Defined.

Inductive call :=
| CBind (a : SocketAddr)
| CSetOpt (fd level name value : Z)
| CReadTimeout (fd secs : Z)
| CSpawn (name : list Z)
| CPrint (text : list Z).

Inductive serr := ESetup (e : Proxy.rerr) | EBind (code : Z) | EThread (name : list Z).

Abbreviation SM := (KM (list call) serr).

(** A call whose result is ignored. *)
Definition issue (c : call) : SM unit := λ log, (Ok tt, log ++ [c]).

Fixpoint issue_all (cs : list call) : SM unit :=
  match cs with
  | [] => mret tt
  | c :: cs => _ ← issue c; issue_all cs
  end.

(** [Display] of an address. *)
Definition show_addr (a : SocketAddr) : list Z :=
  match sa_ip a with
  | V4 _ => show_ip (sa_ip a) ++ bs ":" ++ dec (sa_port a)
  | V6 _ => bs "[" ++ show_ip (sa_ip a) ++ bs "]:" ++ dec (sa_port a)
  end.

(** The hint for a port in an excluded range. *)
Definition excluded_port_hint (a : SocketAddr) : list Z :=
  unlines
    [[];
     bs "gutd: ERROR " ++ [0xE2; 0x80; 0x94] ++ bs " cannot bind UDP " ++ show_addr a
       ++ bs " (WSAEACCES / 10013).";
     bs "gutd: This port is in a Windows excluded port range (reserved by Hyper-V / WSL2 / Docker / WinNAT).";
     bs "gutd: Check with:";
     bs "gutd:     netsh int ipv4 show excludedportrange protocol=udp";
     bs "gutd: Workaround " ++ [0xE2; 0x80; 0x94] ++ bs " reserve the port for gutd (run as Administrator):";
     bs "gutd:     net stop winnat";
     bs "gutd:     netsh int ipv4 add excludedportrange protocol=udp startport=" ++ dec (sa_port a)
       ++ bs " numberofports=1 store=persistent";
     bs "gutd:     net start winnat";
     bs "gutd: (If winnat won't stop, run `wsl --shutdown` first.)";
     bs "gutd: Alternatively, change `ports` in gutd.conf to a port outside the excluded ranges."].

(** [x as c_int] *)
Definition as_c_int (x : Z) : Z := let w := wrap 32 x in if w <? 2 ^ 31 then w else w - 2 ^ 32.

Section sockets.
  Context (plat : platform).
  (** [UdpSocket::bind]: a descriptor or a raw system error. *)
  Context (os_bind : list call → SocketAddr → Z + Z).
  (** Whether a thread could be made. *)
  Context (os_spawn : list call → list Z → bool).

Definition bind_udp (a : SocketAddr) : SM Z := λ log,
  match os_bind log a with
  | inl fd => (Ok fd, log ++ [CBind a])
  | inr code =>
      (Err (EBind code),
       log ++ [CBind a]
       ++ (if bool_decide (plat = Windows) && (code =? 10013) then [CPrint (excluded_port_hint a)] else []))
  end.

Definition tune_udp_buffers (fd buf_size : Z) : SM unit :=
  let size := as_c_int buf_size in
  issue_all match plat with
            | Linux => [CSetOpt fd 1 7 size; CSetOpt fd 1 8 size]
            | Windows => [CSetOpt fd 0xFFFF 0x1001 size; CSetOpt fd 0xFFFF 0x1002 size]
            end.

(** [IP_PMTUDISC_DONT], [IP_DONTFRAGMENT] off. *)
Definition disable_df (fd : Z) : SM unit :=
  issue_all match plat with
            | Linux => [CSetOpt fd 0 10 0; CSetOpt fd 41 23 0]
            | Windows => [CSetOpt fd 0 14 0; CSetOpt fd 41 14 0]
            end.

(** Bind and tune one socket. *)
Definition open_socket (sock_buf_size : Z) (a : SocketAddr) : SM Z :=
  fd ← bind_udp a;
  _ ← tune_udp_buffers fd sock_buf_size;
  _ ← disable_df fd;
  mret fd.

Fixpoint open_sockets (sock_buf_size : Z) (l : list SocketAddr) : SM (list Z) :=
  match l with
  | [] => mret []
  | a :: l => fd ← open_socket sock_buf_size a; fds ← open_sockets sock_buf_size l; mret (fd :: fds)
  end.

(** [Builder::new().name(..).spawn(..)?] *)
Definition spawn_thread (name : list Z) : SM unit := λ log,
  if os_spawn log name then (Ok tt, log ++ [CSpawn name]) else (Err (EThread name), log ++ [CSpawn name]).

Fixpoint spawn_ingress (i : nat) (fds : list Z) : SM unit :=
  match fds with
  | [] => mret tt
  | _ :: fds => _ ← spawn_thread (bs "gutd-ingress-" ++ dec (Z.of_nat i)); spawn_ingress (S i) fds
  end.

(** The egress thread of a client waits at most 25 seconds for WireGuard. *)
Definition spawn_egress (is_server : bool) (local : Z) : SM unit :=
  _ ← spawn_thread (bs "gutd-egress");
  when (negb is_server) (issue (CReadTimeout local 25)).

(** The addresses of the external sockets, given the address to bind to. *)
Definition ext_addrs (st : setup) (effective_bind_ip : IpAddr) : list SocketAddr :=
  (λ port, mkAddr effective_bind_ip
             (if s_is_server st || is_sip (obfs (s_peer st)) then port else 0)) <$> ports (s_peer st).

(** What is running when [run] waits for its threads. *)
Record running := mkRunning { r_setup : setup; r_ext : list Z; r_local : Z; r_world : world }.

(** [run] from its setup to the joins: the shared state is empty and every
    thread waits for its first datagram. *)
Definition start_proxy (ram_mb : Z) (st : setup) (effective_bind_ip : IpAddr) : SM running :=
  let sock_buf_size := adaptive_socket_buf_size ram_mb in
  ext ← open_sockets sock_buf_size (ext_addrs st effective_bind_ip);
  local ← open_socket sock_buf_size (s_local_bind st);
  _ ← spawn_egress (s_is_server st) local;
  _ ← spawn_ingress 0 ext;
  mret (mkRunning st ext local (init_world st)).
End sockets.

(** [run] on Linux. *)
Definition run (os_bind : list call → SocketAddr → Z + Z) (os_spawn : list call → list Z → bool)
    (var : list Z → option (list Z)) (meminfo : option (list Z)) (c : Config) : SM running :=
  st ← of_res (map_err ESetup (run_setup var c));
  start_proxy Linux os_bind os_spawn (total_ram_mb meminfo) st (bind_ip (s_peer st)).

(** ** [run] on Windows *)

Section windows.
  Context {N W : Type} `{!WinNet N} `{!WfpEngine W}.

(** [Drop] of the bypass sets the stop flag and joins the watchdog, which may
    have had some turns before it sees the flag. *)
Definition drop_bypass (s : watch) (ts : list (wturn W)) (w : W) : wend W :=
  watchdog_loop s (ts ++ [mkWturn true id true]) w.

Inductive wrun :=
| WExit (code : Z)
| WErr (e : serr + werr)
| WRunning (r : running) (pinned : option PinnedRoute) (bypass : option watch).

(** [run] returns: the bypass is dropped, then the pinned route. *)
Definition return_error (e : serr) (pinned : option PinnedRoute) (bypass : option watch)
    (ts : list (wturn W)) (n : N) (w : W) : wrun * N * W :=
  let release w := (WErr (inl e), match pinned with Some pr => drop_pinned pr n | None => n end, w) in
  match bypass with
  | None => release w
  | Some s =>
      match drop_bypass s ts w with
      | Stopped w => release w
      | Exited code w => (WExit code, n, w)
      | Watching _ w => release w
      | Died => (WExit 134, n, w)
      end
  end.

Definition run_windows (os_bind : list call → SocketAddr → Z + Z)
    (os_spawn : list call → list Z → bool) (var : list Z → option (list Z)) (status : Z → option Z)
    (c : Config) (watchdog_spawned : bool) (ts : list (wturn W)) (n : N) (w : W)
    : wrun * N * W * list call :=
  match run_setup var c with
  | Err e => (WErr (inl (ESetup e)), n, w, [])
  | Abort => (WExit 134, n, w, [])
  | Ok st =>
      match windows_setup (s_is_server st) (s_dynamic st) (s_remote st) (bind_ip (s_peer st))
              watchdog_spawned n w with
      | (SetupExit code, n, w) => (WExit code, n, w, [])
      | (SetupErr e, n, w) => (WErr (inr e), n, w, [])
      | (SetupReady pinned bypass ip, n, w) =>
          match start_proxy Windows os_bind os_spawn (total_ram_mb_windows status) st ip [] with
          | (Ok r, log) => (WRunning r pinned bypass, n, w, log)
          | (Err e, log) => (return_error e pinned bypass ts n w, log)
          | (Abort, log) => (WExit 134, n, w, log)
          end
      end
  end.
End windows.

(** ** The calls of a successful and of a failed start *)

Definition options (plat : platform) (size fd : Z) : list call :=
  match plat with
  | Linux => [CSetOpt fd 1 7 size; CSetOpt fd 1 8 size; CSetOpt fd 0 10 0; CSetOpt fd 41 23 0]
  | Windows => [CSetOpt fd 0xFFFF 0x1001 size; CSetOpt fd 0xFFFF 0x1002 size;
                CSetOpt fd 0 14 0; CSetOpt fd 41 14 0]
  end.

Definition opened (plat : platform) (size : Z) (l : list (SocketAddr * Z)) : list call :=
  l ≫= λ '(a, fd), CBind a :: options plat size fd.

Lemma adaptive_bounds ram : 262144 ≤ adaptive_socket_buf_size ram ≤ 16777216.
Proof. unfold adaptive_socket_buf_size. repeat case_match; lia. Qed.

Lemma as_c_int_small x : 0 ≤ x < 2 ^ 31 → as_c_int x = x.
Proof.
  intros H. unfold as_c_int. rewrite wrap_small by (split; lia).
  destruct (Z.ltb_spec x (2 ^ 31)); [done|lia].
Qed.

Lemma issue_all_log cs log : issue_all cs log = (Ok tt, log ++ cs).
Proof.
  revert log. induction cs as [|c cs IH]; intros log; [by rewrite app_nil_r|].
  cbn [issue_all]. unfold mbind, KM_bind, issue. rewrite IH. by rewrite <- app_assoc.
Qed.

Definition hint (plat : platform) (code : Z) (a : SocketAddr) : list call :=
  if bool_decide (plat = Windows) && (code =? 10013) then [CPrint (excluded_port_hint a)] else [].

Lemma opened_cons plat size a fd l :
  opened plat size ((a, fd) :: l) = (CBind a :: options plat size fd) ++ opened plat size l.
Proof. done. Qed.

Section start.
  Context (plat : platform) (os_bind : list call → SocketAddr → Z + Z).
  Context (os_spawn : list call → list Z → bool) (size : Z) (Hsize : 0 ≤ size < 2 ^ 31).

Lemma open_socket_log a log : open_socket plat os_bind size a log =
  match os_bind log a with
  | inl fd => (Ok fd, log ++ CBind a :: options plat size fd)
  | inr code => (Err (EBind code), log ++ CBind a :: hint plat code a)
  end.
Proof.
  unfold open_socket, bind_udp, tune_udp_buffers, disable_df. rewrite as_c_int_small by done.
  unfold mbind, KM_bind. destruct (os_bind log a) as [fd|code]; [|done].
  rewrite !issue_all_log. cbn. destruct plat; by rewrite <- !app_assoc.
Qed.

(** How far the sockets were opened: all of them, or up to one whose bind
    failed. *)
Definition open_result (l : list SocketAddr) (r : res serr (list Z)) (log log' : list call) : Prop :=
  match r with
  | Ok fds => length fds = length l ∧ log' = log ++ opened plat size (zip l fds)
  | Err e => ∃ fds a code, e = EBind code ∧ l !! length fds = Some a ∧
      os_bind (log ++ opened plat size (zip l fds)) a = inr code ∧
      log' = log ++ opened plat size (zip l fds) ++ CBind a :: hint plat code a
  | Abort => False
  end.

Lemma open_sockets_log l log r log' : open_sockets plat os_bind size l log = (r, log') →
  open_result l r log log'.
Proof.
  revert log r log'. induction l as [|a l IH]; intros log r log' H.
  { injection H as <- <-. split; [done|]. cbn. by rewrite app_nil_r. }
  cbn [open_sockets] in H. unfold mbind, KM_bind in H. rewrite open_socket_log in H.
  destruct (os_bind log a) as [fd|code] eqn:E.
  2: { injection H as <- <-. exists [], a, code. cbn. by rewrite app_nil_r. }
  destruct (open_sockets _ _ _ _ _) as [r2 log2] eqn:E2. apply IH in E2.
  destruct r2 as [fds|e|]; [..|done]; cbn [open_result] in E2.
  - injection H as <- <-. destruct E2 as [Hl ->]. split; [by cbn; rewrite Hl|].
    by rewrite <- app_assoc.
  - injection H as <- <-. destruct E2 as (fds & a' & code & -> & Ha & Hb & ->).
    exists (fd :: fds), a', code. change (zip (a :: l) (fd :: fds)) with ((a, fd) :: zip l fds).
    rewrite opened_cons, (app_assoc log). split_and!; try done. by rewrite <- !app_assoc.
Qed.

Fixpoint ingress_names (i : nat) (fds : list Z) : list call :=
  match fds with
  | [] => []
  | _ :: fds => CSpawn (bs "gutd-ingress-" ++ dec (Z.of_nat i)) :: ingress_names (S i) fds
  end.

(** The last thing a failed spawn did. *)
Definition spawn_failed (e : serr) (log' : list call) : Prop :=
  ∃ name pre, e = EThread name ∧ log' = pre ++ [CSpawn name] ∧ os_spawn pre name = false.

Lemma spawn_ingress_log i fds log r log' : spawn_ingress os_spawn i fds log = (r, log') →
  match r with
  | Ok _ => log' = log ++ ingress_names i fds
  | Err e => spawn_failed e log'
  | Abort => False
  end.
Proof.
  revert i log. induction fds as [|fd fds IH]; intros i log H.
  { injection H as <- <-. by rewrite app_nil_r. }
  cbn [spawn_ingress] in H. unfold mbind, KM_bind, spawn_thread in H.
  set (name := bs "gutd-ingress-" ++ dec (Z.of_nat i)) in *.
  destruct (os_spawn log name) eqn:E.
  - apply IH in H. destruct r; [|done|done]. by rewrite H, <- app_assoc.
  - injection H as <- <-. by exists name, log.
Qed.

Lemma spawn_egress_log is_server local log r log' : spawn_egress os_spawn is_server local log = (r, log') →
  match r with
  | Ok _ => log' = log ++ CSpawn (bs "gutd-egress") :: (if is_server then [] else [CReadTimeout local 25])
  | Err e => spawn_failed e log'
  | Abort => False
  end.
Proof.
  unfold spawn_egress, mbind, KM_bind, spawn_thread. destruct (os_spawn log _) eqn:E.
  - destruct is_server; intros [= <- <-]; by rewrite <- ?app_assoc.
  - intros [= <- <-]. by exists (bs "gutd-egress"), log.
Qed.
End start.

Lemma zip_before {A B} (l : list A) (a : A) (k : list B) : length k = length l →
  zip (l ++ [a]) k = zip l k.
Proof.
  revert k. induction l as [|x l IH]; intros [|y k] Hl; simplify_eq/=; try done. f_equal. by apply IH.
Qed.

Lemma zip_shorter {A B} (l1 l2 : list A) (k : list B) : (length k ≤ length l1)%nat →
  zip (l1 ++ l2) k = zip l1 k.
Proof.
  revert k. induction l1 as [|x l1 IH]; intros [|y k] Hl; simpl in *; try done; try lia.
  - by destruct l2.
  - f_equal. apply IH. lia.
Qed.

Lemma zip_last {A B} (l : list A) (a : A) (k : list B) b : length k = length l →
  zip (l ++ [a]) (k ++ [b]) = zip l k ++ [(a, b)].
Proof. intros Hl. by rewrite zip_with_app by done. Qed.

Lemma opened_app plat size l1 l2 : opened plat size (l1 ++ l2) = opened plat size l1 ++ opened plat size l2.
Proof. apply bind_app. Qed.

(** How a start ended. *)
Definition start_result (plat : platform) (os_bind : list call → SocketAddr → Z + Z)
    (os_spawn : list call → list Z → bool) (size : Z) (st : setup) (ip : IpAddr)
    (r : res serr running) (log : list call) : Prop :=
  let addrs := ext_addrs st ip ++ [s_local_bind st] in
  match r with
  | Ok ru => ∃ fds fd, length fds = length (ports (s_peer st)) ∧
      ru = mkRunning st fds fd (init_world st) ∧
      log = opened plat size (zip addrs (fds ++ [fd]))
            ++ (CSpawn (bs "gutd-egress") :: (if s_is_server st then [] else [CReadTimeout fd 25]))
            ++ ingress_names 0 fds
  | Err (EBind code) => ∃ fds a, addrs !! length fds = Some a ∧
      os_bind (opened plat size (zip addrs fds)) a = inr code ∧
      log = opened plat size (zip addrs fds) ++ CBind a :: hint plat code a
  | Err (EThread name) => spawn_failed os_spawn (EThread name) log
  | Err (ESetup _) | Abort => False
  end.

Lemma start_proxy_log plat os_bind os_spawn ram st ip r log :
  start_proxy plat os_bind os_spawn ram st ip [] = (r, log) →
  start_result plat os_bind os_spawn (adaptive_socket_buf_size ram) st ip r log.
Proof.
  pose proof (adaptive_bounds ram) as Hb. set (size := adaptive_socket_buf_size ram) in *.
  assert (Hsize : 0 ≤ size < 2 ^ 31) by lia. unfold start_proxy, start_result. fold size.
  unfold mbind, KM_bind. destruct (open_sockets _ _ _ _ _) as [r1 log1] eqn:E1.
  apply open_sockets_log in E1; [|done]. destruct r1 as [fds|e|]; [|..|done]; cbn [open_result] in E1.
  2: { destruct E1 as (fds & a & code & -> & Ha & Hbind & ->). intros [= <- <-].
       pose proof (lookup_lt_Some _ _ _ Ha). exists fds, a.
       rewrite zip_shorter, lookup_app_l by lia. by split_and!. }
  destruct E1 as [Hl ->]. rewrite open_socket_log by done. cbn [app].
  destruct (os_bind _ _) as [fd|code] eqn:E2.
  2: { intros [= <- <-]. exists fds, (s_local_bind st).
       rewrite zip_shorter, Hl, list_lookup_middle by lia. by split_and!. }
  destruct (spawn_egress _ _ _ _) as [r3 log3] eqn:E3. apply spawn_egress_log in E3.
  destruct r3 as [[]|e|]; [|intros [= <- <-]; by destruct E3 as (n & pre & -> & ? & ?); exists n, pre|done].
  destruct (spawn_ingress _ _ _ _) as [r4 log4] eqn:E4. apply spawn_ingress_log in E4.
  destruct r4 as [[]|e|]; [|intros [= <- <-]; by destruct E4 as (n & pre & -> & ? & ?); exists n, pre|done].
  intros [= <- <-]. exists fds, fd. split_and!; [|done|].
  - rewrite Hl. unfold ext_addrs. by rewrite length_fmap.
  - rewrite E4, E3, zip_last, opened_app by done. cbn [opened mbind list_bind].
    rewrite app_nil_r. by rewrite <- !app_assoc.
Qed.

(** ** The start *)

Lemma run_setup_binds var c st : run_setup var c = Ok st →
  ext_addrs st (bind_ip (s_peer st)) = s_ext_binds st.
Proof.
  unfold run_setup. destruct (peers c) as [|p ps]; [done|]. cbv zeta.
  destruct (ok_or _ EWgHost) as [wg| |]; [|done..]. cbn [mbind res_bind].
  destruct (if (_ || _) : bool then _ else _) as [rm| |]; [|done..]. cbn [mbind res_bind].
  by intros [= <-].
Qed.

Lemma run_setup_no_abort var c : run_setup var c ≠ Abort.
Proof.
  unfold run_setup. destruct (peers c) as [|p ps]; [done|]. cbv zeta.
  destruct (ok_or _ EWgHost) as [wg| |] eqn:E; [|done|]; cbn [mbind res_bind].
  - destruct (_ || _); [done|]. by destruct (parse_socket_addr (_ ++ _ ++ _)).
  - by destruct (parse_socket_addr _).
Qed.

Lemma start_succeeds plat os_bind os_spawn size st ip r log :
  start_result plat os_bind os_spawn size st ip r log →
  (∀ log a, ∃ fd, os_bind log a = inl fd) → (∀ log name, os_spawn log name = true) →
  ∃ ru, r = Ok ru.
Proof.
  intros Hr Hb Hs. destruct r as [ru|[e|code|name]|]; [by eexists|done| | |done].
  - destruct Hr as (fds & a & _ & Hf & _). destruct (Hb (opened plat size (zip (ext_addrs st ip ++ [s_local_bind st]) fds)) a).
    congruence.
  - destruct Hr as (n & pre & _ & _ & Hf). by rewrite Hs in Hf.
Qed.



(** ** A failed start on Windows leaves no route behind *)

Section release.
  Context {N W : Type} `{WinNetLaws N} `{WfpLaws W}.

Definition unpinned (pinned : option PinnedRoute) (n : N) : N :=
  match pinned with Some pr => drop_pinned pr n | None => n end.

Lemma windows_setup_ready is_server dynamic_peer remote bind spawned (n : N) (w : W) pinned bypass b n' w' :
  windows_setup is_server dynamic_peer remote bind spawned n w = (SetupReady pinned bypass b, n', w') →
  ∀ ip, (∀ a, remote = Some a → sa_ip a = ip) → spared_by ip n (unpinned pinned n').
Proof.
  unfold windows_setup, pin_route. intros Hs ip Hip.
  destruct (negb is_server && negb dynamic_peer); cbn [andb] in Hs.
  2: { injection Hs as <- _ _ <- _. by apply spared_same. }
  destruct remote as [a|]; [|injection Hs as <- _ _ <- _; by apply spared_same].
  rewrite bool_decide_true in Hs by by eexists. destruct (ensure_admin w); [done|].
  destruct (pin_route_to_peer (sa_ip a) n) as [rp n1] eqn:Ep. rewrite (Hip a eq_refl) in Ep.
  destruct (pin_route_spec n ip rp n1 Ep) as (Hok & Herr & Ha).
  destruct rp as [pr|e|]; [| |done]; destruct (install_for_self spawned w) as [[s|e'|] w1]; try done;
    injection Hs as <- _ _ <- _; [by apply Hok|by eapply Herr].
Qed.

(** Whatever fails, [run] on Windows returns an error only after the route it
    pinned has been taken out again; it exits only without elevation (code 1),
    when the watchdog gives up or when the process dies. *)
Theorem windows_failure_releases os_bind os_spawn var status c spawned ts (n : N) (w : W) e n' w' log st ip :
  run_setup var c = Ok st → (∀ a, s_remote st = Some a → sa_ip a = ip) →
  run_windows os_bind os_spawn var status c spawned ts n w = (WErr e, n', w', log) →
  spared_by ip n n'.
Proof.
  intros Es Hip. unfold run_windows. rewrite Es.
  destruct (windows_setup _ _ _ _ _ n w) as [[r n1] w1] eqn:Ew. destruct r as [code|e'|pinned bypass b].
  - done.
  - intros [= _ <- _ _]. destruct (windows_setup_correct _ _ _ _ _ _ _ _ _ _ Ew) as [Hno Hst].
    destruct (s_is_server st) eqn:E1; [by destruct (Hno (or_introl eq_refl)) as (? & -> & _)|].
    destruct (s_dynamic st) eqn:E2; [by destruct (Hno (or_intror (or_introl eq_refl))) as (? & -> & _)|].
    destruct (s_remote st) as [a|] eqn:E3; [|by destruct (Hno (or_intror (or_intror eq_refl))) as (? & -> & _)].
    destruct (Hst a eq_refl eq_refl eq_refl) as (_ & _ & _ & Hsp). by rewrite (Hip a eq_refl) in Hsp.
  - pose proof (windows_setup_ready _ _ _ _ _ _ _ _ _ _ _ _ Ew ip Hip) as Hsp.
    destruct (start_proxy _ _ _ _ _ _ _) as [[ru|e''|] log']; [done| |done].
    unfold return_error. destruct bypass as [s|]; [|by intros [= _ <- _ _]].
    destruct (drop_bypass s ts w1); by intros [= _ <- _ _].
Qed.
End release.
