(* ===== verification/WinInstaller.v ===== *)
(** * The installer on Windows: [src/src/installer.rs]

    The files and the commands that are run are the state of [Installer];
    [sc] is the exit code of a call of [sc.exe] with its arguments, [None] when
    it cannot be run.  Files have no modes here. *)

From stdpp Require Import gmap.
From S2P Require Import Prelude Words Slices Text Obfs Results StrOps Net Config ConfigProofs Links Cli Installer InstallerProofs WinRoute.
Local Open Scope Z_scope.

Definition WIN_BIN_PATH : list Z := bs "C:\Program Files\gutd\gutd.exe".
Definition WIN_CONFIG_PATH : list Z := bs "C:\ProgramData\gutd\gutd.conf".
Definition SERVICE_NAME : list Z := bs "gutd".

Definition win_example_config : list Z :=
  example_config_for WIN_CONFIG_PATH (bs "C:\ProgramData\gutd\gutd.stat") (bs "true").

(** The command line of the service. *)
Definition bin_arg : list Z := QUOTED WIN_BIN_PATH ++ bs " -c " ++ QUOTED WIN_CONFIG_PATH.

(** ** Waiting for the service *)

(** What [sc query] gives: it cannot be run, or its status and its output. *)
Inductive query := QErr | QOut (success : bool) (stdout : list Z).

Definition reports_stopped (stdout : list Z) : bool :=
  existsb (λ l, let l := trim l in starts_with l (bs "STATE") && contains l (bs " 1 ")) (lines stdout).

(** The answers with the time after each, in milliseconds; the number of polls
    after which the function returns. *)
Fixpoint wait_service_stopped (deadline : Z) (polls : list (query * Z)) : option nat :=
  match polls with
  | [] => None
  | (q, now) :: polls =>
      match q with
      | QErr => Some 1%nat
      | QOut success stdout =>
          if negb success then Some 1%nat
          else if reports_stopped stdout then Some 1%nat
          else if deadline <=? now then Some 1%nat
          else S <$> wait_service_stopped deadline polls
      end
  end.

Section operations.
  Context (y : isys) (sc : list (list Z) → option Z).
  (** [canonicalize] of the installed binary, and whether it is locked. *)
  Context (canonical : option (list Z)) (locked : bool).
  Local Abbreviation M := (KM istate iexit).

Definition run_sc (args : list (list Z)) : KM istate iexit (option Z) := λ s,
  (Ok (sc args), mkIstate (i_files s) (i_dirs s) (i_commands s ++ [(bs "sc.exe", args)])).

Definition win_install_binary : M unit :=
  self_exe ← of_res (match current_exe y with Some p => Ok p | None => Abort end);
  if str_eqb self_exe WIN_BIN_PATH then mret tt else copy_file y self_exe WIN_BIN_PATH.

Definition win_install_config : M unit := λ s,
  if exists_path WIN_CONFIG_PATH s then (Ok tt, s) else write_file y WIN_CONFIG_PATH win_example_config s.

Definition register_service : M unit :=
  r ← run_sc [bs "create"; SERVICE_NAME; bs "binPath="; bin_arg; bs "start="; bs "demand"];
  match r with
  | Some code =>
      if code =? 0 then
        _ ← run_sc [bs "description"; SERVICE_NAME; bs "GUT IP-over-UDP Obfuscation Tunnel (userspace)"];
        mret tt
      else if code =? 1073 then
        _ ← run_sc [bs "config"; SERVICE_NAME; bs "binPath="; bin_arg]; mret tt
      else mret tt
  | None => mret tt
  end.

Definition win_run_install : M unit := λ s,
  if negb (is_root y) then exit_with 1 s
  else (_ ← win_install_binary; _ ← win_install_config; _ ← register_service; exit_with 0) s.

(** [schedule_self_delete]: a detached command. *)
Definition self_delete_cmd (path : list Z) : list Z :=
  bs "ping 127.0.0.1 -n 3 >NUL & del /F /Q " ++ QUOTED path.
Definition schedule_self_delete (path : list Z) : M unit := λ s,
  (Ok tt, mkIstate (i_files s) (i_dirs s) (i_commands s ++ [(bs "cmd.exe", [bs "/C"; self_delete_cmd path])])).

Definition is_self : bool :=
  match current_exe y, canonical with Some a, Some b => str_eqb a b | _, _ => false end.

(** [fs::remove_file] fails with [ERROR_ACCESS_DENIED] on a locked file. *)
Definition win_remove_binary : M unit := λ s,
  if exists_path WIN_BIN_PATH s then
    if is_self then schedule_self_delete WIN_BIN_PATH s
    else if locked then schedule_self_delete WIN_BIN_PATH s
    else if may_remove y WIN_BIN_PATH
         then (Ok tt, mkIstate (delete WIN_BIN_PATH (i_files s)) (i_dirs s) (i_commands s))
         else (Ok tt, s)
  else (Ok tt, s).

(** The wait between the two calls changes nothing here. *)
Definition win_run_uninstall : M unit := λ s,
  if negb (is_root y) then exit_with 1 s
  else
    (_ ← run_sc [bs "stop"; SERVICE_NAME];
     _ ← run_sc [bs "delete"; SERVICE_NAME];
     _ ← win_remove_binary;
     exit_with 0) s.
End operations.

(** ** Theory *)

(** Whatever the service answers, ten seconds and a quarter are enough when
    every turn takes at least the quarter second it sleeps. *)
Theorem wait_ends t0 polls : (41 ≤ length polls)%nat →
  (∀ i p, polls !! i = Some p → t0 + 250 * Z.of_nat i ≤ p.2) →
  ∃ k, wait_service_stopped (t0 + 10000) polls = Some k ∧ (k ≤ 41)%nat.
Proof.
  assert (Hgo : ∀ n polls j, (n < length polls)%nat → (j + n = 40)%nat →
            (∀ i p, polls !! i = Some p → t0 + 250 * Z.of_nat (j + i) ≤ p.2) →
            ∃ k, wait_service_stopped (t0 + 10000) polls = Some k ∧ (k ≤ S n)%nat).
  { clear. induction n as [|n IH]; intros [|[q now] polls] j Hl Hj Ht; cbn in Hl; [lia| |lia|]; cbn.
    - destruct q as [|[] out]; [by exists 1%nat|cbn|by exists 1%nat].
      destruct (reports_stopped out); [by exists 1%nat|]. specialize (Ht 0%nat _ eq_refl). cbn in Ht.
      destruct (Z.leb_spec (t0 + 10000) now); [by exists 1%nat|lia].
    - destruct q as [|[] out]; [exists 1%nat; split; [done|lia]|cbn|exists 1%nat; split; [done|lia]].
      destruct (reports_stopped out); [exists 1%nat; split; [done|lia]|].
      destruct (Z.leb_spec (t0 + 10000) now); [exists 1%nat; split; [done|lia]|].
      destruct (IH polls (S j)) as (k & -> & Hk); [lia|lia| |by exists (S k); split; [|lia]].
      intros i p Hp. specialize (Ht (S i) p Hp). replace (S j + i)%nat with (j + S i)%nat by lia. done. }
  intros Hl Ht. apply (Hgo 40%nat polls 0%nat); [lia|lia|done].
Qed.

(** The arguments in a command line: what is quoted is one argument. *)
Fixpoint unquoted (quoted : bool) (parts : list (list Z)) : list (list Z) :=
  match parts with
  | [] => []
  | p :: parts => (if quoted then [p] else split_whitespace p) ++ unquoted (negb quoted) parts
  end.
Definition command_args (line : list Z) : list (list Z) := unquoted false (split_byte 34 line).

Definition win_example : Config := Eval vm_compute in
  match parse_config win_example_config with Ok c => c | _ => mkConfig (mkGlobal 0 false) (mkRuntime 0 []) [] end.
Lemma win_example_parses : parse_config win_example_config = Ok win_example.
Proof. vm_compute. reflexivity. Qed.

Lemma win_example_loads : load_config (Some win_example_config) = Ok win_example.
Proof. vm_compute. reflexivity. Qed.

Lemma bin_arg_starts e : main e (command_args bin_arg) = start_from_file e WIN_CONFIG_PATH.
Proof. reflexivity. Qed.

(** The calls that only run a command. *)
Lemma register_service_files sc s : ∃ c, register_service sc s = (Ok tt, mkIstate (i_files s) (i_dirs s) c) ∧
  ((sc [bs "create"; SERVICE_NAME; bs "binPath="; bin_arg; bs "start="; bs "demand"] = Some 0 ∨
    sc [bs "create"; SERVICE_NAME; bs "binPath="; bin_arg; bs "start="; bs "demand"] = Some 1073) →
   ∃ verb pre post, (bs "sc.exe", [verb; SERVICE_NAME; bs "binPath="; bin_arg] ++ pre) ∈ c ∧
     c = i_commands s ++ post ∧ (verb = bs "create" ∨ verb = bs "config")).
Proof.
  unfold register_service, run_sc. unfold mbind, KM_bind, mret, KM_ret. cbn [i_files i_dirs i_commands].
  destruct (sc _) as [code|].
  2:{ eexists. split; [done|]. by intros [|]. }
  destruct (Z.eqb_spec code 0) as [->|H0]; [|destruct (Z.eqb_spec code 1073) as [->|H1]];
    (eexists; split; [done|]).
  - intros _. eexists (bs "create"), [bs "start="; bs "demand"], [_; _].
    split; [|split; [symmetry; apply (app_assoc _ [_])|by left]]. set_solver.
  - intros _. eexists (bs "config"), [], [_; _].
    split; [|split; [symmetry; apply (app_assoc _ [_])|by right]]. set_solver.
  - intros [[= ->]|[= ->]]; lia.
Qed.

Lemma win_install_binary_spec y s r s' : win_install_binary y s = (r, s') →
  match r with
  | Ok _ => i_dirs s' = i_dirs s ∧ ∀ p, p ≠ WIN_BIN_PATH → i_files s' !! p = i_files s !! p
  | Err _ => False
  | Abort => True
  end.
Proof.
  unfold win_install_binary, mbind, KM_bind, of_res. destruct (current_exe y) as [exe|]; [|by intros [= <- <-]].
  destruct (str_eqb exe WIN_BIN_PATH); [by intros [= <- <-]|]. unfold copy_file.
  destruct (i_files s !! exe) as [f|]; [|by intros [= <- <-]].
  destruct (may_write y WIN_BIN_PATH); intros [= <- <-]; [|done]. split; [done|]. cbn [i_files].
  intros p Hp. by apply lookup_insert_ne.
Qed.

Lemma win_install_config_spec y s r s' : win_install_config y s = (r, s') →
  match r with
  | Ok _ => (∀ p, p ≠ WIN_CONFIG_PATH → i_files s' !! p = i_files s !! p) ∧
      (exists_path WIN_CONFIG_PATH s = true → i_files s' !! WIN_CONFIG_PATH = i_files s !! WIN_CONFIG_PATH) ∧
      (exists_path WIN_CONFIG_PATH s = false →
         ∃ m, i_files s' !! WIN_CONFIG_PATH = Some (mkFile win_example_config m))
  | Err _ => False
  | Abort => True
  end.
Proof.
  unfold win_install_config, write_file. destruct (exists_path WIN_CONFIG_PATH s); [by intros [= <- <-]|].
  destruct (may_write y WIN_CONFIG_PATH); intros [= <- <-]; [|done]. cbn [i_files]. split_and!; [|done|].
  - intros p Hp. by apply lookup_insert_ne.
  - intros _. eexists. apply lookup_insert_eq.
Qed.

(** Installing on Windows.  Run by an administrator, a successful installation
    changes no file but the binary and the configuration, keeps a configuration
    that is there and otherwise writes the example.  The command line it gives
    the service starts the program with that file; with the example this runs
    a valid configuration in userspace. *)
Theorem win_install_correct y sc s s' e : is_root y = true → win_run_install y sc s = (Err (IExit 0), s') →
  c_file e WIN_CONFIG_PATH = f_content <$> i_files s' !! WIN_CONFIG_PATH →
  (∀ path, path ≠ WIN_BIN_PATH → path ≠ WIN_CONFIG_PATH → i_files s' !! path = i_files s !! path) ∧
  (exists_path WIN_CONFIG_PATH s = true → i_files s' !! WIN_CONFIG_PATH = i_files s !! WIN_CONFIG_PATH) ∧
  main e (command_args bin_arg) = start_from_file e WIN_CONFIG_PATH ∧
  (exists_path WIN_CONFIG_PATH s = false →
     main e (command_args bin_arg) = RunDaemon win_example (Some WIN_CONFIG_PATH) ∧
     userspace_only (global win_example) = true ∧ Forall (peer_ok 100) (peers win_example)).
Proof.
  intros Hroot Hrun Hfile. unfold win_run_install in Hrun. rewrite Hroot in Hrun. cbn [negb] in Hrun.
  unfold mbind, KM_bind in Hrun.
  destruct (win_install_binary y s) as [[[]|e1|] s1] eqn:E1; [|by apply win_install_binary_spec in E1|done].
  apply win_install_binary_spec in E1 as (D1 & F1).
  destruct (win_install_config y s1) as [[[]|e2|] s2] eqn:E2; [|by apply win_install_config_spec in E2|done].
  apply win_install_config_spec in E2 as (F2 & K2 & C2).
  destruct (register_service_files sc s2) as (c & E3 & _). rewrite E3 in Hrun. injection Hrun as <-.
  cbn [i_files] in *.
  assert (Hex : exists_path WIN_CONFIG_PATH s1 = exists_path WIN_CONFIG_PATH s).
  { unfold exists_path. by rewrite D1, F1. }
  rewrite Hex in *. rewrite bin_arg_starts. split_and!; [| |done|].
  - intros p Hb Hc. by rewrite F2, F1.
  - intros Hc. rewrite K2 by done. by apply F1.
  - intros Hc. destruct (C2 Hc) as [m Hm]. rewrite Hm in Hfile. cbn [fmap option_fmap option_map f_content] in Hfile.
    unfold start_from_file. rewrite Hfile, win_example_loads.
    split; [reflexivity|]. split; [reflexivity|].
    exact (proj1 (proj2 (parse_config_peers _ _ win_example_parses))).
Qed.

(** Uninstalling on Windows by an administrator always ends well: no other
    file changes, and the binary is gone, or its deletion is scheduled, or the
    system refuses to delete it. *)
Theorem win_uninstall_correct y sc canonical locked s r s' : is_root y = true →
  win_run_uninstall y sc canonical locked s = (r, s') →
  r = Err (IExit 0) ∧ (∀ path, path ≠ WIN_BIN_PATH → i_files s' !! path = i_files s !! path) ∧
  (i_files s' !! WIN_BIN_PATH = None ∨
   (bs "cmd.exe", [bs "/C"; self_delete_cmd WIN_BIN_PATH]) ∈ i_commands s' ∨
   may_remove y WIN_BIN_PATH = false).
Proof.
  intros Hroot. unfold win_run_uninstall. rewrite Hroot. cbn [negb].
  unfold mbind, KM_bind, run_sc, win_remove_binary, schedule_self_delete, exit_with.
  cbn [i_files i_dirs i_commands]. set (s2 := mkIstate _ _ _).
  destruct (exists_path WIN_BIN_PATH s2) eqn:Hex.
  2:{ intros [= <- <-]. split_and!; [done..|]. left. unfold exists_path in Hex.
      apply orb_false_iff in Hex as [_ Hex]. apply bool_decide_eq_false_1 in Hex.
      by apply eq_None_not_Some. }
  destruct (is_self y canonical || locked) eqn:Hs.
  - assert (Hc : (if is_self y canonical then true else locked) = true) by by destruct (is_self y canonical).
    destruct (is_self y canonical); [|rewrite Hc]; intros [= <- <-]; (split_and!; [done..|]);
      right; left; cbn [i_commands]; apply elem_of_app; right; by apply list_elem_of_singleton.
  - apply orb_false_iff in Hs as [-> ->]. destruct (may_remove y WIN_BIN_PATH); intros [= <- <-].
    + split_and!; [done| |left; apply lookup_delete_eq]. intros p Hp. by apply lookup_delete_ne.
    + split_and!; [done..|]. by do 2 right.
Qed.
