(* ===== verification/BpfCommon.v ===== *)
(** * bpf/gut_common.h: what the packet programs share

    The packet programs are C code that the kernel runs on each packet.  This
    file has the functions of [src/src/bpf/gut_common.h] that both directions
    use, the helpers the kernel offers to programs, and the monad in which the
    programs are written.

    A program works on a packet, the maps and a verdict: [Err v] is an early
    [return v], and [Abort] is an access to the packet outside of what
    [data_end] allows, which the verifier of the kernel must exclude. *)

From stdpp Require Import gmap.
From S2P Require Import Prelude Words Slices ChaCha Results Obfs Loader Links.
Local Open Scope Z_scope.

(** ** ChaCha *)

(** [st[i] += st[j]], [st[i] ^= st[j]] and
    [st[i] = (st[i] << n) | (st[i] >> m)] *)
Definition st_add (st : list Z) (i j : nat) : list Z := <[i := wrap 32 (st !!! i + st !!! j)]> st.
Definition st_xor (st : list Z) (i j : nat) : list Z := <[i := Z.lxor (st !!! i) (st !!! j)]> st.
Definition st_rot (st : list Z) (i : nat) (n m : Z) : list Z :=
  <[i := Z.lor (shl 32 (st !!! i) n) (shr (st !!! i) m)]> st.

Definition CHACHA_QR_IDX (st : list Z) (ai bi ci di : nat) : list Z :=
  let st := st_add st ai bi in
  let st := st_xor st di ai in
  let st := st_rot st di 16 16 in
  let st := st_add st ci di in
  let st := st_xor st bi ci in
  let st := st_rot st bi 12 20 in
  let st := st_add st ai bi in
  let st := st_xor st di ai in
  let st := st_rot st di 8 24 in
  let st := st_add st ci di in
  let st := st_xor st bi ci in
  st_rot st bi 7 25.

Definition CHACHA_DOUBLE_ROUND_IDX (st : list Z) : list Z :=
  let st := CHACHA_QR_IDX st 0 4 8 12 in
  let st := CHACHA_QR_IDX st 1 5 9 13 in
  let st := CHACHA_QR_IDX st 2 6 10 14 in
  let st := CHACHA_QR_IDX st 3 7 11 15 in
  let st := CHACHA_QR_IDX st 0 5 10 15 in
  let st := CHACHA_QR_IDX st 1 6 11 12 in
  let st := CHACHA_QR_IDX st 2 7 8 13 in
  CHACHA_QR_IDX st 3 4 9 14.

(** The preprocessor keeps one double round, and one more for each of these
    bounds that [CHACHA_ROUNDS] reaches. *)
Definition double_rounds (rounds : Z) : nat :=
  S (length (filter (λ b, b ≤ rounds) [4; 6; 8; 10; 12; 14; 16; 18; 20])).

(** The initial state is added back; the last two words of it are zero. *)
Definition chacha_block (rounds : Z) (chacha_init : list Z) (counter nonce : Z) : list Z :=
  let ks := Nat.iter (double_rounds rounds) CHACHA_DOUBLE_ROUND_IDX
              (chacha_init ++ [counter; nonce; 0; 0]) in
  zip_with (λ k i, wrap 32 (k + i)) (take 14 ks) (chacha_init ++ [counter; nonce]) ++ drop 14 ks.

(** ** Ports, nonces and checksums *)

Definition MAX_PORTS : nat := 6.

Definition is_gut_port (port : Z) (cfg : GutConfig) : bool :=
  existsb (λ i, (Z.of_nat i <? gc_num_ports cfg) && (gc_ports cfg !!! i =? port)) (seq 0 MAX_PORTS).

Definition select_port (pkt_id : Z) (cfg : GutConfig) : Z :=
  if gc_num_ports cfg =? 0 then 0 else
  let idx := pkt_id mod gc_num_ports cfg in
  if Z.of_nat MAX_PORTS <=? idx then 0 else gc_ports cfg !!! Z.to_nat idx.

(** [wg_nonce32] of both programs; the first 32 bytes of a message. *)
Definition wg_nonce32 (wg : list Z) : Z :=
  Z.lxor (Z.lxor (Z.lxor (from_le (window 16 4 wg)) (from_le (window 20 4 wg)))
            (from_le (window 24 4 wg)))
    (from_le (window 28 4 wg)).

Definition csum_step (csum : Z) : Z :=
  if shr csum 16 =? 0 then csum else Z.land csum 0xFFFF + shr csum 16.
Definition csum_fold (csum : Z) : Z := bnot 16 (as_u16 (Nat.iter 4 csum_step csum)).

(** The last byte of a header. *)
Definition pad_code (pad_len : Z) : Z :=
  if 0 <? pad_len then Z.lor 0x40 (Z.land (as_u8 (pad_len - 1)) 0x3F) else 0x00.

(** ** Helpers of the kernel *)

(** A packet of the traffic control layer: its bytes, and how many of them a
    program may access directly; the rest is reached through helpers. *)
Record skb := mkSkb { k_bytes : list Z; k_linear : nat }.

Definition k_len (k : skb) : nat := length (k_bytes k).
Definition data_end (k : skb) : nat := Nat.min (k_linear k) (k_len k).

(** [bpf_skb_adjust_room] is used to grow at the MAC layer only, and
    [bpf_csum_diff] with no bytes to subtract; [bpf_map_update_elem] is the one
    of an LRU hash. *)
Class PacketKernel := {
  bpf_skb_load_bytes : skb → nat → nat → option (list Z);
  bpf_skb_store_bytes : skb → nat → list Z → option skb;
  bpf_skb_change_tail : skb → nat → option skb;
  bpf_skb_adjust_room : skb → nat → option skb;
  bpf_skb_pull_data : skb → nat → option skb;
  bpf_xdp_load_bytes : list Z → nat → nat → option (list Z);
  bpf_xdp_store_bytes : list Z → nat → list Z → option (list Z);
  bpf_xdp_adjust_head : list Z → nat → option (list Z);
  bpf_xdp_adjust_tail : list Z → Z → option (list Z);
  bpf_csum_diff : list Z → Z → Z;
  lru_update : ∀ A, gmap Z A → Z → A → gmap Z A
}.
Arguments lru_update {_ _}.

(** The sum of the 16-bit words of a block in native order. *)
Fixpoint word_sum_le (b : list Z) : Z :=
  match b with
  | lo :: hi :: b => lo + 256 * hi + word_sum_le b
  | _ => 0
  end.

(** What the kernel documents: loading fails exactly outside of the packet; a
    call that changes the packet may fail, and does what it says when it does
    not; a checksum is a sum of 16-bit words in one's complement arithmetic,
    kept in 32 bits; an update of an LRU hash may evict other entries. *)
Class PacketLaws `{PacketKernel} := {
  skb_load k off n : bpf_skb_load_bytes k off n
    = if (off + n <=? k_len k)%nat then Some (window off n (k_bytes k)) else None;
  skb_store k off b k' : bpf_skb_store_bytes k off b = Some k' →
    (off + length b ≤ k_len k)%nat ∧ k_bytes k' = list_inserts off b (k_bytes k);
  skb_tail k n k' : bpf_skb_change_tail k n = Some k' → (k_len k ≤ n)%nat →
    ∃ pad, length pad = (n - k_len k)%nat ∧ k_bytes k' = k_bytes k ++ pad;
  skb_room k n k' : bpf_skb_adjust_room k n = Some k' → (14 ≤ k_len k)%nat →
    ∃ gap, length gap = n ∧ k_bytes k' = take 14 (k_bytes k) ++ gap ++ drop 14 (k_bytes k);
  skb_pull k n k' : bpf_skb_pull_data k n = Some k' →
    k_bytes k' = k_bytes k ∧ ((n ≤ k_len k)%nat → (n ≤ data_end k')%nat);
  xdp_load p off n : bpf_xdp_load_bytes p off n
    = if (off + n <=? length p)%nat then Some (window off n p) else None;
  xdp_store p off b : bpf_xdp_store_bytes p off b
    = if (off + length b <=? length p)%nat then Some (list_inserts off b p) else None;
  xdp_head p n p' : bpf_xdp_adjust_head p n = Some p' → p' = drop n p ∧ (n + 14 ≤ length p)%nat;
  xdp_tail_shrink p n p' : bpf_xdp_adjust_tail p (- Z.of_nat n) = Some p' →
    p' = take (length p - n) p ∧ (n + 14 ≤ length p)%nat;
  csum_diff_range b s : bytes b → is_u32 s → is_u32 (bpf_csum_diff b s);
  csum_diff_sum b s : bytes b → is_u32 s → (4 | Z.of_nat (length b)) →
    bpf_csum_diff b s mod 65535 = (word_sum_le b + s) mod 65535;
  lru_updated A (m : gmap Z A) k v : lru_update m k v !! k = Some v;
  lru_others A (m : gmap Z A) k v k' w : k' ≠ k → lru_update m k v !! k' = Some w → m !! k' = Some w
}.

(** No call fails for want of memory. *)
Class PacketReliable `{PacketKernel} := {
  store_ok k off b : (off + length b ≤ k_len k)%nat → is_Some (bpf_skb_store_bytes k off b);
  tail_ok k n : (k_len k ≤ n)%nat → Z.of_nat n < 2 ^ 16 → is_Some (bpf_skb_change_tail k n);
  room_ok k n : (14 ≤ k_len k)%nat → Z.of_nat (k_len k + n) < 2 ^ 16 → is_Some (bpf_skb_adjust_room k n);
  pull_ok k n : (n ≤ k_len k)%nat → is_Some (bpf_skb_pull_data k n);
  head_ok p n : (n + 14 ≤ length p)%nat → is_Some (bpf_xdp_adjust_head p n);
  shrink_ok p n : (n + 14 ≤ length p)%nat → is_Some (bpf_xdp_adjust_tail p (- Z.of_nat n))
}.

(** ** Programs *)

Section programs.
  Context {S V : Type}.

(** [return v] *)
Definition leave {A} (v : V) : KM S V A := λ s, (Err v, s).
(** [if (b) return v;] *)
Definition leave_if (b : bool) (v : V) : KM S V unit := if b then leave v else mret tt.
(** A helper that returns an error code. *)
Definition or_leave {A} (o : option A) (v : V) : KM S V A :=
  match o with Some a => mret a | None => leave v end.
Definition gets {A} (f : S → A) : KM S V A := λ s, (Ok (f s), s).
Definition modify (f : S → S) : KM S V unit := λ s, (Ok tt, f s).
Definition checked_access {A} (o : outcome A) : KM S V A := λ s, (lift o, s).
End programs.

(** Direct access below [data_end]. *)
Definition peek (b : list Z) (end_ off n : nat) : outcome (list Z) :=
  if (off + n <=? end_)%nat then Done (window off n b) else Panic.
Definition poke (b : list Z) (end_ off : nat) (v : list Z) : outcome (list Z) :=
  if (off + length v <=? end_)%nat then Done (list_inserts off v b) else Panic.

(** ** Headers *)

Definition write_gut_header (b : list Z) (end_ quic : nat) (ppn enc_ports pad_len : Z)
    : outcome (list Z) :=
  if (end_ <? quic + GUT_HEADER_SIZE)%nat then Done b else
  b ← poke b end_ quic (u32_to_le_bytes ppn);
  b ← poke b end_ (quic + 4) (u32_to_le_bytes enc_ports);
  b ← poke b end_ (quic + 8) [0x00];
  poke b end_ (quic + 9) [pad_code pad_len].

Definition write_quic_short_header (b : list Z) (end_ quic : nat) (dcid ppn enc_ports pad_len : Z)
    : outcome (list Z) :=
  if (end_ <? quic + GUT_QUIC_SHORT_HEADER_SIZE)%nat then Done b else
  b ← poke b end_ quic [0x40];
  b ← poke b end_ (quic + 1) (u32_to_le_bytes dcid);
  b ← poke b end_ (quic + 5) [0x01];
  b ← poke b end_ (quic + 6) (u32_to_le_bytes ppn);
  b ← poke b end_ (quic + 10) (u32_to_le_bytes enc_ports);
  b ← poke b end_ (quic + 14) [0x00];
  poke b end_ (quic + 15) [pad_code pad_len].

(** ** What the programs agree on with the userspace path *)

Lemma st_add_at s s' i j : s = s' → st_add s i j = add_at s' i j.
Proof. by intros ->. Qed.
Lemma st_xor_at s s' i j : s = s' → st_xor s i j = xor_at s' i j.
Proof. by intros ->. Qed.
Lemma st_rot_at s s' i n m : s = s' → m = 32 - n → st_rot s i n m = rot_at s' i n.
Proof. by intros -> ->. Qed.

Lemma qr_idx_qr s s' a b c d : s = s' → CHACHA_QR_IDX s a b c d = qr s' a b c d.
Proof.
  intros H. unfold CHACHA_QR_IDX, qr. cbv zeta.
  repeat first [apply st_rot_at; [|reflexivity] | apply st_xor_at | apply st_add_at]. exact H.
Qed.

Lemma double_round_idx s s' : s = s' → CHACHA_DOUBLE_ROUND_IDX s = double_round s'.
Proof. intros H. unfold CHACHA_DOUBLE_ROUND_IDX, double_round. cbv zeta. repeat apply qr_idx_qr. exact H. Qed.

Lemma double_rounds_dr rounds : 0 ≤ rounds ≤ 21 → double_rounds rounds = rounds_dr rounds.
Proof.
  intros H. revert rounds H.
  assert (Hc : ∀ z, 0 ≤ z < 22 → double_rounds z = rounds_dr z)
    by (apply (check_below_P (λ z, double_rounds z = rounds_dr z) 22); vm_compute; reflexivity).
  intros z Hz. apply Hc. lia.
Qed.

Lemma chacha_block_userspace rounds init counter nonce :
  expanded_key init → is_u32 counter → is_u32 nonce → 0 ≤ rounds ≤ 21 →
  chacha_block rounds init counter nonce = chacha_block_fast init counter nonce rounds.
Proof.
  intros [Hw Hl] Hc Hn Hr. unfold chacha_block, chacha_block_fast, chacha_core.
  rewrite double_rounds_dr by done.
  assert (Hi : ∀ n s, Nat.iter n CHACHA_DOUBLE_ROUND_IDX s = Nat.iter n double_round s).
  { induction n as [|n IH]; intros s; simpl; [done|]. apply double_round_idx, IH. }
  rewrite Hi. set (ini := init ++ [counter; nonce; 0; 0]).
  assert (Hst : chacha_state ini).
  { split; [|by subst ini; rewrite length_app, Hl]. apply Forall_app. split; [done|]. forall_list. }
  assert (Hks : chacha_state (Nat.iter (rounds_dr rounds) double_round ini)).
  { generalize (rounds_dr rounds). induction n; simpl; [done|]. by apply double_round_wf. }
  set (ks := Nat.iter _ _ _) in *. destruct Hks as [Hkw Hkl].
  rewrite <- (take_drop 14 ks) at 3.
  replace ini with ((init ++ [counter; nonce]) ++ [0; 0]) by (subst ini; by rewrite <- app_assoc).
  rewrite zip_with_app by (rewrite length_take, length_app, Hl, Hkl; done). f_equal.
  assert (Hd : length (drop 14 ks) = 2%nat) by (rewrite length_drop, Hkl; done).
  assert (Hdw : words (drop 14 ks)) by by apply Forall_drop.
  destruct (drop 14 ks) as [|x [|y [|]]]; try discriminate Hd. simpl.
  inversion Hdw as [|?? Hx Hy]; subst. inversion Hy as [|?? Hy' _]; subst.
  unfold wrapping_add. by rewrite !Z.add_0_r, !wrap_small.
Qed.

Lemma wg_nonce32_userspace wg : (32 ≤ length wg)%nat → Obfs.wg_nonce32 wg = Done (wg_nonce32 wg).
Proof.
  intros H. unfold Obfs.wg_nonce32. destruct (Nat.ltb_spec (length wg) 32); [lia|].
  by rewrite !read_u32_le_Done by lia.
Qed.

(** ** UDP frames

    The layout of the frames both packet programs handle, without a VLAN tag
    and without IP options: an Ethernet header, an IP header, a UDP header, and
    the payload up to the end of the frame. *)

Inductive ipver := IPv4 | IPv6.

Definition ip_len (v : ipver) : nat := match v with IPv4 => 20%nat | IPv6 => 40%nat end.
Definition udp_at (v : ipver) : nat := (14 + ip_len v)%nat.
Definition payload_at (v : ipver) : nat := (udp_at v + 8)%nat.
Definition ether_type (v : ipver) : Z := match v with IPv4 => 0x0800 | IPv6 => 0x86DD end.

Record udp_frame (v : ipver) (F : list Z) (sport dport : Z) (payload : list Z) : Prop := {
  uf_payload : drop (payload_at v) F = payload;
  uf_length : length F = (payload_at v + length payload)%nat;
  uf_type : window 12 2 F = be_bytes 2 (ether_type v);
  uf_ip : match v with
          | IPv4 => Z.land (F !!! 14%nat) 0x0F = 5 ∧ F !!! 23%nat = 17
          | IPv6 => F !!! 20%nat = 17
          end;
  uf_sport : window (udp_at v) 2 F = be_bytes 2 sport;
  uf_dport : window (udp_at v + 2) 2 F = be_bytes 2 dport;
  uf_udp_len : window (udp_at v + 4) 2 F = be_bytes 2 (8 + Z.of_nat (length payload))
}.

(** The total length in the IP header. *)
Definition ip_total (v : ipver) (F : list Z) : list Z :=
  match v with IPv4 => window 16 2 F | IPv6 => window 18 2 F end.

Definition saddr (v : ipver) (F : list Z) : list Z :=
  match v with IPv4 => window 26 4 F | IPv6 => window 22 16 F end.
Definition daddr (v : ipver) (F : list Z) : list Z :=
  match v with IPv4 => window 30 4 F | IPv6 => window 38 16 F end.

Definition udp_checksum (v : ipver) (F : list Z) : list Z := window (udp_at v + 6) 2 F.

(** ** Writes to a frame *)

Lemma lookup_total_window {A} `{Inhabited A} lo i (l : list A) n : (i < n)%nat →
  window lo n l !!! i = l !!! (lo + i)%nat.
Proof. intros Hi. rewrite !list_lookup_total_alt. f_equal. rewrite lookup_window. by rewrite decide_True. Qed.

Lemma lookup_total_inserts_ne {A} `{Inhabited A} off (v l : list A) i :
  (i < off ∨ off + length v ≤ i)%nat → list_inserts off v l !!! i = l !!! i.
Proof.
  intros Hi. rewrite !list_lookup_total_alt. f_equal.
  destruct Hi; [by rewrite list_lookup_inserts_lt|by rewrite list_lookup_inserts_ge].
Qed.

Lemma from_be_u16 n : 0 ≤ n < 2 ^ 16 → from_be (be_bytes 2 n) = n.
Proof. intros. rewrite from_be_bytes. by apply wrap_small. Qed.

(** A block of a frame that a sequence of writes leaves alone, or is one of. *)
Ltac writes :=
  repeat first
    [ rewrite window_inserts_eq by (len; lia)
    | rewrite window_list_inserts_ne by (len; lia)
    | rewrite lookup_total_inserts_ne by (len; lia) ].
