(* ===== verification/BpfEgress.v ===== *)
(** * bpf/tc_gut_egress.bpf.c: the packet program of the sending direction

    [gut_egress] is attached to the veth end that WireGuard sends through.  It
    hides the message in a frame to the peer and redirects the frame to the
    physical interface.  The program is compiled once for each mode; this is
    the one for GUT and the one for QUIC.  A message that needs a QUIC long
    header ends in a tail call with the values it passes on.

    The scratch regions in which the C code keeps its key streams and copies
    do not overlap, so they are values here.  Looking up the only entry of an
    array map does not fail; [stats] may be missing, as in the code. *)

From stdpp Require Import gmap.
From S2P Require Import Prelude Words Slices Results Obfs Loader Links BpfCommon.
Local Open Scope Z_scope.

(** The modes compiled here. *)
Inductive pmode := PGut | PQuic.

(** [struct peer_endpoint], without its padding. *)
Record peer_endpoint := mkEndpoint {
  ep_ip4 : Z;
  ep_ip6 : list Z;
  ep_port : Z;
  ep_server_ip4 : Z;
  ep_server_ip6 : list Z;
  ep_server_port : Z;
  ep_valid : Z;
  ep_obfs_gut : Z
}.

Record tail_ctx := mkTail {
  tc_nonce : Z;
  tc_ppn : Z;
  tc_enc_ports : Z;
  tc_pad_len : Z;
  tc_wg_type : Z;
  tc_wg_idx : Z;
  tc_tunnel_port : Z;
  tc_wg_len : Z;
  tc_c_idx : Z;
  tc_ipver : Z;
  tc_new_quic_off : nat;
  tc_outer_hdr_len : nat
}.

Inductive tc_verdict :=
| TC_ACT_OK
| TC_ACT_SHOT
| TcRedirect (ifindex : Z)
| TcTailCall (t : tail_ctx).

Record egress_state := mkEgress {
  es_skb : skb;
  es_seq : Z;
  es_stats : option GutStats;
  es_clients : gmap Z peer_endpoint;
  es_sessions : gmap Z Z
}.

Definition with_skb (k : skb) (s : egress_state) : egress_state :=
  mkEgress k (es_seq s) (es_stats s) (es_clients s) (es_sessions s).
Definition with_seq (n : Z) (s : egress_state) : egress_state :=
  mkEgress (es_skb s) n (es_stats s) (es_clients s) (es_sessions s).
Definition with_stats (f : GutStats → GutStats) (s : egress_state) : egress_state :=
  mkEgress (es_skb s) (es_seq s) (f <$> es_stats s) (es_clients s) (es_sessions s).
Definition with_sessions (m : gmap Z Z) (s : egress_state) : egress_state :=
  mkEgress (es_skb s) (es_seq s) (es_stats s) (es_clients s) m.

Definition count_dropped (s : GutStats) : GutStats :=
  mkStats (packets_processed s) (wrapping_add 64 (packets_dropped s) 1) (bytes_processed s)
    (packets_oversized s) (mask_count s) (packets_fragmented s) (inner_tcp_seen s)
    (packets_egress s) (packets_ingress s).

Definition count_sent (len : Z) (s : GutStats) : GutStats :=
  mkStats (wrapping_add 64 (packets_processed s) 1) (packets_dropped s)
    (wrapping_add 64 (bytes_processed s) len) (packets_oversized s) (mask_count s)
    (packets_fragmented s) (inner_tcp_seen s) (wrapping_add 64 (packets_egress s) 1)
    (packets_ingress s).

Abbreviation EM := (KM egress_state tc_verdict).

(** Direct access to the packet. *)
Definition peek_skb (off n : nat) : EM (list Z) := λ s,
  (lift (peek (k_bytes (es_skb s)) (data_end (es_skb s)) off n), s).
Definition peek8 (off : nat) : EM Z := b ← peek_skb off 1; mret (b !!! 0%nat).
(** A 16-bit field in network order. *)
Definition peek16 (off : nat) : EM Z := b ← peek_skb off 2; mret (from_be b).
Definition poke_skb (off : nat) (v : list Z) : EM unit := λ s,
  match poke (k_bytes (es_skb s)) (data_end (es_skb s)) off v with
  | Done b => (Ok tt, with_skb (mkSkb b (k_linear (es_skb s))) s)
  | Panic => (Abort, s)
  end.

(** [if (p + n > data_end) return TC_ACT_OK;] *)
Definition within (off : nat) : EM unit :=
  k ← gets es_skb; leave_if (data_end k <? off)%nat TC_ACT_OK.

(** ** Parsing *)

Definition ETH_P_IP : Z := 0x0800.
Definition ETH_P_IPV6 : Z := 0x86DD.
Definition ETH_P_8021Q : Z := 0x8100.
Definition IPPROTO_UDP : Z := 17.
Definition WG_MIN_PACKET : nat := 32.

(** The offset of the UDP header and the version of IP. *)
Definition parse_headers : EM (nat * Z) :=
  _ ← within 14;
  h_proto ← peek16 12;
  '(protocol, ip_off) ← (if h_proto =? ETH_P_8021Q then
                           _ ← within 18; p ← peek16 16; mret (p, 18%nat)
                         else mret (h_proto, 14%nat));
  '(udp_off, ipver) ←
    (if protocol =? ETH_P_IP then
       _ ← within (ip_off + 20);
       p ← peek8 (ip_off + 9);
       _ ← leave_if (negb (p =? IPPROTO_UDP)) TC_ACT_OK;
       b ← peek8 ip_off;
       mret ((ip_off + Z.to_nat (Z.land b 0x0F) * 4)%nat, 4)
     else if h_proto =? ETH_P_IPV6 then
       _ ← within (ip_off + 40);
       p ← peek8 (ip_off + 6);
       _ ← leave_if (negb (p =? IPPROTO_UDP)) TC_ACT_OK;
       mret ((ip_off + 40)%nat, 6)
     else leave TC_ACT_OK);
  _ ← within (udp_off + 8);
  mret (udp_off, ipver).

Section egress.
  Context `{PacketKernel}.

Definition skb_load_or_leave (off n : nat) : EM (list Z) :=
  k ← gets es_skb; or_leave (bpf_skb_load_bytes k off n) TC_ACT_OK.
(** A helper that changes the packet. *)
Definition skb_call (f : skb → option skb) : EM unit :=
  k ← gets es_skb; k ← or_leave (f k) TC_ACT_OK; modify (with_skb k).
(** The same with its result ignored. *)
Definition skb_try (f : skb → option skb) : EM unit := modify (λ s,
  match f (es_skb s) with Some k => with_skb k s | None => s end).

(** The offset and the length of the message, and its first bytes. *)
Definition find_message (udp_off : nat) : EM (nat * Z * list Z) :=
  udp_len ← peek16 (udp_off + 4);
  let wg_off := (udp_off + 8)%nat in
  let wg_len := wrap 32 (udp_len - 8) in
  k ← gets es_skb;
  _ ← leave_if ((Z.of_nat (k_len k) <? wrap 32 (Z.of_nat wg_off + wg_len))
                || (wg_len <? Z.of_nat WG_MIN_PACKET)) TC_ACT_OK;
  wg_head ← skb_load_or_leave wg_off WG_MIN_PACKET;
  let wg_type := Z.land (wg_head !!! 0%nat) 0x1F in
  _ ← leave_if ((wg_type <? 1) || (4 <? wg_type) || negb (wg_head !!! 1%nat =? 0)
                || negb (wg_head !!! 2%nat =? 0)) TC_ACT_OK;
  mret (wg_off, wg_len, wg_head).

(** Keepalives are dropped with the configured probability. *)
Definition drop_keepalive (cfg : GutConfig) (prandom wg_type wg_len : Z) : EM unit :=
  if (wg_type =? 4) && (wg_len =? Z.of_nat WG_MIN_PACKET) && (0 <? gc_keepalive_drop_percent cfg)
     && (prandom mod 100 <? gc_keepalive_drop_percent cfg)
  then _ ← modify (with_stats count_dropped); leave TC_ACT_SHOT
  else mret tt.

Definition next_seq : EM Z :=
  seq ← gets es_seq;
  let seq := if seq =? 0 then 1 else seq in
  _ ← modify (with_seq (wrap 32 (seq + 1)));
  mret seq.

(** ** Sizes *)

Definition outer_header (m : pmode) (wg_type : Z) : nat :=
  match m with
  | PGut => GUT_HEADER_SIZE
  | PQuic => if (wg_type =? 1) || (wg_type =? 3) then GUT_QUIC_LONG_HEADER_SIZE
             else GUT_QUIC_SHORT_HEADER_SIZE
  end.

Definition BALLAST_THRESHOLD : Z := 220.

(** [last] is the last byte of the padding block. *)
Definition padding_for (m : pmode) (outer_hdr_len : nat) (wg_len last : Z) : Z :=
  match m with
  | PGut =>
      let base_udp := wrap 32 (8 + Z.of_nat outer_hdr_len + wg_len) in
      if wg_len <? 256 then
        let remainder := Z.land base_udp 0x0F in
        if remainder =? 0 then 0 else 16 - remainder
      else 0
  | PQuic => if wg_len <? BALLAST_THRESHOLD then Z.land last 0x3F + 1 else 0
  end.

(** The inline assembly cuts the length to seven bits. *)
Definition append_padding (pad_len : Z) (pad_block : list Z) : EM Z :=
  if negb (0 <? pad_len) then mret pad_len else
  _ ← skb_call (λ k, bpf_skb_change_tail k (k_len k + Z.to_nat pad_len));
  let pad_len := Z.land pad_len 127 in
  _ ← leave_if ((pad_len <? 1) || (64 <? pad_len)) TC_ACT_OK;
  _ ← skb_call (λ k, bpf_skb_store_bytes k (k_len k - Z.to_nat pad_len)
                       (take (Z.to_nat pad_len) pad_block));
  mret pad_len.

(** ** Routing and masking *)

(** The index that names the client, and the bridge from the index of the
    server to it. *)
Definition bridge_session (cfg : GutConfig) (wg_type : Z) (wg_head : list Z) : EM Z :=
  let at4 := from_le (window 4 4 wg_head) in
  let wg_idx := if wg_type =? 2 then from_le (window 8 4 wg_head) else at4 in
  if gc_dynamic_peer cfg =? 0 then mret wg_idx
  else if wg_type =? 1 then leave TC_ACT_OK
  else
    let c_idx := if (wg_type =? 4) || (wg_type =? 3) then at4 else wg_idx in
    _ ← (if wg_type =? 2
         then modify (λ s, with_sessions (lru_update (es_sessions s) at4 c_idx) s) else mret tt);
    mret c_idx.

(** XOR sixteen bytes of the packet; a failure leaves them as they are. *)
Definition mask_mac2 (off : nat) (ks : list Z) : EM unit :=
  skb_try (λ k, mac2 ← bpf_skb_load_bytes k off 16; bpf_skb_store_bytes k off (xor_bytes mac2 ks)).

Definition mask_message (wg_off : nat) (wg_len wg_type : Z) (wg_head ks47_b : list Z) : EM unit :=
  _ ← skb_call (λ k, bpf_skb_store_bytes k wg_off (xor_bytes (take 16 wg_head) (take 16 ks47_b)));
  let k2 := window 16 16 ks47_b in
  if (wg_type =? 1) && (148 <=? wg_len) then mask_mac2 (wg_off + 132) k2
  else if (wg_type =? 2) && (92 <=? wg_len) then mask_mac2 (wg_off + 76) k2
  else mret tt.

(** Room for the header, and the headers before it moved to the front. *)
Definition make_room (room shift_len : nat) : EM unit :=
  _ ← skb_call (λ k, bpf_skb_adjust_room k room);
  _ ← skb_call (λ k, bpf_skb_pull_data k (k_len k));
  _ ← within (14 + room + shift_len);
  hdrs ← peek_skb (14 + room) shift_len;
  poke_skb 14 hdrs.

Definition on_bytes (f : list Z → nat → outcome (list Z)) : EM unit := λ s,
  match f (k_bytes (es_skb s)) (data_end (es_skb s)) with
  | Done b => (Ok tt, with_skb (mkSkb b (k_linear (es_skb s))) s)
  | Panic => (Abort, s)
  end.

(** ** Outer headers *)

(** The client a dynamic peer is to be reached at. *)
Definition endpoint_of (c_idx : Z) : EM peer_endpoint :=
  cs ← gets es_clients;
  match cs !! c_idx with
  | Some ep => if ep_valid ep =? 0 then leave TC_ACT_OK else mret ep
  | None => leave TC_ACT_OK
  end.

(** The ports of a dynamic peer. *)
Definition client_ports (udp : nat) (ep : peer_endpoint) : EM unit :=
  _ ← poke_skb (udp + 2) (be_bytes 2 (ep_port ep));
  if ep_server_port ep =? 0 then mret tt else poke_skb udp (be_bytes 2 (ep_server_port ep)).

(** The sum over the pseudo header only: the payload is added by the
    interface or the kernel. *)
Definition pseudo_checksum (addrs udp_len : list Z) : Z :=
  let pseudo := wrap 32 (bpf_csum_diff addrs 0) in
  let ph := be_bytes 4 (Z.lor (Z.shiftl IPPROTO_UDP 16) (from_be udp_len)) in
  let pseudo := wrap 32 (bpf_csum_diff ph pseudo) in
  bnot 16 (csum_fold pseudo).

Definition route_ipv4 (cfg : GutConfig) (c_idx : Z) : EM unit :=
  if gc_dynamic_peer cfg =? 0 then
    _ ← poke_skb 26 (u32_to_le_bytes (gc_bind_ip cfg));
    poke_skb 30 (u32_to_le_bytes (gc_peer_ip cfg))
  else
    ep ← endpoint_of c_idx;
    _ ← poke_skb 26 (u32_to_le_bytes (if ep_server_ip4 ep =? 0 then gc_bind_ip cfg
                                      else ep_server_ip4 ep));
    _ ← poke_skb 30 (u32_to_le_bytes (ep_ip4 ep));
    client_ports 34 ep.

Definition fix_ipv4 (cfg : GutConfig) (new_udp_len tunnel_port c_idx : Z) : EM unit :=
  _ ← poke_skb 16 (be_bytes 2 (wrap 32 (new_udp_len + 20)));
  _ ← poke_skb 38 (be_bytes 2 new_udp_len);
  _ ← poke_skb 34 (be_bytes 2 tunnel_port);
  _ ← poke_skb 36 (be_bytes 2 tunnel_port);
  _ ← poke_skb 24 [0; 0];
  _ ← route_ipv4 cfg c_idx;
  iph ← peek_skb 14 20;
  _ ← poke_skb 24 (u16_to_le_bytes (csum_fold (bpf_csum_diff iph 0)));
  _ ← poke_skb 40 [0; 0];
  addrs ← peek_skb 26 8;
  len ← peek_skb 38 2;
  poke_skb 40 (u16_to_le_bytes (pseudo_checksum addrs len)).

Definition route_ipv6 (cfg : GutConfig) (c_idx : Z) : EM unit :=
  if gc_dynamic_peer cfg =? 0 then
    _ ← poke_skb 22 (gc_bind_ip6 cfg);
    poke_skb 38 (gc_peer_ip6 cfg)
  else
    ep ← endpoint_of c_idx;
    _ ← poke_skb 22 (if bool_decide (ep_server_ip6 ep = replicate 16 0) then gc_bind_ip6 cfg
                     else ep_server_ip6 ep);
    _ ← poke_skb 38 (ep_ip6 ep);
    client_ports 54 ep.

Definition fix_ipv6 (cfg : GutConfig) (new_udp_len tunnel_port c_idx : Z) : EM unit :=
  _ ← poke_skb 18 (be_bytes 2 new_udp_len);
  _ ← poke_skb 58 (be_bytes 2 new_udp_len);
  _ ← poke_skb 54 (be_bytes 2 tunnel_port);
  _ ← poke_skb 56 (be_bytes 2 tunnel_port);
  _ ← route_ipv6 cfg c_idx;
  _ ← poke_skb 60 [0; 0];
  addrs ← peek_skb 22 32;
  len ← peek_skb 58 2;
  poke_skb 60 (u16_to_le_bytes (pseudo_checksum addrs len)).

(** ** The program *)

(** A message that is to be sent. *)
Record outgoing := mkOutgoing {
  og_wg_off : nat;
  og_wg_len : Z;
  og_wg_head : list Z;
  og_ipver : Z;
  og_plain_ports : Z;
  og_tunnel_port : Z
}.

Definition take_message (cfg : GutConfig) (prandom : Z) : EM outgoing :=
  k ← gets es_skb;
  _ ← leave_if (k_len k <? 14 + 20 + 8 + WG_MIN_PACKET)%nat TC_ACT_OK;
  '(udp_off, ipver) ← parse_headers;
  '(wg_off, wg_len, wg_head) ← find_message udp_off;
  _ ← drop_keepalive cfg prandom (Z.land (wg_head !!! 0%nat) 0x1F) wg_len;
  sport ← peek16 udp_off;
  dport ← peek16 (udp_off + 2);
  seq ← next_seq;
  let tunnel_port := select_port seq cfg in
  _ ← leave_if (tunnel_port =? 0) TC_ACT_OK;
  mret (mkOutgoing wg_off wg_len wg_head ipver (Z.lor (shl 32 sport 16) dport) tunnel_port).

(** Turn the message into a datagram; the index of the client and the length
    of the UDP datagram. *)
Definition hide_message (m : pmode) (rounds : Z) (cfg : GutConfig) (o : outgoing) : EM (Z * Z) :=
  let '(mkOutgoing wg_off wg_len wg_head ipver plain_ports tunnel_port) := o in
  let wg_type := Z.land (wg_head !!! 0%nat) 0x1F in
  let nonce := wg_nonce32 wg_head in
  let outer_hdr_len := outer_header m wg_type in
  let pad_block := words_to_bytes (chacha_block rounds (gc_chacha_init cfg) 69 nonce) in
  pad_len ← append_padding (padding_for m outer_hdr_len wg_len (pad_block !!! 63%nat)) pad_block;
  let ks47 := chacha_block rounds (gc_chacha_init cfg) 47 nonce in
  let enc_ports := Z.lxor plain_ports (ks47 !!! 11%nat) in
  let wg_idx := from_le (window (if wg_type =? 2 then 8 else 4) 4 wg_head) in
  c_idx ← bridge_session cfg wg_type wg_head;
  let ppn := ks47 !!! 10%nat in
  _ ← mask_message wg_off wg_len wg_type wg_head (words_to_bytes ks47);
  let shift_len := if ipver =? 4 then 28%nat else 48%nat in
  _ ← make_room outer_hdr_len shift_len;
  let new_quic_off := (14 + shift_len)%nat in
  _ ← match m with
      | PGut => on_bytes (λ b e, write_gut_header b e new_quic_off ppn enc_ports pad_len)
      | PQuic =>
          if (outer_hdr_len =? GUT_QUIC_SHORT_HEADER_SIZE)%nat
          then on_bytes (λ b e, write_quic_short_header b e new_quic_off (ks47 !!! 9%nat) ppn enc_ports pad_len)
          else leave (TcTailCall (mkTail nonce ppn enc_ports pad_len wg_type wg_idx tunnel_port wg_len
                                    c_idx ipver new_quic_off outer_hdr_len))
      end;
  mret (c_idx, wrap 32 (wg_len + Z.of_nat outer_hdr_len + pad_len + 8)).

(** Address the frame and send it. *)
Definition send_frame (cfg : GutConfig) (ipver tunnel_port c_idx new_udp_len : Z) : EM tc_verdict :=
  _ ← (if ipver =? 4 then fix_ipv4 cfg new_udp_len tunnel_port c_idx
       else fix_ipv6 cfg new_udp_len tunnel_port c_idx);
  _ ← poke_skb 0 (gc_dst_mac cfg);
  _ ← poke_skb 6 (gc_src_mac cfg);
  k ← gets es_skb;
  _ ← modify (with_stats (count_sent (Z.of_nat (k_len k))));
  mret (TcRedirect (gc_egress_ifindex cfg)).

Definition gut_egress (m : pmode) (rounds : Z) (cfg : GutConfig) (prandom : Z) : EM tc_verdict :=
  o ← take_message cfg prandom;
  '(c_idx, new_udp_len) ← hide_message m rounds cfg o;
  send_frame cfg (og_ipver o) (og_tunnel_port o) c_idx new_udp_len.
End egress.
