(* ===== verification/BpfEgressProofs.v ===== *)
(** * bpf/tc_gut_egress.bpf.c: what the sending program does

    On the frame of a WireGuard message [gut_egress] builds the datagram that
    [obfs_encap] builds, and a frame to the peer around it. *)

From stdpp Require Import gmap.
From S2P Require Import Prelude Words Slices ChaCha Results Obfs ObfsMask ObfsHeader ObfsRoundtrip.
From S2P Require Import Loader Links BpfCommon BpfEgress.
Local Open Scope Z_scope.

Definition ver (v : ipver) : Z := match v with IPv4 => 4 | IPv6 => 6 end.

Definition set_bytes (b : list Z) (s : egress_state) : egress_state :=
  with_skb (mkSkb b (k_linear (es_skb s))) s.

Lemma km_step {S V A B} (m : KM S V A) (f : A → KM S V B) s a s' :
  m s = (Ok a, s') → (m ≫= f) s = f a s'.
Proof. intros H. unfold mbind, KM_bind. by rewrite H. Qed.

Lemma km_assoc {S V A B C} (m : KM S V A) (f : A → KM S V B) (g : B → KM S V C) s :
  ((m ≫= f) ≫= g) s = (m ≫= λ a, f a ≫= g) s.
Proof. unfold mbind, KM_bind. by destruct (m s) as [[]]. Qed.

Lemma km_ret {S V A B} (a : A) (f : A → KM S V B) s : (mret a ≫= f) s = f a s.
Proof. done. Qed.

Lemma km_gets {S V A B} (h : S → A) (f : A → KM S V B) s : (gets h ≫= f) s = f (h s) s.
Proof. done. Qed.

Lemma km_modify {S V B} (h : S → S) (f : unit → KM S V B) s : (modify h ≫= f) s = f tt (h s).
Proof. done. Qed.

Lemma km_stay {S V B} (x : V) (f : unit → KM S V B) s : (leave_if false x ≫= f) s = f tt s.
Proof. done. Qed.

Lemma km_some {S V A B} (a : A) (x : V) (f : A → KM S V B) s : (or_leave (Some a) x ≫= f) s = f a s.
Proof. done. Qed.

(** Run the next step of a program, by a lemma about it. *)
Ltac kret := cbv beta iota;
  repeat (first [rewrite km_assoc | rewrite km_ret | rewrite km_gets | rewrite km_modify
                | rewrite km_stay | rewrite km_some]; cbv beta iota).
Ltac kstep H := kret; rewrite (km_step _ _ _ _ _ H); cbv beta iota; kret.

(** ** Access to the packet *)

Lemma within_Ok off s : (off ≤ data_end (es_skb s))%nat → within off s = (Ok tt, s).
Proof.
  intros H. unfold within. kret. unfold leave_if.
  by destruct (Nat.ltb_spec (data_end (es_skb s)) off); [lia|].
Qed.

Lemma peek_skb_Ok off n s : (off + n ≤ data_end (es_skb s))%nat →
  peek_skb off n s = (Ok (window off n (k_bytes (es_skb s))), s).
Proof. intros H. unfold peek_skb, peek. by destruct (Nat.leb_spec (off + n) (data_end (es_skb s))); [|lia]. Qed.

Lemma peek16_Ok off s : (off + 2 ≤ data_end (es_skb s))%nat →
  peek16 off s = (Ok (from_be (window off 2 (k_bytes (es_skb s)))), s).
Proof. intros H. unfold peek16. by rewrite (km_step _ _ _ _ _ (peek_skb_Ok off 2 s H)). Qed.

Lemma peek8_Ok off s : (off + 1 ≤ data_end (es_skb s))%nat →
  peek8 off s = (Ok (k_bytes (es_skb s) !!! off), s).
Proof.
  intros H. unfold peek8. rewrite (km_step _ _ _ _ _ (peek_skb_Ok off 1 s H)).
  by rewrite lookup_total_window, Nat.add_0_r by lia.
Qed.

Lemma poke_skb_Ok off w s : (off + length w ≤ data_end (es_skb s))%nat →
  poke_skb off w s = (Ok tt, set_bytes (list_inserts off w (k_bytes (es_skb s))) s).
Proof. intros H. unfold poke_skb, poke. by destruct (Nat.leb_spec (off + length w) (data_end (es_skb s))); [|lia]. Qed.

Lemma data_end_set b s : length b = k_len (es_skb s) →
  data_end (es_skb (set_bytes b s)) = data_end (es_skb s).
Proof. intros H. unfold data_end, k_len in *. simpl. by rewrite H. Qed.

(** ** Parsing *)

(** A WireGuard message, as the program recognises it. *)
Record wg_message (wg : list Z) : Prop := {
  wm_bytes : bytes wg;
  wm_length : (32 ≤ length wg)%nat;
  wm_type : 1 ≤ Z.land (wg !!! 0%nat) 0x1F ≤ 4;
  wm_zero : wg !!! 1%nat = 0 ∧ wg !!! 2%nat = 0
}.

Definition wg_type_of (wg : list Z) : Z := Z.land (wg !!! 0%nat) 0x1F.

Section frame.
  Context (v : ipver) (sport dport : Z) (wg : list Z) (s : egress_state).
  Context (Hf : udp_frame v (k_bytes (es_skb s)) sport dport wg).
  Context (Hlin : (payload_at v ≤ data_end (es_skb s))%nat).
  Context (Hlen : 8 + Z.of_nat (length wg) < 2 ^ 16).

Lemma parse_headers_Ok : parse_headers s = (Ok (udp_at v, ver v), s).
Proof using Hf Hlin.
  destruct Hf as [_ _ Ht Hip _ _ _]. unfold payload_at, udp_at in *. unfold parse_headers.
  kstep (within_Ok 14 s ltac:(lia)). kstep (peek16_Ok 12 s ltac:(lia)).
  rewrite Ht, from_be_u16 by by destruct v.
  replace (ether_type v =? ETH_P_8021Q) with false by by destruct v. kret.
  destruct v; cbn [ether_type ip_len] in *.
  - change (0x0800 =? ETH_P_IP) with true. cbv iota.
    kstep (within_Ok 34 s ltac:(lia)). kstep (peek8_Ok 23 s ltac:(lia)). destruct Hip as [Hihl ->].
    change (negb (17 =? IPPROTO_UDP)) with false. kret.
    kstep (peek8_Ok 14 s ltac:(lia)). rewrite Hihl. by kstep (within_Ok 42 s ltac:(lia)).
  - change (0x86DD =? ETH_P_IP) with false. change (0x86DD =? ETH_P_IPV6) with true. cbv iota.
    kstep (within_Ok 54 s ltac:(lia)). kstep (peek8_Ok 20 s ltac:(lia)). rewrite Hip.
    change (negb (17 =? IPPROTO_UDP)) with false. kret.
    by kstep (within_Ok 62 s ltac:(lia)).
Qed.

  Context `{PK : !PacketKernel, PL : !PacketLaws}.

Lemma window_payload n :
  window (payload_at v) n (k_bytes (es_skb s)) = take n wg.
Proof using Hf. unfold window. by rewrite (uf_payload _ _ _ _ _ Hf). Qed.

Lemma k_len_frame : k_len (es_skb s) = (payload_at v + length wg)%nat.
Proof using Hf. apply Hf. Qed.

Lemma find_message_Ok : wg_message wg →
  find_message (udp_at v) s = (Ok (payload_at v, Z.of_nat (length wg), take 32 wg), s).
Proof using Hf Hlin Hlen PL.
  intros [_ H32 Ht [Hz1 Hz2]]. pose proof k_len_frame as Hk.
  destruct Hf as [_ _ _ _ _ _ Hul]. unfold find_message.
  kstep (peek16_Ok (udp_at v + 4) s ltac:(unfold payload_at in *; lia)).
  rewrite Hul, from_be_u16 by lia.
  replace (wrap 32 (8 + Z.of_nat (length wg) - 8)) with (Z.of_nat (length wg))
    by (unfold wrap; rewrite Z.mod_small; lia).
  rewrite Hk.
  change (udp_at v + 8)%nat with (payload_at v).
  assert (Hp : Z.of_nat (payload_at v) < 100) by (destruct v; vm_compute; done).
  replace (wrap 32 (Z.of_nat (payload_at v) + Z.of_nat (length wg)))
    with (Z.of_nat (payload_at v + length wg)) by (unfold wrap; rewrite Z.mod_small; lia).
  replace (_ || _) with false
    by (symmetry; apply orb_false_iff; split; apply Z.ltb_ge; unfold WG_MIN_PACKET; lia).
  unfold skb_load_or_leave. kret. rewrite skb_load, Hk.
  replace (payload_at v + WG_MIN_PACKET <=? payload_at v + length wg)%nat with true
    by (symmetry; apply Nat.leb_le; unfold WG_MIN_PACKET; lia).
  kret. rewrite window_payload. unfold WG_MIN_PACKET. rewrite !lookup_total_take_lt by lia. rewrite Hz1, Hz2.
  destruct (Z.ltb_spec (Z.land (wg !!! 0%nat) 0x1F) 1); [lia|].
  destruct (Z.ltb_spec 4 (Z.land (wg !!! 0%nat) 0x1F)); [lia|]. done.
Qed.
End frame.

(** ** The steps of the program *)

Lemma list_inserts_mid {A} a (x P w R : list A) : (a + length x ≤ length w)%nat →
  list_inserts (length P + a) x (P ++ w ++ R) = P ++ list_inserts a x w ++ R.
Proof.
  intros H. rewrite !list_inserts_app by len. rewrite take_app_add, <- !app_assoc. f_equal.
  rewrite take_app_le by lia. f_equal. f_equal.
  rewrite <- Nat.add_assoc, drop_app_add. by rewrite drop_app_le by lia.
Qed.

Lemma list_inserts_front {A} (x P w : list A) : (length x ≤ length w)%nat →
  list_inserts (length P) x (P ++ w) = P ++ x ++ drop (length x) w.
Proof.
  intros H. rewrite list_inserts_app by len. rewrite take_app_length. f_equal. f_equal.
  by rewrite drop_app_add.
Qed.

Lemma with_skb_same s : with_skb (es_skb s) s = s.
Proof. by destruct s. Qed.

Section steps.
  Context `{PK : !PacketKernel, PL : !PacketLaws, PR : !PacketReliable}.

Lemma skb_call_Ok f s k : f (es_skb s) = Some k → skb_call f s = (Ok tt, with_skb k s).
Proof. intros H. unfold skb_call. kret. rewrite H. by kret. Qed.

Lemma store_Ok off b s : (off + length b ≤ k_len (es_skb s))%nat → ∃ k,
  bpf_skb_store_bytes (es_skb s) off b = Some k ∧
  k_bytes k = list_inserts off b (k_bytes (es_skb s)).
Proof using PL PR.
  intros H. destruct (store_ok _ _ _ H) as [k Hk]. exists k. split; [done|].
  by apply (skb_store _ _ _ _ Hk).
Qed.

Lemma append_padding_Ok pad_len block s : 0 ≤ pad_len ≤ 64 → length block = 64%nat →
  Z.of_nat (k_len (es_skb s)) + pad_len < 2 ^ 16 → ∃ k,
  append_padding pad_len block s = (Ok pad_len, with_skb k s) ∧
  k_bytes k = k_bytes (es_skb s) ++ take (Z.to_nat pad_len) block.
Proof using PL PR.
  intros Hp Hb Hk. unfold append_padding. destruct (Z.ltb_spec 0 pad_len); cbn [negb].
  2: { exists (es_skb s). replace pad_len with 0 by lia. by rewrite with_skb_same, take_0, app_nil_r. }
  destruct (tail_ok (es_skb s) (k_len (es_skb s) + Z.to_nat pad_len)) as [k Htl]; [lia..|].
  kstep (skb_call_Ok (λ k, bpf_skb_change_tail k (k_len k + Z.to_nat pad_len)) s k Htl).
  destruct (skb_tail _ _ _ Htl) as (x & Hx & Hkb); [lia|].
  replace (Z.land pad_len 127) with pad_len.
  2: { change 127 with (2 ^ 7 - 1). rewrite land_ones_mod by lia. rewrite Z.mod_small; lia. }
  replace ((pad_len <? 1) || (64 <? pad_len)) with false
    by (symmetry; apply orb_false_iff; split; apply Z.ltb_ge; lia).
  kret.
  assert (Hk2 : k_len k = (k_len (es_skb s) + Z.to_nat pad_len)%nat) by (unfold k_len in *; rewrite Hkb; len).
  assert (Htk : length (take (Z.to_nat pad_len) block) = Z.to_nat pad_len) by len.
  destruct (store_Ok (k_len k - Z.to_nat pad_len) (take (Z.to_nat pad_len) block) (with_skb k s))
    as (k' & Hst & Hkb'); [simpl; lia|].
  kstep (skb_call_Ok (λ k, bpf_skb_store_bytes k (k_len k - Z.to_nat pad_len)
    (take (Z.to_nat pad_len) block)) (with_skb k s) k' Hst).
  exists k'. split; [done|]. rewrite Hkb'. simpl. rewrite Hkb.
  replace (k_len k - Z.to_nat pad_len)%nat with (length (k_bytes (es_skb s))) by (unfold k_len in *; lia).
  rewrite list_inserts_front by (unfold k_len in *; len).
  rewrite drop_ge by (unfold k_len in *; len). by rewrite app_nil_r.
Qed.

Lemma mask_mac2_Ok a ks P w R s : k_bytes (es_skb s) = P ++ w ++ R → (a + 16 ≤ length w)%nat →
  length ks = 64%nat → ∃ k,
  mask_mac2 (length P + a) (window 16 16 ks) s = (Ok tt, with_skb k s) ∧
  k_bytes k = P ++ xor_at16 a 16 ks w ++ R.
Proof using PL PR.
  intros Hb Ha Hks. unfold mask_mac2, skb_try, modify. rewrite skb_load.
  assert (Hlen : k_len (es_skb s) = (length P + (length w + length R))%nat)
    by (unfold k_len; rewrite Hb; len).
  destruct (Nat.leb_spec (length P + a + 16) (k_len (es_skb s))); [|lia].
  assert (Hw : window (length P + a) 16 (k_bytes (es_skb s)) = window a 16 w).
  { rewrite Hb, window_app_ge by lia. replace (length P + a - length P)%nat with a by lia.
    by rewrite window_app_l. }
  cbn [mbind option_bind]. rewrite Hw.
  assert (Hx : length (xor_bytes (window a 16 w) (window 16 16 ks)) = 16%nat)
    by (rewrite length_xor_bytes, !length_window; lia).
  destruct (store_Ok (length P + a) (xor_bytes (window a 16 w) (window 16 16 ks)) s) as (k & -> & Hk);
    [lia|].
  exists k. split; [done|]. rewrite Hk, Hb. by apply list_inserts_mid; rewrite Hx.
Qed.

Lemma mask_message_Ok ks P wg R s : k_bytes (es_skb s) = P ++ wg ++ R → (32 ≤ length wg)%nat →
  length ks = 64%nat → ∃ k,
  mask_message (length P) (Z.of_nat (length wg)) (wg_type_of wg) (take 32 wg) ks s = (Ok tt, with_skb k s) ∧
  k_bytes k = P ++ payload_mask ks (wg_type_of wg) wg ++ R.
Proof using PL PR.
  intros Hb H32 Hks. unfold mask_message. rewrite take_take, Nat.min_l by lia.
  assert (Hlen : k_len (es_skb s) = (length P + (length wg + length R))%nat)
    by (unfold k_len; rewrite Hb; len).
  assert (Hx : length (xor_bytes (take 16 wg) (take 16 ks)) = 16%nat) by (rewrite length_xor_bytes; len).
  destruct (store_Ok (length P) (xor_bytes (take 16 wg) (take 16 ks)) s) as (k & Hk & Hkb); [lia|].
  kstep (skb_call_Ok (λ k, bpf_skb_store_bytes k (length P) (xor_bytes (take 16 wg) (take 16 ks))) s k Hk).
  assert (Hkb1 : k_bytes k = P ++ xor_at16 0 0 ks wg ++ R).
  { rewrite Hkb, Hb. rewrite <- (Nat.add_0_r (length P)), list_inserts_mid by lia. done. }
  clear Hkb. unfold payload_mask, mask_tail. rewrite length_xor_at16.
  set (w1 := xor_at16 0 0 ks wg) in *.
  assert (Hw1 : length w1 = length wg) by apply length_xor_at16.
  replace (148 <=? Z.of_nat (length wg)) with (148 <=? length wg)%nat by (repeat case_bool; lia).
  replace (92 <=? Z.of_nat (length wg)) with (92 <=? length wg)%nat by (repeat case_bool; lia).
  destruct (wg_type_of wg =? 1); cbn [andb]; [destruct (Nat.leb_spec 148 (length wg))|];
    [exact (mask_mac2_Ok 132 ks P w1 R (with_skb k s) Hkb1 ltac:(lia) Hks)| |];
    (destruct (wg_type_of wg =? 2); cbn [andb]; [destruct (Nat.leb_spec 92 (length wg))|];
      [exact (mask_mac2_Ok 76 ks P w1 R (with_skb k s) Hkb1 ltac:(lia) Hks)|by exists k..]).
Qed.

(** The gap opens in front of the IP header, and the headers move over it. *)
Lemma make_room_Ok room shift s : (14 + shift ≤ k_len (es_skb s))%nat →
  Z.of_nat (k_len (es_skb s) + room) < 2 ^ 16 → ∃ k gap,
  make_room room shift s = (Ok tt, with_skb k s) ∧ length gap = room ∧ data_end k = k_len k ∧
  k_bytes k = take (14 + shift) (k_bytes (es_skb s)) ++ gap ++ drop (14 + shift) (k_bytes (es_skb s)).
Proof using PL PR.
  intros Hs Hr. unfold make_room.
  destruct (room_ok (es_skb s) room) as [k Hk]; [lia|done|].
  kstep (skb_call_Ok (λ k, bpf_skb_adjust_room k room) s k Hk).
  destruct (skb_room _ _ _ Hk) as (gap & Hg & Hkb); [lia|].
  destruct (pull_ok k (k_len k)) as [k2 Hk2]; [lia|].
  kstep (skb_call_Ok (λ k, bpf_skb_pull_data k (k_len k)) (with_skb k s) k2 Hk2).
  destruct (skb_pull _ _ _ Hk2) as [Hk2b Hk2e]. specialize (Hk2e ltac:(lia)).
  set (B := k_bytes (es_skb s)) in *.
  assert (HB : length B = k_len (es_skb s)) by done.
  assert (Hkl : k_len k2 = (length B + room)%nat) by (unfold k_len; rewrite Hk2b, Hkb; len).
  assert (Hkk : k_len k = k_len k2) by (unfold k_len; by rewrite Hk2b).
  assert (Hde : data_end k2 = k_len k2) by (unfold data_end in *; lia).
  kstep (within_Ok (14 + room + shift) (with_skb k2 (with_skb k s)) ltac:(simpl; lia)).
  kstep (peek_skb_Ok (14 + room) shift (with_skb k2 (with_skb k s)) ltac:(simpl; lia)).
  cbn [es_skb with_skb]. rewrite Hk2b, Hkb.
  assert (Hh : window (14 + room) shift (take 14 B ++ gap ++ drop 14 B) = window 14 shift B).
  { rewrite window_app_ge, window_app_ge by len. unfold window. rewrite drop_drop. do 2 f_equal. len. }
  rewrite Hh. assert (Hhl : length (window 14 shift B) = shift) by (apply length_window; lia).
  rewrite poke_skb_Ok by (simpl; lia). cbn [es_skb with_skb]. rewrite Hk2b, Hkb.
  set (X := list_inserts 14 _ _).
  assert (HX : ∃ gap', length gap' = room ∧ X = take (14 + shift) B ++ gap' ++ drop (14 + shift) B).
  { exists (take room (drop shift (gap ++ drop 14 B))).
    split; [rewrite length_take, length_drop; len|].
    subst X. replace 14%nat with (length (take 14 B)) at 1 by len.
    rewrite list_inserts_front by len. rewrite Hhl.
    rewrite <- (take_take_drop B 14 shift), <- !app_assoc. do 2 f_equal.
    rewrite <- (take_drop room (drop shift (gap ++ drop 14 B))) at 1. f_equal.
    rewrite drop_drop, (Nat.add_comm shift room), <- drop_drop.
    rewrite drop_app_length' by done. by rewrite drop_drop. }
  destruct HX as (gap' & Hg' & HX).
  exists (mkSkb X (k_linear k2)), gap'. split; [done|]. split; [done|]. split; [|done].
  unfold data_end, k_len in *. simpl. subst X. rewrite length_inserts.
  rewrite <- Hkb, <- Hk2b. done.
Qed.
End steps.

(** ** bpf/tc_gut_egress.bpf.c: the headers that are written

    The obfuscation header in front of the message, and the IP and UDP headers
    of the frame to the peer with their checksums. *)

(** ** The obfuscation header *)

Lemma pad_code_byte n : (n ≤ 64)%nat → pad_code (Z.of_nat n) = pad_byte n.
Proof.
  intros Hn. assert (H : ∀ z, 0 ≤ z < 65 → pad_code z = pad_byte (Z.to_nat z)).
  { apply (check_below_P (λ z, pad_code z = pad_byte (Z.to_nat z)) 65). vm_compute. reflexivity. }
  specialize (H (Z.of_nat n) ltac:(lia)). by rewrite Nat2Z.id in H.
Qed.

Lemma poke_next b end_ off w1 w2 : (off + length w1 + length w2 ≤ end_)%nat →
  (off + length w1 + length w2 ≤ length b)%nat →
  poke (list_inserts off w1 b) end_ (off + length w1) w2 = Done (list_inserts off (w1 ++ w2) b).
Proof.
  intros H1 H2. unfold poke. destruct (Nat.leb_spec (off + length w1 + length w2) end_); [|lia].
  by rewrite list_inserts_app_r by lia.
Qed.

Lemma poke_Done b end_ off w : (off + length w ≤ end_)%nat → poke b end_ off w = Done (list_inserts off w b).
Proof. intros H1. unfold poke. by destruct (Nat.leb_spec (off + length w) end_); [|lia]. Qed.

(** The header replaces the gap [G]. *)
Lemma write_gut_header_at P G R ppn ep pad : length G = 10%nat → (pad ≤ 64)%nat →
  let b := P ++ G ++ R in
  write_gut_header b (length b) (length P) ppn ep (Z.of_nat pad) = Done (P ++ gut_header ppn ep pad ++ R).
Proof.
  intros HG Hp b. assert (Hb : length b = (length P + (10 + length R))%nat) by (subst b; len).
  unfold write_gut_header, GUT_HEADER_SIZE. destruct (Nat.ltb_spec (length b) (length P + 10)); [lia|].
  rewrite poke_Done, bind_Done by len.
  rewrite (poke_next b _ (length P) (u32_to_le_bytes ppn)), bind_Done by len.
  rewrite (poke_next b _ (length P) (u32_to_le_bytes ppn ++ u32_to_le_bytes ep) [0]), bind_Done by len.
  rewrite (poke_next b _ (length P) ((u32_to_le_bytes ppn ++ u32_to_le_bytes ep) ++ [0])) by len.
  rewrite pad_code_byte by done. f_equal. subst b. rewrite list_inserts_front by len.
  rewrite drop_app_length' by len. unfold gut_header. by rewrite <- !app_assoc.
Qed.

Lemma write_short_header_at P G R dcid ppn ep pad : length G = 16%nat → (pad ≤ 64)%nat →
  let b := P ++ G ++ R in
  write_quic_short_header b (length b) (length P) dcid ppn ep (Z.of_nat pad)
  = Done (P ++ short_header dcid ppn ep pad ++ R).
Proof.
  intros HG Hp b. assert (Hb : length b = (length P + (16 + length R))%nat) by (subst b; len).
  unfold write_quic_short_header, GUT_QUIC_SHORT_HEADER_SIZE.
  destruct (Nat.ltb_spec (length b) (length P + 16)); [lia|].
  rewrite poke_Done, bind_Done by len.
  rewrite (poke_next b _ (length P) [0x40]), bind_Done by len.
  rewrite (poke_next b _ (length P) ([0x40] ++ u32_to_le_bytes dcid) [1]), bind_Done by len.
  rewrite (poke_next b _ (length P) (([0x40] ++ u32_to_le_bytes dcid) ++ [1])), bind_Done by len.
  rewrite (poke_next b _ (length P) ((([0x40] ++ u32_to_le_bytes dcid) ++ [1]) ++ u32_to_le_bytes ppn)),
    bind_Done by len.
  rewrite (poke_next b _ (length P) (((([0x40] ++ u32_to_le_bytes dcid) ++ [1]) ++ u32_to_le_bytes ppn)
    ++ u32_to_le_bytes ep) [0]), bind_Done by len.
  rewrite (poke_next b _ (length P) ((((([0x40] ++ u32_to_le_bytes dcid) ++ [1]) ++ u32_to_le_bytes ppn)
    ++ u32_to_le_bytes ep) ++ [0])) by len.
  rewrite pad_code_byte by done. f_equal. subst b. rewrite list_inserts_front by len.
  rewrite drop_app_length' by len. unfold short_header. by rewrite <- !app_assoc.
Qed.

(** ** Checksums *)

Lemma csum_step_spec x : 0 ≤ x → 0 ≤ csum_step x ∧ csum_step x mod 65535 = x mod 65535 ∧
  (x < 2 ^ 16 → csum_step x = x) ∧ (2 ^ 16 ≤ x → csum_step x ≤ x / 2 ^ 16 + (2 ^ 16 - 1)).
Proof.
  intros Hx. unfold csum_step. rewrite shr_div by lia. change 0xFFFF with (2 ^ 16 - 1).
  rewrite land_ones_mod by lia. change (2 ^ 16) with 65536.
  destruct (Z.eqb_spec (x / 65536) 0) as [He|He].
  - split_and!; try lia. intros. dlia.
  - split_and!; try dlia.
Qed.

Lemma csum_fold_spec x : 0 ≤ x < 2 ^ 32 →
  0 ≤ csum_fold x < 2 ^ 16 ∧ (csum_fold x + x) mod 65535 = 0.
Proof.
  intros Hx. unfold csum_fold.
  assert (H4 : 0 ≤ Nat.iter 4 csum_step x < 2 ^ 16 ∧ Nat.iter 4 csum_step x mod 65535 = x mod 65535).
  { destruct (csum_step_spec x) as (H1 & M1 & S1 & B1); [lia|].
    destruct (csum_step_spec (csum_step x)) as (H2 & M2 & S2 & B2); [lia|].
    destruct (csum_step_spec (csum_step (csum_step x))) as (H3 & M3 & S3 & B3); [lia|].
    destruct (csum_step_spec (csum_step (csum_step (csum_step x)))) as (H4 & M4 & S4 & B4); [lia|].
    cbn [Nat.iter nat_rect]. change (2 ^ 16) with 65536 in *. change (2 ^ 32) with 4294967296 in *.
    split; [|congruence]. split; [done|].
    assert (csum_step x < 131072) by (destruct (Z.lt_ge_cases x 65536); [lia|]; specialize (B1 ltac:(lia)); dlia).
    assert (csum_step (csum_step x) ≤ 65536).
    { destruct (Z.lt_ge_cases (csum_step x) 65536); [lia|]. specialize (B2 ltac:(lia)). dlia. }
    assert (csum_step (csum_step (csum_step x)) < 65536).
    { destruct (Z.lt_ge_cases (csum_step (csum_step x)) 65536); [lia|].
      replace (csum_step (csum_step x)) with 65536 by lia. done. }
    lia. }
  destruct H4 as [Hr Hm]. set (y := Nat.iter 4 csum_step x) in *. clearbody y.
  rewrite wrap_small by done. unfold bnot. change (2 ^ 16) with 65536 in *.
  split; [lia|]. rewrite Zplus_mod, <- Hm, <- Zplus_mod.
  replace (65536 - 1 - y + y) with 65535 by lia. done.
Qed.

(** ** The headers of the frame *)

(** Where the frame goes: addresses and ports of both ends. *)
Definition outer_route (v : ipver) (cfg : GutConfig) (cs : gmap Z peer_endpoint) (c_idx tport : Z)
    : option (list Z * list Z * Z * Z) :=
  if gc_dynamic_peer cfg =? 0 then
    Some match v with
         | IPv4 => (u32_to_le_bytes (gc_bind_ip cfg), u32_to_le_bytes (gc_peer_ip cfg), tport, tport)
         | IPv6 => (gc_bind_ip6 cfg, gc_peer_ip6 cfg, tport, tport)
         end
  else
    ep ← cs !! c_idx;
    if ep_valid ep =? 0 then None else
    let sport := if ep_server_port ep =? 0 then tport else ep_server_port ep in
    Some match v with
         | IPv4 => (u32_to_le_bytes (if ep_server_ip4 ep =? 0 then gc_bind_ip cfg else ep_server_ip4 ep),
                    u32_to_le_bytes (ep_ip4 ep), sport, ep_port ep)
         | IPv6 => (if bool_decide (ep_server_ip6 ep = replicate 16 0) then gc_bind_ip6 cfg
                    else ep_server_ip6 ep, ep_ip6 ep, sport, ep_port ep)
         end.

Definition addr6 (a : list Z) : Prop := bytes a ∧ length a = 16%nat.

(** The addresses of the configuration and of the learnt clients. *)
Definition addrs_ok (cfg : GutConfig) (cs : gmap Z peer_endpoint) : Prop :=
  addr6 (gc_bind_ip6 cfg) ∧ addr6 (gc_peer_ip6 cfg) ∧
  ∀ c ep, cs !! c = Some ep → addr6 (ep_ip6 ep) ∧ addr6 (ep_server_ip6 ep).

(** [F'] is [F] with the headers of a frame from [src] to [dst]. *)
Record outer_headers (v : ipver) (F F' src dst : list Z) (sp dp ulen : Z) : Prop := {
  oh_length : length F' = length F;
  oh_bytes : bytes F';
  oh_rest : drop (payload_at v) F' = drop (payload_at v) F;
  oh_eth : take 14 F' = take 14 F;
  oh_ip : match v with
          | IPv4 => F' !!! 14%nat = F !!! 14%nat ∧ F' !!! 23%nat = F !!! 23%nat
          | IPv6 => F' !!! 20%nat = F !!! 20%nat
          end;
  oh_total : ip_total v F' = be_bytes 2 (match v with IPv4 => wrap 32 (ulen + 20) | IPv6 => ulen end);
  oh_src : saddr v F' = src;
  oh_dst : daddr v F' = dst;
  oh_sport : window (udp_at v) 2 F' = be_bytes 2 sp;
  oh_dport : window (udp_at v + 2) 2 F' = be_bytes 2 dp;
  oh_len : window (udp_at v + 4) 2 F' = be_bytes 2 ulen;
  oh_ipsum : v = IPv4 → word_sum_le (window 14 20 F') mod 65535 = 0;
  oh_udpsum : from_le (udp_checksum v F') mod 65535
    = (word_sum_le (src ++ dst) + word_sum_le (be_bytes 4 (Z.lor (17 * 2 ^ 16) (wrap 16 ulen)))) mod 65535
}.

Lemma word_sum_le_app a b : Nat.Even (length a) → word_sum_le (a ++ b) = word_sum_le a + word_sum_le b.
Proof.
  intros [n Hn]. revert a Hn. induction n as [|n IH]; intros a Hn.
  { destruct a; [done|simpl in Hn; lia]. }
  destruct a as [|x [|y a]]; [simpl in Hn; lia..|]. simpl in *. rewrite IH by lia. lia.
Qed.

Lemma word_sum_le_pair l : length l = 2%nat → word_sum_le l = from_le l.
Proof. destruct l as [|x [|y [|]]]; try done. intros _. simpl. lia. Qed.

Lemma word_sum_le_u16 c : 0 ≤ c < 2 ^ 16 → word_sum_le (u16_to_le_bytes c) = c.
Proof. intros Hc. rewrite word_sum_le_pair by len. rewrite from_le_bytes. by apply wrap_small. Qed.

Lemma window_split {A} lo a b (l : list A) : window lo (a + b) l = window lo a l ++ window (lo + a) b l.
Proof. unfold window. rewrite <- take_take_drop. by rewrite drop_drop. Qed.

(** Only the bytes from [lo] to [hi] differ. *)
Definition agree_outside (lo hi : nat) (B B' : list Z) : Prop :=
  length B' = length B ∧ ∀ i, (i < lo ∨ hi ≤ i)%nat → B' !! i = B !! i.

Lemma agree_window lo hi B B' a n : agree_outside lo hi B B' → (a + n ≤ lo ∨ hi ≤ a)%nat →
  window a n B' = window a n B.
Proof. intros [_ H] Ha. apply window_ext. intros i Hi. apply H. lia. Qed.

Lemma agree_total lo hi B B' i : agree_outside lo hi B B' → (i < lo ∨ hi ≤ i)%nat → B' !!! i = B !!! i.
Proof. intros [_ H] Hi. rewrite !list_lookup_total_alt. by rewrite H. Qed.

Lemma agree_drop lo hi B B' n : agree_outside lo hi B B' → (hi ≤ n)%nat → drop n B' = drop n B.
Proof. intros [_ H] Hn. apply list_eq. intros i. rewrite !lookup_drop. apply H. lia. Qed.

Lemma agree_inserts lo hi B off w : (lo ≤ off)%nat → (off + length w ≤ hi)%nat →
  agree_outside lo hi B (list_inserts off w B).
Proof.
  intros H1 H2. split; [apply length_inserts|]. intros i [Hi|Hi].
  - apply list_lookup_inserts_lt. lia.
  - apply list_lookup_inserts_ge. lia.
Qed.

Lemma agree_trans lo hi B1 B2 B3 : agree_outside lo hi B1 B2 → agree_outside lo hi B2 B3 →
  agree_outside lo hi B1 B3.
Proof. intros [L1 H1] [L2 H2]. split; [congruence|]. intros i Hi. by rewrite H2, H1. Qed.

(** A write to a packet whose first [n] bytes are accessible. *)
Definition accessible (n : nat) (s : egress_state) : Prop := (n ≤ data_end (es_skb s))%nat.

Lemma poke_step {A} n off w (f : unit → EM A) s : accessible n s → (off + length w ≤ n)%nat →
  (poke_skb off w ≫= f) s = f tt (set_bytes (list_inserts off w (k_bytes (es_skb s))) s).
Proof. intros Hn Hw. unfold accessible in Hn. by rewrite (km_step _ _ _ _ _ (poke_skb_Ok off w s ltac:(lia))). Qed.

Lemma accessible_set n b s : accessible n s → length b = k_len (es_skb s) → accessible n (set_bytes b s).
Proof. intros Hn Hb. unfold accessible in *. by rewrite data_end_set. Qed.

Lemma bytes_set b s : k_bytes (es_skb (set_bytes b s)) = b.
Proof. done. Qed.
Lemma set_set b b' s : set_bytes b (set_bytes b' s) = set_bytes b s.
Proof. done. Qed.

(** Run a write, given that the first [n] bytes are accessible. *)
Ltac acc := repeat (apply accessible_set; [|unfold k_len; rewrite ?bytes_set; len]); done.
Ltac kpoke n :=
  kret;
  first [ rewrite (poke_step n); [|acc|by len]
        | rewrite poke_skb_Ok by (match goal with |- (_ ≤ data_end (es_skb ?t))%nat =>
            assert (accessible n t) by acc; unfold accessible in *; len end) ];
  rewrite ?bytes_set, ?set_set.

Lemma km_right_tail {S V A B} (m : KM S V A) (f : A → KM S V B) s :
  (m ≫= f) s = (m ≫= λ a, f a ≫= mret) s.
Proof.
  unfold mbind, KM_bind, mret, KM_ret. destruct (m s) as [[a|e|] s']; [|done..].
  by destruct (f a s') as [[]].
Qed.

Section outer.
  Context `{PK : !PacketKernel, PL : !PacketLaws}.

Lemma client_ports_Ok n udp ep s B : accessible n s → k_bytes (es_skb s) = B →
  (udp + 4 ≤ n)%nat → ∃ B', client_ports udp ep s = (Ok tt, set_bytes B' s) ∧
    agree_outside udp (udp + 4) B B' ∧ (bytes B → bytes B') ∧
    window (udp + 2) 2 B' = be_bytes 2 (ep_port ep) ∧
    window udp 2 B' = if ep_server_port ep =? 0 then window udp 2 B else be_bytes 2 (ep_server_port ep).
Proof.
  intros Hn HB Hu. unfold client_ports. rewrite (poke_step n); [|done|len]. rewrite HB.
  assert (HlB : (n ≤ length B)%nat) by (unfold accessible, data_end, k_len in Hn; rewrite HB in Hn; lia).
  assert (Hb : ∀ z, bytes (be_bytes 2 z)) by (intros; apply be_bytes_bytes).
  set (B1 := list_inserts (udp + 2) _ B).
  assert (H1 : agree_outside udp (udp + 4) B B1) by (apply agree_inserts; len).
  destruct (ep_server_port ep =? 0).
  - exists B1. split; [done|]. split; [done|]. subst B1. split; [auto with gutd|]. by split; writes.
  - rewrite poke_skb_Ok.
    2: { assert (Ha : accessible n (set_bytes B1 s)).
         { apply accessible_set; [done|]. unfold k_len. rewrite HB. subst B1. len. }
         unfold accessible in Ha. len. }
    rewrite bytes_set, set_set. eexists. split; [done|].
    split; [eapply agree_trans; [done|apply agree_inserts; len]|]. subst B1.
    split; [auto with gutd|]. by split; writes.
Qed.

Lemma bytes_be n z : bytes (be_bytes n z).
Proof. apply be_bytes_bytes. Qed.
Lemma bytes_le n z : bytes (le_bytes n z).
Proof. apply le_bytes_bytes. Qed.
Hint Resolve bytes_be bytes_le : gutd.

Lemma endpoint_of_Ok c_idx s ep : es_clients s !! c_idx = Some ep → ep_valid ep =? 0 = false →
  endpoint_of c_idx s = (Ok ep, s).
Proof. intros H1 H2. unfold endpoint_of. kret. by rewrite H1, H2. Qed.

Definition addrs_at (v : ipver) : nat := match v with IPv4 => 26%nat | IPv6 => 22%nat end.
Definition addr_len (v : ipver) : nat := match v with IPv4 => 4%nat | IPv6 => 16%nat end.

(** The address and port fields after routing. *)
Record routed_fields (v : ipver) (B B' src dst : list Z) (sp dp : Z) : Prop := {
  rf_agree : agree_outside (addrs_at v) (udp_at v + 4) B B';
  rf_bytes : bytes B';
  rf_src : saddr v B' = src;
  rf_dst : daddr v B' = dst;
  rf_sport : window (udp_at v) 2 B' = be_bytes 2 sp;
  rf_dport : window (udp_at v + 2) 2 B' = be_bytes 2 dp
}.

Lemma addresses_Ok v src dst s B tport : accessible (payload_at v) s → k_bytes (es_skb s) = B → bytes B →
  bytes src → length src = addr_len v → bytes dst → length dst = addr_len v →
  window (udp_at v) 2 B = be_bytes 2 tport → window (udp_at v + 2) 2 B = be_bytes 2 tport →
  ∃ B', (∀ A (f : unit → EM A), (poke_skb (addrs_at v) src
           ≫= λ _, poke_skb (addrs_at v + addr_len v) dst ≫= f) s = f tt (set_bytes B' s)) ∧
        accessible (payload_at v) (set_bytes B' s) ∧ routed_fields v B B' src dst tport tport.
Proof.
  intros Hn HB Hb Hs1 Hs2 Hd1 Hd2 H1 H2.
  assert (HlB : (payload_at v ≤ length B)%nat)
    by (unfold accessible, data_end, k_len in Hn; rewrite HB in Hn; lia).
  exists (list_inserts (addrs_at v + addr_len v) dst (list_inserts (addrs_at v) src B)).
  assert (Hacc : ∀ b, length b = length B → accessible (payload_at v) (set_bytes b s)).
  { intros b Hbl. apply accessible_set; [done|]. unfold k_len. by rewrite HB. }
  assert (Hat : (addrs_at v + addr_len v + addr_len v = udp_at v)%nat) by by destruct v.
  assert (Hpl : (udp_at v + 8 = payload_at v)%nat) by done.
  split.
  - intros A f. rewrite (poke_step (payload_at v)) by (done || lia). rewrite HB.
    rewrite (poke_step (payload_at v)); [|apply Hacc; len|lia]. by rewrite bytes_set, set_set.
  - split; [apply Hacc; len|]. split.
    + eapply agree_trans; apply agree_inserts; lia.
    + auto with gutd.
    + destruct v; cbn [saddr addrs_at addr_len Nat.add udp_at ip_len] in *; by writes.
    + destruct v; cbn [daddr addrs_at addr_len Nat.add udp_at ip_len] in *; by writes.
    + by writes.
    + by writes.
Qed.

Lemma ported_Ok v src dst ep s B tport : accessible (payload_at v) s → k_bytes (es_skb s) = B → bytes B →
  bytes src → length src = addr_len v → bytes dst → length dst = addr_len v →
  window (udp_at v) 2 B = be_bytes 2 tport → window (udp_at v + 2) 2 B = be_bytes 2 tport →
  ∃ B', (poke_skb (addrs_at v) src ≫= λ _, poke_skb (addrs_at v + addr_len v) dst
           ≫= λ _, client_ports (udp_at v) ep) s = (Ok tt, set_bytes B' s) ∧
        routed_fields v B B' src dst (if ep_server_port ep =? 0 then tport else ep_server_port ep) (ep_port ep).
Proof.
  intros Hn HB Hb Hs1 Hs2 Hd1 Hd2 H1 H2.
  destruct (addresses_Ok v src dst s B tport Hn HB Hb Hs1 Hs2 Hd1 Hd2 H1 H2) as (B1 & Hrun & Hacc & [Ha Hbb Hsa Hda Hsp Hdp]).
  rewrite Hrun.
  destruct (client_ports_Ok (payload_at v) (udp_at v) ep (set_bytes B1 s) B1 Hacc eq_refl)
    as (B2 & -> & Ha2 & Hb2 & Hp2 & Hq2); [unfold payload_at; lia|].
  rewrite set_set. exists B2. split; [done|].
  assert (Hat : (addrs_at v + addr_len v + addr_len v = udp_at v)%nat) by by destruct v.
  split.
  - eapply agree_trans; [done|]. destruct Ha2 as [Hl2 Hi2]. split; [done|]. intros i Hi. apply Hi2. lia.
  - auto.
  - rewrite <- Hsa. destruct v; apply (agree_window _ _ _ _ _ _ Ha2); left; cbn; lia.
  - rewrite <- Hda. destruct v; apply (agree_window _ _ _ _ _ _ Ha2); left; cbn; lia.
  - rewrite Hq2. by case_match.
  - done.
Qed.

#[local] Opaque le_bytes.

Lemma route_Ok v cfg c_idx s B tport src dst sp dp :
  accessible (payload_at v) s → k_bytes (es_skb s) = B → bytes B → addrs_ok cfg (es_clients s) →
  window (udp_at v) 2 B = be_bytes 2 tport → window (udp_at v + 2) 2 B = be_bytes 2 tport →
  outer_route v cfg (es_clients s) c_idx tport = Some (src, dst, sp, dp) →
  ∃ B', (match v with IPv4 => route_ipv4 cfg c_idx | IPv6 => route_ipv6 cfg c_idx end) s
        = (Ok tt, set_bytes B' s) ∧ routed_fields v B B' src dst sp dp.
Proof.
  intros Hn HB Hb ([Hb6 Hl6] & [Hbp Hlp] & Hcs) H1 H2. unfold outer_route, route_ipv4, route_ipv6.
  destruct (gc_dynamic_peer cfg =? 0).
  - intros Hr.
    assert (Hs : bytes src ∧ length src = addr_len v ∧ bytes dst ∧ length dst = addr_len v).
    { destruct v; injection Hr as <- <- _ _; cbn [addr_len]; split_and!; auto with gutd; len. }
    destruct Hs as (Hs1 & Hs2 & Hd1 & Hd2).
    destruct (addresses_Ok v src dst s B tport Hn HB Hb Hs1 Hs2 Hd1 Hd2 H1 H2) as (B' & Hrun & _ & Hrf).
    exists B'. specialize (Hrun unit mret).
    assert (Hx : sp = tport ∧ dp = tport) by (destruct v; by injection Hr).
    destruct Hx as [-> ->]. split; [|done].
    destruct v; injection Hr as <- <-; rewrite km_right_tail; exact Hrun.
  - destruct (es_clients s !! c_idx) as [ep|] eqn:Hep; [|done]. cbn [mbind option_bind].
    destruct (ep_valid ep =? 0) eqn:Hv; [done|]. intros Hr.
    destruct (Hcs _ _ Hep) as [[He1 He2] [He3 He4]].
    assert (Hs : bytes src ∧ length src = addr_len v ∧ bytes dst ∧ length dst = addr_len v).
    { destruct v; injection Hr as <- <- _ _; cbn [addr_len];
        [split_and!; auto with gutd; len|]. case_bool_decide; by split_and!. }
    destruct Hs as (Hs1 & Hs2 & Hd1 & Hd2).
    destruct (ported_Ok v src dst ep s B tport Hn HB Hb Hs1 Hs2 Hd1 Hd2 H1 H2) as (B' & Hrun & Hrf).
    exists B'. destruct v; kstep (endpoint_of_Ok c_idx s ep Hep Hv); injection Hr as <- <- <- <-;
      (split; [exact Hrun|exact Hrf]).
Qed.

(** The checksum of the pseudo header is its sum. *)
Lemma pseudo_checksum_sum addrs ulen : bytes addrs → (4 | Z.of_nat (length addrs)) →
  pseudo_checksum addrs (be_bytes 2 ulen) mod 65535
  = (word_sum_le addrs + word_sum_le (be_bytes 4 (Z.lor (17 * 2 ^ 16) (wrap 16 ulen)))) mod 65535
  ∧ 0 ≤ pseudo_checksum addrs (be_bytes 2 ulen) < 2 ^ 16.
Proof using PL.
  intros Hb Hd. unfold pseudo_checksum.
  replace (from_be (be_bytes 2 ulen)) with (wrap 16 ulen) by (by rewrite from_be_bytes).
  change (Z.shiftl IPPROTO_UDP 16) with (17 * 2 ^ 16). set (ph := be_bytes 4 _).
  assert (H0 : is_u32 0) by (unfold in_width; lia).
  pose proof (csum_diff_range addrs 0 Hb H0) as Hr1. rewrite (wrap_small 32 (bpf_csum_diff addrs 0)) by done.
  assert (Hph : bytes ph) by apply be_bytes_bytes.
  pose proof (csum_diff_range ph _ Hph Hr1) as Hr2. rewrite wrap_small by done.
  assert (Hs : bpf_csum_diff ph (bpf_csum_diff addrs 0) mod 65535 = (word_sum_le addrs + word_sum_le ph) mod 65535).
  { rewrite csum_diff_sum by (done || (subst ph; by len; exists 1)).
    rewrite Zplus_mod, csum_diff_sum, <- Zplus_mod by done. f_equal. lia. }
  set (x := bpf_csum_diff ph _) in *. destruct (csum_fold_spec x Hr2) as [Hc Hm].
  unfold bnot. change (2 ^ 16) with 65536 in *. split; [|lia]. rewrite <- Hs. clear -Hc Hm. dlia.
Qed.

(** A header whose checksum field was zero when the checksum was computed. *)
Lemma header_sum B F' : window 24 2 F' = u16_to_le_bytes (csum_fold (bpf_csum_diff (window 14 20 B) 0)) →
  bytes B → (34 ≤ length B)%nat → window 24 2 B = [0; 0] →
  (∀ a n, (14 ≤ a ∧ a + n ≤ 24) ∨ (26 ≤ a ∧ a + n ≤ 34) → window a n F' = window a n B)%nat →
  word_sum_le (window 14 20 F') mod 65535 = 0.
Proof using PL.
  intros Hc Hb Hl Hz Heq.
  assert (Hw : ∀ X : list Z, window 14 20 X = window 14 10 X ++ window 24 2 X ++ window 26 8 X).
  { intros X. by rewrite (window_split 14 10 10), (window_split 24 2 8). }
  assert (Hd : bytes (window 14 20 B)) by auto with gutd.
  assert (Hdl : length (window 14 20 B) = 20%nat) by (apply length_window; lia).
  pose proof (csum_diff_range (window 14 20 B) 0 Hd ltac:(unfold in_width; lia)) as Hr.
  assert (Hm : bpf_csum_diff (window 14 20 B) 0 mod 65535 = word_sum_le (window 14 20 B) mod 65535).
  { rewrite csum_diff_sum by (done || (unfold in_width; lia) || (rewrite Hdl; by exists 5)). f_equal. lia. }
  destruct (csum_fold_spec _ Hr) as [Hc1 Hc2]. set (c := csum_fold _) in *. clearbody c.
  rewrite Zplus_mod, Hm, <- Zplus_mod in Hc2. rewrite <- Hc2. f_equal.
  rewrite !Hw, Hc, Hz, !(Heq 14%nat), !(Heq 26%nat) by lia.
  rewrite !word_sum_le_app by (rewrite ?length_window, ?length_le_bytes by lia; by apply Nat.even_spec).
  rewrite word_sum_le_u16 by done. cbn [word_sum_le]. lia.
Qed.

Lemma fix_ipv4_Ok cfg ulen tport c_idx s F src dst sp dp :
  accessible 42 s → k_bytes (es_skb s) = F → bytes F → addrs_ok cfg (es_clients s) →
  outer_route IPv4 cfg (es_clients s) c_idx tport = Some (src, dst, sp, dp) → ∃ F',
  fix_ipv4 cfg ulen tport c_idx s = (Ok tt, set_bytes F' s) ∧ outer_headers IPv4 F F' src dst sp dp ulen.
Proof using PL.
  intros Hn HF Hb Hok Hr.
  assert (Hl : (42 ≤ length F)%nat) by (unfold accessible, data_end, k_len in Hn; rewrite HF in Hn; lia).
  assert (Hacc : ∀ b, length b = length F → accessible 42 (set_bytes b s)).
  { intros b Hbl. apply accessible_set; [done|]. unfold k_len. by rewrite HF. }
  unfold fix_ipv4. do 5 (rewrite (poke_step 42) by (first [done|apply Hacc; len|len]);
    rewrite ?bytes_set, ?set_set, ?HF).
  set (B1 := list_inserts 24 _ _).
  assert (HB1 : length B1 = length F) by (subst B1; len).
  assert (Hb1 : bytes B1).
  { subst B1. auto 10 with gutd. }
  destruct (route_Ok IPv4 cfg c_idx (set_bytes B1 s) B1 tport src dst sp dp (Hacc B1 HB1) eq_refl Hb1 Hok)
    as (B2 & Hrun & [Ha2 Hb2 Hsa Hda Hsp Hdp]);
    [cbn [udp_at ip_len Nat.add]; subst B1; by writes..|done|].
  rewrite (km_step _ _ _ _ _ Hrun), set_set. destruct (Ha2) as [Hl2 _].
  cbn [udp_at ip_len addrs_at Nat.add saddr daddr] in *.
  assert (Hacc2 : (42 ≤ data_end (es_skb (set_bytes B2 s)))%nat) by (apply Hacc; lia).
  kstep (peek_skb_Ok 14 20 (set_bytes B2 s) ltac:(lia)). rewrite bytes_set.
  set (c := csum_fold (bpf_csum_diff (window 14 20 B2) 0)).
  rewrite (poke_step 42) by (first [apply Hacc; len|len]). rewrite bytes_set, set_set.
  rewrite (poke_step 42) by (first [apply Hacc; len|len]). rewrite bytes_set, set_set.
  set (B4 := list_inserts 40 [0; 0] (list_inserts 24 (u16_to_le_bytes c) B2)).
  assert (HB4 : length B4 = length F) by (subst B4; len).
  assert (Hacc4 : (42 ≤ data_end (es_skb (set_bytes B4 s)))%nat) by by apply Hacc.
  kstep (peek_skb_Ok 26 8 (set_bytes B4 s) ltac:(lia)). kstep (peek_skb_Ok 38 2 (set_bytes B4 s) ltac:(lia)).
  rewrite bytes_set.
  assert (Haddr : window 26 8 B4 = src ++ dst).
  { rewrite (window_split 26 4 4), <- Hsa, <- Hda. subst B4. by f_equal; writes. }
  assert (Hlen : window 38 2 B4 = be_bytes 2 ulen).
  { subst B4. writes. rewrite (agree_window _ _ _ _ 38 2 Ha2) by lia. subst B1. by writes. }
  rewrite Haddr, Hlen. set (pc := pseudo_checksum _ _).
  rewrite poke_skb_Ok by len. rewrite bytes_set, set_set. eexists. split; [done|].
  set (F' := list_inserts 40 (u16_to_le_bytes pc) B4).
  assert (Hsd : bytes (src ++ dst)) by (rewrite <- Haddr; subst B4; auto 10 with gutd).
  assert (Hsl : length (src ++ dst) = 8%nat) by (rewrite <- Haddr; apply length_window; lia).
  destruct (pseudo_checksum_sum (src ++ dst) ulen Hsd) as [Hp1 Hp2]; [rewrite Hsl; by exists 2|].
  fold pc in Hp1, Hp2.
  assert (Hz : window 24 2 B2 = [0; 0]).
  { rewrite (agree_window _ _ _ _ 24 2 Ha2) by lia. subst B1. by writes. }
  split.
  - subst F'. len.
  - subst F' B4. auto 10 with gutd.
  - change (payload_at IPv4) with 42%nat. subst F' B4. rewrite !drop_list_inserts by len.
    rewrite (agree_drop _ _ _ _ 42 Ha2) by lia.
    subst B1. by rewrite !drop_list_inserts by len.
  - rewrite <- !window_0. subst F' B4. writes. rewrite (agree_window _ _ _ _ 0 14 Ha2) by lia.
    subst B1. by writes.
  - subst F' B4. writes. rewrite !(agree_total _ _ _ _ _ Ha2) by lia. subst B1. by writes.
  - cbn [ip_total]. subst F' B4. writes. rewrite (agree_window _ _ _ _ 16 2 Ha2) by lia. subst B1. by writes.
  - cbn [saddr]. subst F' B4. by writes.
  - cbn [daddr]. subst F' B4. by writes.
  - cbn [udp_at ip_len Nat.add]. subst F' B4. by writes.
  - cbn [udp_at ip_len Nat.add]. subst F' B4. by writes.
  - cbn [udp_at ip_len Nat.add]. rewrite <- Hlen. subst F'. by writes.
  - intros _. apply (header_sum B2); [|done|lia|done|].
    + subst F' B4. by writes.
    + intros a n Ha. subst F' B4. by destruct Ha; writes.
  - unfold udp_checksum. cbn [udp_at ip_len Nat.add]. subst F'. writes.
    by rewrite from_le_bytes, wrap_small.
Qed.

Lemma fix_ipv6_Ok cfg ulen tport c_idx s F src dst sp dp :
  accessible 62 s → k_bytes (es_skb s) = F → bytes F → addrs_ok cfg (es_clients s) →
  outer_route IPv6 cfg (es_clients s) c_idx tport = Some (src, dst, sp, dp) → ∃ F',
  fix_ipv6 cfg ulen tport c_idx s = (Ok tt, set_bytes F' s) ∧ outer_headers IPv6 F F' src dst sp dp ulen.
Proof using PL.
  intros Hn HF Hb Hok Hr.
  assert (Hl : (62 ≤ length F)%nat) by (unfold accessible, data_end, k_len in Hn; rewrite HF in Hn; lia).
  assert (Hacc : ∀ b, length b = length F → accessible 62 (set_bytes b s)).
  { intros b Hbl. apply accessible_set; [done|]. unfold k_len. by rewrite HF. }
  unfold fix_ipv6. do 4 (rewrite (poke_step 62) by (first [done|apply Hacc; len|len]);
    rewrite ?bytes_set, ?set_set, ?HF).
  set (B1 := list_inserts 56 _ _).
  assert (HB1 : length B1 = length F) by (subst B1; len).
  assert (Hb1 : bytes B1) by (subst B1; auto 10 with gutd).
  destruct (route_Ok IPv6 cfg c_idx (set_bytes B1 s) B1 tport src dst sp dp (Hacc B1 HB1) eq_refl Hb1 Hok)
    as (B2 & Hrun & [Ha2 Hb2 Hsa Hda Hsp Hdp]);
    [cbn [udp_at ip_len Nat.add]; subst B1; by writes..|done|].
  rewrite (km_step _ _ _ _ _ Hrun), set_set. destruct (Ha2) as [Hl2 _].
  cbn [udp_at ip_len addrs_at Nat.add saddr daddr] in *.
  rewrite (poke_step 62) by (first [apply Hacc; len|len]). rewrite bytes_set, set_set.
  set (B4 := list_inserts 60 [0; 0] B2).
  assert (HB4 : length B4 = length F) by (subst B4; len).
  assert (Hacc4 : (62 ≤ data_end (es_skb (set_bytes B4 s)))%nat) by by apply Hacc.
  kstep (peek_skb_Ok 22 32 (set_bytes B4 s) ltac:(lia)). kstep (peek_skb_Ok 58 2 (set_bytes B4 s) ltac:(lia)).
  rewrite bytes_set.
  assert (Haddr : window 22 32 B4 = src ++ dst).
  { rewrite (window_split 22 16 16), <- Hsa, <- Hda. subst B4. by f_equal; writes. }
  assert (Hlen : window 58 2 B4 = be_bytes 2 ulen).
  { subst B4. writes. rewrite (agree_window _ _ _ _ 58 2 Ha2) by lia. subst B1. by writes. }
  rewrite Haddr, Hlen. set (pc := pseudo_checksum _ _).
  rewrite poke_skb_Ok by len. rewrite bytes_set, set_set. eexists. split; [done|].
  set (F' := list_inserts 60 (u16_to_le_bytes pc) B4).
  assert (Hsd : bytes (src ++ dst)) by (rewrite <- Haddr; subst B4; auto 10 with gutd).
  assert (Hsl : length (src ++ dst) = 32%nat) by (rewrite <- Haddr; apply length_window; lia).
  destruct (pseudo_checksum_sum (src ++ dst) ulen Hsd) as [Hp1 Hp2]; [rewrite Hsl; by exists 8|].
  fold pc in Hp1, Hp2.
  split.
  - subst F'. len.
  - subst F' B4. auto 10 with gutd.
  - change (payload_at IPv6) with 62%nat. subst F' B4. rewrite !drop_list_inserts by len.
    rewrite (agree_drop _ _ _ _ 62 Ha2) by lia. subst B1. by rewrite !drop_list_inserts by len.
  - rewrite <- !window_0. subst F' B4. writes. rewrite (agree_window _ _ _ _ 0 14 Ha2) by lia.
    subst B1. by writes.
  - subst F' B4. writes. rewrite !(agree_total _ _ _ _ _ Ha2) by lia. subst B1. by writes.
  - cbn [ip_total]. subst F' B4. writes. rewrite (agree_window _ _ _ _ 18 2 Ha2) by lia. subst B1. by writes.
  - cbn [saddr]. subst F' B4. by writes.
  - cbn [daddr]. subst F' B4. by writes.
  - cbn [udp_at ip_len Nat.add]. subst F' B4. by writes.
  - cbn [udp_at ip_len Nat.add]. subst F' B4. by writes.
  - cbn [udp_at ip_len Nat.add]. rewrite <- Hlen. subst F'. by writes.
  - done.
  - unfold udp_checksum. cbn [udp_at ip_len Nat.add]. subst F'. writes.
    by rewrite from_le_bytes, wrap_small.
Qed.
End outer.
