(* ===== verification/BpfSend.v ===== *)
(** * The sending packet program and the userspace path

    [gut_egress] sends in a frame what [obfs_encap] would send in a datagram. *)

From stdpp Require Import gmap.
From S2P Require Import Prelude Words Slices ChaCha Results Obfs ObfsMask ObfsHeader ObfsRoundtrip.
From S2P Require Import Loader Links BpfCommon BpfEgress BpfEgressProofs.
Local Open Scope Z_scope.

Definition mode_of (m : pmode) : ObfsMode := match m with PGut => Gut | PQuic => Quic end.

(** The index that names the client of a message. *)
Definition client_index (wg : list Z) : Z :=
  from_le (window (if wg_type_of wg =? 2 then 8 else 4) 4 wg).

(** The sequence number of the next packet. *)
Definition seq_of (s : egress_state) : Z := if es_seq s =? 0 then 1 else es_seq s.

Definition keepalive_dropped (cfg : GutConfig) (prandom : Z) (wg : list Z) : bool :=
  (wg_type_of wg =? 4) && (length wg =? 32)%nat && (0 <? gc_keepalive_drop_percent cfg)
  && (prandom mod 100 <? gc_keepalive_drop_percent cfg).

(** What the program relies on in its configuration. *)
Record egress_config_ok (cfg : GutConfig) : Prop := {
  ec_key : expanded_key (gc_chacha_init cfg);
  ec_dst_mac : length (gc_dst_mac cfg) = 6%nat ∧ bytes (gc_dst_mac cfg);
  ec_src_mac : length (gc_src_mac cfg) = 6%nat ∧ bytes (gc_src_mac cfg)
}.

(** A frame between the tunnel endpoints, as the program leaves it: the sum of
    the IPv4 header is zero in one's complement arithmetic, and the UDP checksum
    is that of the pseudo header, to which the interface adds the payload. *)
Record tunnel_frame (v : ipver) (cfg : GutConfig) (src dst : list Z) (sp dp : Z)
    (payload F : list Z) : Prop := {
  tf_bytes : bytes F;
  tf_frame : udp_frame v F sp dp payload;
  tf_macs : take 12 F = gc_dst_mac cfg ++ gc_src_mac cfg;
  tf_src : saddr v F = src;
  tf_dst : daddr v F = dst;
  tf_total : ip_total v F
    = be_bytes 2 (match v with IPv4 => 28 | IPv6 => 8 end + Z.of_nat (length payload));
  tf_ipsum : v = IPv4 → word_sum_le (window 14 20 F) mod 65535 = 0;
  tf_udpsum : from_le (udp_checksum v F) mod 65535
    = (word_sum_le (src ++ dst)
       + word_sum_le (be_bytes 4 (Z.lor (17 * 2 ^ 16) (8 + Z.of_nat (length payload))))) mod 65535
}.

Lemma short_header_bytes dcid ppn ep pad : (pad ≤ 64)%nat → bytes (short_header dcid ppn ep pad).
Proof.
  intros H. unfold short_header.
  repeat (apply Forall_app_2; [first [apply le_bytes_bytes|repeat constructor; done]|]).
  repeat constructor; try done; by apply pad_byte_range.
Qed.

Lemma window_take14 {A} lo n (l : list A) : (lo + n ≤ 14)%nat → window lo n (take 14 l) = window lo n l.
Proof. intros H. apply window_ext. intros i Hi. apply lookup_take_lt. lia. Qed.

Section send.
  Context `{PK : !PacketKernel, PL : !PacketLaws, PR : !PacketReliable}.

Lemma drop_keepalive_Ok cfg r wg s : keepalive_dropped cfg r wg = false →
  drop_keepalive cfg r (wg_type_of wg) (Z.of_nat (length wg)) s = (Ok tt, s).
Proof.
  intros H. unfold drop_keepalive, WG_MIN_PACKET.
  replace (Z.of_nat (length wg) =? Z.of_nat 32) with (length wg =? 32)%nat by (repeat case_bool; lia).
  unfold keepalive_dropped in H. by rewrite H.
Qed.

Lemma take32 {A} lo (wg : list A) : (lo + 4 ≤ 32)%nat → window lo 4 (take 32 wg) = window lo 4 wg.
Proof. intros H. apply window_ext. intros i Hi. apply lookup_take_lt. lia. Qed.

Lemma bridge_session_Ok cfg wg s : (gc_dynamic_peer cfg ≠ 0 → wg_type_of wg ≠ 1) →
  1 ≤ wg_type_of wg ≤ 4 → ∃ m,
  bridge_session cfg (wg_type_of wg) (take 32 wg) s = (Ok (client_index wg), with_sessions m s).
Proof.
  intros H1 Ht. unfold bridge_session, client_index. rewrite !take32 by lia.
  assert (Hs : with_sessions (es_sessions s) s = s) by by destruct s.
  destruct (Z.eqb_spec (gc_dynamic_peer cfg) 0) as [|Hd].
  { exists (es_sessions s). rewrite Hs. by destruct (wg_type_of wg =? 2). }
  destruct (Z.eqb_spec (wg_type_of wg) 1); [by specialize (H1 Hd)|].
  destruct (Z.eqb_spec (wg_type_of wg) 2) as [->|].
  - kret. by eexists.
  - kret. exists (es_sessions s). rewrite Hs. by destruct (_ || _).
Qed.

(** The sizes both paths choose. *)
Lemma outer_header_userspace m is_server t : (m = PQuic → t = 2 ∨ t = 4) →
  outer_header m t = encap_hdr_len (mode_of m) is_server t.
Proof.
  intros H. destruct m; [done|]. unfold encap_hdr_len. simpl.
  by destruct (H eq_refl) as [-> | ->]; destruct is_server.
Qed.

Lemma padding_userspace m h n last : Z.of_nat n < 2 ^ 16 → (h < 2000)%nat →
  padding_for m h (Z.of_nat n) last = Z.of_nat (encap_pad_len (mode_of m) h n last).
Proof.
  intros Hn Hh. unfold padding_for, encap_pad_len, BALLAST_THRESHOLD. destruct m; simpl mode_of; cbv iota.
  - replace (Z.of_nat n <? 256) with (n <? 256)%nat by (repeat case_bool; lia).
    destruct (n <? 256)%nat; [|done]. change 0x0F with (2 ^ 4 - 1). rewrite land_ones_mod by lia.
    rewrite wrap_small by (unfold in_width; change (2 ^ 16) with 65536 in *; change (2 ^ 32) with 4294967296; lia).
    replace ((8 + Z.of_nat h + Z.of_nat n) mod 2 ^ 4) with (Z.of_nat ((8 + h + n) mod 16))
      by (rewrite Nat2Z.inj_mod; f_equal; lia).
    pose proof (Nat.mod_upper_bound (8 + h + n) 16 ltac:(lia)). set (x := ((8 + h + n) mod 16)%nat) in *.
    repeat case_bool; lia.
  - assert (Hl : 0 ≤ Z.land last 0x3F) by (apply Z.land_nonneg; lia).
    repeat case_bool; lia.
Qed.

(** The header, as bytes. *)
Definition kernel_header (m : pmode) (ks47 : list Z) (enc_ports : Z) (pad_len : nat) : list Z :=
  match m with
  | PGut => gut_header (ks47 !!! 10%nat) enc_ports pad_len
  | PQuic => short_header (ks47 !!! 9%nat) (ks47 !!! 10%nat) enc_ports pad_len
  end.

Lemma write_header_Ok m h ks47 ep pad tc P G R s : k_bytes (es_skb s) = P ++ G ++ R →
  data_end (es_skb s) = k_len (es_skb s) → length G = h → (pad ≤ 64)%nat →
  h = (match m with PGut => 10 | PQuic => 16 end)%nat →
  (match m with
   | PGut => on_bytes (λ b e, write_gut_header b e (length P) (ks47 !!! 10%nat) ep (Z.of_nat pad))
   | PQuic =>
       if (h =? GUT_QUIC_SHORT_HEADER_SIZE)%nat
       then on_bytes (λ b e, write_quic_short_header b e (length P) (ks47 !!! 9%nat) (ks47 !!! 10%nat) ep (Z.of_nat pad))
       else leave (TcTailCall tc)
   end) s = (Ok tt, set_bytes (P ++ kernel_header m ks47 ep pad ++ R) s).
Proof.
  intros Hb He HG Hp Hh. unfold k_len in He. rewrite Hb in He.
  destruct m; rewrite Hh in *; cbn [kernel_header].
  - unfold on_bytes. cbv beta. rewrite He, Hb, write_gut_header_at by done. done.
  - change (16 =? GUT_QUIC_SHORT_HEADER_SIZE)%nat with true. cbv iota. unfold on_bytes. cbv beta.
    rewrite He, Hb, write_short_header_at by done. done.
Qed.

Section one_message.
  Context (m : pmode) (rounds : Z) (cfg : GutConfig) (prandom : Z) (s : egress_state).
  Context (v : ipver) (sport dport : Z) (wg : list Z).
  Context (Hframe : udp_frame v (k_bytes (es_skb s)) sport dport wg).
  Context (Hmsg : wg_message wg) (Hbytes : bytes (k_bytes (es_skb s))).
  Context (Hlin : (payload_at v ≤ data_end (es_skb s))%nat).
  Context (Hsize : Z.of_nat (k_len (es_skb s)) + 80 < 2 ^ 16).
  Context (Hports : 0 ≤ sport < 2 ^ 16 ∧ 0 ≤ dport < 2 ^ 16).
  Context (Hcfg : egress_config_ok cfg) (Haddrs : addrs_ok cfg (es_clients s)).
  Context (Hrounds : 0 ≤ rounds ≤ 21).
  Context (Hshort : m = PQuic → wg_type_of wg = 2 ∨ wg_type_of wg = 4).
  Context (Hkeep : keepalive_dropped cfg prandom wg = false).
  Context (Hdyn : gc_dynamic_peer cfg ≠ 0 → wg_type_of wg ≠ 1).
  Context (Htport : select_port (seq_of s) cfg ≠ 0).
  Context (src dst : list Z) (sp dp : Z).
  Context (Hroute : outer_route v cfg (es_clients s) (client_index wg) (select_port (seq_of s) cfg)
                    = Some (src, dst, sp, dp)).

Definition sent_ks (n : Z) : list Z := chacha_block_fast (gc_chacha_init cfg) n (nonce_of wg) rounds.
Definition sent_pad : nat :=
  encap_pad_len (mode_of m) (outer_header m (wg_type_of wg)) (length wg) (words_to_bytes (sent_ks 69) !!! 63%nat).
Definition sent_ports : Z := Z.lxor (Z.lor (shl 32 sport 16) dport) (sent_ks 47 !!! 11%nat).
Definition sent_payload : list Z :=
  kernel_header m (sent_ks 47) sent_ports sent_pad
  ++ payload_mask (words_to_bytes (sent_ks 47)) (wg_type_of wg) wg
  ++ take sent_pad (words_to_bytes (sent_ks 69)).

Lemma kernel_ks n : is_u32 n → chacha_block rounds (gc_chacha_init cfg) n (wg_nonce32 (take 32 wg)) = sent_ks n.
Proof using Type*.
  intros Hn. destruct Hmsg as [Hb H32 _ _].
  assert (Hno : wg_nonce32 (take 32 wg) = nonce_of wg).
  { unfold wg_nonce32. rewrite !take32 by lia. fold (wg_nonce32 wg).
    pose proof (wg_nonce32_userspace wg H32) as H1. rewrite wg_nonce32_Done in H1. by injection H1. }
  rewrite Hno. apply chacha_block_userspace; [by apply Hcfg|done| |done]. by apply nonce_of_range.
Qed.

Lemma length_sent_ks n : is_u32 n → length (words_to_bytes (sent_ks n)) = 64%nat.
Proof using Type*.
  intros Hn. assert (KeystreamBlock (sent_ks n)).
  { apply chacha_block_fast_wf; [by apply Hcfg|done|]. apply nonce_of_range, Hmsg. }
  by apply ks_byte_length.
Qed.

Lemma frame_parts : k_bytes (es_skb s) = take (payload_at v) (k_bytes (es_skb s)) ++ wg ∧
  length (take (payload_at v) (k_bytes (es_skb s))) = payload_at v.
Proof using Type*.
  pose proof (k_len_frame v sport dport wg s Hframe) as Hk. unfold k_len in Hk. split; [|len].
  rewrite <- (uf_payload _ _ _ _ _ Hframe). by rewrite take_drop.
Qed.

Local Abbreviation P := (take (payload_at v) (k_bytes (es_skb s))).
Local Abbreviation tport := (select_port (seq_of s) cfg).

Lemma sent_header_len : outer_header m (wg_type_of wg) = (match m with PGut => 10 | PQuic => 16 end)%nat ∧
  length (kernel_header m (sent_ks 47) sent_ports sent_pad) = outer_header m (wg_type_of wg).
Proof using Type*.
  assert (Hh : outer_header m (wg_type_of wg) = (match m with PGut => 10 | PQuic => 16 end)%nat).
  { unfold outer_header. destruct m; [done|]. by destruct (Hshort eq_refl) as [-> | ->]. }
  split; [done|]. rewrite Hh. destruct m; unfold kernel_header, gut_header, short_header; len.
Qed.

Lemma length_sent_payload :
  length sent_payload = (outer_header m (wg_type_of wg) + length wg + sent_pad)%nat.
Proof using Type*.
  pose proof (length_sent_ks 69 ltac:(unfold in_width; lia)) as Hks69. destruct sent_header_len as [_ Hh].
  assert (Hpad : (sent_pad ≤ 64)%nat) by apply encap_pad_len_bound.
  unfold sent_payload. rewrite !length_app, Hh, length_payload_mask, length_take. lia.
Qed.

Lemma sent_payload_bytes : bytes sent_payload.
Proof using Type*.
  assert (Hpad : (sent_pad ≤ 64)%nat) by apply encap_pad_len_bound.
  unfold sent_payload. apply Forall_app_2.
  - destruct m; [by apply gut_header_bytes|by apply short_header_bytes].
  - apply Forall_app_2; [apply payload_mask_bytes; [apply words_to_bytes_bytes|apply Hmsg]|].
    apply Forall_take, words_to_bytes_bytes.
Qed.

Lemma take_message_Ok : take_message cfg prandom s
  = (Ok (mkOutgoing (payload_at v) (Z.of_nat (length wg)) (take 32 wg) (ver v)
           (Z.lor (shl 32 sport 16) dport) tport), with_seq (wrap 32 (seq_of s + 1)) s).
Proof using Type*.
  pose proof (k_len_frame v sport dport wg s Hframe) as Hk. assert (H32 : (32 ≤ length wg)%nat) by apply Hmsg.
  assert (Hpl : (payload_at v = 14 + ip_len v + 8)%nat) by done.
  assert (Hip : ip_len v = 20%nat ∨ ip_len v = 40%nat) by (destruct v; auto).
  unfold take_message. kret.
  replace (k_len (es_skb s) <? 14 + 20 + 8 + WG_MIN_PACKET)%nat with false
    by (symmetry; apply Nat.ltb_ge; unfold WG_MIN_PACKET; lia).
  kstep (parse_headers_Ok v sport dport wg s Hframe Hlin).
  kstep (find_message_Ok v sport dport wg s Hframe Hlin ltac:(lia) Hmsg).
  rewrite lookup_total_take_lt by lia. fold (wg_type_of wg).
  kstep (drop_keepalive_Ok cfg prandom wg s Hkeep).
  kstep (peek16_Ok (udp_at v) s ltac:(unfold payload_at in *; lia)).
  kstep (peek16_Ok (udp_at v + 2) s ltac:(unfold payload_at in *; lia)).
  rewrite (uf_sport _ _ _ _ _ Hframe), (uf_dport _ _ _ _ _ Hframe), !from_be_u16 by apply Hports.
  kstep (eq_refl : next_seq s = (Ok (seq_of s), with_seq (wrap 32 (seq_of s + 1)) s)).
  by destruct (Z.eqb_spec tport 0).
Qed.

Lemma hide_message_Ok s1 : es_skb s1 = es_skb s → ∃ s2,
  hide_message m rounds cfg (mkOutgoing (payload_at v) (Z.of_nat (length wg)) (take 32 wg) (ver v)
    (Z.lor (shl 32 sport 16) dport) tport) s1
  = (Ok (client_index wg, 8 + Z.of_nat (length sent_payload)), s2) ∧
  k_bytes (es_skb s2) = P ++ sent_payload ∧ accessible (payload_at v) s2 ∧ es_clients s2 = es_clients s1.
Proof using Type*.
  intros Hs1. pose proof (k_len_frame v sport dport wg s Hframe) as Hk.
  assert (H32 : (32 ≤ length wg)%nat) by apply Hmsg. destruct frame_parts as [HF HP].
  destruct sent_header_len as [Hh Hkh]. pose proof length_sent_payload as Hspl.
  set (h := outer_header m (wg_type_of wg)) in *. assert (Hh16 : (h ≤ 16)%nat) by (destruct m; lia).
  unfold hide_message. rewrite lookup_total_take_lt by lia. fold (wg_type_of wg). fold h.
  rewrite !kernel_ks by (unfold in_width; lia). rewrite padding_userspace by lia. fold sent_pad.
  assert (Hpad : (sent_pad ≤ 64)%nat) by apply encap_pad_len_bound.
  pose proof (length_sent_ks 47 ltac:(unfold in_width; lia)) as Hks47.
  pose proof (length_sent_ks 69 ltac:(unfold in_width; lia)) as Hks69.
  destruct (append_padding_Ok (Z.of_nat sent_pad) (words_to_bytes (sent_ks 69)) s1)
    as (k1 & Hrun1 & Hk1); [lia|done|rewrite Hs1; lia|].
  kstep Hrun1. rewrite Nat2Z.id, Hs1, HF, <- app_assoc in Hk1.
  destruct (bridge_session_Ok cfg wg (with_skb k1 s1) Hdyn (wm_type _ Hmsg)) as [sm Hrun2].
  kstep Hrun2. fold sent_ports.
  destruct (mask_message_Ok (words_to_bytes (sent_ks 47)) P wg (take sent_pad (words_to_bytes (sent_ks 69)))
    (with_sessions sm (with_skb k1 s1)) Hk1 H32 Hks47) as (k2 & Hrun3 & Hk2).
  rewrite HP in Hrun3. kstep Hrun3.
  replace (if ver v =? 4 then 28%nat else 48%nat) with (ip_len v + 8)%nat by by destruct v.
  set (s3 := with_skb k2 _). assert (Hpl : payload_at v = (14 + (ip_len v + 8))%nat) by (unfold payload_at, udp_at; lia).
  assert (Hk2l : k_len k2 = (payload_at v + length wg + sent_pad)%nat)
    by (unfold k_len; rewrite Hk2, !length_app, length_payload_mask; len).
  destruct (make_room_Ok h (ip_len v + 8) s3) as (k3 & gap & Hrun4 & Hgap & Hend & Hk3);
    [cbn [es_skb s3 with_skb]; lia..|].
  kstep Hrun4. cbn [es_skb s3 with_skb] in Hk3. replace (14 + (ip_len v + 8))%nat with (length P) in Hk3 |- * by lia.
  rewrite Hk2, take_app_length, drop_app_length in Hk3.
  kstep (write_header_Ok m h (sent_ks 47) sent_ports sent_pad
    (mkTail (wg_nonce32 (take 32 wg)) (sent_ks 47 !!! 10%nat) sent_ports (Z.of_nat sent_pad) (wg_type_of wg)
       (from_le (window (if wg_type_of wg =? 2 then 8 else 4) 4 (take 32 wg))) tport
       (Z.of_nat (length wg)) (client_index wg) (ver v) (length P) h) P gap _ (with_skb k3 s3) Hk3 Hend Hgap Hpad Hh).
  fold sent_payload.
  assert (Hw32 : wrap 32 (Z.of_nat (length wg) + Z.of_nat h + Z.of_nat sent_pad + 8)
                 = 8 + Z.of_nat (length sent_payload)).
  { rewrite wrap_small; [lia|]. unfold in_width. change (2 ^ 32) with 4294967296. change (2 ^ 16) with 65536 in *. lia. }
  rewrite Hw32. eexists. split; [done|]. split; [done|]. split; [|done].
  assert (Hk3l : k_len k3 = (payload_at v + length sent_payload)%nat)
      by (unfold k_len; rewrite Hk3, !length_app, length_payload_mask, Hgap; len).
  apply accessible_set; [unfold accessible; cbn [es_skb with_skb]; lia|]. cbn [es_skb with_skb]. len.
Qed.

(** The frame of an addressed datagram. *)
Lemma tunnel_frame_built F1 :
  outer_headers v (P ++ sent_payload) F1 src dst sp dp (8 + Z.of_nat (length sent_payload)) →
  8 + Z.of_nat (length sent_payload) < 2 ^ 16 →
  tunnel_frame v cfg src dst sp dp sent_payload
    (list_inserts 6 (gc_src_mac cfg) (list_inserts 0 (gc_dst_mac cfg) F1)).
Proof using Type*.
  intros [HF1 Hb1 Hrest Heth Hipf Htot Hsa Hda Hsp Hdp Hul Hisum Husum] Hlen. destruct frame_parts as [HF HP].
  set (F := k_bytes (es_skb s)) in *. set (P0 := take (payload_at v) F) in *.
  destruct (ec_dst_mac _ Hcfg) as [Hdm Hdmb]. destruct (ec_src_mac _ Hcfg) as [Hsm Hsmb].
  assert (HF1l : length F1 = (payload_at v + length sent_payload)%nat) by (rewrite HF1; len).
  assert (Hpl : payload_at v = (14 + ip_len v + 8)%nat) by done.
  set (F2 := list_inserts 6 _ _).
  assert (Hw : ∀ a n, (12 ≤ a)%nat → window a n F2 = window a n F1) by (intros; subst F2; by writes).
  split; [subst F2; auto with gutd|split| |by destruct v; cbn [saddr] in *; rewrite Hw by lia
         |by destruct v; cbn [daddr] in *; rewrite Hw by lia| | |].
  - subst F2. rewrite !drop_list_inserts by lia. rewrite Hrest. by rewrite drop_app_length' by done.
  - subst F2. len.
  - rewrite Hw by lia. rewrite <- (uf_type _ _ _ _ _ Hframe). fold F.
    rewrite <- (window_take14 12 2 F1), Heth, window_take14, HF by lia.
    rewrite window_app_l, window_app_l by lia. done.
  - assert (Hlk : ∀ i, (12 ≤ i < payload_at v)%nat → (P0 ++ sent_payload) !!! i = F !!! i).
    { intros i Hi. rewrite HF, !lookup_total_app_l by lia. done. }
    pose proof (uf_ip _ _ _ _ _ Hframe) as Hipo. fold F in Hipo.
    destruct v; subst F2; writes; cbn [payload_at udp_at ip_len Nat.add] in *;
      [destruct Hipf as [-> ->]|rewrite Hipf]; rewrite ?Hlk by lia; done.
  - rewrite Hw by (unfold udp_at; lia). done.
  - rewrite Hw by (unfold udp_at; lia). done.
  - rewrite Hw by (unfold udp_at; lia). done.
  - rewrite <- window_0, (window_split 0 6 6). subst F2. by f_equal; writes.
  - unfold ip_total in *. destruct v; rewrite Hw, Htot by lia; [|done].
    rewrite wrap_small by (unfold in_width; change (2 ^ 32) with 4294967296; change (2 ^ 16) with 65536 in *; lia).
    f_equal. lia.
  - intros Hv. rewrite Hw by lia. by apply Hisum.
  - unfold udp_checksum in *. rewrite Hw by (unfold udp_at; lia). rewrite Husum.
    rewrite wrap_small by (unfold in_width; lia). done.
Qed.

Lemma send_frame_Ok s2 : k_bytes (es_skb s2) = P ++ sent_payload → accessible (payload_at v) s2 →
  es_clients s2 = es_clients s → 8 + Z.of_nat (length sent_payload) < 2 ^ 16 → ∃ s',
  send_frame cfg (ver v) tport (client_index wg) (8 + Z.of_nat (length sent_payload)) s2
  = (Ok (TcRedirect (gc_egress_ifindex cfg)), s') ∧
  es_clients s' = es_clients s ∧ tunnel_frame v cfg src dst sp dp sent_payload (k_bytes (es_skb s')).
Proof using Type*.
  intros Hk Hacc Hcl Hlen. destruct frame_parts as [HF HP]. unfold send_frame.
  assert (Hsb : bytes (P ++ sent_payload))
    by (apply Forall_app_2; [by apply Forall_take|apply sent_payload_bytes]).
  pose proof Haddrs as Ha2. pose proof Hroute as Hr2. rewrite <- Hcl in Ha2, Hr2.
  assert (Hfix : ∃ F', (if ver v =? 4
      then fix_ipv4 cfg (8 + Z.of_nat (length sent_payload)) tport (client_index wg)
      else fix_ipv6 cfg (8 + Z.of_nat (length sent_payload)) tport (client_index wg)) s2
      = (Ok tt, set_bytes F' s2) ∧
      outer_headers v (P ++ sent_payload) F' src dst sp dp (8 + Z.of_nat (length sent_payload))).
  { destruct v; cbn [ver Z.eqb Pos.eqb]; [apply fix_ipv4_Ok|apply fix_ipv6_Ok]; done. }
  destruct Hfix as (F1 & Hrun & Hoh). kstep Hrun.
  pose proof (oh_length _ _ _ _ _ _ _ _ Hoh) as HF1.
  assert (Hkl : k_len (es_skb s2) = length F1) by (unfold k_len; by rewrite Hk).
  assert (Hacc1 : accessible (payload_at v) (set_bytes F1 s2)) by (by apply accessible_set).
  destruct (ec_dst_mac _ Hcfg) as [Hdm _]. destruct (ec_src_mac _ Hcfg) as [Hsm _].
  assert (H12 : (12 ≤ payload_at v)%nat) by (unfold payload_at, udp_at; lia).
  rewrite (poke_step (payload_at v)) by (done || lia).
  rewrite (poke_step (payload_at v)); [|apply accessible_set; [done|unfold k_len; rewrite !bytes_set; len]|lia].
  rewrite !bytes_set, !set_set. kret. eexists. split; [done|]. split; [done|].
  by apply tunnel_frame_built.
Qed.

Lemma egress_run : ∃ s',
  gut_egress m rounds cfg prandom s = (Ok (TcRedirect (gc_egress_ifindex cfg)), s') ∧
  es_clients s' = es_clients s ∧ tunnel_frame v cfg src dst sp dp sent_payload (k_bytes (es_skb s')).
Proof using Type*.
  unfold gut_egress. kstep take_message_Ok. destruct (hide_message_Ok (with_seq (wrap 32 (seq_of s + 1)) s) eq_refl)
    as (s2 & Hrun & Hk & Hacc & Hcl). kstep Hrun. apply send_frame_Ok; try done.
  pose proof length_sent_payload as Hl. pose proof (k_len_frame v sport dport wg s Hframe) as Hkl.
  destruct sent_header_len as [Hh _]. assert (Hpad : (sent_pad ≤ 64)%nat) by apply encap_pad_len_bound.
  assert (Hpl : (payload_at v = 14 + ip_len v + 8)%nat) by done. destruct m; lia.
Qed.

(** The same bytes as from userspace, in whatever buffer the message is. *)
Lemma sent_payload_userspace rest is_server domain t_ns :
  bytes rest → (80 ≤ length rest)%nat → ∃ b,
  obfs_encap (wg ++ rest) (length wg) (gc_chacha_init cfg) rounds is_server sport dport (mode_of m) domain t_ns
  = Done (b, Some (length sent_payload, sent_ks 47 !!! 9%nat)) ∧ take (length sent_payload) b = sent_payload.
Proof using Hmsg Hcfg Hshort.
  clear Hframe Hbytes Hlin Hsize Hports Haddrs Hrounds Hkeep Hdyn Htport Hroute.
  intros Hr Hl. destruct Hmsg as [Hb H32 _ _].
  assert (Hty : enc_type (wg ++ rest) (length wg) = wg_type_of wg).
  { unfold enc_type, enc_payload. by rewrite take_app_length. }
  assert (Hpl : enc_payload (wg ++ rest) (length wg) = wg) by (unfold enc_payload; by rewrite take_app_length).
  assert (Hh : enc_hdr (wg ++ rest) (length wg) is_server (mode_of m) = outer_header m (wg_type_of wg)).
  { unfold enc_hdr. rewrite Hty. symmetry. by apply outer_header_userspace. }
  assert (Hoh : outer_header m (wg_type_of wg) = (match m with PGut => 10 | PQuic => 16 end)%nat).
  { unfold outer_header. destruct m; [done|]. by destruct (Hshort eq_refl) as [-> | ->]. }
  destruct (obfs_encap_Done (wg ++ rest) (length wg) (gc_chacha_init cfg) rounds is_server sport dport
    (mode_of m) domain t_ns) as (H & pad & -> & Hpad & [HHl HH] & _ & Hpe);
    [by apply Hcfg|by apply Forall_app_2|lia|rewrite Hh, Hoh; destruct m; len|].
  assert (Hks : ∀ n, enc_ks (wg ++ rest) (length wg) (gc_chacha_init cfg) rounds n = sent_ks n)
    by (intros n; unfold enc_ks, sent_ks; by rewrite Hpl).
  assert (Hep : enc_pad (wg ++ rest) (length wg) (gc_chacha_init cfg) rounds is_server (mode_of m) = sent_pad)
    by (unfold enc_pad, sent_pad; by rewrite Hh, Hks).
  unfold enc_masked, enc_ports in *. rewrite Hep, Hty, Hpl, !Hks in *. rewrite Hh, Hoh in *.
  assert (HHe : H = kernel_header m (sent_ks 47) sent_ports sent_pad) by (destruct m; exact HH).
  assert (Hsp : length sent_payload = (match m with PGut => 10 | PQuic => 16 end + length wg + sent_pad)%nat).
  { unfold sent_payload. rewrite <- HHe, <- Hpe. rewrite !length_app, length_payload_mask, HHl, Hpad. lia. }
  rewrite Hsp. eexists. split; [done|].
  assert (Hcut : ∀ A B C D : list Z, A ++ B ++ C ++ D = (A ++ B ++ C) ++ D) by (intros; by rewrite !app_assoc).
  rewrite Hcut, HHe, Hpe. fold sent_payload. rewrite <- Hsp. apply take_app_length.
Qed.
End one_message.
End send.

(** A message in a frame that the program sends on. *)
Record egress_input (m : pmode) (cfg : GutConfig) (prandom : Z) (s : egress_state) (v : ipver)
    (sport dport : Z) (wg src dst : list Z) (sp dp : Z) : Prop := {
  ei_frame : udp_frame v (k_bytes (es_skb s)) sport dport wg;
  ei_message : wg_message wg;
  ei_bytes : bytes (k_bytes (es_skb s));
  ei_linear : (payload_at v ≤ data_end (es_skb s))%nat;
  ei_size : Z.of_nat (k_len (es_skb s)) + 80 < 2 ^ 16;
  ei_ports : 0 ≤ sport < 2 ^ 16 ∧ 0 ≤ dport < 2 ^ 16;
  ei_config : egress_config_ok cfg;
  ei_addrs : addrs_ok cfg (es_clients s);
  ei_short : m = PQuic → wg_type_of wg = 2 ∨ wg_type_of wg = 4;
  ei_kept : keepalive_dropped cfg prandom wg = false;
  ei_dynamic : gc_dynamic_peer cfg ≠ 0 → wg_type_of wg ≠ 1;
  ei_port : select_port (seq_of s) cfg ≠ 0;
  ei_route : outer_route v cfg (es_clients s) (client_index wg) (select_port (seq_of s) cfg)
             = Some (src, dst, sp, dp)
}.

(** C5: The packet program sends what the userspace path sends.  On the frame
    of a WireGuard message that it does not drop and has a route for, and when
    no helper fails, [gut_egress] redirects a frame to the physical interface
    that is addressed to the peer, has correct lengths and header checksums,
    and carries exactly the datagram that [obfs_encap] makes of the message
    with the same key, rounds and ports, whatever buffer it is in, in the GUT
    mode and in the QUIC mode with a short header. *)
Theorem kernel_egress_is_userspace `{PK : !PacketKernel, PL : !PacketLaws, PR : !PacketReliable}
    m rounds cfg prandom s v sport dport wg src dst sp dp :
  0 ≤ rounds ≤ 21 → egress_input m cfg prandom s v sport dport wg src dst sp dp →
  ∃ s' D, gut_egress m rounds cfg prandom s = (Ok (TcRedirect (gc_egress_ifindex cfg)), s') ∧
    tunnel_frame v cfg src dst sp dp D (k_bytes (es_skb s')) ∧
    ∀ rest is_server domain t_ns, bytes rest → (80 ≤ length rest)%nat → ∃ b dcid,
      obfs_encap (wg ++ rest) (length wg) (gc_chacha_init cfg) rounds is_server sport dport
        (mode_of m) domain t_ns = Done (b, Some (length D, dcid)) ∧ take (length D) b = D.
Proof.
  intros Hr [H1 H2 H3 H4 H5 H6 H7 H8 H9 H10 H11 H12 H13].
  destruct (egress_run m rounds cfg prandom s v sport dport wg H1 H2 H3 H4 H5 H6 H7 H8 Hr H9 H10 H11 H12
    src dst sp dp H13) as (s' & Hrun & _ & Hf).
  eexists _, _. split; [exact Hrun|]. split; [exact Hf|].
  intros rest is_server domain t_ns Hb Hl.
  destruct (sent_payload_userspace m rounds cfg sport dport wg H2 H7 H9 rest is_server domain t_ns Hb Hl)
    as (b & He & Ht). by eexists _, _.
Qed.
