(* ===== verification/BpfIngress.v ===== *)
(** * bpf/xdp_gut_ingress.bpf.c: the packet program of the receiving direction

    [gut_xdp_core] takes a frame from the physical interface, checks that its
    payload was made with the shared key, and turns it back into the frame of
    the WireGuard message, in place.  [xdp_gut_ingress] redirects such a frame
    to the veth pair and lets other frames pass or drops them.
    [xdp_dispatch] of [src/src/bpf/xdp_dispatcher.bpf.c] runs before it and
    chooses the program by the destination port. *)

From stdpp Require Import gmap.
From S2P Require Import Prelude Words Slices Results Obfs Loader Links BpfCommon BpfEgress.
Local Open Scope Z_scope.

Record ingress_state := mkIngress {
  is_pkt : list Z;
  is_stats : GutStats;
  is_clients : gmap Z peer_endpoint;
  is_sessions : gmap Z Z
}.

Definition with_pkt (p : list Z) (s : ingress_state) : ingress_state :=
  mkIngress p (is_stats s) (is_clients s) (is_sessions s).
Definition with_istats (f : GutStats → GutStats) (s : ingress_state) : ingress_state :=
  mkIngress (is_pkt s) (f (is_stats s)) (is_clients s) (is_sessions s).
Definition with_clients (m : gmap Z peer_endpoint) (s : ingress_state) : ingress_state :=
  mkIngress (is_pkt s) (is_stats s) m (is_sessions s).

Definition count_received (len : Z) (s : GutStats) : GutStats :=
  mkStats (wrapping_add 64 (packets_processed s) 1) (packets_dropped s)
    (wrapping_add 64 (bytes_processed s) len) (packets_oversized s)
    (wrapping_add 64 (mask_count s) 1) (packets_fragmented s) (inner_tcp_seen s)
    (packets_egress s) (wrapping_add 64 (packets_ingress s) 1).

(** Leaving is [return -1]. *)
Abbreviation IM := (KM ingress_state unit).

Definition xpeek (off n : nat) : IM (list Z) := λ s,
  (lift (peek (is_pkt s) (length (is_pkt s)) off n), s).
Definition xpeek8 (off : nat) : IM Z := b ← xpeek off 1; mret (b !!! 0%nat).
Definition xpeek16 (off : nat) : IM Z := b ← xpeek off 2; mret (from_be b).
(** A 32-bit word copied out of the packet. *)
Definition xpeek32 (off : nat) : IM Z := b ← xpeek off 4; mret (from_le b).
Definition xpoke (off : nat) (v : list Z) : IM unit := λ s,
  match poke (is_pkt s) (length (is_pkt s)) off v with
  | Done b => (Ok tt, with_pkt b s)
  | Panic => (Abort, s)
  end.
(** [if (p + n > data_end) return -1;] *)
Definition xwithin (off : nat) : IM unit :=
  p ← gets is_pkt; leave_if (length p <? off)%nat tt.

(** ** Parsing *)

(** The offsets of the IP and the UDP header, and the version of IP. *)
Definition xdp_parse : IM (nat * nat * Z) :=
  _ ← xwithin 14;
  h_proto ← xpeek16 12;
  '(eth_proto, ip_off) ← (if h_proto =? ETH_P_8021Q then
                            _ ← xwithin 18; p ← xpeek16 16; mret (p, 18%nat)
                          else mret (h_proto, 14%nat));
  '(udp_off, ipver) ←
    (if eth_proto =? ETH_P_IP then
       _ ← xwithin (ip_off + 20);
       p ← xpeek8 (ip_off + 9);
       b ← xpeek8 ip_off;
       _ ← leave_if (negb (p =? IPPROTO_UDP) || negb (Z.land b 0x0F =? 5)) tt;
       mret ((ip_off + 20)%nat, 4)
     else if eth_proto =? ETH_P_IPV6 then
       _ ← xwithin (ip_off + 40);
       p ← xpeek8 (ip_off + 6);
       _ ← leave_if (negb (p =? IPPROTO_UDP)) tt;
       mret ((ip_off + 40)%nat, 6)
     else leave tt);
  _ ← xwithin (udp_off + 8);
  mret (ip_off, udp_off, ipver).

(** The length of the UDP datagram; its payload starts behind the header. *)
Definition find_payload (cfg : GutConfig) (udp_off : nat) : IM Z :=
  dst_port ← xpeek16 (udp_off + 2);
  _ ← leave_if (negb (is_gut_port dst_port cfg)) tt;
  udp_len ← xpeek16 (udp_off + 4);
  _ ← leave_if (udp_len <? 8 + Z.of_nat WG_MIN_PACKET) tt;
  let wg_off := (udp_off + 8)%nat in
  let wg_len := udp_len - 8 in
  p ← gets is_pkt;
  _ ← leave_if ((wg_len <? Z.of_nat WG_MIN_PACKET) || (length p <? wg_off + WG_MIN_PACKET)%nat
                || (length p <? wg_off + Z.to_nat wg_len)%nat) tt;
  _ ← xwithin (wg_off + 12);
  mret udp_len.

Definition inner_header (m : pmode) (wg_off : nat) : IM nat :=
  match m with
  | PGut => mret GUT_HEADER_SIZE
  | PQuic =>
      b ← xpeek8 wg_off;
      if b =? 0x40 then mret GUT_QUIC_SHORT_HEADER_SIZE
      else if Z.land b 0x80 =? 0x80 then mret GUT_QUIC_LONG_HEADER_SIZE
      else leave tt
  end.

Definition ballast_len_of (pad_byte : Z) : Z :=
  if Z.land pad_byte 0x40 =? 0 then 0 else Z.land pad_byte 0x3F + 1.

(** [xor16(p, k)] on the packet. *)
Definition xor16 (off : nat) (k : list Z) : IM unit :=
  b ← xpeek off 16; xpoke off (xor_bytes b k).

(** ** Verification *)

Definition check_header (m : pmode) (cfg : GutConfig) (quic hdr : nat) (ks47 : list Z) : IM unit :=
  let expected_ppn := ks47 !!! 10%nat in
  match m with
  | PGut =>
      pkt_ppn ← xpeek32 quic; leave_if (negb (pkt_ppn =? expected_ppn)) tt
  | PQuic =>
      if (hdr =? GUT_QUIC_SHORT_HEADER_SIZE)%nat then
        pkt_dcid ← xpeek32 (quic + 1);
        _ ← leave_if (negb (pkt_dcid =? ks47 !!! 9%nat)) tt;
        b ← xpeek8 (quic + 5);
        _ ← leave_if (negb (b =? 0x01)) tt;
        pkt_ppn ← xpeek32 (quic + 6);
        leave_if (negb (pkt_ppn =? expected_ppn)) tt
      else
        b ← xpeek8 (quic + 5);
        _ ← leave_if (negb (b =? 0x08)) tt;
        pkt_dcid ← xpeek32 (quic + 6);
        _ ← leave_if (negb (pkt_dcid =? from_le (take 4 (gc_quic_dcid cfg)))) tt;
        pkt_ppn ← xpeek32 (quic + 15);
        leave_if (negb (pkt_ppn =? expected_ppn)) tt
  end.

(** The word with the ports of the message. *)
Definition enc_ports_off (m : pmode) (hdr : nat) : nat :=
  match m with
  | PGut => 4%nat
  | PQuic => if (hdr =? GUT_QUIC_SHORT_HEADER_SIZE)%nat then 10%nat else 24%nat
  end.

(** The loader leaves the IPv6 addresses of the tunnel at zero. *)
Definition tun_peer_ip6 (cfg : GutConfig) : list Z := replicate 16 0.
Definition tun_local_ip6 (cfg : GutConfig) : list Z := replicate 16 0.

Section ingress.
  Context `{PacketKernel}.

(** ** Learning *)

Definition sender (ip_off udp_off : nat) (ipver : Z) : IM peer_endpoint :=
  sport ← xpeek16 udp_off;
  dport ← xpeek16 (udp_off + 2);
  if ipver =? 4 then
    saddr ← xpeek32 (ip_off + 12);
    daddr ← xpeek32 (ip_off + 16);
    mret (mkEndpoint saddr (replicate 16 0) sport daddr (replicate 16 0) dport 1 0)
  else
    saddr ← xpeek (ip_off + 8) 16;
    daddr ← xpeek (ip_off + 24) 16;
    mret (mkEndpoint 0 saddr sport 0 daddr dport 1 0).

Definition learn_endpoint (cfg : GutConfig) (ip_off udp_off wg : nat) (ipver wg_type : Z) : IM unit :=
  if gc_dynamic_peer cfg =? 0 then mret tt else
  client_idx ← (if wg_type =? 1 then xpeek32 (wg + 4)
                else if (wg_type =? 4) || (wg_type =? 3) then
                  s_idx ← xpeek32 (wg + 4);
                  ss ← gets is_sessions;
                  mret (default 0 (ss !! s_idx))
                else mret 0);
  if client_idx =? 0 then mret tt else
  ep ← sender ip_off udp_off ipver;
  modify (λ s, with_clients (lru_update (is_clients s) client_idx ep) s).

(** ** Restoring the message *)

Definition unmask_mac2 (wg : nat) (wg_len wg_type : Z) (ks47_b : list Z) : IM unit :=
  p ← gets is_pkt;
  if (wg_type =? 1) && (148 <=? wg_len) && (wg + 148 <=? length p)%nat
  then xor16 (wg + 132) (window 16 16 ks47_b)
  else if (wg_type =? 2) && (92 <=? wg_len) && (wg + 92 <=? length p)%nat
  then xor16 (wg + 76) (window 16 16 ks47_b)
  else mret tt.

(** The lengths and the addresses of the frame for the tunnel. *)
Definition rewrite_headers (cfg : GutConfig) (ip_off udp_off : nat) (ipver new_udp_len : Z) : IM unit :=
  _ ← xpoke (udp_off + 4) (be_bytes 2 new_udp_len);
  _ ← xpoke (udp_off + 6) [0; 0];
  if ipver =? 4 then
    _ ← xpoke (ip_off + 2) (be_bytes 2 (20 + new_udp_len));
    if negb (gc_tun_peer_ip4 cfg =? 0) && negb (gc_tun_local_ip4 cfg =? 0) then
      _ ← xpoke (ip_off + 12) (u32_to_le_bytes (gc_tun_peer_ip4 cfg));
      xpoke (ip_off + 16) (u32_to_le_bytes (gc_tun_local_ip4 cfg))
    else mret tt
  else
    _ ← xpoke (ip_off + 4) (be_bytes 2 new_udp_len);
    if negb (from_le (take 4 (tun_peer_ip6 cfg)) =? 0) && negb (from_le (take 4 (tun_local_ip6 cfg)) =? 0) then
      _ ← xpoke (ip_off + 8) (tun_peer_ip6 cfg);
      xpoke (ip_off + 24) (tun_local_ip6 cfg)
    else mret tt.

(** A helper that resizes the packet; a failure is counted. *)
Definition resize (f : list Z → option (list Z)) : IM unit :=
  p ← gets is_pkt;
  match f p with
  | Some p => modify (with_pkt p)
  | None => _ ← modify (with_istats count_dropped); leave tt
  end.

(** Cut the obfuscation header out, moving the headers before it. *)
Definition strip_header (outer_hdr_len udp_off : nat) : IM unit :=
  let shift_len_head := (udp_off + 8)%nat in
  _ ← leave_if ((shift_len_head <? 14) || (62 <? shift_len_head))%nat tt;
  p ← gets is_pkt;
  hdrs ← or_leave (bpf_xdp_load_bytes p 0 shift_len_head) tt;
  _ ← resize (λ p, bpf_xdp_adjust_head p outer_hdr_len);
  _ ← resize (λ p, bpf_xdp_store_bytes p 0 hdrs);
  xwithin 14.

Definition strip_tail (tail_total : Z) : IM unit :=
  _ ← (if 0 <? tail_total then
         _ ← resize (λ p, bpf_xdp_adjust_tail p (- tail_total)); xwithin 14
       else mret tt);
  xwithin 14.

(** The ports of the message, the checksums and the Ethernet header. *)
Definition finish_frame (cfg : GutConfig) (ip_off udp_off : nat) (ipver sport dport : Z) : IM unit :=
  _ ← (if ipver =? 4 then
         _ ← xwithin (ip_off + 20);
         _ ← xwithin (udp_off + 8);
         _ ← xpoke (ip_off + 10) [0; 0];
         iph ← xpeek ip_off 20;
         _ ← xpoke (ip_off + 10) (u16_to_le_bytes (csum_fold (bpf_csum_diff iph 0)));
         _ ← xpoke (udp_off + 6) [0; 0];
         _ ← xpoke udp_off (be_bytes 2 sport);
         xpoke (udp_off + 2) (be_bytes 2 dport)
       else
         _ ← xwithin (ip_off + 40);
         _ ← xwithin (udp_off + 8);
         _ ← xpoke udp_off (be_bytes 2 sport);
         _ ← xpoke (udp_off + 2) (be_bytes 2 dport);
         xpoke (udp_off + 6) [0; 0]);
  _ ← xpoke 0 (gc_tun_mac cfg);
  _ ← xpoke 6 (gc_src_mac cfg);
  xpoke 12 (be_bytes 2 (if ipver =? 6 then ETH_P_IPV6 else ETH_P_IP)).

(** ** The programs *)

(** What the first part of the program knows of a frame. *)
Record verified := mkVerified {
  vf_ip_off : nat;
  vf_udp_off : nat;
  vf_ipver : Z;
  vf_udp_len : Z;
  vf_outer_hdr_len : nat;
  vf_ballast_len : Z;
  vf_wg_len : Z;
  vf_plain_ports : Z
}.

(** Restore the first bytes of the message, check the header, learn the sender
    and restore the rest. *)
Definition open_message (m : pmode) (cfg : GutConfig) (ip_off udp_off : nat) (ipver udp_len : Z)
    (outer_hdr_len : nat) (ballast_len : Z) (ks47 : list Z) : IM verified :=
  let quic := (udp_off + 8)%nat in
  let wg := (quic + outer_hdr_len)%nat in
  let wg_len := wrap 32 (udp_len - 8 - Z.of_nat outer_hdr_len) in
  let ks47_b := words_to_bytes ks47 in
  _ ← xor16 wg (take 16 ks47_b);
  b ← xpeek8 wg;
  let wg_type := Z.land b 0x1F in
  _ ← check_header m cfg quic outer_hdr_len ks47;
  _ ← learn_endpoint cfg ip_off udp_off wg ipver wg_type;
  enc_ports ← xpeek32 (quic + enc_ports_off m outer_hdr_len);
  let plain_ports := Z.lxor enc_ports (ks47 !!! 11%nat) in
  _ ← unmask_mac2 wg wg_len wg_type ks47_b;
  mret (mkVerified ip_off udp_off ipver udp_len outer_hdr_len ballast_len wg_len plain_ports).

Definition open_frame (m : pmode) (rounds : Z) (cfg : GutConfig) : IM verified :=
  '(ip_off, udp_off, ipver) ← xdp_parse;
  udp_len ← find_payload cfg udp_off;
  let quic := (udp_off + 8)%nat in
  outer_hdr_len ← inner_header m quic;
  pad_byte ← xpeek8 (quic + (outer_hdr_len - 1));
  let wg := (quic + outer_hdr_len)%nat in
  _ ← xwithin (wg + WG_MIN_PACKET);
  head ← xpeek wg WG_MIN_PACKET;
  let ks47 := chacha_block rounds (gc_chacha_init cfg) 47 (wg_nonce32 head) in
  open_message m cfg ip_off udp_off ipver udp_len outer_hdr_len (ballast_len_of pad_byte) ks47.

(** Make the frame for the tunnel. *)
Definition deliver_frame (cfg : GutConfig) (f : verified) : IM unit :=
  let '(mkVerified ip_off udp_off ipver udp_len outer_hdr_len ballast_len wg_len plain_ports) := f in
  _ ← leave_if ((63 <? ballast_len) || (wg_len <? ballast_len)) tt;
  _ ← leave_if ((wg_len <? ballast_len) || (wg_len - ballast_len <? Z.of_nat WG_MIN_PACKET)) tt;
  let new_udp_len := wrap 16 (udp_len - ballast_len - Z.of_nat outer_hdr_len) in
  _ ← rewrite_headers cfg ip_off udp_off ipver new_udp_len;
  _ ← strip_header outer_hdr_len udp_off;
  _ ← strip_tail ballast_len;
  let inner_new_len := (if ipver =? 6 then 40 else 20) + new_udp_len in
  _ ← xwithin (ip_off + Z.to_nat inner_new_len);
  _ ← finish_frame cfg ip_off udp_off ipver (as_u16 (shr plain_ports 16)) (as_u16 (Z.land plain_ports 0xFFFF));
  p ← gets is_pkt;
  modify (with_istats (count_received (Z.of_nat (length p)))).

Definition gut_xdp_core (m : pmode) (rounds : Z) (cfg : GutConfig) : IM unit :=
  open_frame m rounds cfg ≫= deliver_frame cfg.
End ingress.

(** [XdpTailCall i] is a tail call that found its program; [XdpRedirect] goes
    through the only entry of [tx_devmap]. *)
Inductive xdp_verdict := XDP_DROP | XDP_PASS | XDP_TX | XdpRedirect | XdpTailCall (idx : Z).

(** The probe handler is reached by a tail call when it is installed. *)
Definition xdp_gut_ingress `{PacketKernel} (m : pmode) (rounds : Z) (cfg : GutConfig) (has_probe : bool)
    (s : ingress_state) : res unit xdp_verdict * ingress_state :=
  match gut_xdp_core m rounds cfg s with
  | (Ok _, s) => (Ok XdpRedirect, s)
  | (Err _, s) =>
      let probe := match m with PQuic => (gc_own_http3 cfg =? 1) && has_probe | PGut => false end in
      if probe then (Ok (XdpTailCall 0), s)
      else (Ok (if gc_default_xdp_action cfg =? 1 then XDP_DROP else XDP_PASS), s)
  | (Abort, s) => (Abort, s)
  end.

(** *** The dispatcher *)

Abbreviation DM := (KM (list Z) xdp_verdict).

Definition dwithin (off : nat) : DM unit := p ← gets id; leave_if (length p <? off)%nat XDP_PASS.
Definition dpeek (off n : nat) : DM (list Z) := λ p, (lift (peek p (length p) off n), p).
Definition dpeek8 (off : nat) : DM Z := b ← dpeek off 1; mret (b !!! 0%nat).
Definition dpeek16 (off : nat) : DM Z := b ← dpeek off 2; mret (from_be b).

(** [port_map] leads from a port to an index of [xdp_peer_progs]. *)
Definition xdp_dispatch (port_map : gmap Z Z) (has_prog : Z → bool) : DM xdp_verdict :=
  _ ← dwithin 14;
  h_proto ← dpeek16 12;
  '(proto, ip_off) ← (if h_proto =? ETH_P_8021Q then
                        _ ← dwithin 18; p ← dpeek16 16; mret (p, 18%nat)
                      else mret (h_proto, 14%nat));
  udp_off ←
    (if proto =? ETH_P_IP then
       _ ← dwithin (ip_off + 20);
       p ← dpeek8 (ip_off + 9);
       _ ← leave_if (negb (p =? IPPROTO_UDP)) XDP_PASS;
       b ← dpeek8 ip_off;
       mret (ip_off + Z.to_nat (Z.land b 0x0F) * 4)%nat
     else if proto =? ETH_P_IPV6 then
       _ ← dwithin (ip_off + 40);
       p ← dpeek8 (ip_off + 6);
       _ ← leave_if (negb (p =? IPPROTO_UDP)) XDP_PASS;
       mret (ip_off + 40)%nat
     else leave XDP_PASS);
  _ ← dwithin (udp_off + 8);
  dst_port ← dpeek16 (udp_off + 2);
  match port_map !! dst_port with
  | None => mret XDP_PASS
  | Some peer_idx => mret (if has_prog peer_idx then XdpTailCall peer_idx else XDP_PASS)
  end.
