(* ===== verification/BpfReceive.v ===== *)
(** * The receiving packet program and the userspace path

    [gut_xdp_core] accepts the frames whose payload [obfs_verify] accepts, and
    delivers the message that [obfs_decap] restores. *)

From stdpp Require Import gmap.
From S2P Require Import Prelude Words Slices ChaCha Results Obfs ObfsMask ObfsHeader ObfsRoundtrip.
From S2P Require Import Loader Links BpfCommon BpfEgress BpfEgressProofs.
From S2P Require Import BpfSend BpfIngress.
Local Open Scope Z_scope.

(** ** Access to the packet *)

Lemma xwithin_Ok off s : (off ≤ length (is_pkt s))%nat → xwithin off s = (Ok tt, s).
Proof. intros H. unfold xwithin. kret. unfold leave_if. by destruct (Nat.ltb_spec (length (is_pkt s)) off); [lia|]. Qed.

Lemma xpeek_Ok off n s : (off + n ≤ length (is_pkt s))%nat → xpeek off n s = (Ok (window off n (is_pkt s)), s).
Proof. intros H. unfold xpeek, peek. by destruct (Nat.leb_spec (off + n) (length (is_pkt s))); [|lia]. Qed.

Lemma xpeek8_Ok off s : (off + 1 ≤ length (is_pkt s))%nat → xpeek8 off s = (Ok (is_pkt s !!! off), s).
Proof.
  intros H. unfold xpeek8. kstep (xpeek_Ok off 1 s H). by rewrite lookup_total_window, Nat.add_0_r by lia.
Qed.

Lemma xpeek16_Ok off s : (off + 2 ≤ length (is_pkt s))%nat →
  xpeek16 off s = (Ok (from_be (window off 2 (is_pkt s))), s).
Proof. intros H. unfold xpeek16. by kstep (xpeek_Ok off 2 s H). Qed.

Lemma xpeek32_Ok off s : (off + 4 ≤ length (is_pkt s))%nat →
  xpeek32 off s = (Ok (from_le (window off 4 (is_pkt s))), s).
Proof. intros H. unfold xpeek32. by kstep (xpeek_Ok off 4 s H). Qed.

Lemma xpoke_Ok off w s : (off + length w ≤ length (is_pkt s))%nat →
  xpoke off w s = (Ok tt, with_pkt (list_inserts off w (is_pkt s)) s).
Proof. intros H. unfold xpoke, poke. by destruct (Nat.leb_spec (off + length w) (length (is_pkt s))); [|lia]. Qed.

Lemma pkt_with b s : is_pkt (with_pkt b s) = b.
Proof. done. Qed.
Lemma with_with b b' s : with_pkt b (with_pkt b' s) = with_pkt b s.
Proof. done. Qed.

Lemma xor16_Ok a klo ks P w R s : is_pkt s = P ++ w ++ R → (a + 16 ≤ length w)%nat →
  (klo + 16 ≤ length ks)%nat →
  xor16 (length P + a) (window klo 16 ks) s = (Ok tt, with_pkt (P ++ xor_at16 a klo ks w ++ R) s).
Proof.
  intros Hp Ha Hk. assert (Hl : length (is_pkt s) = (length P + (length w + length R))%nat) by (rewrite Hp; len).
  unfold xor16. kstep (xpeek_Ok (length P + a) 16 s ltac:(lia)).
  assert (Hw : window (length P + a) 16 (is_pkt s) = window a 16 w).
  { rewrite Hp, window_app_ge by lia. replace (length P + a - length P)%nat with a by lia.
    by rewrite window_app_l. }
  rewrite Hw. assert (Hx : length (xor_bytes (window a 16 w) (window klo 16 ks)) = 16%nat)
    by (rewrite length_xor_bytes, !length_window; lia).
  rewrite xpoke_Ok by lia. rewrite Hp. by rewrite list_inserts_mid by lia.
Qed.

(** ** Parsing *)

Section frame.
  Context (v : ipver) (sport dport : Z) (payload : list Z) (s : ingress_state).
  Context (Hf : udp_frame v (is_pkt s) sport dport payload).

Lemma xdp_parse_Ok : xdp_parse s = (Ok (14%nat, udp_at v, ver v), s).
Proof using Hf.
  pose proof (uf_length _ _ _ _ _ Hf) as Hl. destruct Hf as [_ _ Ht Hip _ _ _].
  unfold payload_at, udp_at in *. unfold xdp_parse.
  kstep (xwithin_Ok 14 s ltac:(lia)). kstep (xpeek16_Ok 12 s ltac:(lia)).
  rewrite Ht, from_be_u16 by by destruct v.
  replace (ether_type v =? ETH_P_8021Q) with false by by destruct v. kret.
  destruct v; cbn [ether_type ip_len] in *.
  - change (0x0800 =? ETH_P_IP) with true. cbv iota.
    kstep (xwithin_Ok 34 s ltac:(lia)). kstep (xpeek8_Ok 23 s ltac:(lia)). kstep (xpeek8_Ok 14 s ltac:(lia)).
    destruct Hip as [-> ->]. change (negb (17 =? IPPROTO_UDP) || negb (5 =? 5)) with false. kret.
    by kstep (xwithin_Ok 42 s ltac:(lia)).
  - change (0x86DD =? ETH_P_IP) with false. change (0x86DD =? ETH_P_IPV6) with true. cbv iota.
    kstep (xwithin_Ok 54 s ltac:(lia)). kstep (xpeek8_Ok 20 s ltac:(lia)). rewrite Hip.
    change (negb (17 =? IPPROTO_UDP)) with false. kret. by kstep (xwithin_Ok 62 s ltac:(lia)).
Qed.

Lemma find_payload_Ok cfg : is_gut_port dport cfg = true → 0 ≤ dport < 2 ^ 16 →
  8 + Z.of_nat (length payload) < 2 ^ 16 →
  find_payload cfg (udp_at v) s
  = if (32 <=? length payload)%nat then (Ok (8 + Z.of_nat (length payload)), s) else (Err tt, s).
Proof using Hf.
  intros Hp Hd Hn. pose proof (uf_length _ _ _ _ _ Hf) as Hl. unfold find_payload, payload_at in *.
  kstep (xpeek16_Ok (udp_at v + 2) s ltac:(lia)).
  rewrite (uf_dport _ _ _ _ _ Hf), from_be_u16, Hp by done. cbn [negb]. kret.
  kstep (xpeek16_Ok (udp_at v + 4) s ltac:(lia)). rewrite (uf_udp_len _ _ _ _ _ Hf), from_be_u16 by lia.
  unfold WG_MIN_PACKET. destruct (Nat.leb_spec 32 (length payload)).
  - replace (_ <? 8 + Z.of_nat 32) with false by (symmetry; apply Z.ltb_ge; lia). kret.
    rewrite Hl. replace (_ || _) with false.
    2: { symmetry. rewrite !orb_false_iff, Z.ltb_ge, !Nat.ltb_ge. lia. }
    kret. by kstep (xwithin_Ok (udp_at v + 8 + 12) s ltac:(lia)).
  - by replace (_ <? 8 + Z.of_nat 32) with true by (symmetry; apply Z.ltb_lt; lia).
Qed.
End frame.

(** ** What userspace makes of a payload *)

Definition inner_len (m : pmode) : nat := match m with PGut => 10%nat | PQuic => 16%nat end.

(** The part behind the header, the key stream it selects, and the announced
    padding. *)
Definition body (m : pmode) (payload : list Z) : list Z := drop (inner_len m) payload.
Definition body_ks (m : pmode) (key : list Z) (rounds : Z) (payload : list Z) : list Z :=
  chacha_block_fast key 47 (wg_nonce32 (body m payload)) rounds.
Definition body_pad (m : pmode) (payload : list Z) : nat := ballast_of (payload !!! (inner_len m - 1)%nat).

Definition header_matches (m : pmode) (ks payload : list Z) : bool :=
  match m with
  | PGut => from_le (window 0 4 payload) =? ks !!! 10%nat
  | PQuic => (from_le (window 1 4 payload) =? ks !!! 9%nat) && (payload !!! 5%nat =? 1)
             && (from_le (window 6 4 payload) =? ks !!! 10%nat)
  end.

Lemma wg_nonce32_take n wg : (32 ≤ n)%nat → wg_nonce32 (take n wg) = wg_nonce32 wg.
Proof.
  intros Hn. assert (Hw : ∀ lo, (lo + 4 ≤ 32)%nat → window lo 4 (take n wg) = window lo 4 wg).
  { intros lo Hlo. apply window_ext. intros i Hi. apply lookup_take_lt. lia. }
  unfold wg_nonce32. by rewrite !Hw by lia.
Qed.

Lemma nonce_of_long wg : (32 ≤ length wg)%nat → nonce_of wg = wg_nonce32 wg.
Proof.
  intros H. pose proof (wg_nonce32_userspace wg H) as H1. rewrite wg_nonce32_Done in H1. by injection H1.
Qed.

(** Writes commute with cutting a list behind them. *)
Lemma take_list_inserts {A} a n (x l : list A) : (a + length x ≤ n)%nat → (n ≤ length l)%nat →
  take n (list_inserts a x l) = list_inserts a x (take n l).
Proof.
  intros H1 H2. rewrite <- (take_drop n l) at 1.
  pose proof (list_inserts_mid a x [] (take n l) (drop n l)) as Hm. simpl in Hm.
  rewrite Hm by len. rewrite take_app_length'; [done|len].
Qed.

Lemma length_xor_bytes_le a b : (length (xor_bytes a b) ≤ length a)%nat.
Proof. rewrite length_xor_bytes. lia. Qed.

Lemma take_xor_at16 a klo ks n (p : list Z) : (a + 16 ≤ n)%nat → (n ≤ length p)%nat →
  take n (xor_at16 a klo ks p) = xor_at16 a klo ks (take n p).
Proof.
  intros H1 H2. unfold xor_at16.
  assert (Hw : window a 16 (take n p) = window a 16 p)
    by (apply window_ext; intros i Hi; apply lookup_take_lt; lia).
  rewrite Hw. apply take_list_inserts; [|done].
  pose proof (length_xor_bytes_le (window a 16 p) (window klo 16 ks)). rewrite length_window in *; lia.
Qed.

Section userspace.
  Context (m : pmode) (key : list Z) (rounds : Z) (payload : list Z).
  Context (Hkey : expanded_key key) (Hb : bytes payload).
  Context (Hq : m = PQuic → payload !!! 0%nat = 0x40).

Local Abbreviation h := (inner_len m).
Local Abbreviation W := (body m payload).
Local Abbreviation ks := (body_ks m key rounds payload).
Local Abbreviation pad := (body_pad m payload).

Lemma length_W : length W = (length payload - h)%nat.
Proof using Type. unfold body. len. Qed.

Lemma window_body lo n : window (h + lo) n payload = window lo n W.
Proof using Type. unfold body, window. by rewrite drop_drop. Qed.

Lemma ks_block : KeystreamBlock ks.
Proof using Hkey Hb.
  apply chacha_block_fast_wf; [done|unfold in_width; lia|]. unfold wg_nonce32.
  assert (Hw : ∀ lo, is_u32 (from_le (window lo 4 W))).
  { intros lo. assert (Hbw : bytes (window lo 4 W)) by (unfold body; auto with gutd).
    pose proof (from_le_range _ Hbw) as Hr. unfold in_width in *. split; [lia|].
    eapply Z.lt_le_trans; [apply Hr|]. apply Z.pow_le_mono_r; [lia|].
    unfold window. rewrite length_take. lia. }
  repeat apply lxor_range; try lia; apply Hw.
Qed.

(** The nonce of the message is that of the whole body. *)
Lemma body_nonce n : (h + n ≤ length payload)%nat → (32 ≤ n)%nat →
  nonce_of (window h n payload) = wg_nonce32 W.
Proof using Type.
  intros H1 H2. replace h with (h + 0)%nat by lia. rewrite window_body, window_0.
  pose proof length_W as HW. rewrite nonce_of_long by len. by apply wg_nonce32_take.
Qed.

Lemma verify_hdr_Done : (0 < length payload)%nat → verify_hdr_len payload (mode_of m)
  = Done (match m with
          | PGut => Some 10%nat
          | PQuic => if (6 <=? length payload)%nat && (payload !!! 5%nat =? 1) then Some 16%nat else None
          end).
Proof using Hq.
  intros Hz. unfold verify_hdr_len, byte5_is. rewrite (get_total payload 0), bind_Done by lia.
  destruct m; cbn [mode_of]; [done|]. rewrite Hq by done.
  change (negb (is_quic Quic)) with false. change (Z.land 0x40 0xC0 =? 0xC0) with false.
  change (Z.land 0x40 0x40 =? 0x40) with true. cbv iota.
  destruct (Nat.leb_spec (length payload) 5), (Nat.leb_spec 6 (length payload)); try lia; [done|].
  rewrite (get_total payload 5), !bind_Done by lia. done.
Qed.

(** What [obfs_verify] checks behind the header length. *)
Lemma obfs_verify_spec : obfs_verify payload (length payload) key rounds (mode_of m)
  = Done ((h + 32 <=? length payload)%nat && (pad <=? length W)%nat && (32 <=? length W - pad)%nat
          && header_matches m ks payload).
Proof using Type*.
  unfold obfs_verify. destruct (Nat.eqb_spec (length payload) 0) as [Hz|Hz].
  { rewrite Hz. by destruct m. }
  pose proof length_W as HW. pose proof ks_block as Hkb. pose proof (ks_byte_length ks) as Hkl.
  rewrite verify_hdr_Done, bind_Done by lia.
  destruct m as [|] eqn:Hm; cbn [inner_len] in *.
  2: destruct (Nat.leb_spec 6 (length payload)); cbn [andb].
  2: destruct (payload !!! 5%nat =? 1) eqn:H5.
  3: { cbn [header_matches]. rewrite H5, andb_false_r. cbn [andb]. by rewrite andb_false_r. }
  3: { by destruct (Nat.leb_spec (16 + 32) (length payload)); [lia|]. }
  all: match goal with |- context [(?a <? ?h + 32)%nat] =>
    destruct (Nat.ltb_spec a (h + 32)), (Nat.leb_spec (h + 32) a); try lia; [done|] end.
  all: match goal with |- context [get payload ?i] =>
    rewrite (get_total payload i), bind_Done by lia end.
  all: match goal with |- context [body_pad ?mm payload] =>
    set (pd := body_pad mm payload) in *; set (w := body mm payload) in *;
    set (kk := body_ks mm key rounds payload) in * end.
  all: match goal with |- context [ballast_of ?x] => change (ballast_of x) with pd end;
    rewrite <- HW; cbn [andb].
  all: destruct (Nat.ltb_spec (length w) pd), (Nat.leb_spec pd (length w)); try lia; [done|].
  all: destruct (Nat.ltb_spec (length w - pd) 32), (Nat.leb_spec 32 (length w - pd)); try lia; [done|].
  all: cbn [andb].
  all: rewrite (slice_window payload _ (length w - pd)), bind_Done, wg_nonce32_Done, bind_Done by lia.
  all: pose proof (body_nonce (length w - pd)) as Hbn; rewrite Hm in Hbn; cbn [inner_len] in Hbn;
    rewrite Hbn by lia; fold w; change (chacha_block_fast key 47 (wg_nonce32 w) rounds) with kk;
    cbn [mode_of header_matches].
  - rewrite read_u32_le_Done by lia. done.
  - change (negb (is_quic Quic)) with false. cbv iota.
    rewrite (slice_window payload 16 16), bind_Done by lia.
    rewrite copy_from_slice_Done, bind_Done by (rewrite ?length_window, ?length_replicate; lia).
    rewrite xor16_Done, bind_Done by (rewrite ?length_inserts, ?length_replicate; lia).
    set (hd := list_inserts 0 (xor_bytes _ _) _). assert (Hhd : length hd = 16%nat) by (subst hd; len).
    destruct (Z.land (hd !!! 0%nat) 0x1F =? 2); rewrite read_u32_le_Done, bind_Done by lia;
      change (16 =? GUT_QUIC_SHORT_HEADER_SIZE)%nat with true; cbv iota;
      rewrite !read_u32_le_Done by lia; rewrite H5, andb_true_r; done.
Qed.

Local Abbreviation ksb := (words_to_bytes ks).

(** The ports the header hides. *)
Definition hidden_ports : Z :=
  Z.lxor (from_le (window (enc_ports_off m h) 4 payload)) (ks !!! 11%nat).
Definition inner_sport : Z := as_u16 (shr hidden_ports 16).
Definition inner_dport : Z := as_u16 (Z.land hidden_ports 0xFFFF).

(** The message in the body, and its type. *)
Definition body_len : nat := (length W - pad)%nat.
Definition opened : list Z := xor_at16 0 0 ksb W.
Definition opened_type : Z := Z.land (opened !!! 0%nat) 0x1F.
Definition opened_message : list Z := mask_tail ksb opened_type (take body_len opened).

Lemma ksb_length : length ksb = 64%nat.
Proof using Hkey Hb. pose proof ks_block. by apply ks_byte_length. Qed.

Lemma opened_take n : (16 ≤ n)%nat → (n ≤ length W)%nat →
  xor_at16 0 0 ksb (take n W) = take n opened.
Proof using Type. intros H1 H2. unfold opened. by rewrite take_xor_at16. Qed.

Lemma obfs_decap_spec : (h + 32 ≤ length payload)%nat → (pad ≤ length W)%nat → (32 ≤ body_len)%nat →
  ∃ back, obfs_decap payload (length payload) key rounds (mode_of m)
          = Done (back, Some (body_len, inner_sport, inner_dport)) ∧
          take body_len back = opened_message.
Proof using Type*.
  intros H1 H2 H3. pose proof length_W as HW. pose proof ksb_length as Hk.
  assert (Hn : (h + body_len ≤ length payload)%nat) by (unfold body_len; lia).
  unfold obfs_decap. destruct (Nat.eqb_spec (length payload) 0); [lia|].
  assert (Hd : decap_hdr_len payload (mode_of m) = Done (Some h)).
  { unfold decap_hdr_len. destruct m; [done|]. cbn [mode_of]. change (negb (is_quic Quic)) with false. cbv iota.
    rewrite (get_total payload 0), bind_Done by lia. by rewrite Hq by done. }
  rewrite Hd, bind_Done. destruct (Nat.ltb_spec (length payload) (h + 16)); [lia|].
  rewrite (get_total payload (h - 1)), bind_Done by (destruct m; simpl in *; lia). fold pad. rewrite <- HW.
  destruct (Nat.ltb_spec (length W) pad); [lia|]. fold body_len.
  assert (Hp : (if (h =? GUT_HEADER_SIZE)%nat then read_u32_le payload 4 8
                else if (h =? GUT_QUIC_SHORT_HEADER_SIZE)%nat then read_u32_le payload 10 14
                else read_u32_le payload 24 28) = Done (from_le (window (enc_ports_off m h) 4 payload))).
  { destruct m; cbn [inner_len enc_ports_off] in *; simpl Nat.eqb; cbv iota; by rewrite read_u32_le_Done by lia. }
  rewrite Hp, bind_Done. rewrite (slice_window payload h body_len), bind_Done, wg_nonce32_Done, bind_Done by lia.
  rewrite body_nonce by lia. change (chacha_block_fast key 47 (wg_nonce32 W) rounds) with ks.
  fold hidden_ports inner_sport inner_dport.
  assert (Hwin : window h body_len payload = take body_len W).
  { replace h with (h + 0)%nat by lia. by rewrite window_body, window_0. }
  rewrite (xor16_window _ Hk _ _ body_len), bind_Done by lia. rewrite Hwin.
  rewrite opened_take by (unfold body_len in *; lia).
  assert (Hol : length (take body_len opened) = body_len).
  { rewrite length_take. unfold opened. rewrite length_xor_at16. unfold body_len. lia. }
  rewrite get_total, bind_Done by (rewrite length_inserts; lia).
  rewrite lookup_total_list_inserts_in by lia. rewrite Nat.sub_diag, lookup_total_take_lt by lia.
  fold opened_type.
  rewrite (mask_macs_window _ Hk), bind_Done by (rewrite length_inserts; lia).
  rewrite window_inserts_eq by lia. fold opened_message.
  assert (Hml : length opened_message = body_len) by (unfold opened_message; by rewrite length_mask_tail).
  rewrite list_inserts_twice by lia.
  rewrite copy_within_Done, bind_Done by (rewrite ?length_inserts; lia).
  replace (h + body_len - h)%nat with body_len by lia. rewrite window_inserts_eq by lia.
  eexists. split; [done|]. rewrite <- window_0. by rewrite window_inserts_eq by (rewrite ?length_inserts; lia).
Qed.
End userspace.

(** ** bpf/xdp_gut_ingress.bpf.c: the frame for the tunnel

    The steps of [gut_xdp_core] behind the verification: the headers are
    rewritten, the obfuscation header and the padding are cut off, and the
    ports of the message and the checksum are put in. *)

(** The addresses of the frame: those of the tunnel if there are any. *)
Definition inner_src (v : ipver) (cfg : GutConfig) (F : list Z) : list Z :=
  match v with
  | IPv4 => if negb (gc_tun_peer_ip4 cfg =? 0) && negb (gc_tun_local_ip4 cfg =? 0)
            then u32_to_le_bytes (gc_tun_peer_ip4 cfg) else saddr v F
  | IPv6 => saddr v F
  end.
Definition inner_dst (v : ipver) (cfg : GutConfig) (F : list Z) : list Z :=
  match v with
  | IPv4 => if negb (gc_tun_peer_ip4 cfg =? 0) && negb (gc_tun_local_ip4 cfg =? 0)
            then u32_to_le_bytes (gc_tun_local_ip4 cfg) else daddr v F
  | IPv6 => daddr v F
  end.

(** The fields of the IP header that say what it holds. *)
Definition ip_kept (v : ipver) (F F' : list Z) : Prop :=
  match v with
  | IPv4 => F' !!! 14%nat = F !!! 14%nat ∧ F' !!! 23%nat = F !!! 23%nat
  | IPv6 => F' !!! 20%nat = F !!! 20%nat
  end.

Record resized_headers (v : ipver) (cfg : GutConfig) (n : Z) (F F' : list Z) : Prop := {
  rh_length : length F' = length F;
  rh_bytes : bytes F';
  rh_rest : drop (payload_at v) F' = drop (payload_at v) F;
  rh_ip : ip_kept v F F';
  rh_len : window (udp_at v + 4) 2 F' = be_bytes 2 n;
  rh_total : ip_total v F' = be_bytes 2 (match v with IPv4 => 20 + n | IPv6 => n end);
  rh_src : saddr v F' = inner_src v cfg F;
  rh_dst : daddr v F' = inner_dst v cfg F
}.

Record final_headers (v : ipver) (cfg : GutConfig) (sp dp : Z) (F F' : list Z) : Prop := {
  fh_length : length F' = length F;
  fh_bytes : bytes F';
  fh_rest : drop (payload_at v) F' = drop (payload_at v) F;
  fh_macs : take 12 F' = gc_tun_mac cfg ++ gc_src_mac cfg;
  fh_type : window 12 2 F' = be_bytes 2 (ether_type v);
  fh_ip : ip_kept v F F';
  fh_sport : window (udp_at v) 2 F' = be_bytes 2 sp;
  fh_dport : window (udp_at v + 2) 2 F' = be_bytes 2 dp;
  fh_len : window (udp_at v + 4) 2 F' = window (udp_at v + 4) 2 F;
  fh_total : ip_total v F' = ip_total v F;
  fh_src : saddr v F' = saddr v F;
  fh_dst : daddr v F' = daddr v F;
  fh_ipsum : v = IPv4 → word_sum_le (window 14 20 F') mod 65535 = 0;
  fh_udpsum : udp_checksum v F' = [0; 0]
}.

Section steps.
  Context `{PK : !PacketKernel, PL : !PacketLaws, PR : !PacketReliable}.

Lemma xpoke_step {B} off w (f : unit → IM B) s : (off + length w ≤ length (is_pkt s))%nat →
  (xpoke off w ≫= f) s = f tt (with_pkt (list_inserts off w (is_pkt s)) s).
Proof using Type. intros H. by rewrite (km_step _ _ _ _ _ (xpoke_Ok off w s H)). Qed.

Ltac pokes := repeat (first [rewrite xpoke_step by (rewrite ?pkt_with; len; lia) | rewrite km_assoc];
    rewrite ?pkt_with, ?with_with; cbv beta);
  try (rewrite xpoke_Ok by (rewrite ?pkt_with; len; lia); rewrite ?pkt_with, ?with_with).

Lemma rewrite_headers_Ok v cfg n s : (payload_at v ≤ length (is_pkt s))%nat → bytes (is_pkt s) → ∃ F',
  rewrite_headers cfg 14 (udp_at v) (ver v) n s = (Ok tt, with_pkt F' s) ∧
  resized_headers v cfg n (is_pkt s) F'.
Proof using Type.
  intros Hl Hb. unfold rewrite_headers.
  destruct v; cbn [payload_at udp_at ip_len Nat.add ver Z.eqb Pos.eqb] in *.
  - destruct (negb (gc_tun_peer_ip4 cfg =? 0) && negb (gc_tun_local_ip4 cfg =? 0)) eqn:Ht.
    all: pokes; eexists; (split; [done|]); split; cbn [payload_at udp_at ip_len Nat.add ip_kept ip_total saddr daddr inner_src inner_dst];
      rewrite ?Ht.
    all: try by (try split; writes).
    all: try by (rewrite ?drop_list_inserts by (len; lia)).
    all: try by auto 10 with gutd.
    all: len.
  - change (from_le (take 4 (tun_peer_ip6 cfg)) =? 0) with true. cbn [negb andb].
    pokes. unfold mret, KM_ret. eexists; (split; [done|]);
     split; cbn [payload_at udp_at ip_len Nat.add ip_kept ip_total saddr daddr inner_src inner_dst].
    all: try by (try split; writes).
    all: try by (rewrite ?drop_list_inserts by (len; lia)).
    all: try by auto 10 with gutd.
    all: len.
Qed.

Lemma finish_frame_Ok v cfg sp dp s : (payload_at v ≤ length (is_pkt s))%nat → bytes (is_pkt s) →
  length (gc_tun_mac cfg) = 6%nat → bytes (gc_tun_mac cfg) →
  length (gc_src_mac cfg) = 6%nat → bytes (gc_src_mac cfg) → ∃ F',
  finish_frame cfg 14 (udp_at v) (ver v) sp dp s = (Ok tt, with_pkt F' s) ∧
  final_headers v cfg sp dp (is_pkt s) F'.
Proof using PL.
  intros Hl Hb Ht Htb Hm Hmb. unfold finish_frame.
  destruct v; cbn [payload_at udp_at ip_len Nat.add ver Z.eqb Pos.eqb] in *.
  - kstep (xwithin_Ok 34 s ltac:(lia)). kstep (xwithin_Ok 42 s ltac:(lia)). pokes.
    set (B := list_inserts 24 [0; 0] (is_pkt s)).
    assert (HB : length B = length (is_pkt s)) by (subst B; len).
    kstep (xpeek_Ok 14 20 (with_pkt B s) ltac:(rewrite pkt_with; lia)). rewrite pkt_with.
    set (c := u16_to_le_bytes _). assert (Hc : length c = 2%nat) by (subst c; len).
    assert (Hcb : bytes c) by (subst c; auto with gutd).
    kret. pokes. eexists. split; [done|].
    assert (Hz : window 24 2 B = [0; 0]) by (subst B; by writes).
    assert (HbB : bytes B) by (subst B; auto with gutd).
    split; unfold udp_checksum; cbn [payload_at udp_at ip_len Nat.add ip_kept ip_total saddr daddr].
    all: try by (subst B; try split; writes).
    + subst B. len.
    + auto 10 with gutd.
    + subst B. by rewrite !drop_list_inserts by (len; lia).
    + rewrite <- window_0, (window_split 0 6 6). by f_equal; writes.
    + intros _. apply (header_sum B); [by subst c; writes|done|lia|done|].
      intros a n Ha. by destruct Ha; writes.
  - kstep (xwithin_Ok 54 s ltac:(lia)). kstep (xwithin_Ok 62 s ltac:(lia)). pokes.
    eexists. split; [done|].
    split; unfold udp_checksum; cbn [payload_at udp_at ip_len Nat.add ip_kept ip_total saddr daddr].
    all: try by (try split; writes).
    + len.
    + auto 10 with gutd.
    + by rewrite !drop_list_inserts by (len; lia).
    + rewrite <- window_0, (window_split 0 6 6). by f_equal; writes.
Qed.

(** The headers [P] move over the obfuscation header [H]. *)
Lemma strip_header_Ok v P H W s : is_pkt s = P ++ H ++ W → length P = payload_at v → (14 ≤ length W)%nat →
  strip_header (length H) (udp_at v) s = (Ok tt, with_pkt (P ++ W) s).
Proof using PL PR.
  intros Hp HP HW. assert (Hl : length (is_pkt s) = (length P + length H + length W)%nat) by (rewrite Hp; len).
  unfold strip_header. change (udp_at v + 8)%nat with (payload_at v).
  replace ((payload_at v <? 14) || (62 <? payload_at v))%nat with false by by destruct v. kret.
  rewrite xdp_load. destruct (Nat.leb_spec (0 + payload_at v) (length (is_pkt s))); [|lia].
  assert (Hw : window 0 (payload_at v) (is_pkt s) = P) by (rewrite window_0, Hp; by apply take_app_length').
  rewrite Hw. kret. unfold resize. kret.
  destruct (head_ok (is_pkt s) (length H)) as [p1 Hp1]; [lia|]. rewrite Hp1. kret.
  destruct (xdp_head _ _ _ Hp1) as [-> _]. rewrite pkt_with, xdp_store.
  assert (Hd : length (drop (length H) (is_pkt s)) = (length P + length W)%nat) by len.
  destruct (Nat.leb_spec (0 + length P) (length (drop (length H) (is_pkt s)))); [|lia]. kret.
  rewrite with_with. assert (He : list_inserts 0 P (drop (length H) (is_pkt s)) = P ++ W).
  { rewrite list_inserts_app by lia. rewrite take_0, app_nil_l, Nat.add_0_l, drop_drop, Hp. f_equal.
    rewrite app_assoc, drop_app_length'; [done|len]. }
  rewrite He. apply xwithin_Ok. rewrite pkt_with. len.
Qed.

Lemma strip_tail_Ok P W n s : is_pkt s = P ++ W → (n ≤ length W)%nat → (14 ≤ length P)%nat →
  strip_tail (Z.of_nat n) s = (Ok tt, with_pkt (P ++ take (length W - n) W) s).
Proof using PL PR.
  intros Hp Hn HP. assert (Hl : length (is_pkt s) = (length P + length W)%nat) by (rewrite Hp; len).
  unfold strip_tail. destruct (Z.ltb_spec 0 (Z.of_nat n)).
  - unfold resize. kret. destruct (shrink_ok (is_pkt s) n) as [p1 Hp1]; [lia|]. rewrite Hp1. kret.
    destruct (xdp_tail_shrink _ _ _ Hp1) as [-> _].
    assert (He : take (length (is_pkt s) - n) (is_pkt s) = P ++ take (length W - n) W).
    { rewrite Hl, Hp. rewrite take_app_ge by lia. do 2 f_equal. lia. }
    rewrite He. kstep (xwithin_Ok 14 (with_pkt (P ++ take (length W - n) W) s) ltac:(rewrite pkt_with; len)).
    apply xwithin_Ok. rewrite pkt_with. len.
  - kret. replace n with 0%nat by lia. rewrite Nat.sub_0_r, take_ge by done. rewrite <- Hp.
    rewrite xwithin_Ok by lia. by destruct s.
Qed.
End steps.
