(* ===== verification/BpfDeliver.v ===== *)
(** * The receiving packet program: the run

    [gut_xdp_core] on a UDP frame, from the checks to the frame it leaves. *)

From stdpp Require Import gmap.
From S2P Require Import Prelude Words Slices ChaCha Results Obfs ObfsMask ObfsHeader ObfsRoundtrip.
From S2P Require Import Loader Links BpfCommon BpfEgress BpfEgressProofs BpfSend BpfIngress.
From S2P Require Import BpfReceive.
Local Open Scope Z_scope.

(** What the program relies on in its configuration. *)
Record ingress_config_ok (cfg : GutConfig) : Prop := {
  ic_key : expanded_key (gc_chacha_init cfg);
  ic_tun_mac : length (gc_tun_mac cfg) = 6%nat ∧ bytes (gc_tun_mac cfg);
  ic_src_mac : length (gc_src_mac cfg) = 6%nat ∧ bytes (gc_src_mac cfg)
}.

Lemma ballast_len_of_nat b : ballast_len_of b = Z.of_nat (ballast_of b).
Proof.
  unfold ballast_len_of, ballast_of. destruct (_ =? 0); [done|].
  assert (0 ≤ Z.land b 0x3F) by (apply Z.land_nonneg; lia). lia.
Qed.

Lemma ballast_of_bound b : (ballast_of b ≤ 64)%nat.
Proof.
  unfold ballast_of. destruct (_ =? 0); [lia|]. pose proof (land_ones_lt b 6 ltac:(lia)) as H.
  change (2 ^ 6 - 1) with 0x3F in H. change (Z.to_nat (2 ^ 6)) with 64%nat in H. lia.
Qed.

Lemma km_fail {S V A B} (m : KM S V A) (f : A → KM S V B) s x s' :
  m s = (Err x, s') → (m ≫= f) s = (Err x, s').
Proof. intros H. unfold mbind, KM_bind. by rewrite H. Qed.

(** A frame for the tunnel, made of the frame [F]. *)
Record inner_frame (v : ipver) (cfg : GutConfig) (F : list Z) (sp dp : Z) (msg F' : list Z) : Prop := {
  if_bytes : bytes F';
  if_frame : udp_frame v F' sp dp msg;
  if_macs : take 12 F' = gc_tun_mac cfg ++ gc_src_mac cfg;
  if_src : saddr v F' = inner_src v cfg F;
  if_dst : daddr v F' = inner_dst v cfg F;
  if_total : ip_total v F' = be_bytes 2 (match v with IPv4 => 28 | IPv6 => 8 end + Z.of_nat (length msg));
  if_ipsum : v = IPv4 → word_sum_le (window 14 20 F') mod 65535 = 0;
  if_udpsum : udp_checksum v F' = [0; 0]
}.

(** Two frames with the same headers. *)
Definition same_headers (v : ipver) (F G : list Z) : Prop := take (payload_at v) F = take (payload_at v) G.

Lemma same_window v F G a n : same_headers v F G → (a + n ≤ payload_at v)%nat → window a n F = window a n G.
Proof.
  intros H Ha. apply window_ext. intros i Hi.
  rewrite <- (lookup_take_lt F (payload_at v)), <- (lookup_take_lt G (payload_at v)) by lia. by rewrite H.
Qed.

Lemma same_total v F G i : same_headers v F G → (i < payload_at v)%nat → F !!! i = G !!! i.
Proof.
  intros H Hi. rewrite <- (lookup_total_take_lt F (payload_at v)), <- (lookup_total_take_lt G (payload_at v)) by lia.
  by rewrite H.
Qed.

(** The two rewritings around the cut make such a frame. *)
Lemma inner_frame_built v cfg sport dport payload F F1 F2 F3 F4 sp dp msg :
  udp_frame v F sport dport payload → same_headers v F1 F →
  resized_headers v cfg (8 + Z.of_nat (length msg)) F1 F2 → same_headers v F3 F2 →
  drop (payload_at v) F3 = msg → length F3 = (payload_at v + length msg)%nat →
  final_headers v cfg sp dp F3 F4 → inner_frame v cfg F sp dp msg F4.
Proof.
  intros Hf S1 [R1 R2 R3 R4 R5 R6 R7 R8] S3 Hd Hl [L1 L2 L3 L4 L5 L6 L7 L8 L9 L10 L11 L12 L13 L14].
  pose proof (uf_ip _ _ _ _ _ Hf) as Hip.
  assert (Hpa : payload_at v = (14 + ip_len v + 8)%nat) by done.
  split; [done|split; try done| |..]; try done.
  - by rewrite L3.
  - lia.
  - destruct v; cbn [ip_kept payload_at udp_at ip_len Nat.add] in *; unfold ip_kept in *.
    + destruct L6 as [-> ->]. rewrite !(same_total IPv4 F3 F2) by (done || (cbn [payload_at udp_at ip_len Nat.add]; lia)).
      destruct R4 as [-> ->]. by rewrite !(same_total IPv4 F1 F) by (done || (cbn [payload_at udp_at ip_len Nat.add]; lia)).
    + rewrite L6, (same_total IPv6 F3 F2) by (done || (cbn [payload_at udp_at ip_len Nat.add]; lia)).
      by rewrite R4, (same_total IPv6 F1 F) by (done || (cbn [payload_at udp_at ip_len Nat.add]; lia)).
  - rewrite L9, (same_window v F3 F2) by (done || (unfold payload_at, udp_at; lia)). done.
  - rewrite L11. destruct v; cbn [saddr inner_src] in *;
      rewrite (same_window _ F3 F2) by (done || (cbn [payload_at udp_at ip_len Nat.add]; lia)); rewrite R7;
      rewrite ?(same_window _ F1 F) by (done || (cbn [payload_at udp_at ip_len Nat.add]; lia)); done.
  - rewrite L12. destruct v; cbn [daddr inner_dst] in *;
      rewrite (same_window _ F3 F2) by (done || (cbn [payload_at udp_at ip_len Nat.add]; lia)); rewrite R8;
      rewrite ?(same_window _ F1 F) by (done || (cbn [payload_at udp_at ip_len Nat.add]; lia)); done.
  - rewrite L10. destruct v; cbn [ip_total] in *;
      rewrite (same_window _ F3 F2) by (done || (cbn [payload_at udp_at ip_len Nat.add]; lia)); rewrite R6; f_equal; lia.
Qed.

Lemma inner_extent v n :
  (14 + Z.to_nat ((if (ver v =? 6)%Z then 40 else 20) + (8 + Z.of_nat n)) = payload_at v + n)%nat.
Proof.
  destruct v; [change (ver IPv4 =? 6) with false|change (ver IPv6 =? 6) with true];
    unfold payload_at, udp_at, ip_len; lia.
Qed.

Section run.
  Context `{PK : !PacketKernel, PL : !PacketLaws, PR : !PacketReliable}.
  Context (m : pmode) (rounds : Z) (cfg : GutConfig).

Lemma check_header_Ok P payload R ks s : is_pkt s = P ++ payload ++ R → (inner_len m ≤ length payload)%nat →
  check_header m cfg (length P) (inner_len m) ks s
  = (if header_matches m ks payload then Ok tt else Err tt, s).
Proof using Type.
  intros Hp Hl.
  assert (Hlen : length (is_pkt s) = (length P + (length payload + length R))%nat) by (rewrite Hp; len).
  assert (Hw : ∀ a n, (a + n ≤ length payload)%nat → window (length P + a) n (is_pkt s) = window a n payload).
  { intros a n H. rewrite Hp, window_app_ge by lia. replace (length P + a - length P)%nat with a by lia.
    by rewrite window_app_l. }
  assert (Hi : ∀ a, (a < length payload)%nat → is_pkt s !!! (length P + a)%nat = payload !!! a).
  { intros a H. rewrite Hp, lookup_total_app_r, lookup_total_app_l by lia. f_equal. lia. }
  unfold check_header. destruct m; cbn [inner_len header_matches] in *.
  - kstep (xpeek32_Ok (length P) s ltac:(lia)). rewrite <- (Nat.add_0_r (length P)), Hw by lia.
    unfold leave_if. by destruct (_ =? _).
  - change (16 =? GUT_QUIC_SHORT_HEADER_SIZE)%nat with true. cbv iota.
    kstep (xpeek32_Ok (length P + 1) s ltac:(lia)). rewrite Hw by lia.
    destruct (from_le (window 1 4 payload) =? ks !!! 9%nat); cbn [negb andb]; [|done]. kret.
    kstep (xpeek8_Ok (length P + 5) s ltac:(lia)). rewrite Hi by lia.
    destruct (payload !!! 5%nat =? 1); cbn [negb andb]; [|done]. kret.
    kstep (xpeek32_Ok (length P + 6) s ltac:(lia)). rewrite Hw by lia.
    unfold leave_if. by destruct (_ =? _).
Qed.

Lemma header_matches_take ks payload : (inner_len m ≤ length payload)%nat →
  header_matches m ks (take (inner_len m) payload) = header_matches m ks payload.
Proof using Type.
  intros Hl. assert (Hw : ∀ a n, (a + n ≤ inner_len m)%nat →
    window a n (take (inner_len m) payload) = window a n payload).
  { intros a n Ha. apply window_ext. intros i Hi. apply lookup_take_lt. lia. }
  unfold header_matches. destruct m; cbn [inner_len] in *; rewrite !Hw by lia; [done|].
  by rewrite lookup_total_take_lt by lia.
Qed.

Lemma learn_endpoint_Ok v wg t s : (payload_at v ≤ length (is_pkt s))%nat → (wg + 8 ≤ length (is_pkt s))%nat →
  ∃ cs, learn_endpoint cfg 14 (udp_at v) wg (ver v) t s = (Ok tt, with_clients cs s).
Proof using Type.
  intros H1 H2. assert (Hs : with_clients (is_clients s) s = s) by by destruct s.
  assert (Hnone : ∃ cs, (mret tt : IM unit) s = (Ok tt, with_clients cs s)) by (exists (is_clients s); by rewrite Hs).
  assert (Hsend : ∃ ep, sender 14 (udp_at v) (ver v) s = (Ok ep, s)).
  { unfold sender. unfold payload_at, udp_at in *.
    kstep (xpeek16_Ok (14 + ip_len v) s ltac:(lia)). kstep (xpeek16_Ok (14 + ip_len v + 2) s ltac:(lia)).
    destruct v; cbn [ver Z.eqb Pos.eqb ip_len Nat.add] in *.
    - kstep (xpeek32_Ok 26 s ltac:(lia)). kstep (xpeek32_Ok 30 s ltac:(lia)). by eexists.
    - kstep (xpeek_Ok 22 16 s ltac:(lia)). kstep (xpeek_Ok 38 16 s ltac:(lia)). by eexists. }
  destruct Hsend as [ep Hep].
  assert (Hlearn : ∀ c : Z, ∃ cs, (if c =? 0 then mret tt else
    ep ← sender 14 (udp_at v) (ver v);
    modify (λ s, with_clients (lru_update (is_clients s) c ep) s)) s = (Ok tt, with_clients cs s)).
  { intros c. destruct (c =? 0); [done|]. kstep Hep. by eexists. }
  unfold learn_endpoint. destruct (gc_dynamic_peer cfg =? 0); [done|].
  destruct (t =? 1).
  - kstep (xpeek32_Ok (wg + 4) s ltac:(lia)). apply Hlearn.
  - destruct ((t =? 4) || (t =? 3)); [|kret; apply (Hlearn 0)].
    kstep (xpeek32_Ok (wg + 4) s ltac:(lia)). apply Hlearn.
Qed.

Lemma unmask_mac2_Ok P w t ks s : is_pkt s = P ++ w → length ks = 64%nat →
  unmask_mac2 (length P) (Z.of_nat (length w)) t ks s = (Ok tt, with_pkt (P ++ mask_tail ks t w) s).
Proof using Type.
  intros Hp Hk. assert (Hl : length (is_pkt s) = (length P + length w)%nat) by (rewrite Hp; len).
  unfold unmask_mac2, mask_tail. kret. rewrite Hl.
  replace (148 <=? Z.of_nat (length w)) with (148 <=? length w)%nat by (repeat case_bool; lia).
  replace (92 <=? Z.of_nat (length w)) with (92 <=? length w)%nat by (repeat case_bool; lia).
  replace (length P + 148 <=? length P + length w)%nat with (148 <=? length w)%nat by (repeat case_bool; lia).
  replace (length P + 92 <=? length P + length w)%nat with (92 <=? length w)%nat by (repeat case_bool; lia).
  rewrite <- !andb_assoc, !andb_diag.
  assert (Hx : ∀ a, (a + 16 ≤ length w)%nat → xor16 (length P + a) (window 16 16 ks) s
    = (Ok tt, with_pkt (P ++ xor_at16 a 16 ks w) s)).
  { intros a Ha. pose proof (xor16_Ok a 16 ks P w [] s) as H. rewrite !app_nil_r in H. apply H; [done|done|lia]. }
  destruct (t =? 1), (t =? 2), (Nat.leb_spec 148 (length w)), (Nat.leb_spec 92 (length w)); cbn [andb];
    rewrite ?Hx by lia; try done; rewrite <- Hp; by destruct s.
Qed.

(** ** The first part *)

Section frame.
  Context (v : ipver) (sport dport : Z) (payload : list Z) (s : ingress_state).
  Context (Hf : udp_frame v (is_pkt s) sport dport payload) (Hb : bytes (is_pkt s)).
  Context (Hport : is_gut_port dport cfg = true) (Hdp : 0 ≤ dport < 2 ^ 16).
  Context (Hsize : 8 + Z.of_nat (length payload) < 2 ^ 16).
  Context (Hcfg : ingress_config_ok cfg) (Hrounds : 0 ≤ rounds ≤ 21).
  Context (Hq : m = PQuic → payload !!! 0%nat = 0x40).

Local Abbreviation key := (gc_chacha_init cfg).
Local Abbreviation h := (inner_len m).
Local Abbreviation W := (body m payload).
Local Abbreviation ks := (body_ks m key rounds payload).
Local Abbreviation pad := (body_pad m payload).
Local Abbreviation P := (take (payload_at v) (is_pkt s)).
Local Abbreviation H := (take h payload).

Definition unmasked : list Z :=
  mask_tail (words_to_bytes ks) (opened_type m key rounds payload) (opened m key rounds payload).

Lemma frame_split : is_pkt s = P ++ H ++ W.
Proof using Hf.
  unfold body. rewrite take_drop, <- (uf_payload _ _ _ _ _ Hf), take_drop. done.
Qed.

Lemma length_P : length P = payload_at v.
Proof using Hf. pose proof (uf_length _ _ _ _ _ Hf). len. Qed.

Lemma payload_bytes : bytes payload.
Proof using Hf Hb. rewrite <- (uf_payload _ _ _ _ _ Hf). auto with gutd. Qed.

Lemma inner_header_Ok : (32 ≤ length payload)%nat → inner_header m (payload_at v) s = (Ok h, s).
Proof using Hf Hq.
  intros H32. pose proof (uf_length _ _ _ _ _ Hf) as Hl. unfold inner_header. destruct m; [done|].
  kstep (xpeek8_Ok (payload_at v) s ltac:(lia)).
  assert (H0 : is_pkt s !!! payload_at v = payload !!! 0%nat).
  { rewrite <- (uf_payload _ _ _ _ _ Hf). by rewrite lookup_total_drop, Nat.add_0_r. }
  by rewrite H0, Hq.
Qed.

Lemma kernel_body_ks : (h + 32 ≤ length payload)%nat →
  chacha_block rounds key 47 (wg_nonce32 (take 32 W)) = ks.
Proof using Hf Hb Hcfg Hrounds.
  intros H1. rewrite wg_nonce32_take by done. unfold body_ks.
  assert (HW : (32 ≤ length W)%nat) by (rewrite length_W; lia).
  apply chacha_block_userspace; [by apply Hcfg|unfold in_width; lia| |done].
  rewrite <- nonce_of_long by done. apply nonce_of_range. unfold body. pose proof payload_bytes. auto with gutd.
Qed.

Lemma xor_first : (16 ≤ length W)%nat →
  xor16 (payload_at v + h) (take 16 (words_to_bytes ks)) s
  = (Ok tt, with_pkt (P ++ H ++ opened m key rounds payload) s).
Proof using Hf Hb Hcfg.
  intros H16. pose proof (ksb_length m key rounds payload (ic_key _ Hcfg) payload_bytes) as Hk.
  pose proof (xor16_Ok 0 0 (words_to_bytes ks) (P ++ H) W [] s) as Hx. rewrite !app_nil_r, window_0 in Hx.
  rewrite length_app, length_P, Nat.add_0_r in Hx. rewrite <- !app_assoc in Hx.
  rewrite length_take, Nat.min_l in Hx by (rewrite length_W in H16; lia).
  apply Hx; [apply frame_split|lia|lia].
Qed.

Lemma open_message_Ok : (h + 32 ≤ length payload)%nat → ∃ s',
  open_message m cfg 14 (udp_at v) (ver v) (8 + Z.of_nat (length payload)) h (Z.of_nat pad) ks s
  = (if header_matches m ks payload
     then Ok (mkVerified 14 (udp_at v) (ver v) (8 + Z.of_nat (length payload)) h (Z.of_nat pad)
                (Z.of_nat (length W)) (hidden_ports m key rounds payload))
     else Err tt, s') ∧
  (header_matches m ks payload = true → is_pkt s' = P ++ H ++ unmasked).
Proof using Hf Hb Hsize Hcfg Hq.
  intros Hlong. pose proof (uf_length _ _ _ _ _ Hf) as Hl. pose proof length_P as HP.
  pose proof (length_W m payload) as HW. assert (Hh : (10 ≤ h ≤ 16)%nat) by (destruct m; simpl; lia).
  unfold open_message. change (udp_at v + 8)%nat with (payload_at v).
  kstep (xor_first ltac:(lia)). set (O := opened m key rounds payload). set (s1 := with_pkt _ s).
  assert (HO : length O = length W) by apply length_xor_at16.
  assert (Hp1 : is_pkt s1 = (P ++ H) ++ O) by (subst s1; by rewrite pkt_with, <- app_assoc).
  assert (HPH : length (P ++ H) = (payload_at v + h)%nat) by len.
  assert (Hl1 : length (is_pkt s1) = (payload_at v + length payload)%nat) by (rewrite Hp1; len).
  kstep (xpeek8_Ok (payload_at v + h) s1 ltac:(lia)).
  assert (H0 : is_pkt s1 !!! (payload_at v + h)%nat = O !!! 0%nat).
  { rewrite Hp1, lookup_total_app_r by lia. f_equal. lia. }
  rewrite H0. fold (opened_type m key rounds payload).
  assert (Hp1' : is_pkt s1 = P ++ H ++ O) by (by rewrite app_assoc).
  pose proof (check_header_Ok P H O ks s1 Hp1' ltac:(len)) as Hc. rewrite HP in Hc.
  rewrite header_matches_take in Hc by lia. destruct (header_matches m ks payload).
  2: { rewrite (km_fail _ _ _ _ _ Hc). eexists. by split. }
  kstep Hc. destruct (learn_endpoint_Ok v (payload_at v + h) (opened_type m key rounds payload) s1)
    as [cs Hcs]; [lia..|]. kstep Hcs. set (s2 := with_clients cs s1).
  assert (Hoff : (enc_ports_off m h + 4 ≤ h)%nat) by (destruct m; simpl; lia).
  kstep (xpeek32_Ok (payload_at v + enc_ports_off m h) s2 ltac:(change (is_pkt s2) with (is_pkt s1); lia)).
  change (is_pkt s2) with (is_pkt s1).
  assert (Hep : window (payload_at v + enc_ports_off m h) 4 (is_pkt s1) = window (enc_ports_off m h) 4 payload).
  { assert (HHl : length H = h) by len. rewrite Hp1', window_app_ge, window_app_l by lia.
    replace (payload_at v + _ - length P)%nat with (enc_ports_off m h) by lia.
    apply window_ext. intros i Hi. apply lookup_take_lt. lia. }
  rewrite Hep. fold (hidden_ports m key rounds payload).
  replace (wrap 32 (8 + Z.of_nat (length payload) - 8 - Z.of_nat h)) with (Z.of_nat (length O)).
  2: { rewrite wrap_small; [lia|]. unfold in_width. change (2 ^ 32) with 4294967296.
       change (2 ^ 16) with 65536 in *. lia. }
  pose proof (unmask_mac2_Ok (P ++ H) O (opened_type m key rounds payload) (words_to_bytes ks) s2 Hp1
    (ksb_length m key rounds payload (ic_key _ Hcfg) payload_bytes)) as Hu.
  rewrite HPH in Hu. kstep Hu. rewrite HO. eexists. split; [done|]. intros _.
  by rewrite pkt_with, <- app_assoc.
Qed.

Lemma open_frame_Ok : ∃ s',
  open_frame m rounds cfg s
  = (if (h + 32 <=? length payload)%nat && header_matches m ks payload
     then Ok (mkVerified 14 (udp_at v) (ver v) (8 + Z.of_nat (length payload)) h (Z.of_nat pad)
                (Z.of_nat (length W)) (hidden_ports m key rounds payload))
     else Err tt, s') ∧
  ((h + 32 <=? length payload)%nat && header_matches m ks payload = true → is_pkt s' = P ++ H ++ unmasked).
Proof using Hf Hb Hport Hdp Hsize Hcfg Hrounds Hq.
  unfold open_frame. kstep (xdp_parse_Ok v sport dport payload s Hf).
  pose proof (find_payload_Ok v sport dport payload s Hf cfg Hport Hdp Hsize) as Hfp.
  pose proof (uf_length _ _ _ _ _ Hf) as Hl. assert (Hh : (10 ≤ h ≤ 16)%nat) by (destruct m; simpl; lia).
  destruct (Nat.leb_spec 32 (length payload)) as [H32|H32].
  2: { replace (h + 32 <=? length payload)%nat with false by (symmetry; apply Nat.leb_gt; lia).
       rewrite (km_fail _ _ _ _ _ Hfp). eexists. by split. }
  kstep Hfp. change (udp_at v + 8)%nat with (payload_at v). kstep (inner_header_Ok H32).
  kstep (xpeek8_Ok (payload_at v + (h - 1)) s ltac:(lia)).
  rewrite <- (lookup_total_drop (is_pkt s) (payload_at v)), (uf_payload _ _ _ _ _ Hf), ballast_len_of_nat.
  fold pad. destruct (Nat.leb_spec (h + 32) (length payload)) as [Hlong|Hlong]; cbn [andb].
  2: { unfold xwithin, WG_MIN_PACKET. kret.
       replace (length (is_pkt s) <? payload_at v + h + 32)%nat with true by (symmetry; apply Nat.ltb_lt; lia).
       eexists. by split. }
  unfold WG_MIN_PACKET. kstep (xwithin_Ok (payload_at v + h + 32) s ltac:(lia)).
  kstep (xpeek_Ok (payload_at v + h) 32 s ltac:(lia)).
  assert (Hhead : window (payload_at v + h) 32 (is_pkt s) = take 32 W).
  { unfold window, body. by rewrite <- drop_drop, (uf_payload _ _ _ _ _ Hf). }
  rewrite Hhead, kernel_body_ks by done. by apply open_message_Ok.
Qed.

(** ** The second part *)

Lemma deliver_rejects wg_len udp_len ports s1 : (63 < pad ∨ length W < pad ∨ length W - pad < 32)%nat →
  wg_len = Z.of_nat (length W) →
  deliver_frame cfg (mkVerified 14 (udp_at v) (ver v) udp_len h (Z.of_nat pad) wg_len ports) s1 = (Err tt, s1).
Proof using Type.
  intros Hr ->. unfold deliver_frame. destruct (Nat.le_gt_cases pad 63), (Nat.le_gt_cases pad (length W)).
  - replace ((63 <? Z.of_nat pad) || _) with false by (symmetry; apply orb_false_iff; split; apply Z.ltb_ge; lia).
    kret. replace (_ || _) with true; [done|]. symmetry. apply orb_true_iff. right. apply Z.ltb_lt.
    unfold WG_MIN_PACKET. lia.
  - replace ((63 <? Z.of_nat pad) || _) with true; [done|]. symmetry. apply orb_true_iff. right. apply Z.ltb_lt. lia.
  - replace ((63 <? Z.of_nat pad) || _) with true; [done|]. symmetry. apply orb_true_iff. left. apply Z.ltb_lt. lia.
  - replace ((63 <? Z.of_nat pad) || _) with true; [done|]. symmetry. apply orb_true_iff. left. apply Z.ltb_lt. lia.
Qed.

Lemma deliver_Ok U ports s1 : is_pkt s1 = P ++ H ++ U → length U = length W → bytes U →
  (h ≤ length payload)%nat → (pad ≤ 63)%nat → (pad ≤ length W)%nat → (32 ≤ length W - pad)%nat → ∃ s',
  deliver_frame cfg (mkVerified 14 (udp_at v) (ver v) (8 + Z.of_nat (length payload)) h (Z.of_nat pad)
                 (Z.of_nat (length W)) ports) s1 = (Ok tt, s') ∧
  inner_frame v cfg (is_pkt s) (as_u16 (shr ports 16)) (as_u16 (Z.land ports 0xFFFF))
    (take (length W - pad) U) (is_pkt s').
Proof using Hf Hb Hsize Hcfg PL PR.
  intros Hp HU HUb Hh H1 H2 H3. pose proof (uf_length _ _ _ _ _ Hf) as Hl. pose proof length_P as HP.
  pose proof (length_W m payload) as HW. unfold deliver_frame.
  replace ((63 <? Z.of_nat pad) || _) with false by (symmetry; apply orb_false_iff; split; apply Z.ltb_ge; lia).
  kret. replace (_ || _) with false
    by (symmetry; apply orb_false_iff; split; apply Z.ltb_ge; unfold WG_MIN_PACKET; lia). kret.
  set (n := (length W - pad)%nat). assert (Hn : n = (length W - pad)%nat) by done.
  assert (Hw16 : wrap 16 (8 + Z.of_nat (length payload) - Z.of_nat pad - Z.of_nat h) = 8 + Z.of_nat n)
    by (rewrite wrap_small; unfold in_width; lia).
  rewrite Hw16.
  assert (Hb1 : bytes (is_pkt s1)).
  { rewrite Hp. pose proof payload_bytes. repeat apply Forall_app_2; auto with gutd. }
  assert (Hl1 : length (is_pkt s1) = (payload_at v + length payload)%nat) by (rewrite Hp; len).
  destruct (rewrite_headers_Ok v cfg (8 + Z.of_nat n) s1) as (F2 & Hrun2 & [R1 R2 R3 R4 R5 R6 R7 R8]); [lia|done|].
  kstep Hrun2. set (P2 := take (payload_at v) F2).
  assert (HF2 : F2 = P2 ++ H ++ U).
  { rewrite <- (take_drop (payload_at v) F2). fold P2. rewrite R3, Hp. by rewrite drop_app_length'. }
  assert (HP2 : length P2 = payload_at v) by (subst P2; len).
  assert (HH : length H = h) by len.
  pose proof (strip_header_Ok v P2 H U (with_pkt F2 s1) HF2 HP2 ltac:(lia)) as Hrun3. rewrite HH in Hrun3.
  kstep Hrun3. rewrite with_with.
  assert (H14 : (14 ≤ length P2)%nat) by (rewrite HP2; unfold payload_at, udp_at; lia).
  kstep (strip_tail_Ok P2 U pad (with_pkt (P2 ++ U) s1) eq_refl ltac:(lia) H14).
  rewrite with_with, HU. fold n. set (M := take n U). assert (HM : length M = n) by (subst M; len).
  set (s3 := with_pkt (P2 ++ M) s1).
  rewrite inner_extent. assert (Hl3 : length (is_pkt s3) = (payload_at v + n)%nat) by (subst s3; rewrite pkt_with; len).
  kstep (xwithin_Ok (payload_at v + n) s3 ltac:(lia)).
  destruct (ic_tun_mac _ Hcfg) as [Ht1 Ht2]. destruct (ic_src_mac _ Hcfg) as [Hm1 Hm2].
  destruct (finish_frame_Ok v cfg (as_u16 (shr ports 16)) (as_u16 (Z.land ports 0xFFFF)) s3)
    as (F4 & Hrun4 & Hfh); [lia| |done..|].
  { subst s3 P2 M. rewrite pkt_with. auto 10 with gutd. }
  kstep Hrun4. eexists. split; [done|]. cbn [is_pkt with_istats with_pkt].
  apply (inner_frame_built v cfg sport dport payload (is_pkt s) (is_pkt s1) F2 (P2 ++ M)); try done.
  - unfold same_headers. rewrite Hp, take_app_length'; [done|len].
  - by rewrite HM.
  - unfold same_headers. rewrite take_app_length'; [done|len].
  - by rewrite drop_app_length'.
  - len.
Qed.

(** ** The whole program *)

Lemma core_rejects : ¬ ((h + 32 <=? length payload)%nat && (pad <=? length W)%nat
    && (32 <=? length W - pad)%nat && header_matches m ks payload && (pad <=? 63)%nat = true) →
  ∃ s', gut_xdp_core m rounds cfg s = (Err tt, s').
Proof using Hf Hb Hport Hdp Hsize Hcfg Hrounds Hq.
  intros Hn. unfold gut_xdp_core. destruct open_frame_Ok as (s1 & Hrun & _).
  destruct ((h + 32 <=? length payload)%nat && header_matches m ks payload) eqn:Hok.
  - rewrite (km_step _ _ _ _ _ Hrun). eexists. apply deliver_rejects; [|done].
    apply andb_prop in Hok as [H1 H2]. rewrite H1, H2 in Hn. cbn [andb] in Hn.
    rewrite !andb_true_r, !andb_true_iff, !Nat.leb_le in Hn. lia.
  - rewrite (km_fail _ _ _ _ _ Hrun). by eexists.
Qed.

Lemma unmasked_bytes : bytes unmasked.
Proof using Hf Hb. apply payload_mask_bytes; [apply words_to_bytes_bytes|]. pose proof payload_bytes. unfold body. auto with gutd. Qed.

Lemma core_accepts : (h + 32 ≤ length payload)%nat → header_matches m ks payload = true →
  (pad ≤ 63)%nat → (pad ≤ length W)%nat → (32 ≤ length W - pad)%nat → ∃ s',
  gut_xdp_core m rounds cfg s = (Ok tt, s') ∧
  inner_frame v cfg (is_pkt s) (inner_sport m key rounds payload) (inner_dport m key rounds payload)
    (take (body_len m payload) unmasked) (is_pkt s').
Proof using Hf Hb Hport Hdp Hsize Hcfg Hrounds Hq PL PR.
  intros H1 H2 H3 H4 H5. unfold gut_xdp_core. destruct open_frame_Ok as (s1 & Hrun & Hp).
  rewrite (proj2 (Nat.leb_le _ _) H1), H2 in Hrun, Hp. cbn [andb] in Hrun, Hp. specialize (Hp eq_refl).
  rewrite (km_step _ _ _ _ _ Hrun). apply deliver_Ok; try done; [|apply unmasked_bytes|lia].
  unfold unmasked, opened. by rewrite length_mask_tail, length_xor_at16.
Qed.
End frame.
End run.

(** ** The program and userspace *)

(** A handshake message has its whole MAC fields. *)
Definition complete_message (msg : list Z) : Prop :=
  (wg_type_of msg = 1 → (148 ≤ length msg)%nat) ∧ (wg_type_of msg = 2 → (92 ≤ length msg)%nat).

Lemma take_mask_tail ks t n (p : list Z) : (n ≤ length p)%nat → (t = 1 → (148 ≤ n)%nat) → (t = 2 → (92 ≤ n)%nat) →
  take n (mask_tail ks t p) = mask_tail ks t (take n p).
Proof.
  intros Hn H1 H2. unfold mask_tail. rewrite length_take, Nat.min_l by done.
  destruct (Z.eqb_spec t 1), (Z.eqb_spec t 2), (Nat.leb_spec 148 (length p)), (Nat.leb_spec 148 n),
    (Nat.leb_spec 92 (length p)), (Nat.leb_spec 92 n); cbn [andb]; try lia; try done; apply take_xor_at16; lia.
Qed.

Lemma mask_tail_type ks t p : length ks = 64%nat → (16 ≤ length p)%nat → mask_tail ks t p !!! 0%nat = p !!! 0%nat.
Proof.
  intros Hk Hp. rewrite <- (lookup_total_take_lt (mask_tail ks t p) 76), (mask_tail_head ks) by (done || lia).
  by rewrite lookup_total_take_lt by lia.
Qed.

(** A UDP frame to one of the tunnel ports, of a mode the program is compiled
    for; in the QUIC mode with a short header. *)
Record ingress_input (m : pmode) (cfg : GutConfig) (s : ingress_state) (v : ipver) (sport dport : Z)
    (payload : list Z) : Prop := {
  ii_frame : udp_frame v (is_pkt s) sport dport payload;
  ii_bytes : bytes (is_pkt s);
  ii_port : is_gut_port dport cfg = true;
  ii_dport : 0 ≤ dport < 2 ^ 16;
  ii_size : 8 + Z.of_nat (length payload) < 2 ^ 16;
  ii_config : ingress_config_ok cfg;
  ii_short : m = PQuic → payload !!! 0%nat = 0x40
}.

(** A frame that is accepted, and what is delivered. *)
Lemma core_as_decap `{PK : !PacketKernel, PL : !PacketLaws, PR : !PacketReliable}
    m rounds cfg s v sport dport payload :
  0 ≤ rounds ≤ 21 → ingress_input m cfg s v sport dport payload →
  obfs_verify payload (length payload) (gc_chacha_init cfg) rounds (mode_of m) = Done true →
  (body_pad m payload ≤ 63)%nat →
  ∃ s' msg back sp dp, gut_xdp_core m rounds cfg s = (Ok tt, s') ∧
    obfs_decap payload (length payload) (gc_chacha_init cfg) rounds (mode_of m)
    = Done (back, Some (length msg, sp, dp)) ∧
    inner_frame v cfg (is_pkt s) sp dp msg (is_pkt s') ∧
    (complete_message (take (length msg) back) → msg = take (length msg) back).
Proof.
  intros Hr [H1 H2 H3 H4 H5 H6 H7]. pose proof (payload_bytes v sport dport payload s H1 H2) as Hb.
  rewrite obfs_verify_spec by (done || apply H6). intros Hok A5. apply (inj Done) in Hok.
  rewrite !andb_true_iff, !Nat.leb_le in Hok. destruct Hok as [[[A1 A2] A3] A4].
  destruct (core_accepts m rounds cfg v sport dport payload s H1 H2 H3 H4 H5 H6 Hr H7 A1 A4 A5 A2 A3)
    as (s' & Hrun & Hf).
  destruct (obfs_decap_spec m (gc_chacha_init cfg) rounds payload (ic_key _ H6) Hb H7 A1 A2 A3)
    as (back & Hd & Ht).
  set (msg := take _ (unmasked _ _ _ _)) in Hf. assert (Hm : length msg = body_len m payload).
  { subst msg. rewrite length_take. unfold unmasked, opened. rewrite length_mask_tail, length_xor_at16.
    unfold body_len. lia. }
  exists s', msg, back, (inner_sport m (gc_chacha_init cfg) rounds payload),
    (inner_dport m (gc_chacha_init cfg) rounds payload). rewrite Hm, Ht. split_and!; try done.
  pose proof (ksb_length m (gc_chacha_init cfg) rounds payload (ic_key _ H6) Hb) as Hk.
  assert (Ho : length (opened m (gc_chacha_init cfg) rounds payload) = length (body m payload))
    by apply length_xor_at16.
  assert (Hl : length (take (body_len m payload) (opened m (gc_chacha_init cfg) rounds payload))
               = body_len m payload) by (unfold body_len; len).
  unfold complete_message, wg_type_of, opened_message. rewrite mask_tail_type, length_mask_tail, Hl by (done || (unfold body_len in *; lia)).
  rewrite lookup_total_take_lt by (unfold body_len; lia). intros [Hc1 Hc2]. subst msg. unfold unmasked.
  apply take_mask_tail; [unfold body_len; lia|done|done].
Qed.

