(* ===== verification/BpfChannel.v ===== *)
(** * The packet programs as a channel

    What [gut_egress] sends, [gut_xdp_core] of the other side delivers; runs of
    both programs on concrete frames, with an executable kernel. *)

From stdpp Require Import gmap.
From S2P Require Import Prelude Words Slices ChaCha Results Obfs ObfsMask ObfsHeader ObfsRoundtrip.
From S2P Require Import Net Loader Links BpfCommon BpfEgress BpfEgressProofs.
From S2P Require Import BpfSend BpfIngress BpfReceive BpfDeliver.
Local Open Scope Z_scope.

(** ** A kernel for the packet programs

    An executable instance of the helpers, in which every call that is allowed
    succeeds: it shows that what [PacketLaws] and [PacketReliable] ask for can
    be had, and runs the programs on concrete frames. *)

Definition if_allowed {A} (b : bool) (a : A) : option A := if b then Some a else None.

#[export] Instance sim_packet : PacketKernel := {|
  bpf_skb_load_bytes k off n := if_allowed (off + n <=? k_len k)%nat (window off n (k_bytes k));
  bpf_skb_store_bytes k off b :=
    if_allowed (off + length b <=? k_len k)%nat (mkSkb (list_inserts off b (k_bytes k)) (k_linear k));
  bpf_skb_change_tail k n :=
    Some (mkSkb (take n (k_bytes k) ++ replicate (n - k_len k) 0) (k_linear k));
  bpf_skb_adjust_room k n :=
    Some (mkSkb (take 14 (k_bytes k) ++ replicate n 0 ++ drop 14 (k_bytes k)) (k_linear k + n));
  bpf_skb_pull_data k n :=
    if_allowed (n <=? k_len k)%nat (mkSkb (k_bytes k) (Nat.max n (k_linear k)));
  bpf_xdp_load_bytes p off n := if_allowed (off + n <=? length p)%nat (window off n p);
  bpf_xdp_store_bytes p off b := if_allowed (off + length b <=? length p)%nat (list_inserts off b p);
  bpf_xdp_adjust_head p n := if_allowed (n + 14 <=? length p)%nat (drop n p);
  bpf_xdp_adjust_tail p d :=
    if_allowed ((d <=? 0) && (Z.to_nat (- d) + 14 <=? length p)%nat) (take (length p - Z.to_nat (- d)) p);
  bpf_csum_diff b s := (word_sum_le b + s) mod 65535;
  lru_update A m k a := <[k := a]> m
|}.

Lemma if_allowed_Some {A} b (a x : A) : if_allowed b a = Some x → b = true ∧ x = a.
Proof. destruct b; [|done]. by intros [= <-]. Qed.

#[export] Instance sim_laws : PacketLaws.
Proof.
  split; simpl.
  - done.
  - intros k off b k' [H%Nat.leb_le ->]%if_allowed_Some. done.
  - intros k n k' [= <-] Hn. exists (replicate (n - k_len k) 0). simpl. split; [len|].
    by rewrite take_ge.
  - intros k n k' [= <-] _. exists (replicate n 0). split; [len|done].
  - intros k n k' [H%Nat.leb_le ->]%if_allowed_Some. split; [done|]. unfold data_end, k_len in *. simpl. lia.
  - done.
  - done.
  - intros p n p' [H%Nat.leb_le ->]%if_allowed_Some. done.
  - intros p n p' [[_ H%Nat.leb_le]%andb_prop ->]%if_allowed_Some. by rewrite Z.opp_involutive, Nat2Z.id in *.
  - intros b s _ _. unfold in_width. pose proof (Z.mod_pos_bound (word_sum_le b + s) 65535). lia.
  - intros b s _ _ _. by rewrite Zmod_mod.
  - intros A m k a. by rewrite lookup_insert_eq.
  - intros A m k a k' w Hk. by rewrite lookup_insert_ne.
Qed.

#[export] Instance sim_reliable : PacketReliable.
Proof.
  split; simpl.
  - intros k off b H. by rewrite (proj2 (Nat.leb_le _ _) H).
  - by eexists.
  - by eexists.
  - intros k n H. by rewrite (proj2 (Nat.leb_le _ _) H).
  - intros p n H. by rewrite (proj2 (Nat.leb_le _ _) H).
  - intros p n H. rewrite Z.opp_involutive, Nat2Z.id, (proj2 (Nat.leb_le _ _) H).
    destruct (Z.leb_spec (- Z.of_nat n) 0); [by eexists|lia].
Qed.

Lemma sent_first m rounds cfg sport dport wg :
  m = PQuic → sent_payload m rounds cfg sport dport wg !!! 0%nat = 0x40.
Proof. by intros ->. Qed.

Lemma sent_body_pad m rounds cfg sport dport wg :
  body_pad m (sent_payload m rounds cfg sport dport wg) = sent_pad m rounds cfg wg.
Proof.
  assert (Hp : (sent_pad m rounds cfg wg ≤ 64)%nat) by apply encap_pad_len_bound.
  unfold body_pad. rewrite <- (ballast_of_pad_byte (sent_pad m rounds cfg wg)) by done. f_equal.
  unfold sent_payload, kernel_header. destruct m; cbn [inner_len]; unfold gut_header, short_header;
    rewrite lookup_total_app_l by len; rewrite ?app_assoc, lookup_total_app_r by len; by rewrite !length_app, ?length_le_bytes.
Qed.

(** The other side: the same key, and a port that is one of its own. *)
Record receiver_ok (cfg : GutConfig) (cfg' : GutConfig) (dp : Z) : Prop := {
  ro_key : gc_chacha_init cfg' = gc_chacha_init cfg;
  ro_config : ingress_config_ok cfg';
  ro_port : is_gut_port dp cfg' = true;
  ro_dport : 0 ≤ dp < 2 ^ 16
}.

(** C7: What one packet program sends, the other delivers.  For a complete
    WireGuard message that [gut_egress] sends on in a frame with the payload
    [D], every UDP frame with that payload to the same destination port, as it
    arrives over whatever path, makes [gut_xdp_core] of a receiver with the same
    key deliver the message with its ports, unless the padding has its full
    length of 64 bytes, which only the QUIC mode can choose. *)
Theorem kernel_roundtrip `{PK : !PacketKernel, PL : !PacketLaws, PR : !PacketReliable}
    m rounds cfg cfg' prandom s v sport dport wg src dst sp dp :
  0 ≤ rounds ≤ 21 → egress_input m cfg prandom s v sport dport wg src dst sp dp →
  complete_message wg → receiver_ok cfg cfg' dp → (sent_pad m rounds cfg wg ≤ 63)%nat →
  ∃ s' D, gut_egress m rounds cfg prandom s = (Ok (TcRedirect (gc_egress_ifindex cfg)), s') ∧
    udp_frame v (k_bytes (es_skb s')) sp dp D ∧
    ∀ r v' sp', bytes (is_pkt r) → udp_frame v' (is_pkt r) sp' dp D → ∃ r',
      gut_xdp_core m rounds cfg' r = (Ok tt, r') ∧
      inner_frame v' cfg' (is_pkt r) sport dport wg (is_pkt r').
Proof.
  intros Hr [H1 H2 H3 H4 H5 H6 H7 H8 H9 H10 H11 H12 H13] Hc [K1 K2 K3 K4] Hpad.
  destruct (egress_run m rounds cfg prandom s v sport dport wg H1 H2 H3 H4 H5 H6 H7 H8 Hr H9 H10 H11 H12
    src dst sp dp H13) as (s' & Hrun & _ & Hf).
  set (D := sent_payload m rounds cfg sport dport wg) in *.
  eexists s', D. split; [exact Hrun|]. split; [apply Hf|]. intros r v' sp' Hb Hf'.
  set (rest := replicate 80 0). assert (Hrb : bytes rest) by (apply Forall_replicate; unfold in_width; lia).
  destruct (sent_payload_userspace m rounds cfg sport dport wg H2 H7 H9 rest true [] 0 Hrb)
    as (b & He & Ht); [subst rest; len|]. fold D in He, Ht.
  destruct H2 as [W1 W2 W3 W4].
  destruct (obfs_channel (wg ++ rest) (length wg) (gc_chacha_init cfg) rounds true sport dport (mode_of m) [] 0)
    as (D' & tl & dcid & He' & _ & _ & _ & _ & _ & Hch); [by apply H7|by apply Forall_app_2|apply H6|apply H6|lia| |].
  { rewrite lookup_total_app_l by lia. fold (wg_type_of wg). rewrite <- outer_header_userspace by done.
    unfold outer_header. subst rest. destruct m; [|destruct (H9 eq_refl) as [-> | ->]]; cbn; len. }
  rewrite He in He'. injection He' as -> HDl _. rewrite HDl, take_app_length in Ht. subst D'.
  destruct (Hch []) as [Hv (back & Hd & Hbk & _)]. rewrite app_nil_r in *. specialize (Hv W2).
  rewrite <- K1 in Hv, Hd.
  assert (HD : (length D ≤ 80 + length wg)%nat).
  { subst D. unfold sent_payload. rewrite !length_app, length_payload_mask, length_take.
    assert (length (kernel_header m (sent_ks rounds cfg wg 47) (sent_ports rounds cfg sport dport wg)
      (sent_pad m rounds cfg wg)) ≤ 16)%nat by (destruct m; unfold kernel_header, gut_header, short_header; len).
    lia. }
  assert (Hin : ingress_input m cfg' r v' sp' dp D).
  { split; try done; [|intros Hm; by apply sent_first]. rewrite (k_len_frame v sport dport wg s H1) in H5.
    unfold payload_at, udp_at in H5. lia. }
  destruct (core_as_decap m rounds cfg' r v' sp' dp D Hr Hin Hv) as (r' & msg & bk & sp2 & dp2 & Hrun' & Hd' & Hif & Hmsg);
    [subst D; by rewrite sent_body_pad|].
  rewrite Hd in Hd'. injection Hd' as <- Hlm <- <-. exists r'. split; [done|].
  rewrite <- Hlm, Hbk, take_app_length in Hmsg. by rewrite <- Hmsg.
Qed.

(** ** Runs *)

Definition sample_key : list Z := Z.of_nat <$> seq 1 32.
Definition sample_cfg : GutConfig :=
  from_config sample_key [443; 8443] (V4 [203; 0; 113; 9]) 1400.

(** An IPv4 frame from port 51820 to port 51821. *)
Definition sample_frame (wg : list Z) : list Z :=
  replicate 12 2 ++ be_bytes 2 0x0800 ++ [0x45; 0] ++ be_bytes 2 (28 + Z.of_nat (length wg))
  ++ [0; 0; 0; 0; 64; 17; 0; 0] ++ [10; 0; 0; 1] ++ [10; 0; 0; 2]
  ++ be_bytes 2 51820 ++ be_bytes 2 51821 ++ be_bytes 2 (8 + Z.of_nat (length wg)) ++ [0; 0] ++ wg.

Definition sample_skb (wg : list Z) : egress_state :=
  mkEgress (mkSkb (sample_frame wg) 54) 0 (Some stats_default) ∅ ∅.

(** A message of type [t] of [17 + n] bytes, with the nonce [x]. *)
Definition sample_msg (t x : Z) (n : nat) : list Z := [t; 0; 0; 0] ++ replicate 12 9 ++ [x] ++ replicate n 0.

Definition sent_frame (m : pmode) (wg : list Z) : option (list Z) :=
  match gut_egress m 4 sample_cfg 0 (sample_skb wg) with
  | (Ok (TcRedirect _), s) => Some (k_bytes (es_skb s))
  | _ => None
  end.
Definition received (m : pmode) (F : list Z) : option (list Z) :=
  match gut_xdp_core m 4 sample_cfg (mkIngress F stats_default ∅ ∅) with
  | (Ok _, s) => Some (is_pkt s)
  | _ => None
  end.

Lemma sample_udp wg : udp_frame IPv4 (sample_frame wg) 51820 51821 wg.
Proof. by split. Qed.

Lemma sample_udp_bytes wg : bytes wg → bytes (sample_frame wg).
Proof. intros H. unfold sample_frame. repeat apply Forall_app_2; auto with gutd; repeat constructor; done. Qed.

Lemma sample_egress_ok : egress_config_ok sample_cfg.
Proof. split; [split|split|split]; try done; by apply (bool_decide_unpack _); vm_compute. Qed.
Lemma sample_ingress_ok : ingress_config_ok sample_cfg.
Proof. split; [split|split|split]; try done; by apply (bool_decide_unpack _); vm_compute. Qed.

Lemma sample_input m wg : wg_message wg → (length wg ≤ 200)%nat →
  (m = PQuic → wg_type_of wg = 2 ∨ wg_type_of wg = 4) → length wg ≠ 32%nat →
  egress_input m sample_cfg 0 (sample_skb wg) IPv4 51820 51821 wg
    [0; 0; 0; 0] [203; 0; 113; 9] 8443 8443.
Proof.
  intros Hm Hl Hs H32.
  assert (Hlen : length (sample_frame wg) = (42 + length wg)%nat) by (unfold sample_frame; len).
  split; try done.
  - apply sample_udp_bytes, Hm.
  - unfold data_end, k_len. cbn [es_skb sample_skb k_bytes k_linear].
    change (payload_at IPv4) with 42%nat. lia.
  - unfold k_len. cbn [es_skb sample_skb k_bytes]. lia.
  - apply sample_egress_ok.
  - split; [|split]; [split|split|done]; try done; by apply (bool_decide_unpack _); vm_compute.
  - unfold keepalive_dropped. destruct (Nat.eqb_spec (length wg) 32); [done|]. by rewrite andb_false_r.
Qed.

Definition sample_init : list Z := sample_msg 1 7 131.
Definition sample_data : list Z := sample_msg 4 5 47.

Lemma sample_init_message : wg_message sample_init.
Proof. by split; [apply (bool_decide_unpack _); vm_compute|vm_compute; lia|vm_compute|]. Qed.
Lemma sample_data_message : wg_message sample_data.
Proof. by split; [apply (bool_decide_unpack _); vm_compute|vm_compute; lia|vm_compute|]. Qed.

Lemma kernel_egress_is_userspace_witness : ∃ s' D,
  gut_egress PQuic 4 sample_cfg 0 (sample_skb sample_data) = (Ok (TcRedirect 0), s') ∧
  tunnel_frame IPv4 sample_cfg [0; 0; 0; 0] [203; 0; 113; 9] 8443 8443 D (k_bytes (es_skb s')) ∧
  ∀ rest is_server domain t_ns, bytes rest → (80 ≤ length rest)%nat → ∃ b dcid,
    obfs_encap (sample_data ++ rest) 64 (gc_chacha_init sample_cfg) 4 is_server 51820 51821
      Quic domain t_ns = Done (b, Some (length D, dcid)) ∧ take (length D) b = D.
Proof.
  apply (kernel_egress_is_userspace PQuic 4 sample_cfg 0 (sample_skb sample_data)); [lia|].
  apply sample_input; [apply sample_data_message|vm_compute; lia|by right|done].
Defined.

Lemma kernel_roundtrip_witness : ∃ s' D,
  gut_egress PGut 4 sample_cfg 0 (sample_skb sample_init) = (Ok (TcRedirect 0), s') ∧
  udp_frame IPv4 (k_bytes (es_skb s')) 8443 8443 D ∧
  ∀ r v' sp', bytes (is_pkt r) → udp_frame v' (is_pkt r) sp' 8443 D → ∃ r',
    gut_xdp_core PGut 4 sample_cfg r = (Ok tt, r') ∧
    inner_frame v' sample_cfg (is_pkt r) 51820 51821 sample_init (is_pkt r').
Proof.
  apply (kernel_roundtrip PGut 4 sample_cfg sample_cfg 0 (sample_skb sample_init) IPv4 51820 51821 sample_init
    [0; 0; 0; 0] [203; 0; 113; 9] 8443 8443); [lia| | | |].
  - apply sample_input; [apply sample_init_message|vm_compute; lia|done|done].
  - by split; [intros _; vm_compute; lia|].
  - split; [done|apply sample_ingress_ok|done|lia].
  - vm_compute. lia.
Defined.

(** The programs on that message, and on one whose padding has 64 bytes: the
    receiving program drops it although userspace would accept it. *)
Example sample_channel : drop 42 <$> (sent_frame PGut sample_init ≫= received PGut) = Some sample_init.
Proof. vm_compute. done. Qed.
Example full_padding_lost :
  match sent_frame PQuic (sample_msg 4 7 47) with
  | Some F => obfs_verify (drop 42 F) (length (drop 42 F)) (gc_chacha_init sample_cfg) 4 Quic = Done true
              ∧ received PQuic F = None
  | None => False
  end.
Proof. vm_compute. by split. Qed.

Definition sample_rx : ingress_state :=
  mkIngress (default [] (sent_frame PQuic sample_data)) stats_default ∅ ∅.
Definition sample_wire : list Z := drop 42 (is_pkt sample_rx).

