(* ===== verification/BpfSafe.v ===== *)
(** * The packet programs stay inside the packet

    [inside m s Q]: running [m] from [s] does not access the packet outside of its
    bounds, and [Q] holds of the result and the state if the program goes on. *)

From stdpp Require Import gmap.
From S2P Require Import Prelude Words Slices Results Obfs Loader Links BpfCommon BpfEgress.
From S2P Require Import BpfEgressProofs BpfSend BpfIngress BpfReceive BpfDeliver BpfChannel.
Local Open Scope Z_scope.

Definition inside {S V A} (m : KM S V A) (s : S) (Q : A → S → Prop) : Prop :=
  match m s with (Ok a, s') => Q a s' | (Err _, _) => True | (Abort, _) => False end.

Section rules.
  Context {S V : Type}.

Lemma inside_bind {A B} (m : KM S V A) (f : A → KM S V B) s Q :
  inside m s (λ a s', inside (f a) s' Q) → inside (m ≫= f) s Q.
Proof. unfold inside, mbind, KM_bind. by destruct (m s) as [[a| |] s']. Qed.

Lemma inside_mono {A} (m : KM S V A) s (Q Q' : A → S → Prop) :
  inside m s Q → (∀ a s', Q a s' → Q' a s') → inside m s Q'.
Proof. unfold inside. destruct (m s) as [[a| |] s']; auto. Qed.

Lemma inside_ret {A} (a : A) s (Q : A → S → Prop) : Q a s → inside (mret a : KM S V A) s Q.
Proof. done. Qed.

Lemma inside_leave {A} (x : V) s (Q : A → S → Prop) : inside (leave x) s Q.
Proof. done. Qed.

Lemma inside_leave_if (b : bool) (x : V) s (Q : unit → S → Prop) :
  (b = false → Q tt s) → inside (leave_if b x) s Q.
Proof. unfold inside, leave_if. destruct b; [done|]. intros H. by apply H. Qed.

Lemma inside_or_leave {A} (o : option A) (x : V) s (Q : A → S → Prop) :
  (∀ a, o = Some a → Q a s) → inside (or_leave o x) s Q.
Proof. unfold inside. destruct o; [|done]. intros H. by apply H. Qed.

Lemma inside_gets {A} (f : S → A) s (Q : A → S → Prop) : Q (f s) s → inside (gets f : KM S V A) s Q.
Proof. done. Qed.

Lemma inside_modify (f : S → S) s (Q : unit → S → Prop) : Q tt (f s) → inside (modify f : KM S V unit) s Q.
Proof. done. Qed.
End rules.

Lemma inside_safe {S V A} (m : KM S V A) s Q : inside m s Q → (m s).1 ≠ Abort.
Proof. unfold inside. by destruct (m s) as [[a| |] s']. Qed.

(** ** Receiving *)

Definition plen (s : ingress_state) : nat := length (is_pkt s).

Lemma inside_xwithin n s Q : ((n ≤ plen s)%nat → Q tt s) → inside (xwithin n) s Q.
Proof.
  intros H. apply inside_bind, inside_gets, inside_leave_if. intros Hn%Nat.ltb_ge. by apply H.
Qed.

Lemma inside_xpeek off n s Q : (off + n ≤ plen s)%nat → (∀ b, Q b s) → inside (xpeek off n) s Q.
Proof.
  intros H HQ. unfold inside, xpeek, peek, plen in *. by destruct (Nat.leb_spec (off + n) (length (is_pkt s))); [apply HQ|lia].
Qed.
Lemma inside_xpeek8 off s Q : (off + 1 ≤ plen s)%nat → (∀ b, Q b s) → inside (xpeek8 off) s Q.
Proof. intros H HQ. apply inside_bind, inside_xpeek; [done|]. intros b. apply HQ. Qed.
Lemma inside_xpeek16 off s Q : (off + 2 ≤ plen s)%nat → (∀ b, Q b s) → inside (xpeek16 off) s Q.
Proof. intros H HQ. apply inside_bind, inside_xpeek; [done|]. intros b. apply HQ. Qed.
Lemma inside_xpeek32 off s Q : (off + 4 ≤ plen s)%nat → (∀ b, Q b s) → inside (xpeek32 off) s Q.
Proof. intros H HQ. apply inside_bind, inside_xpeek; [done|]. intros b. apply HQ. Qed.

Lemma inside_xpoke off w s Q : (off + length w ≤ plen s)%nat → (∀ s', plen s' = plen s → Q tt s') → inside (xpoke off w) s Q.
Proof.
  intros H HQ. unfold inside, xpoke, poke, plen in *.
  destruct (Nat.leb_spec (off + length w) (length (is_pkt s))); [|lia]. apply HQ. simpl. by rewrite length_inserts.
Qed.

Lemma inside_resize f s Q : (∀ s', Q tt s') → inside (resize f) s Q.
Proof. intros H. apply inside_bind, inside_gets. destruct (f (is_pkt s)); [apply inside_modify, H|done]. Qed.

Lemma inside_xor16 off k s Q : (off + 16 ≤ plen s)%nat → (∀ s', plen s' = plen s → Q tt s') → inside (xor16 off k) s Q.
Proof.
  intros H HQ. unfold inside, xor16, mbind, KM_bind, xpeek, peek, plen in *.
  destruct (Nat.leb_spec (off + 16) (length (is_pkt s))); [|lia]. cbn [lift].
  unfold xpoke, poke. set (w := xor_bytes _ _).
  assert (Hw : (length w ≤ 16)%nat) by (subst w; rewrite length_xor_bytes; unfold window; rewrite length_take; lia).
  destruct (Nat.leb_spec (off + length w) (length (is_pkt s))); [|lia]. apply HQ. simpl. by rewrite length_inserts.
Qed.

(** Walk through a program. *)
Ltac walk_xdp := repeat first
  [ progress cbv beta iota
  | apply inside_xor16; [lia|intros ? ?]
  | apply inside_resize; intros ?
  | match goal with |- inside (_ ≫= _) _ _ => apply inside_bind end
  | apply inside_xwithin; intros ?
  | apply inside_xpeek; [lia|intros ?]
  | apply inside_xpeek8; [lia|intros ?]
  | apply inside_xpeek16; [lia|intros ?]
  | apply inside_xpeek32; [lia|intros ?]
  | apply inside_xpoke; [len; lia|intros ? ?]
  | apply inside_leave
  | apply inside_leave_if; intros ?
  | apply inside_or_leave; intros ? ?
  | apply inside_gets
  | apply inside_modify
  | match goal with |- inside (if ?b then _ else _) _ _ => match type of b with bool => destruct b eqn:? end end
  | apply inside_ret ].

(** What parsing establishes. *)
Definition parsed (r : nat * nat * Z) (s : ingress_state) : Prop :=
  let '(ip_off, udp_off, ipver) := r in
  (14 ≤ ip_off)%nat ∧ (udp_off + 8 ≤ plen s)%nat ∧
  (ipver = 4 ∧ udp_off = (ip_off + 20)%nat ∨ ipver = 6 ∧ udp_off = (ip_off + 40)%nat).

Lemma xdp_parse_safe s : inside xdp_parse s parsed.
Proof. unfold xdp_parse. walk_xdp; unfold parsed; split_and!; try lia; auto. Qed.

Lemma find_payload_safe cfg udp_off s : (udp_off + 8 ≤ plen s)%nat →
  inside (find_payload cfg udp_off) s (λ _ s', s' = s ∧ udp_off + 8 + 32 ≤ plen s)%nat.
Proof.
  intros H. unfold find_payload. walk_xdp. split; [done|].
  match goal with H : _ || _ = false |- _ => rewrite !orb_false_iff, !Nat.ltb_ge in H; unfold WG_MIN_PACKET, plen in *; lia end.
Qed.

Section receive.
  Context `{PK : !PacketKernel} (cfg : GutConfig).

Lemma learn_endpoint_safe ip_off udp_off wg ipver t s :
  parsed (ip_off, udp_off, ipver) s → (wg + 8 ≤ plen s)%nat →
  inside (learn_endpoint cfg ip_off udp_off wg ipver t) s (λ _ s', plen s' = plen s).
Proof using Type.
  intros (H1 & H2 & H3) Hw. unfold learn_endpoint, sender. walk_xdp; try done.
  all: try (match goal with H : (_ =? 4) = true |- _ => apply Z.eqb_eq in H end); lia.
Qed.

Lemma unmask_mac2_safe wg wg_len t ks s :
  inside (unmask_mac2 wg wg_len t ks) s (λ _ s', plen s' = plen s).
Proof using Type.
  unfold unmask_mac2. apply inside_bind, inside_gets.
  destruct (_ && _ && _) eqn:H1; [apply andb_prop in H1 as [_ H1%Nat.leb_le]; fold (plen s) in H1; walk_xdp; lia|].
  destruct (_ && _ && _) eqn:H2 in |- *; [apply andb_prop in H2 as [_ H2%Nat.leb_le]; fold (plen s) in H2; walk_xdp; lia|].
  done.
Qed.

(** The message is at least 32 bytes behind its header. *)
Lemma open_message_safe ip_off udp_off ipver udp_len ballast ks s :
  parsed (ip_off, udp_off, ipver) s → (udp_off + 8 + 10 + 32 ≤ plen s)%nat →
  inside (open_message PGut cfg ip_off udp_off ipver udp_len GUT_HEADER_SIZE ballast ks) s
    (λ f s', plen s' = plen s ∧ vf_ip_off f = ip_off ∧ vf_udp_off f = udp_off ∧ vf_ipver f = ipver).
Proof using Type.
  intros Hp Hl. unfold open_message, GUT_HEADER_SIZE, enc_ports_off, check_header. walk_xdp.
  eapply inside_mono; [apply learn_endpoint_safe; [|lia]|].
  { unfold parsed in *. lia. }
  intros [] s2 Hs2. cbv beta in Hs2. walk_xdp.
  eapply inside_mono; [apply unmask_mac2_safe|]. intros [] s3 Hs3. cbv beta in Hs3. walk_xdp. split_and!; [lia|done..].
Qed.

Lemma open_frame_safe rounds s :
  inside (open_frame PGut rounds cfg) s (λ f s', parsed (vf_ip_off f, vf_udp_off f, vf_ipver f) s').
Proof using Type.
  unfold open_frame. apply inside_bind. eapply inside_mono; [apply xdp_parse_safe|].
  intros [[ip_off udp_off] ipver] s1 Hp. cbv beta iota. apply inside_bind.
  eapply inside_mono; [apply find_payload_safe, Hp|]. intros udp_len ? [-> Hl]. cbv beta zeta.
  unfold inner_header, WG_MIN_PACKET, GUT_HEADER_SIZE. walk_xdp.
  eapply inside_mono; [apply open_message_safe; [done|lia]|].
  intros f s2 (H1 & H2 & H3 & H4). unfold parsed in *. rewrite H1, H2, H3, H4. done.
Qed.

  Context (Htun : length (gc_tun_mac cfg) = 6%nat) (Hsrc : length (gc_src_mac cfg) = 6%nat).

Lemma deliver_safe f s : parsed (vf_ip_off f, vf_udp_off f, vf_ipver f) s →
  inside (deliver_frame cfg f) s (λ _ _, True).
Proof using Htun Hsrc.
  destruct f as [ip_off udp_off ipver udp_len hdr ballast wg_len ports]. cbn [vf_ip_off vf_udp_off vf_ipver].
  intros (H1 & H2 & H3). unfold deliver_frame, rewrite_headers, strip_header, strip_tail, finish_frame. by walk_xdp.
Qed.

Lemma gut_xdp_core_safe rounds s : inside (gut_xdp_core PGut rounds cfg) s (λ _ _, True).
Proof using Htun Hsrc.
  apply inside_bind. eapply inside_mono; [apply open_frame_safe|]. intros f s' Hf. by apply deliver_safe.
Qed.
End receive.

(** ** Sending *)

(** How much of the packet may be accessed directly. *)
Definition dlen (s : egress_state) : nat := data_end (es_skb s).

Lemma inside_within n s Q : ((n ≤ dlen s)%nat → Q tt s) → inside (within n) s Q.
Proof. intros H. apply inside_bind, inside_gets, inside_leave_if. intros Hn%Nat.ltb_ge. by apply H. Qed.

Lemma inside_peek_skb off n s Q : (off + n ≤ dlen s)%nat → (∀ b, length b = n → Q b s) → inside (peek_skb off n) s Q.
Proof.
  intros H HQ. unfold inside, peek_skb, peek, dlen in *.
  destruct (Nat.leb_spec (off + n) (data_end (es_skb s))); [apply HQ|lia].
  apply length_window. unfold data_end, k_len in *. lia.
Qed.
Lemma inside_peek8 off s Q : (off + 1 ≤ dlen s)%nat → (∀ b, Q b s) → inside (peek8 off) s Q.
Proof. intros H HQ. apply inside_bind, inside_peek_skb; [done|]. intros b _. apply HQ. Qed.
Lemma inside_peek16 off s Q : (off + 2 ≤ dlen s)%nat → (∀ b, Q b s) → inside (peek16 off) s Q.
Proof. intros H HQ. apply inside_bind, inside_peek_skb; [done|]. intros b _. apply HQ. Qed.

(** Writes leave the rest of the state as it is. *)
Definition same_rest (s s' : egress_state) : Prop := dlen s' = dlen s ∧ es_clients s' = es_clients s.

Lemma inside_poke_skb off w s Q : (off + length w ≤ dlen s)%nat → (∀ s', same_rest s s' → Q tt s') →
  inside (poke_skb off w) s Q.
Proof.
  intros H HQ. unfold inside, poke_skb, poke, dlen in *.
  destruct (Nat.leb_spec (off + length w) (data_end (es_skb s))); [|lia]. apply HQ. split; [|done].
  unfold dlen, data_end, k_len. simpl. by rewrite length_inserts.
Qed.

Lemma inside_on_bytes (f : list Z → nat → outcome (list Z)) s Q :
  (∀ b e, ∃ b', f b e = Done b' ∧ length b' = length b) → (∀ s', same_rest s s' → Q tt s') → inside (on_bytes f) s Q.
Proof.
  intros Hf HQ. unfold inside, on_bytes. destruct (Hf (k_bytes (es_skb s)) (data_end (es_skb s))) as (b' & -> & Hb).
  apply HQ. split; [|done]. unfold dlen, data_end, k_len. simpl. by rewrite Hb.
Qed.

Lemma poke_total b e off w : (off + length w ≤ e)%nat → ∃ b', poke b e off w = Done b' ∧ length b' = length b.
Proof.
  intros H. unfold poke. destruct (Nat.leb_spec (off + length w) e); [|lia]. eexists. split; [done|]. apply length_inserts.
Qed.

Ltac pokes_total := repeat match goal with
  | |- context [poke ?b ?e ?o ?w] =>
      let b' := fresh "b" in let Hb := fresh "Hb" in let Hl := fresh "Hl" in
      destruct (poke_total b e o w) as (b' & Hb & Hl); [len; lia|]; rewrite Hb, ?bind_Done; clear Hb
  end; eexists; split; [done|congruence].

Lemma write_gut_header_total b e q ppn ep pad : ∃ b',
  BpfCommon.write_gut_header b e q ppn ep pad = Done b' ∧ length b' = length b.
Proof.
  unfold BpfCommon.write_gut_header, GUT_HEADER_SIZE. destruct (Nat.ltb_spec e (q + 10)); [by eexists|]. pokes_total.
Qed.

Lemma write_short_header_total b e q dcid ppn ep pad : ∃ b',
  BpfCommon.write_quic_short_header b e q dcid ppn ep pad = Done b' ∧ length b' = length b.
Proof.
  unfold BpfCommon.write_quic_short_header, GUT_QUIC_SHORT_HEADER_SIZE.
  destruct (Nat.ltb_spec e (q + 16)); [by eexists|]. pokes_total.
Qed.

Section send.
  Context `{PK : !PacketKernel}.

Lemma inside_skb_call f s (Q : unit → egress_state → Prop) :
  (∀ k, Q tt (with_skb k s)) → inside (skb_call f) s Q.
Proof using Type. intros H. apply inside_bind, inside_gets, inside_bind, inside_or_leave. intros k _. apply inside_modify, H. Qed.

Ltac walk_skb := repeat first
  [ progress cbv beta iota
  | apply inside_skb_call; intros ?
  | match goal with |- inside (_ ≫= _) _ _ => apply inside_bind end
  | apply inside_within; intros ?
  | apply inside_peek_skb; [lia|intros ? ?]
  | apply inside_peek8; [lia|intros ?]
  | apply inside_peek16; [lia|intros ?]
  | apply inside_poke_skb; [len; lia|intros ? [? ?]]
  | apply inside_leave
  | apply inside_leave_if; intros ?
  | apply inside_or_leave; intros ? ?
  | apply inside_gets
  | apply inside_modify
  | match goal with |- inside (if ?b then _ else _) _ _ => match type of b with bool => destruct b eqn:? end end
  | apply inside_ret ].

Lemma parse_headers_safe s : inside parse_headers s (λ r s', s' = s ∧ (r.1 + 8 ≤ dlen s)%nat).
Proof using Type. unfold parse_headers. by walk_skb. Qed.

Lemma find_message_safe udp_off s : (udp_off + 8 ≤ dlen s)%nat →
  inside (find_message udp_off) s (λ _ s', s' = s).
Proof using Type. intros H. unfold find_message, skb_load_or_leave. by walk_skb. Qed.

Lemma append_padding_safe n block s :
  inside (append_padding n block) s (λ _ s', es_clients s' = es_clients s).
Proof using Type. unfold append_padding. by walk_skb. Qed.

Lemma mask_message_safe off len t head ks s :
  inside (mask_message off len t head ks) s (λ _ s', es_clients s' = es_clients s).
Proof using Type.
  unfold mask_message, mask_mac2, skb_try. walk_skb; repeat case_match; done.
Qed.

Lemma make_room_safe room shift s : inside (make_room room shift) s
  (λ _ s', es_clients s' = es_clients s ∧ (14 + shift ≤ dlen s')%nat).
Proof using Type.
  unfold make_room. walk_skb. unfold dlen in *. cbn [es_skb es_clients with_skb] in *. split; [done|lia].
Qed.

Lemma inside_endpoint_of c s (Q : peer_endpoint → egress_state → Prop) :
  (∀ ep, es_clients s !! c = Some ep → Q ep s) → inside (endpoint_of c) s Q.
Proof using Type.
  intros H. unfold endpoint_of. walk_skb. destruct (es_clients s !! c) as [ep|]; [|done]. walk_skb. by apply H.
Qed.

Lemma fix_ipv4_safe cfg n port c s : (42 ≤ dlen s)%nat →
  inside (fix_ipv4 cfg n port c) s (λ _ s', dlen s' = dlen s).
Proof using Type.
  intros H. unfold fix_ipv4, route_ipv4, client_ports. walk_skb; try lia.
  apply inside_endpoint_of. intros ep _. walk_skb; lia.
Qed.

Lemma fix_ipv6_safe cfg n port c s : (62 ≤ dlen s)%nat → addrs_ok cfg (es_clients s) →
  inside (fix_ipv6 cfg n port c) s (λ _ s', dlen s' = dlen s).
Proof using Type.
  intros H ([_ Hb] & [_ Hp] & Hcs). unfold fix_ipv6, route_ipv6, client_ports. walk_skb; try lia.
  apply inside_endpoint_of. intros ep Hep.
  assert (Hc : es_clients s !! c = Some ep) by congruence. destruct (Hcs _ _ Hc) as [[_ He1] [_ He2]].
  set (a := if bool_decide _ then _ else _).
  assert (Ha : length a = 16%nat) by (subst a; by case_bool_decide). walk_skb; lia.
Qed.

Lemma drop_keepalive_safe cfg r t n s : inside (drop_keepalive cfg r t n) s (λ _ s', s' = s).
Proof using Type. unfold drop_keepalive. by walk_skb. Qed.

Lemma bridge_session_safe cfg t head s :
  inside (bridge_session cfg t head) s (λ _ s', es_clients s' = es_clients s).
Proof using Type. unfold bridge_session. by walk_skb. Qed.

Lemma write_header_safe m hdr q (ks : list Z) ppn ep pad tc s :
  inside (match m with
      | PGut => on_bytes (λ b e, BpfCommon.write_gut_header b e q ppn ep pad)
      | PQuic =>
          if (hdr =? GUT_QUIC_SHORT_HEADER_SIZE)%nat
          then on_bytes (λ b e, BpfCommon.write_quic_short_header b e q (ks !!! 9%nat) ppn ep pad)
          else leave (TcTailCall tc)
      end : EM unit) s (λ _ s', same_rest s s').
Proof using Type.
  destruct m; [|destruct (_ =? _)%nat; [|done]]; apply inside_on_bytes; try done; intros b e;
    [apply write_gut_header_total|apply write_short_header_total].
Qed.

Lemma take_message_safe cfg prandom s :
  inside (take_message cfg prandom) s (λ _ s', es_clients s' = es_clients s).
Proof using Type.
  unfold take_message, next_seq. walk_skb.
  eapply inside_mono; [apply parse_headers_safe|]. intros [udp_off ipver] ? [-> Hu]. cbn [fst] in Hu. walk_skb.
  eapply inside_mono; [by apply find_message_safe|]. intros [[wg_off wg_len] head] ? ->. walk_skb.
  eapply inside_mono; [apply drop_keepalive_safe|]. intros [] ? ->. by walk_skb.
Qed.

Lemma hide_message_safe m rounds cfg o s : inside (hide_message m rounds cfg o) s
  (λ _ s', es_clients s' = es_clients s ∧ (14 + (if (og_ipver o =? 4)%Z then 28 else 48) ≤ dlen s')%nat).
Proof using Type.
  destruct o as [wg_off wg_len head ipver ports tport]. cbn [og_ipver]. unfold hide_message. walk_skb.
  eapply inside_mono; [apply append_padding_safe|]. intros pad s1 H1. walk_skb.
  eapply inside_mono; [apply bridge_session_safe|]. intros c_idx s2 H2. walk_skb.
  eapply inside_mono; [apply mask_message_safe|]. intros [] s3 H3. walk_skb.
  eapply inside_mono; [apply make_room_safe|]. intros [] s4 [H4 H4l]. walk_skb.
  eapply inside_mono; [apply write_header_safe|]. intros [] s5 [H5l H5]. walk_skb.
  cbv beta in *. rewrite H5l. split; [congruence|done].
Qed.

Lemma gut_egress_safe m rounds cfg prandom s : addrs_ok cfg (es_clients s) →
  length (gc_dst_mac cfg) = 6%nat → length (gc_src_mac cfg) = 6%nat →
  inside (gut_egress m rounds cfg prandom) s (λ _ _, True).
Proof using Type.
  intros Ha Hd Hs. unfold gut_egress, send_frame. walk_skb.
  eapply inside_mono; [apply take_message_safe|]. intros o s1 H1. walk_skb.
  eapply inside_mono; [apply hide_message_safe|]. intros [c_idx n] s2 [H2 H2l]. walk_skb.
  - eapply inside_mono; [apply fix_ipv4_safe; lia|]. intros [] s3 H3. cbv beta in H3. by walk_skb.
  - cbv beta in H1. rewrite <- H1, <- H2 in Ha.
    eapply inside_mono; [apply fix_ipv6_safe; [lia|done]|]. intros [] s3 H3. cbv beta in H3. by walk_skb.
Qed.
End send.

(** C12: The packet programs stay inside the packet.  Whatever the frame, the
    maps, the random number and the results of the helpers are, and for
    addresses of the right lengths, [gut_egress] (in both modes) and
    [gut_xdp_core] (in the GUT mode) never read or write the packet outside of
    the bounds that were checked before. *)
Theorem packet_programs_safe `{PK : !PacketKernel} m rounds cfg prandom s r :
  addrs_ok cfg (es_clients s) → length (gc_dst_mac cfg) = 6%nat → length (gc_src_mac cfg) = 6%nat →
  length (gc_tun_mac cfg) = 6%nat →
  (gut_egress m rounds cfg prandom s).1 ≠ Abort ∧ (gut_xdp_core PGut rounds cfg r).1 ≠ Abort.
Proof.
  intros. split; eapply inside_safe; [by apply gut_egress_safe|by apply gut_xdp_core_safe].
Qed.

Lemma packet_programs_safe_witness :
  (gut_egress PQuic 4 sample_cfg 7 (sample_skb (replicate 40 3))).1 ≠ Abort ∧
  (gut_xdp_core PGut 4 sample_cfg (mkIngress (replicate 60 8) stats_default ∅ ∅)).1 ≠ Abort.
Proof.
  apply (packet_programs_safe PQuic 4 sample_cfg 7 (sample_skb (replicate 40 3))); [|done..].
  split; [|split]; [split|split|done]; try done; by apply (bool_decide_unpack _); vm_compute.
Defined.

(** In the QUIC mode the last byte of a long header is read before the length
    of the packet is compared with that of the header. *)
Example long_header_read :
  (gut_xdp_core PQuic 4 sample_cfg
     (mkIngress (list_inserts 36 (be_bytes 2 443) (sample_frame (replicate 40 0xC3))) stats_default ∅ ∅)).1 = Abort.
Proof. vm_compute. done. Qed.

(** ** Dispatching *)

Lemma dwithin_Ok off F : (off ≤ length F)%nat → dwithin off F = (Ok tt, F).
Proof. intros H. unfold dwithin. kret. unfold leave_if, id. by destruct (Nat.ltb_spec (length F) off); [lia|]. Qed.
Lemma dpeek_Ok off n F : (off + n ≤ length F)%nat → dpeek off n F = (Ok (window off n F), F).
Proof. intros H. unfold dpeek, peek. by destruct (Nat.leb_spec (off + n) (length F)); [|lia]. Qed.
Lemma dpeek8_Ok off F : (off + 1 ≤ length F)%nat → dpeek8 off F = (Ok (F !!! off), F).
Proof. intros H. unfold dpeek8. kstep (dpeek_Ok off 1 F H). by rewrite lookup_total_window, Nat.add_0_r by lia. Qed.
Lemma dpeek16_Ok off F : (off + 2 ≤ length F)%nat → dpeek16 off F = (Ok (from_be (window off 2 F)), F).
Proof. intros H. unfold dpeek16. by kstep (dpeek_Ok off 2 F H). Qed.

(** The dispatcher hands a UDP frame to the program of its destination port. *)
Lemma dispatch_frame pm has_prog v F sp dp payload : udp_frame v F sp dp payload → 0 ≤ dp < 2 ^ 16 →
  xdp_dispatch pm has_prog F
  = (Ok (match pm !! dp with
         | Some i => if has_prog i then XdpTailCall i else XDP_PASS
         | None => XDP_PASS
         end), F).
Proof.
  intros [_ Hl Ht Hip _ Hdp _] Hd. unfold payload_at, udp_at in *. unfold xdp_dispatch.
  kstep (dwithin_Ok 14 F ltac:(lia)). kstep (dpeek16_Ok 12 F ltac:(lia)).
  rewrite Ht, from_be_u16 by by destruct v.
  replace (ether_type v =? ETH_P_8021Q) with false by by destruct v. kret.
  destruct v; cbn [ether_type ip_len Nat.add] in *.
  - change (0x0800 =? ETH_P_IP) with true. cbv iota.
    kstep (dwithin_Ok 34 F ltac:(lia)). kstep (dpeek8_Ok 23 F ltac:(lia)). destruct Hip as [Hi ->].
    change (negb (17 =? IPPROTO_UDP)) with false. kret. kstep (dpeek8_Ok 14 F ltac:(lia)). rewrite Hi.
    kstep (dwithin_Ok 42 F ltac:(lia)). kstep (dpeek16_Ok 36 F ltac:(lia)). rewrite Hdp, from_be_u16 by done.
    by destruct (pm !! dp).
  - change (0x86DD =? ETH_P_IP) with false. change (0x86DD =? ETH_P_IPV6) with true. cbv iota.
    kstep (dwithin_Ok 54 F ltac:(lia)). kstep (dpeek8_Ok 20 F ltac:(lia)). rewrite Hip.
    change (negb (17 =? IPPROTO_UDP)) with false. kret.
    kstep (dwithin_Ok 62 F ltac:(lia)). kstep (dpeek16_Ok 56 F ltac:(lia)). rewrite Hdp, from_be_u16 by done.
    by destruct (pm !! dp).
Qed.
